(* ===== verification/_CoqProject ===== *)
-Q . S2P
Prelude.v
GoStrings.v
Policy.v
Scope.v
Resolve.v
JsonLex.v
Json.v
Retention.v
Envelope.v
Pending.v
Protocol.v
Run.v
Lifecycle.v
Order.v
Client.v
LlmSchema.v
LlmAdapter.v
LlmStep.v
JsonAny.v
SchemaAdmission.v
Caller.v
Checks.v
Forward.v
Session.v
ServerRequest.v
Facades.v
Runner.v
Transport.v
PublicationText.v
Boundary.v
Inspection.v
Publish.v
Sync.v
Disk.v
Drift.v
Surface.v
Regex.v
CommonRS.v
Manifest.v
Coverage.v
GeneratedCheck.v
Upgrade.v
Plans.v
Applied.v
Goal.v
GoalSnapshot.v
Rebinding.v
GoalPublication.v
Desk.v
GoalIntents.v
GoalDiagnostics.v
GoalProgress.v
GoalFlow.v
GoalAcceptance.v
GoalHandoff.v
NativeForward.v
Integration.v
GoalPrepare.v
GoalPreflight.v
GoalRecovery.v
Lockfile.v
Sandbox.v
GateInputs.v
GoalVerify.v
Verified.v
Polls.v
