(* ===== verification/Prelude.v ===== *)
(** * Verification of llm-go

    The repository is a Go SDK for the Codex app-server ([src/codexsdk]), the
    provider-neutral inference kit ([src/llmkit]), the caller that joins the two
    ([src/llmcaller/codex]), and the machinery that keeps the generated protocol
    package in step with its upstream ([src/codexsdk/internal]).  This library
    models the hand-written logic of the four and proves what makes it correct.

    ** The program and the files of the library

    - _Generic_.  [Prelude]: Go errors ([etype], [error], [errors_as]), the result
      monad [res], tactics and list lemmas.  [GoStrings]: Go's [strings], [path],
      [strconv] and [regexp] as far as the code uses them.
    - _JSON_.  [JsonLex] is Go's [encoding/json] decoder over lexemes; [Json] the
      dynamic values of [protocolv2/json_value.go] (parser, printer, pointers);
      [JsonAny] relates the printer to decoding into [any]; [Envelope] is
      [codexsdk/jsonrpc_envelope.go].
    - _The client_.  [Retention] ([notification_retention.go]), [Lifecycle]
      ([lifecycle.go] and the closing parts of [notification_dispatch.go]),
      [Pending] (the pending-call table of [client.go]), [Protocol]
      ([notification_attribution.go] and the contract of the generated package),
      [Run] (the shared state of one exact run, [exact_runner.go]), [Client]
      (routing, attachment and failure, [client.go] and
      [notification_dispatch.go]), [Order] (the evidence of one run across
      attachment, replay and failure, as interleaved goroutines), [Session] (a
      goroutine of the client with its surroundings), [ServerRequest]
      ([server_request.go], [exact_server_request.go]), [Facades] ([facades.go]
      and the gate of a call), [Runner] (starting and resuming runs,
      [exact_runner.go]) and [Transport] (the reader, [client.go]).  The reader
      feeds [Client.routeEnvelope]; a runner makes calls through [Facades] and
      attaches its run to the routes of [Client], which accept notifications into
      [Run] under the budget of [Retention]; [Lifecycle] decides which failure is
      the cause everybody reports.
    - _The inference kit_.  [LlmSchema] ([llmschema/schema.go]), [LlmAdapter]
      ([llmadapter]), [LlmStep] ([llmstep/step.go]).
    - _The Codex caller_.  [SchemaAdmission] ([llmcaller/codex/schema.go]) and
      [Caller] ([caller.go], [clone.go]), an implementation of the adapter's
      caller by a runner.
    - _Protocol synchronisation_ ([codexsdk/internal/protocolsync] and
      [checkacceptance]).  [Policy] decides whether a baseline may advance,
      [Resolve] finds the target, [Scope] bounds what a phase may write,
      [PublicationText] holds the texts of a pull request, [Checks] judges the
      required checks of a head, and [Forward] moves main to an accepted head.
      [Boundary] is git and the GitHub API as the flows call them: a flow is a
      function over a world and a log of what was asked and answered.  On it
      [Inspection] ([pending.go]) finds the publication to continue, [Publish]
      ([publication.go], [publish.go]) pushes a candidate and opens or updates
      its pull request, and [Sync] ([sync.go]) is the whole sync of a baseline.
    - _Baselines_ ([codexsdk/internal/protocolupgrade] and [generatedcheck]).
      [Disk] is the file system: a tree that others may change and whose system
      calls may fail, and a journal of what the program did.  On it [Drift]
      ([schema.go], [compare.go], [reports.go]) compares two directories of
      schemas, [Surface] ([surface.go]) two exported surfaces, [Regex] and
      [CommonRS] ([commonrs.go]) read response types from Rust macros,
      [Manifest] and [Coverage] ([manifest.go], [current_facts.go]) derive the
      classified manifest and the coverage matrix, [GeneratedCheck] regenerates
      and compares the generated files, and [Upgrade] ([apply.go], [plan.go],
      [exact.go], [materialize.go], [check.go], [compatibility.go]) plans an
      upgrade in a private directory, verifies one and applies it.  [Plans] and
      [Applied] hold the theorems about [Upgrade]: where it writes, and what it
      leaves.
    - _Goals_ ([goal_*.go] and [auto_forward_*.go] of
      [codexsdk/internal/protocolsync]).  A goal is a run of the native Codex
      runtime that repairs a candidate, with one fixed tool that verifies,
      publishes and observes it.  [Goal] is what every part rests on: the host
      ([Host], over [Boundary]), the trusted binding of a goal and the checks of
      its current authority, and the reasoning about flows along a relation of
      states ([along]).  [GoalSnapshot] freezes and digests a candidate;
      [Rebinding] decides which moves of main keep a goal; [GoalPublication]
      retains an intent, pushes a verified candidate once and reconciles it;
      [GoalDiagnostics] are the redacted records of a verification and
      [GoalProgress] the lines of a workflow's log; [GoalFlow] is the tool and
      the flow around it; [GoalHandoff] hands a completed goal over and marks its
      draft ready; [GoalPreflight], [GoalPrepare] and [GoalRecovery] decide
      whether a goal may start, make its draft, and recover one from the
      artifact of an earlier run; [NativeForward] implements the operations of
      [Forward] over git and GitHub.  [GoalIntents], [GoalAcceptance],
      [Integration] and [Polls] hold theorems about them, and [Desk] is the small
      host that their witnesses run on.
    - _Verification of a candidate_ ([goal_verify.go], [goal_source.go],
      [repair_sandbox.go], [lockfile.go] of the same package).  [Sandbox] is how
      a command runs and the bubblewrap sandbox with the proof of its boundary;
      [GateInputs] what the gates read besides the candidate; [GoalVerify] the
      local verification of a frozen copy and the same gates in CI, with
      [Verified] its theorems; [Lockfile] projects the versions of a workspace
      onto a Cargo.lock.  [GoalFlow] calls [GoalVerify] through the field
      [local] of its operations.

    ** What the theorems show

    - _Answers are given once._  A pending call is answered at most once, by its
      response or by the failure of the client ([Pending]); a server request is
      answered by exactly one frame ([ServerRequest]); a call leaves the client
      only through its gates ([Facades]).
    - _Runs end, once, with the first cause._  [Run] shows that the terminal event
      is last and the first cause stays; [Client] that failing a client ends
      every run, waiter and route with the published cause, and that a
      notification only touches the run it is routed to; [Runner] that no open
      stream is orphaned, each being routed the notifications of its own turn,
      and that a turn is only started after its admission; [Order] that the
      evidence of a run is in the order it was read under every interleaving, but
      for one notification that may overtake saved ones once the client is closed
      ([saved_evidence_overtaken]); [Lifecycle] that the first cause wins.
    - _Bounds._  The retention budget is never exceeded
      ([Retention]); a frame is the first line within its limit ([Transport]); a
      step never exceeds its iterations ([LlmStep]).
    - _Texts._  A JSON value is parsed back from what it prints exactly when its
      strings and keys are UTF-8, as those of every parsed value are ([Json]); an
      envelope that is decoded has the shape of its kind, and each field is what
      the decoder says ([Envelope]); the hidden block of a pull request survives
      any body, and blocks do not accumulate ([PublicationText]).
    - _Decisions._  A schema is admitted exactly when the specification admits it
      ([SchemaAdmission]); a head is accepted only on a stable listing of
      completed, successful, required checks ([Checks]); main moves only to a
      head proved and accepted just before ([Forward]).
    - _Effects on the repository._  An inspection only reads, and what it reports is
      what git and the API answered ([Inspection]); a publication changes the
      remote only after its plan was justified, by one leased push and one write
      of the pull request, and what it reports was read back ([Publish]); a sync
      applies an upgrade only outside its read-only modes, for an allowed target
      with a ready plan, and its outputs cannot be forged by a text it reports
      ([Sync]).
    - _Baselines._  A comparison is clean exactly when the schemas have the same
      canonical texts and methods, and lists exactly the differences ([Drift]);
      a release impact is breaking exactly when an exported identity is lost or
      weakened ([Surface]); the manifest classifies each method by where it
      stands ([Manifest]) and no old annotation overrides the current coverage
      ([Coverage]).  A plan touches nothing outside fresh temporary directories
      ([Plans]); an application leaves the candidate's schemas and the prepared
      files, and an exact verification accepts only a module that equals its
      rebuilding ([Applied]); a generated check accepts only what the generator
      makes ([GeneratedCheck]).

    - _Goals._  Over any number of runs the retained intents of a goal form one
      chain and no push is replayed ([GoalIntents]); a goal is accepted only when
      the tool's last call verified a snapshot, published it, saw its required
      checks succeed and found the candidate unchanged, and both are checked
      again at the end ([GoalAcceptance]); a handoff marks the draft ready at
      most once ([GoalHandoff]); a preparation pushes one seed and opens one pull
      request ([GoalPrepare]); a preflight only reads, and finds at most one goal
      ([GoalPreflight]); a recovery only observes, and admits only what it can
      authenticate ([GoalRecovery]); integrating a candidate has only the pushes
      that the loop's calls may make, each after its demands and on the one branch
      of the candidate or on main, and is proved for the exact main and head
      ([Integration]); the records of an output are redacted as its whole text
      would be, however it is cut, unless secrets overlap in it without one being
      inside the other ([GoalDiagnostics]); waiting for CI and for
      a merge ends with the deadline ([Polls]).
    - _Verification._  What a passed verification rests on, that no command of a
      candidate runs outside its sandbox or sees the caller's environment, and
      that the evidence of a native test depends on how its output was cut only
      through the limit on what is pending ([Verified]); what a command in the sandbox can change and see
      ([Sandbox]); that a prepared lock file only moves local versions, rewrites
      only the references that name one, and keeps what a reference designates
      ([Lockfile]).

    ** How the code is modelled

    - A Go pointer to shared state is an address in a heap of the model; a nil
      pointer, a nil slice and a panic are [None].  [error] values keep identity,
      type and wrapping; the text of a formatted error is its format string.
    - A method that holds a mutex is one atomic function.  Sequential models
      ([Client], [Session]) let the rest of the program change the client wherever the goroutine waits
      or calls out; interleavings inside one handler are the subject of
      [Pending], [Lifecycle] and [Order], step relations over critical sections.  Waits
      that only delay are left out.
    - A Go map is a [gmap]; where its unspecified order could matter the theorem does not
      depend on it ([SchemaAdmission.walk_exact]).
    - JSON text is the list of its lexemes: scanning bytes into lexemes belongs to
      the standard library.  What it makes of invalid UTF-8 in strings and keys,
      reading and writing, is [JsonLex.coerce].  A map with duplicate members
      keeps the last.
    - The disk ([Disk]) may be changed by others before each system call, and any
      call may fail, a write leaving any bytes; "nothing else changing the disk"
      is the hypothesis [quiet].  Symbolic links and permissions are left out.
      sha256, the encodings of Go structs, the clock, git and the go command are
      classes; so is the generator of Go code ([Generator]).  A Go map is written
      in the order of its keys where the code sorts them, and in the order of the
      map's list elsewhere.
    - Generated code and packages outside [src] are classes or arguments:
      [ProtocolTypes], [CodexTypes], [ServerRequestTypes], [ExperimentalMembers],
      [RunnerTypes], the schema compiler and validator, git and the GitHub API.
      Hooks, callers, git and the API are functions over a world that may answer
      anything and change it.
    - A process is a tree of writes and of steps that change the world as they
      like; so is the native runtime of a goal.  What bubblewrap makes of its
      flags is [Sandbox.read_mounts]: mounts in order, the last one at or above a
      path deciding, as its documentation says.  Directory walks list what they
      would visit at once.  Deferred calls are [finally] and the wrappers around
      a flow.

    ** Fuel

    [Json.parse_fuel] (twice the lexemes and one) is enough for every document;
    [SchemaAdmission.admit_fuel] bounds the distinct local references times the size of the
    schema; a listing of [Checks] reads at most the code's hundred pages;
    [LlmStep] iterates at most [MaxIterations] times; [Forward.AutoForward] one
    round per unit of the deadline left; [Transport.readLoop] one round per byte
    and one.  In each case a theorem shows that the fuel is not what ends the
    recursion.  [GoalFlow.ObserveGoalCI] and [NativeForward.Cleanup] take a bound
    on their rounds, which the code does not have; [Polls] shows that any bound
    above the rounds left before the deadline gives the same result.
    [GoalVerify.observe_lines] takes one round per byte and one.  The listing of
    pull requests of [Boundary] takes a bound on its
    pages, which the code does not have; [Inspection.list_prs_exhausted] shows
    that only a listing that goes on past it reaches it.

    ** Not modelled

    Process supervision and the executor of the repair runtime ([process*.go],
    [internal/codexexec] but [NativeGoalRuntimePaths]); the generator
    [internal/protocolgen] and what it generates; generation of candidates and
    digests of files ([candidate.go], [digest.go]), which the sync takes as
    operations; the local repair of an integration and the verification of a
    forward candidate ([integration_repair.go], [verifyForwardCandidate]), which
    are callbacks of [NativeForward]; the download of failed job logs
    ([goal_ci_diagnostics.go]), an operation of [GoalFlow]; the [gh] client of
    [goal_api.go]; [VerifyOfflineProvenance], which runs as a command inside the
    sandbox; the runners that tests inject; command-line front ends
    ([internal/cmd]) and the repository's own tools.  The branch of
    [client.go] for global pending notifications is left out: nothing sets it.

    ** What could follow

    The type plan of the generator ([protocolgen/type_plan.go]), an instance of
    [Generator]; [integration_repair.go] as an implementation of the repair
    callback over [GoalVerify]; the diagnostics of failed CI. *)

From stdpp Require Export base list strings gmap fin_maps.

(** * Go errors *)

(** The typed errors of the repository that its code inspects with
    [errors.As] or whose fields it reads.  Each constructor carries the fields
    of the Go struct except [Err], which is the wrapped error of [Typed]. *)
Inductive etype :=
| ValueErrorT (stage : string)
| StepErrorT (stage : string) (iteration : Z)
| FailureT (category : string)
| SchemaPolicyT (path kind : string)
| SchemaValidationT (violations : list (string * string * string))
| IncompatibilityT (stage path : string)
| UnsupportedSchemaT (path : string)
| SourceIntegrityT
| VerificationT
| TurnErrorT (thread turn status : string)
| TurnAdmissionT
| ProtocolErrorT (method : string) (code : Z) (message : string)
| GoalPublicationT (stage category : string) (exit_code : Z)
| AppTokenT (failure status : Z)
| ExitT (code : Z)
| ExactServerRequestT (kind reason : string)
| RawHandlerT.

(** An error value: a package-level [errors.New] value, which Go compares by
    identity and which its message names; an error built by code outside the
    model; a formatted error with the errors its [%w] verbs (or [errors.Join])
    wrap; a typed error with the errors its [Unwrap] returns.  The text of a
    formatted error is its format string: the formatted arguments are not part
    of the model. *)
Inductive error :=
| Sentinel (message : string)
| Foreign (id : nat)
| Errorf (format : string) (wraps : list error)
| Typed (t : etype) (wraps : list error).

#[export] Instance etype_eq_dec : EqDecision etype.
Proof. solve_decision. Defined.

Fixpoint error_beq (a b : error) {struct a} : bool :=
  let fix go (xs ys : list error) {struct xs} : bool :=
    match xs, ys with
    | [], [] => true
    | x :: xs', y :: ys' => error_beq x y && go xs' ys'
    | _, _ => false
    end in
  match a, b with
  | Sentinel s, Sentinel t => bool_decide (s = t)
  | Foreign m, Foreign n => bool_decide (m = n)
  | Errorf s xs, Errorf t ys => bool_decide (s = t) && go xs ys
  | Typed s xs, Typed t ys => bool_decide (s = t) && go xs ys
  | _, _ => false
  end.

Section error_ind.
Context (P : error -> Prop).
Context (Hs : forall m, P (Sentinel m)) (Hf : forall n, P (Foreign n)).
Context (He : forall t l, Forall P l -> P (Errorf t l)).
Context (Ht : forall t l, Forall P l -> P (Typed t l)).
Fixpoint error_nested_ind (e : error) : P e :=
  let fix go (l : list error) : Forall P l :=
    match l with
    | [] => Forall_nil_2 P
    | x :: l' => Forall_cons_2 P x l' (error_nested_ind x) (go l')
    end in
  match e with
  | Sentinel m => Hs m
  | Foreign n => Hf n
  | Errorf t l => He t l (go l)
  | Typed t l => Ht t l (go l)
  end.
End error_ind.

Lemma error_beq_eq a b : error_beq a b = true <-> a = b.
Proof.
  split.
  - revert b. induction a as [m|n|t l IH|t l IH] using error_nested_ind;
      intros [m'|n'|t' l'|t' l']; simpl; try discriminate.
    + intros H%bool_decide_eq_true. by subst.
    + intros H%bool_decide_eq_true. by subst.
    + intros [->%bool_decide_eq_true H]%andb_true_iff. f_equal.
      revert l' H. induction IH as [|x l Hx _ IHl]; intros [|y l'] H; try done.
      apply andb_true_iff in H as [H1 H2]. f_equal; auto.
    + intros [->%bool_decide_eq_true H]%andb_true_iff. f_equal.
      revert l' H. induction IH as [|x l Hx _ IHl]; intros [|y l'] H; try done.
      apply andb_true_iff in H as [H1 H2]. f_equal; auto.
  - intros ->. induction b as [m|n|t l IH|t l IH] using error_nested_ind; simpl.
    + by apply bool_decide_eq_true.
    + by apply bool_decide_eq_true.
    + rewrite bool_decide_eq_true_2 by done. simpl.
      induction IH as [|x l Hx _ IHl]; [done|]. by rewrite Hx.
    + rewrite bool_decide_eq_true_2 by done. simpl.
      induction IH as [|x l Hx _ IHl]; [done|]. by rewrite Hx.
Qed.

#[export] Instance error_eq_dec : EqDecision error.
Proof.
  intros a b. destruct (error_beq a b) eqn:E.
  - left. by apply error_beq_eq.
  - right. intros H%error_beq_eq. congruence.
Defined.

(** [errors.Is(err, ErrX)] for a package-level sentinel: the tree below [err]
    is searched in pre-order, so for a boolean answer any occurrence counts. *)
Fixpoint errors_is (target : string) (e : error) : bool :=
  match e with
  | Sentinel m => bool_decide (m = target)
  | Foreign _ => false
  | Errorf _ l | Typed _ l => existsb (errors_is target) l
  end.

(** The typed errors below [err] in the order [errors.As] visits them. *)
Fixpoint errors_types (e : error) : list etype :=
  match e with
  | Sentinel _ | Foreign _ => []
  | Errorf _ l => flat_map errors_types l
  | Typed t l => t :: flat_map errors_types l
  end.

(** [errors.As]: the first typed error that [f] selects. *)
Definition errors_as {A} (f : etype -> option A) (e : error) : option A :=
  head (omap f (errors_types e)).

(** [errors.Join(a, b)]: nil errors are dropped, and the join of none is nil. *)
Definition errors_join (es : list (option error)) : option error :=
  match omap (fun o => o) es with
  | [] => None
  | l => Some (Errorf "errors.Join" l)
  end.

Lemma errors_join_None es : errors_join es = None <-> Forall (fun o => o = None) es.
Proof.
  unfold errors_join. induction es as [|[e|] es IH]; simpl.
  - split; [constructor | done].
  - split; [done | intros H; inversion H; done].
  - rewrite IH. split; [by constructor | by inversion 1].
Qed.

Lemma errors_join_is t es :
  (exists e, errors_join es = Some e /\ errors_is t e = true) <->
  (exists e, Some e ∈ es /\ errors_is t e = true).
Proof.
  unfold errors_join. destruct (omap _ es) as [|x l] eqn:E.
  - split; [by intros (e & ? & _)|]. intros (e & Hin & _).
    assert (e ∈ omap (fun o : option error => o) es) as Hin' by (apply list_elem_of_omap; eauto).
    rewrite E in Hin'. by apply not_elem_of_nil in Hin'.
  - split.
    + intros (e & [= <-] & H). simpl in H. change (existsb (errors_is t) (x :: l) = true) in H.
      apply existsb_exists in H as (y & Hy & Ht). rewrite <- E in Hy.
      apply list_elem_of_In, list_elem_of_omap in Hy as (o & Ho & ->). eauto.
    + intros (e & Hin & Ht). eexists; split; [done|]. simpl.
      change (existsb (errors_is t) (x :: l) = true). apply existsb_exists.
      exists e. split; [|done]. rewrite <- E. apply list_elem_of_In, list_elem_of_omap. eauto.
Qed.

(** * Results *)

(** A Go call that returns a value or a non-nil error. *)
Inductive res (A : Type) :=
| Ok (a : A)
| Err (e : error).
Arguments Ok {A} a.
Arguments Err {A} e.

#[export] Instance res_ret : MRet res := fun A a => Ok a.
#[export] Instance res_bind : MBind res := fun A B f r =>
  match r with Ok a => f a | Err e => Err e end.
#[export] Instance res_fmap : FMap res := fun A B f r =>
  match r with Ok a => Ok (f a) | Err e => Err e end.

#[export] Instance res_eq_dec `{EqDecision A} : EqDecision (res A).
Proof. solve_decision. Defined.

Definition is_ok {A} (r : res A) : bool := match r with Ok _ => true | Err _ => false end.

(** [if cond { return err }] *)
Definition guard_err (b : bool) (e : error) : res unit := if b then Err e else Ok tt.

Lemma bind_Ok {A B} (f : A -> res B) (r : res A) (b : B) :
  (r ≫= f) = Ok b <-> exists a, r = Ok a /\ f a = Ok b.
Proof. destruct r; simpl; split; [eauto | by intros (? & [= ->] & ?) | done | by intros (? & ? & _)]. Qed.

Lemma bind_Err {A B} (f : A -> res B) (r : res A) (e : error) :
  (r ≫= f) = Err e <-> r = Err e \/ exists a, r = Ok a /\ f a = Err e.
Proof.
  destruct r; simpl; split.
  - right. eauto.
  - by intros [?|(? & [= ->] & ?)].
  - intros [= ->]. by left.
  - by intros [[= ->]|(? & ? & _)].
Qed.

Lemma guard_err_Ok b e u : guard_err b e = Ok u <-> b = false.
Proof. unfold guard_err. destruct b, u; split; congruence. Qed.

(** * Tactics *)

(** Turn boolean tests in the hypotheses into the propositions they decide. *)
Ltac reflect_bools :=
  repeat match goal with
  | H : _ && _ = true |- _ => apply andb_true_iff in H as [? ?]
  | H : _ || _ = false |- _ => apply orb_false_iff in H as [? ?]
  | H : negb _ = true |- _ => apply negb_true_iff in H
  | H : negb _ = false |- _ => apply negb_false_iff in H
  | H : bool_decide _ = true |- _ => apply bool_decide_eq_true in H
  | H : bool_decide _ = false |- _ => apply bool_decide_eq_false in H
  end.

(** Split the successful run of a chain of [res] binds and guards. *)
Ltac unbind :=
  repeat match goal with
  | H : (_ ≫= _) = Ok _ |- _ => apply bind_Ok in H as (? & ? & ?)
  | H : guard_err _ _ = Ok _ |- _ => apply guard_err_Ok in H
  | H : mret _ = Ok _ |- _ => injection H as H
  | H : Ok _ = Ok _ |- _ => injection H as H
  | H : Err _ = Ok _ |- _ => discriminate H
  end.

(** Case analysis on every [match] or [if] scrutinee of the goal. *)
Ltac split_matches := repeat (case_match; simplify_eq/=; try done).

(** * Lists *)

Lemma existsb_false_Forall {A} (f : A -> bool) l :
  existsb f l = false <-> Forall (fun x => f x = false) l.
Proof.
  induction l as [|x l IH]; simpl; [by split|].
  rewrite orb_false_iff, IH, Forall_cons. done.
Qed.

Lemma forallb_Forall {A} (f : A -> bool) l :
  forallb f l = true <-> Forall (fun x => f x = true) l.
Proof.
  induction l as [|x l IH]; simpl; [by split|].
  rewrite andb_true_iff, IH, Forall_cons. done.
Qed.

(** The tests of a slice for membership and for a repeated element. *)
Definition mem `{EqDecision A} (x : A) (l : list A) : bool := bool_decide (x ∈ l).

Lemma mem_true `{EqDecision A} (x : A) l : mem x l = true <-> x ∈ l.
Proof. apply bool_decide_eq_true. Qed.

Lemma mem_false `{EqDecision A} (x : A) l : mem x l = false <-> x ∉ l.
Proof. apply bool_decide_eq_false. Qed.

Create HintDb go.
Create Rewrite HintDb go_eqs.
#[export] Hint Resolve list_elem_of_here list_elem_of_further : go.
#[export] Hint Rewrite @bind_Ok @bind_Err @mem_true @mem_false : go_eqs.

(** * Partial state computations *)

(** The state in which a computation ends; [start] when it panics. *)
Definition end_of {A B} (start : B) (r : option (A * B)) : B :=
  match r with Some (_, s) => s | None => start end.

Lemma ends_with {A B} (start : B) (r : option (A * B)) x : fst <$> r = Some x -> r = Some (x, end_of start r).
Proof. destruct r as [[y s]|]; simpl; [by intros [= ->] | done]. Qed.
