(* ===== verification/GoStrings.v ===== *)
(** The functions of Go's [strings], [path], [strconv] and [regexp] packages
    that the modelled code uses, on byte strings ([string] is a list of bytes,
    as a Go string is), and the lemmas the components share about them. *)

From S2P Require Import Prelude.
From Stdlib Require Import Ascii.
From stdpp Require Export pretty.

Local Open Scope string_scope.

(** * Slices of strings *)

Fixpoint str_drop (n : nat) (s : string) : string :=
  match n, s with
  | O, _ => s
  | S n', String _ s' => str_drop n' s'
  | S _, EmptyString => EmptyString
  end.

Fixpoint str_take (n : nat) (s : string) : string :=
  match n, s with
  | O, _ => EmptyString
  | S n', String c s' => String c (str_take n' s')
  | S _, EmptyString => EmptyString
  end.

(** [strings.HasPrefix], [strings.HasSuffix], [strings.TrimPrefix]. *)
Fixpoint has_prefix (p s : string) : bool :=
  match p, s with
  | EmptyString, _ => true
  | String a p', String b s' => Ascii.eqb a b && has_prefix p' s'
  | String _ _, EmptyString => false
  end.

Definition has_suffix (p s : string) : bool :=
  (String.length p <=? String.length s)%nat
  && String.eqb (str_drop (String.length s - String.length p) s) p.

Definition trim_prefix (p s : string) : string :=
  if has_prefix p s then str_drop (String.length p) s else s.

(** [strings.Contains]. *)
Fixpoint contains (sub s : string) : bool :=
  has_prefix sub s || match s with EmptyString => false | String _ s' => contains sub s' end.

(** [strings.IndexByte]; [None] is -1. *)
Fixpoint index_byte (c : ascii) (s : string) : option nat :=
  match s with
  | EmptyString => None
  | String a s' => if Ascii.eqb a c then Some O else S <$> index_byte c s'
  end.

Definition contains_byte (c : ascii) (s : string) : bool :=
  match index_byte c s with Some _ => true | None => false end.

(** [strings.ReplaceAll] with a non-empty [old]: [skip] bytes of a match that
    was replaced are still to be consumed. *)
Fixpoint replace_from (skip : nat) (old new s : string) : string :=
  match s with
  | EmptyString => EmptyString
  | String c s' =>
    match skip with
    | S k => replace_from k old new s'
    | O => if has_prefix old s
           then new +:+ replace_from (String.length old - 1) old new s'
           else String c (replace_from 0 old new s')
    end
  end.
Definition replace_all (s old new : string) : string := replace_from 0 old new s.

(** [strings.Split] by a one-byte separator. *)
Fixpoint split_byte (c : ascii) (s : string) : list string :=
  match s with
  | EmptyString => [EmptyString]
  | String a s' =>
    if Ascii.eqb a c then EmptyString :: split_byte c s'
    else match split_byte c s' with
         | [] => [String a EmptyString]
         | w :: ws => String a w :: ws
         end
  end.

(** [strings.Join]. *)
Fixpoint str_join (sep : string) (l : list string) : string :=
  match l with
  | [] => EmptyString
  | [x] => x
  | x :: l' => x +:+ sep +:+ str_join sep l'
  end.

(** [sort.Strings]: bytewise order. *)
Fixpoint str_le (a b : string) : bool :=
  match a, b with
  | EmptyString, _ => true
  | String _ _, EmptyString => false
  | String x a', String y b' =>
    let (m, n) := (nat_of_ascii x, nat_of_ascii y) in
    (m <? n)%nat || ((m =? n)%nat && str_le a' b')
  end.

Fixpoint insert_sorted (x : string) (l : list string) : list string :=
  match l with
  | [] => [x]
  | y :: l' => if str_le x y then x :: l else y :: insert_sorted x l'
  end.
Definition sort_strings (l : list string) : list string := foldr insert_sorted [] l.

(** * White space ([unicode.IsSpace], in UTF-8) *)

Definition byte (n : nat) : ascii := ascii_of_nat n.
Definition bytes (l : list nat) : string := String.string_of_list_ascii (map byte l).

Definition space_runes : list string :=
  map bytes
    [[9]; [10]; [11]; [12]; [13]; [32]; [194; 133]; [194; 160]; [225; 154; 128];
     [226; 128; 128]; [226; 128; 129]; [226; 128; 130]; [226; 128; 131];
     [226; 128; 132]; [226; 128; 133]; [226; 128; 134]; [226; 128; 135];
     [226; 128; 136]; [226; 128; 137]; [226; 128; 138]; [226; 128; 168];
     [226; 128; 169]; [226; 128; 175]; [226; 129; 159]; [227; 128; 128]].

(** The length in bytes of the white-space rune at the head of [s], if any. *)
Definition space_at (s : string) : option nat :=
  match filter (fun r => has_prefix r s = true) space_runes with
  | [] => None
  | r :: _ => Some (String.length r)
  end.

Fixpoint trim_left (skip : nat) (s : string) : string :=
  match s with
  | EmptyString => EmptyString
  | String _ s' =>
    match skip with
    | S k => trim_left k s'
    | O => match space_at s with Some n => trim_left (n - 1) s' | None => s end
    end
  end.

(** The text up to the last byte that is not part of a trailing space. *)
Fixpoint all_space (skip : nat) (s : string) : bool :=
  match s with
  | EmptyString => true
  | String _ s' =>
    match skip with
    | S k => all_space k s'
    | O => match space_at s with Some n => all_space (n - 1) s' | None => false end
    end
  end.

Fixpoint trim_right (s : string) : string :=
  match s with
  | EmptyString => EmptyString
  | String c s' => if all_space 0 s then EmptyString else String c (trim_right s')
  end.

(** [strings.TrimSpace]. *)
Definition trim_space (s : string) : string := trim_right (trim_left 0 s).

(** [strings.Fields]: [cur] is the field being read. *)
Fixpoint fields_from (skip : nat) (cur s : string) : list string :=
  let flush := if String.eqb cur "" then [] else [cur] in
  match s with
  | EmptyString => flush
  | String c s' =>
    match skip with
    | S k => fields_from k cur s'
    | O => match space_at s with
           | Some n => flush ++ fields_from (n - 1) "" s'
           | None => fields_from 0 (cur +:+ String c "") s'
           end
    end
  end.
Definition str_fields (s : string) : list string := fields_from 0 "" s.

(** * Slash-separated paths *)

(** The elements [path.Clean] keeps of a path, innermost first. *)
Definition clean_step (rooted : bool) (acc : list string) (e : string) : list string :=
  if String.eqb e "" || String.eqb e "." then acc
  else if String.eqb e ".." then
    match acc with
    | [] => if rooted then [] else [".."]
    | x :: r => if String.eqb x ".." then ".." :: acc else r
    end
  else e :: acc.

Definition path_clean (p : string) : string :=
  if String.eqb p "" then "." else
  let rooted := has_prefix "/" p in
  let body := str_join "/" (rev (fold_left (clean_step rooted) (split_byte "/" p) [])) in
  if rooted then "/" +:+ body else if String.eqb body "" then "." else body.

(** [filepath.Join] *)
Definition path_join (a b : string) : string :=
  match filter (fun e => e <> "") [a; b] with [] => "" | l => path_clean (str_join "/" l) end.

(** [filepath.Rel]; [None] is its error. *)
Definition path_elements (p : string) : list string :=
  if String.eqb p "." then [] else if String.eqb p "/" then [""] else split_byte "/" p.

Fixpoint strip_common (base targ : list string) : list string * list string :=
  match base, targ with
  | b :: base', t :: targ' => if String.eqb b t then strip_common base' targ' else (base, targ)
  | _, _ => (base, targ)
  end.

Definition path_rel (basepath targpath : string) : option string :=
  let base := path_clean basepath in
  let targ := path_clean targpath in
  if String.eqb targ base then Some "." else
  if negb (Bool.eqb (has_prefix "/" base) (has_prefix "/" targ)) then None else
  match strip_common (path_elements base) (if String.eqb targ "." then ["."] else path_elements targ) with
  | (".." :: _, _ :: _) => None
  | (up, down) => Some (str_join "/" (map (fun _ => "..") up ++ down))
  end.

(** [path.Dir] and [path.Base]. *)
Definition path_dir (p : string) : string :=
  match rev (split_byte "/" p) with
  | [] => "."
  | _ :: ds => match ds with
               | [] => "."
               | _ => path_clean (str_join "/" (rev ds) +:+ "/")
               end
  end.

Fixpoint drop_empty (l : list string) : list string :=
  match l with
  | x :: l' => if String.eqb x "" then drop_empty l' else l
  | [] => []
  end.

Definition path_base (p : string) : string :=
  if String.eqb p "" then "."
  else match drop_empty (rev (split_byte "/" p)) with
       | [] => "/"
       | x :: _ => x
       end.

(** * Numbers *)

Definition is_digit (c : ascii) : bool :=
  let n := nat_of_ascii c in (48 <=? n)%nat && (n <=? 57)%nat.

Definition digit_value (c : ascii) : Z := (Z.of_nat (nat_of_ascii c) - 48)%Z.

Fixpoint all_bytes (f : ascii -> bool) (s : string) : bool :=
  match s with EmptyString => true | String c s' => f c && all_bytes f s' end.

Fixpoint digits_value (acc : Z) (s : string) : Z :=
  match s with
  | EmptyString => acc
  | String c s' => digits_value (10 * acc + digit_value c)%Z s'
  end.

Definition min_int64 : Z := (- 2 ^ 63)%Z.
Definition max_int64 : Z := (2 ^ 63 - 1)%Z.

(** [strconv.ParseInt(s, 10, 64)] (and [strconv.Atoi] where [int] has 64 bits):
    an optional sign and one or more digits, in range. *)
Definition parse_int64 (s : string) : option Z :=
  let '(neg, ds) :=
    match s with
    | String c s' => if Ascii.eqb c "-" then (true, s')
                     else if Ascii.eqb c "+" then (false, s') else (false, s)
    | EmptyString => (false, s)
    end in
  if String.eqb ds "" || negb (all_bytes is_digit ds) then None
  else let v := if neg then (- digits_value 0 ds)%Z else digits_value 0 ds in
       if bool_decide (min_int64 <= v <= max_int64)%Z then Some v else None.

(** * Lemmas *)

Lemma app_String c s t : String c s +:+ t = String c (s +:+ t).
Proof. done. Qed.

Lemma app_Empty s : "" +:+ s = s.
Proof. done. Qed.

Lemma str_app_nil_r s : s +:+ "" = s.
Proof. induction s as [|c s IH]; [done|]. rewrite app_String. by rewrite IH. Qed.

Lemma str_app_assoc s t u : (s +:+ t) +:+ u = s +:+ (t +:+ u).
Proof. induction s as [|c s IH]; [done|]. rewrite !app_String. by rewrite IH. Qed.

Lemma str_length_app s t : String.length (s +:+ t) = (String.length s + String.length t)%nat.
Proof. induction s as [|c s IH]; [done|]. rewrite app_String. simpl. by rewrite IH. Qed.

Lemma str_drop_app s t : str_drop (String.length s) (s +:+ t) = t.
Proof. induction s; [done|]. by rewrite app_String. Qed.

Lemma has_prefix_spec p s : has_prefix p s = true <-> exists t, s = p +:+ t.
Proof.
  revert s. induction p as [|a p IH]; intros s; simpl.
  - split; [by exists s | done].
  - destruct s as [|b s]; [split; [done | by intros [t Ht]]|].
    rewrite andb_true_iff, Ascii.eqb_eq, IH. split.
    + intros [-> [t ->]]. by exists t.
    + intros [t [= -> ->]]. eauto.
Qed.

Lemma has_prefix_app p s : has_prefix p (p +:+ s) = true.
Proof. apply has_prefix_spec. by exists s. Qed.

Lemma trim_prefix_app p s : trim_prefix p (p +:+ s) = s.
Proof. unfold trim_prefix. by rewrite has_prefix_app, str_drop_app. Qed.

Lemma str_take_app s t : str_take (String.length s) (s +:+ t) = s.
Proof. induction s as [|c s IH]; [by destruct t|]. rewrite app_String. simpl. by rewrite IH. Qed.

Lemma str_drop_app_ge s t n :
  str_drop (String.length s + n) (s +:+ t) = str_drop n t.
Proof. induction s; [done|]. by rewrite app_String. Qed.

Lemma has_suffix_app s p : has_suffix p (s +:+ p) = true.
Proof.
  unfold has_suffix. rewrite str_length_app.
  apply andb_true_iff. split; [apply Nat.leb_le; lia|].
  replace (String.length s + String.length p - String.length p)%nat with (String.length s) by lia.
  rewrite str_drop_app. apply String.eqb_refl.
Qed.

Lemma str_app_inv p s t : p +:+ s = p +:+ t -> s = t.
Proof. induction p as [|c p IH]; [done|]. rewrite !app_String. intros [= H]. auto. Qed.

Lemma index_byte_Some c s i :
  index_byte c s = Some i ->
  exists u v, s = u +:+ String c v /\ String.length u = i /\ index_byte c u = None.
Proof.
  revert i. induction s as [|a s IH]; intros i; simpl; [done|].
  destruct (Ascii.eqb a c) eqn:E.
  - intros [= <-]. apply Ascii.eqb_eq in E as ->. by exists "", s.
  - intros H. destruct (index_byte c s) as [j|] eqn:Ej; simplify_eq/=.
    destruct (IH j eq_refl) as (u & v & -> & <- & Hu).
    exists (String a u), v. simpl. rewrite E, Hu. by rewrite app_String.
Qed.

Lemma index_byte_app_None c s t :
  index_byte c s = None ->
  index_byte c (s +:+ t) = (fun i => String.length s + i)%nat <$> index_byte c t.
Proof.
  induction s as [|a s IH].
  - intros _. change ("" +:+ t) with t. simpl. by destruct (index_byte c t).
  - rewrite app_String. simpl. destruct (Ascii.eqb a c); [done|].
    intros H%fmap_None. rewrite IH by done. by destruct (index_byte c t).
Qed.

(** Splitting a concatenation at a separator. *)
Lemma split_byte_no_sep c s : index_byte c s = None -> split_byte c s = [s].
Proof.
  induction s as [|a s IH]; [done|]. simpl. destruct (Ascii.eqb a c) eqn:E; [done|].
  intros H%fmap_None. by rewrite IH.
Qed.

Lemma split_byte_app c s t :
  index_byte c s = None -> split_byte c (s +:+ String c t) = s :: split_byte c t.
Proof.
  induction s as [|a s IH]; simpl; intros H.
  - by rewrite Ascii.eqb_refl.
  - destruct (Ascii.eqb a c) eqn:E; [done|].
    apply fmap_None in H. by rewrite IH.
Qed.

Lemma insert_sorted_perm x l : insert_sorted x l ≡ₚ x :: l.
Proof.
  induction l as [|y l IH]; simpl; [done|].
  destruct (str_le x y); [done|]. rewrite IH. apply perm_swap.
Qed.

Lemma sort_strings_perm l : sort_strings l ≡ₚ l.
Proof.
  unfold sort_strings. induction l as [|x l IH]; simpl; [done|].
  rewrite insert_sorted_perm. by rewrite IH.
Qed.

#[export] Hint Rewrite app_Empty app_String str_app_nil_r str_app_assoc str_length_app has_prefix_app
  trim_prefix_app has_suffix_app str_drop_app : go_eqs.

(** * Sorting by a comparison ([sort.Slice])

    Insertion keeps equal elements in order, which [sort.Slice] does not
    promise: a statement about its result must not depend on their order. *)
Section sort_by.
Context {A : Type} (le : A -> A -> bool).

Fixpoint insert_by (x : A) (l : list A) : list A :=
  match l with
  | [] => [x]
  | y :: l' => if le x y then x :: l else y :: insert_by x l'
  end.
Definition sort_by (l : list A) : list A := foldr insert_by [] l.

Lemma insert_by_perm x l : insert_by x l ≡ₚ x :: l.
Proof.
  induction l as [|y l IH]; simpl; [done|].
  destruct (le x y); [done|]. rewrite IH. apply perm_swap.
Qed.

Lemma sort_by_perm l : sort_by l ≡ₚ l.
Proof.
  unfold sort_by. induction l as [|x l IH]; simpl; [done|].
  rewrite insert_by_perm. by rewrite IH.
Qed.

Lemma elem_of_sort_by x l : x ∈ sort_by l <-> x ∈ l.
Proof. by rewrite sort_by_perm. Qed.
End sort_by.

Lemma elem_of_sort_strings x l : x ∈ sort_strings l <-> x ∈ l.
Proof. by rewrite sort_strings_perm. Qed.

Lemma sort_strings_nil l : sort_strings l = [] <-> l = [].
Proof. split; [|by intros ->]. intros H. apply Permutation_nil. by rewrite <- H, sort_strings_perm. Qed.

(** [filepath.Ext]: the suffix from the last dot of the last element. *)
Fixpoint path_ext (s : string) : string :=
  match s with
  | EmptyString => EmptyString
  | String c s' =>
    if Ascii.eqb c "."%char && negb (contains_byte "."%char s') && negb (contains_byte "/"%char s') then s
    else path_ext s'
  end.

Example path_ext_last : map path_ext ["v1/A.json"; "a.b/c"; "x.gen.go"; "plain"] = [".json"; ""; ".go"; ""].
Proof. vm_compute. reflexivity. Qed.

(** Elements joined with a separator none of them contains split back. *)
Lemma split_byte_join c (l : list string) :
  l <> [] -> Forall (fun s => index_byte c s = None) l -> split_byte c (str_join (String c "") l) = l.
Proof.
  intros Hne H. induction H as [|x l Hx H IH]; [done|].
  destruct l as [|y l']; [by apply split_byte_no_sep|].
  change (split_byte c (x +:+ String c "" +:+ str_join (String c "") (y :: l')) = x :: y :: l').
  rewrite app_String, app_Empty, split_byte_app by done. by rewrite IH.
Qed.
