(* ===== verification/Policy.v ===== *)
(** Upstream target policy: [policy.go] of
    [src/codexsdk/internal/protocolsync].  Identities are records with the
    source's fields; the regular expressions are executable matchers. *)

From S2P Require Import Prelude GoStrings.
From Stdlib Require Import Ascii.

Local Open Scope string_scope.

(** * Data *)

Definition KindStableTag := "stable_rust_tag".
Definition KindManualRef := "manual_ref".
Definition KindManualCommit := "manual_commit".

Definition DecisionAllow := "allow".
Definition DecisionSkip := "skip".
Definition DecisionBlock := "block".

(** [^rust-v([0-9]+)\.([0-9]+)\.([0-9]+)$]: the captured groups. *)
Definition digits (s : string) : bool := negb (String.eqb s "") && all_bytes is_digit s.

Definition rustTagRE (ref : string) : option (string * string * string) :=
  if has_prefix "rust-v" ref then
    match split_byte "." (str_drop 6 ref) with
    | [a; b; c] => if digits a && digits b && digits c then Some (a, b, c) else None
    | _ => None
    end
  else None.

(** [^[0-9a-f]{40}$] *)
Definition is_hex (c : ascii) : bool :=
  let n := nat_of_ascii c in
  is_digit c || ((97 <=? n)%nat && (n <=? 102)%nat).
Definition shaRE (s : string) : bool := (String.length s =? 40)%nat && all_bytes is_hex s.

Definition validKinds (k : string) : bool :=
  mem k [KindStableTag; KindManualRef; KindManualCommit].

Record BaselineIdentity := {
  SourceCommit : string;
  SourceRefName : string;
  SourceRefKind : string
}.

#[export] Instance BaselineIdentity_eq_dec : EqDecision BaselineIdentity.
Proof. solve_decision. Defined.

Record PolicyRequest := {
  Baseline : BaselineIdentity;
  TargetRef : string;
  TargetKind : string;
  TargetSHA : string;
  req_TargetExplicit : bool;
  req_Mode : string;
  AllowDowngrade : bool
}.

Record PolicyDecision := {
  Decision : string;
  Reason : string;
  BaselineRefName : string;
  BaselineRefKind : string;
  BaselineCommit : string;
  TargetRefName : string;
  TargetRefKind : string;
  TargetCommit : string;
  dec_TargetExplicit : bool;
  dec_Mode : string
}.

(** * Versions *)

Definition version := (Z * Z * Z)%type.

Definition parseRustTag (ref : string) : option version :=
  '(a, b, c) ← rustTagRE ref;
  x ← parse_int64 a; y ← parse_int64 b; z ← parse_int64 c;
  Some (x, y, z).

Definition cmp_int (x y : Z) : Z :=
  if bool_decide (y < x)%Z then 1%Z else if bool_decide (x < y)%Z then (-1)%Z else 0%Z.

Definition compareVersion (a b : version) : Z :=
  let '(a0, a1, a2) := a in
  let '(b0, b1, b2) := b in
  if negb (cmp_int a0 b0 =? 0)%Z then cmp_int a0 b0
  else if negb (cmp_int a1 b1 =? 0)%Z then cmp_int a1 b1
  else cmp_int a2 b2.

Definition inferRefKind (ref : string) : string :=
  match rustTagRE ref with
  | Some _ => KindStableTag
  | None => if shaRE ref then KindManualCommit else KindManualRef
  end.

(** * The decision *)

Definition decision (req : PolicyRequest) (kind reason : string) : PolicyDecision := {|
  Decision := kind;
  Reason := reason;
  BaselineRefName := SourceRefName (Baseline req);
  BaselineRefKind := SourceRefKind (Baseline req);
  BaselineCommit := SourceCommit (Baseline req);
  TargetRefName := TargetRef req;
  TargetRefKind := TargetKind req;
  TargetCommit := TargetSHA req;
  dec_TargetExplicit := req_TargetExplicit req;
  dec_Mode := if String.eqb (req_Mode req) "" then "manual" else req_Mode req
|}.

Definition complete_identity (b : BaselineIdentity) : bool :=
  shaRE (SourceCommit b) && negb (String.eqb (SourceRefName b) "") && validKinds (SourceRefKind b).

(** The part of [EvaluatePolicy] after the stable-tag block: manual targets. *)
Definition evaluateManual (req : PolicyRequest) : PolicyDecision :=
  if String.eqb (TargetKind req) KindManualRef || String.eqb (TargetKind req) KindManualCommit then
    if req_TargetExplicit req then decision req DecisionAllow "explicit manual upstream target requested"
    else decision req DecisionBlock "manual upstream targets must be explicit"
  else decision req DecisionBlock "target policy did not match any allowed transition".

Definition EvaluatePolicy (req : PolicyRequest) : PolicyDecision :=
  let b := Baseline req in
  if negb (complete_identity b) then
    decision req DecisionBlock "baseline source identity is incomplete or unsupported"
  else if negb (validKinds (TargetKind req)) || negb (shaRE (TargetSHA req)) then
    decision req DecisionBlock "target source identity is incomplete or unsupported"
  else if String.eqb (SourceCommit b) (TargetSHA req) then
    decision req DecisionSkip "baseline already points at the selected upstream commit"
  else if String.eqb (TargetKind req) KindStableTag then
    match parseRustTag (TargetRef req) with
    | None => decision req DecisionBlock
                ("stable target is not a rust-vX.Y.Z tag: " +:+ TargetRef req)
    | Some targetVersion =>
      if String.eqb (SourceRefKind b) KindStableTag then
        match parseRustTag (SourceRefName b) with
        | None => decision req DecisionBlock
                    ("stable baseline is not a rust-vX.Y.Z tag: " +:+ SourceRefName b)
        | Some baselineVersion =>
          if (0 <? compareVersion targetVersion baselineVersion)%Z then
            decision req DecisionAllow "stable tag moves forward by version"
          else if (compareVersion targetVersion baselineVersion =? 0)%Z then
            decision req DecisionBlock "stable tag name matches baseline but peeled commit changed"
          else if AllowDowngrade req && req_TargetExplicit req then
            decision req DecisionAllow "explicit stable tag downgrade requested"
          else decision req DecisionBlock "stable tag target is older than the current baseline tag"
        end
      else if String.eqb (SourceRefKind b) KindManualRef
              || String.eqb (SourceRefKind b) KindManualCommit then
        if req_TargetExplicit req then
          decision req DecisionAllow "explicit track switch from manual baseline to stable tag"
        else decision req DecisionBlock
          "current baseline is manual; automatic stable-tag drift detection would switch tracks"
      else evaluateManual req
    end
  else evaluateManual req.

(** * Theorems *)

Ltac solve_versions :=
  unfold cmp_int in *; repeat case_bool_decide; simpl in *; try done; try lia.

Lemma cmp_int_spec x y :
  (cmp_int x y = 1 /\ y < x)%Z \/ (cmp_int x y = -1 /\ x < y)%Z \/ (cmp_int x y = 0 /\ x = y)%Z.
Proof. solve_versions. Qed.

(** [compareVersion] is the sign of the lexicographic order. *)
Definition version_lt (a b : version) : Prop :=
  let '(a0, a1, a2) := a in
  let '(b0, b1, b2) := b in
  (a0 < b0 \/ a0 = b0 /\ (a1 < b1 \/ a1 = b1 /\ a2 < b2))%Z.

Lemma compareVersion_spec a b :
  ((0 <? compareVersion a b)%Z = true <-> version_lt b a) /\
  ((compareVersion a b =? 0)%Z = true <-> a = b) /\
  ((compareVersion a b <? 0)%Z = true <-> version_lt a b).
Proof.
  destruct a as [[a0 a1] a2], b as [[b0 b1] b2]. unfold compareVersion, version_lt.
  destruct (cmp_int_spec a0 b0) as [[-> ?]|[[-> ?]|[-> ->]]]; simpl.
  1,2: repeat split; intros; simplify_eq; lia.
  destruct (cmp_int_spec a1 b1) as [[-> ?]|[[-> ?]|[-> ->]]]; simpl.
  1,2: repeat split; intros; simplify_eq; lia.
  destruct (cmp_int_spec a2 b2) as [[-> ?]|[[-> ?]|[-> ->]]]; simpl;
    repeat split; intros; simplify_eq; lia.
Qed.

#[export] Instance version_lt_trans : Transitive version_lt.
Proof. intros [[a0 a1] a2] [[b0 b1] b2] [[c0 c1] c2]. unfold version_lt. lia. Qed.

#[export] Instance version_lt_irrefl : Irreflexive version_lt.
Proof. intros [[a0 a1] a2]. unfold complement, version_lt. lia. Qed.

(** What a sync applies becomes the next checked-in baseline. *)
Definition target_identity (req : PolicyRequest) : BaselineIdentity := {|
  SourceCommit := TargetSHA req;
  SourceRefName := TargetRef req;
  SourceRefKind := TargetKind req
|}.

(** The transitions the policy is meant to allow, as a specification. *)
Inductive may_move (req : PolicyRequest) : Prop :=
| move_forward tv bv :
    TargetKind req = KindStableTag -> SourceRefKind (Baseline req) = KindStableTag ->
    parseRustTag (TargetRef req) = Some tv ->
    parseRustTag (SourceRefName (Baseline req)) = Some bv ->
    version_lt bv tv -> may_move req
| move_downgrade tv bv :
    TargetKind req = KindStableTag -> SourceRefKind (Baseline req) = KindStableTag ->
    parseRustTag (TargetRef req) = Some tv ->
    parseRustTag (SourceRefName (Baseline req)) = Some bv ->
    version_lt tv bv -> AllowDowngrade req = true -> req_TargetExplicit req = true -> may_move req
| move_switch tv :
    TargetKind req = KindStableTag -> SourceRefKind (Baseline req) <> KindStableTag ->
    parseRustTag (TargetRef req) = Some tv ->
    req_TargetExplicit req = true -> may_move req
| move_manual :
    TargetKind req <> KindStableTag -> req_TargetExplicit req = true -> may_move req.

Lemma validKinds_cases k :
  validKinds k = true <-> k = KindStableTag \/ k = KindManualRef \/ k = KindManualCommit.
Proof. unfold validKinds. rewrite mem_true. set_solver. Qed.

Lemma complete_identity_kind b :
  complete_identity b = true -> validKinds (SourceRefKind b) = true.
Proof. unfold complete_identity. intros H. by reflect_bools. Qed.

Lemma evaluateManual_allow req :
  validKinds (TargetKind req) = true -> TargetKind req <> KindStableTag ->
  (Decision (evaluateManual req) = DecisionAllow <-> req_TargetExplicit req = true).
Proof.
  intros Hk Hn. apply validKinds_cases in Hk as [?|Hk]; [done|].
  unfold evaluateManual.
  destruct (String.eqb_spec (TargetKind req) KindManualRef),
    (String.eqb_spec (TargetKind req) KindManualCommit); simpl; try naive_solver;
    by destruct (req_TargetExplicit req).
Qed.

Ltac no_move :=
  intros []; simplify_eq; try congruence; exfalso;
  match goal with
  | H : version_lt ?a ?a |- _ => by apply (irreflexivity version_lt a)
  | H1 : version_lt ?a ?b, H2 : version_lt ?b ?a |- _ =>
    apply (irreflexivity version_lt a); by trans b
  end.

Definition policy_applies (req : PolicyRequest) : Prop :=
  complete_identity (Baseline req) = true /\ validKinds (TargetKind req) = true /\
  shaRE (TargetSHA req) = true /\ SourceCommit (Baseline req) <> TargetSHA req.

Lemma stable_allow req tv :
  policy_applies req -> TargetKind req = KindStableTag ->
  parseRustTag (TargetRef req) = Some tv ->
  (Decision (EvaluatePolicy req) = DecisionAllow <-> may_move req).
Proof.
  intros (Hb & Hk & Hs & Hne) Ht Htv. unfold EvaluatePolicy.
  rewrite Hb, Hk, Hs. simpl. rewrite (proj2 (String.eqb_neq _ _) Hne), Ht.
  change (String.eqb KindStableTag KindStableTag) with true. cbv iota. rewrite Htv.
  destruct (String.eqb_spec (SourceRefKind (Baseline req)) KindStableTag) as [Hbk|Hbk].
  - destruct (parseRustTag (SourceRefName (Baseline req))) as [bv|] eqn:Hbv;
      [|split; [done|]; no_move].
    destruct (compareVersion_spec tv bv) as (Hgt & Heq & Hlt).
    destruct (0 <? compareVersion tv bv)%Z eqn:E1; simpl.
    { split; [|done]. intros _. eapply move_forward; eauto. by apply Hgt. }
    destruct (compareVersion tv bv =? 0)%Z eqn:E2; simpl.
    { assert (tv = bv) as -> by by apply Heq.
      split; [done|]. no_move. }
    assert (version_lt tv bv) as Hvlt.
    { apply Hlt. apply Z.ltb_lt. apply Z.ltb_ge in E1. apply Z.eqb_neq in E2. lia. }
    destruct (AllowDowngrade req) eqn:Ed, (req_TargetExplicit req) eqn:Ee; simpl.
    { split; [|done]. intros _. eapply move_downgrade; eauto. }
    all: split; [done|]; no_move.
  - apply complete_identity_kind, validKinds_cases in Hb as [?|Hb]; [done|].
    assert (String.eqb (SourceRefKind (Baseline req)) KindManualRef
            || String.eqb (SourceRefKind (Baseline req)) KindManualCommit = true) as ->
      by (destruct Hb as [->| ->]; reflexivity).
    destruct (req_TargetExplicit req) eqn:Ee; simpl.
    + split; [|done]. intros _. by eapply move_switch.
    + split; [done|]; no_move.
Qed.

(** [EvaluatePolicy] allows exactly the specified moves: from a complete
    baseline to a complete, different target, and either to a newer stable tag,
    or explicitly (a downgrade needs the separate permission as well). *)
Theorem EvaluatePolicy_allow_iff (req : PolicyRequest) :
  Decision (EvaluatePolicy req) = DecisionAllow <-> policy_applies req /\ may_move req.
Proof.
  destruct (complete_identity (Baseline req)) eqn:Hb;
    [|split; [unfold EvaluatePolicy; by rewrite Hb | intros [(? & ?) _]; congruence]].
  destruct (validKinds (TargetKind req)) eqn:Hk;
    [|split; [unfold EvaluatePolicy; by rewrite Hb, Hk | intros [(? & ? & ?) _]; congruence]].
  destruct (shaRE (TargetSHA req)) eqn:Hs;
    [|split; [unfold EvaluatePolicy; by rewrite Hb, Hk, Hs
             | intros [(? & ? & ? & ?) _]; congruence]].
  destruct (String.eqb_spec (SourceCommit (Baseline req)) (TargetSHA req)) as [E|Hne];
    [split; [unfold EvaluatePolicy; by rewrite Hb, Hk, Hs, E, String.eqb_refl
            | intros [(? & ? & ? & ?) _]; congruence]|].
  assert (policy_applies req) as Happ by done.
  destruct (decide (TargetKind req = KindStableTag)) as [Ht|Ht].
  - destruct (parseRustTag (TargetRef req)) as [tv|] eqn:Htv.
    + rewrite (stable_allow req tv) by done. naive_solver.
    + split.
      * unfold EvaluatePolicy. rewrite Hb, Hk, Hs. simpl.
        rewrite (proj2 (String.eqb_neq _ _) Hne), Ht. simpl. by rewrite Htv.
      * intros [_ []]; congruence.
  - unfold EvaluatePolicy. rewrite Hb, Hk, Hs. simpl.
    rewrite (proj2 (String.eqb_neq _ _) Hne), (proj2 (String.eqb_neq _ _) Ht).
    rewrite evaluateManual_allow by done. split.
    + intros He. split; [done|]. by apply move_manual.
    + intros [_ []]; congruence.
Qed.

(** One automatic synchronization: the policy allows a target nobody asked for
    explicitly, and that target becomes the baseline. *)
Definition auto_step (b b' : BaselineIdentity) : Prop :=
  exists req, Baseline req = b /\ target_identity req = b' /\
    req_TargetExplicit req = false /\ Decision (EvaluatePolicy req) = DecisionAllow.

Definition baseline_lt (b b' : BaselineIdentity) : Prop :=
  exists v v', parseRustTag (SourceRefName b) = Some v /\
    parseRustTag (SourceRefName b') = Some v' /\ version_lt v v'.

Lemma auto_step_lt b b' : auto_step b b' -> baseline_lt b b'.
Proof.
  intros (req & <- & <- & He & Ha).
  apply EvaluatePolicy_allow_iff in Ha as [_ Hm]. destruct Hm; try congruence.
  exists bv, tv. eauto.
Qed.

(** Automatic synchronization only ever moves forward: along any sequence of
    allowed non-explicit syncs the stable version strictly grows, so no sequence
    returns to a baseline it left. *)
Theorem automatic_sync_never_returns (b b' : BaselineIdentity) :
  tc auto_step b b' -> baseline_lt b b' /\ b <> b'.
Proof.
  intros H. assert (baseline_lt b b') as (v & v' & Hv & Hv' & Hlt).
  { induction H as [b b' H|b m b' H _ (v & v' & Hv & Hv' & Hlt)]; [by apply auto_step_lt|].
    apply auto_step_lt in H as (u & u' & Hu & Hu' & Hult). simplify_eq.
    exists u, v'. split_and!; [done..|by etrans]. }
  split; [by exists v, v'|]. intros ->. simplify_eq.
  by eapply (irreflexivity version_lt).
Qed.

Definition sha_of (c : ascii) : string := String.string_of_list_ascii (repeat c 40).

Definition stable_identity (ref sha : string) : BaselineIdentity :=
  {| SourceCommit := sha; SourceRefName := ref; SourceRefKind := KindStableTag |}.

Definition scheduled_request (b : BaselineIdentity) (ref sha : string) : PolicyRequest :=
  {| Baseline := b; TargetRef := ref; TargetKind := KindStableTag; TargetSHA := sha;
     req_TargetExplicit := false; req_Mode := "scheduled"; AllowDowngrade := false |}.

Lemma automatic_sync_never_returns_witness :
  let b := stable_identity "rust-v0.9.3" (sha_of "a") in
  let b' := stable_identity "rust-v0.10.0" (sha_of "b") in
  baseline_lt b b' /\ b <> b'.
Proof.
  intros b b'. apply automatic_sync_never_returns. apply tc_once.
  exists (scheduled_request b "rust-v0.10.0" (sha_of "b")).
  split_and!; vm_compute; reflexivity.
Defined.
