(* ===== verification/Scope.v ===== *)
(** The file scope of a protocol sync ([changes.go]) and the path rules of
    automatic integration ([auto_forward_control.go]) of
    [src/codexsdk/internal/protocolsync], with the owner-assigned failure
    categories of [failure.go]. *)

From S2P Require Import Prelude GoStrings.
From Stdlib Require Import Ascii.

Local Open Scope string_scope.

(** * Failure categories *)

Definition FailureUnsupported := "unsupported_representation".
Definition FailureSource := "source_integrity".
Definition FailureExecution := "execution_environment".
Definition FailureValidation := "repository_validation".
Definition FailurePublication := "publication_conflict".
Definition FailurePolicy := "policy_configuration".
Definition FailureUnknown := "unknown".

(** [&Failure{Category, Err}] *)
Definition Failure (category format : string) : error :=
  Typed (FailureT category) [Errorf format []].

Definition as_failure (t : etype) : option string :=
  match t with FailureT c => Some c | _ => None end.
Definition as_incompatibility (t : etype) : option unit :=
  match t with IncompatibilityT _ _ => Some tt | _ => None end.
Definition as_source_integrity (t : etype) : option unit :=
  match t with SourceIntegrityT => Some tt | _ => None end.
Definition as_verification (t : etype) : option unit :=
  match t with VerificationT => Some tt | _ => None end.

(** [failureCategory]; [environmental] is the test for an [os.PathError], an
    [exec.Error], [os.ErrNotExist] or [os.ErrPermission] in the error tree. *)
Definition failureCategory (environmental : error -> bool) (err : error) : string :=
  match errors_as as_failure err with
  | Some c => c
  | None =>
    match errors_as as_incompatibility err with
    | Some _ => FailureUnsupported
    | None =>
      match errors_as as_source_integrity err with
      | Some _ => FailureSource
      | None =>
        match errors_as as_verification err with
        | Some _ => FailureValidation
        | None => if environmental err then FailureExecution else FailureUnknown
        end
      end
    end
  end.

(** * Sync scope *)

Definition mechanicalPrefix := "codexsdk/internal/protocolschema/appserver/v2".

Definition generatedFiles : list string :=
  ["codexsdk/sdk_surface.gen.go";
   "codexsdk/protocolv2/method_registry.gen.go";
   "codexsdk/protocolv2/protocol_types.gen.go";
   "codexsdk/protocolv2/experimental_members.gen.go"].

Definition isMechanicalPath (p : string) : bool :=
  if has_prefix (mechanicalPrefix +:+ "/") p && has_suffix ".json" p then true
  else mem p generatedFiles.

Definition isAgentProposalPath (p : string) : bool :=
  if negb (has_suffix ".go" p) || has_suffix ".gen.go" p then false
  else if mem (path_dir p) ["codexsdk"; "codexsdk/protocolv2";
                            "codexsdk/internal/protocolgen"; "codexsdk/internal/wirejson"]
  then true
  else if negb (String.eqb (path_dir p) "codexsdk/internal/protocolupgrade") then false
  else if has_suffix "_test.go" p then true
  else mem (path_base p) ["manifest.go"; "surface.go"; "commonrs.go"; "current_facts.go"].

Definition phase_allows (phase p : string) : bool :=
  ((String.eqb phase "mechanical" || String.eqb phase "final") && isMechanicalPath p)
  || ((String.eqb phase "agent" || String.eqb phase "final") && isAgentProposalPath p).

Definition validatePaths (paths : list string) (phase : string) : res unit :=
  if negb (String.eqb phase "mechanical") && negb (String.eqb phase "agent")
     && negb (String.eqb phase "final") then
    Err (Failure FailurePolicy "needs-maintainer: unknown sync scope %q")
  else
    let invalid := filter (fun p => phase_allows phase p = false) paths in
    match invalid with
    | [] => Ok tt
    | _ => Err (Failure FailurePolicy "needs-maintainer: sync changes escape the %s scope")
    end.

(** [ChangedPaths]: [tracked] and [untracked] are the two git listings; the
    result has no duplicates and is sorted. *)
Fixpoint dedup (seen l : list string) : list string :=
  match l with
  | [] => []
  | p :: l' => if String.eqb p "" || mem p seen then dedup seen l'
               else p :: dedup (p :: seen) l'
  end.

Definition ChangedPaths (tracked untracked : res (list string)) : res (list string) :=
  t ← tracked; u ← untracked; Ok (sort_strings (dedup [] (t ++ u))).

Definition AssertClean (changed : res (list string)) : res unit :=
  paths ← changed;
  match paths with
  | [] => Ok tt
  | _ => Err (Errorf "sync worktree must be clean before apply" [])
  end.

(** What [os.Lstat] reports of one changed path. *)
Inductive lstat := LMissing | LError (e : error) | LRegular | LOther.

Fixpoint scan_regular (stat : string -> lstat) (paths : list string) : res unit :=
  match paths with
  | [] => Ok tt
  | p :: ps =>
    match stat p with
    | LMissing => scan_regular stat ps
    | LError e => Err e
    | LRegular => scan_regular stat ps
    | LOther => Err (Failure FailurePolicy "proposal path %s is not a regular file")
    end
  end.

Definition CheckScope (changed : res (list string)) (stat : string -> lstat) (phase : string) : res unit :=
  paths ← changed; _ ← scan_regular stat paths; validatePaths paths phase.

(** * Controls of automatic integration *)

Definition goModuleFiles : list string := ["go.mod"; "go.sum"; "go.work"; "go.work.sum"].

Definition controlPrefixes : list string :=
  [".github/"; "internal/tools/"; "codexsdk/internal/cmd/"; "codexsdk/internal/checkacceptance/";
   "codexsdk/internal/codexexec/"; "codexsdk/internal/protocolsync/";
   "codexsdk/internal/protocolupgrade/"; "codexsdk/internal/generatedcheck/"].

Definition protectedForwardControl (p : string) : bool :=
  if mem (path_base p) goModuleFiles then true
  else if existsb (fun pre => has_prefix pre p) controlPrefixes then true
  else has_prefix "codexsdk/internal/protocolschema/" p && has_suffix ".go" p.

(** [names] is the output of [git diff --name-only -z]. *)
Definition validateForwardControls (names : res string) : res unit :=
  out ← names;
  if existsb protectedForwardControl (split_byte (byte 0) out) then
    Err (Errorf "native candidate changes accepted gate/control authority; explicit reviewed manual integration required" [])
  else Ok tt.

(** * Theorems *)

Lemma str_drop_self_app u v : str_drop (String.length u) (u +:+ v) = v.
Proof. apply str_drop_app. Qed.

Lemma has_suffix_spec p s : has_suffix p s = true <-> exists t, s = t +:+ p.
Proof.
  split.
  - unfold has_suffix. intros [Hl%Nat.leb_le Hd%String.eqb_eq]%andb_true_iff.
    exists (str_take (String.length s - String.length p) s). rewrite <- Hd at 2.
    generalize (String.length s - String.length p). clear.
    induction s as [|c s IH]; intros [|n]; try done. simpl. rewrite app_String. f_equal. apply IH.
  - intros [t ->]. apply has_suffix_app.
Qed.

Lemma str_rev_suffix_last c d u v : u +:+ String c "" = v +:+ String d "" -> c = d.
Proof.
  revert v. induction u as [|a u IH]; intros [|b v]; rewrite ?app_Empty, ?app_String.
  - by intros [= ->].
  - intros [= -> H]. by destruct v.
  - intros [= -> H]. by destruct u.
  - intros [= -> H]. by eapply IH.
Qed.

Lemma json_not_go p : has_suffix ".json" p = true -> has_suffix ".go" p = false.
Proof.
  intros [u ->]%has_suffix_spec. apply not_true_iff_false.
  intros [v H]%has_suffix_spec.
  change ".json" with (".jso" +:+ "n") in H. change ".go" with (".g" +:+ "o") in H.
  rewrite <- !str_app_assoc in H. by apply str_rev_suffix_last in H.
Qed.

(** No path belongs to both sides of a sync: what the mechanical step may
    write, an agent proposal may not, so an agent cannot edit generated Go or
    the checked-in schemas. *)
Theorem scopes_disjoint (p : string) : isMechanicalPath p && isAgentProposalPath p = false.
Proof.
  unfold isMechanicalPath.
  destruct (has_prefix (mechanicalPrefix +:+ "/") p && has_suffix ".json" p) eqn:E.
  - apply andb_true_iff in E as [_ Hj%json_not_go]. unfold isAgentProposalPath. by rewrite Hj.
  - destruct (mem p generatedFiles) eqn:Hm; [|done]. apply mem_true in Hm.
    repeat (apply elem_of_cons in Hm as [->|Hm]; [vm_compute; reflexivity|]).
    by apply not_elem_of_nil in Hm.
Qed.

Lemma filter_nil_Forall {A} (f : A -> bool) l :
  filter (fun x => f x = false) l = [] <-> Forall (fun x => f x = true) l.
Proof.
  induction l as [|x l IH]; [by split|]. rewrite filter_cons, Forall_cons.
  destruct (f x) eqn:E.
  - rewrite decide_False by congruence. naive_solver.
  - rewrite decide_True by done. naive_solver.
Qed.

Lemma phase_cases phase :
  negb (String.eqb phase "mechanical") && negb (String.eqb phase "agent")
    && negb (String.eqb phase "final") = false <->
  phase ∈ ["mechanical"; "agent"; "final"].
Proof.
  rewrite !elem_of_cons, elem_of_nil.
  destruct (String.eqb_spec phase "mechanical"), (String.eqb_spec phase "agent"),
    (String.eqb_spec phase "final"); simpl; naive_solver.
Qed.

(** [validatePaths] accepts exactly the change sets whose every path is in
    the phase's scope; any other phase name is refused, and every refusal is a
    policy failure. *)
Theorem validatePaths_spec (paths : list string) (phase : string) :
  match validatePaths paths phase with
  | Ok _ => phase ∈ ["mechanical"; "agent"; "final"] /\
            Forall (fun p => phase_allows phase p = true) paths
  | Err e => errors_as as_failure e = Some FailurePolicy /\
             (phase ∉ ["mechanical"; "agent"; "final"] \/
              Exists (fun p => phase_allows phase p = false) paths)
  end.
Proof.
  unfold validatePaths.
  destruct (negb _ && _ && _) eqn:E.
  - split; [done|]. left. rewrite <- phase_cases. congruence.
  - apply phase_cases in E.
    destruct (filter _ paths) as [|x l] eqn:Ef.
    + split; [done|]. by apply filter_nil_Forall.
    + split; [done|]. right. apply Exists_exists. exists x.
      assert (x ∈ filter (fun p => phase_allows phase p = false) paths) as Hx
        by (rewrite Ef; left).
      by apply list_elem_of_filter in Hx as [? ?].
Qed.
