(* ===== verification/Resolve.v ===== *)
(** Resolution of the upstream target ([resolve.go] of
    [src/codexsdk/internal/protocolsync]).  [git ls-remote] is the argument
    [LSRemote]: it is given the remote and the patterns and returns the output
    or an error. *)

From S2P Require Import Prelude GoStrings Policy.
From Stdlib Require Import Ascii.

Local Open Scope string_scope.

Definition defaultRemote := "https://github.com/openai/codex.git".

Record Target := {
  RefName : string;
  RefKind : string;
  TagSHA : string;
  PeeledCommitSHA : string;
  TargetExplicit : bool
}.

#[export] Instance Target_eq_dec : EqDecision Target.
Proof. solve_decision. Defined.

Record ResolveRequest := {
  res_Remote : string;
  res_UpstreamRef : string;
  res_LatestStable : bool
}.

Definition newline : ascii := byte 10.

(** The two whitespace-separated fields of each well-formed line. *)
Definition line_fields (line : string) : option (string * string) :=
  match str_fields line with [a; b] => Some (a, b) | _ => None end.

(** The [rust-vX.Y.Z] tag a line of [git ls-remote] names, with its version. *)
Definition line_tag (line : string) : option (string * version) :=
  '(_, ref) ← line_fields line;
  if has_prefix "refs/tags/" ref then
    let tag := trim_prefix "refs/tags/" ref in
    v ← parseRustTag tag; Some (tag, v)
  else None.

(** One iteration of the loop of [latestStableRustTag]. *)
Definition better_tag (best : option (string * version)) (line : string) : option (string * version) :=
  match line_tag line with
  | None => best
  | Some (tag, v) =>
    match best with
    | None => Some (tag, v)
    | Some (_, bv) => if (0 <? compareVersion v bv)%Z then Some (tag, v) else best
    end
  end.

Definition latestStableRustTag (output : string) : res string :=
  match fold_left better_tag (split_byte newline output) None with
  | Some (tag, _) => Ok tag
  | None => Err (Errorf "unable to resolve an upstream rust-vX.Y.Z tag" [])
  end.

(** [remoteRefSHAs]: the first line of a ref wins. *)
Definition add_ref (m : gmap string string) (line : string) : gmap string string :=
  match line_fields line with
  | Some (sha, ref) => match m !! ref with Some _ => m | None => <[ref := sha]> m end
  | None => m
  end.
Definition remoteRefSHAs (output : string) : gmap string string :=
  fold_left add_ref (split_byte newline output) ∅.

Fixpoint first_sha (lines : list string) : string :=
  match lines with
  | [] => ""
  | l :: ls => match line_fields l with
               | Some (sha, _) => if String.eqb sha "" then first_sha ls else sha
               | None => first_sha ls
               end
  end.
Definition firstRemoteSHA (output : string) : string := first_sha (split_byte newline output).

(** A Go map read: the zero string when the key is absent. *)
Definition map_string (m : gmap string string) (k : string) : string := default "" (m !! k).

Section lookup.
Context (LSRemote : string -> list string -> res string).

Fixpoint first_candidate (remote ref : string) (candidates : list string) : res (string * string) :=
  match candidates with
  | [] => Err (Errorf "unable to resolve upstream ref in openai/codex: %s" [])
  | c :: cs =>
    output ← LSRemote remote [c];
    let sha := firstRemoteSHA output in
    if String.eqb sha "" then first_candidate remote ref cs else Ok ("", sha)
  end.

Definition resolveRemoteRef (remote ref : string) : res (string * string) :=
  if shaRE ref then Ok ("", ref) else
  let tagRef := "refs/tags/" +:+ ref in
  output ← LSRemote remote [tagRef; tagRef +:+ "^{}"];
  let entries := remoteRefSHAs output in
  let tagSHA := map_string entries tagRef in
  let peeled0 := map_string entries (tagRef +:+ "^{}") in
  let peeled := if String.eqb peeled0 "" then tagSHA else peeled0 in
  if negb (String.eqb peeled "") then
    Ok (if String.eqb tagSHA "" then peeled else tagSHA, peeled)
  else first_candidate remote ref [ref +:+ "^{}"; "refs/heads/" +:+ ref; ref].

Definition ResolveUpstream (req : ResolveRequest) : res Target :=
  let remote := if String.eqb (res_Remote req) "" then defaultRemote else res_Remote req in
  let requested := trim_space (res_UpstreamRef req) in
  let explicit := negb (String.eqb requested "") in
  if res_LatestStable req && explicit then
    Err (Errorf "--latest-stable cannot be combined with --upstream-ref" [])
  else
    requested ← (if explicit then Ok requested
                 else output ← LSRemote remote ["refs/tags/rust-v*"]; latestStableRustTag output);
    '(tagSHA, peeled) ← resolveRemoteRef remote requested;
    Ok {| RefName := requested; RefKind := inferRefKind requested; TagSHA := tagSHA;
          PeeledCommitSHA := peeled; TargetExplicit := explicit |}.
End lookup.

(** * Theorems *)

(** A tag that the listing offers, and the order on the best one so far. *)
Definition offered (lines : list string) (tag : string) (v : version) : Prop :=
  Exists (fun l => line_tag l = Some (tag, v)) lines.

Lemma version_total a b : version_lt a b \/ a = b \/ version_lt b a.
Proof.
  destruct a as [[a0 a1] a2], b as [[b0 b1] b2]. unfold version_lt.
  destruct (Z.lt_trichotomy a0 b0) as [|[->|]], (Z.lt_trichotomy a1 b1) as [|[->|]],
    (Z.lt_trichotomy a2 b2) as [|[->|]]; auto; lia.
Qed.

Definition dominates (v : version) (lines : list string) : Prop :=
  forall tag' v', offered lines tag' v' -> ~ version_lt v v'.

Lemma better_tag_fold lines best :
  match fold_left better_tag lines best with
  | None => best = None /\ forall tag v, ~ offered lines tag v
  | Some (tag, v) =>
    (best = Some (tag, v) \/ offered lines tag v) /\ dominates v lines /\
    (forall bt bv, best = Some (bt, bv) -> ~ version_lt v bv)
  end.
Proof.
  revert best. induction lines as [|l lines IH]; intros best; simpl.
  - destruct best as [[t v]|].
    + split_and!; [by left | by intros ?? ?%Exists_nil |].
      intros ?? [= <- <-]. apply irreflexivity. apply _.
    + split; [done|]. by intros ?? ?%Exists_nil.
  - specialize (IH (better_tag best l)).
    destruct (fold_left better_tag lines (better_tag best l)) as [[t v]|].
    + destruct IH as (Hor & Hdom & Hbest).
      assert (forall bt bv, best = Some (bt, bv) -> ~ version_lt v bv) as Hbest'.
      { intros bt bv ->. unfold better_tag in Hbest.
        destruct (line_tag l) as [[lt lv]|]; [|by eapply Hbest].
        destruct (compareVersion_spec lv bv) as (Hgt & _).
        destruct (0 <? compareVersion lv bv)%Z; [|by eapply Hbest].
        intros Hlt. eapply Hbest; [done|]. trans bv; [done|]. by apply Hgt. }
      split_and!; [| |done].
      * destruct Hor as [Hb|Ho]; [|by right; right].
        unfold better_tag in Hb. destruct (line_tag l) as [[lt lv]|] eqn:El; [|by left].
        destruct best as [[bt bv]|]; [|right; left; congruence].
        destruct (0 <? compareVersion lv bv)%Z; [right; left; congruence | by left].
      * intros t' v' [Hl|Ho]%Exists_cons; [|by eapply Hdom].
        unfold better_tag in Hbest. rewrite Hl in Hbest.
        destruct best as [[bt bv]|]; [|by eapply Hbest].
        destruct (compareVersion_spec v' bv) as (Hgt & _).
        destruct (0 <? compareVersion v' bv)%Z eqn:E; [by eapply Hbest|].
        intros Hlt. destruct (version_total v' bv) as [H|[->|H]].
        -- eapply Hbest; [done|]. by trans v'.
        -- by eapply Hbest.
        -- by apply Hgt in H.
    + destruct IH as (Hb & Hno). unfold better_tag in Hb.
      destruct (line_tag l) as [[lt lv]|] eqn:El.
      * destruct best as [[bt bv]|]; [|done]. by destruct (0 <? compareVersion lv bv)%Z.
      * split; [done|]. intros t v [H|H]%Exists_cons; [congruence | by eapply Hno].
Qed.

(** [latestStableRustTag] returns a stable tag the listing offers, and no
    offered tag has a greater version; it fails exactly when none is offered. *)
Theorem latestStableRustTag_spec (output : string) :
  match latestStableRustTag output with
  | Ok tag => exists v, offered (split_byte newline output) tag v /\
                        dominates v (split_byte newline output)
  | Err _ => forall tag v, ~ offered (split_byte newline output) tag v
  end.
Proof.
  unfold latestStableRustTag.
  pose proof (better_tag_fold (split_byte newline output) None) as H.
  destruct (fold_left better_tag _ None) as [[t v]|].
  - destruct H as ([?|?] & ? & _); [done|]. eauto.
  - by destruct H.
Qed.

(** An explicit 40-digit commit is taken as it is, without a remote lookup. *)
Lemma resolveRemoteRef_sha LS remote ref :
  shaRE ref = true -> resolveRemoteRef LS remote ref = Ok ("", ref).
Proof. unfold resolveRemoteRef. by intros ->. Qed.

