(* ===== verification/JsonLex.v ===== *)
(** Go's [encoding/json] decoder as the modelled code uses it: [Decoder.Token],
    [Decoder.More], [Decoder.Decode] and [json.Unmarshal] with [UseNumber].

    A document is given by its lexemes, the result of scanning bytes into
    punctuation, literals, number tokens (with their text) and strings (with
    their escapes resolved); a string is read as UTF-8 ([coerce]).  [LBad] stands for bytes that scan to none of them.
    The decoder checks the grammar above the lexemes with the token states of
    [encoding/json/stream.go]. *)

From S2P Require Import Prelude GoStrings.
From Stdlib Require Import Ascii.

Local Open Scope string_scope.

(** * Strings

    Go's [encoding/json] reads and writes strings as UTF-8, each byte that starts
    no rune standing for U+FFFD. *)

Definition in_range (lo hi : nat) (c : ascii) : bool := let n := nat_of_ascii c in ((lo <=? n) && (n <=? hi))%nat.
Definition is_byte (n : nat) (c : ascii) : bool := (nat_of_ascii c =? n)%nat.
Definition continuation : ascii -> bool := in_range 128 191.

Definition rune2 (a b : ascii) : bool := in_range 194 223 a && continuation b.
Definition rune3 (a b c : ascii) : bool :=
  (is_byte 224 a && in_range 160 191 b || in_range 225 236 a && continuation b ||
   is_byte 237 a && in_range 128 159 b || in_range 238 239 a && continuation b) && continuation c.
Definition rune4 (a b c d : ascii) : bool :=
  (is_byte 240 a && in_range 144 191 b || in_range 241 243 a && continuation b || is_byte 244 a && in_range 128 143 b) &&
  continuation c && continuation d.

(** U+FFFD *)
Definition replaced_byte (s : string) : string := String (byte 239) (String (byte 191) (String (byte 189) s)).

Fixpoint coerce (s : string) : string :=
  match s with
  | EmptyString => EmptyString
  | String a s1 =>
    if in_range 0 127 a then String a (coerce s1) else
    match s1 with
    | String b s2 =>
      if rune2 a b then String a (String b (coerce s2)) else
      match s2 with
      | String c s3 =>
        if rune3 a b c then String a (String b (String c (coerce s3))) else
        match s3 with
        | String d s4 => if rune4 a b c d then String a (String b (String c (String d (coerce s4)))) else replaced_byte (coerce s1)
        | EmptyString => replaced_byte (coerce s1)
        end
      | EmptyString => replaced_byte (coerce s1)
      end
    | EmptyString => replaced_byte EmptyString
    end
  end.

(** UTF-8 *)
Definition valid_utf8 (s : string) : bool := String.eqb (coerce s) s.

Lemma coerce_replaced s : coerce (replaced_byte s) = replaced_byte (coerce s).
Proof. reflexivity. Qed.

Lemma coerce_coerce s : coerce (coerce s) = coerce s.
Proof.
  remember (String.length s) as n eqn:Hn. assert (String.length s <= n) as Hs by lia. clear Hn. revert s Hs.
  induction n as [|n IH]; intros [|a s1] Hs; try done; cbn [String.length] in Hs; [lia|]. cbn [coerce].
  destruct (in_range 0 127 a) eqn:Ea; [cbn [coerce]; rewrite Ea, IH by lia; done|].
  destruct s1 as [|b s2]; [done|]. cbn [String.length] in Hs.
  destruct (rune2 a b) eqn:E2; [cbn [coerce]; rewrite Ea, E2, IH by lia; done|].
  destruct s2 as [|c s3]; [rewrite coerce_replaced, IH by (cbn [String.length]; lia); done|]. cbn [String.length] in Hs.
  destruct (rune3 a b c) eqn:E3; [cbn [coerce]; rewrite Ea, E2, E3, IH by lia; done|].
  destruct s3 as [|d s4]; [rewrite coerce_replaced, IH by (cbn [String.length]; lia); done|]. cbn [String.length] in Hs.
  destruct (rune4 a b c d) eqn:E4; [cbn [coerce]; rewrite Ea, E2, E3, E4, IH by lia; done|].
  rewrite coerce_replaced, IH by (cbn [String.length]; lia). done.
Qed.

Lemma coerce_valid s : valid_utf8 (coerce s) = true.
Proof. apply String.eqb_eq, coerce_coerce. Qed.
Lemma valid_coerce s : valid_utf8 s = true -> coerce s = s.
Proof. apply String.eqb_eq. Qed.

(** * Lexemes *)

Inductive lexeme :=
| LBraceO | LBraceC | LBrackO | LBrackC | LComma | LColon
| LNull | LBool (b : bool) | LNum (text : string) | LStr (value : string)
| LBad.

#[export] Instance lexeme_eq_dec : EqDecision lexeme.
Proof. solve_decision. Defined.

(** [json.RawMessage]: the lexemes of one value. *)
Abbreviation RawMessage := (list lexeme).

Inductive tstate :=
| TTop | TArrayStart | TArrayValue | TArrayComma
| TObjectStart | TObjectKey | TObjectColon | TObjectValue | TObjectComma.

#[export] Instance tstate_eq_dec : EqDecision tstate.
Proof. solve_decision. Defined.

Record decoder := mkDecoder { d_input : list lexeme; d_state : tstate; d_stack : list tstate }.

Definition NewDecoder (input : list lexeme) : decoder := mkDecoder input TTop [].

Inductive token := TDelim (open : bool) (brace : bool) | TKNull | TKBool (b : bool)
| TKNum (text : string) | TKStr (value : string).

Definition eof : error := Sentinel "EOF".
Definition syntax_error : error := Errorf "json: syntax error" [].
Definition type_error : error := Errorf "json: cannot unmarshal" [].

Definition value_allowed (st : tstate) : bool :=
  mem st [TTop; TArrayStart; TArrayValue; TObjectValue].

Definition value_end (st : tstate) : tstate :=
  match st with
  | TArrayStart | TArrayValue => TArrayComma
  | TObjectValue => TObjectComma
  | _ => st
  end.

Definition open_state (brace : bool) : tstate := if brace then TObjectStart else TArrayStart.
Definition may_close (brace : bool) (st : tstate) : bool :=
  if brace then mem st [TObjectStart; TObjectComma] else mem st [TArrayStart; TArrayComma].

Definition scalar_token (l : lexeme) : option token :=
  match l with
  | LNull => Some TKNull
  | LBool b => Some (TKBool b)
  | LNum t => Some (TKNum t)
  | LStr s => Some (TKStr (coerce s))
  | _ => None
  end.

(** [Decoder.Token]: separators are consumed and checked, then one token. *)
Fixpoint token_from (input : list lexeme) (st : tstate) (stack : list tstate) : res (token * decoder) :=
  match input with
  | [] => Err eof
  | l :: rest =>
    let opening brace :=
      if value_allowed st then Ok (TDelim true brace, mkDecoder rest (open_state brace) (st :: stack))
      else Err syntax_error in
    let closing brace :=
      if may_close brace st then
        match stack with
        | [] => Err syntax_error
        | st' :: stack' => Ok (TDelim false brace, mkDecoder rest (value_end st') stack')
        end
      else Err syntax_error in
    let scalar :=
      match scalar_token l with
      | Some t => if value_allowed st then Ok (t, mkDecoder rest (value_end st) stack)
                  else Err syntax_error
      | None => Err syntax_error
      end in
    match l with
    | LBraceO => opening true
    | LBrackO => opening false
    | LBraceC => closing true
    | LBrackC => closing false
    | LColon => match st with TObjectColon => token_from rest TObjectValue stack
                | _ => Err syntax_error end
    | LComma => match st with
                | TArrayComma => token_from rest TArrayValue stack
                | TObjectComma => token_from rest TObjectKey stack
                | _ => Err syntax_error
                end
    | LStr s => match st with
                | TObjectStart | TObjectKey => Ok (TKStr (coerce s), mkDecoder rest TObjectColon stack)
                | _ => scalar
                end
    | _ => scalar
    end
  end.

Definition Token (d : decoder) : res (token * decoder) :=
  token_from (d_input d) (d_state d) (d_stack d).

(** [Decoder.More]: another element follows in the current array or object. *)
Definition More (d : decoder) : bool :=
  match d_input d with
  | [] => false
  | LBraceC :: _ | LBrackC :: _ => false
  | _ => true
  end.

(** The lexemes of the next complete value: [depth] open brackets. *)
Definition lex_step (st : tstate) (stack : list tstate) (l : lexeme) : option (tstate * list tstate) :=
  match l with
  | LBraceO => if value_allowed st then Some (TObjectStart, st :: stack) else None
  | LBrackO => if value_allowed st then Some (TArrayStart, st :: stack) else None
  | LBraceC => if may_close true st then
                 match stack with st' :: s' => Some (value_end st', s') | [] => None end else None
  | LBrackC => if may_close false st then
                 match stack with st' :: s' => Some (value_end st', s') | [] => None end else None
  | LColon => match st with TObjectColon => Some (TObjectValue, stack) | _ => None end
  | LComma => match st with TArrayComma => Some (TArrayValue, stack)
              | TObjectComma => Some (TObjectKey, stack) | _ => None end
  | LStr _ => match st with
              | TObjectStart | TObjectKey => Some (TObjectColon, stack)
              | _ => if value_allowed st then Some (value_end st, stack) else None
              end
  | LNull | LBool _ | LNum _ => if value_allowed st then Some (value_end st, stack) else None
  | LBad => None
  end.

(** Read one value from its first lexeme: the value is complete when the
    brackets opened since the start are closed again. *)
Fixpoint scan_value (st : tstate) (stack : list tstate) (acc input : list lexeme)
    : option (list lexeme * list lexeme) :=
  match input with
  | [] => None
  | l :: rest =>
    match lex_step st stack l with
    | None => None
    | Some (st', stack') =>
      match stack' with
      | [] => match st' with
              | TTop => Some (rev (l :: acc), rest)
              | _ => None
              end
      | _ => scan_value st' stack' (l :: acc) rest
      end
    end
  end.

(** [Decoder.Decode(&raw)]: the separator the token state expects is consumed
    first ([tokenPrepareForDecode]). *)
Definition prepare_decode (d : decoder) : res decoder :=
  match d_state d with
  | TArrayComma => match d_input d with
                   | LComma :: r => Ok (mkDecoder r TArrayValue (d_stack d))
                   | [] => Err eof
                   | _ => Err syntax_error
                   end
  | TObjectColon => match d_input d with
                    | LColon :: r => Ok (mkDecoder r TObjectValue (d_stack d))
                    | [] => Err eof
                    | _ => Err syntax_error
                    end
  | _ => Ok d
  end.

Definition DecodeRaw (d : decoder) : res (RawMessage * decoder) :=
  d ← prepare_decode d;
  if negb (value_allowed (d_state d)) then Err syntax_error
  else match d_input d with
       | [] => Err eof
       | input =>
         match scan_value TTop [] [] input with
         | Some (raw, rest) => Ok (raw, mkDecoder rest (value_end (d_state d)) (d_stack d))
         | None => Err syntax_error
         end
       end.

(** * Number tokens *)

Fixpoint span_digits (s : string) : string * string :=
  match s with
  | String c s' => if is_digit c then let (a, b) := span_digits s' in (String c a, b) else ("", s)
  | EmptyString => ("", "")
  end.

Definition skip_exponent (s : string) : option string :=
  match s with
  | String c s' =>
    if Ascii.eqb c "e" || Ascii.eqb c "E" then
      let s'' := match s' with
                 | String d r => if Ascii.eqb d "+" || Ascii.eqb d "-" then r else s'
                 | EmptyString => s'
                 end in
      let (ds, r) := span_digits s'' in
      if String.eqb ds "" then None else Some r
    else Some s
  | EmptyString => Some s
  end.

Definition skip_fraction (s : string) : option string :=
  match s with
  | String c s' =>
    if Ascii.eqb c "." then
      let (ds, r) := span_digits s' in if String.eqb ds "" then None else Some r
    else Some s
  | EmptyString => Some s
  end.

Definition skip_integer (s : string) : option string :=
  match s with
  | String c s' =>
    if Ascii.eqb c "0" then Some s'
    else if is_digit c then Some (span_digits s').2
    else None
  | EmptyString => None
  end.

(** [isValidNumber] of [encoding/json]: an optional minus sign, [0] or digits
    that do not start with [0], an optional fraction, an optional exponent. *)
Definition valid_number (s : string) : bool :=
  let body := match s with
              | String c s' => if Ascii.eqb c "-" then s' else s
              | EmptyString => s
              end in
  match r ← skip_integer body; r' ← skip_fraction r; skip_exponent r' with
  | Some EmptyString => true
  | _ => false
  end.

(** * [json.Unmarshal] into scalar types *)

(** Into a [string]: [null] leaves the zero value. *)
Definition unmarshal_string (raw : RawMessage) : res string :=
  match raw with
  | [LStr s] => Ok (coerce s)
  | [LNull] => Ok ""
  | _ => Err type_error
  end.

(** Into a [json.Number]: a number token, a string holding one, or [null]. *)
Definition unmarshal_number (raw : RawMessage) : res string :=
  match raw with
  | [LNum n] => if valid_number n then Ok n else Err syntax_error
  | [LStr s] => if valid_number (coerce s) then Ok (coerce s) else Err type_error
  | [LNull] => Ok ""
  | _ => Err type_error
  end.

(** * Lemmas *)

Lemma token_from_length input st stack t d :
  token_from input st stack = Ok (t, d) -> length (d_input d) < length input.
Proof.
  revert st. induction input as [|l input IH]; intros st; simpl; [done|].
  destruct l; simpl; intros H; repeat case_match; simplify_eq/=; try lia;
    apply IH in H; lia.
Qed.

Lemma Token_length d t d' :
  Token d = Ok (t, d') -> length (d_input d') < length (d_input d).
Proof. apply token_from_length. Qed.

Lemma Token_scalar l t rest st stack :
  scalar_token l = Some t -> value_allowed st = true ->
  Token (mkDecoder (l :: rest) st stack) = Ok (t, mkDecoder rest (value_end st) stack).
Proof.
  intros Hl Hs. unfold Token. simpl.
  destruct l; simplify_eq/=; rewrite ?Hs; try done.
  destruct st; simpl in *; solve [done | discriminate Hs].
Qed.

Lemma Token_open (brace : bool) rest st stack :
  value_allowed st = true ->
  Token (mkDecoder ((if brace then LBraceO else LBrackO) :: rest) st stack) =
    Ok (TDelim true brace, mkDecoder rest (open_state brace) (st :: stack)).
Proof. intros Hs. unfold Token. destruct brace; simpl; by rewrite Hs. Qed.

#[export] Hint Resolve Token_length : go.
