(* ===== verification/Json.v ===== *)
(** The dynamic JSON values of [src/codexsdk/protocolv2/json_value.go], with
    [nullable.go] and [output_schema.go]: the AST, its parser over the decoder
    of [JsonLex], its deterministic printer, and the JSON-pointer helpers.

    A Go [map[string]JSONValue] is a [gmap]; the printer's buffer is the list
    of lexemes written to it. *)

From S2P Require Import Prelude GoStrings JsonLex Scope.
From Stdlib Require Import Ascii.

Local Open Scope string_scope.
Local Open Scope list_scope.

(** * The AST *)

Inductive JSONValue :=
| JSONInvalid
| JSONNull
| JSONBool (value : bool)
| JSONString (value : string)
| JSONNum (value : string)
| JSONArr (values : list JSONValue)
| JSONObj (values : gmap string JSONValue).

Inductive JSONKind :=
| JSONKindInvalid | JSONKindObject | JSONKindArray | JSONKindString
| JSONKindNumber | JSONKindBool | JSONKindNull.

#[export] Instance JSONKind_eq_dec : EqDecision JSONKind.
Proof. solve_decision. Defined.

Definition Kind (v : JSONValue) : JSONKind :=
  match v with
  | JSONInvalid => JSONKindInvalid
  | JSONNull => JSONKindNull
  | JSONBool _ => JSONKindBool
  | JSONString _ => JSONKindString
  | JSONNum _ => JSONKindNumber
  | JSONArr _ => JSONKindArray
  | JSONObj _ => JSONKindObject
  end.

Definition IsValid (v : JSONValue) : bool := negb (bool_decide (Kind v = JSONKindInvalid)).

(** The copy of the slices and maps of a value. *)
Fixpoint clone (v : JSONValue) : JSONValue :=
  match v with
  | JSONArr l => JSONArr (map clone l)
  | JSONObj m => JSONObj (map_fold (fun k x acc => <[k := clone x]> acc) ∅ m)
  | _ => v
  end.

Definition JSONArray (values : list JSONValue) : JSONValue := JSONArr (map clone values).
Definition JSONObject (values : gmap string JSONValue) : JSONValue :=
  JSONObj (map_fold (fun k x acc => <[k := clone x]> acc) ∅ values).

Definition AsBool (v : JSONValue) : option bool := match v with JSONBool b => Some b | _ => None end.
Definition AsString (v : JSONValue) : option string := match v with JSONString s => Some s | _ => None end.
Definition AsNumber (v : JSONValue) : option string := match v with JSONNum n => Some n | _ => None end.
Definition AsArray (v : JSONValue) : option (list JSONValue) :=
  match v with JSONArr l => Some (map clone l) | _ => None end.
Definition AsObject (v : JSONValue) : option (gmap string JSONValue) :=
  match v with
  | JSONObj m => Some (map_fold (fun k x acc => <[k := clone x]> acc) ∅ m)
  | _ => None
  end.

(** * Numbers *)

(** [validateJSONNumber].  Decoding the token into a [json.Number] gives the
    token back exactly when it is a number literal; a quoted string or [null]
    decodes to a different text. *)
Definition validateJSONNumber (token : string) : res unit :=
  if String.eqb token "" then Err (Errorf "invalid JSON number: empty token" [])
  else if negb (String.eqb (trim_space token) token) then
    Err (Errorf "invalid JSON number %q: whitespace is not part of a JSON number token" [])
  else if valid_number token then Ok tt
  else Err (Errorf "invalid JSON number %q" []).

Definition JSONNumber (value : string) : res JSONValue :=
  _ ← validateJSONNumber value; Ok (JSONNum value).

(** * Pointers *)

Definition escapePointer (token : string) : string :=
  replace_all (replace_all token "~" "~0") "/" "~1".

Definition joinPointer (path token : string) : string :=
  if String.eqb path "" then "/" +:+ escapePointer token else path +:+ "/" +:+ escapePointer token.

Definition pointerForError (path : string) : string := if String.eqb path "" then "/" else path.

Definition itoa (n : nat) : string := pretty n.

(** * Parsing *)

(** The fuel of the parser is spent; [ParseJSONValue] provides enough. *)
Definition out_of_fuel : error := Sentinel "out of fuel".

Definition duplicate_key (path : string) : error :=
  Errorf ("duplicate object key at " +:+ pointerForError path) [].

Fixpoint parseJSONValue (n : nat) (d : decoder) (path : string) {struct n} : res (JSONValue * decoder) :=
  match n with
  | O => Err out_of_fuel
  | S n' =>
    '(t, d) ← Token d;
    match t with
    | TDelim true true => parseJSONObject n' d path ∅
    | TDelim true false => parseJSONArray n' d path 0 []
    | TDelim false _ => Err (Errorf "unexpected JSON delimiter" [])
    | TKNull => Ok (JSONNull, d)
    | TKBool b => Ok (JSONBool b, d)
    | TKStr s => Ok (JSONString s, d)
    | TKNum x => v ← JSONNumber x; Ok (v, d)
    end
  end

(** The loop of [parseJSONObject]; [values] holds the members read so far, and
    its domain is the set [seen]. *)
with parseJSONObject (n : nat) (d : decoder) (path : string) (values : gmap string JSONValue)
    {struct n} : res (JSONValue * decoder) :=
  match n with
  | O => Err out_of_fuel
  | S n' =>
    if More d then
      '(t, d) ← Token d;
      match t with
      | TKStr key =>
        match values !! key with
        | Some _ => Err (duplicate_key path)
        | None =>
          '(v, d) ← parseJSONValue n' d (joinPointer path key);
          parseJSONObject n' d path (<[key := v]> values)
        end
      | _ => Err (Errorf "expected object key" [])
      end
    else
      '(t, d) ← Token d;
      match t with
      | TDelim false true => Ok (JSONObject values, d)
      | _ => Err (Errorf "expected object close" [])
      end
  end

(** The loop of [parseJSONArray]; [values] holds the elements read so far, the
    last one first. *)
with parseJSONArray (n : nat) (d : decoder) (path : string) (index : nat) (values : list JSONValue)
    {struct n} : res (JSONValue * decoder) :=
  match n with
  | O => Err out_of_fuel
  | S n' =>
    if More d then
      '(v, d) ← parseJSONValue n' d (joinPointer path (itoa index));
      parseJSONArray n' d path (S index) (v :: values)
    else
      '(t, d) ← Token d;
      match t with
      | TDelim false false => Ok (JSONArray (rev values), d)
      | _ => Err (Errorf "expected array close" [])
      end
  end.

Definition parse_fuel (data : list lexeme) : nat := S (2 * length data).

Definition ParseJSONValue (data : list lexeme) : res JSONValue :=
  '(value, d) ← parseJSONValue (parse_fuel data) (NewDecoder data) "";
  match Token d with
  | Err e => if bool_decide (e = eof) then Ok value else Err e
  | Ok _ => Err (Errorf "unexpected trailing JSON token %v" [])
  end.

(** * Printing *)

(** Write the members in the order given, separated by commas. *)
Fixpoint write_elements (first : bool) (l : list (res (list lexeme))) : res (list lexeme) :=
  match l with
  | [] => Ok []
  | w :: l' =>
    e ← w; es ← write_elements false l';
    Ok ((if first then [] else [LComma]) ++ e ++ es)
  end.

Definition sorted_keys {A} (m : gmap string A) : list string := sort_strings (map_to_list m).*1.

Definition write_member (ws : gmap string (res (list lexeme))) (k : string) : res (list lexeme) :=
  match ws !! k with
  | Some w => e ← w; Ok (LStr (coerce k) :: LColon :: e)
  | None => Ok []
  end.

(** [writeJSON]: the lexemes appended to the buffer.  [json.Marshal] writes the
    strings and the keys as UTF-8; the members are in the order of their keys. *)
Fixpoint writeJSON (v : JSONValue) (path : string) {struct v} : res (list lexeme) :=
  match v with
  | JSONNull => Ok [LNull]
  | JSONBool b => Ok [LBool b]
  | JSONString s => Ok [LStr (coerce s)]
  | JSONNum n =>
    match validateJSONNumber n with
    | Ok _ => Ok [LNum n]
    | Err e => Err (Errorf ("invalid JSON number at " +:+ pointerForError path) [e])
    end
  | JSONArr l =>
    es ← write_elements true
           ((fix go (i : nat) (l : list JSONValue) : list (res (list lexeme)) :=
               match l with
               | [] => []
               | x :: l' => writeJSON x (joinPointer path (itoa i)) :: go (S i) l'
               end) O l);
    Ok ([LBrackO] ++ es ++ [LBrackC])
  | JSONObj m =>
    let ws := map_fold (fun k x acc => <[k := writeJSON x (joinPointer path k)]> acc) ∅ m in
    es ← write_elements true (map (write_member ws) (sorted_keys m));
    Ok ([LBraceO] ++ es ++ [LBraceC])
  | JSONInvalid => Err (Errorf ("invalid JSONValue at " +:+ pointerForError path) [])
  end.

Definition MarshalJSON (v : JSONValue) : res (list lexeme) := writeJSON v "".

(** [JSONValue.UnmarshalJSON] *)
Definition UnmarshalJSON (data : list lexeme) : res JSONValue := ParseJSONValue data.

(** * Nullable fields *)

(** [Nullable[T]]: [None] is a nil [Value], which marshals as [null]. *)
Abbreviation Nullable A := (option A).

Definition Nullable_MarshalJSON {A} (marshal : A -> res (list lexeme)) (v : Nullable A) : res (list lexeme) :=
  match v with None => Ok [LNull] | Some x => marshal x end.

Definition NullableFromJSON {A} (unmarshal : list lexeme -> res A) (data : list lexeme) : res (Nullable A) :=
  if bool_decide (data = [LNull]) then Ok None else v ← unmarshal data; Ok (Some v).

(** * Output schemas *)

(** [validate] decodes and resolves the schema with the jsonschema package. *)
Definition OutputSchemaFromJSON (validate : list lexeme -> res unit) (data : list lexeme) : res JSONValue :=
  value ← ParseJSONValue data;
  if negb (bool_decide (Kind value = JSONKindObject)) && negb (bool_decide (Kind value = JSONKindBool)) then
    Err (Errorf "output schema must be a top-level JSON object or boolean schema" [])
  else
    _ ← (if bool_decide (Kind value = JSONKindObject) then
           raw ← MarshalJSON value;
           match validate raw with
           | Ok _ => Ok tt
           | Err e => Err (Errorf "invalid output schema: %w" [e])
           end
         else Ok tt);
    Ok value.

Definition OutputSchema_IsValid (v : JSONValue) : bool :=
  bool_decide (Kind v = JSONKindObject) || bool_decide (Kind v = JSONKindBool).

Definition OutputSchema_MarshalJSON (v : JSONValue) : res (list lexeme) :=
  if OutputSchema_IsValid v then MarshalJSON v else Err (Errorf "invalid OutputSchema" []).

(** * Induction on values *)

Fixpoint json_size (v : JSONValue) : nat :=
  match v with
  | JSONArr l => S (list_sum (map json_size l))
  | JSONObj m => S (map_fold (fun _ x acc => json_size x + acc) 0 m)
  | _ => 1
  end.

(** * Theorems *)

Lemma map_fold_size_le (f : JSONValue -> nat) (m : gmap string JSONValue) k x :
  m !! k = Some x -> f x <= map_fold (fun _ y acc => f y + acc) 0 m.
Proof.
  revert k x. apply (map_fold_weak_ind
    (fun r m => forall k x, m !! k = Some x -> f x <= r)); simpl.
  - intros k x H. by rewrite lookup_empty in H.
  - intros i y m' r Hi IH k x. rewrite lookup_insert_Some.
    intros [[-> ->]|[_ Hk]]; [lia|]. specialize (IH _ _ Hk). lia.
Qed.

Section json_ind.
Context (P : JSONValue -> Prop).
Context (Hscalar : forall v, Kind v <> JSONKindArray -> Kind v <> JSONKindObject -> P v).
Context (Harr : forall l, Forall P l -> P (JSONArr l)).
Context (Hobj : forall m : gmap string JSONValue,
            (forall k x, m !! k = Some x -> P x) -> P (JSONObj m)).

Lemma json_size_ind n v : json_size v < n -> P v.
Proof.
  revert v. induction n as [|n IH]; intros v Hn; [lia|].
  destruct v as [| | | | |l|m]; try by apply Hscalar.
  - apply Harr. simpl in Hn.
    assert (list_sum (map json_size l) < n) as Hl by lia. clear Hn. revert Hl.
    induction l as [|x l IHl]; simpl; constructor; [apply IH; lia | apply IHl; lia].
  - apply Hobj. intros k x Hk. apply IH. simpl in Hn.
    pose proof (map_fold_size_le json_size m k x Hk). lia.
Qed.

Lemma json_nested_ind v : P v.
Proof. apply (json_size_ind (S (json_size v))). lia. Qed.
End json_ind.

(** A fold that rebuilds a map member by member is a lookup-wise map. *)
Lemma map_fold_rebuild {A B} (f : string -> A -> B) (m : gmap string A) k :
  map_fold (fun k x acc => <[k := f k x]> acc) (∅ : gmap string B) m !! k = f k <$> m !! k.
Proof.
  apply (map_fold_weak_ind (fun (r : gmap string B) m => r !! k = f k <$> m !! k)).
  - by rewrite !lookup_empty.
  - intros i x m' r _ IH. destruct (decide (i = k)) as [->|Hne].
    + by rewrite !lookup_insert_eq.
    + by rewrite !lookup_insert_ne.
Qed.

Lemma clone_id v : clone v = v.
Proof.
  induction v as [v H1 H2|l IH|m IH] using json_nested_ind.
  - by destruct v.
  - simpl. f_equal. induction IH; simpl; congruence.
  - simpl. f_equal. apply map_eq. intros k. rewrite (map_fold_rebuild (fun _ => clone)).
    destruct (m !! k) as [x|] eqn:E; simpl; [|done]. by rewrite (IH k).
Qed.

Lemma map_clone_id l : map clone l = l.
Proof. induction l; simpl; rewrite ?clone_id; congruence. Qed.

Lemma JSONArray_id l : JSONArray l = JSONArr l.
Proof. unfold JSONArray. by rewrite map_clone_id. Qed.

Lemma JSONObject_id m : JSONObject m = JSONObj m.
Proof. apply (clone_id (JSONObj m)). Qed.

(** ** Round trip *)

(** All strings and keys of a value are UTF-8. *)
Fixpoint utf8_value (v : JSONValue) : bool :=
  match v with
  | JSONString s => valid_utf8 s
  | JSONArr l => forallb utf8_value l
  | JSONObj m => map_fold (fun k x acc => valid_utf8 k && utf8_value x && acc) true m
  | _ => true
  end.

Lemma utf8_array l : utf8_value (JSONArr l) = true <-> Forall (fun v => utf8_value v = true) l.
Proof. cbn [utf8_value]. rewrite forallb_forall, Forall_forall. by setoid_rewrite list_elem_of_In. Qed.

Lemma utf8_insert m k x : m !! k = None ->
  utf8_value (JSONObj (<[k := x]> m)) = valid_utf8 k && utf8_value x && utf8_value (JSONObj m).
Proof.
  intros Hk. cbn [utf8_value]. rewrite map_fold_insert_L; [done | | done].
  intros k1 k2 x1 x2 acc _ _ _. generalize (valid_utf8 k1 && utf8_value x1), (valid_utf8 k2 && utf8_value x2). by intros [] [].
Qed.

Lemma utf8_object m : utf8_value (JSONObj m) = true <-> forall k x, m !! k = Some x -> valid_utf8 k = true /\ utf8_value x = true.
Proof.
  induction m as [|k x m Hk IH] using map_ind; [split; [intros _ k x; by rewrite lookup_empty | done]|].
  rewrite utf8_insert, !andb_true_iff, IH by done. split.
  - intros [[? ?] Hm] k' x'. rewrite lookup_insert_Some. intros [[<- <-]|[_ ?]]; [done | by eapply Hm].
  - intros Hm. split; [apply Hm, lookup_insert_eq|]. intros k' x' Hk'. apply Hm. rewrite lookup_insert_ne by congruence. done.
Qed.

(** [raw] is read back as [v] wherever a value may start. *)
Definition reads_back (v : JSONValue) (raw : list lexeme) : Prop :=
  forall n rest st stk path, value_allowed st = true -> length raw < n ->
    parseJSONValue n (mkDecoder (raw ++ rest) st stk) path =
      Ok (v, mkDecoder rest (value_end st) stk).

(** The lexemes of a value do not start with a bracket that closes one. *)
Definition opens (raw : list lexeme) : Prop :=
  match raw with [] => False | l :: _ => l <> LBraceC /\ l <> LBrackC end.

Lemma opens_More raw rest st stk : opens raw -> More (mkDecoder (raw ++ rest) st stk) = true.
Proof. destruct raw as [|l raw]; simpl; [done|]. intros [? ?]. unfold More. simpl. by destruct l. Qed.

Lemma opens_length raw : opens raw -> 1 <= length raw.
Proof. destruct raw; simpl; [done | lia]. Qed.

(** The state of the decoder before an element: a comma is still to be read
    unless it is the first one. *)
Definition before (brace first : bool) : tstate :=
  match brace, first with
  | true, true => TObjectStart
  | true, false => TObjectComma
  | false, true => TArrayStart
  | false, false => TArrayComma
  end.

Arguments before : simpl never.
Arguments Token : simpl never.
Arguments More : simpl never.

Lemma Token_comma l brace stk :
  Token (mkDecoder (LComma :: l) (before brace false) stk) =
    Token (mkDecoder l (if brace then TObjectKey else TArrayValue) stk).
Proof. by destruct brace. Qed.

Lemma parse_comma n l stk path :
  parseJSONValue n (mkDecoder (LComma :: l) TArrayComma stk) path =
    parseJSONValue n (mkDecoder l TArrayValue stk) path.
Proof. by destruct n. Qed.

Lemma Token_close (brace first : bool) rest st stk :
  Token (mkDecoder ((if brace then LBraceC else LBrackC) :: rest) (before brace first) (st :: stk)) =
    Ok (TDelim false brace, mkDecoder rest (value_end st) stk).
Proof. by destruct brace, first. Qed.

Definition sep (first : bool) : list lexeme := if first then [] else [LComma].

Lemma parse_array_elements (vs : list JSONValue) (raws : list (list lexeme)) :
  Forall2 (fun v raw => reads_back v raw /\ opens raw) vs raws ->
  forall first es n rest st stk path i acc,
  write_elements first (map Ok raws) = Ok es -> length es + 1 < n ->
  parseJSONArray n (mkDecoder (es ++ LBrackC :: rest) (before false first) (st :: stk)) path i acc =
    Ok (JSONArr (rev acc ++ vs), mkDecoder rest (value_end st) stk).
Proof.
  induction 1 as [|v raw vs raws [Hv Ho] _ IH]; intros first es n rest st stk path i acc Hw Hn;
    simpl in Hw.
  - injection Hw as <-. destruct n as [|n]; [simpl in Hn; lia|]. simpl.
    rewrite (Token_close false). simpl. by rewrite JSONArray_id, app_nil_r.
  - destruct (write_elements false (map Ok raws)) as [es'|] eqn:Ew; simplify_eq/=.
    rewrite !length_app in Hn. pose proof (opens_length _ Ho).
    destruct n as [|n]; [lia|]. simpl. fold (sep first). rewrite <- !app_assoc.
    assert (parseJSONValue n (mkDecoder (sep first ++ raw ++ es' ++ LBrackC :: rest)
              (before false first) (st :: stk)) (joinPointer path (itoa i)) =
            Ok (v, mkDecoder (es' ++ LBrackC :: rest) TArrayComma (st :: stk))) as Hp.
    { destruct first; simpl; [|rewrite parse_comma]; apply Hv; try done; destruct n; lia. }
    assert (More (mkDecoder (sep first ++ raw ++ es' ++ LBrackC :: rest)
              (before false first) (st :: stk)) = true) as ->
      by (destruct first; [by apply (opens_More raw) | done]).
    rewrite Hp. simpl. rewrite (IH false es') by (try done; lia). simpl.
    by rewrite <- app_assoc.
Qed.

(** The members of an object in writing order, with what was written. *)
Definition insert_members (acc : gmap string JSONValue) (l : list (string * JSONValue)) :=
  foldl (fun m '(k, v) => <[k := v]> m) acc l.

Lemma Token_key k first rest stk l :
  l = sep first ++ LStr k :: LColon :: rest ->
  Token (mkDecoder l (before true first) stk) = Ok (TKStr (coerce k), mkDecoder (LColon :: rest) TObjectColon stk).
Proof. intros ->. by destruct first. Qed.

Lemma parse_colon n l stk path :
  parseJSONValue n (mkDecoder (LColon :: l) TObjectColon stk) path =
    parseJSONValue n (mkDecoder l TObjectValue stk) path.
Proof. by destruct n. Qed.

Lemma parse_object_members (kvs : list (string * JSONValue)) (raws : list (list lexeme)) :
  Forall2 (fun kv raw => reads_back kv.2 raw) kvs raws ->
  forall first es n rest st stk path acc,
  NoDup kvs.*1 -> (forall k, k ∈ kvs.*1 -> acc !! k = None) -> Forall (fun k => coerce k = k) kvs.*1 ->
  write_elements first (zip_with (fun k raw => Ok (LStr k :: LColon :: raw)) kvs.*1 raws) = Ok es ->
  length es + 1 < n ->
  parseJSONObject n (mkDecoder (es ++ LBraceC :: rest) (before true first) (st :: stk)) path acc =
    Ok (JSONObj (insert_members acc kvs), mkDecoder rest (value_end st) stk).
Proof.
  induction 1 as [|[k v] raw kvs raws Hv _ IH];
    intros first es n rest st stk path acc Hnd Hacc Hu Hw Hn; simpl in Hw.
  - injection Hw as <-. destruct n as [|n]; [simpl in Hn; lia|]. simpl.
    rewrite (Token_close true). simpl. by rewrite JSONObject_id.
  - destruct (write_elements false _) as [es'|] eqn:Ew; simplify_eq/=.
    rewrite !length_app in Hn. simpl in Hn. rewrite length_app in Hn.
    apply NoDup_cons in Hnd as [Hk Hnd]. apply Forall_cons in Hu as [Hk8 Hu].
    destruct n as [|n]; [lia|]. simpl.
    rewrite <- !app_assoc. simpl. rewrite <- app_assoc.
    fold (sep first).
    rewrite (Token_key k first (raw ++ es' ++ LBraceC :: rest)), Hk8 by done.
    assert (More (mkDecoder (sep first ++ LStr k :: LColon :: raw ++ es' ++ LBraceC :: rest)
              (before true first) (st :: stk)) = true) as -> by by destruct first.
    simpl. rewrite (Hacc k) by left. rewrite parse_colon, Hv by (done || lia). simpl.
    rewrite (IH false es'); [done|done| |done|done|lia].
    intros k' Hk'. rewrite lookup_insert_ne by (intros ->; done). apply Hacc. by right.
Qed.

Lemma write_elements_Ok first ws es :
  write_elements first ws = Ok es -> exists raws, ws = map Ok raws.
Proof.
  revert first es. induction ws as [|w ws IH]; intros first es; simpl; [by exists []|].
  intros (e & -> & H)%bind_Ok. apply bind_Ok in H as (es' & He & _).
  apply IH in He as [raws ->]. by exists (e :: raws).
Qed.

Lemma write_array_Forall2 path l i raws :
  (fix go (i : nat) (l : list JSONValue) : list (res (list lexeme)) :=
     match l with
     | [] => []
     | x :: l' => writeJSON x (joinPointer path (itoa i)) :: go (S i) l'
     end) i l = map Ok raws ->
  Forall2 (fun v raw => exists p, writeJSON v p = Ok raw) l raws.
Proof.
  revert i raws. induction l as [|x l IH]; intros i [|raw raws] H; simplify_eq/=; constructor; eauto.
Qed.

Lemma write_object_members path (m : gmap string JSONValue) ks ws :
  (forall k, ws !! k = (fun x => writeJSON x (joinPointer path k)) <$> m !! k) ->
  Forall (fun k => is_Some (m !! k)) ks ->
  forall raws', map (write_member ws) ks = map Ok raws' ->
  exists kvs raws, kvs.*1 = ks /\
    Forall2 (fun kv raw => m !! kv.1 = Some kv.2 /\ exists p, writeJSON kv.2 p = Ok raw) kvs raws /\
    map (write_member ws) ks = zip_with (fun k raw => Ok (LStr (coerce k) :: LColon :: raw)) kvs.*1 raws.
Proof.
  intros Hws. induction 1 as [|k ks [v Hv] _ IH]; intros [|r raws'] Hr; try discriminate Hr.
  { exists [], []. split_and!; [done | constructor | done]. }
  injection Hr as Hk Hr. apply IH in Hr as (kvs & raws & <- & HF & Hm).
  unfold write_member in Hk. rewrite Hws, Hv in Hk. simpl in Hk.
  apply bind_Ok in Hk as (raw & Hraw & [= <-]).
  exists ((k, v) :: kvs), (raw :: raws). split_and!; [done| |].
  - constructor; [|done]. simpl. eauto.
  - simpl. f_equal; [|done]. unfold write_member. rewrite Hws, Hv. simpl. by rewrite Hraw.
Qed.

Lemma insert_members_lookup (m : gmap string JSONValue) kvs acc k :
  (forall k v, (k, v) ∈ kvs -> m !! k = Some v) ->
  insert_members acc kvs !! k = if decide (k ∈ kvs.*1) then m !! k else acc !! k.
Proof.
  revert acc. induction kvs as [|[k' v'] kvs IH]; intros acc Hm.
  { case_decide as Hd; [by apply not_elem_of_nil in Hd | done]. }
  change (insert_members (<[k' := v']> acc) kvs !! k =
          if decide (k ∈ k' :: kvs.*1) then m !! k else acc !! k).
  rewrite IH by (intros; apply Hm; by right).
  destruct (decide (k ∈ kvs.*1)) as [Hin|Hin].
  - rewrite decide_True by by right. done.
  - destruct (decide (k = k')) as [->|Hne].
    + rewrite lookup_insert_eq, decide_True by left. symmetry. apply Hm. left.
    + rewrite lookup_insert_ne by done. rewrite decide_False; [done|].
      by intros [?|?]%elem_of_cons.
Qed.

Lemma sorted_keys_spec {A} (m : gmap string A) :
  NoDup (sorted_keys m) /\ forall k, k ∈ sorted_keys m <-> is_Some (m !! k).
Proof.
  unfold sorted_keys. split.
  - rewrite sort_strings_perm. apply NoDup_fst_map_to_list.
  - intros k. rewrite sort_strings_perm, list_elem_of_fmap. split.
    + intros ([k' v] & -> & H%elem_of_map_to_list). by exists v.
    + intros [v Hv]. exists (k, v). by rewrite elem_of_map_to_list.
Qed.

Lemma coerced_members (kvs : list (string * JSONValue)) raws : Forall (fun k => coerce k = k) kvs.*1 ->
  zip_with (fun k raw => Ok (LStr (coerce k) :: LColon :: raw)) kvs.*1 raws =
  zip_with (fun k raw => Ok (LStr k :: LColon :: raw)) kvs.*1 raws :> list (res (list lexeme)).
Proof.
  revert raws. induction kvs as [|[k v] kvs IH]; intros [|raw raws] Hu; try done. apply Forall_cons in Hu as [Hk Hu].
  cbn in *. rewrite Hk. f_equal. by apply IH.
Qed.

(** Whatever [writeJSON] writes of UTF-8 is read back as the value it was given. *)
Lemma write_reads_back v : forall path raw, utf8_value v = true -> writeJSON v path = Ok raw -> reads_back v raw /\ opens raw.
Proof.
  induction v as [v H1 H2|l IH|m IH] using json_nested_ind; intros path raw Hutf Hw.
  - destruct v as [| |b|s|x|l|m]; simplify_eq/=; [| |apply valid_coerce in Hutf as Hs|].
    1,2,3: split; [|done]; intros n rest st stk p Hst Hn; destruct n; [simpl in *; lia|];
      simpl; unfold Token; simpl; rewrite ?Hst, ?Hs; destruct st; by rewrite ?Hs.
    destruct (validateJSONNumber x) eqn:Ex; simplify_eq/=. split; [|done].
    intros n rest st stk p Hst Hn. destruct n; [simpl in *; lia|].
    simpl. unfold Token; simpl. rewrite Hst. simpl. unfold JSONNumber. by rewrite Ex.
  - simpl in Hw. apply bind_Ok in Hw as (es & Hes & [= <-]). split; [|done].
    pose proof (write_elements_Ok _ _ _ Hes) as [raws Hraws]. rewrite Hraws in Hes.
    apply write_array_Forall2 in Hraws.
    apply utf8_array in Hutf.
    assert (Forall2 (fun v raw => reads_back v raw /\ opens raw) l raws) as HF.
    { clear Hes. induction Hraws as [|v raw' l raws [p Hp] _ IHl]; constructor.
      - inversion IH; inversion Hutf; subst. eauto.
      - apply IHl; [by inversion IH | by inversion Hutf]. }
    intros n rest st stk p Hst Hn. simpl in Hn. rewrite length_app in Hn. simpl in Hn.
    destruct n as [|n]; [lia|]. simpl.
    rewrite (Token_open false) by done. simpl. rewrite <- app_assoc. simpl.
    rewrite (parse_array_elements l raws HF true es n) by (done || lia). done.
  - simpl in Hw. apply bind_Ok in Hw as (es & Hes & [= <-]). split; [|done].
    pose proof (write_elements_Ok _ _ _ Hes) as [raws' Hraws].
    destruct (sorted_keys_spec m) as [Hnd Hks].
    destruct (write_object_members path m (sorted_keys m) _
      (fun k => map_fold_rebuild (fun k x => writeJSON x (joinPointer path k)) m k)) with (raws' := raws')
      as (kvs & raws & Hkeys & HF & Hz); [by apply Forall_forall; intros k Hk; apply Hks| done|].
    rewrite utf8_object in Hutf.
    assert (Forall (fun k => coerce k = k) kvs.*1) as Hu.
    { rewrite Hkeys. apply Forall_forall. intros k [x Hx]%Hks. by apply valid_coerce, (Hutf k x). }
    rewrite Hz, coerced_members in Hes by done. rewrite <- Hkeys in Hnd.
    assert (forall k v, (k, v) ∈ kvs -> m !! k = Some v) as Hm.
    { intros k v Hin. apply list_elem_of_lookup in Hin as [i Hi].
      eapply Forall2_lookup_l in HF as (? & _ & [? _]); [|done]. done. }
    assert (Forall2 (fun kv raw => reads_back kv.2 raw) kvs raws) as HR.
    { eapply Forall2_impl; [done|]. intros [k v] raw [Hk [p Hp]]. eapply IH; [exact Hk | by eapply Hutf | exact Hp]. }
    intros n rest st stk p Hst Hn. simpl in Hn. rewrite length_app in Hn. simpl in Hn.
    destruct n as [|n]; [lia|]. simpl.
    rewrite (Token_open true) by done. simpl. rewrite <- app_assoc. simpl.
    rewrite (parse_object_members kvs raws HR true es n)
      by (done || lia || (intros; apply lookup_empty)).
    do 3 f_equal. apply map_eq. intros k. rewrite (insert_members_lookup m) by done.
    rewrite Hkeys, lookup_empty. destruct (decide _) as [|Hno]; [done|].
    rewrite Hks in Hno. by apply eq_None_not_Some in Hno.
Qed.

(** What is parsed is UTF-8. *)
Lemma Token_utf8 d k d' : Token d = Ok (TKStr k, d') -> valid_utf8 k = true.
Proof.
  unfold Token. destruct d as [input st stk]. cbn [d_input d_state d_stack]. revert st.
  induction input as [|l input IH]; intros st H; [done|].
  destruct l; simpl in H; repeat case_match; simplify_eq/=; try apply coerce_valid; by eapply IH.
Qed.

Lemma parse_utf8_step n :
  (forall d path v d', parseJSONValue n d path = Ok (v, d') -> utf8_value v = true) /\
  (forall d path acc v d', utf8_value (JSONObj acc) = true -> parseJSONObject n d path acc = Ok (v, d') -> utf8_value v = true) /\
  (forall d path i acc v d', Forall (fun x => utf8_value x = true) acc -> parseJSONArray n d path i acc = Ok (v, d') -> utf8_value v = true).
Proof.
  induction n as [|n (IHv & IHo & IHa)]; [done|]. split_and!.
  - intros d path v d' H. cbn [parseJSONValue] in H. apply bind_Ok in H as ([t d1] & Ht & H).
    destruct t as [[] []| | | |s]; simplify_eq; try done.
    + by eapply IHo; [|exact H].
    + by eapply IHa; [|exact H].
    + apply bind_Ok in H as (x & Hx & [= <- <-]). apply bind_Ok in Hx as (_ & _ & [= <-]). done.
    + by apply Token_utf8 in Ht.
  - intros d path acc v d' Hacc H. cbn [parseJSONObject] in H. destruct (More d).
    + apply bind_Ok in H as ([t d1] & Ht & H). destruct t as [| | | |k]; try discriminate H.
      destruct (acc !! k) eqn:Ek; [discriminate H|]. apply bind_Ok in H as ([x d2] & Hx & H).
      apply IHo in H; [done|]. rewrite utf8_insert, !andb_true_iff by done. split; [split|done]; [by apply Token_utf8 in Ht | by apply IHv in Hx].
    + apply bind_Ok in H as ([t d1] & Ht & H). destruct t as [[] []| | | |]; try discriminate H.
      injection H as <- <-. by rewrite JSONObject_id.
  - intros d path i acc v d' Hacc H. cbn [parseJSONArray] in H. destruct (More d).
    + apply bind_Ok in H as ([x d2] & Hx & H). apply IHa in H; [done|]. constructor; [by apply IHv in Hx | done].
    + apply bind_Ok in H as ([t d1] & Ht & H). destruct t as [[] []| | | |]; try discriminate H.
      injection H as <- <-. rewrite JSONArray_id. apply utf8_array. by apply Forall_rev.
Qed.

Lemma parse_utf8 data v : ParseJSONValue data = Ok v -> utf8_value v = true.
Proof.
  unfold ParseJSONValue. intros ([x d] & Hp & H)%bind_Ok. apply (proj1 (parse_utf8_step _)) in Hp.
  destruct (Token d); [done|]. case_bool_decide; by simplify_eq.
Qed.

Lemma parse_printed v path raw : utf8_value v = true -> writeJSON v path = Ok raw -> ParseJSONValue raw = Ok v.
Proof.
  intros Hu H. destruct (write_reads_back v path raw Hu H) as [Hr _].
  unfold ParseJSONValue, NewDecoder, parse_fuel.
  rewrite <- (app_nil_r raw) at 2. rewrite Hr by (done || lia). done.
Qed.

(** C33: printing and parsing round-trip: what [MarshalJSON] prints,
    [ParseJSONValue] reads back as the same value, number tokens included,
    exactly when all strings and keys of the value are UTF-8; and every value
    that [ParseJSONValue] gave is, so it comes back. *)
Theorem parse_print (v : JSONValue) (raw : list lexeme) (H : MarshalJSON v = Ok raw) :
  (ParseJSONValue raw = Ok v <-> utf8_value v = true) /\
  forall data, ParseJSONValue data = Ok v -> ParseJSONValue raw = Ok v.
Proof.
  split; [split|]; [apply parse_utf8 | intros Hu | intros data Hu%parse_utf8]; by eapply parse_printed.
Qed.

(** The two keys of one object that is printed as a duplicate. *)
Example invalid_keys :
  let v := JSONObj (<[String (byte 255) "" := JSONNull]> (<[String (byte 254) "" := JSONNull]> ∅)) in
  match MarshalJSON v with Ok raw => ParseJSONValue raw = Err (duplicate_key "") | Err _ => False end.
Proof. vm_compute. reflexivity. Qed.

Definition sample : JSONValue :=
  JSONObj (<["b" := JSONArr [JSONNum "1.50"; JSONNull; JSONObj ∅]]>
           (<["a~/" := JSONString "x"]> ∅)).

Lemma parse_print_witness :
  match MarshalJSON sample with
  | Ok raw => ParseJSONValue raw = Ok sample
  | Err _ => False
  end.
Proof.
  destruct (MarshalJSON sample) as [raw|] eqn:E.
  - apply (parse_print sample raw E). vm_compute. reflexivity.
  - vm_compute in E. discriminate E.
Defined.

(** ** Termination and rejected duplicates *)

Definition is_colon (l : lexeme) : nat := match l with LColon => 1 | _ => 0 end.
Definition colons (l : list lexeme) : nat := list_sum (map is_colon l).

(** The members of all the objects of a value. *)
Fixpoint members (v : JSONValue) : nat :=
  match v with
  | JSONArr l => list_sum (map members l)
  | JSONObj m => map_fold (fun _ x acc => 1 + members x + acc) 0 m
  | _ => 0
  end.

(** A value may come next, after the separator the state expects. *)
Definition value_position (st : tstate) : bool :=
  mem st [TTop; TArrayStart; TArrayValue; TArrayComma; TObjectColon; TObjectValue].

Definition after (st : tstate) : tstate :=
  match st with
  | TArrayStart | TArrayValue | TArrayComma => TArrayComma
  | TObjectColon | TObjectValue => TObjectComma
  | _ => st
  end.

Definition pending_colon (st : tstate) : nat := match st with TObjectColon => 1 | _ => 0 end.

Lemma Token_value input st stk t d' :
  value_position st = true -> Token (mkDecoder input st stk) = Ok (t, d') ->
  (match t with TDelim false _ => False | _ => True end) ->
  colons input = pending_colon st + colons (d_input d') /\
  match t with
  | TDelim _ b => d_state d' = open_state b /\
      exists st', value_end st' = after st /\ d_stack d' = st' :: stk
  | _ => d_state d' = after st /\ d_stack d' = stk
  end.
Proof.
  unfold Token. intros Hst H Ht.
  assert (forall st0 inp, value_allowed st0 = true ->
    token_from inp st0 stk = Ok (t, d') ->
    colons inp = colons (d_input d') /\
    match t with
    | TDelim _ b => d_state d' = open_state b /\
        exists st', value_end st' = value_end st0 /\ d_stack d' = st' :: stk
    | _ => d_state d' = value_end st0 /\ d_stack d' = stk
    end) as Hgo.
  { clear Hst H st input. intros st0 [|l inp] Hst H; [done|].
    destruct st0; try discriminate Hst; destruct l; simpl in H; repeat case_match;
      simplify_eq/=; try done; split; try done; split; try done;
      by (eexists; split; [|reflexivity]). }
  destruct st; try discriminate Hst; try (apply Hgo in H; [exact H | done]); simpl in H;
    (destruct input as [|l input]; [done|]); destruct l; simpl in H;
    try (repeat case_match; simplify_eq; done).
  - by apply (Hgo TArrayValue) in H.
  - apply (Hgo TObjectValue) in H as [Hc H]; [|done].
    split; [unfold colons in *; simpl; lia | done].
Qed.

Lemma Token_object input first stk t d' :
  Token (mkDecoder input (before true first) stk) = Ok (t, d') ->
  match t with
  | TKStr _ => colons input = colons (d_input d') /\ d_state d' = TObjectColon /\ d_stack d' = stk
  | TDelim false true => colons input = colons (d_input d') /\
      exists st0 stk', stk = st0 :: stk' /\ d_state d' = value_end st0 /\ d_stack d' = stk'
  | _ => True
  end.
Proof.
  unfold Token. intros H. destruct input as [|l input]; [done|].
  destruct first, l; simpl in H; repeat case_match; simplify_eq/=; eauto 6;
    destruct input as [|l input]; try done;
    destruct l; simpl in H; repeat case_match; simplify_eq/=; eauto 6.
Qed.

Lemma Token_array_close input first stk d' :
  Token (mkDecoder input (before false first) stk) = Ok (TDelim false false, d') ->
  colons input = colons (d_input d') /\
  exists st0 stk', stk = st0 :: stk' /\ d_state d' = value_end st0 /\ d_stack d' = stk'.
Proof.
  unfold Token. intros H. destruct input as [|l input]; [done|].
  destruct first, l; simpl in H; repeat case_match; simplify_eq/=; eauto 6;
    destruct input as [|l input]; try done;
    destruct l; simpl in H; repeat case_match; simplify_eq/=; eauto 6.
Qed.

Lemma members_insert (m : gmap string JSONValue) k x :
  m !! k = None -> members (JSONObj (<[k := x]> m)) = 1 + members x + members (JSONObj m).
Proof. intros H. simpl. rewrite map_fold_insert_L; [done | intros; lia | done]. Qed.

Definition value_accounts n := forall input st stk path v d',
  value_position st = true ->
  parseJSONValue n (mkDecoder input st stk) path = Ok (v, d') ->
  colons input = pending_colon st + members v + colons (d_input d') /\
  d_state d' = after st /\ d_stack d' = stk.

Definition object_accounts n := forall input first st0 stk path acc v d',
  parseJSONObject n (mkDecoder input (before true first) (st0 :: stk)) path acc = Ok (v, d') ->
  colons input + members (JSONObj acc) = members v + colons (d_input d') /\
  d_state d' = value_end st0 /\ d_stack d' = stk.

Definition array_accounts n := forall input first st0 stk path i acc v d',
  parseJSONArray n (mkDecoder input (before false first) (st0 :: stk)) path i acc = Ok (v, d') ->
  colons input + list_sum (map members acc) = members v + colons (d_input d') /\
  d_state d' = value_end st0 /\ d_stack d' = stk.

Lemma object_step n : value_accounts n -> object_accounts n -> object_accounts (S n).
Proof.
  intros IHv IHo input first st0 stk path acc v d' H. cbn [parseJSONObject] in H.
  destruct (More _).
  - apply bind_Ok in H as ([t d1] & Ht & H). pose proof (Token_object _ _ _ _ _ Ht) as Hs.
    destruct t; try discriminate H. destruct Hs as (Hc & Hst & Hsk).
    destruct (acc !! value) eqn:Ek; [discriminate H|].
    apply bind_Ok in H as ([x d2] & Hx & H). destruct d1 as [in1 s1 k1]; simplify_eq/=.
    apply IHv in Hx as (Hc2 & Hs2 & Hk2); [|done].
    destruct d2 as [in2 s2 k2]; simplify_eq/=.
    apply (IHo in2 false) in H as (Hc3 & Hs3). split; [|done].
    pose proof (members_insert acc value x Ek) as Hm. simpl in Hm, Hc3 |- *. lia.
  - apply bind_Ok in H as ([t d1] & Ht & H). pose proof (Token_object _ _ _ _ _ Ht) as Hs.
    destruct t as [[] []| | | |]; try discriminate H. simplify_eq.
    destruct Hs as (Hc & ? & ? & [= <- <-] & Hst). rewrite JSONObject_id. split; [lia | done].
Qed.

Lemma array_step n : value_accounts n -> array_accounts n -> array_accounts (S n).
Proof.
  intros IHv IHa input first st0 stk path i acc v d' H. cbn [parseJSONArray] in H.
  destruct (More _).
  - apply bind_Ok in H as ([x d2] & Hx & H).
    apply IHv in Hx as (Hc2 & Hs2 & Hk2); [|by destruct first].
    destruct d2 as [in2 s2 k2]. simpl in Hs2, Hk2, Hc2. subst k2.
    assert (s2 = before false false) as -> by (subst; by destruct first).
    apply IHa in H as (Hc3 & Hs3). split; [|done].
    assert (pending_colon (before false first) = 0) as Hp by by destruct first.
    simpl in Hc3. lia.
  - apply bind_Ok in H as ([t d1] & Ht & H).
    destruct t as [[] []| | | |]; try discriminate H. simplify_eq.
    pose proof (Token_array_close _ _ _ _ Ht) as (Hc & ? & ? & [= <- <-] & Hst).
    rewrite JSONArray_id. split; [|done]. simpl. rewrite map_rev.
    assert (forall l, list_sum (rev l) = list_sum l) as ->; [|lia].
    intros l. induction l as [|y l IH]; simpl; [done|]. rewrite list_sum_app, IH. simpl. lia.
Qed.

Lemma value_step n :
  object_accounts n -> array_accounts n -> value_accounts (S n).
Proof.
  intros IHo IHa input st stk path v d' Hst H. cbn [parseJSONValue] in H.
  apply bind_Ok in H as ([t d1] & Ht & H).
  pose proof (Token_value _ _ _ _ _ Hst Ht) as Hs.
  destruct t as [[] []| | | |]; simplify_eq; try (destruct Hs as (Hc & Hs); [done|]).
  - destruct Hs as (Hs & st' & He & Hk). destruct d1 as [in1 s1 k1]. simpl in Hs, Hk, Hc. subst.
    apply (IHo in1 true) in H as (Hc2 & Hs2 & Hk2). rewrite Hs2, <- He.
    assert (members (JSONObj ∅) = 0) as Hz by reflexivity.
    split; [lia | done].
  - destruct Hs as (Hs & st' & He & Hk). destruct d1 as [in1 s1 k1]. simpl in Hs, Hk, Hc. subst.
    apply (IHa in1 true) in H as (Hc2 & Hs2 & Hk2). rewrite Hs2, <- He. simpl in Hc2.
    split; [lia | done].
  - simpl. split; [lia | done].
  - simpl. split; [lia | done].
  - apply bind_Ok in H as (x & Hx & [= <- <-]). unfold JSONNumber in Hx.
    apply bind_Ok in Hx as (_ & _ & [= <-]). simpl. split; [lia | done].
  - simpl. split; [lia | done].
Qed.

Lemma parse_accounts n : value_accounts n /\ object_accounts n /\ array_accounts n.
Proof.
  induction n as [|n (IHv & IHo & IHa)]; [done|].
  auto using object_step, array_step, value_step.
Qed.

(** Duplicate keys are rejected at every depth: every colon of an accepted
    document is a member of the value it denotes, so no member was dropped in
    favour of another one with its key. *)
Theorem parse_keeps_every_member (data : list lexeme) (v : JSONValue)
    (H : ParseJSONValue data = Ok v) :
  colons data = members v.
Proof.
  unfold ParseJSONValue in H. apply bind_Ok in H as ([x d] & Hp & H).
  destruct (parse_accounts (parse_fuel data)) as (Hv & _).
  apply Hv in Hp as (Hc & Hs & Hk); [|done]. destruct d as [in1 s1 k1]. simpl in *. subst.
  destruct (Token _) as [|e] eqn:Et; [done|]. case_bool_decide; [|done]. simplify_eq.
  destruct in1 as [|l in1]; [simpl in Hc; change (colons []) with 0 in Hc; lia|].
  unfold Token in Et. simpl in Et. by destruct l.
Qed.

(** [{"k": ..., "k": ...}] *)
Definition nested_document : list lexeme :=
  [LBraceO; LStr "k"; LColon; LBrackO; LNum "1"; LComma; LBraceO; LStr "k"; LColon; LNull; LBraceC;
   LBrackC; LBraceC].

Lemma parse_keeps_every_member_witness :
  match ParseJSONValue nested_document with
  | Ok v => colons nested_document = members v /\ members v = 2
  | Err _ => False
  end.
Proof.
  destruct (ParseJSONValue nested_document) as [v|] eqn:E.
  - split; [apply (parse_keeps_every_member nested_document v E)|].
    vm_compute in E. injection E as <-. reflexivity.
  - vm_compute in E. discriminate E.
Defined.

(** Every successful parse consumes input, and the fuel is enough. *)
Definition fuel_suffices {A} (d : decoder) (r : res (A * decoder)) : Prop :=
  match r with
  | Ok (_, d') => length (d_input d') < length (d_input d)
  | Err e => e <> out_of_fuel
  end.

Lemma token_from_error input st stk e : token_from input st stk = Err e -> e <> out_of_fuel.
Proof.
  revert st. induction input as [|l input IH]; intros st H; simpl in H; [by injection H as <-|].
  destruct l; simpl in H; repeat case_match; simplify_eq/=; try done; by eapply IH.
Qed.

Lemma validateJSONNumber_error x e : validateJSONNumber x = Err e -> e <> out_of_fuel.
Proof. unfold validateJSONNumber. repeat case_match; intros; simplify_eq; done. Qed.

Lemma Token_fuel d : fuel_suffices d (Token d).
Proof.
  destruct (Token d) as [[t d']|e] eqn:E; simpl; [by eapply Token_length|].
  by eapply token_from_error.
Qed.

Lemma fuel_suffices_weaken {A} (d d' : decoder) (r : res (A * decoder)) :
  length (d_input d') <= length (d_input d) -> fuel_suffices d' r -> fuel_suffices d r.
Proof. destruct r as [[a d'']|e]; simpl; [lia | done]. Qed.

Lemma parse_terminates n :
  (forall d path, 2 * length (d_input d) < n -> fuel_suffices d (parseJSONValue n d path)) /\
  (forall d path acc, 2 * length (d_input d) + 1 < n -> fuel_suffices d (parseJSONObject n d path acc)) /\
  (forall d path i acc, 2 * length (d_input d) + 1 < n -> fuel_suffices d (parseJSONArray n d path i acc)).
Proof.
  induction n as [|n (IHv & IHo & IHa)]; [split_and!; intros; lia|].
  split_and!.
  - intros d path Hn. cbn [parseJSONValue]. pose proof (Token_fuel d) as Ht.
    destruct (Token d) as [[t d1]|e]; simpl; [|done]. simpl in Ht.
    destruct t as [[] []| | | |]; simpl; try done;
      try (apply (fuel_suffices_weaken d d1); [lia|]; (apply IHo || apply IHa); lia).
    unfold JSONNumber. destruct (validateJSONNumber text) eqn:Ev; simpl; [done|].
    by eapply validateJSONNumber_error.
  - intros d path acc Hn. cbn [parseJSONObject]. pose proof (Token_fuel d) as Ht.
    destruct (More d), (Token d) as [[t d1]|e]; simpl; try done; simpl in Ht;
      [|by destruct t as [[] []| | | |]].
    destruct t; simpl; try done. destruct (acc !! value); simpl; [done|].
    assert (fuel_suffices d1 (parseJSONValue n d1 (joinPointer path value))) as Hv by (apply IHv; lia).
    destruct (parseJSONValue n d1 _) as [[x d2]|e]; simpl in *; [|done].
    apply (fuel_suffices_weaken d d2); [lia|]. apply IHo. lia.
  - intros d path i acc Hn. cbn [parseJSONArray]. pose proof (Token_fuel d) as Ht.
    destruct (More d).
    + assert (fuel_suffices d (parseJSONValue n d (joinPointer path (itoa i)))) as Hv by (apply IHv; lia).
      destruct (parseJSONValue n d _) as [[x d2]|e]; simpl in *; [|done].
      apply (fuel_suffices_weaken d d2); [lia|]. apply IHa. lia.
    + destruct (Token d) as [[t d1]|e]; simpl; [|done]. simpl in Ht.
      by destruct t as [[] []| | | |].
Qed.

(** Parsing terminates: the fuel [ParseJSONValue] starts with is enough for
    every document, so the model never stops for want of it. *)
Theorem ParseJSONValue_terminates (data : list lexeme) : ParseJSONValue data <> Err out_of_fuel.
Proof.
  unfold ParseJSONValue. destruct (parse_terminates (parse_fuel data)) as (Hv & _).
  specialize (Hv (NewDecoder data) ""). unfold parse_fuel in *. simpl d_input in Hv.
  destruct (parseJSONValue _ _ _) as [[v d]|e]; simpl in *; [|intros [= ->]; apply Hv; [lia|done]].
  pose proof (Token_fuel d) as Ht. destruct (Token d) as [[t d']|e]; simpl in *; [done|].
  case_bool_decide; [done|]. by intros [= ->].
Qed.
