(* ===== verification/Retention.v ===== *)
(** The retention budget of [src/codexsdk/notification_retention.go]: leases
    that charge one client for the notifications it keeps, the owners of a run,
    and the deterministic charge of a value.

    A [*retentionLease] is an address in the heap of leases; a nil pointer is
    [None].  The two panics of the code are the [None] results of [retain] and
    [release].  Every operation is one critical section of [b.mu]. *)

From S2P Require Import Prelude.
From Stdlib Require Import ZArith.

Local Open Scope string_scope.
Local Open Scope list_scope.
Local Open Scope Z_scope.

Record NotificationRetentionBudget := { MaxCount : Z; MaxBytes : Z }.

Definition DefaultNotificationRetentionCount : Z := 65536.
Definition DefaultNotificationRetentionBytes : Z := Z.shiftl 64 20.

(** The budget checks of [validateOptions]: negative dimensions are refused,
    zero selects the default. *)
Definition normalizeBudget (b : NotificationRetentionBudget) : res NotificationRetentionBudget :=
  if (MaxCount b <? 0) || (MaxBytes b <? 0) then
    Err (Errorf "codexsdk: invalid notification retention budget" [])
  else Ok {| MaxCount := if MaxCount b =? 0 then DefaultNotificationRetentionCount else MaxCount b;
             MaxBytes := if MaxBytes b =? 0 then DefaultNotificationRetentionBytes else MaxBytes b |}.

Record retentionLease := { l_count : Z; l_bytes : Z; l_refs : Z }.

(** The budget of a client with the leases it has handed out. *)
Record notificationRetention := {
  limit : NotificationRetentionBudget;
  b_count : Z;
  b_bytes : Z;
  heap : gmap nat retentionLease;
  next_lease : nat
}.

Definition new_retention (l : NotificationRetentionBudget) : notificationRetention :=
  {| limit := l; b_count := 0; b_bytes := 0; heap := ∅; next_lease := 0 |}.

(** A [*retentionLease]. *)
Abbreviation lease := (option nat).

Definition ErrNotificationRetention : error :=
  Sentinel "codexsdk: notification retention budget exhausted".

Definition reserve (count bytes : Z) (b : notificationRetention) : res lease * notificationRetention :=
  if (MaxCount (limit b) - b_count b <? count) || (MaxBytes (limit b) - b_bytes b <? bytes) then
    (Err ErrNotificationRetention, b)
  else
    (Ok (Some (next_lease b)),
     {| limit := limit b; b_count := b_count b + count; b_bytes := b_bytes b + bytes;
        heap := <[next_lease b := {| l_count := count; l_bytes := bytes; l_refs := 1 |}]> (heap b);
        next_lease := S (next_lease b) |}).

Definition set_refs (l : retentionLease) (n : Z) : retentionLease :=
  {| l_count := l_count l; l_bytes := l_bytes l; l_refs := n |}.

Definition with_heap (b : notificationRetention) (h : gmap nat retentionLease) : notificationRetention :=
  {| limit := limit b; b_count := b_count b; b_bytes := b_bytes b; heap := h; next_lease := next_lease b |}.

Definition retain (l : lease) (b : notificationRetention) : option notificationRetention :=
  match l with
  | None => Some b
  | Some a =>
    x ← heap b !! a;
    if l_refs x <=? 0 then None
    else Some (with_heap b (<[a := set_refs x (l_refs x + 1)]> (heap b)))
  end.

Definition release (l : lease) (b : notificationRetention) : option notificationRetention :=
  match l with
  | None => Some b
  | Some a =>
    x ← heap b !! a;
    let refs := l_refs x - 1 in
    if refs <? 0 then None
    else
      let b' := with_heap b (<[a := set_refs x refs]> (heap b)) in
      Some (if refs =? 0 then
              {| limit := limit b'; b_count := b_count b' - l_count x; b_bytes := b_bytes b' - l_bytes x;
                 heap := heap b'; next_lease := next_lease b' |}
            else b')
  end.

(** ** The owners of a run *)

Definition retentionOwners := list nat.

Definition owners_add (o : retentionOwners) (l : lease) (b : notificationRetention)
    : option (retentionOwners * notificationRetention) :=
  match l with
  | None => Some (o, b)
  | Some a => b' ← retain l b; Some (o ++ [a], b')
  end.

Fixpoint release_all (ls : list nat) (b : notificationRetention) : option notificationRetention :=
  match ls with
  | [] => Some b
  | a :: ls' => b' ← release (Some a) b; release_all ls' b'
  end.

Definition owners_release (o : retentionOwners) (b : notificationRetention)
    : option (retentionOwners * notificationRetention) :=
  b' ← release_all o b; Some ([], b').

(** ** The charge of a value *)

(** What [reflect] shows of a value: its [Type().Size()] and what it refers to. *)
Inductive rvalue :=
| RInvalid
| RScalar (size : Z)
| RString (size len : Z)
| RPointer (size : Z) (elem : option rvalue)
| RSlice (size cap elem_size : Z) (elems : list rvalue)
| RArray (size : Z) (elems : list rvalue)
| RStruct (size : Z) (fields : list rvalue)
| RMap (size : Z) (entries : list (rvalue * rvalue)).

Definition sumZ (l : list Z) : Z := foldr Z.add 0 l.

Fixpoint retainedReflectBytes (v : rvalue) : Z :=
  match v with
  | RInvalid => 0
  | RScalar size => size
  | RString size len => size + len
  | RPointer size None => size
  | RPointer size (Some e) => size + retainedReflectBytes e
  | RSlice size cap elem_size elems =>
    size + cap * elem_size + sumZ (map retainedReflectBytes elems)
  | RArray size elems => size + sumZ (map retainedReflectBytes elems)
  | RStruct size fields => size + sumZ (map retainedReflectBytes fields)
  | RMap size entries =>
    size + 256 + sumZ (map (fun kv => 128 + retainedReflectBytes kv.1 + retainedReflectBytes kv.2) entries)
  end.

Definition retainedValueBytes (v : rvalue) : Z := retainedReflectBytes v + 256.

(** ** The operations as steps *)

Inductive retention_step (b : notificationRetention) : notificationRetention -> Prop :=
| step_reserve count bytes l b' :
    0 <= count -> 0 <= bytes -> reserve count bytes b = (Ok l, b') -> retention_step b b'
| step_retain l b' : retain l b = Some b' -> retention_step b b'
| step_release l b' : release l b = Some b' -> retention_step b b'.

(** What the live leases charge in one dimension. *)
Definition charge (f : retentionLease -> Z) (l : retentionLease) : Z := if 0 <? l_refs l then f l else 0.

Definition charged (f : retentionLease -> Z) (h : gmap nat retentionLease) : Z :=
  map_fold (fun _ l acc => charge f l + acc) 0 h.

Record retention_wf (b : notificationRetention) : Prop := {
  wf_count : b_count b = charged l_count (heap b);
  wf_bytes : b_bytes b = charged l_bytes (heap b);
  wf_limit : b_count b <= MaxCount (limit b) /\ b_bytes b <= MaxBytes (limit b);
  wf_leases : forall a x, heap b !! a = Some x -> 0 <= l_count x /\ 0 <= l_bytes x /\ 0 <= l_refs x;
  wf_fresh : forall a, (next_lease b <= a)%nat -> heap b !! a = None
}.

(** * Theorems *)

Lemma charged_insert f h a x : h !! a = None -> charged f (<[a := x]> h) = charge f x + charged f h.
Proof. intros H. unfold charged. rewrite map_fold_insert_L; [done | intros; lia | done]. Qed.

Lemma charged_update f h a x y :
  h !! a = Some x -> charged f (<[a := y]> h) = charged f h - charge f x + charge f y.
Proof.
  intros H. rewrite <- insert_delete_eq. rewrite charged_insert by apply lookup_delete_eq.
  assert (charged f h = charge f x + charged f (delete a h)) as ->; [|lia].
  unfold charged. rewrite (map_fold_delete_L _ _ a x h); [done | intros; lia | done].
Qed.

Lemma charged_nonneg f (h : gmap nat retentionLease) :
  (forall a x, h !! a = Some x -> 0 <= f x) -> 0 <= charged f h.
Proof.
  unfold charged. apply (map_fold_weak_ind
    (fun r h => (forall a x, h !! a = Some x -> 0 <= f x) -> 0 <= r)); [lia|].
  intros a x h' r Ha IH Hf. assert (0 <= f x) by (eapply Hf, lookup_insert_eq).
  assert (0 <= r); [|unfold charge; case_match; lia].
  apply IH. intros a' x' H'. apply (Hf a'). rewrite lookup_insert_ne; congruence.
Qed.

Lemma lease_update_wf b a x n :
  retention_wf b -> heap b !! a = Some x -> 0 <= n ->
  forall a' x', <[a := set_refs x n]> (heap b) !! a' = Some x' ->
  0 <= l_count x' /\ 0 <= l_bytes x' /\ 0 <= l_refs x'.
Proof.
  intros Hwf Ha Hn a' x'. rewrite lookup_insert_Some. intros [[-> <-]|[_ H]].
  - pose proof (wf_leases b Hwf _ _ Ha). simpl. lia.
  - by eapply wf_leases.
Qed.

Lemma fresh_update b a x y :
  retention_wf b -> heap b !! a = Some x ->
  forall a', (next_lease b <= a')%nat -> <[a := y]> (heap b) !! a' = None.
Proof.
  intros Hwf Ha a' Hle. rewrite lookup_insert_ne; [by apply wf_fresh|].
  intros <-. rewrite (wf_fresh b Hwf a) in Ha by lia. done.
Qed.

Lemma retention_step_wf b b' : retention_wf b -> retention_step b b' -> retention_wf b'.
Proof.
  intros Hwf [count bytes l b1 Hc Hb H|l b1 H|l b1 H].
  - unfold reserve in H. case_match eqn:E; simplify_eq. reflect_bools.
    assert (heap b !! next_lease b = None) as Hn by (apply wf_fresh; [done | lia]).
    constructor; simpl.
    + rewrite charged_insert by done. rewrite (wf_count b Hwf). unfold charge. simpl. lia.
    + rewrite charged_insert by done. rewrite (wf_bytes b Hwf). unfold charge. simpl. lia.
    + lia.
    + intros a x. rewrite lookup_insert_Some. intros [[_ <-]|[_ Hx]]; [simpl; lia|].
      by eapply wf_leases.
    + intros a Ha. rewrite lookup_insert_ne by lia. apply wf_fresh; [done | lia].
  - unfold retain in H. destruct l as [a|]; [|by simplify_eq].
    destruct (heap b !! a) as [x|] eqn:Ha; simpl in H; [|done].
    destruct (l_refs x <=? 0) eqn:Er; simplify_eq. apply Z.leb_gt in Er.
    constructor; simpl; [| |apply Hwf| |by eapply fresh_update].
    + rewrite (charged_update _ _ _ x) by done. rewrite (wf_count b Hwf). unfold charge. simpl.
      rewrite !(proj2 (Z.ltb_lt _ _)) by lia. lia.
    + rewrite (charged_update _ _ _ x) by done. rewrite (wf_bytes b Hwf). unfold charge. simpl.
      rewrite !(proj2 (Z.ltb_lt _ _)) by lia. lia.
    + apply lease_update_wf; [done | done | lia].
  - unfold release in H. destruct l as [a|]; [|by simplify_eq].
    destruct (heap b !! a) as [x|] eqn:Ha; simpl in H; [|done].
    destruct (l_refs x - 1 <? 0) eqn:Er; simplify_eq. apply Z.ltb_ge in Er.
    pose proof (wf_leases b Hwf _ _ Ha) as (Hx1 & Hx2 & Hx3). pose proof (wf_limit b Hwf) as Hl.
    assert (forall f, charged f (<[a := set_refs x (l_refs x - 1)]> (heap b)) =
              charged f (heap b) - f x + (if l_refs x - 1 =? 0 then 0 else f (set_refs x (l_refs x - 1)))) as Hch.
    { intros f. rewrite (charged_update _ _ _ x) by done. unfold charge. simpl.
      rewrite (proj2 (Z.ltb_lt 0 (l_refs x))) by lia.
      destruct (Z.eqb_spec (l_refs x - 1) 0) as [->|]; [done|].
      by rewrite (proj2 (Z.ltb_lt 0 (l_refs x - 1))) by lia. }
    pose proof (wf_count b Hwf) as Hcw. pose proof (wf_bytes b Hwf) as Hbw.
    destruct (l_refs x - 1 =? 0) eqn:E0; constructor; simpl; rewrite ?Hch; simpl; try lia;
      try (by eapply lease_update_wf; [| |lia]); try by eapply fresh_update.
Qed.

Lemma new_retention_wf l : 0 <= MaxCount l -> 0 <= MaxBytes l -> retention_wf (new_retention l).
Proof. intros H1 H2. by constructor. Qed.

Lemma retention_reachable_wf b b' : rtc retention_step b b' -> retention_wf b -> retention_wf b'.
Proof. induction 1; eauto using retention_step_wf. Qed.

Lemma retention_step_limit b b' : retention_step b b' -> limit b' = limit b.
Proof.
  intros [count bytes l b1 _ _ H|l b1 H|l b1 H].
  - unfold reserve in H. case_match; by simplify_eq.
  - unfold retain in H. destruct l; [|by simplify_eq]. destruct (_ !! _); simplify_eq/=.
    case_match; by simplify_eq.
  - unfold release in H. destruct l; [|by simplify_eq]. destruct (_ !! _); simplify_eq/=.
    repeat case_match; by simplify_eq.
Qed.

Lemma retention_reachable_limit b b' : rtc retention_step b b' -> limit b' = limit b.
Proof. induction 1; [done|]. etrans; [done | by eapply retention_step_limit]. Qed.

(** A value is charged at least for every part of it. *)
Inductive rvalue_wf : rvalue -> Prop :=
| wf_invalid : rvalue_wf RInvalid
| wf_scalar s : 0 <= s -> rvalue_wf (RScalar s)
| wf_string s n : 0 <= s -> 0 <= n -> rvalue_wf (RString s n)
| wf_nil s : 0 <= s -> rvalue_wf (RPointer s None)
| wf_pointer s e : 0 <= s -> rvalue_wf e -> rvalue_wf (RPointer s (Some e))
| wf_slice s c z l : 0 <= s -> 0 <= c -> 0 <= z -> Forall rvalue_wf l -> rvalue_wf (RSlice s c z l)
| wf_array s l : 0 <= s -> Forall rvalue_wf l -> rvalue_wf (RArray s l)
| wf_struct s l : 0 <= s -> Forall rvalue_wf l -> rvalue_wf (RStruct s l)
| wf_map s l : 0 <= s -> Forall (fun kv => rvalue_wf kv.1 /\ rvalue_wf kv.2) l -> rvalue_wf (RMap s l).

(** C10: the budget is never exceeded: after any sequence of reservations,
    retentions and releases of a client, the charge is what the live leases
    hold, it is between zero and the limit in both dimensions, and the
    subtraction and addition of the admission test stay in 64 bits. *)
Theorem retention_bounded (l : NotificationRetentionBudget) (b : notificationRetention)
    (Hc : 0 <= MaxCount l < 2 ^ 63) (Hb : 0 <= MaxBytes l < 2 ^ 63)
    (Hreach : rtc retention_step (new_retention l) b) :
  b_count b = charged l_count (heap b) /\ b_bytes b = charged l_bytes (heap b) /\
  0 <= b_count b <= MaxCount l /\ 0 <= b_bytes b <= MaxBytes l /\
  0 <= MaxCount l - b_count b < 2 ^ 63 /\ 0 <= MaxBytes l - b_bytes b < 2 ^ 63.
Proof.
  assert (retention_wf b) as Hwf by (eapply retention_reachable_wf; [done | apply new_retention_wf; lia]).
  pose proof (retention_reachable_limit _ _ Hreach) as Hl. simpl in Hl.
  pose proof (wf_limit b Hwf) as [H1 H2]. rewrite Hl in H1, H2.
  assert (0 <= b_count b) by (rewrite (wf_count b Hwf); apply charged_nonneg; intros; by eapply wf_leases).
  assert (0 <= b_bytes b) by (rewrite (wf_bytes b Hwf); apply charged_nonneg; intros; by eapply wf_leases).
  split; [apply Hwf|]. split; [apply Hwf|]. lia.
Qed.

Definition small_budget : NotificationRetentionBudget := {| MaxCount := 4; MaxBytes := 1000 |}.
Definition one_lease : notificationRetention := (reserve 3 900 (new_retention small_budget)).2.

Lemma retention_bounded_witness :
  b_count one_lease = charged l_count (heap one_lease) /\ b_count one_lease = 3 /\
  is_ok (reserve 1 200 one_lease).1 = false /\ is_ok (reserve 1 100 one_lease).1 = true.
Proof.
  assert (rtc retention_step (new_retention small_budget) one_lease) as Hr.
  { apply rtc_once. by apply (step_reserve _ 3 900 (Some 0%nat)). }
  split; [|split_and!; reflexivity].
  apply (retention_bounded small_budget one_lease); simpl; [lia | lia | exact Hr].
Defined.

(** No charge leaks: once every lease of a client has been released, its
    budget is empty again, whatever the order of the operations was. *)
Theorem retention_no_leak (l : NotificationRetentionBudget) (b : notificationRetention)
    (Hc : 0 <= MaxCount l) (Hb : 0 <= MaxBytes l)
    (Hreach : rtc retention_step (new_retention l) b)
    (Hfree : forall a x, heap b !! a = Some x -> l_refs x = 0) :
  b_count b = 0 /\ b_bytes b = 0.
Proof.
  assert (retention_wf b) as Hwf by (eapply retention_reachable_wf; [done | by apply new_retention_wf]).
  rewrite (wf_count b Hwf), (wf_bytes b Hwf).
  assert (forall f, charged f (heap b) = 0) as H; [|by rewrite !H].
  intros f. unfold charged. revert Hfree. generalize (heap b). clear.
  intros h. apply (map_fold_weak_ind
    (fun r h => (forall a x, h !! a = Some x -> l_refs x = 0) -> r = 0)); [done|].
  intros a x h' r Ha IH Hf. unfold charge. rewrite (Hf a x) by apply lookup_insert_eq. simpl.
  apply IH. intros a' x' H'. apply (Hf a'). rewrite lookup_insert_ne; congruence.
Qed.

Definition lease_cycle : option notificationRetention :=
  let '(_, b) := reserve 3 900 (new_retention small_budget) in
  b ← retain (Some 0%nat) b; b ← release (Some 0%nat) b; release (Some 0%nat) b.

Lemma retention_no_leak_witness :
  match lease_cycle with Some b => b_count b = 0 /\ b_bytes b = 0 | None => False end.
Proof.
  destruct lease_cycle as [b|] eqn:E; [|vm_compute in E; discriminate E].
  apply (retention_no_leak small_budget b); [simpl; lia | simpl; lia | |].
  - eapply rtc_l; [apply (step_reserve _ 3 900 (Some 0%nat)); [lia | lia | reflexivity]|].
    eapply rtc_l; [apply (step_retain _ (Some 0%nat)); reflexivity|].
    eapply rtc_l; [apply (step_release _ (Some 0%nat)); reflexivity|].
    apply rtc_once. apply (step_release _ (Some 0%nat)). exact E.
  - assert (match lease_cycle with
            | Some b => bool_decide (map_Forall (fun _ x => l_refs x = 0) (heap b))
            | None => false
            end = true) as Hf by (vm_compute; reflexivity).
    rewrite E in Hf. apply bool_decide_eq_true in Hf. exact Hf.
Defined.
