(* ===== verification/Envelope.v ===== *)
(** The JSON-RPC envelopes of [src/codexsdk/jsonrpc_envelope.go], over the
    decoder of [JsonLex]: the members of an object as raw messages, the choice
    of the envelope kind, the validation of each field, and the message of
    decoded members that the transport routes.  [RequestId] and
    [W3cTraceContext] are the two generated types the validation decodes into. *)

From S2P Require Import Prelude GoStrings JsonLex Scope Json.
From Stdlib Require Import Ascii.

Local Open Scope string_scope.
Local Open Scope list_scope.

(** * Members of an object *)

(** The loop of [decodeJSONRPCObjectFields]. *)
Fixpoint read_fields (n : nat) (d : decoder) (fields : gmap string RawMessage)
    : res (gmap string RawMessage * decoder) :=
  match n with
  | O => Err out_of_fuel
  | S n' =>
    if More d then
      '(t, d) ← Token d;
      match t with
      | TKStr key =>
        match fields !! key with
        | Some _ => Err (Errorf "decode %s: duplicate object key" [])
        | None =>
          match DecodeRaw d with
          | Err e => Err (Errorf "decode %s: invalid object field: %w" [e])
          | Ok (raw, d) => read_fields n' d (<[key := raw]> fields)
          end
        end
      | _ => Err (Errorf "decode %s: expected object key" [])
      end
    else Ok (fields, d)
  end.

Definition decodeJSONRPCObjectFields (data : list lexeme) (path : string)
    : res (gmap string RawMessage) :=
  '(t, d) ← Token (NewDecoder data);
  match t with
  | TDelim true true =>
    '(fields, d) ← read_fields (S (length data)) d ∅;
    '(t, d) ← Token d;
    match t with
    | TDelim false true =>
      match DecodeRaw d with
      | Ok _ => Err (Errorf "decode %s: unexpected trailing data" [])
      | Err e => if bool_decide (e = eof) then Ok fields else Err (Errorf "decode %s: %w" [e])
      end
    | _ => Err (Errorf "decode %s: expected end object" [])
    end
  | _ => Err (Errorf "decode %s: expected object" [])
  end.

(** * Decoding into [any] *)

(** [json.Unmarshal] into [any]: of two members with one key the last stays.
    A Go [any] is a [JSONValue]: [nil] is [JSONNull], a [json.Number] is
    [JSONNum], and slices and maps are arrays and objects. *)
Inductive frame :=
| FArr (values : list JSONValue)
| FObj (values : gmap string JSONValue) (key : option string).

Fixpoint build_any (input : list lexeme) (stack : list frame) : res JSONValue :=
  match input with
  | [] => Err eof
  | l :: rest =>
    let push v (stack : list frame) :=
      match stack with
      | [] => Ok v
      | FArr vs :: s => build_any rest (FArr (v :: vs) :: s)
      | FObj m (Some k) :: s => build_any rest (FObj (<[k := v]> m) None :: s)
      | FObj _ None :: _ => Err syntax_error
      end in
    match l with
    | LBraceO => build_any rest (FObj ∅ None :: stack)
    | LBrackO => build_any rest (FArr [] :: stack)
    | LBraceC => match stack with FObj m _ :: s => push (JSONObj m) s | _ => Err syntax_error end
    | LBrackC => match stack with FArr vs :: s => push (JSONArr (rev vs)) s | _ => Err syntax_error end
    | LComma | LColon => build_any rest stack
    | LNull => push JSONNull stack
    | LBool b => push (JSONBool b) stack
    | LNum x => push (JSONNum x) stack
    | LStr s => match stack with
                | FObj m None :: s' => build_any rest (FObj m (Some (coerce s)) :: s')
                | _ => push (JSONString (coerce s)) stack
                end
    | LBad => Err syntax_error
    end
  end.

Definition unmarshalJSONPreserveNumbers (data : list lexeme) : res JSONValue :=
  match data with
  | [] => Err eof
  | _ => match scan_value TTop [] [] data with
         | Some (raw, _) => build_any raw []
         | None => Err syntax_error
         end
  end.

(** * The generated types *)

Inductive RequestId := RequestIdInt64 (value : Z) | RequestIdString (value : string).

Definition RequestId_UnmarshalJSON (data : list lexeme) : res RequestId :=
  match ParseJSONValue data with
  | Err e => Err (Errorf "decode RequestId: %w" [e])
  | Ok (JSONNum number) =>
    match parse_int64 number with
    | Some n => Ok (RequestIdInt64 n)
    | None => Err (Errorf "decode RequestId: expected int64 JSON number: %w" [])
    end
  | Ok (JSONString s) => Ok (RequestIdString s)
  | Ok _ => Err (Errorf "decode RequestId: expected string or int64 JSON number" [])
  end.

(** A nullable string member: absent, null or a string. *)
Definition nullable_string_field (fields : gmap string JSONValue) (name : string)
    : res (option (Nullable string)) :=
  match fields !! name with
  | None => Ok None
  | Some JSONNull => Ok (Some None)
  | Some (JSONString s) => Ok (Some (Some s))
  | Some _ => Err (Errorf "decode %s: %w" [type_error])
  end.

Definition W3cTraceContext_UnmarshalJSON (data : list lexeme)
    : res (option (Nullable string) * option (Nullable string)) :=
  value ← ParseJSONValue data;
  match AsObject value with
  | None => Err (Errorf "decode %s: expected object" [])
  | Some fields =>
    parent ← nullable_string_field fields "traceparent";
    state ← nullable_string_field fields "tracestate";
    if bool_decide (delete "tracestate" (delete "traceparent" fields) = ∅) then Ok (parent, state)
    else Err (Errorf "decode %s: unexpected field" [])
  end.

(** * Field validation *)

Definition missing_field : error := Errorf "decode %s: missing required field" [].

Definition validateRequiredJSONString (raw : option RawMessage) : res unit :=
  match raw with
  | None => Err missing_field
  | Some raw => match unmarshal_string raw with
                | Ok _ => Ok tt
                | Err _ => Err (Errorf "decode %s: expected string" [])
                end
  end.

Definition expected_integer : error := Errorf "decode %s: expected integer" [].

(** [strings.ContainsAny(s, ".eE")] *)
Fixpoint contains_exponent (s : string) : bool :=
  match s with
  | EmptyString => false
  | String c s' => Ascii.eqb c "." || Ascii.eqb c "e" || Ascii.eqb c "E" || contains_exponent s'
  end.

Definition validateJSONInteger (raw : RawMessage) : res unit :=
  match unmarshal_number raw with
  | Err _ => Err expected_integer
  | Ok number =>
    if contains_exponent number then Err expected_integer
    else match parse_int64 number with Some _ => Ok tt | None => Err expected_integer end
  end.

Definition validateRequiredJSONInteger (raw : option RawMessage) : res unit :=
  match raw with None => Err missing_field | Some raw => validateJSONInteger raw end.

Definition validateJSONRPCRequestID (raw : option RawMessage) : res unit :=
  match raw with
  | None => Err missing_field
  | Some raw =>
    if bool_decide (raw = [LNull]) then Err (Errorf "decode %s: null is not allowed" [])
    else match RequestId_UnmarshalJSON raw with Ok _ => Ok tt | Err _ => Err expected_integer end
  end.

Definition invalid_value : error := Errorf "decode %s: invalid JSON value" [].

Definition validateRequiredJSONValue (raw : option RawMessage) : res unit :=
  match raw with
  | None => Err missing_field
  | Some raw => match UnmarshalJSON raw with Ok _ => Ok tt | Err _ => Err invalid_value end
  end.

Definition validateOptionalJSONValue (fields : gmap string RawMessage) (name : string) : res unit :=
  match fields !! name with
  | None => Ok tt
  | Some raw => match UnmarshalJSON raw with Ok _ => Ok tt | Err _ => Err invalid_value end
  end.

(** [fmt.Errorf(format + ": %w", err)] around a failed step. *)
Definition wrap {A} (format : string) (r : res A) : res A :=
  match r with Ok a => Ok a | Err e => Err (Errorf format [e]) end.

Definition validateJSONRPCRequest (fields : gmap string RawMessage) : res unit :=
  _ ← wrap "decode JSONRPCMessage.request: %w" (validateJSONRPCRequestID (fields !! "id"));
  _ ← wrap "decode JSONRPCMessage.request: %w" (validateRequiredJSONString (fields !! "method"));
  _ ← wrap "decode JSONRPCMessage.request: %w" (validateOptionalJSONValue fields "params");
  match fields !! "trace" with
  | None => Ok tt
  | Some raw =>
    match NullableFromJSON W3cTraceContext_UnmarshalJSON raw with
    | Ok _ => Ok tt
    | Err _ => Err (Errorf "decode JSONRPCMessage.request: decode JSONRPCRequest.trace: invalid value" [])
    end
  end.

Definition validateJSONRPCNotification (fields : gmap string RawMessage) : res unit :=
  _ ← wrap "decode JSONRPCMessage.notification: %w" (validateRequiredJSONString (fields !! "method"));
  wrap "decode JSONRPCMessage.notification: %w" (validateOptionalJSONValue fields "params").

Definition validateJSONRPCResponse (fields : gmap string RawMessage) : res unit :=
  _ ← wrap "decode JSONRPCMessage.response: %w" (validateJSONRPCRequestID (fields !! "id"));
  wrap "decode JSONRPCMessage.response: %w" (validateRequiredJSONValue (fields !! "result")).

Definition validateJSONRPCError (fields : gmap string RawMessage) : res unit :=
  _ ← wrap "decode JSONRPCMessage.error: %w" (validateJSONRPCRequestID (fields !! "id"));
  errorFields ← wrap "decode JSONRPCMessage.error: %w"
    (decodeJSONRPCObjectFields (default [] (fields !! "error")) "JSONRPCErrorError");
  _ ← wrap "decode JSONRPCMessage.error: %w" (validateRequiredJSONInteger (errorFields !! "code"));
  _ ← wrap "decode JSONRPCMessage.error: %w" (validateRequiredJSONString (errorFields !! "message"));
  wrap "decode JSONRPCMessage.error: %w" (validateOptionalJSONValue errorFields "data").

(** * The envelope *)

Inductive jsonRPCEnvelopeKind := jsonRPCRequest | jsonRPCNotification | jsonRPCResponse | jsonRPCError.

#[export] Instance jsonRPCEnvelopeKind_eq_dec : EqDecision jsonRPCEnvelopeKind.
Proof. solve_decision. Defined.

Record jsonRPCEnvelope := { env_kind : jsonRPCEnvelopeKind; message : gmap string JSONValue }.

Definition has (fields : gmap string RawMessage) (name : string) : bool := bool_decide (is_Some (fields !! name)).

Definition envelope_kind (hasID hasMethod hasResult hasError : bool) : option jsonRPCEnvelopeKind :=
  if hasID && hasMethod && negb hasResult && negb hasError then Some jsonRPCRequest
  else if negb hasID && hasMethod && negb hasResult && negb hasError then Some jsonRPCNotification
  else if hasID && negb hasMethod && hasResult && negb hasError then Some jsonRPCResponse
  else if hasID && negb hasMethod && negb hasResult && hasError then Some jsonRPCError
  else None.

Definition validate_kind (kind : jsonRPCEnvelopeKind) (fields : gmap string RawMessage) : res unit :=
  match kind with
  | jsonRPCRequest => validateJSONRPCRequest fields
  | jsonRPCNotification => validateJSONRPCNotification fields
  | jsonRPCResponse => validateJSONRPCResponse fields
  | jsonRPCError => validateJSONRPCError fields
  end.

(** The loop that decodes every member. *)
Fixpoint decode_members (l : list (string * RawMessage)) : res (gmap string JSONValue) :=
  match l with
  | [] => Ok ∅
  | (name, raw) :: l' =>
    match unmarshalJSONPreserveNumbers raw with
    | Err _ => Err (Errorf "decode JSONRPCMessage: invalid object field" [])
    | Ok value => m ← decode_members l'; Ok (<[name := value]> m)
    end
  end.

Definition decodeJSONRPCEnvelope (data : list lexeme) : res jsonRPCEnvelope :=
  fields ← decodeJSONRPCObjectFields data "JSONRPCMessage";
  match envelope_kind (has fields "id") (has fields "method") (has fields "result") (has fields "error") with
  | None => Err (Errorf "decode JSONRPCMessage: expected exactly one JSON-RPC envelope shape" [])
  | Some kind =>
    _ ← validate_kind kind fields;
    message ← decode_members (map_to_list fields);
    Ok {| env_kind := kind; message := message |}
  end.

Definition validateJSONRPCEnvelope (data : list lexeme) : res unit :=
  _ ← decodeJSONRPCEnvelope data; Ok tt.

(** * Theorems *)

(** The lexemes of one whole value. *)
Definition complete (raw : RawMessage) : Prop := scan_value TTop [] [] raw = Some (raw, []).

Fixpoint member_lexemes (first : bool) (kvs : list (string * RawMessage)) : list lexeme :=
  match kvs with
  | [] => []
  | (k, raw) :: kvs' => sep first ++ LStr k :: LColon :: raw ++ member_lexemes false kvs'
  end.

(** The members as they are read. *)
Definition decoded_members (kvs : list (string * RawMessage)) : list (string * RawMessage) :=
  map (fun kv => (coerce kv.1, kv.2)) kvs.

Definition object_lexemes (kvs : list (string * RawMessage)) : list lexeme :=
  LBraceO :: member_lexemes true kvs ++ [LBraceC].

Lemma scan_value_split st stk acc input raw rest :
  scan_value st stk acc input = Some (raw, rest) ->
  exists mid, mid <> [] /\ raw = rev acc ++ mid /\ input = mid ++ rest /\
    forall rest', scan_value st stk acc (mid ++ rest') = Some (raw, rest').
Proof.
  revert st stk acc. induction input as [|l input IH]; intros st stk acc H; simpl in H; [done|].
  destruct (lex_step st stk l) as [[st' stk']|] eqn:El; [|done].
  destruct stk' as [|s stk'].
  - destruct st'; simplify_eq. exists [l]. split_and!; [done | done | done|].
    intros rest'. simpl. by rewrite El.
  - apply IH in H as (mid & _ & -> & -> & Hr). exists (l :: mid). simpl rev in *.
    split_and!; [done | by rewrite <- app_assoc | done|]. intros rest'. simpl. rewrite El. apply Hr.
Qed.

Lemma complete_app raw rest : complete raw -> scan_value TTop [] [] (raw ++ rest) = Some (raw, rest).
Proof.
  intros H. apply scan_value_split in H as (mid & _ & Hr & Hi & Hall). simpl in Hr. subst mid.
  apply Hall.
Qed.

Lemma complete_cons raw : complete raw -> exists l raw', raw = l :: raw'.
Proof. destruct raw; [done | eauto]. Qed.

Lemma Token_key_inv input first stk k d' :
  Token (mkDecoder input (before true first) stk) = Ok (TKStr k, d') ->
  exists s rest, k = coerce s /\ input = sep first ++ LStr s :: rest /\ d' = mkDecoder rest TObjectColon stk.
Proof.
  unfold Token. intros H. destruct input as [|l input]; [done|].
  destruct first, l; simpl in H; repeat case_match; simplify_eq/=; eauto;
    (destruct input as [|l0 input]; [done|]);
    destruct l0; simpl in H; repeat case_match; simplify_eq/=; eauto.
Qed.

Lemma Token_close_inv input first d' :
  Token (mkDecoder input (before true first) [TTop]) = Ok (TDelim false true, d') ->
  exists rest, input = LBraceC :: rest /\ d' = mkDecoder rest TTop [].
Proof.
  unfold Token. intros H. destruct input as [|l input]; [done|].
  destruct first, l; simpl in H; repeat case_match; simplify_eq/=; eauto;
    destruct input as [|l input]; try done;
    destruct l; simpl in H; repeat case_match; simplify_eq/=; eauto.
Qed.

Lemma DecodeRaw_member input stk raw d' :
  DecodeRaw (mkDecoder input TObjectColon stk) = Ok (raw, d') ->
  exists rest, input = LColon :: raw ++ rest /\ complete raw /\ d' = mkDecoder rest TObjectComma stk.
Proof.
  unfold DecodeRaw, prepare_decode. cbn [d_state d_input d_stack].
  destruct input as [|[] input]; try done. cbn -[scan_value].
  intros H. destruct input as [|l input]; [done|].
  destruct (scan_value TTop [] [] (l :: input)) as [[raw' rest]|] eqn:E; [|done].
  injection H as -> <-.
  apply scan_value_split in E as (mid & _ & Hr & Hi & Hall). simpl in Hr. subst mid.
  exists rest. split; [by rewrite Hi|]. split; [|done]. unfold complete.
  specialize (Hall []). by rewrite app_nil_r in Hall.
Qed.

Lemma DecodeRaw_complete raw rest stk :
  complete raw ->
  DecodeRaw (mkDecoder (LColon :: raw ++ rest) TObjectColon stk) = Ok (raw, mkDecoder rest TObjectComma stk).
Proof.
  intros H. unfold DecodeRaw, prepare_decode. cbn -[scan_value app].
  pose proof (complete_cons raw H) as (l & raw' & Hraw).
  pose proof (complete_app raw rest H) as Happ. rewrite Hraw in Happ |- *.
  cbn [app] in *. by rewrite Happ.
Qed.

Lemma read_fields_sound n : forall input first fields fields' d',
  read_fields n (mkDecoder input (before true first) [TTop]) fields = Ok (fields', d') ->
  exists kvs last, input = member_lexemes first kvs ++ d_input d' /\
    d' = mkDecoder (d_input d') (before true last) [TTop] /\
    NoDup (decoded_members kvs).*1 /\ Forall (fun k => fields !! k = None) (decoded_members kvs).*1 /\ Forall complete kvs.*2 /\
    fields' = list_to_map (decoded_members kvs) ∪ fields.
Proof.
  induction n as [|n IH]; intros input first fields fields' d' H; [done|]. cbn [read_fields] in H.
  destruct (More _).
  - apply bind_Ok in H as ([t d1] & Ht & H). destruct t; try discriminate H.
    apply Token_key_inv in Ht as (key & rest & -> & -> & ->).
    destruct (fields !! coerce key) eqn:Ek; [discriminate H|].
    destruct (DecodeRaw _) as [[raw d2]|] eqn:Ed; [|discriminate H].
    apply DecodeRaw_member in Ed as (rest' & -> & Hc & ->).
    apply (IH rest' false) in H as (kvs & last & Hi & Hd & Hnd & Hf & Hcs & ->).
    assert (coerce key ∉ (decoded_members kvs).*1) as Hnew.
    { intros Hin. rewrite Forall_forall in Hf. specialize (Hf _ Hin).
      by rewrite lookup_insert_eq in Hf. }
    exists ((key, raw) :: kvs), last. simpl. split_and!.
    + rewrite <- app_assoc. simpl. rewrite <- app_assoc. by rewrite Hi.
    + done.
    + by constructor.
    + constructor; [done|]. rewrite Forall_forall in *. intros k Hk. specialize (Hf k Hk).
      by apply lookup_insert_None in Hf as [? _].
    + by constructor.
    + rewrite <- insert_union_r, insert_union_l; [done|].
      by apply not_elem_of_list_to_map_1.
  - simplify_eq. exists [], first. simpl.
    split_and!; auto using NoDup_nil_2. by rewrite (left_id_L ∅ (∪)).
Qed.

Lemma read_fields_complete kvs : forall n first fields rest,
  length kvs < n -> NoDup (decoded_members kvs).*1 -> Forall (fun k => fields !! k = None) (decoded_members kvs).*1 ->
  Forall complete kvs.*2 ->
  exists last, read_fields n (mkDecoder (member_lexemes first kvs ++ LBraceC :: rest) (before true first) [TTop]) fields =
    Ok (list_to_map (decoded_members kvs) ∪ fields, mkDecoder (LBraceC :: rest) (before true last) [TTop]).
Proof.
  induction kvs as [|[k raw] kvs IH]; intros [|n] first fields rest Hn Hnd Hf Hc; simpl in Hn; try lia.
  - exists first. simpl. by rewrite (left_id_L ∅ (∪)).
  - simpl in *. apply NoDup_cons in Hnd as [Hk Hnd]. inversion Hf as [|? ? Hk0 Hf']. inversion Hc. subst.
    destruct (IH n false (<[coerce k := raw]> fields) rest) as (last & IH'); [lia | done | | done |].
    { rewrite Forall_forall in *. intros k' Hk'. rewrite lookup_insert_ne; [by apply Hf'|].
      by intros <-. }
    exists last. rewrite <- app_assoc. simpl. rewrite <- app_assoc.
    assert (forall l, More (mkDecoder (sep first ++ LStr k :: l) (before true first) [TTop]) = true) as ->
      by by destruct first.
    assert (forall l, Token (mkDecoder (sep first ++ LStr k :: l) (before true first) [TTop]) =
      Ok (TKStr (coerce k), mkDecoder l TObjectColon [TTop])) as -> by by destruct first.
    simpl. rewrite Hk0. rewrite DecodeRaw_complete by done.
    change (before true false) with TObjectComma in IH'. rewrite IH'.
    rewrite <- insert_union_r, insert_union_l; [done|]. by apply not_elem_of_list_to_map_1.
Qed.

Lemma member_lexemes_length first kvs : length kvs <= length (member_lexemes first kvs).
Proof.
  revert first. induction kvs as [|[k raw] kvs IH]; intros first; simpl; [lia|].
  specialize (IH false). rewrite length_app. simpl. rewrite length_app. lia.
Qed.

(** An object is read exactly: [decodeJSONRPCObjectFields] accepts a frame
    if and only if it is one object with distinct keys and complete values, and
    the fields are its members, each with its own lexemes. *)
Theorem decode_fields_exact (data : list lexeme) (path : string) (fields : gmap string RawMessage) :
  decodeJSONRPCObjectFields data path = Ok fields <->
  exists kvs, data = object_lexemes kvs /\ NoDup (decoded_members kvs).*1 /\ Forall complete kvs.*2 /\
    fields = list_to_map (decoded_members kvs).
Proof.
  split.
  - unfold decodeJSONRPCObjectFields. intros H. apply bind_Ok in H as ([t d] & Ht & H).
    destruct t as [[] []| | | |]; try discriminate H.
    destruct data as [|l data]; [discriminate Ht|].
    unfold Token, NewDecoder in Ht. destruct l; simpl in Ht; simplify_eq.
    apply bind_Ok in H as ([fs d] & Hr & H).
    apply (read_fields_sound _ _ true) in Hr as (kvs & last & Hi & Hd & Hnd & _ & Hc & ->).
    apply bind_Ok in H as ([t d2] & Ht & H). destruct t as [[] []| | | |]; try discriminate H.
    rewrite Hd in Ht. apply Token_close_inv in Ht as (rest & Hd' & ->).
    destruct rest as [|l rest].
    + unfold DecodeRaw, prepare_decode in H. simpl in H. injection H as <-. exists kvs.
      rewrite Hi, Hd'. split_and!; try done. by rewrite (right_id_L ∅ (∪)).
    + exfalso. destruct (DecodeRaw _) as [?|e] eqn:Ed; [done|].
      unfold DecodeRaw, prepare_decode in Ed. cbn in Ed.
      assert (e = syntax_error) as -> by (repeat case_match; congruence). simpl in H. done.
  - intros (kvs & -> & Hnd & Hc & ->). unfold decodeJSONRPCObjectFields.
    destruct (read_fields_complete kvs (S (length (object_lexemes kvs))) true ∅ []) as (last & Hr);
      [| done | by apply Forall_forall | done |].
    + pose proof (member_lexemes_length true kvs). unfold object_lexemes. simpl.
      rewrite length_app. simpl. lia.
    + change (Token (NewDecoder (object_lexemes kvs))) with
        (Ok (TDelim true true, mkDecoder (member_lexemes true kvs ++ [LBraceC]) (before true true) [TTop])).
      rewrite (right_id_L ∅ (∪)) in Hr. remember (S _) as n eqn:Hn. cbn [mbind res_bind].
      rewrite Hr. by destruct last.
Qed.

Lemma parseJSONObject_kind n d path m v d' :
  parseJSONObject n d path m = Ok (v, d') -> Kind v = JSONKindObject.
Proof.
  revert d m. induction n as [|n IH]; intros d m H; [done|]. cbn [parseJSONObject] in H.
  destruct (More d).
  - apply bind_Ok in H as ([t d1] & _ & H). destruct t; try discriminate H.
    destruct (m !! value); [discriminate H|]. apply bind_Ok in H as ([x d2] & _ & H). eauto.
  - apply bind_Ok in H as ([t d1] & _ & H).
    destruct t as [[] []| | | |]; try discriminate H. by injection H as <- _.
Qed.

Lemma parseJSONArray_kind n d path i vs v d' :
  parseJSONArray n d path i vs = Ok (v, d') -> Kind v = JSONKindArray.
Proof.
  revert d i vs. induction n as [|n IH]; intros d i vs H; [done|]. cbn [parseJSONArray] in H.
  destruct (More d).
  - apply bind_Ok in H as ([x d2] & _ & H). eauto.
  - apply bind_Ok in H as ([t d1] & _ & H).
    destruct t as [[] []| | | |]; try discriminate H. by injection H as <- _.
Qed.

(** The value of a scalar lexeme. *)
Definition scalar_value (l : lexeme) : option JSONValue :=
  match l with
  | LNull => Some JSONNull
  | LBool b => Some (JSONBool b)
  | LStr s => Some (JSONString (coerce s))
  | LNum x => Some (JSONNum x)
  | _ => None
  end.
Definition is_scalar (v : JSONValue) : bool :=
  match v with JSONNull | JSONBool _ | JSONString _ | JSONNum _ => true | _ => false end.

Lemma Token_top input t d :
  Token (NewDecoder input) = Ok (t, d) ->
  match t with
  | TDelim _ _ => True
  | _ => exists l rest, scalar_token l = Some t /\ input = l :: rest /\ d = mkDecoder rest TTop []
  end.
Proof.
  unfold Token, NewDecoder. destruct input as [|l input]; [done|].
  intros H. destruct l; simpl in H; simplify_eq/=; try done; eexists _, _; by repeat split.
Qed.

Lemma Token_top_eof rest e : Token (mkDecoder rest TTop []) = Err e -> e = eof -> rest = [].
Proof. unfold Token. destruct rest as [|l rest]; [done|]. by destruct l; simpl; intros [= <-]. Qed.

Lemma parse_scalar data v :
  ParseJSONValue data = Ok v -> is_scalar v = true -> exists l, data = [l] /\ scalar_value l = Some v.
Proof.
  unfold ParseJSONValue. intros H Hl. apply bind_Ok in H as ([v' d] & Hp & H).
  destruct (Token d) as [|e] eqn:Et; [done|]. case_bool_decide as He; [|done]. injection H as ->.
  unfold parse_fuel in Hp. cbn [parseJSONValue] in Hp. apply bind_Ok in Hp as ([t d1] & Ht & Hp).
  pose proof (Token_top _ _ _ Ht) as Hs.
  assert (match t with TDelim _ _ => False | _ => True end) as Hscalar.
  { destruct t as [[] []| | | |]; try done.
    - apply parseJSONObject_kind in Hp. by destruct v.
    - apply parseJSONArray_kind in Hp. by destruct v. }
  destruct t; [done| | | |]; destruct Hs as (l' & rest & Hl' & -> & ->); destruct l'; simplify_eq/=.
  1,2,4: (apply Token_top_eof in Et; [|done]; subst; by eexists).
  unfold JSONNumber in Hp. apply bind_Ok in Hp as (x & Hx & [= <- <-]).
  apply bind_Ok in Hx as (_ & _ & [= <-]). simplify_eq/=.
  apply Token_top_eof in Et; [|done]; subst; by eexists.
Qed.

(** The value of an accepted request id. *)
Inductive id_value : JSONValue -> Prop :=
| id_string s : id_value (JSONString s)
| id_int64 x n : parse_int64 x = Some n -> id_value (JSONNum x).

Lemma validate_id raw :
  validateJSONRPCRequestID raw = Ok tt ->
  exists r v, raw = Some r /\ unmarshalJSONPreserveNumbers r = Ok v /\ id_value v.
Proof.
  unfold validateJSONRPCRequestID, RequestId_UnmarshalJSON. destruct raw as [r|]; [|done].
  case_bool_decide as Hnull; [done|]. intros H.
  destruct (ParseJSONValue r) as [v|] eqn:Ep; [|done]. exists r, v. split; [done|].
  destruct v; simpl in H; try done.
  - destruct (parse_scalar _ _ Ep eq_refl) as (l & -> & Hl). destruct l; simplify_eq/=. split; [done | constructor].
  - destruct (parse_int64 value) eqn:En; [|done].
    destruct (parse_scalar _ _ Ep eq_refl) as (l & -> & Hl). destruct l; simplify_eq/=. split; [done | by econstructor].
Qed.

Lemma validate_string raw :
  validateRequiredJSONString raw = Ok tt ->
  exists r v, raw = Some r /\ unmarshalJSONPreserveNumbers r = Ok v /\
    (v = JSONNull \/ exists s, v = JSONString s).
Proof.
  unfold validateRequiredJSONString, unmarshal_string. destruct raw as [r|]; [|done].
  destruct r as [|[] [|? ?]]; try done; eauto 7.
Qed.

Lemma decode_members_lookup l m :
  decode_members l = Ok m -> NoDup l.*1 ->
  (forall name, is_Some (m !! name) <-> name ∈ l.*1) /\
  forall name raw, (name, raw) ∈ l -> exists v, unmarshalJSONPreserveNumbers raw = Ok v /\ m !! name = Some v.
Proof.
  revert m. induction l as [|[k raw] l IH]; intros m H Hnd; simpl in *.
  - injection H as <-. split; [|by intros ? ? ?%not_elem_of_nil].
    intros name. rewrite lookup_empty. split; [by intros [? ?] | by intros ?%not_elem_of_nil].
  - destruct (unmarshalJSONPreserveNumbers raw) as [v|] eqn:Ev; [|done].
    apply bind_Ok in H as (m' & Hm & [= <-]). apply NoDup_cons in Hnd as [Hk Hnd].
    destruct (IH _ Hm Hnd) as [Hdom Hval]. split.
    + intros name. rewrite elem_of_cons, <- Hdom. destruct (decide (k = name)) as [->|Hne].
      * rewrite lookup_insert_eq. split; eauto.
      * rewrite lookup_insert_ne by done. split; [by right | by intros [?|?]].
    + intros name raw' [[= -> ->]|Hin]%elem_of_cons; [exists v; by rewrite lookup_insert_eq|].
      destruct (Hval _ _ Hin) as (v' & ? & ?). exists v'. split; [done|].
      rewrite lookup_insert_ne; [done|]. intros <-. apply Hk. apply list_elem_of_fmap. by exists (k, raw').
Qed.

(** The presence of the four distinguishing members in each kind. *)
Definition kind_shape (kind : jsonRPCEnvelopeKind) : bool * bool * bool * bool :=
  match kind with
  | jsonRPCRequest => (true, true, false, false)
  | jsonRPCNotification => (false, true, false, false)
  | jsonRPCResponse => (true, false, true, false)
  | jsonRPCError => (true, false, false, true)
  end.

Definition in_message (m : gmap string JSONValue) (name : string) : bool := bool_decide (is_Some (m !! name)).

Lemma wrap_Ok {A} f (r : res A) a : wrap f r = Ok a <-> r = Ok a.
Proof. destruct r; simpl; split; congruence. Qed.

Lemma decode_envelope_inv data env :
  decodeJSONRPCEnvelope data = Ok env ->
  exists fields, decodeJSONRPCObjectFields data "JSONRPCMessage" = Ok fields /\
    (has fields "id", has fields "method", has fields "result", has fields "error") =
      kind_shape (env_kind env) /\
    validate_kind (env_kind env) fields = Ok tt /\
    (forall name, is_Some (message env !! name) <-> is_Some (fields !! name)) /\
    (forall name raw, fields !! name = Some raw ->
       exists v, unmarshalJSONPreserveNumbers raw = Ok v /\ message env !! name = Some v).
Proof.
  intros H. unfold decodeJSONRPCEnvelope in H. apply bind_Ok in H as (fields & Hf & H).
  exists fields. split; [done|].
  destruct (envelope_kind _ _ _ _) as [kind|] eqn:Ek; [|done].
  apply bind_Ok in H as ([] & Hv & H). apply bind_Ok in H as (m & Hm & [= <-]). simpl.
  pose proof (decode_members_lookup _ _ Hm (NoDup_fst_map_to_list fields)) as [Hdom Hval].
  split; [|split; [done|split]].
  - unfold envelope_kind in Ek.
    destruct (has fields "id"), (has fields "method"), (has fields "result"), (has fields "error");
      simpl in Ek; by simplify_eq.
  - intros name. rewrite Hdom. split.
    + intros ([k raw] & -> & Hin%elem_of_map_to_list)%list_elem_of_fmap. by exists raw.
    + intros [raw Hr]. apply list_elem_of_fmap. exists (name, raw). by rewrite elem_of_map_to_list.
  - intros name raw Hr. apply Hval. by apply elem_of_map_to_list.
Qed.

(** C34: an admitted envelope has exactly one JSON-RPC shape, and the message
    the transport routes agrees with it: the kind says which of [id],
    [method], [result] and [error] the message holds; the id of a request, a
    response or an error is a string or a 64-bit integer; the method of a
    request or a notification is a string, or null. *)
Theorem decodeJSONRPCEnvelope_shape (data : list lexeme) (env : jsonRPCEnvelope)
    (H : decodeJSONRPCEnvelope data = Ok env) :
  (in_message (message env) "id", in_message (message env) "method",
   in_message (message env) "result", in_message (message env) "error") = kind_shape (env_kind env) /\
  (env_kind env <> jsonRPCNotification -> exists v, message env !! "id" = Some v /\ id_value v) /\
  (env_kind env = jsonRPCRequest \/ env_kind env = jsonRPCNotification ->
   message env !! "method" = Some JSONNull \/ exists s, message env !! "method" = Some (JSONString s)).
Proof.
  apply decode_envelope_inv in H as (fields & Hf & Hshape & Hv & Hdom & Hval).
  assert (forall name, in_message (message env) name = has fields name) as Hin.
  { intros name. unfold in_message, has. apply bool_decide_ext, Hdom. }
  rewrite !Hin. split; [exact Hshape|]. split.
  - intros Hk. assert (validateJSONRPCRequestID (fields !! "id") = Ok tt) as Hid.
    { destruct (env_kind env); try done; simpl in Hv; apply bind_Ok in Hv as ([] & Hid & _);
        by apply wrap_Ok in Hid. }
    apply validate_id in Hid as (r & v & Hr & Hu & Hi). destruct (Hval _ _ Hr) as (v' & Hu' & Hm).
    rewrite Hu in Hu'. injection Hu' as <-. eauto.
  - intros Hk. assert (validateRequiredJSONString (fields !! "method") = Ok tt) as Hs.
    { destruct (env_kind env); [| |by destruct Hk..]; simpl in Hv.
      - apply bind_Ok in Hv as (_ & _ & Hv). apply bind_Ok in Hv as ([] & Hs & _). by apply wrap_Ok in Hs.
      - apply bind_Ok in Hv as ([] & Hs & _). by apply wrap_Ok in Hs. }
    apply validate_string in Hs as (r & v & Hr & Hu & Hs). destruct (Hval _ _ Hr) as (v' & Hu' & Hm).
    rewrite Hu in Hu'. injection Hu' as <-. destruct Hs as [->|[s ->]]; eauto.
Qed.

Definition request_frame : list lexeme :=
  object_lexemes [("id", [LNum "7"]); ("method", [LStr "turn/start"]);
                  ("params", [LBraceO; LStr "k"; LColon; LNull; LBraceC])].

Lemma decodeJSONRPCEnvelope_shape_witness :
  match decodeJSONRPCEnvelope request_frame with
  | Ok env => env_kind env = jsonRPCRequest /\ exists v, message env !! "id" = Some v /\ id_value v
  | Err _ => False
  end.
Proof.
  destruct (decodeJSONRPCEnvelope request_frame) as [env|e] eqn:E.
  - assert (env_kind env = jsonRPCRequest) as Hk.
    { vm_compute in E. by injection E as <-. }
    split; [exact Hk|].
    apply (decodeJSONRPCEnvelope_shape request_frame env E). by rewrite Hk.
  - vm_compute in E. discriminate E.
Defined.

(** A notification whose method is null is admitted: decoding null into a Go
    string succeeds, so the check that expects a string does not refuse it. *)
Lemma null_method_admitted :
  exists env, decodeJSONRPCEnvelope (object_lexemes [("method", [LNull])]) = Ok env /\
    env_kind env = jsonRPCNotification /\ message env !! "method" = Some JSONNull.
Proof. eexists. split; [vm_compute; reflexivity|]. split; reflexivity. Qed.

(** An error code that is a quoted integer is admitted: [json.Number] accepts
    a string that holds a number literal. *)
Lemma quoted_code_admitted : validateRequiredJSONInteger (Some [LStr "-32000"]) = Ok tt.
Proof. reflexivity. Qed.
