(* ===== verification/Pending.v ===== *)
(** The pending-call table of [src/codexsdk/client.go]: [callValidated],
    [admitPending], [takePending], the delivery of [routeResponse] and the
    drain of [failAll], as interleaved steps.

    Every step is one critical section of [closeMu], one channel operation, or
    one local decision of a goroutine, so any number of callers, the transport
    reader and the goroutines that fail the client interleave freely.  A call's
    response channel has capacity one; a call taken out of the table and not
    yet sent to is in flight, owned by the goroutine that took it. *)

From S2P Require Import Prelude GoStrings.
From Stdlib Require Import NArith.

Local Open Scope string_scope.
Local Open Scope list_scope.

Definition ErrClientClosed : error := Sentinel "codexsdk: client closed".
Definition ctx_error : error := Sentinel "context canceled".

(** ["go-sdk-" + strconv.FormatUint(c.nextID.Add(1), 10)] *)
Definition call_id (n : N) : string := "go-sdk-" +:+ pretty n.
Definition next_call_id (issued : N) : string := call_id ((issued + 1) mod 2 ^ 64)%N.

Section pending.
Context {Response : Type}.

Abbreviation outcome := (res Response).

(** Where a caller stands in [callValidated]. *)
Inductive caller_pc :=
| AtAdmit
| AtWrite
| WriteFailed (e : error)
| AtSelect
| CtxDone
| AtReceive
| Returned (r : outcome).

Record calls := {
  closed : bool;
  issued : N;
  pending : gset string;
  in_flight : gmap string outcome;
  channel : gmap string (list outcome);
  callers : gmap string caller_pc
}.

Definition initial_calls : calls := {|
  closed := false; issued := 0; pending := ∅; in_flight := ∅; channel := ∅; callers := ∅ |}.

Definition buffered (s : calls) (id : string) : list outcome := default [] (channel s !! id).

Definition set_caller (s : calls) (id : string) (pc : caller_pc) : calls := {|
  closed := closed s; issued := issued s; pending := pending s; in_flight := in_flight s;
  channel := channel s; callers := <[id := pc]> (callers s) |}.

(** A new call: its id, and its empty channel. *)
Definition start_call (s : calls) : calls :=
  let id := next_call_id (issued s) in
  {| closed := closed s; issued := (issued s + 1)%N; pending := pending s; in_flight := in_flight s;
     channel := <[id := []]> (channel s); callers := <[id := AtAdmit]> (callers s) |}.

(** [admitPending]: refused after closure. *)
Definition admitPending (s : calls) (id : string) : calls :=
  if closed s then set_caller s id (Returned (Err ErrClientClosed))
  else set_caller {| closed := closed s; issued := issued s; pending := {[id]} ∪ pending s;
                     in_flight := in_flight s; channel := channel s; callers := callers s |} id AtWrite.

(** [takePending]: the call leaves the table, if it is still there. *)
Definition takePending (s : calls) (id : string) : option calls :=
  if bool_decide (id ∈ pending s) then
    Some {| closed := closed s; issued := issued s; pending := pending s ∖ {[id]};
            in_flight := in_flight s; channel := channel s; callers := callers s |}
  else None.

(** The caller gives up its call: it returns [e] if it still owns the call, and
    waits for the response otherwise. *)
Definition withdraw (s : calls) (id : string) (e : error) : calls :=
  match takePending s id with
  | Some s' => set_caller s' id (Returned (Err e))
  | None => set_caller s id AtReceive
  end.

(** [routeResponse] takes the call of a response; an unknown id is ignored. *)
Definition route_take (s : calls) (id : string) (r : outcome) : calls :=
  match takePending s id with
  | Some s' => {| closed := closed s'; issued := issued s'; pending := pending s';
                  in_flight := <[id := r]> (in_flight s'); channel := channel s'; callers := callers s' |}
  | None => s
  end.

(** [failAll] takes every pending call. *)
Definition fail_take (s : calls) (e : error) : calls := {|
  closed := closed s; issued := issued s; pending := ∅;
  in_flight := gset_to_gmap (Err e) (pending s) ∪ in_flight s;
  channel := channel s; callers := callers s |}.

Definition send (s : calls) (id : string) (r : outcome) : calls := {|
  closed := closed s; issued := issued s; pending := pending s;
  in_flight := delete id (in_flight s); channel := <[id := buffered s id ++ [r]]> (channel s);
  callers := callers s |}.

Definition receive (s : calls) (id : string) (r : outcome) : calls :=
  set_caller {| closed := closed s; issued := issued s; pending := pending s; in_flight := in_flight s;
                channel := <[id := tail (buffered s id)]> (channel s); callers := callers s |}
    id (Returned r).

Definition close_calls (s : calls) : calls := {|
  closed := true; issued := issued s; pending := pending s; in_flight := in_flight s;
  channel := channel s; callers := callers s |}.

Inductive call_step (s : calls) : calls -> Prop :=
| step_start : call_step s (start_call s)
| step_admit id : callers s !! id = Some AtAdmit -> call_step s (admitPending s id)
| step_write id : callers s !! id = Some AtWrite -> call_step s (set_caller s id AtSelect)
| step_write_failed id e : callers s !! id = Some AtWrite -> call_step s (set_caller s id (WriteFailed e))
| step_write_withdraw id e : callers s !! id = Some (WriteFailed e) -> call_step s (withdraw s id e)
| step_ctx_done id : callers s !! id = Some AtSelect -> call_step s (set_caller s id CtxDone)
| step_ctx_withdraw id : callers s !! id = Some CtxDone -> call_step s (withdraw s id ctx_error)
| step_receive id r :
    callers s !! id = Some AtSelect \/ callers s !! id = Some AtReceive ->
    head (buffered s id) = Some r -> call_step s (receive s id r)
| step_route id r : call_step s (route_take s id r)
| step_close : call_step s (close_calls s)
| step_fail e : closed s = true -> call_step s (fail_take s e)
| step_send id r : in_flight s !! id = Some r -> length (buffered s id) < 1 -> call_step s (send s id r).

(** * The ticket of a call *)

(** A call holds one ticket from its admission to its return: its entry of the
    table, the goroutine about to answer it, or the buffered response. *)
Definition ticket (s : calls) (id : string) : nat :=
  (if bool_decide (id ∈ pending s) then 1 else 0) +
  (if in_flight s !! id then 1 else 0) + length (buffered s id).

Definition pc_ticket (s : calls) (id : string) (pc : option caller_pc) : Prop :=
  match pc with
  | None | Some AtAdmit | Some (Returned _) => ticket s id = 0
  | Some AtReceive => ticket s id = 1 /\ id ∉ pending s
  | Some _ => ticket s id = 1
  end.

Record calls_wf (s : calls) : Prop := {
  wf_ticket : forall id, pc_ticket s id (callers s !! id);
  wf_ids : forall id, is_Some (callers s !! id) -> exists n, (1 <= n <= issued s)%N /\ id = call_id n
}.

(** * Theorems *)

Lemma call_id_inj n m : call_id n = call_id m -> n = m.
Proof. unfold call_id. intros H. apply str_app_inv in H. by apply (inj pretty) in H. Qed.

(** A step that moves only the ticket of [id]. *)
Lemma calls_wf_local (s s' : calls) id pc :
  calls_wf s -> callers s' = <[id := pc]> (callers s) -> issued s' = issued s ->
  is_Some (callers s !! id) ->
  (forall j, j <> id -> (j ∈ pending s' <-> j ∈ pending s) /\ in_flight s' !! j = in_flight s !! j /\
                        buffered s' j = buffered s j) ->
  pc_ticket s' id (Some pc) -> calls_wf s'.
Proof.
  intros Hwf Hc Hi Hid Hother Hpc. constructor.
  - intros j. rewrite Hc. destruct (decide (id = j)) as [<-|Hne].
    + by rewrite lookup_insert_eq.
    + rewrite lookup_insert_ne by done. destruct (Hother j) as (Hp & Hf & Hb); [done|].
      pose proof (wf_ticket s Hwf j) as Hj.
      assert (ticket s' j = ticket s j) as Ht.
      { unfold ticket. rewrite Hf, Hb.
        by rewrite (bool_decide_ext (j ∈ pending s') (j ∈ pending s)). }
      destruct (callers s !! j) as [[]|]; simpl in *; rewrite Ht, ?Hp; exact Hj.
  - intros j. rewrite Hc, Hi. intros Hj. destruct (decide (id = j)) as [<-|Hne].
    + by apply Hwf.
    + rewrite lookup_insert_ne in Hj by done. by apply Hwf.
Qed.

(** The same for a step after which every caller stands where it stood. *)
Lemma calls_wf_tickets (s s' : calls) :
  calls_wf s -> callers s' = callers s -> issued s' = issued s ->
  (forall j, ticket s' j = ticket s j) -> (forall j, j ∈ pending s' -> j ∈ pending s) -> calls_wf s'.
Proof.
  intros Hwf Hc Hi Ht Hp. constructor.
  - intros j. rewrite Hc. pose proof (wf_ticket s Hwf j) as Hj.
    destruct (callers s !! j) as [[]|]; simpl in *; rewrite Ht; try done. naive_solver.
  - intros j. rewrite Hc, Hi. apply Hwf.
Qed.

(** Entering or leaving the table moves the ticket by one. *)
Lemma ticket_pending (s s' : calls) id :
  in_flight s' = in_flight s -> channel s' = channel s ->
  id ∈ pending s -> id ∉ pending s' -> ticket s id = S (ticket s' id).
Proof.
  intros Hf Hc Hp Hp'. unfold ticket, buffered. rewrite Hf, Hc.
  by rewrite bool_decide_eq_true_2, bool_decide_eq_false_2 by done.
Qed.

Lemma withdraw_wf s id e :
  calls_wf s -> ticket s id = 1 -> is_Some (callers s !! id) -> calls_wf (withdraw s id e).
Proof.
  intros Hwf Ht Hid. unfold withdraw, takePending. case_bool_decide as Hp.
  - eapply (calls_wf_local s _ id); [done | done | done | done | |].
    + intros j Hj. simpl. split; [set_solver | done].
    + simpl. match goal with |- ticket ?x id = 0 => enough (ticket s id = S (ticket x id)) by lia end.
      apply ticket_pending; simpl; [done | done | done | set_solver].
  - eapply (calls_wf_local s _ id); [done | done | done | done | done | done].
Qed.

Lemma route_take_wf s id r : calls_wf s -> calls_wf (route_take s id r).
Proof.
  intros Hwf. unfold route_take, takePending. case_bool_decide as Hp; [|done].
  assert (ticket s id = 1) as H1.
  { pose proof (wf_ticket s Hwf id) as Hj. destruct (callers s !! id) as [[]|]; simpl in Hj;
      try done; try tauto; unfold ticket in Hj; by rewrite bool_decide_eq_true_2 in Hj by done. }
  apply (calls_wf_tickets s); [done | done | done | | set_solver].
  intros j. unfold ticket, buffered in *. simpl. destruct (decide (id = j)) as [<-|Hne].
  - rewrite lookup_insert_eq. rewrite bool_decide_eq_false_2 by set_solver.
    rewrite bool_decide_eq_true_2 in H1 |- * by done. destruct (in_flight s !! id); simpl in *; lia.
  - rewrite lookup_insert_ne by done. f_equal. f_equal.
    rewrite (bool_decide_ext (j ∈ pending s ∖ {[id]}) (j ∈ pending s)); [done | set_solver].
Qed.

Lemma ticket_le_1 s j : calls_wf s -> ticket s j <= 1.
Proof.
  intros Hwf. pose proof (wf_ticket s Hwf j) as Hj.
  destruct (callers s !! j) as [[]|]; simpl in Hj; lia.
Qed.

Lemma fail_take_wf s e : calls_wf s -> calls_wf (fail_take s e).
Proof.
  intros Hwf. apply (calls_wf_tickets s); [done | done | done | | set_solver].
  intros j. pose proof (ticket_le_1 s j Hwf) as Hle. unfold ticket, buffered in *. simpl.
  rewrite bool_decide_eq_false_2 by set_solver. rewrite lookup_union, lookup_gset_to_gmap.
  case_bool_decide as Hp.
  - rewrite option_guard_True by done. destruct (in_flight s !! j); simpl in *; lia.
  - rewrite option_guard_False by done. by destruct (in_flight s !! j).
Qed.

Lemma send_wf s id r :
  calls_wf s -> in_flight s !! id = Some r -> calls_wf (send s id r).
Proof.
  intros Hwf Hf. apply (calls_wf_tickets s); [done | done | done | | done].
  intros j. unfold ticket, buffered, send. simpl. destruct (decide (id = j)) as [<-|Hne].
  - rewrite lookup_insert_eq, lookup_delete_eq, Hf. simpl. rewrite length_app. simpl. unfold buffered. lia.
  - by rewrite lookup_insert_ne, lookup_delete_ne by done.
Qed.

Lemma call_step_wf s s' :
  calls_wf s -> (issued s' < 2 ^ 64)%N -> call_step s s' -> calls_wf s'.
Proof.
  intros Hwf Hissued Hstep. revert Hissued.
  destruct Hstep as [ |id Hc|id Hc|id e Hc|id e Hc|id Hc|id Hc|id r Hc Hb|id r| |e Hcl|id r Hf Hb];
    intros Hissued.
  - (* start *)
    assert (next_call_id (issued s) = call_id (issued s + 1)) as Hid.
    { unfold next_call_id. by rewrite N.mod_small by exact Hissued. }
    assert (callers s !! call_id (issued s + 1) = None) as Hfresh.
    { apply eq_None_not_Some. intros (n & Hn & Heq)%(wf_ids s Hwf). apply call_id_inj in Heq. lia. }
    constructor; unfold start_call; rewrite Hid; simpl.
    + intros j. pose proof (wf_ticket s Hwf j) as Hj. destruct (decide (call_id (issued s + 1) = j)) as [<-|Hne].
      * rewrite lookup_insert_eq. rewrite Hfresh in Hj. simpl in *. unfold ticket, buffered in *.
        simpl. rewrite lookup_insert_eq. simpl. lia.
      * rewrite lookup_insert_ne by done.
        unfold pc_ticket, ticket, buffered in *. simpl. by rewrite !lookup_insert_ne by done.
    + intros j Hj. destruct (decide (call_id (issued s + 1) = j)) as [<-|Hne].
      * exists (issued s + 1)%N. split; [lia | done].
      * rewrite lookup_insert_ne in Hj by done. apply (wf_ids s Hwf) in Hj as (n & ? & ->).
        exists n. split; [lia | done].
  - pose proof (wf_ticket s Hwf id) as Ht. rewrite Hc in Ht. simpl in Ht. unfold admitPending.
    destruct (closed s).
    + by eapply (calls_wf_local s _ id).
    + eapply (calls_wf_local s _ id); [done | done | done | done | |].
      * intros j Hj. simpl. split; [set_solver | done].
      * simpl. etrans; [apply (ticket_pending _ s id); simpl; [done | done | set_solver |] | by rewrite Ht].
        intros Hp. unfold ticket in Ht. by rewrite bool_decide_eq_true_2 in Ht by done.
  - pose proof (wf_ticket s Hwf id) as Ht. rewrite Hc in Ht. by eapply (calls_wf_local s _ id).
  - pose proof (wf_ticket s Hwf id) as Ht. rewrite Hc in Ht. by eapply (calls_wf_local s _ id).
  - pose proof (wf_ticket s Hwf id) as Ht. rewrite Hc in Ht. by apply withdraw_wf.
  - pose proof (wf_ticket s Hwf id) as Ht. rewrite Hc in Ht. by eapply (calls_wf_local s _ id).
  - pose proof (wf_ticket s Hwf id) as Ht. rewrite Hc in Ht. by apply withdraw_wf.
  - pose proof (wf_ticket s Hwf id) as Ht.
    assert (ticket s id = 1) as H1 by (destruct Hc as [Hc|Hc]; rewrite Hc in Ht; simpl in Ht; tauto).
    eapply (calls_wf_local s _ id); [done | done | done | by destruct Hc as [Hc|Hc]; rewrite Hc | |].
    + intros j Hj. unfold buffered. simpl. by rewrite lookup_insert_ne by done.
    + assert (length (tail (buffered s id)) = length (buffered s id) - 1) as Hl
        by (destruct (buffered s id); simpl; lia).
      assert (1 <= length (buffered s id)) by (destruct (buffered s id); simpl in *; [done | lia]).
      simpl. unfold ticket in *. unfold buffered at 1. simpl. rewrite lookup_insert_eq. simpl. lia.
  - by apply route_take_wf.
  - by apply (calls_wf_tickets s).
  - by apply fail_take_wf.
  - by apply send_wf.
Qed.

Lemma call_step_issued s s' : call_step s s' -> (issued s <= issued s')%N.
Proof.
  intros []; simpl; try lia;
    unfold admitPending, withdraw, route_take, takePending;
    try destruct (closed s); try destruct (bool_decide _); simpl; lia.
Qed.

Lemma call_steps_issued s s' : rtc call_step s s' -> (issued s <= issued s')%N.
Proof. induction 1 as [|x y z H _ IH]; [lia|]. apply call_step_issued in H. lia. Qed.

Lemma initial_calls_wf : calls_wf initial_calls.
Proof. constructor; intros id; simpl; rewrite lookup_empty; [done | by intros []]. Qed.

Lemma calls_reachable_wf s s' :
  rtc call_step s s' -> (issued s' < 2 ^ 64)%N -> calls_wf s -> calls_wf s'.
Proof.
  induction 1 as [|x y z H Hr IH]; [done|]. intros Hi Hwf. apply IH; [done|].
  apply call_steps_issued in Hr. eapply call_step_wf; [done | lia | done].
Qed.
End pending.
Arguments calls : clear implicits.

(** C5: every call is answered exactly once.  Whatever the interleaving of
    callers, reader and failing goroutines: a goroutine that owns a call finds
    its channel empty, so its send never blocks; a caller that lost its call
    has a response on the way or buffered; a caller that returned leaves
    nothing behind; and a caller still waiting has exactly one of the three. *)
Theorem calls_answered_once {Response} (s : calls Response)
    (Hreach : rtc call_step initial_calls s) (Hids : (issued s < 2 ^ 64)%N) (id : string) :
  (forall r, in_flight s !! id = Some r -> buffered s id = []) /\
  (callers s !! id = Some AtReceive ->
     id ∉ pending s /\ (is_Some (in_flight s !! id) \/ exists r, buffered s id = [r])) /\
  (forall r, callers s !! id = Some (Returned r) ->
     id ∉ pending s /\ in_flight s !! id = None /\ buffered s id = []) /\
  (callers s !! id = Some AtSelect ->
     id ∈ pending s \/ is_Some (in_flight s !! id) \/ exists r, buffered s id = [r]).
Proof.
  assert (calls_wf s) as Hwf by eauto using calls_reachable_wf, initial_calls_wf.
  pose proof (ticket_le_1 s id Hwf) as Hle. pose proof (wf_ticket s Hwf id) as Hpc.
  unfold ticket in Hle. split_and!.
  - intros r Hr. rewrite Hr in Hle. destruct (buffered s id); [done|].
    exfalso. case_bool_decide; simpl in Hle; lia.
  - intros Hc. rewrite Hc in Hpc. destruct Hpc as [Ht Hp]. split; [done|]. unfold ticket in Ht.
    rewrite bool_decide_eq_false_2 in Ht by done. destruct (in_flight s !! id); [by left; eauto|].
    right. destruct (buffered s id) as [|r [|? ?]]; simpl in Ht; try lia. eauto.
  - intros r Hc. rewrite Hc in Hpc. simpl in Hpc. unfold ticket in Hpc.
    case_bool_decide; [lia|]. destruct (in_flight s !! id); [lia|].
    by destruct (buffered s id).
  - intros Hc. rewrite Hc in Hpc. simpl in Hpc. unfold ticket in Hpc.
    case_bool_decide as Hp; [by left|]. right. destruct (in_flight s !! id); [by left; eauto|].
    right. destruct (buffered s id) as [|r [|? ?]]; simpl in Hpc; try lia. eauto.
Qed.

(** A call whose context ends after the reader took its response. *)
Definition raced_call : calls string :=
  let id := next_call_id 0 in
  let s := start_call initial_calls in
  let s := admitPending s id in
  let s := set_caller s id AtSelect in
  let s := route_take s id (Ok "pong") in
  let s := set_caller s id CtxDone in
  withdraw s id ctx_error.

Lemma calls_answered_once_witness :
  callers raced_call !! "go-sdk-1" = Some AtReceive /\
  ("go-sdk-1" ∉ pending raced_call /\
   (is_Some (in_flight raced_call !! "go-sdk-1") \/ exists r, buffered raced_call "go-sdk-1" = [r])).
Proof.
  assert (callers raced_call !! "go-sdk-1" = Some AtReceive) as Hc by (vm_compute; reflexivity).
  split; [exact Hc|].
  apply (calls_answered_once raced_call); [|vm_compute; reflexivity | exact Hc].
  eapply rtc_l; [apply step_start|]. eapply rtc_l; [apply (step_admit _ "go-sdk-1"); reflexivity|].
  eapply rtc_l; [apply (step_write _ "go-sdk-1"); reflexivity|].
  eapply rtc_l; [apply (step_route _ "go-sdk-1" (Ok "pong"))|].
  eapply rtc_l; [apply (step_ctx_done _ "go-sdk-1"); reflexivity|].
  apply rtc_once. apply (step_ctx_withdraw _ "go-sdk-1"). reflexivity.
Defined.

(** Closing loses no waiter: from the moment a client that is closed has
    been drained once, its table stays empty in every later state, no call is
    admitted again, and every caller that waits is answered or about to be. *)
Theorem closed_calls_drain {Response} (s s' : calls Response) (e : error)
    (Hreach : rtc call_step initial_calls s) (Hclosed : closed s = true)
    (Hlater : rtc call_step (fail_take s e) s') (Hids : (issued s' < 2 ^ 64)%N) :
  closed s' = true /\ pending s' = ∅ /\
  forall id, callers s' !! id = Some AtSelect \/ callers s' !! id = Some AtReceive ->
    is_Some (in_flight s' !! id) \/ exists r, buffered s' id = [r].
Proof.
  assert (closed s' = true /\ pending s' = ∅) as [Hc Hp].
  { assert (closed (fail_take s e) = true /\ pending (fail_take s e) = ∅) as H0 by done.
    revert H0. clear Hreach Hclosed Hids. induction Hlater as [|x y z Hstep _ IH]; [done|].
    intros [Hc Hp]. apply IH. clear IH.
    destruct Hstep; simpl; try done; unfold admitPending, withdraw, route_take, takePending in *;
      rewrite ?Hc, ?Hp in *; simpl in *; try done; case_bool_decide; set_solver. }
  split; [done|]. split; [done|]. intros id Hid.
  assert (calls_wf s') as Hwf.
  { assert ((issued (fail_take s e) <= issued s')%N) as Hle by by apply call_steps_issued.
    simpl in Hle. eapply calls_reachable_wf; [done | done|]. apply fail_take_wf.
    eapply calls_reachable_wf; [done | lia | apply initial_calls_wf]. }
  assert (ticket s' id = 1) as Ht.
  { pose proof (wf_ticket s' Hwf id) as Ht. destruct Hid as [Hid|Hid]; rewrite Hid in Ht; simpl in Ht; tauto. }
  unfold ticket in Ht. rewrite Hp in Ht. rewrite bool_decide_eq_false_2 in Ht by set_solver.
  destruct (in_flight s' !! id); [by left; eauto|]. right.
  destruct (buffered s' id) as [|r [|? ?]]; simpl in Ht; try lia. eauto.
Qed.

Definition waiting_call : calls string :=
  close_calls (set_caller (admitPending (start_call initial_calls) "go-sdk-1") "go-sdk-1" AtSelect).

Lemma closed_calls_drain_witness :
  let s' := fail_take waiting_call ErrClientClosed in
  callers s' !! "go-sdk-1" = Some AtSelect /\
  (is_Some (in_flight s' !! "go-sdk-1") \/ exists r, buffered s' "go-sdk-1" = [r]).
Proof.
  split; [vm_compute; reflexivity|].
  apply (closed_calls_drain waiting_call _ ErrClientClosed).
  - eapply rtc_l; [apply step_start|]. eapply rtc_l; [apply (step_admit _ "go-sdk-1"); reflexivity|].
    eapply rtc_l; [apply (step_write _ "go-sdk-1"); reflexivity|]. apply rtc_once, step_close.
  - reflexivity.
  - reflexivity.
  - vm_compute. reflexivity.
  - left. vm_compute. reflexivity.
Defined.
