(* ===== verification/Protocol.v ===== *)
(** What the client uses of the generated protocol package
    [src/codexsdk/protocolv2], as an interface, and the attribution of a
    notification to a run ([notification_attribution.go]).

    [ProtocolTypes] is the contract of the generated code with the transport:
    the notification type with its kind, its encoding and its two payload
    accessors, the registry, the decoders and the JSON clone.  The client's
    theorems are proved for every instance of it. *)

From S2P Require Import Prelude GoStrings Json Retention.

Local Open Scope string_scope.
Local Open Scope list_scope.

(** * Generated types *)

(** [MessagePhase] values and an agent message of a turn; every other item of a
    turn is [OtherItem]. *)
Definition MessagePhaseFinalAnswer := "final_answer".
Inductive ThreadItem :=
| AgentMessage (Phase : option (Nullable string)) (Text : string)
| OtherItem (kind : string).

Definition AsAgentMessage (i : ThreadItem) : option (option (Nullable string) * string) :=
  match i with AgentMessage p t => Some (p, t) | OtherItem _ => None end.

Definition TurnStatusCompleted := "completed".
Definition TurnStatusFailed := "failed".
Definition TurnStatusInterrupted := "interrupted".

Record Turn := { turn_ID : string; turn_Status : string; turn_Items : list ThreadItem }.
Definition zero_turn : Turn := {| turn_ID := ""; turn_Status := ""; turn_Items := [] |}.

Inductive MethodDirection := MethodDirectionClientToServer | MethodDirectionServerToClient.
Inductive MethodKind := MethodKindRequest | MethodKindNotification.
#[export] Instance MethodDirection_eq_dec : EqDecision MethodDirection.
Proof. solve_decision. Defined.
#[export] Instance MethodKind_eq_dec : EqDecision MethodKind.
Proof. solve_decision. Defined.

Inductive MethodStability := MethodStabilityStable | MethodStabilityExperimental.
#[export] Instance MethodStability_eq_dec : EqDecision MethodStability.
Proof. solve_decision. Defined.

Record MethodInfo := {
  Direction : MethodDirection; method_Kind : MethodKind; Stability : MethodStability;
  ParamsOrPayloadSchema : string
}.

(** A decoded JSON object: a Go [map[string]any]; [None] is the nil map. *)
Abbreviation any_map := (gmap string JSONValue).

Class ProtocolTypes := {
  ServerNotification : Type;
  Usage : Type;
  (** [notification.Kind()]; empty for the zero value. *)
  notification_Kind : ServerNotification -> string;
  (** [json.Marshal(notification)] read back as an object. *)
  notification_envelope : ServerNotification -> option any_map;
  AsTurnCompleted : ServerNotification -> option Turn;
  AsThreadTokenUsageUpdated : ServerNotification -> option Usage;
  (** [cloneJSON] at the two types it is used at. *)
  clone_notification : ServerNotification -> res ServerNotification;
  clone_turn : Turn -> Turn;
  LookupMethod : string -> option MethodInfo;
  (** [exactNotification]: decode method and params as a server observation. *)
  decode_notification : string -> option any_map -> res ServerNotification;
  (** What [reflect] shows of a value. *)
  reflect_notification : ServerNotification -> rvalue;
  reflect_params : option any_map -> rvalue
}.

Section attribution.
Context {PT : ProtocolTypes}.

(** * Attribution *)

Inductive notificationAttributionClass :=
| notificationAttributionUnsupported
| notificationAttributionTurn
| notificationAttributionThread
| notificationAttributionGlobal.

Record notificationIdentity := { threadID : string; turnID : string }.

Definition no_identity : notificationIdentity := {| threadID := ""; turnID := "" |}.

Definition present (s : string) : bool := negb (String.eqb s "").

Definition matchesRun (identity : notificationIdentity) (thread turn : string) : bool :=
  if present (threadID identity) && negb (String.eqb (threadID identity) thread) then false
  else if present (turnID identity) && present turn && negb (String.eqb (turnID identity) turn) then false
  else present (threadID identity) || present (turnID identity).

(** [jsonString(m[key])], for a nil map too. *)
Definition json_string_at (m : any_map) (key : string) : string :=
  match m !! key with Some (JSONString s) => s | _ => "" end.

Definition object_at (m : any_map) (key : string) : option any_map :=
  match m !! key with Some (JSONObj o) => Some o | _ => None end.

Definition extractNotificationIdentity (n : ServerNotification) : notificationIdentity :=
  match notification_envelope n with
  | None => no_identity
  | Some envelope =>
    let params := default envelope (object_at envelope "params") in
    let turn0 := json_string_at params "turnId" in
    let thread0 := json_string_at params "threadId" in
    let turn := if String.eqb turn0 "" then
                  match object_at params "turn" with Some t => json_string_at t "id" | None => turn0 end
                else turn0 in
    let thread := if String.eqb thread0 "" then
                    match object_at params "thread" with Some t => json_string_at t "id" | None => thread0 end
                  else thread0 in
    {| threadID := thread; turnID := turn |}
  end.

(** A method the server sends as a notification. *)
Definition knownServerNotificationKind (kind : string) : bool :=
  match LookupMethod kind with
  | Some info => bool_decide (Direction info = MethodDirectionServerToClient) &&
                 bool_decide (method_Kind info = MethodKindNotification)
  | None => false
  end.

Definition attributionFor (n : ServerNotification) : notificationAttributionClass * notificationIdentity :=
  if negb (knownServerNotificationKind (notification_Kind n)) then
    (notificationAttributionUnsupported, no_identity)
  else
    let identity := extractNotificationIdentity n in
    if present (turnID identity) then (notificationAttributionTurn, identity)
    else if present (threadID identity) then (notificationAttributionThread, identity)
    else (notificationAttributionGlobal, identity).

(** The identities [turnIDFromNotification] and [threadIDFromNotification] read
    from raw parameters. *)
Definition turnIDFromNotification (params : option any_map) : string :=
  match params with
  | None => ""
  | Some p =>
    let turn0 := json_string_at p "turnId" in
    if present turn0 then turn0
    else match object_at p "turn" with Some t => json_string_at t "id" | None => "" end
  end.

Definition threadIDFromNotification (params : option any_map) : string :=
  match params with None => "" | Some p => json_string_at p "threadId" end.

(** * Lemmas *)

Lemma present_true s : present s = true <-> s <> "".
Proof. unfold present. rewrite negb_true_iff, String.eqb_neq. done. Qed.

Lemma present_false s : present s = false <-> s = "".
Proof. unfold present. rewrite negb_false_iff, String.eqb_eq. done. Qed.

(** The identities a run can accept. *)
Lemma matchesRun_iff identity thread turn :
  matchesRun identity thread turn = true <->
  (threadID identity = "" \/ threadID identity = thread) /\
  (turnID identity = "" \/ turn = "" \/ turnID identity = turn) /\
  (threadID identity <> "" \/ turnID identity <> "").
Proof.
  unfold matchesRun.
  destruct (present (threadID identity)) eqn:E1; [apply present_true in E1 | apply present_false in E1];
    (destruct (present (turnID identity)) eqn:E2; [apply present_true in E2 | apply present_false in E2]);
    (destruct (present turn) eqn:E3; [apply present_true in E3 | apply present_false in E3]); simpl;
    destruct (String.eqb_spec (threadID identity) thread);
    destruct (String.eqb_spec (turnID identity) turn); simpl; naive_solver.
Qed.

Lemma attributionFor_identity n c i :
  attributionFor n = (c, i) -> c <> notificationAttributionUnsupported -> i = extractNotificationIdentity n.
Proof. unfold attributionFor. intros H Hc. repeat case_match; simplify_eq/=; done. Qed.
End attribution.

(** * A small protocol *)

(** An instance that computes: a notification is its kind, its parameters and
    the turn it completes; every notification method is known. *)
Record sample_notification := {
  sample_kind : string; sample_params : any_map; sample_turn : option Turn
}.

Definition sample_protocol : ProtocolTypes := {|
  ServerNotification := sample_notification;
  Usage := unit;
  notification_Kind := sample_kind;
  notification_envelope n := Some {["params" := JSONObj (sample_params n)]};
  AsTurnCompleted := sample_turn;
  AsThreadTokenUsageUpdated _ := None;
  clone_notification := Ok;
  clone_turn t := t;
  LookupMethod m := Some {|
    Direction := if mem m ["thread/start"; "turn/start"] then MethodDirectionClientToServer else MethodDirectionServerToClient;
    method_Kind := if mem m ["item/tool/call"; "thread/start"; "turn/start"] then MethodKindRequest else MethodKindNotification;
    Stability := MethodStabilityStable;
    ParamsOrPayloadSchema := if String.eqb m "turn/start" then "TurnStartParams" else "" |};
  decode_notification m p := Ok {| sample_kind := m; sample_params := default ∅ p; sample_turn := None |};
  reflect_notification _ := RStruct 8 [];
  reflect_params _ := RScalar 8
|}.

(** A notification of a turn, and the one that completes it. *)
Definition sample_item (thread turn : string) : sample_notification := {|
  sample_kind := "item/started";
  sample_params := <["threadId" := JSONString thread]> {["turnId" := JSONString turn]};
  sample_turn := None |}.

Definition sample_completed (thread turn status : string) : sample_notification := {|
  sample_kind := "turn/completed";
  sample_params := <["threadId" := JSONString thread]> {["turnId" := JSONString turn]};
  sample_turn := Some {| turn_ID := turn; turn_Status := status;
                         turn_Items := [AgentMessage None "draft"; AgentMessage (Some (Some "final_answer")) "42"] |} |}.
