(* ===== verification/Run.v ===== *)
(** One exact run: the shared state of [src/codexsdk/exact_runner.go], with the
    acceptance of notifications, the terminal observation, completion by first
    cause, the history cursor, and the snapshot that [Wait] takes.

    The retention budget is threaded through the operations that reserve from
    it; [None] stands for the panic of a released lease.  The client's first
    failure cause ([closeReason], else [failure]) is an argument of
    [finishState], which reads it under the client's lock. *)

From S2P Require Import Prelude GoStrings Json Retention Protocol.
From Stdlib Require Import ZArith.

Local Open Scope string_scope.
Local Open Scope list_scope.

(** * Data *)

Definition ErrTurnFailed : error := Sentinel "codexsdk: turn failed".
Definition ErrTurnInterrupted : error := Sentinel "codexsdk: turn interrupted".
Definition ErrStreamClosed : error := Sentinel "codexsdk: stream closed".

Definition TurnError (threadID : string) (turn : Turn) (e : error) : error :=
  Typed (TurnErrorT threadID (turn_ID turn) (turn_Status turn)) [e].

Record DiagnosticRef := {
  diag_Kind : string; diag_ID : string; diag_Path : string; diag_SizeBytes : Z; diag_SHA256 : string
}.

(** Four strings and an [int64] on a 64-bit target. *)
Definition reflect_diagnostic (r : DiagnosticRef) : rvalue :=
  let str s := RString 16 (Z.of_nat (String.length s)) in
  RStruct 72 [str (diag_Kind r); str (diag_ID r); str (diag_Path r); RScalar 8; str (diag_SHA256 r)].

Record InputStats := { ItemsCount : Z; TextBytes : Z; AttachmentCount : Z; InputItemsHash : string }.

Inductive UserInput := InputText (text : string) | InputOther (kind : string).

(** The hash of the marshalled input is a parameter: [sha256] and the encoder. *)
Definition exactInputStats (hash : list UserInput -> string) (input : list UserInput) : InputStats :=
  let attachment i :=
    match i with
    | InputText _ => 0%Z
    | InputOther k => if mem k ["image"; "localImage"; "skill"; "mention"] then 1%Z else 0%Z
    end in
  let text i := match i with InputText t => Z.of_nat (String.length t) | InputOther _ => 0%Z end in
  {| ItemsCount := Z.of_nat (length input); TextBytes := sumZ (map text input);
     AttachmentCount := sumZ (map attachment input); InputItemsHash := hash input |}.

(** ** The final response *)

(** The loop of [finalResponseFromExactTurn], over the items from the last. *)
Fixpoint final_response_loop (items : list ThreadItem) (fallback : option string) : option string :=
  match items with
  | [] => fallback
  | item :: items' =>
    match AsAgentMessage item with
    | None => final_response_loop items' fallback
    | Some (Some (Some phase), text) =>
      if String.eqb phase MessagePhaseFinalAnswer then Some text
      else final_response_loop items' fallback
    | Some (_, text) =>
      final_response_loop items'
        (match fallback with
         | None => if negb (String.eqb (trim_space text) "") then Some text else None
         | Some _ => fallback
         end)
    end
  end.

Definition finalResponseFromExactTurn (turn : Turn) : string * bool :=
  match final_response_loop (rev (turn_Items turn)) None with
  | Some text => (text, true)
  | None => ("", false)
  end.

Section run.
Context {PT : ProtocolTypes} {Response : Type}.

Record ThreadRunResult := {
  run_Turn : Turn;
  run_Usage : option Usage;
  Notifications : list ServerNotification;
  FinalResponse : string;
  FinalResponsePresent : bool;
  run_InputStats : InputStats;
  Diagnostics : list DiagnosticRef
}.

(** [StartedThreadRun] and [ResumedThreadRun]: the lifecycle response, and the run. *)
Inductive run_result :=
| StartedThreadRun (Start : Response) (Run : ThreadRunResult)
| ResumedThreadRun (Resume : Response) (Run : ThreadRunResult).

Definition Run (r : run_result) : ThreadRunResult :=
  match r with StartedThreadRun _ run | ResumedThreadRun _ run => run end.

Record exactRunState := {
  run_threadID : string;
  run_turnID : string;
  updated : nat;
  done : bool;
  result : run_result;
  run_err : option error;
  terminal : bool;
  terminalAdmitted : bool;
  retained : retentionOwners
}.

Definition newExactRunState (threadID : string) (initial : run_result) : exactRunState := {|
  run_threadID := threadID; run_turnID := ""; updated := 0; done := false; result := initial;
  run_err := None; terminal := false; terminalAdmitted := false; retained := []
|}.

Definition new_run (stats : InputStats) : ThreadRunResult := {|
  run_Turn := zero_turn; run_Usage := None; Notifications := []; FinalResponse := "";
  FinalResponsePresent := false; run_InputStats := stats; Diagnostics := []
|}.

Definition map_result (update : ThreadRunResult -> ThreadRunResult) (r : run_result) : run_result :=
  match r with
  | StartedThreadRun s run => StartedThreadRun s (update run)
  | ResumedThreadRun s run => ResumedThreadRun s (update run)
  end.

Definition updateRunLocked (update : ThreadRunResult -> ThreadRunResult) (s : exactRunState) : exactRunState := {|
  run_threadID := run_threadID s; run_turnID := run_turnID s; updated := updated s; done := done s;
  result := map_result update (result s); run_err := run_err s; terminal := terminal s;
  terminalAdmitted := terminalAdmitted s; retained := retained s
|}.

Definition set_retained (o : retentionOwners) (s : exactRunState) : exactRunState := {|
  run_threadID := run_threadID s; run_turnID := run_turnID s; updated := updated s; done := done s;
  result := result s; run_err := run_err s; terminal := terminal s;
  terminalAdmitted := terminalAdmitted s; retained := o
|}.

(** ** Operations *)

Definition notificationAtLocked (s : exactRunState) (index : nat) : option ServerNotification :=
  Notifications (Run (result s)) !! index.

Definition setTurn (turn : Turn) (s : exactRunState) : exactRunState :=
  updateRunLocked
    (fun run => if String.eqb (turn_ID (run_Turn run)) "" then
       {| run_Turn := turn; run_Usage := run_Usage run; Notifications := Notifications run;
          FinalResponse := FinalResponse run; FinalResponsePresent := FinalResponsePresent run;
          run_InputStats := run_InputStats run; Diagnostics := Diagnostics run |}
     else run)
    {| run_threadID := run_threadID s; run_turnID := turn_ID turn; updated := updated s; done := done s;
       result := result s; run_err := run_err s; terminal := terminal s;
       terminalAdmitted := terminalAdmitted s; retained := retained s |}.

(** The switch on the status of a completed turn. *)
Definition terminal_error (threadID : string) (turn : Turn) : option error :=
  if String.eqb (turn_Status turn) TurnStatusCompleted then None
  else if String.eqb (turn_Status turn) TurnStatusFailed then
    Some (TurnError threadID (clone_turn turn) ErrTurnFailed)
  else if String.eqb (turn_Status turn) TurnStatusInterrupted then
    Some (TurnError threadID (clone_turn turn) ErrTurnInterrupted)
  else Some (TurnError threadID turn (Errorf "unexpected terminal status %q" [])).

(** [applyTerminalLocked]: whether the notification ends the run, and with
    which error. *)
Definition applyTerminalLocked (n : ServerNotification) (s : exactRunState)
    : bool * option error * exactRunState :=
  match AsTurnCompleted n with
  | None => (false, None, s)
  | Some turn =>
    let resultTurn := clone_turn turn in
    let '(finalResponse, finalResponsePresent) := finalResponseFromExactTurn resultTurn in
    let s := updateRunLocked
      (fun run => {| run_Turn := resultTurn; run_Usage := run_Usage run;
                     Notifications := Notifications run; FinalResponse := finalResponse;
                     FinalResponsePresent := finalResponsePresent;
                     run_InputStats := run_InputStats run; Diagnostics := Diagnostics run |}) s in
    (true, terminal_error (run_threadID s) turn, s)
  end.

Definition append_notification (n : ServerNotification) (run : ThreadRunResult) : ThreadRunResult := {|
  run_Turn := run_Turn run;
  run_Usage := match AsThreadTokenUsageUpdated n with Some u => Some u | None => run_Usage run end;
  Notifications := Notifications run ++ [n]; FinalResponse := FinalResponse run;
  FinalResponsePresent := FinalResponsePresent run; run_InputStats := run_InputStats run;
  Diagnostics := Diagnostics run |}.

Definition notify_update (terminal' : bool) (s : exactRunState) : exactRunState := {|
  run_threadID := run_threadID s; run_turnID := run_turnID s; updated := S (updated s); done := done s;
  result := result s; run_err := run_err s; terminal := terminal s;
  terminalAdmitted := terminal'; retained := retained s |}.

Definition accepts (n : ServerNotification) (s : exactRunState) : bool :=
  let '(class, identity) := attributionFor n in
  negb (terminal s || terminalAdmitted s ||
        match class with notificationAttributionUnsupported => true | _ => false end ||
        negb (matchesRun identity (run_threadID s) (run_turnID s))).

(** [acceptRetainedBeforeTerminalCompletion] on an eligible notification whose
    lease is held: clone, own the lease, append, apply a terminal. The first
    component is the pending completion: the error the run will finish with. *)
Definition accept_retained (n : ServerNotification) (l : lease) (s : exactRunState) (b : notificationRetention)
    : option (res (option (option error)) * exactRunState * notificationRetention) :=
  match clone_notification n with
  | Err e => Some (Err e, s, b)
  | Ok cloned =>
    '(o, b) ← owners_add (retained s) l b;
    let s := updateRunLocked (append_notification cloned) (set_retained o s) in
    let '(term, termErr, s) := applyTerminalLocked cloned s in
    Some (Ok (if term then Some termErr else None), notify_update term s, b)
  end.

Definition acceptRetainedBeforeTerminalCompletion (n : ServerNotification) (l : lease)
    (s : exactRunState) (b : notificationRetention)
    : option (res (option (option error)) * exactRunState * notificationRetention) :=
  if negb (accepts n s) then Some (Ok None, s, b)
  else match l with
       | Some _ => accept_retained n l s b
       | None =>
         match reserve 3 (3 * retainedValueBytes (reflect_notification n)) b with
         | (Err e, b) => Some (Err e, s, b)
         | (Ok l, b) =>
           '(r, s, b) ← accept_retained n l s b;
           b ← release l b;
           Some (r, s, b)
         end
       end.

Definition append_diagnostic (ref : DiagnosticRef) (run : ThreadRunResult) : ThreadRunResult := {|
  run_Turn := run_Turn run; run_Usage := run_Usage run; Notifications := Notifications run;
  FinalResponse := FinalResponse run; FinalResponsePresent := FinalResponsePresent run;
  run_InputStats := run_InputStats run; Diagnostics := Diagnostics run ++ [ref] |}.

Definition add_diagnostic (ref : DiagnosticRef) (l : lease) (s : exactRunState) (b : notificationRetention)
    : option (exactRunState * notificationRetention) :=
  if terminal s then Some (s, b)
  else '(o, b) ← owners_add (retained s) l b;
       Some (updateRunLocked (append_diagnostic ref) (set_retained o s), b).

Definition addDiagnosticRetained (ref : DiagnosticRef) (l : lease) (s : exactRunState) (b : notificationRetention)
    : option (res unit * exactRunState * notificationRetention) :=
  match l with
  | Some _ => '(s, b) ← add_diagnostic ref l s b; Some (Ok tt, s, b)
  | None =>
    match reserve 1 (retainedValueBytes (reflect_diagnostic ref)) b with
    | (Err e, b) => Some (Err e, s, b)
    | (Ok l, b) => '(s, b) ← add_diagnostic ref l s b; b ← release l b; Some (Ok tt, s, b)
    end
  end.

(** [finishState] with the client's first cause. *)
Definition finishState (cause : option error) (e : option error) (s : exactRunState) : bool * exactRunState :=
  if terminal s then (false, s)
  else (true,
        {| run_threadID := run_threadID s; run_turnID := run_turnID s; updated := updated s; done := true;
           result := result s; run_err := match cause with Some c => Some c | None => e end;
           terminal := true; terminalAdmitted := terminalAdmitted s; retained := retained s |}).

(** ** Observers *)

(** [waitSnapshot]: the result, the error and whether the run is over.  The
    clone of the result is a parameter. *)
Definition waitSnapshot (clone : run_result -> res run_result) (s : exactRunState) (waitErr : option error)
    : option run_result * option error * bool :=
  match clone (result s) with
  | Err e => (None, Some e, terminal s)
  | Ok cloned => if terminal s then (Some cloned, run_err s, true) else (Some cloned, waitErr, false)
  end.

(** [Wait] returning: on completion, or when its context ends. *)
Inductive wait_returns (clone : run_result -> res run_result) (s : exactRunState)
    : option run_result -> option error -> Prop :=
| wait_done r e t : done s = true -> waitSnapshot clone s None = (r, e, t) -> wait_returns clone s r e
| wait_ctx ctxErr r e t : waitSnapshot clone s (Some ctxErr) = (r, e, t) -> wait_returns clone s r e.

(** The cursor of a [Stream], and one look of [Next] at the history: a
    notification, the end, or nothing yet. *)
Inductive next_result := NextYield (n : ServerNotification) | NextEnd | NextBlocked.

Definition Next (s : exactRunState) (cursor : nat) : next_result * nat :=
  match notificationAtLocked s cursor with
  | Some n => (NextYield n, S cursor)
  | None => if terminal s then (NextEnd, cursor) else (NextBlocked, cursor)
  end.

(** ** The steps of a run *)

(** Any goroutine may perform these at any time; [b] is the budget then. *)
Inductive run_step (s : exactRunState) : exactRunState -> Prop :=
| run_accept n l b r s' b' :
    acceptRetainedBeforeTerminalCompletion n l s b = Some (r, s', b') -> run_step s s'
| run_diagnostic ref l b r s' b' :
    addDiagnosticRetained ref l s b = Some (r, s', b') -> run_step s s'
| run_finish cause e : run_step s (finishState cause e s).2
| run_turn turn : run_step s (setTurn turn s).

Definition history (s : exactRunState) : list ServerNotification := Notifications (Run (result s)).

Definition is_terminal (n : ServerNotification) : bool := if AsTurnCompleted n then true else false.
End run.
Arguments exactRunState {PT} Response.
Arguments run_result {PT} Response.

(** * Theorems *)

(** ** The final response *)

(** The explicit final answers of a turn, and its phase-absent messages with
    visible text, in order. *)
Definition final_answer (i : ThreadItem) : option string :=
  match i with
  | AgentMessage (Some (Some p)) t => if String.eqb p MessagePhaseFinalAnswer then Some t else None
  | _ => None
  end.

Definition phase_absent (i : ThreadItem) : option string :=
  match i with
  | AgentMessage (Some (Some _)) _ => None
  | AgentMessage _ t => if String.eqb (trim_space t) "" then None else Some t
  | OtherItem _ => None
  end.

Lemma final_response_loop_spec items fb :
  final_response_loop items fb =
  match head (omap final_answer items) with
  | Some t => Some t
  | None => match fb with Some f => Some f | None => head (omap phase_absent items) end
  end.
Proof.
  revert fb. induction items as [|[[[p|]|] t|k] items IH]; intros fb; simpl.
  - by destruct fb.
  - destruct (String.eqb p MessagePhaseFinalAnswer); simpl; [done | apply IH].
  - rewrite IH. destruct fb, (String.eqb (trim_space t) ""); simpl; by destruct (head _).
  - rewrite IH. destruct fb, (String.eqb (trim_space t) ""); simpl; by destruct (head _).
  - apply IH.
Qed.

Lemma head_omap_rev {A B} (f : A -> option B) l : head (omap f (rev l)) = last (omap f l).
Proof.
  rewrite rev_alt. change (rev_append l []) with (reverse l).
  assert (omap f (reverse l) = reverse (omap f l)) as ->; [|apply head_reverse].
  induction l as [|x l IH]; [done|].
  rewrite reverse_cons, omap_app. simpl. rewrite IH. destruct (f x); simpl.
  - by rewrite reverse_cons.
  - by rewrite app_nil_r.
Qed.

(** The final response of a turn is its last explicit final answer, empty or
    not; without one, its last agent message that has no phase and is not
    blank; and it is absent when there is neither. *)
Theorem finalResponse_spec (turn : Turn) :
  finalResponseFromExactTurn turn =
  match last (omap final_answer (turn_Items turn)), last (omap phase_absent (turn_Items turn)) with
  | Some text, _ => (text, true)
  | None, Some text => (text, true)
  | None, None => ("", false)
  end.
Proof.
  unfold finalResponseFromExactTurn. rewrite final_response_loop_spec, !head_omap_rev.
  destruct (last _); [done|]. by destruct (last _).
Qed.

Section theorems.
Context {PT : ProtocolTypes} {Response : Type}.
Implicit Types (s : exactRunState Response).

(** ** What an acceptance does *)

(** [s'] is [s] after [cloned] was appended, and [r] the completion it left. *)
Record accepted (cloned : ServerNotification) s (r : res (option (option error))) (s' : exactRunState Response)
    : Prop := {
  acc_history : history s' = history s ++ [cloned];
  acc_admitted : terminalAdmitted s' = is_terminal cloned;
  acc_terminal : terminal s' = terminal s;
  acc_err : run_err s' = run_err s;
  acc_diagnostics : Diagnostics (Run (result s')) = Diagnostics (Run (result s));
  acc_thread : run_threadID s' = run_threadID s;
  acc_turn : run_turnID s' = run_turnID s;
  acc_done : done s' = done s;
  acc_completion : r = Ok (terminal_error (run_threadID s) <$> AsTurnCompleted cloned);
  acc_outcome : forall turn, AsTurnCompleted cloned = Some turn ->
    run_Turn (Run (result s')) = clone_turn turn /\
    (FinalResponse (Run (result s')), FinalResponsePresent (Run (result s'))) =
      finalResponseFromExactTurn (clone_turn turn)
}.

(** The results that leave nothing to complete. *)
Definition no_completion (r : res (option (option error))) : Prop :=
  match r with Ok (Some _) => False | _ => True end.

Lemma accept_retained_inv n l s b r s' b' :
  accept_retained n l s b = Some (r, s', b') ->
  s' = s /\ no_completion r \/ exists cloned, clone_notification n = Ok cloned /\ accepted cloned s r s'.
Proof.
  intros H. unfold accept_retained in H.
  destruct (clone_notification n) as [cloned|e] eqn:Ec; [|injection H as <- <- _; by left].
  destruct (owners_add _ _ _) as [[o b1]|]; simpl in H; [|discriminate H].
  right. exists cloned. split; [done|]. unfold applyTerminalLocked in H.
  destruct (AsTurnCompleted cloned) as [turn|] eqn:Et.
  - destruct (finalResponseFromExactTurn _) as [fr p] eqn:Efr. injection H as <- <- _.
    constructor; unfold history, is_terminal; simpl; rewrite ?Et; try done; try by destruct (result s).
    intros turn' [= <-]. rewrite Efr. by destruct (result s).
  - injection H as <- <- _.
    constructor; unfold history, is_terminal; simpl; rewrite ?Et; try done; try by destruct (result s).
Qed.

(** An eligible acceptance appends one clone; every other one leaves the run. *)
Lemma accept_inv n l s b r s' b' :
  acceptRetainedBeforeTerminalCompletion n l s b = Some (r, s', b') ->
  s' = s /\ no_completion r \/
  accepts n s = true /\ exists cloned, clone_notification n = Ok cloned /\ accepted cloned s r s'.
Proof.
  unfold acceptRetainedBeforeTerminalCompletion. intros H.
  destruct (accepts n s) eqn:Hacc; simpl in H; [|injection H as <- <- _; by left].
  destruct l as [a|]; [apply accept_retained_inv in H; naive_solver|].
  destruct (reserve _ _ _) as [[l|e] b1]; [|injection H as <- <- _; by left].
  destruct (accept_retained n l s b1) as [[[r1 s1] b2]|] eqn:Ea; simpl in H; [|discriminate H].
  destruct (release l b2) as [b3|]; simpl in H; [|discriminate H]. simplify_eq.
  apply accept_retained_inv in Ea. naive_solver.
Qed.

Lemma accepts_open n s : accepts n s = true -> terminal s = false /\ terminalAdmitted s = false.
Proof.
  unfold accepts. destruct (attributionFor n) as [c i].
  destruct (terminal s), (terminalAdmitted s); simpl; try done.
Qed.

Lemma diagnostic_inv ref l s b r s' b' :
  addDiagnosticRetained ref l s b = Some (r, s', b') ->
  s' = s \/ terminal s = false /\ terminal s' = false /\ history s' = history s /\
    terminalAdmitted s' = terminalAdmitted s /\ run_err s' = run_err s /\
    run_threadID s' = run_threadID s /\ run_turnID s' = run_turnID s /\ done s' = done s /\
    FinalResponse (Run (result s')) = FinalResponse (Run (result s)).
Proof.
  assert (forall l b s' b', add_diagnostic ref l s b = Some (s', b') ->
    s' = s \/ terminal s = false /\ terminal s' = false /\ history s' = history s /\
    terminalAdmitted s' = terminalAdmitted s /\ run_err s' = run_err s /\
    run_threadID s' = run_threadID s /\ run_turnID s' = run_turnID s /\ done s' = done s /\
    FinalResponse (Run (result s')) = FinalResponse (Run (result s))) as Hgo.
  { clear. intros l b s' b'. unfold add_diagnostic. destruct (terminal s) eqn:Et; [intros; left; by simplify_eq|].
    destruct (owners_add _ _ _) as [[o b1]|]; simpl; [|done]. intros [= <- _]. right.
    unfold history. simpl. by destruct (result s). }
  unfold addDiagnosticRetained. intros H. destruct l as [a|].
  - destruct (add_diagnostic _ _ _ _) as [[s1 b1]|] eqn:Ea; simplify_eq/=. by eapply Hgo.
  - destruct (reserve _ _ _) as [[l|e] b1]; [|left; by simplify_eq].
    destruct (add_diagnostic _ _ _ _) as [[s1 b2]|] eqn:Ea; simplify_eq/=.
    destruct (release _ _) as [b3|]; simplify_eq/=. by eapply Hgo.
Qed.

Lemma setTurn_fields turn s :
  history (setTurn turn s) = history s /\ terminal (setTurn turn s) = terminal s /\
  terminalAdmitted (setTurn turn s) = terminalAdmitted s /\ run_err (setTurn turn s) = run_err s /\
  run_threadID (setTurn turn s) = run_threadID s /\ done (setTurn turn s) = done s /\
  Diagnostics (Run (result (setTurn turn s))) = Diagnostics (Run (result s)) /\
  FinalResponse (Run (result (setTurn turn s))) = FinalResponse (Run (result s)).
Proof. unfold setTurn, history. simpl. destruct (result s); simpl; by destruct (String.eqb _ _). Qed.

(** ** Invariants of a run *)

Record run_wf (s : exactRunState Response) : Prop := {
  (** a terminal notification is the last one of the history *)
  wf_terminal_last : forall i n, history s !! i = Some n -> is_terminal n = true ->
    S i = length (history s) /\ terminalAdmitted s = true;
  wf_done : done s = terminal s;
  wf_err : terminal s = false -> run_err s = None
}.

Lemma run_step_wf s s' : run_wf s -> run_step s s' -> run_wf s'.
Proof.
  intros Hwf [n l b r s1 b' H|ref l b r s1 b' H|cause e|turn].
  - apply accept_inv in H as [[-> _]|(Hacc & cloned & _ & [Hh Hta Hte He _ _ _ Hd _ _])]; [done|].
    apply accepts_open in Hacc as [Hopen Hadm]. constructor.
    + intros i n' Hi Hn'. rewrite Hh in Hi |- *. rewrite length_app. simpl.
      apply lookup_app_Some in Hi as [Hi|[Hlen Hi]].
      * destruct (wf_terminal_last s Hwf i n' Hi Hn') as [_ Hc]. congruence.
      * apply list_lookup_singleton_Some in Hi as [Hi ->].
        split; [lia|]. by rewrite Hta.
    + rewrite Hd, Hte. apply Hwf.
    + rewrite Hte, He. apply Hwf.
  - apply diagnostic_inv in H as [->|(Ho & Ht & Hh & Hta & He & _ & _ & Hd & _)]; [done|].
    constructor.
    + rewrite Hh, Hta. apply Hwf.
    + rewrite Hd, Ht, <- Ho. apply Hwf.
    + intros _. rewrite He. by apply Hwf.
  - unfold finishState. destruct (terminal s) eqn:E; simpl; [done|]. constructor; simpl; try done. apply Hwf.
  - destruct (setTurn_fields turn s) as (Hh & Ht & Hta & He & _ & Hd & _). constructor.
    + rewrite Hh, Hta. apply Hwf.
    + rewrite Hd, Ht. apply Hwf.
    + rewrite Ht, He. apply Hwf.
Qed.

Lemma run_initial_wf thread initial :
  Notifications (Run initial) = [] -> run_wf (newExactRunState (Response := Response) thread initial).
Proof. intros H. constructor; simpl; [|done | done]. unfold history. simpl. rewrite H. done. Qed.

Lemma run_reachable_wf s s' : rtc run_step s s' -> run_wf s -> run_wf s'.
Proof. induction 1; eauto using run_step_wf. Qed.

(** The part of a run that is fixed once it is over. *)
Definition frozen_part (s : exactRunState Response) :=
  (terminal s, run_err s, history s, Diagnostics (Run (result s)), FinalResponse (Run (result s))).

Lemma run_step_frozen s s' : terminal s = true -> run_step s s' -> frozen_part s' = frozen_part s.
Proof.
  unfold frozen_part. intros Ht [n l b r s1 b' H|ref l b r s1 b' H|cause e|turn].
  - apply accept_inv in H as [[-> _]|(Hacc & _)]; [done|]. apply accepts_open in Hacc as [? _]. congruence.
  - apply diagnostic_inv in H as [->|(? & _)]; [done | congruence].
  - assert ((finishState cause e s).2 = s) as ->; [unfold finishState; by rewrite Ht | done].
  - destruct (setTurn_fields turn s) as (-> & -> & _ & -> & _ & _ & -> & ->). done.
Qed.

Lemma run_steps_frozen s s' : rtc run_step s s' -> terminal s = true -> frozen_part s' = frozen_part s.
Proof.
  induction 1 as [|x y z H _ IH]; [done|]. intros Ht. pose proof (run_step_frozen _ _ Ht H) as Hf.
  rewrite <- Hf. apply IH. unfold frozen_part in Hf. congruence.
Qed.

Lemma run_over_stays s s' : rtc run_step s s' -> terminal s = true -> terminal s' = true.
Proof. intros H Ht. pose proof (run_steps_frozen _ _ H Ht) as Hf. unfold frozen_part in Hf. congruence. Qed.

Lemma run_step_history s s' : run_step s s' -> exists l, history s' = history s ++ l.
Proof.
  intros [n l b r s1 b' H|ref l b r s1 b' H|cause e|turn].
  - apply accept_inv in H as [[-> _]|(_ & cloned & _ & [Hh])]; [exists []; by rewrite app_nil_r|].
    eauto.
  - exists []. rewrite app_nil_r. apply diagnostic_inv in H as [->|(_ & _ & Hh & _)]; done.
  - exists []. rewrite app_nil_r. unfold finishState. by destruct (terminal s).
  - exists []. rewrite app_nil_r. apply setTurn_fields.
Qed.

Lemma run_steps_history s s' : rtc run_step s s' -> exists l, history s' = history s ++ l.
Proof.
  induction 1 as [|x y z H _ [l2 IH]]; [exists []; by rewrite app_nil_r|].
  apply run_step_history in H as [l1 H]. rewrite H, <- app_assoc in IH. eauto.
Qed.

Lemma run_step_thread s s' : run_step s s' -> run_threadID s' = run_threadID s.
Proof.
  intros [n l b r s1 b' H|ref l b r s1 b' H|cause e|turn].
  - apply accept_inv in H as [[-> _]|(_ & ? & _ & Ha)]; [done | apply Ha].
  - by apply diagnostic_inv in H as [->|(_ & _ & _ & _ & _ & Hth & _)].
  - unfold finishState. by destruct (terminal s).
  - apply setTurn_fields.
Qed.

(** The history is append-only and closed by the first terminal notification. *)
Definition fresh_run (s : exactRunState Response) : Prop :=
  exists thread initial, s = newExactRunState thread initial /\ Notifications (Run initial) = [].

Lemma fresh_run_wf s : fresh_run s -> run_wf s.
Proof. intros (thread & initial & -> & H). by apply run_initial_wf. Qed.
End theorems.

(** C8: a run is completed once, by its first cause: after it is over, no
    notification, diagnostic, later failure or turn changes its error, its
    history, its diagnostics or its final response. *)
Theorem run_first_cause {PT : ProtocolTypes} {Response} (s s' : exactRunState Response)
    (Hover : terminal s = true) (Hlater : rtc run_step s s') :
  terminal s' = true /\ run_err s' = run_err s /\ history s' = history s /\
  Diagnostics (Run (result s')) = Diagnostics (Run (result s)) /\
  FinalResponse (Run (result s')) = FinalResponse (Run (result s)).
Proof.
  pose proof (run_steps_frozen _ _ Hlater Hover) as H. unfold frozen_part in H.
  injection H as H1 H2 H3 H4 H5. rewrite H1. done.
Qed.

(** C7: a terminal notification is the last evidence of its run: in every
    reachable state it closes the history, even while its completion is still
    pending, and no later state has appended anything to it; until then the
    history only grows at its end. *)
Theorem run_terminal_last {PT : ProtocolTypes} {Response} (s0 s s' : exactRunState Response)
    (Hfresh : fresh_run s0) (Hreach : rtc run_step s0 s) (Hlater : rtc run_step s s') :
  (exists l, history s' = history s ++ l) /\
  forall i n, history s !! i = Some n -> is_terminal n = true ->
    S i = length (history s) /\ history s' = history s.
Proof.
  pose proof (run_steps_history _ _ Hlater) as [l Hl]. split; [eauto|]. intros i n Hi Hn.
  assert (run_wf s) as Hwf by eauto using run_reachable_wf, fresh_run_wf.
  destruct (wf_terminal_last s Hwf i n Hi Hn) as [Hlen _]. split; [done|].
  assert (run_wf s') as Hwf' by eauto using run_reachable_wf.
  destruct (wf_terminal_last s' Hwf' i n) as [Hlen' _]; [rewrite Hl; by apply lookup_app_l_Some | done |].
  rewrite Hl in Hlen' |- *. rewrite length_app in Hlen'. destruct l; [by rewrite app_nil_r|].
  simpl in Hlen'. lia.
Qed.

Lemma terminal_error_spec {PT : ProtocolTypes} thread turn :
  (terminal_error thread turn = None <-> turn_Status turn = TurnStatusCompleted) /\
  (turn_Status turn = TurnStatusFailed -> exists c, terminal_error thread turn = Some c /\
     errors_is "codexsdk: turn failed" c = true) /\
  (turn_Status turn = TurnStatusInterrupted -> exists c, terminal_error thread turn = Some c /\
     errors_is "codexsdk: turn interrupted" c = true).
Proof.
  unfold terminal_error. split; [|split; intros ->; eexists; split; reflexivity].
  destruct (String.eqb_spec (turn_Status turn) TurnStatusCompleted); [done|].
  split; [|done]. by repeat destruct (String.eqb _ _).
Qed.

(** What a terminal notification leaves: accepting one yields a pending
    completion; completing it without a client failure ends the run without
    error exactly for the completed status, and with the failed or interrupted
    cause for those; a client failure comes first; the turn and the final
    response are those of the notification. *)
Theorem accept_terminal_outcome {PT : ProtocolTypes} {Response} (n : ServerNotification) (l : lease)
    (s s' : exactRunState Response) (b b' : notificationRetention) (e : option error)
    (H : acceptRetainedBeforeTerminalCompletion n l s b = Some (Ok (Some e), s', b')) :
  exists cloned turn, clone_notification n = Ok cloned /\ AsTurnCompleted cloned = Some turn /\
    history s' = history s ++ [cloned] /\ terminal s' = false /\ terminalAdmitted s' = true /\
    run_Turn (Run (result s')) = clone_turn turn /\
    (FinalResponse (Run (result s')), FinalResponsePresent (Run (result s'))) =
      finalResponseFromExactTurn (clone_turn turn) /\
    run_err (finishState None e s').2 = e /\
    (forall cause, run_err (finishState (Some cause) e s').2 = Some cause) /\
    (e = None <-> turn_Status turn = TurnStatusCompleted) /\
    (turn_Status turn = TurnStatusFailed -> exists c, e = Some c /\
       errors_is "codexsdk: turn failed" c = true) /\
    (turn_Status turn = TurnStatusInterrupted -> exists c, e = Some c /\
       errors_is "codexsdk: turn interrupted" c = true).
Proof.
  apply accept_inv in H as [[_ []]|(Hacc & cloned & Hc & Ha)].
  apply accepts_open in Hacc as [Hopen _].
  pose proof (acc_completion _ _ _ _ Ha) as Hr. injection Hr as Hr.
  destruct (AsTurnCompleted cloned) as [turn|] eqn:Et; [|done]. injection Hr as ->.
  exists cloned, turn. destruct (acc_outcome _ _ _ _ Ha turn Et) as [Hturn Hfr].
  pose proof (acc_admitted _ _ _ _ Ha) as Hadm. unfold is_terminal in Hadm. rewrite Et in Hadm.
  pose proof (acc_terminal _ _ _ _ Ha) as Hte. rewrite Hopen in Hte.
  unfold finishState. rewrite Hte. split_and!; try done; try apply Ha.
  all: destruct (terminal_error_spec (run_threadID s) turn) as (H1 & H2 & H3); assumption.
Qed.

(** A cursor sees the whole history in order: what [Next] yields at a
    position is what every later state holds there, the cursor moves by one,
    and the end is only reported when the run is over and every notification
    of every later state was yielded. *)
Theorem cursor_reads_history {PT : ProtocolTypes} {Response} (s s' : exactRunState Response) (cursor : nat)
    (Hlater : rtc run_step s s') :
  match Next s cursor with
  | (NextYield n, cursor') => cursor' = S cursor /\ history s' !! cursor = Some n
  | (NextEnd, cursor') => cursor' = cursor /\ terminal s' = true /\ length (history s') <= cursor
  | (NextBlocked, cursor') => cursor' = cursor /\ terminal s = false
  end.
Proof.
  unfold Next, notificationAtLocked. fold (history s). destruct (history s !! cursor) as [n|] eqn:En.
  - split; [done|]. pose proof (run_steps_history _ _ Hlater) as [l ->]. by apply lookup_app_l_Some.
  - destruct (terminal s) eqn:Et; [|done]. pose proof (run_steps_frozen _ _ Hlater Et) as Hf.
    unfold frozen_part in Hf. injection Hf as H1 _ H3 _ _. rewrite H1, H3.
    split; [done|]. split; [done|]. by apply lookup_ge_None.
Qed.

(** A completed run wins over a caller's context: every [Wait] that returns
    after the run is over returns the run's own error, the same for every
    waiter, even one whose context ended first. *)
Theorem wait_agrees {PT : ProtocolTypes} {Response} (clone : run_result Response -> res (run_result Response))
    (s s' : exactRunState Response) (r : option (run_result Response)) (e : option error)
    (Hclone : forall x, is_ok (clone x) = true)
    (Hover : terminal s = true) (Hlater : rtc run_step s s') (Hwait : wait_returns clone s' r e) :
  e = run_err s /\ exists x, clone (result s') = Ok x /\ r = Some x.
Proof.
  pose proof (run_steps_frozen _ _ Hlater Hover) as Hf. unfold frozen_part in Hf.
  injection Hf as H1 H2 _ _ _. rewrite Hover in H1.
  specialize (Hclone (result s')). destruct (clone (result s')) as [x|] eqn:Ec; [|done].
  destruct Hwait as [r e t _ H|ctxErr r e t H]; unfold waitSnapshot in H; rewrite Ec, H1, H2 in H;
    injection H as <- <- _; eauto.
Qed.

(** A run's history holds only its own thread: every notification in it was
    cloned from one that names no other thread than the run's. *)
Theorem run_history_owned {PT : ProtocolTypes} {Response} (s0 s : exactRunState Response)
    (Hfresh : fresh_run s0) (Hreach : rtc run_step s0 s) :
  Forall (fun n => exists m i, clone_notification m = Ok n /\ i = extractNotificationIdentity m /\
            (threadID i = "" \/ threadID i = run_threadID s) /\ (threadID i <> "" \/ turnID i <> ""))
    (history s).
Proof.
  destruct Hfresh as (thread & initial & -> & Hempty).
  pose (P (s : exactRunState Response) := Forall (fun n => exists m i, clone_notification m = Ok n /\ i = extractNotificationIdentity m /\
            (threadID i = "" \/ threadID i = run_threadID s) /\ (threadID i <> "" \/ turnID i <> "")) (history s)).
  assert (P (newExactRunState thread initial)) as H0.
  { unfold P, history. simpl. by rewrite Hempty. }
  change (P s). revert H0. induction Hreach as [|x y z Hstep _ IH]; [done|]. intros Hx. apply IH. clear IH.
  unfold P in *. rewrite (run_step_thread _ _ Hstep).
  destruct Hstep as [n l b r s1 b' H|ref l b r s1 b' H|cause e|turn].
  - apply accept_inv in H as [[-> _]|(Hacc & cloned & Hc & Ha)]; [done|].
    rewrite (acc_history _ _ _ _ Ha). apply Forall_app. split; [done|]. constructor; [|done].
    unfold accepts in Hacc. destruct (attributionFor n) as [c i] eqn:Eat. exists n, i.
    apply negb_true_iff in Hacc. reflect_bools.
    split; [done|]. split.
    + eapply attributionFor_identity; [done|]. by intros ->.
    + apply matchesRun_iff in H0 as (? & _ & ?). done.
  - apply diagnostic_inv in H as [->|(_ & _ & -> & _)]; done.
  - unfold finishState. by destruct (terminal x).
  - destruct (setTurn_fields turn x) as (-> & _). done.
Qed.

(** * Witnesses *)

(** A run of thread [t1] whose turn [u1] completes after one item. *)
Definition sample_stats : InputStats := exactInputStats (fun _ => "") [InputText "hi"; InputOther "image"].

Definition sample_run : exactRunState (PT := sample_protocol) unit :=
  newExactRunState (PT := sample_protocol) "t1" (StartedThreadRun tt (new_run (PT := sample_protocol) sample_stats)).

Definition sample_budget : notificationRetention := new_retention {| MaxCount := 100; MaxBytes := 100000 |}.

Definition step_accept (s : exactRunState (PT := sample_protocol) unit) (n : sample_notification)
    : exactRunState (PT := sample_protocol) unit :=
  match acceptRetainedBeforeTerminalCompletion (PT := sample_protocol) n None s sample_budget with
  | Some (_, s', _) => s'
  | None => s
  end.

Lemma step_accept_run s n : rtc run_step s (step_accept s n).
Proof.
  unfold step_accept.
  destruct (acceptRetainedBeforeTerminalCompletion (PT := sample_protocol) n None s sample_budget) as [[[r s'] b']|] eqn:E;
    [|done].
  apply rtc_once. by eapply run_accept.
Qed.

Definition item_run := step_accept (setTurn (PT := sample_protocol)
  {| turn_ID := "u1"; turn_Status := "inProgress"; turn_Items := [] |} sample_run) (sample_item "t1" "u1").
Definition ended_run := step_accept item_run (sample_completed "t1" "u1" "completed").
Definition finished_run := (finishState None None ended_run).2.

Lemma item_run_reachable : rtc run_step sample_run item_run.
Proof. eapply rtc_l; [apply run_turn|]. apply step_accept_run. Qed.

Lemma ended_run_reachable : rtc run_step sample_run ended_run.
Proof. etrans; [apply item_run_reachable | apply step_accept_run]. Qed.

Lemma sample_run_fresh : fresh_run sample_run.
Proof. by eexists _, _. Qed.

Lemma run_first_cause_witness :
  run_err finished_run = None /\
  run_err (finishState (Some ErrStreamClosed) None finished_run).2 = run_err finished_run.
Proof.
  split; [vm_compute; reflexivity|].
  apply (run_first_cause finished_run).
  - vm_compute. reflexivity.
  - apply rtc_once. apply run_finish.
Defined.

Lemma run_terminal_last_witness :
  length (history ended_run) = 2 /\
  history (step_accept ended_run (sample_item "t1" "u1")) = history ended_run.
Proof.
  split; [vm_compute; reflexivity|].
  destruct (run_terminal_last sample_run ended_run (step_accept ended_run (sample_item "t1" "u1"))) as [_ H].
  - apply sample_run_fresh.
  - apply ended_run_reachable.
  - apply step_accept_run.
  - apply (H 1 (sample_completed "t1" "u1" "completed")); vm_compute; reflexivity.
Defined.

Definition sample_accepted := acceptRetainedBeforeTerminalCompletion (PT := sample_protocol)
  (sample_completed "t1" "u1" "completed") None item_run sample_budget.
Definition accepted_run := match sample_accepted with Some (_, s', _) => s' | None => item_run end.
Definition accepted_budget := match sample_accepted with Some (_, _, b') => b' | None => sample_budget end.
Lemma sample_accepts : sample_accepted = Some (Ok (Some None), accepted_run, accepted_budget).
Proof. vm_cast_no_check (@eq_refl _ sample_accepted). Qed.

Lemma accept_terminal_outcome_witness :
  FinalResponse (Run (result accepted_run)) = "42" /\ run_err (finishState None None accepted_run).2 = None.
Proof.
  split; [vm_compute; reflexivity|].
  destruct (accept_terminal_outcome (PT := sample_protocol) _ _ _ _ _ _ _ sample_accepts)
    as (cloned & turn & _ & _ & _ & _ & _ & _ & _ & H & _). exact H.
Defined.

Lemma sample_next : Next finished_run 2 = (NextEnd, 2).
Proof. vm_compute. reflexivity. Qed.

Lemma cursor_reads_history_witness :
  Next finished_run 2 = (NextEnd, 2) /\ length (history finished_run) <= 2.
Proof.
  split; [apply sample_next|].
  pose proof (cursor_reads_history finished_run finished_run 2 (rtc_refl _ _)) as H.
  rewrite sample_next in H. apply H.
Defined.

Lemma wait_agrees_witness :
  wait_returns Ok finished_run (Some (result finished_run)) None /\ None = run_err finished_run.
Proof.
  assert (wait_returns Ok finished_run (Some (result finished_run)) None) as H.
  { eapply (wait_ctx _ _ ErrStreamClosed). reflexivity. }
  split; [exact H|].
  apply (wait_agrees Ok finished_run finished_run _ None (fun _ => eq_refl) eq_refl (rtc_refl _ _) H).
Defined.

Lemma run_history_owned_witness :
  history ended_run <> [] /\
  Forall (fun n => exists m i, clone_notification (ProtocolTypes := sample_protocol) m = Ok n /\
            i = extractNotificationIdentity (PT := sample_protocol) m /\
            (threadID i = "" \/ threadID i = run_threadID ended_run) /\ (threadID i <> "" \/ turnID i <> ""))
    (history ended_run).
Proof.
  split; [vm_compute; discriminate|].
  apply (run_history_owned sample_run ended_run sample_run_fresh ended_run_reachable).
Defined.
