(* ===== verification/Lifecycle.v ===== *)
(** The life of a client: [src/codexsdk/lifecycle.go] with the failure claim
    and the callback admission of [notification_dispatch.go] and the end of
    construction in [client.go].

    [life] holds the fields guarded by [closeMu] and the channels and contexts
    that are only ever closed; every operation is one critical section or one
    close, and [life_step] lets any goroutine perform any of them at any time. *)

From S2P Require Import Prelude Pending.
From Stdlib Require Import ZArith.

Local Open Scope string_scope.
Local Open Scope list_scope.

Definition ErrCallbackWorkPending : error := Sentinel "codexsdk: callback work remains unresolved".

Record life := {
  l_closed : bool;
  failure : option error;
  normalClosing : bool;
  constructing : bool;
  closeReason : option error;
  callbackFailure : option error;
  callbackWork : Z;
  (** [c.ctx] and [c.handlerCtx] are cancelled. *)
  ctxDone : bool;
  handlerCtxDone : bool;
  closeCausePublished : bool;
  (** [shutdownOnce] has run; the process and the whole shutdown are done. *)
  shutdownStarted : bool;
  processDone : bool;
  processCleanupErr : option error;
  shutdownDone : bool
}.

(** A client under construction. *)
Definition initial_life : life := {|
  l_closed := false; failure := None; normalClosing := false; constructing := true; closeReason := None;
  callbackFailure := None; callbackWork := 0; ctxDone := false; handlerCtxDone := false;
  closeCausePublished := false; shutdownStarted := false; processDone := false;
  processCleanupErr := None; shutdownDone := false |}.

(** ** Closing *)

Definition checkOpen (l : life) : res unit := guard_err (l_closed l) ErrClientClosed.

(** [claimFailureLocked]: the first failure closes the client and is its cause. *)
Definition claimFailureLocked (e : error) (l : life) : bool * life :=
  if l_closed l then (false, l)
  else (true, {|
    l_closed := true; failure := Some e; normalClosing := normalClosing l; constructing := constructing l;
    closeReason := Some e; callbackFailure := callbackFailure l; callbackWork := callbackWork l;
    ctxDone := ctxDone l; handlerCtxDone := handlerCtxDone l; closeCausePublished := closeCausePublished l;
    shutdownStarted := shutdownStarted l; processDone := processDone l;
    processCleanupErr := processCleanupErr l; shutdownDone := shutdownDone l |}).

Definition claimClientFailure := claimFailureLocked.

Definition claimStartupFailure (e : error) (l : life) : bool * life :=
  if constructing l then claimFailureLocked e l else (false, l).

(** [beginShutdown]: the first call closes the client, normally if nothing failed. *)
Definition beginShutdown (l : life) : life :=
  if shutdownStarted l then l
  else {|
    l_closed := true; failure := failure l;
    normalClosing := match failure l with None => true | Some _ => false end;
    constructing := constructing l;
    closeReason := match closeReason l with None => Some ErrClientClosed | Some e => Some e end;
    callbackFailure := callbackFailure l; callbackWork := callbackWork l; ctxDone := ctxDone l;
    handlerCtxDone := handlerCtxDone l; closeCausePublished := closeCausePublished l;
    shutdownStarted := true; processDone := processDone l; processCleanupErr := processCleanupErr l;
    shutdownDone := shutdownDone l |}.

Definition firstCloseReason (fallback : error) (l : life) : error :=
  match closeReason l with
  | Some e => e
  | None => match failure l with Some e => e | None => fallback end
  end.

Definition closingNormally (l : life) : bool :=
  normalClosing l && match failure l with None => true | Some _ => false end.

(** The first cause a run is finished with ([finishState]). *)
Definition run_cause (l : life) : option error :=
  match closeReason l with Some e => Some e | None => failure l end.

(** The fields that only change one way: cancellation, publication, callback
    work, the failure of a callback during normal closing, and the process. *)
Definition set_flags (l : life) (work : Z) (cbf : option error) (ctx hctx pub : bool) : life := {|
  l_closed := l_closed l; failure := failure l; normalClosing := normalClosing l;
  constructing := constructing l; closeReason := closeReason l; callbackFailure := cbf;
  callbackWork := work; ctxDone := ctx; handlerCtxDone := hctx; closeCausePublished := pub;
  shutdownStarted := shutdownStarted l; processDone := processDone l;
  processCleanupErr := processCleanupErr l; shutdownDone := shutdownDone l |}.

Definition cancel_ctx (l : life) : life :=
  set_flags l (callbackWork l) (callbackFailure l) true true (closeCausePublished l).
Definition cancel_handlers (l : life) : life :=
  set_flags l (callbackWork l) (callbackFailure l) (ctxDone l) true (closeCausePublished l).
Definition publishCloseCause (l : life) : life :=
  set_flags l (callbackWork l) (callbackFailure l) (ctxDone l) (handlerCtxDone l) true.
Definition addHandlerWork (l : life) : life :=
  set_flags l (callbackWork l + 1)%Z (callbackFailure l) (ctxDone l) (handlerCtxDone l) (closeCausePublished l).
Definition endHandlerWork (l : life) : life :=
  set_flags l (callbackWork l - 1)%Z (callbackFailure l) (ctxDone l) (handlerCtxDone l) (closeCausePublished l).

(** A callback that failed: recorded while the client closes normally. *)
Definition record_callback_failure (e : error) (l : life) : life :=
  if normalClosing l && match callbackFailure l with None => true | Some _ => false end then
    set_flags l (callbackWork l) (Some e) (ctxDone l) (handlerCtxDone l) (closeCausePublished l)
  else l.

Definition beginHandler (l : life) : bool * life :=
  if l_closed l then (false, l) else (true, addHandlerWork l).

(** The end of [newClientContext]: a failed [initialize] closes the client, and
    whatever closed it so far is the error of construction. *)
Definition end_construction (init : option error) (l : life) : option error * life :=
  let l := match init with Some e => (claimFailureLocked e l).2 | None => l end in
  (match closeReason l with Some e => Some e | None => init end,
   {| l_closed := l_closed l; failure := failure l; normalClosing := normalClosing l; constructing := false;
      closeReason := closeReason l; callbackFailure := callbackFailure l; callbackWork := callbackWork l;
      ctxDone := ctxDone l; handlerCtxDone := handlerCtxDone l; closeCausePublished := closeCausePublished l;
      shutdownStarted := shutdownStarted l; processDone := processDone l;
      processCleanupErr := processCleanupErr l; shutdownDone := shutdownDone l |}).

(** [cleanupProcess] returning, and the end of [shutdown]. *)
Definition process_cleaned (e : option error) (l : life) : life := {|
  l_closed := l_closed l; failure := failure l; normalClosing := normalClosing l;
  constructing := constructing l; closeReason := closeReason l; callbackFailure := callbackFailure l;
  callbackWork := callbackWork l; ctxDone := ctxDone l; handlerCtxDone := handlerCtxDone l;
  closeCausePublished := closeCausePublished l; shutdownStarted := shutdownStarted l; processDone := true;
  processCleanupErr := e; shutdownDone := shutdownDone l |}.

Definition shutdown_complete (l : life) : life := {|
  l_closed := l_closed l; failure := failure l; normalClosing := normalClosing l;
  constructing := constructing l; closeReason := closeReason l; callbackFailure := callbackFailure l;
  callbackWork := callbackWork l; ctxDone := true; handlerCtxDone := true;
  closeCausePublished := closeCausePublished l; shutdownStarted := shutdownStarted l;
  processDone := processDone l; processCleanupErr := processCleanupErr l; shutdownDone := true |}.

(** ** Observing the shutdown *)

Record ShutdownResult := { ProcessReaped : bool; CallbackWorkPending : Z; Cause : error }.

(** [ShutdownError] and what it unwraps to. *)
Record ShutdownError := { se_Result : ShutdownResult; se_Err : option error }.

Definition ShutdownError_Unwrap (e : ShutdownError) : list error :=
  match se_Err e with Some x => [x] | None => [] end ++
  [Cause (se_Result e)] ++
  (if (0 <? CallbackWorkPending (se_Result e))%Z then [ErrCallbackWorkPending] else []).

(** [exited]: the child has no process or its state is known. *)
Definition shutdownSnapshot (exited : bool) (l : life) : ShutdownResult := {|
  ProcessReaped := processDone l && exited;
  CallbackWorkPending := callbackWork l;
  Cause := firstCloseReason ErrClientClosed l |}.

Inductive close_error := CloseShutdown (e : ShutdownError) | CloseFailure (e : error).

(** [CloseContext] once the shutdown is done. *)
Definition close_completed (exited : bool) (l : life) : ShutdownResult * option close_error :=
  let result := shutdownSnapshot exited l in
  let shutdown e := Some (CloseShutdown {| se_Result := result; se_Err := Some e |}) in
  (result,
   match processCleanupErr l with
   | Some e => shutdown e
   | None =>
     if (0 <? CallbackWorkPending result)%Z then shutdown ErrCallbackWorkPending
     else match failure l with
          | Some e => Some (CloseFailure e)
          | None => match callbackFailure l with Some e => shutdown e | None => None end
          end
   end).

(** [CloseContext] when the caller's context ends first. *)
Definition close_abandoned (exited : bool) (ctxErr : error) (l : life)
    : ShutdownResult * option close_error * life :=
  let l := cancel_handlers (cancel_ctx l) in
  let result := shutdownSnapshot exited l in
  (result, Some (CloseShutdown {| se_Result := result; se_Err := Some ctxErr |}), l).

(** [CloseContext]: [timeout] is the caller's context error if it ends before
    the shutdown is done. *)
Definition CloseContext (exited : bool) (timeout : option error) (l : life)
    : ShutdownResult * option close_error * life :=
  let l := beginShutdown l in
  match timeout with
  | Some e => close_abandoned exited e l
  | None => let '(r, e) := close_completed exited l in (r, e, l)
  end.

(** ** The steps *)

Inductive life_step (l : life) : life -> Prop :=
| life_claim e : life_step l (claimClientFailure e l).2
| life_claim_startup e : life_step l (claimStartupFailure e l).2
| life_shutdown : life_step l (beginShutdown l)
| life_constructed init : life_step l (end_construction init l).2
| life_cancel : life_step l (cancel_ctx l)
| life_cancel_handlers : life_step l (cancel_handlers l)
| life_publish : l_closed l = true -> life_step l (publishCloseCause l)
| life_begin_handler : life_step l (beginHandler l).2
| life_end_handler : (0 < callbackWork l)%Z -> life_step l (endHandlerWork l)
| life_callback_failed e : life_step l (record_callback_failure e l)
| life_process_cleaned e : shutdownStarted l = true -> processDone l = false -> life_step l (process_cleaned e l)
| life_shutdown_done : processDone l = true -> life_step l (shutdown_complete l).

(** * Theorems *)

Record life_wf (l : life) : Prop := {
  wf_closed : l_closed l = true <-> is_Some (closeReason l);
  wf_failure : forall e, failure l = Some e -> closeReason l = Some e;
  wf_normal : normalClosing l = true -> failure l = None /\ l_closed l = true;
  wf_work : (0 <= callbackWork l)%Z;
  wf_callback : is_Some (callbackFailure l) -> normalClosing l = true
}.

Lemma claim_cases e l :
  (claimFailureLocked e l = (false, l) /\ l_closed l = true) \/
  (l_closed l = false /\ (claimFailureLocked e l).1 = true /\
   closeReason (claimFailureLocked e l).2 = Some e /\ failure (claimFailureLocked e l).2 = Some e).
Proof. unfold claimFailureLocked. destruct (l_closed l); [by left | by right]. Qed.

Lemma claim_wf e l : life_wf l -> life_wf (claimFailureLocked e l).2.
Proof.
  intros Hwf. pose proof Hwf as [H1 H2 H3 H4 H5]. unfold claimFailureLocked.
  destruct (l_closed l) eqn:E; [exact Hwf|].
  simpl. constructor; simpl; [by split; eauto | by intros ? [= ->] | | done | done].
  intros Hn. destruct (H3 Hn). congruence.
Qed.

Lemma life_step_wf l l' : life_wf l -> life_step l l' -> life_wf l'.
Proof.
  intros Hwf Hstep. pose proof Hwf as [H1 H2 H3 H4 H5].
  destruct Hstep as [e|e| |init| | |Hc| |Hw|e|e Hs Hp|Hp].
  - by apply claim_wf.
  - unfold claimStartupFailure. destruct (constructing l); [by apply claim_wf | done].
  - unfold beginShutdown. destruct (shutdownStarted l); [done|]. constructor; simpl; try done.
    + by destruct (closeReason l); split; eauto.
    + intros e He. by rewrite (H2 e He).
    + by destruct (failure l).
    + intros Hn. destruct (H3 (H5 Hn)) as [-> _]. done.
  - unfold end_construction. destruct init as [e|]; simpl.
    + pose proof (claim_wf e l Hwf) as [? ? ? ? ?]. by constructor.
    + by constructor.
  - by constructor.
  - by constructor.
  - by constructor.
  - unfold beginHandler. destruct (l_closed l) eqn:E; simpl; [done|]. constructor; simpl; rewrite ?E; try done. lia.
  - constructor; simpl; try done. lia.
  - unfold record_callback_failure. destruct (normalClosing l && _) eqn:E; [|done].
    reflect_bools. by constructor.
  - by constructor.
  - by constructor.
Qed.

Lemma initial_life_wf : life_wf initial_life.
Proof. constructor; simpl; try done; try split; try done; by intros []. Qed.

Lemma life_reachable_wf l l' : rtc life_step l l' -> life_wf l -> life_wf l'.
Proof. induction 1; eauto using life_step_wf. Qed.

Lemma life_step_cause l l' e :
  life_wf l -> closeReason l = Some e -> life_step l l' ->
  closeReason l' = Some e /\ failure l' = failure l.
Proof.
  intros Hwf Hr Hstep. assert (l_closed l = true) as Hc by (apply Hwf; eauto).
  destruct Hstep as [e'|e'| |init| | |?| |?|e'|e' ? ?|?]; simpl; try done.
  - unfold claimClientFailure, claimFailureLocked. by rewrite Hc.
  - unfold claimStartupFailure, claimFailureLocked. rewrite Hc. by destruct (constructing l).
  - unfold beginShutdown. destruct (shutdownStarted l); [done|]. simpl. by rewrite Hr.
  - unfold end_construction. destruct init; [|done]. unfold claimFailureLocked. by rewrite Hc.
  - unfold beginHandler. by rewrite Hc.
  - unfold record_callback_failure. by destruct (normalClosing l && _).
Qed.

(** C9: a client has one cause: the first failure or normal closure that closes
    it stays its close reason and its recorded failure in every later state,
    whatever fails, closes, cancels or reports afterwards; and a client is
    closed exactly when it has a cause. *)
Theorem first_cause_wins (l l' : life) (e : error)
    (Hreach : rtc life_step initial_life l) (Hcause : closeReason l = Some e)
    (Hlater : rtc life_step l l') :
  closeReason l' = Some e /\ failure l' = failure l /\ l_closed l' = true /\
  firstCloseReason ErrClientClosed l' = e /\ run_cause l' = Some e /\
  (failure l' = Some e \/ failure l' = None).
Proof.
  assert (life_wf l) as Hwf by eauto using life_reachable_wf, initial_life_wf.
  assert (life_wf l' /\ closeReason l' = Some e /\ failure l' = failure l) as (Hwf' & Hr & Hf).
  { clear Hreach. revert Hwf Hcause. induction Hlater as [|x y z H _ IH]; [done|]. intros Hwf Hc.
    destruct (life_step_cause _ _ _ Hwf Hc H) as [Hc' Hf'].
    destruct IH as (? & ? & ->); [by eapply life_step_wf | done |]. done. }
  unfold firstCloseReason, run_cause. rewrite Hr. split_and!; try done.
  - apply Hwf'. eauto.
  - destruct (failure l') as [e'|] eqn:E; [|by right]. left. rewrite (wf_failure l' Hwf' e' E) in Hr. done.
Qed.

Definition failed_life : life := (claimClientFailure (Sentinel "first") initial_life).2.
Definition failed_then_closed : life :=
  (claimClientFailure (Sentinel "second") (beginShutdown failed_life)).2.

Lemma first_cause_wins_witness :
  closeReason failed_then_closed = Some (Sentinel "first").
Proof.
  apply (first_cause_wins failed_life failed_then_closed (Sentinel "first")).
  - apply rtc_once, life_claim.
  - reflexivity.
  - eapply rtc_l; [apply life_shutdown|]. apply rtc_once, life_claim.
Defined.

(** A clean close is the truth: [CloseContext] reports no error only when the
    shutdown is done with the child's cleanup successful, no callback work is
    pending, nothing failed the client and no callback failed while closing;
    and after it nothing can be admitted any more. *)
Theorem clean_close_is_clean (l l' : life) (exited : bool) (timeout : option error) (r : ShutdownResult)
    (Hreach : rtc life_step initial_life l) (Hclose : CloseContext exited timeout l = (r, None, l')) :
  timeout = None /\ processCleanupErr l' = None /\ CallbackWorkPending r = 0%Z /\
  failure l' = None /\ callbackFailure l' = None /\ Cause r = firstCloseReason ErrClientClosed l' /\
  l_closed l' = true /\ checkOpen l' = Err ErrClientClosed /\ (beginHandler l').1 = false /\
  forall e, (claimClientFailure e l').1 = false.
Proof.
  unfold CloseContext in Hclose.
  assert (life_wf (beginShutdown l)) as Hwf.
  { eapply life_step_wf; [|apply life_shutdown]. eauto using life_reachable_wf, initial_life_wf. }
  destruct timeout as [e|]; [done|]. unfold close_completed in Hclose.
  destruct (processCleanupErr (beginShutdown l)) eqn:Hp; [done|].
  destruct (0 <? _)%Z eqn:Hw; [done|]. apply Z.ltb_ge in Hw.
  destruct (failure (beginShutdown l)) eqn:Hf; [done|].
  destruct (callbackFailure (beginShutdown l)) eqn:Hcb; [done|]. injection Hclose as <- <-.
  assert (l_closed (beginShutdown l) = true) as Hc.
  { unfold beginShutdown. destruct (shutdownStarted l) eqn:Es; [|done].
    revert Es.
    assert (forall x y, rtc life_step x y -> (shutdownStarted x = true -> l_closed x = true) ->
            shutdownStarted y = true -> l_closed y = true) as Hinv.
    { clear. induction 1 as [|x y z H _ IH]; [done|]. intros Hx. apply IH. clear IH.
      destruct H as [e|e| |init| | |?| |?|e|e ? ?|?]; simpl; try done;
        unfold claimClientFailure, claimStartupFailure, claimFailureLocked, beginShutdown, end_construction,
          claimFailureLocked, beginHandler, record_callback_failure;
        repeat case_match; simplify_eq/=; try done; intuition congruence. }
    by apply (Hinv _ _ Hreach). }
  pose proof (wf_work _ Hwf). simpl in Hw |- *. split_and!; try done; try lia.
  - unfold checkOpen. by rewrite Hc.
  - unfold beginHandler. by rewrite Hc.
  - intros e. unfold claimClientFailure, claimFailureLocked. by rewrite Hc.
Qed.

Definition closed_life : life :=
  shutdown_complete (process_cleaned None (beginShutdown (end_construction None initial_life).2)).

Lemma clean_close_is_clean_witness :
  (CloseContext true None closed_life).1.2 = None /\ failure closed_life = None.
Proof.
  split; [reflexivity|].
  apply (clean_close_is_clean closed_life closed_life true None (shutdownSnapshot true closed_life)).
  - eapply rtc_l; [apply (life_constructed _ None)|]. eapply rtc_l; [apply life_shutdown|].
    eapply rtc_l; [by apply (life_process_cleaned _ None)|]. by apply rtc_once, life_shutdown_done.
  - reflexivity.
Defined.

(** Construction reports what closed it, and ends the power of its context:
    [newClientContext] returns a client exactly when nothing has closed it, and
    cancelling the startup context afterwards changes nothing. *)
Theorem construction_outcome (l : life) (init : option error)
    (Hreach : rtc life_step initial_life l) :
  let '(err, l') := end_construction init l in
  (err = None <-> l_closed l' = false) /\
  (err = None -> init = None /\ closeReason l' = None) /\
  (forall e, closeReason l = Some e -> err = Some e) /\
  (forall e, claimStartupFailure e l' = (false, l')).
Proof.
  assert (life_wf l) as Hwf by eauto using life_reachable_wf, initial_life_wf.
  pose proof (life_step_wf _ _ Hwf (life_constructed l init)) as Hwf'.
  unfold end_construction in *. simpl in Hwf'.
  assert (is_Some (closeReason l) -> l_closed l = true) as Hcl by apply Hwf.
  destruct init as [e0|]; simpl in *.
  - destruct (claim_cases e0 l) as [[-> Hc]|(Hc & _ & Hr & _)]; simpl.
    + destruct (proj1 (wf_closed l Hwf) Hc) as [e He]. rewrite He. simpl. rewrite Hc.
      split_and!; try done; naive_solver.
    + rewrite Hr. assert (l_closed (claimFailureLocked e0 l).2 = true) as ->
        by (unfold claimFailureLocked; by rewrite Hc).
      split_and!; try done. intros e He. rewrite Hcl in Hc by eauto. done.
  - destruct (closeReason l) as [e|] eqn:E; simpl.
    + rewrite Hcl by eauto. split_and!; try done.
    + destruct (l_closed l) eqn:Hc; [|done].
      destruct (proj1 (wf_closed l Hwf) Hc) as [e He]. congruence.
Qed.

Lemma construction_outcome_witness :
  (end_construction None initial_life).1 = None /\
  claimStartupFailure (Sentinel "late") (end_construction None initial_life).2 =
    (false, (end_construction None initial_life).2).
Proof.
  split; [reflexivity|]. apply (construction_outcome initial_life None). apply rtc_refl.
Defined.
