(* ===== verification/Order.v ===== *)
(** The order of a run's evidence across attachment, replay and failure, in
    [src/codexsdk/client.go] and [exact_runner.go].

    Three goroutines touch the notifications of one turn: the reader, which
    saves them while the run is only armed and delivers them to a run that has
    published the turn ([routeExactNotificationBeforeTerminalCompletion]); the
    runner, which publishes the turn, then the run, and replays what was saved,
    all under the run's order mutex ([attachExactStreamForTurn],
    [attachExactStreamLocked]); and the goroutine that fails the client, which
    commits what is saved or being replayed before it finishes the run
    ([failAll]).  A saved notification is committed under its evidence [Once],
    so by whoever comes first.  Every step below is one critical section.

    Notifications are numbered in the order the reader ingests them, from the
    arming of the turn on; what the run makes of one, if it still takes any, is a
    parameter ([judge]).  The attachment that ends early
    ([finishAttachingExactStream]) belongs to [Client]. *)

From stdpp Require Import sorting.
From S2P Require Import Prelude.

Local Open Scope list_scope.

(** What the run makes of a notification: it is recorded, it completes the turn,
    or its lease or its copy fails. *)
Inductive verdict := Kept | Ends | Refused.

(** How a run was finished. *)
Inductive ending := ByFailure | ByTerminal | ByClose.

(** The run: what it was offered, in order; what it refused; what it recorded;
    [terminalAdmitted]; and [terminal] with who set it. *)
Record run_evidence := {
  offered : list nat; refused : list nat; history : list nat; terminalAdmitted : bool; ended : option ending }.

(** Where the run is registered: [exactAttaching], [exactStreams] or nowhere. *)
Inductive registration := Attaching | Live | Gone.

(** The tables of the client that concern the turn, under [turnMu]. *)
Record turn_tables := {
  registered : registration; armed : bool; pendingEvents : list nat; replayingEvents : list nat }.

(** The runner: before the order mutex, under it, with the turn published,
    replaying what is left, and returned. *)
Inductive runner_at := Calling | Locking | Publishing | Replaying (left_ : list nat) | Returned.

Record turn_order := {
  ingested : nat;                    (** how many notifications the reader has routed *)
  in_hand : option nat;              (** the one it is about to deliver *)
  closed : bool;                     (** the client's [closed] *)
  snapshot : option (list nat);      (** what [failAll] still has to commit *)
  runner : runner_at;
  tables : turn_tables;
  run : run_evidence }.

Definition initial_order : turn_order := {|
  ingested := 0; in_hand := None; closed := false; snapshot := None; runner := Calling;
  tables := {| registered := Attaching; armed := true; pendingEvents := []; replayingEvents := [] |};
  run := {| offered := []; refused := []; history := []; terminalAdmitted := false; ended := None |} |}.

(** The order mutex is the runner's. *)
Definition order_locked (s : turn_order) : bool :=
  match runner s with Locking | Publishing | Replaying _ => true | Calling | Returned => false end.

(** [turnIDSnapshot] is the id of the turn. *)
Definition turn_known (s : turn_order) : bool :=
  match runner s with Calling | Locking => false | _ => true end.

Section order.
Context (judge : nat -> verdict).

(** [acceptRetainedBeforeTerminalCompletion]: a run that is finished or has
    admitted the end of its turn drops what comes. *)
Definition accept (n : nat) (e : run_evidence) : run_evidence :=
  let dropped := match ended e with Some _ => true | None => terminalAdmitted e end in
  let kept := negb dropped && match judge n with Refused => false | _ => true end in
  {| offered := offered e ++ [n];
     refused := if negb dropped && match judge n with Refused => true | _ => false end then refused e ++ [n] else refused e;
     history := if kept then history e ++ [n] else history e;
     terminalAdmitted := terminalAdmitted e || (kept && match judge n with Ends => true | _ => false end);
     ended := ended e |}.

(** [resolveEvidence]: the [Once] of a saved notification. *)
Definition resolveEvidence (n : nat) (e : run_evidence) : run_evidence := if mem n (offered e) then e else accept n e.

Definition with_run (e : run_evidence) (s : turn_order) : turn_order := {|
  ingested := ingested s; in_hand := in_hand s; closed := closed s; snapshot := snapshot s; runner := runner s;
  tables := tables s; run := e |}.
Definition with_runner (p : runner_at) (s : turn_order) : turn_order := {|
  ingested := ingested s; in_hand := in_hand s; closed := closed s; snapshot := snapshot s; runner := p;
  tables := tables s; run := run s |}.
Definition with_tables (t : turn_tables) (s : turn_order) : turn_order := {|
  ingested := ingested s; in_hand := in_hand s; closed := closed s; snapshot := snapshot s; runner := runner s;
  tables := t; run := run s |}.
Definition with_snapshot (l : option (list nat)) (s : turn_order) : turn_order := {|
  ingested := ingested s; in_hand := in_hand s; closed := closed s; snapshot := l; runner := runner s;
  tables := tables s; run := run s |}.

(** The run is among the targets of a notification of the turn: a registered
    stream, or an attaching one whose turn is published. *)
Definition targeted (s : turn_order) : bool :=
  match registered (tables s) with Live => true | Attaching => turn_known s | Gone => false end.

(** The reader routes the next notification of the turn; without a target it is
    saved for the owner of the armed turn. *)
Definition route (s : turn_order) : turn_order := {|
  ingested := S (ingested s); in_hand := if targeted s then Some (ingested s) else None;
  closed := closed s; snapshot := snapshot s; runner := runner s;
  tables := {| registered := registered (tables s); armed := armed (tables s);
               pendingEvents := if negb (targeted s) && armed (tables s) then pendingEvents (tables s) ++ [ingested s]
                                else pendingEvents (tables s);
               replayingEvents := replayingEvents (tables s) |};
  run := run s |}.

(** The reader delivers it under the order mutex ([acceptOrderedBeforeTerminalCompletion]). *)
Definition deliver (n : nat) (s : turn_order) : turn_order := {|
  ingested := ingested s; in_hand := None; closed := closed s; snapshot := snapshot s; runner := runner s;
  tables := tables s; run := accept n (run s) |}.

(** The order mutex, and then [setTurn]. *)
Definition lock_order (s : turn_order) : turn_order := with_runner Locking s.
Definition set_turn (s : turn_order) : turn_order := with_runner Publishing s.

(** The critical section of [turnMu] in [attachExactStreamLocked]: a finished
    run is not published. *)
Definition publish (s : turn_order) : turn_order :=
  let t := tables s in
  match ended (run s) with
  | Some _ => with_runner Returned (with_tables {| registered := Gone; armed := false; pendingEvents := pendingEvents t;
                                                   replayingEvents := replayingEvents t |} s)
  | None => with_runner (Replaying (pendingEvents t))
              (with_tables {| registered := Live; armed := false; pendingEvents := []; replayingEvents := pendingEvents t |} s)
  end.

(** One turn of the replay loop, which ends at a refusal. *)
Definition replay (n : nat) (left_ : list nat) (s : turn_order) : turn_order :=
  let e := resolveEvidence n (run s) in
  with_runner (Replaying (if mem n (refused e) then [] else left_)) (with_run e s).

(** [finishExactPendingReplay] and the unlock. *)
Definition finish_replay (s : turn_order) : turn_order :=
  let t := tables s in
  with_runner Returned (with_tables {| registered := registered t; armed := armed t; pendingEvents := pendingEvents t;
                                       replayingEvents := [] |} s).

Definition claim (s : turn_order) : turn_order := {|
  ingested := ingested s; in_hand := in_hand s; closed := true; snapshot := snapshot s; runner := runner s;
  tables := tables s; run := run s |}.

(** The critical section of [turnMu] in [failAll]. *)
Definition take_snapshot (s : turn_order) : turn_order :=
  let t := tables s in
  with_snapshot (Some (pendingEvents t ++ replayingEvents t))
    (with_tables {| registered := registered t; armed := false; pendingEvents := []; replayingEvents := replayingEvents t |} s).

Definition commit (n : nat) (left_ : list nat) (s : turn_order) : turn_order :=
  with_snapshot (Some left_) (with_run (resolveEvidence n (run s)) s).

(** [finishState]: the first one counts. *)
Definition finish_run (why : ending) (s : turn_order) : turn_order :=
  let e := run s in
  with_run {| offered := offered e; refused := refused e; history := history e; terminalAdmitted := terminalAdmitted e;
              ended := match ended e with Some x => Some x | None => Some why end |} s.

(** [unregisterExactRun] *)
Definition unregister (s : turn_order) : turn_order :=
  let t := tables s in
  with_tables {| registered := Gone; armed := armed t; pendingEvents := pendingEvents t; replayingEvents := replayingEvents t |} s.

Inductive order_step (s : turn_order) : turn_order -> Prop :=
| step_route : closed s = false -> in_hand s = None -> order_step s (route s)
| step_deliver n : in_hand s = Some n -> order_locked s = false -> order_step s (deliver n s)
| step_lock : runner s = Calling -> order_step s (lock_order s)
| step_turn : runner s = Locking -> order_step s (set_turn s)
| step_publish : runner s = Publishing -> order_step s (publish s)
| step_replay n left_ : runner s = Replaying (n :: left_) -> order_step s (replay n left_ s)
| step_finish_replay : runner s = Replaying [] -> order_step s (finish_replay s)
| step_claim : order_step s (claim s)
| step_snapshot : closed s = true -> snapshot s = None -> order_step s (take_snapshot s)
| step_commit n left_ : snapshot s = Some (n :: left_) -> order_step s (commit n left_ s)
| step_fail : snapshot s = Some [] -> order_step s (finish_run ByFailure s)
| step_complete : terminalAdmitted (run s) = true -> order_step s (finish_run ByTerminal s)
| step_close : runner s = Returned -> order_step s (finish_run ByClose s)
| step_unregister : is_Some (ended (run s)) -> order_step s (unregister s).

(** * What a run records of what it is offered *)

Record recorded (e : run_evidence) : Prop := {
  rec_sublist : history e `sublist_of` offered e;
  rec_prefix : refused e = [] -> history e `prefix_of` offered e;
  rec_all : refused e = [] -> terminalAdmitted e = false -> ended e = None -> history e = offered e;
  rec_open : terminalAdmitted e = false -> Forall (fun n => judge n <> Ends) (history e);
  rec_last : terminalAdmitted e = true -> exists a t, history e = a ++ [t] /\ judge t = Ends /\ Forall (fun n => judge n <> Ends) a }.

Lemma accept_recorded n e : recorded e -> recorded (accept n e).
Proof.
  intros [Hs Hp Ha Ho Hl]. unfold accept. destruct (ended e) as [x|] eqn:Ee; cbn [negb andb].
  { rewrite orb_false_r. split; cbn; try done; [by apply sublist_inserts_r|]. intros Hr. by apply prefix_app_r, Hp. }
  destruct (terminalAdmitted e) eqn:Et; cbn [negb andb orb].
  { split; cbn; try done; [by apply sublist_inserts_r|]. intros Hr. by apply prefix_app_r, Hp. }
  destruct (judge n) eqn:Ej; cbn [andb orb]; split; cbn; try done.
  - by apply sublist_app.
  - intros Hr. by rewrite (Ha Hr).
  - intros Hr _ _. by rewrite (Ha Hr).
  - intros _. apply Forall_app. split; [by apply Ho|]. constructor; [congruence | done].
  - by apply sublist_app.
  - intros Hr. by rewrite (Ha Hr).
  - intros _. exists (history e), n. split_and!; [done | done | by apply Ho].
  - by apply sublist_inserts_r.
  - by intros [_ ?]%app_eq_nil.
  - by intros [_ ?]%app_eq_nil.
Qed.

Lemma resolve_recorded n e : recorded e -> recorded (resolveEvidence n e).
Proof. unfold resolveEvidence. destruct (mem n (offered e)); [done | apply accept_recorded]. Qed.

Lemma accept_ended n e : ended (accept n e) = ended e.
Proof. done. Qed.
Lemma resolve_ended n e : ended (resolveEvidence n e) = ended e.
Proof. unfold resolveEvidence. by destruct (mem _ _). Qed.
Lemma accept_refused n e : refused (accept n e) = [] -> refused e = [].
Proof. cbn. destruct (_ && _); [by intros [_ ?]%app_eq_nil | done]. Qed.
Lemma resolve_refused n e : refused (resolveEvidence n e) = [] -> refused e = [].
Proof. unfold resolveEvidence. destruct (mem _ _); [done | apply accept_refused]. Qed.

(** A finished run stays as it is. *)
Lemma accept_over n e : is_Some (ended e) ->
  history (accept n e) = history e /\ refused (accept n e) = refused e /\ terminalAdmitted (accept n e) = terminalAdmitted e.
Proof. intros [x Ex]. unfold accept. rewrite Ex. cbn. by rewrite orb_false_r. Qed.
Lemma resolve_over n e : is_Some (ended e) ->
  history (resolveEvidence n e) = history e /\ refused (resolveEvidence n e) = refused e /\
  terminalAdmitted (resolveEvidence n e) = terminalAdmitted e.
Proof. unfold resolveEvidence. destruct (mem n (offered e)); [done | apply accept_over]. Qed.

(** * The invariant *)

(** The first [m] notifications were saved; [k] of them and [j] live ones were
    offered.  A goroutine that traverses the saved ones has [tail_from] left:
    everything before what it has left was offered. *)
Definition tail_from (k m : nat) (l : list nat) : Prop := exists i, i <= k /\ i <= m /\ l = seq i (m - i).

(** In order, but for one live notification that was offered ahead of saved ones. *)
Definition offered_in_order (s : turn_order) (m k j : nat) : Prop :=
  offered (run s) = seq 0 k ++ seq m j \/
  closed s = true /\ in_hand s = None /\ j = 1 /\ exists i, i <= k /\ offered (run s) = seq 0 i ++ m :: seq i (k - i).

(** Where the runner is. *)
Definition runner_wf (s : turn_order) (m k j : nat) : Prop :=
  let t := tables s in
  match runner s with
  | Calling | Locking | Publishing =>
    registered t = Attaching /\ j = 0 /\ replayingEvents t = [] /\ (turn_known s = false -> in_hand s = None) /\
    (snapshot s = None -> armed t = true /\ pendingEvents t = seq 0 m /\ k = 0)
  | Replaying l =>
    registered t = Live /\ j = 0 /\ pendingEvents t = [] /\ (replayingEvents t = [] \/ replayingEvents t = seq 0 m) /\
    (l = [] \/ tail_from k m l) /\ (snapshot s = None -> replayingEvents t = seq 0 m) /\
    (refused (run s) = [] -> snapshot s = None -> tail_from k m l)
  | Returned =>
    registered t = Live /\ pendingEvents t = [] /\ replayingEvents t = [] /\
    (refused (run s) = [] -> snapshot s = None -> k = m)
  end.

Record open_wf (s : turn_order) (m k j : nat) : Prop := {
  wf_bound : k <= m;
  wf_offered : offered_in_order s m k j;
  wf_hand : match in_hand s with None => ingested s = m + j | Some n => n = m + j /\ ingested s = S n end;
  wf_runner : runner_wf s m k j;
  wf_snapshot : forall l, snapshot s = Some l -> closed s = true /\ pendingEvents (tables s) = [] /\
    (l = [] \/ (tail_from k m l /\ ingested s <= S m)) /\ (refused (run s) = [] -> tail_from k m l) }.

(** The evidence is in the order it was ingested; after the client was closed,
    the last notification may stand ahead of some before it. *)
Definition in_order (s : turn_order) : Prop :=
  StronglySorted lt (history (run s)) \/
  closed s = true /\ exists a b, history (run s) = a ++ pred (ingested s) :: b /\ StronglySorted lt (a ++ b ++ [pred (ingested s)]).

Record done_wf (s : turn_order) : Prop := {
  done_order : in_order s;
  done_gapless : closed s = false -> refused (run s) = [] -> history (run s) = seq 0 (length (history (run s)));
  done_failed : ended (run s) = Some ByFailure -> closed s = true /\
    (refused (run s) = [] -> terminalAdmitted (run s) = false -> forall n, S n < ingested s -> n ∈ history (run s)) }.

Definition order_wf (s : turn_order) : Prop :=
  recorded (run s) /\ match ended (run s) with None => exists m k j, open_wf s m k j | Some _ => done_wf s end.

(** * Lists of consecutive numbers *)

Lemma seq_snoc_from i k : i <= k -> seq i (k - i) ++ [k] = seq i (S k - i).
Proof. intros Hi. rewrite (Nat.sub_succ_l i k Hi), seq_S. by replace (i + (k - i)) with k by lia. Qed.

Lemma tail_cons k m n l : tail_from k m (n :: l) -> n <= k /\ n < m /\ l = seq (S n) (m - S n).
Proof.
  intros (i & Hk & Hm & Hl). destruct (m - i) as [|x] eqn:E; simpl in Hl; [done|].
  injection Hl as -> ->. split; [done|]. split; [lia|]. f_equal. lia.
Qed.
Lemma tail_nil k m : tail_from k m [] -> m <= k.
Proof. intros (i & Hk & Hm & Hl). destruct (m - i) eqn:E; simpl in Hl; [lia | done]. Qed.
Lemma tail_mono k k' m l : k <= k' -> tail_from k m l -> tail_from k' m l.
Proof. intros Hk (i & ? & ? & ?). exists i. split; [lia | done]. Qed.
Lemma tail_all k m : tail_from k m (seq 0 m).
Proof. exists 0. rewrite Nat.sub_0_r. split_and!; [lia | lia | done]. Qed.
Lemma tail_here i m k : i <= k -> i <= m -> tail_from k m (seq i (m - i)).
Proof. intros ? ?. by exists i. Qed.

Lemma sorted_seq i n : StronglySorted lt (seq i n).
Proof.
  revert i. induction n as [|n IH]; intros i; cbn; constructor; [apply IH|]. apply Forall_forall. intros x Hx%elem_of_seq. lia.
Qed.
Lemma sorted_sublist (l l' : list nat) : l `sublist_of` l' -> StronglySorted lt l' -> StronglySorted lt l.
Proof.
  induction 1 as [|x l l' Hs IH|x l l' Hs IH]; intros Hl; [constructor| |]; inversion Hl as [|? ? Hl' Hx]; subst; [|by apply IH].
  constructor; [by apply IH|]. apply Forall_forall. intros y Hy. rewrite Forall_forall in Hx. apply Hx.
  by apply (sublist_subseteq _ _ Hs).
Qed.
Lemma sorted_two a n b m : a + n <= b -> StronglySorted lt (seq a n ++ seq b m).
Proof.
  intros Hb. revert a Hb. induction n as [|n IH]; intros a Hb; [apply sorted_seq|]. cbn. constructor; [apply IH; lia|].
  apply Forall_app. split; apply Forall_forall; intros x Hx%elem_of_seq; lia.
Qed.

(** What is left of a list in which one element stands ahead. *)
Lemma displaced_sublist l i k m : i <= k -> k <= m -> l `sublist_of` seq 0 i ++ m :: seq i (k - i) ->
  StronglySorted lt l \/ exists a b, l = a ++ m :: b /\ StronglySorted lt (a ++ b ++ [m]).
Proof.
  intros Hi Hk (a & b & -> & Ha & Hb)%sublist_app_r. apply sublist_cons_r in Hb as [Hb|(b' & -> & Hb)].
  - left. apply (sorted_sublist _ (seq 0 i ++ seq i (k - i))); [by apply sublist_app | apply sorted_two; lia].
  - right. exists a, b'. split; [done|].
    apply (sorted_sublist _ (seq 0 i ++ (seq i (k - i) ++ seq m 1))); [apply sublist_app; [done|]; by apply sublist_app|].
    rewrite app_assoc, <- seq_app. replace (i + (k - i)) with k by lia. apply sorted_two. lia.
Qed.

Lemma prefix_of_seq (l : list nat) n : l `prefix_of` seq 0 n -> l = seq 0 (length l).
Proof.
  intros [u E]. assert (length l <= n) as Hl.
  { apply (f_equal length) in E. rewrite length_seq, length_app in E. lia. }
  replace n with (length l + (n - length l)) in E by lia. rewrite seq_app in E.
  apply app_inj_1 in E as [E _]; [done | by rewrite length_seq].
Qed.

(** * Steps of an open run *)

Lemma order_open s m k j : k <= m -> offered_in_order s m k j -> recorded (run s) ->
  match in_hand s with None => ingested s = m + j | Some n => n = m + j /\ ingested s = S n end -> in_order s.
Proof.
  intros Hk Ho [Hs _ _ _ _] Hh. destruct Ho as [Ho | (Hc & Hno & -> & i & Hi & Ho)]; rewrite Ho in Hs.
  - left. eapply sorted_sublist; [exact Hs|]. apply sorted_two. lia.
  - rewrite Hno in Hh. apply displaced_sublist in Hs as [Hs | (a & b & Hs & Hsort)]; [by left | | done..].
    right. split; [done|]. exists a, b. replace (pred (ingested s)) with m by lia. done.
Qed.

Lemma offered_mem s m k j n : offered_in_order s m k j -> k <= m -> n < m -> n ∈ offered (run s) <-> n < k.
Proof.
  intros [-> | (_ & _ & -> & i & Hi & ->)] Hk Hn; rewrite ?elem_of_app, ?elem_of_cons, !elem_of_seq; lia.
Qed.

(** Committing the next saved notification, whoever does it, while at most one
    live one was offered. *)
Lemma resolve_offered s m k j n : offered_in_order s m k j -> k <= m -> n <= k -> n < m ->
  (j = 0 \/ (closed s = true /\ in_hand s = None /\ j = 1)) ->
  exists k', k <= k' /\ k' <= m /\ S n <= k' /\
    (offered (resolveEvidence n (run s)) = seq 0 k' ++ seq m j \/
     closed s = true /\ in_hand s = None /\ j = 1 /\ exists i, i <= k' /\ offered (resolveEvidence n (run s)) = seq 0 i ++ m :: seq i (k' - i)).
Proof.
  intros Ho Hk Hn Hm Hj. pose proof (offered_mem s m k j n Ho Hk Hm) as Hmem. unfold resolveEvidence.
  destruct (mem n (offered (run s))) eqn:E.
  - apply mem_true, Hmem in E. exists k. split_and!; [lia..|]. exact Ho.
  - apply mem_false in E. assert (n = k) as -> by (destruct (decide (n < k)); [tauto | lia]).
    exists (S k). split_and!; [lia..|]. cbn [accept offered]. destruct Ho as [-> | (Hc & Hno & -> & i & Hi & ->)].
    + destruct Hj as [-> | (Hc & Hno & ->)]; [left; by rewrite !app_nil_r, seq_S|].
      right. split_and!; [done..|]. exists k. split; [lia|]. rewrite <- app_assoc. f_equal. cbn. f_equal.
      rewrite <- seq_snoc_from, Nat.sub_diag by lia. done.
    + right. split_and!; [done..|]. exists i. split; [lia|]. rewrite <- app_assoc. f_equal. cbn. f_equal. by apply seq_snoc_from.
Qed.

Section steps.
Context (s : turn_order) (m k j : nat) (Hopen : ended (run s) = None) (Hwf : open_wf s m k j).

Lemma route_wf : closed s = false -> in_hand s = None -> exists m' k' j', open_wf (route s) m' k' j'.
Proof.
  destruct Hwf as [Hk Ho Hh Hr Hs]. intros Hcl Hno. rewrite Hno in Hh.
  assert (snapshot s = None) as Hsn by (destruct (snapshot s) as [l|] eqn:E; [destruct (Hs l eq_refl); congruence | done]).
  assert (offered (run s) = seq 0 k ++ seq m j) as Ho' by (destruct Ho as [?|[? _]]; [done | congruence]).
  destruct (targeted s) eqn:Et.
  - exists m, k, j. split; [done | by left | cbn; rewrite Et; lia | | cbn; rewrite Hsn; done].
    assert (runner s <> Calling /\ runner s <> Locking) as [Hc1 Hc2].
    { unfold runner_wf, targeted, turn_known in *. destruct (runner s); split; try done; destruct Hr as [E _]; by rewrite E in Et. }
    unfold runner_wf, turn_known in *. cbn. rewrite Et. cbn. destruct (runner s); [done | done | | exact Hr | exact Hr].
    destruct Hr as (? & ? & ? & _ & ?). by split_and!.
  - assert (runner s = Calling \/ runner s = Locking) as Hc.
    { unfold runner_wf, targeted, turn_known in *. destruct (runner s); auto; destruct Hr as [E _]; rewrite E in Et; done. }
    unfold runner_wf in Hr. assert (registered (tables s) = Attaching /\ j = 0 /\ replayingEvents (tables s) = [] /\
      (turn_known s = false -> in_hand s = None) /\ (snapshot s = None -> armed (tables s) = true /\ pendingEvents (tables s) = seq 0 m /\ k = 0))
      as (Hat & -> & Hrt & _ & Hfresh) by (destruct Hc as [E|E]; rewrite E in Hr; exact Hr).
    destruct (Hfresh Hsn) as (Ha & Hp & ->). exists (S m), 0, 0.
    split; [lia | left; cbn; by rewrite Ho' | cbn; rewrite Et; lia | | cbn; rewrite Hsn; done].
    assert (forall p, p = Calling \/ p = Locking -> runner s = p -> runner_wf (route s) (S m) 0 0) as Hw; [|destruct Hc as [E|E]; eauto].
    intros p Hp' E. unfold runner_wf, turn_known. cbn. rewrite E. destruct Hp' as [-> | ->];
      (split_and!; [done.. | by intros _; rewrite Et | intros _; rewrite Et, Ha, Hp; cbn; split_and!; [done | | done];
        rewrite Hh, Nat.add_0_r; by rewrite <- seq_S]).
Qed.

Lemma deliver_wf n : in_hand s = Some n -> order_locked s = false -> exists m' k' j', open_wf (deliver n s) m' k' j'.
Proof.
  destruct Hwf as [Hk Ho Hh Hr Hs]. intros Hn Hlk. rewrite Hn in Hh. destruct Hh as [-> Hi].
  assert (runner s = Returned) as Hret.
  { unfold order_locked, runner_wf, turn_known in *. destruct (runner s); try done. destruct Hr as (_ & _ & _ & Hno & _). by rewrite Hno in Hn. }
  assert (offered (run s) = seq 0 k ++ seq m j) as Ho' by (destruct Ho as [?|(_ & ? & _)]; [done | congruence]).
  exists m, k, (S j). split; [done | left; change (offered (run s) ++ [m + j] = seq 0 k ++ seq m (S j)); by rewrite Ho', seq_S, app_assoc | cbn; lia | |].
  - unfold runner_wf in *. cbn. rewrite Hret in *. destruct Hr as (? & ? & ? & Hr). split_and!; [done..|].
    intros Hrf%(accept_refused (m + j) (run s)). by apply Hr.
  - cbn -[accept]. intros l Hl. destruct (Hs l Hl) as (? & ? & ? & Ht).
    split_and!; [done..|]. intros Hrf%accept_refused. by apply Ht.
Qed.

Lemma publish_wf : runner s = Publishing -> exists m' k' j', open_wf (publish s) m' k' j'.
Proof.
  destruct Hwf as [Hk Ho Hh Hr Hs]. intros Hp. exists m, k, j. unfold publish. rewrite Hopen.
  unfold runner_wf in Hr. rewrite Hp in Hr. destruct Hr as (Hat & -> & Hrt & _ & Hfresh).
  assert (pendingEvents (tables s) = [] \/ pendingEvents (tables s) = seq 0 m) as Hpe.
  { destruct (snapshot s) as [l|]; [left; by destruct (Hs l eq_refl) as (_ & ? & _) | right; by apply Hfresh]. }
  split; [done.. | | cbn; intros l Hl; destruct (Hs l Hl) as (? & ? & ? & ?); by split_and!].
  unfold runner_wf. cbn. split_and!; [done..| | |].
  - destruct Hpe as [->| ->]; [by left | right; apply tail_all].
  - intros Hn. by apply Hfresh.
  - intros _ Hn. destruct (Hfresh Hn) as (_ & -> & _). apply tail_all.
Qed.

Lemma replay_wf n l : runner s = Replaying (n :: l) -> exists m' k' j', open_wf (replay n l s) m' k' j'.
Proof.
  destruct Hwf as [Hk Ho Hh Hr Hs]. intros Hp. unfold runner_wf in Hr. rewrite Hp in Hr.
  destruct Hr as (Hlv & -> & Hpe & Hrt & Hl & Hsn & Htl). destruct Hl as [?|(Hn & Hm & ->)%tail_cons]; [done|].
  destruct (resolve_offered s m k 0 n Ho Hk Hn Hm) as (k' & Hk1 & Hk2 & Hk3 & Ho'); [by left|].
  exists m, k', 0. split; [done | exact Ho' | exact Hh | |].
  - unfold runner_wf. cbn. split_and!; [done..| | done |].
    + destruct (mem n _); [by left | right; by apply tail_here].
    + intros Hrf _. destruct (mem n _) eqn:E; [apply mem_true in E; rewrite Hrf in E; by apply not_elem_of_nil in E | by apply tail_here].
  - cbn. intros l' Hl'. destruct (Hs l' Hl') as (? & ? & Ht & Hrf). split_and!; [done..| |].
    + destruct Ht as [?|[? ?]]; [by left | right]. split; [by apply (tail_mono k) | done].
    + intros Hrf'%resolve_refused. apply (tail_mono k); [done | by apply Hrf].
Qed.

Lemma finish_replay_wf : runner s = Replaying [] -> exists m' k' j', open_wf (finish_replay s) m' k' j'.
Proof.
  destruct Hwf as [Hk Ho Hh Hr Hs]. intros Hp. unfold runner_wf in Hr. rewrite Hp in Hr.
  destruct Hr as (Hlv & -> & Hpe & Hrt & _ & Hsn & Htl). exists m, k, 0. split; [done..| | exact Hs].
  unfold runner_wf. cbn. split_and!; [done..|]. intros Hrf Hn. pose proof (tail_nil _ _ (Htl Hrf Hn)). lia.
Qed.

Lemma snapshot_wf : closed s = true -> snapshot s = None -> exists m' k' j', open_wf (take_snapshot s) m' k' j'.
Proof.
  destruct Hwf as [Hk Ho Hh Hr Hs]. intros Hcl Hn. exists m, k, j.
  assert ((pendingEvents (tables s) ++ replayingEvents (tables s) = [] \/ (pendingEvents (tables s) ++ replayingEvents (tables s) = seq 0 m /\ j = 0)) /\
    (refused (run s) = [] -> tail_from k m (pendingEvents (tables s) ++ replayingEvents (tables s)))) as [Hl Hrf].
  { unfold runner_wf in Hr. destruct (runner s).
    1-3: destruct Hr as (_ & -> & -> & _ & Hfresh); destruct (Hfresh Hn) as (_ & -> & _); rewrite app_nil_r;
      split; [by right | intros _; apply tail_all].
    - destruct Hr as (_ & -> & -> & _ & _ & Hsn & _). rewrite (Hsn Hn). split; [by right | intros _; apply tail_all].
    - destruct Hr as (_ & -> & -> & Hkm). split; [by left|]. intros Hrf. rewrite (Hkm Hrf Hn).
      pose proof (tail_here m m m) as Ht. rewrite Nat.sub_diag in Ht. by apply Ht. }
  split; [done..| |].
  - unfold runner_wf in *. cbn. destruct (runner s); cbn in *; try (by destruct Hr as (? & ? & ? & ? & _)).
    + destruct Hr as (? & ? & ? & ? & ? & ? & ?). by split_and!.
    + destruct Hr as (? & ? & ? & ?). by split_and!.
  - cbn. intros l [= <-]. split_and!; [done | done | | exact Hrf].
    destruct Hl as [->|[-> ->]]; [by left | right]. split; [apply tail_all|]. destruct (in_hand s); lia.
Qed.

Lemma commit_wf n l : snapshot s = Some (n :: l) -> exists m' k' j', open_wf (commit n l s) m' k' j'.
Proof.
  destruct Hwf as [Hk Ho Hh Hr Hs]. intros Hl. destruct (Hs _ Hl) as (Hcl & Hpe & [?|[Ht Hi]] & _); [done|].
  apply tail_cons in Ht as (Hn & Hm & ->).
  destruct (resolve_offered s m k j n Ho Hk Hn Hm) as (k' & Hk1 & Hk2 & Hk3 & Ho').
  { destruct (decide (j = 0)); [by left | right]. destruct (in_hand s); [lia|]. split_and!; [done | done | lia]. }
  exists m, k', j. split; [done | exact Ho' | exact Hh | |].
  - unfold runner_wf in *. cbn. destruct (runner s); cbn in *; try (by destruct Hr as (? & ? & ? & ? & _)).
    + destruct Hr as (? & ? & ? & ? & Htl & _). split_and!; try done.
      destruct Htl as [?|?]; [by left | right; by apply (tail_mono k)].
    + destruct Hr as (? & ? & ? & ?). by split_and!.
  - cbn. intros l [= <-]. split_and!; [done | done | right; split; [by apply tail_here | done] | intros _; by apply tail_here].
Qed.

Lemma finish_wf why : recorded (run s) -> (why = ByFailure -> snapshot s = Some []) -> done_wf (finish_run why s).
Proof.
  destruct Hwf as [Hk Ho Hh Hr Hs]. intros Hrec Hwhy. split.
  - exact (order_open s m k j Hk Ho Hrec Hh).
  - cbn. intros Hcl Hrf. destruct Ho as [Ho|[? _]]; [|congruence]. pose proof (rec_prefix _ Hrec Hrf) as Hp. rewrite Ho in Hp.
    assert (snapshot s = None) as Hsn by (destruct (snapshot s) as [l|] eqn:E; [destruct (Hs l eq_refl); congruence | done]).
    assert (j = 0 \/ k = m) as Hj by (unfold runner_wf in Hr; destruct (runner s); [left; apply Hr..| right; by apply Hr]).
    apply (prefix_of_seq _ (k + j)). rewrite seq_app. destruct Hj as [->| ->]; [by rewrite app_nil_r in *|done].
  - cbn. rewrite Hopen. intros [= ->]. destruct (Hs [] (Hwhy eq_refl)) as (Hcl & _ & _ & Ht). split; [done|].
    intros Hrf Hadm n Hn. rewrite (rec_all _ Hrec Hrf Hadm Hopen). pose proof (tail_nil _ _ (Ht Hrf)) as Hm.
    assert (n < m + j) by (destruct (in_hand s); lia).
    destruct Ho as [-> | (_ & _ & -> & i & Hi & ->)]; rewrite !elem_of_app, ?elem_of_cons, !elem_of_seq; lia.
Qed.
End steps.

Lemma done_kept s s' : done_wf s -> history (run s') = history (run s) -> refused (run s') = refused (run s) ->
  terminalAdmitted (run s') = terminalAdmitted (run s) -> ended (run s') = ended (run s) ->
  (closed s = true -> closed s' = true /\ ingested s' = ingested s) -> done_wf s'.
Proof.
  intros [Hord Hgap Hfail] E1 E2 E3 E4 Hc. split.
  - unfold in_order in *. rewrite E1. destruct Hord as [?|[Hcl Hd]]; [by left | right]. destruct (Hc Hcl) as [-> ->]. by split.
  - rewrite E1, E2. intros Hcl. apply Hgap. destruct (closed s); [destruct (Hc eq_refl); congruence | done].
  - rewrite E1, E2, E3, E4. intros Hf. destruct (Hfail Hf) as [Hcl Hn]. destruct (Hc Hcl) as [-> ->]. by split.
Qed.

Lemma order_step_wf s s' : order_wf s -> order_step s s' -> order_wf s'.
Proof.
  intros [Hrec Hwf] Hstep. split.
  { destruct Hstep; cbn; try done; try by apply accept_recorded.
    - unfold publish. by destruct (ended (run s)).
    - by apply resolve_recorded.
    - by apply resolve_recorded.
    - destruct Hrec as [? ? Ha ? ?]. split; cbn; try done. by destruct (ended (run s)).
    - destruct Hrec as [? ? Ha ? ?]. split; cbn; try done. by destruct (ended (run s)).
    - destruct Hrec as [? ? Ha ? ?]. split; cbn; try done. by destruct (ended (run s)). }
  destruct (ended (run s)) as [x|] eqn:Hend.
  - (* a finished run only drops evidence *)
    assert (is_Some (ended (run s))) as Hover by by rewrite Hend.
    assert (ended (run s') = Some x) as ->.
    { destruct Hstep; cbn; rewrite ?Hend; try done; rewrite ?resolve_ended; try done. unfold publish. rewrite Hend. done. }
    pose proof (fun n => accept_over n _ Hover) as Hacc. pose proof (fun n => resolve_over n _ Hover) as Hres.
    destruct Hstep; apply (done_kept s); cbn; try done; try (by apply Hacc); try (by apply Hres); try (by rewrite ?resolve_ended);
      try (by rewrite Hend); try (unfold publish; by rewrite Hend); congruence.
  - destruct Hwf as (m & k & j & Hwf).
    assert (forall s1, ended (run s1) = None -> (exists m k j, open_wf s1 m k j) ->
      match ended (run s1) with None => exists m k j, open_wf s1 m k j | Some _ => done_wf s1 end) as Hgo by by intros s1 ->.
    destruct Hstep; [..|by destruct H as [? ?]; congruence].
    + apply Hgo; [done|]. by apply (route_wf s m k j).
    + apply Hgo; [done|]. by apply (deliver_wf s m k j).
    + apply Hgo; [done|]. exists m, k, j. destruct Hwf as [? ? ? Hr ?]. split; try done. unfold runner_wf, turn_known in *.
      rewrite H in Hr. done.
    + apply Hgo; [done|]. exists m, k, j. destruct Hwf as [? ? ? Hr ?]. split; try done. unfold runner_wf, turn_known in *.
      rewrite H in Hr. cbn. by destruct Hr as (? & ? & ? & ? & ?).
    + apply Hgo; [unfold publish; by rewrite Hend|]. by apply (publish_wf s m k j).
    + apply Hgo; [cbn; by rewrite resolve_ended|]. by apply (replay_wf s m k j).
    + apply Hgo; [done|]. by apply (finish_replay_wf s m k j).
    + apply Hgo; [done|]. exists m, k, j. destruct Hwf as [? Ho ? ? Hs]. split; try done.
      * destruct Ho as [?|(_ & ?)]; [by left | by right].
      * cbn. intros l Hl. destruct (Hs l Hl) as (_ & ?). by split.
    + apply Hgo; [done|]. by apply (snapshot_wf s m k j).
    + apply Hgo; [cbn; by rewrite resolve_ended|]. by apply (commit_wf s m k j).
    + cbn. rewrite Hend. by apply (finish_wf s m k j).
    + cbn. rewrite Hend. by apply (finish_wf s m k j).
    + cbn. rewrite Hend. by apply (finish_wf s m k j).
Qed.

Lemma initial_order_wf : order_wf initial_order.
Proof.
  split; [split; cbn; try done; constructor|]. exists 0, 0, 0. split; cbn; try done. by left.
Qed.

Lemma order_reachable_wf s : rtc order_step initial_order s -> order_wf s.
Proof.
  intros Hr. pose proof initial_order_wf as Hi. revert Hi. induction Hr; eauto using order_step_wf.
Qed.

Lemma sorted_nodup (l : list nat) : StronglySorted lt l -> NoDup l.
Proof.
  induction 1 as [|x l Hs IH Hx]; constructor; [|done]. intros Hin. rewrite Forall_forall in Hx. specialize (Hx _ Hin). lia.
Qed.

Lemma in_order_nodup s : in_order s -> NoDup (history (run s)).
Proof.
  intros [Hs|(_ & a & b & -> & Hs)]; [by apply sorted_nodup|]. apply sorted_nodup in Hs.
  assert (a ++ pred (ingested s) :: b ≡ₚ a ++ b ++ [pred (ingested s)]) as ->; [|done].
  by rewrite (Permutation_app_comm b).
Qed.

(** The end of the turn is the last thing a run records. *)
Lemma nothing_after e : recorded e -> forall a t b, history e = a ++ t :: b -> judge t = Ends -> b = [].
Proof.
  intros [_ _ _ Ho Hl] a t b Hh Ht. destruct (terminalAdmitted e).
  - destruct (Hl eq_refl) as (c & u & Hc & _ & Hall). rewrite Hc in Hh. destruct b as [|y b _] using rev_ind; [done|].
    rewrite app_comm_cons, app_assoc in Hh. apply app_inj_tail in Hh as [-> _]. rewrite Forall_forall in Hall.
    destruct (Hall t); [|done]. apply elem_of_app. right. by left.
  - specialize (Ho eq_refl). rewrite Hh, Forall_forall in Ho. destruct (Ho t); [|done]. apply elem_of_app. right. by left.
Qed.

Lemma idle_offered s m k j : open_wf s m k j -> closed s = false -> runner s = Returned -> in_hand s = None ->
  refused (run s) = [] -> offered (run s) = seq 0 (ingested s).
Proof.
  intros [Hk Ho Hh Hr Hs] Hc Hret Hno Hrf. rewrite Hno in Hh. unfold runner_wf in Hr. rewrite Hret in Hr.
  assert (snapshot s = None) as Hsn by (destruct (snapshot s) as [l|] eqn:E; [destruct (Hs l eq_refl); congruence | done]).
  destruct Hr as (_ & _ & _ & Hkm). rewrite (Hkm Hrf Hsn) in *. destruct Ho as [->|[? _]]; [|congruence].
  rewrite Hh. by rewrite seq_app.
Qed.

(** C3: whatever the interleaving of the reader, the attaching runner, the
    goroutine that fails the client and the ends of the run: what the run records
    of the notifications of its turn is in the order they were ingested, without
    repetition, except that after the client was closed the last one ingested may
    stand ahead of saved ones ([overtaken]).  As long as the client is open and
    the run refused nothing there is no gap.  Nothing follows the end of the turn.
    A failure loses at most the last notification, unless the run refused one or
    had admitted the end of its turn; and with the run attached, the reader idle
    and the client open, everything ingested is recorded. *)
Theorem evidence_in_order (s : turn_order) (Hreach : rtc order_step initial_order s) :
  in_order s /\ NoDup (history (run s)) /\
  (closed s = false -> refused (run s) = [] -> history (run s) = seq 0 (length (history (run s)))) /\
  (forall a t b, history (run s) = a ++ t :: b -> judge t = Ends -> b = []) /\
  (ended (run s) = Some ByFailure -> closed s = true /\
   (refused (run s) = [] -> terminalAdmitted (run s) = false -> forall n, S n < ingested s -> n ∈ history (run s))) /\
  (ended (run s) = None -> closed s = false -> runner s = Returned -> in_hand s = None -> refused (run s) = [] ->
   terminalAdmitted (run s) = false -> history (run s) = seq 0 (ingested s)).
Proof.
  destruct (order_reachable_wf s Hreach) as [Hrec Hwf]. assert (in_order s /\
    (closed s = false -> refused (run s) = [] -> history (run s) = seq 0 (length (history (run s)))) /\
    (ended (run s) = Some ByFailure -> closed s = true /\
     (refused (run s) = [] -> terminalAdmitted (run s) = false -> forall n, S n < ingested s -> n ∈ history (run s)))) as (H1 & H2 & H3).
  { destruct (ended (run s)) eqn:E; [destruct Hwf as [? ? Hf]; by rewrite E in Hf|]. destruct Hwf as (m & k & j & Hw).
    destruct (finish_wf s m k j E Hw ByClose Hrec) as [? ? _]; [done|]. by split_and!. }
  split; [done|]. split; [by apply in_order_nodup|]. split; [done|].
  split; [intros a t b Hh Ht; by apply (nothing_after _ Hrec a t) | split; [done|]].
  intros E Hc Hret Hno Hrf Had. rewrite (rec_all _ Hrec Hrf Had E). rewrite E in Hwf. destruct Hwf as (m & k & j & Hw).
  by apply (idle_offered s m k j).
Qed.
End order.

(** * A notification that overtakes the saved ones *)

(** Two notifications are saved; the runner locks the order and publishes the
    turn; the third is routed to the attaching run, and waits for the order; the
    client fails and takes the saved ones away; the runner has nothing to replay
    and unlocks.  The third is recorded before the failing goroutine commits the
    two it holds. *)
Definition overtaken (judge : nat -> verdict) : turn_order :=
  commit judge 1 [] (commit judge 0 [1] (deliver judge 2 (finish_replay (publish (take_snapshot (claim
    (route (set_turn (lock_order (route (route initial_order))))))))))).

Lemma overtaken_reachable judge : rtc (order_step judge) initial_order (overtaken judge).
Proof.
  assert (forall x y z, rtc (order_step judge) x y -> order_step judge y z -> rtc (order_step judge) x z) as Hr by apply rtc_r.
  unfold overtaken. do 12 (eapply Hr; [|first [apply step_commit | apply step_deliver | apply step_finish_replay | apply step_publish |
    apply step_snapshot | apply step_claim | apply step_turn | apply step_lock | apply step_route]; reflexivity]). reflexivity.
Qed.

(** The run records the third notification first; and when that one ends the
    turn, the two that were saved are lost. *)
Lemma saved_evidence_overtaken :
  rtc (order_step (fun _ => Kept)) initial_order (overtaken (fun _ => Kept)) /\
  history (run (overtaken (fun _ => Kept))) = [2; 0; 1] /\
  (let judge := fun n => if decide (n = 2) then Ends else Kept in
   rtc (order_step judge) initial_order (overtaken judge) /\ history (run (overtaken judge)) = [2]).
Proof. split_and!; [apply overtaken_reachable | reflexivity | split; [apply overtaken_reachable | reflexivity]]. Qed.

(** The failing goroutine commits a saved notification while the runner replays
    it, and finishes the run while the reader holds the third. *)
Definition raced_order : turn_order :=
  let judge := fun _ : nat => Kept in
  finish_run ByFailure (commit judge 1 [] (replay judge 1 [] (commit judge 0 [1] (replay judge 0 [1]
    (take_snapshot (claim (route (publish (set_turn (lock_order (route (route initial_order)))))))))))).

Lemma raced_order_reachable : rtc (order_step (fun _ => Kept)) initial_order raced_order.
Proof.
  assert (forall x y z, rtc (order_step (fun _ => Kept)) x y -> order_step (fun _ => Kept) y z -> rtc (order_step (fun _ => Kept)) x z)
    as Hr by apply rtc_r.
  unfold raced_order. do 13 (eapply Hr; [|first [apply step_fail | apply step_commit | apply step_replay | apply step_publish |
    apply step_snapshot | apply step_claim | apply step_turn | apply step_lock | apply step_route]; reflexivity]). reflexivity.
Qed.

Lemma evidence_in_order_witness :
  history (run raced_order) = [0; 1] /\ ingested raced_order = 3 /\ 1 ∈ history (run raced_order).
Proof.
  split; [reflexivity|]. split; [reflexivity|].
  apply (evidence_in_order (fun _ => Kept) raced_order raced_order_reachable); first [reflexivity | cbn; lia].
Defined.
