(* ===== verification/Client.v ===== *)
(** The routing core of the client: [src/codexsdk/client.go] with
    [notification_dispatch.go] and [raw_notification.go].

    [client] is the state the transport, the runners and the dispatcher share:
    the life of [Lifecycle], the retention budget, the runs, the routing tables
    guarded by [turnMu], the evidence of saved notifications, the queue of the
    dispatcher and the pending calls of [Pending].  A handler is a function in
    [M], a state monad in which [None] is a Go panic.  A handler runs from its
    first to its last critical section without interruption; what interleaving
    does to its sections is [Order]'s and [Pending]'s subject.  The waits
    ([awaitCloseCausePublication], [awaitEvidenceHandler]) only delay, and are
    left out. *)

From S2P Require Import Prelude GoStrings Json JsonLex Envelope Retention Pending Lifecycle Protocol Run.
From Stdlib Require Import ZArith.

Local Open Scope string_scope.
Local Open Scope list_scope.

Definition ErrNotificationBackpressure : error := Sentinel "codexsdk: notification backpressure".
Definition errConcurrentTurnStart : error :=
  Sentinel "codexsdk: turn/start is already attaching for thread".
Definition ErrRawNotificationDecode : error := Sentinel "codexsdk: required raw notification invalid".
Definition ErrRawNotificationDelivery : error :=
  Sentinel "codexsdk: required raw notification delivery failed".
Definition ErrHandlerFailed : error := Sentinel "codexsdk: handler failed".
Definition RawResponseItemCompletedExtension := "rawResponseItem/completed".
Definition MethodThreadStart := "thread/start".
Definition MethodThreadResume := "thread/resume".
Definition MethodTurnStart := "turn/start".

Record RawNotification := {
  raw_Method : string; raw_ThreadID : string; raw_TurnID : string; raw_Envelope : JSONValue
}.

(** * State *)

(** A saved notification and its evidence, an address of [evidence]. *)
Record rpcNotification := {
  envelope : option any_map;
  method : string;
  params : option any_map;
  evidence : option nat;
  n_retained : lease
}.

(** [notificationEvidence]: [e_once] is the [Once]; [e_dispatched] is the fence
    channel, if any, and whether it is closed. *)
Record notificationEvidence := {
  e_state : nat;
  e_once : bool;
  e_dispatched : option bool;
  e_completion : option (option error);
  e_err : option error
}.

(** What a pending call was made for. *)
Record exactCallIntent := { intent_thread : bool; intent_turn : option nat }.
Record pendingCall := {
  call_exact : exactCallIntent; call_method : string; call_validate : any_map -> option error
}.

Section client.
Context {PT : ProtocolTypes} {Response : Type}.
(** The jsonschema validator of the raw item extension, and what [reflect]
    shows of a raw notification. *)
Context (validate_raw_item : option any_map -> bool) (reflect_raw : RawNotification -> rvalue).

(** A terminal completion: the run to finish, and its error. *)
Definition completion := (nat * option error)%type.

Record acceptedNotification := {
  a_raw : option RawNotification;
  a_notification : option ServerNotification;
  a_evidence : option nat;
  a_retained : lease;
  a_completions : list completion
}.

(** The tables guarded by [turnMu]. *)
Record tables := {
  exactStreams : gmap string (list nat);
  exactAttaching : gmap string (list nat);
  pendingEvents : gmap string (list rpcNotification);
  armedThreadAttach : list string;
  armedTurnAttach : gmap string nat;
  pendingThread : gmap string (list (ServerNotification * lease));
  replayingEvents : gmap nat (list rpcNotification);
  pendingDiagnostics : gmap string (list (DiagnosticRef * lease));
  attachmentRetention : gmap string lease
}.

Record client := {
  hasServerHandler : bool;
  rawMethods : option (list string);
  queue_capacity : nat;
  c_life : life;
  retention : notificationRetention;
  runs : gmap nat (exactRunState Response);
  c_tables : tables;
  evidences : gmap nat notificationEvidence;
  next_evidence : nat;
  queue : list acceptedNotification;
  c_calls : calls any_map;
  call_data : gmap string pendingCall
}.

Definition hasNotificationHandler (c : client) : bool :=
  hasServerHandler c || match rawMethods c with Some _ => true | None => false end.

Definition requiresRawNotification (c : client) (m : string) : bool :=
  match rawMethods c with Some l => mem m l | None => false end.

(** * The monad *)

Definition M (A : Type) : Type := client -> option (A * client).
#[global] Instance M_ret : MRet M := fun A a c => Some (a, c).
#[global] Instance M_bind : MBind M := fun A B f m c =>
  match m c with Some (a, c') => f a c' | None => None end.

Definition get : M client := fun c => Some (c, c).
Definition skip : M unit := mret tt.
Definition gets {A} (f : client -> A) : M A := fun c => Some (f c, c).

Definition mk_client (c : client) (l : life) (r : notificationRetention) (rs : gmap nat (exactRunState Response))
    (t : tables) (es : gmap nat notificationEvidence) (ne : nat) (q : list acceptedNotification)
    (cs : calls any_map) : client := {|
  hasServerHandler := hasServerHandler c; rawMethods := rawMethods c; queue_capacity := queue_capacity c;
  c_life := l; retention := r; runs := rs; c_tables := t; evidences := es; next_evidence := ne;
  queue := q; c_calls := cs; call_data := call_data c |}.

Definition set_life (f : life -> life) : M unit := fun c =>
  Some (tt, mk_client c (f (c_life c)) (retention c) (runs c) (c_tables c) (evidences c) (next_evidence c) (queue c) (c_calls c)).
Definition set_tables (f : tables -> tables) : M unit := fun c =>
  Some (tt, mk_client c (c_life c) (retention c) (runs c) (f (c_tables c)) (evidences c) (next_evidence c) (queue c) (c_calls c)).
Definition set_runs (f : gmap nat (exactRunState Response) -> gmap nat (exactRunState Response)) : M unit := fun c =>
  Some (tt, mk_client c (c_life c) (retention c) (f (runs c)) (c_tables c) (evidences c) (next_evidence c) (queue c) (c_calls c)).
Definition set_queue (f : list acceptedNotification -> list acceptedNotification) : M unit := fun c =>
  Some (tt, mk_client c (c_life c) (retention c) (runs c) (c_tables c) (evidences c) (next_evidence c) (f (queue c)) (c_calls c)).
Definition set_calls (f : calls any_map -> calls any_map) : M unit := fun c =>
  Some (tt, mk_client c (c_life c) (retention c) (runs c) (c_tables c) (evidences c) (next_evidence c) (queue c) (f (c_calls c))).
Definition set_evidence (e : nat) (x : notificationEvidence) : M unit := fun c =>
  Some (tt, mk_client c (c_life c) (retention c) (runs c) (c_tables c) (<[e := x]> (evidences c)) (next_evidence c) (queue c) (c_calls c)).
Definition new_evidence (x : notificationEvidence) : M nat := fun c =>
  Some (next_evidence c,
    mk_client c (c_life c) (retention c) (runs c) (c_tables c) (<[next_evidence c := x]> (evidences c))
      (S (next_evidence c)) (queue c) (c_calls c)).

(** An operation of the budget; [None] is its panic. *)
Definition set_retention (f : notificationRetention -> option notificationRetention) : M unit := fun c =>
  match f (retention c) with
  | Some r => Some (tt, mk_client c (c_life c) r (runs c) (c_tables c) (evidences c) (next_evidence c) (queue c) (c_calls c))
  | None => None
  end.

Definition reserve_m (count bytes : Z) : M (res lease) := fun c =>
  let '(r, b) := reserve count bytes (retention c) in
  Some (r, mk_client c (c_life c) b (runs c) (c_tables c) (evidences c) (next_evidence c) (queue c) (c_calls c)).

Definition release_m (l : lease) : M unit := set_retention (release l).
Definition retain_m (l : lease) : M unit := set_retention (retain l).

Fixpoint for_each {A} (l : list A) (f : A -> M unit) : M unit :=
  match l with [] => skip | x :: l' => _ ← f x; for_each l' f end.

Definition isClosed (c : client) : bool := l_closed (c_life c).

(** * Runs *)

(** Register a run ([newExactRunState]); [r] is a fresh address. *)
Definition add_run (r : nat) (thread : string) (initial : run_result Response) : M unit :=
  set_runs <[r := newExactRunState thread initial]>.

Definition turnIDSnapshot (c : client) (r : nat) : string :=
  match runs c !! r with Some s => run_turnID s | None => "" end.
Definition run_thread (c : client) (r : nat) : string :=
  match runs c !! r with Some s => run_threadID s | None => "" end.

Definition remove_from (key : string) (r : nat) (m : gmap string (list nat)) : gmap string (list nat) :=
  match filter (fun x => x <> r) (default [] (m !! key)) with
  | [] => delete key m
  | l => <[key := l]> m
  end.

Definition add_to (key : string) (r : nat) (m : gmap string (list nat)) : gmap string (list nat) :=
  let l := default [] (m !! key) in
  <[key := if mem r l then l else l ++ [r]]> m.

Definition with_streams (t : tables) (s a : gmap string (list nat)) : tables := {|
  exactStreams := s; exactAttaching := a; pendingEvents := pendingEvents t;
  armedThreadAttach := armedThreadAttach t; armedTurnAttach := armedTurnAttach t;
  pendingThread := pendingThread t; replayingEvents := replayingEvents t;
  pendingDiagnostics := pendingDiagnostics t; attachmentRetention := attachmentRetention t |}.

Definition with_pending (t : tables) (p : gmap string (list rpcNotification))
    (rp : gmap nat (list rpcNotification)) (d : gmap string (list (DiagnosticRef * lease))) : tables := {|
  exactStreams := exactStreams t; exactAttaching := exactAttaching t; pendingEvents := p;
  armedThreadAttach := armedThreadAttach t; armedTurnAttach := armedTurnAttach t;
  pendingThread := pendingThread t; replayingEvents := rp; pendingDiagnostics := d;
  attachmentRetention := attachmentRetention t |}.

Definition with_armed (t : tables) (th : list string) (tu : gmap string nat)
    (pt : gmap string (list (ServerNotification * lease))) (ar : gmap string lease) : tables := {|
  exactStreams := exactStreams t; exactAttaching := exactAttaching t; pendingEvents := pendingEvents t;
  armedThreadAttach := th; armedTurnAttach := tu; pendingThread := pt;
  replayingEvents := replayingEvents t; pendingDiagnostics := pendingDiagnostics t;
  attachmentRetention := ar |}.

Definition unregisterExactRun (r : nat) : M unit :=
  c ← get;
  set_tables (fun t => with_streams t (remove_from (turnIDSnapshot c r) r (exactStreams t))
                                      (remove_from (run_thread c r) r (exactAttaching t))).

(** [finish]: [finishState] with the client's cause, then [unregister]. *)
Definition finish (r : nat) (e : option error) : M unit :=
  c ← get;
  match runs c !! r with
  | None => skip
  | Some s =>
    let '(changed, s') := finishState (run_cause (c_life c)) e s in
    _ ← set_runs <[r := s']>;
    if changed then unregisterExactRun r else skip
  end.

(** Acceptance on the run at [r]; the result carries the pending completion. *)
Definition accept_run (r : nat) (n : ServerNotification) (l : lease) : M (res (option completion)) := fun c =>
  match runs c !! r with
  | None => Some (Ok None, c)
  | Some s =>
    match acceptRetainedBeforeTerminalCompletion n l s (retention c) with
    | None => None
    | Some (x, s', b) =>
      Some (match x with Ok (Some e) => Ok (Some (r, e)) | Ok None => Ok None | Err e => Err e end,
            mk_client c (c_life c) b (<[r := s']> (runs c)) (c_tables c) (evidences c) (next_evidence c)
              (queue c) (c_calls c))
    end
  end.

Definition add_diagnostic_run (r : nat) (ref : DiagnosticRef) (l : lease) : M (res unit) := fun c =>
  match runs c !! r with
  | None => Some (Ok tt, c)
  | Some s =>
    match addDiagnosticRetained ref l s (retention c) with
    | None => None
    | Some (x, s', b) =>
      Some (x, mk_client c (c_life c) b (<[r := s']> (runs c)) (c_tables c) (evidences c) (next_evidence c)
                 (queue c) (c_calls c))
    end
  end.

(** * Evidence *)

Definition exactNotification (n : rpcNotification) : res ServerNotification :=
  decode_notification (method n) (params n).

(** [resolveEvidence]: under the [Once], decode, accept on the owner, and keep
    the completion and the error. *)
Definition resolveEvidence (n : rpcNotification) (owner : nat) : M (option error) :=
  match evidence n with
  | None => mret None
  | Some e =>
    c ← get;
    match evidences c !! e with
    | None => mret None
    | Some x =>
      if e_once x then mret (e_err x)
      else
        r ← match exactNotification n with
            | Err err => mret (Err err)
            | Ok typed => accept_run owner typed (n_retained n)
            end;
        let '(compl, err) := match r with
                             | Ok (Some (_, ce)) => (Some ce, None)
                             | Ok None => (None, None)
                             | Err err => (None, Some err)
                             end in
        _ ← set_evidence e {| e_state := e_state x; e_once := true; e_dispatched := e_dispatched x;
                              e_completion := compl; e_err := err |};
        mret err
    end
  end.

(** [resolvePendingEvidence] and [resolveReplayingEvidence]: the owner is the
    evidence's own run. *)
Definition resolvePendingEvidence (n : rpcNotification) : M unit :=
  c ← get;
  match evidence n with
  | None => skip
  | Some e => match evidences c !! e with
              | None => skip
              | Some x => _ ← resolveEvidence n (e_state x); skip
              end
  end.

Definition completeEvidenceTerminal (n : rpcNotification) : M unit :=
  c ← get;
  match e ← evidence n; x ← evidences c !! e; ce ← e_completion x; Some (e_state x, ce) with
  | Some (r, ce) => finish r ce
  | None => skip
  end.

(** * Failing the client *)

(** [failAll], with the given cause. *)
Definition failAll (e : error) : M unit :=
  c ← get;
  let cause := firstCloseReason e (c_life c) in
  let drained := elements (pending (c_calls c)) in
  _ ← set_calls (fun s => fail_take s cause);
  let t := c_tables c in
  let streams := flat_map snd (map_to_list (exactStreams t)) ++ flat_map snd (map_to_list (exactAttaching t)) in
  let saved := filter (fun n => is_Some (evidence n)) (flat_map snd (map_to_list (pendingEvents t))) in
  let replaying := filter (fun n => is_Some (evidence n)) (flat_map snd (map_to_list (replayingEvents t))) in
  _ ← for_each (map snd (flat_map snd (map_to_list (pendingThread t)))) release_m;
  _ ← for_each (map snd (map_to_list (attachmentRetention t))) release_m;
  _ ← set_tables (fun t => with_armed (with_pending t ∅ (replayingEvents t) ∅) [] ∅ ∅ ∅);
  _ ← for_each replaying (fun n => retain_m (n_retained n));
  _ ← for_each saved (fun n => _ ← resolvePendingEvidence n; release_m (n_retained n));
  _ ← for_each replaying (fun n => _ ← resolvePendingEvidence n; release_m (n_retained n));
  _ ← for_each (map_to_list (pendingDiagnostics t)) (fun '(turn, refs) =>
        for_each refs (fun '(ref, l) =>
          _ ← for_each streams (fun r =>
                c ← get;
                if String.eqb (turnIDSnapshot c r) turn then _ ← add_diagnostic_run r ref l; skip else skip);
          release_m l));
  _ ← for_each streams (fun r => finish r (Some cause));
  for_each drained (fun id => set_calls (fun s => send s id (Err cause))).

(** [failClient]: the claim, the cancellation, the publication and the start of
    the teardown.  The calls of [Pending] close with the client. *)
Definition failClient (e : error) : M unit :=
  c ← get;
  let '(claimed, l) := claimClientFailure e (c_life c) in
  if claimed then
    _ ← set_life (fun _ => l);
    _ ← set_calls close_calls;
    _ ← set_life cancel_ctx;
    _ ← failAll e;
    _ ← set_life publishCloseCause;
    set_life beginShutdown
  else skip.

(** [shutdown] when nothing failed: everything is failed with normal closure. *)
Definition shutdown_normal : M unit :=
  _ ← set_life beginShutdown;
  _ ← set_calls close_calls;
  c ← get;
  match failure (c_life c) with
  | None => _ ← failAll ErrClientClosed; set_life publishCloseCause
  | Some _ => set_life cancel_ctx
  end.

Definition failExactNotificationDelivery (e : error) : M unit :=
  failClient (if errors_is "codexsdk: notification backpressure" e
              then Errorf "%w: turn_id=%s" [ErrNotificationBackpressure] else e).

(** * Arming an attachment *)

Definition string_bytes (s : string) : Z := retainedValueBytes (RString 16 (Z.of_nat (String.length s))).

Definition retainAttachmentLocked (key : string) : M (res unit) :=
  c ← get;
  if isClosed c then mret (Err ErrClientClosed)
  else if bool_decide (is_Some (attachmentRetention (c_tables c) !! key)) then mret (Ok tt)
  else
    l ← reserve_m 1 (2 * string_bytes key);
    match l with
    | Err e => mret (Err e)
    | Ok l =>
      _ ← set_tables (fun t => with_armed t (armedThreadAttach t) (armedTurnAttach t) (pendingThread t)
                                            (<[key := l]> (attachmentRetention t)));
      mret (Ok tt)
    end.

Definition releaseAttachmentLocked (key : string) : M unit :=
  c ← get;
  _ ← release_m (default None (attachmentRetention (c_tables c) !! key));
  set_tables (fun t => with_armed t (armedThreadAttach t) (armedTurnAttach t) (pendingThread t)
                                    (delete key (attachmentRetention t))).

Definition armThreadAttach (thread : string) : M (res unit) :=
  r ← retainAttachmentLocked ("thread:" +:+ thread);
  match r with
  | Err e => mret (Err e)
  | Ok _ =>
    _ ← set_tables (fun t => with_armed t (thread :: armedThreadAttach t) (armedTurnAttach t)
                                          (pendingThread t) (attachmentRetention t));
    mret (Ok tt)
  end.

Definition armTurnAttach (turn : string) (owner : nat) : M (res unit) :=
  if String.eqb turn "" then mret (Ok tt)
  else
    r ← retainAttachmentLocked ("turn:" +:+ turn);
    match r with
    | Err e => mret (Err e)
    | Ok _ =>
      _ ← set_tables (fun t => with_armed t (armedThreadAttach t) (<[turn := owner]> (armedTurnAttach t))
                                            (pendingThread t) (attachmentRetention t));
      mret (Ok tt)
    end.

(** * Responses *)

Definition nested_id (result : any_map) (key : string) : string :=
  match object_at result key with Some o => json_string_at o "id" | None => "" end.
Definition threadIDFromProtocolResult (result : any_map) : string := nested_id result "thread".
Definition turnIDFromProtocolResult (result : any_map) : string := nested_id result "turn".

(** [fmt.Sprint] of a decoded id. *)
Definition id_text (v : option JSONValue) : string :=
  match v with
  | Some (JSONString s) => s
  | Some (JSONNum x) => x
  | _ => "<nil>"
  end.

Definition protocolError (meth : string) (raw : JSONValue) : error :=
  let o := match raw with JSONObj o => o | _ => ∅ end in
  let code := match o !! "code" with
              | Some (JSONNum x) => default 0%Z (parse_int64 x)
              | _ => 0%Z
              end in
  Typed (ProtocolErrorT meth code (json_string_at o "message")) [Errorf "codexsdk: protocol request failed" []].

(** Take the call of a response, and answer it. *)
Definition answer (id : string) (r : res any_map) : M unit :=
  _ ← set_calls (fun s => route_take s id r); set_calls (fun s => send s id r).

(** [routeResponse].  A failed arming answers the call with its error and then
    fails the client. *)
Definition routeResponse (message : gmap string JSONValue) : M unit :=
  c ← get;
  let id := id_text (message !! "id") in
  match (if bool_decide (id ∈ pending (c_calls c)) then call_data c !! id else None) with
  | None => skip
  | Some call =>
    match message !! "error" with
    | Some raw => if bool_decide (Kind raw = JSONKindNull) then
                    answer id (Err (Errorf "codexsdk: app-server %s response missing object result" []))
                  else answer id (Err (protocolError (call_method call) raw))
    | None =>
      match object_at message "result" with
      | None => answer id (Err (Errorf "codexsdk: app-server %s response missing object result" []))
      | Some result =>
        match call_validate call result with
        | Some e => answer id (Err e)
        | None =>
          let thread := threadIDFromProtocolResult result in
          let turn := turnIDFromProtocolResult result in
          armed ← (if intent_thread (call_exact call) &&
                      (String.eqb (call_method call) MethodThreadStart || String.eqb (call_method call) MethodThreadResume) &&
                      present thread
                   then armThreadAttach thread else mret (Ok tt));
          match armed with
          | Err e => _ ← answer id (Err e); failClient e
          | Ok _ =>
            armed ← (match intent_turn (call_exact call) with
                     | Some owner => if String.eqb (call_method call) MethodTurnStart && present turn
                                     then armTurnAttach turn owner else mret (Ok tt)
                     | None => mret (Ok tt)
                     end);
            match armed with
            | Err e => _ ← answer id (Err e); failClient e
            | Ok _ => answer id (Ok result)
            end
          end
        end
      end
    end
  end.

(** * The dispatcher's queue *)

(** [releaseDispatchWaiter]: close the fence and release the lease. *)
Definition releaseDispatchWaiter (a : acceptedNotification) : M unit :=
  c ← get;
  _ ← match e ← a_evidence a; x ← evidences c !! e; Some (e, x) with
      | Some (e, x) =>
        match e_dispatched x with
        | None => skip
        | Some false => set_evidence e {| e_state := e_state x; e_once := e_once x; e_dispatched := Some true;
                                          e_completion := e_completion x; e_err := e_err x |}
        | Some true => fun _ => None
        end
      | None => skip
      end;
  release_m (a_retained a).

Definition with_lease (a : acceptedNotification) (l : lease) : acceptedNotification := {|
  a_raw := a_raw a; a_notification := a_notification a; a_evidence := a_evidence a; a_retained := l;
  a_completions := a_completions a |}.

(** [enqueueAcceptedNotification] without a waiter of its own. *)
Definition enqueueAcceptedNotification (a : acceptedNotification) : M (res unit) :=
  c ← get;
  if isClosed c then _ ← releaseDispatchWaiter a; mret (Ok tt)
  else
    let '(count, size) := match a_notification a with
                          | Some n => (1, retainedValueBytes (reflect_notification n))%Z
                          | None => (0, 0)%Z
                          end in
    let '(count, size) := match a_raw a with
                          | Some r => (count + 1, size + retainedValueBytes (reflect_raw r))%Z
                          | None => (count, size)
                          end in
    l ← reserve_m count size;
    match l with
    | Err e => _ ← failClient e; _ ← releaseDispatchWaiter a; mret (Err e)
    | Ok l =>
      let handled := hasNotificationHandler c in
      _ ← (if handled then set_life addHandlerWork else skip);
      if (length (queue c) <? queue_capacity c)%nat then
        _ ← set_queue (fun q => q ++ [with_lease a l]); mret (Ok tt)
      else
        _ ← release_m l;
        _ ← (if handled then set_life endHandlerWork else skip);
        _ ← failClient ErrNotificationBackpressure;
        _ ← releaseDispatchWaiter a;
        mret (Err ErrNotificationBackpressure)
    end.

(** * Notifications *)

(** [rawNotification]: the complete envelope as one JSON value. *)
Definition rawNotification (n : rpcNotification) : res RawNotification :=
  if String.eqb (method n) RawResponseItemCompletedExtension && negb (validate_raw_item (params n)) then
    Err ErrRawNotificationDecode
  else
    let env := match envelope n with
               | Some e => e
               | None => <["method" := JSONString (method n)]>
                           {["params" := match params n with Some p => JSONObj p | None => JSONNull end]}
               end in
    match raw ← MarshalJSON (JSONObj env); ParseJSONValue raw with
    | Err _ => Err ErrRawNotificationDecode
    | Ok value =>
      let thread0 := threadIDFromNotification (params n) in
      let thread := if String.eqb thread0 "" then
                      match p ← params n; object_at p "thread" with
                      | Some o => json_string_at o "id"
                      | None => ""
                      end
                    else thread0 in
      Ok {| raw_Method := method n; raw_ThreadID := thread;
            raw_TurnID := turnIDFromNotification (params n); raw_Envelope := value |}
    end.

(** The runs a notification of each class reaches. *)
Definition turn_targets (c : client) (i : notificationIdentity) : list nat :=
  filter (fun r => matchesRun i (run_thread c r) (turnIDSnapshot c r) = true)
    (default [] (exactStreams (c_tables c) !! turnID i)) ++
  filter (fun r => turnIDSnapshot c r = turnID i /\
                   matchesRun i (run_thread c r) (turnIDSnapshot c r) = true)
    (flat_map snd (map_to_list (exactAttaching (c_tables c)))).

Definition thread_targets (c : client) (i : notificationIdentity) : list nat :=
  filter (fun r => matchesRun i (run_thread c r) (turnIDSnapshot c r) = true)
    (flat_map snd (map_to_list (exactStreams (c_tables c))) ++
     flat_map snd (map_to_list (exactAttaching (c_tables c)))).

(** The owner of an armed turn that the identity does not contradict. *)
Definition armed_owner (c : client) (i : notificationIdentity) : option nat :=
  if present (turnID i) then
    match armedTurnAttach (c_tables c) !! turnID i with
    | Some r => if matchesRun i (run_thread c r) (turnIDSnapshot c r) then Some r else None
    | None => None
    end
  else None.

(** Deliver to every target; the first delivery error fails the client. *)
Fixpoint deliver_all (targets : list nat) (n : ServerNotification) : M (list completion * option error) :=
  match targets with
  | [] => mret ([], None)
  | r :: targets' =>
    x ← accept_run r n None;
    '(cs, e) ← deliver_all targets' n;
    mret (match x with
          | Ok (Some c) => (c :: cs, e)
          | Ok None => (cs, e)
          | Err e' => (cs, Some e')
          end)
  end.

(** Save a thread fact for a thread that is armed and has no run yet. *)
Definition save_thread_fact (thread : string) (typed : ServerNotification) : M (option error) :=
  l ← reserve_m 3 (3 * retainedValueBytes (reflect_notification typed));
  match l with
  | Err e => mret (Some e)
  | Ok l =>
    _ ← set_tables (fun t => with_armed t (armedThreadAttach t) (armedTurnAttach t)
          (<[thread := default [] (pendingThread t !! thread) ++ [(typed, l)]]> (pendingThread t))
          (attachmentRetention t));
    mret None
  end.

(** Save a notification of an armed turn with fresh evidence. *)
Definition save_evidence (n : rpcNotification) (typed : ServerNotification) (turn : string) (owner : nat)
    : M (res nat) :=
  l ← reserve_m 4 (retainedValueBytes (reflect_params (params n)) +
                   3 * retainedValueBytes (reflect_notification typed));
  match l with
  | Err e => mret (Err e)
  | Ok l =>
    c ← get;
    e ← new_evidence {| e_state := owner; e_once := false;
                        e_dispatched := if hasNotificationHandler c then Some false else None;
                        e_completion := None; e_err := None |};
    let saved := {| envelope := envelope n; method := method n; params := params n;
                    evidence := Some e; n_retained := l |} in
    _ ← set_tables (fun t => with_pending t
          (<[turn := default [] (pendingEvents t !! turn) ++ [saved]]> (pendingEvents t))
          (replayingEvents t) (pendingDiagnostics t));
    mret (Ok e)
  end.

Definition routeExactNotificationBeforeTerminalCompletion (n : rpcNotification) (typed : ServerNotification)
    : M (bool * list completion * option nat) :=
  let '(class, i) := attributionFor typed in
  match class with
  | notificationAttributionGlobal | notificationAttributionUnsupported => mret (false, [], None)
  | _ =>
    c ← get;
    if isClosed c then mret (false, [], None)
    else
      let targets := match class with
                     | notificationAttributionTurn => turn_targets c i
                     | _ => thread_targets c i
                     end in
      let thread_fact := match class, targets with
                         | notificationAttributionThread, [] => mem (threadID i) (armedThreadAttach (c_tables c))
                         | _, _ => false
                         end in
      failed ← (if thread_fact then save_thread_fact (threadID i) typed else mret None);
      match failed with
      | Some e => _ ← failClient e; mret (false, [], None)
      | None =>
        match targets, armed_owner c i with
        | [], Some owner =>
          saved ← save_evidence n typed (turnID i) owner;
          match saved with
          | Err e => _ ← failClient e; mret (false, [], None)
          | Ok e => mret (true, [], Some e)
          end
        | _, _ =>
          '(completions, err) ← deliver_all targets typed;
          _ ← match err with Some e => failExactNotificationDelivery e | None => skip end;
          mret (match targets with [] => false | _ => true end, completions, None)
        end
      end
  end.

(** The diagnostic of a notification that does not decode; [digest] is the size
    and SHA-256 of its marshalled parameters. *)
Definition decode_diagnostic (digest : option any_map -> Z * string) (n : rpcNotification) : DiagnosticRef :=
  let '(size, sum) := digest (params n) in
  {| diag_Kind := "notification_decode_error"; diag_ID := turnIDFromNotification (params n);
     diag_Path := method n; diag_SizeBytes := size; diag_SHA256 := sum |}.

Fixpoint add_diagnostics (targets : list nat) (ref : DiagnosticRef) : M (option error) :=
  match targets with
  | [] => mret None
  | r :: targets' =>
    x ← add_diagnostic_run r ref None;
    match x with Err e => mret (Some e) | Ok _ => add_diagnostics targets' ref end
  end.

Definition routeExactNotificationError (digest : option any_map -> Z * string) (n : rpcNotification) (err : error)
    : M unit :=
  c ← get;
  if isClosed c then skip
  else
    let ref := decode_diagnostic digest n in
    let turn := turnIDFromNotification (params n) in
    let thread := threadIDFromNotification (params n) in
    let t := c_tables c in
    let live := flat_map (fun '(candidate, rs) => filter (fun r =>
        (present turn && String.eqb candidate turn) ||
        (negb (present turn) && (negb (present thread) || String.eqb (run_thread c r) thread)) = true) rs)
      (map_to_list (exactStreams t)) in
    let attaching := flat_map (fun '(candidate, rs) =>
        if negb (present thread) || String.eqb candidate thread then rs else [])
      (map_to_list (exactAttaching t)) in
    let targets := live ++ attaching in
    failed ← (match targets with
              | [] => if present turn then
                  l ← reserve_m 1 (retainedValueBytes (reflect_diagnostic ref));
                  match l with
                  | Err e => mret (Some e)
                  | Ok l =>
                    _ ← set_tables (fun t => with_pending t (pendingEvents t) (replayingEvents t)
                          (<[turn := default [] (pendingDiagnostics t !! turn) ++ [(ref, l)]]> (pendingDiagnostics t)));
                    mret None
                  end else mret None
              | _ => add_diagnostics targets ref
              end);
    match failed with
    | Some e => failClient e
    | None => failClient err
    end.

(** [routeNotification], with its deferred enqueue. *)
Definition routeNotification (digest : option any_map -> Z * string) (n : rpcNotification) : M unit :=
  c ← get;
  if isClosed c then skip
  else
    let required := requiresRawNotification c (method n) in
    match (if required then match rawNotification n with Ok r => Ok (Some r) | Err e => Err e end else Ok None) with
    | Err e => failClient e
    | Ok raw =>
      if required && String.eqb (method n) RawResponseItemCompletedExtension then
        _ ← enqueueAcceptedNotification {| a_raw := raw; a_notification := None; a_evidence := None;
                                           a_retained := None; a_completions := [] |};
        skip
      else if negb (knownServerNotificationKind (method n)) then skip
      else
        let n := {| envelope := None; method := method n; params := params n; evidence := evidence n;
                    n_retained := n_retained n |} in
        match exactNotification n with
        | Err e => routeExactNotificationError digest n
                     (match raw with Some _ => ErrRawNotificationDecode | None => e end)
        | Ok typed =>
          '(_, completions, ev) ← routeExactNotificationBeforeTerminalCompletion n typed;
          let handled := hasNotificationHandler c in
          enqueued ← enqueueAcceptedNotification
            {| a_raw := raw;
               a_notification := if String.eqb (notification_Kind typed) "" then None else Some typed;
               a_evidence := ev; a_retained := None;
               a_completions := if handled then completions else [] |};
          match enqueued with
          | Err e => failClient e
          | Ok _ => for_each (if handled then [] else completions) (fun '(r, e) => finish r e)
          end
        end
    end.

(** * Attachment *)

(** The loop of [registerAttachingExactStream] over the saved thread facts. *)
Fixpoint accept_facts (r : nat) (facts : list (ServerNotification * lease)) : M (option error) :=
  match facts with
  | [] => mret None
  | (typed, l) :: facts' =>
    x ← accept_run r typed l;
    match x with
    | Err e => _ ← failClient e; mret (Some e)
    | Ok compl =>
      _ ← match compl with Some (r, e) => finish r e | None => skip end;
      accept_facts r facts'
    end
  end.

Definition registerAttachingExactStream (r : nat) : M (res unit) :=
  c ← get;
  let thread := run_thread c r in
  if isClosed c then mret (Err ErrClientClosed)
  else match default [] (exactAttaching (c_tables c) !! thread) with
       | _ :: _ => mret (Err (Errorf "%w: thread_id=%s" [errConcurrentTurnStart]))
       | [] =>
         let facts := default [] (pendingThread (c_tables c) !! thread) in
         _ ← set_tables (fun t => with_streams t (exactStreams t) (add_to thread r (exactAttaching t)));
         _ ← set_tables (fun t => with_armed t (filter (fun x => x <> thread) (armedThreadAttach t))
                                    (armedTurnAttach t) (delete thread (pendingThread t)) (attachmentRetention t));
         _ ← releaseAttachmentLocked ("thread:" +:+ thread);
         failed ← accept_facts r facts;
         _ ← for_each (map snd facts) release_m;
         mret (match failed with Some e => Err e | None => Ok tt end)
       end.

(** [finishExactPendingReplay] *)
Definition finishExactPendingReplay (r : nat) : M unit :=
  c ← get;
  let saved := default [] (replayingEvents (c_tables c) !! r) in
  _ ← set_tables (fun t => with_pending t (pendingEvents t) (delete r (replayingEvents t)) (pendingDiagnostics t));
  for_each (map n_retained saved) release_m.

(** The replay loop of [attachExactStreamLocked]. *)
Fixpoint replay_events (r : nat) (saved : list rpcNotification) : M (option error) :=
  match saved with
  | [] => mret None
  | n :: saved' =>
    c ← get;
    err ← (match evidence n with
           | None =>
             match exactNotification n with
             | Err e => mret (Some e)
             | Ok typed =>
               x ← accept_run r typed (n_retained n);
               match x with
               | Err e => mret (Some e)
               | Ok (Some (r, e)) => _ ← finish r e; mret None
               | Ok None => mret None
               end
             end
           | Some _ =>
             err ← resolveEvidence n r;
             _ ← (if hasNotificationHandler c then skip else completeEvidenceTerminal n);
             mret err
           end);
    match err with
    | Some e => mret (Some e)
    | None => replay_events r saved'
    end
  end.

Fixpoint replay_diagnostics (r : nat) (refs : list (DiagnosticRef * lease)) : M (option error) :=
  match refs with
  | [] => mret None
  | (ref, l) :: refs' =>
    x ← add_diagnostic_run r ref l;
    match x with Err e => mret (Some e) | Ok _ => replay_diagnostics r refs' end
  end.

(** [attachExactStreamForTurn] and [attachExactStreamLocked].  No assignment of
    the repository sets [pendingGlobal], so its branch is left out. *)
Definition attachExactStreamForTurn (r : nat) (turn : Turn) : M unit :=
  _ ← set_runs (alter (setTurn turn) r);
  c ← get;
  let over := match runs c !! r with Some s => terminal s | None => false end in
  let id := turnIDSnapshot c r in
  _ ← set_tables (fun t => with_armed t (armedThreadAttach t) (delete id (armedTurnAttach t))
                             (pendingThread t) (attachmentRetention t));
  _ ← releaseAttachmentLocked ("turn:" +:+ id);
  _ ← set_tables (fun t => with_streams t (exactStreams t) (remove_from (run_thread c r) r (exactAttaching t)));
  if over then skip
  else
    _ ← set_tables (fun t => with_streams t (add_to id r (exactStreams t)) (exactAttaching t));
    let saved := default [] (pendingEvents (c_tables c) !! id) in
    let diagnostics := default [] (pendingDiagnostics (c_tables c) !! id) in
    _ ← set_tables (fun t => with_pending t (delete id (pendingEvents t))
          (match saved with [] => replayingEvents t | _ => <[r := saved]> (replayingEvents t) end)
          (delete id (pendingDiagnostics t)));
    failed ← replay_events r saved;
    _ ← finishExactPendingReplay r;
    _ ← match failed with
        | Some e => failExactNotificationDelivery e
        | None =>
          failed ← replay_diagnostics r diagnostics;
          match failed with Some e => failClient e | None => skip end
        end;
    for_each (map snd diagnostics) release_m.

(** Resolve everything that was saved for an attachment that ends; the first
    error is the delivery error. *)
Fixpoint resolve_all (r : nat) (saved : list rpcNotification) : M (option error) :=
  match saved with
  | [] => mret None
  | n :: saved' =>
    err ← resolveEvidence n r;
    rest ← resolve_all r saved';
    mret (match err with Some e => Some e | None => rest end)
  end.

Definition owned_by (c : client) (r : nat) (n : rpcNotification) : bool :=
  match e ← evidence n; evidences c !! e with
  | Some x => bool_decide (e_state x = r)
  | None => false
  end.

(** [finishAttachingExactStream] *)
Definition finishAttachingExactStream (r : nat) (finishErr : option error) : M unit :=
  c ← get;
  let t := c_tables c in
  _ ← set_tables (fun t => with_streams t (exactStreams t) (remove_from (run_thread c r) r (exactAttaching t)));
  let armed := (filter (fun kv => kv.2 = r) (map_to_list (armedTurnAttach t))).*1 in
  _ ← for_each armed (fun turn =>
        _ ← set_tables (fun t => with_armed t (armedThreadAttach t) (delete turn (armedTurnAttach t))
                                   (pendingThread t) (attachmentRetention t));
        releaseAttachmentLocked ("turn:" +:+ turn));
  let saved := filter (fun n => owned_by c r n = true) (flat_map snd (map_to_list (pendingEvents t))) in
  _ ← set_tables (fun t => with_pending t
        (omap (fun l => match filter (fun n => owned_by c r n = false) l with [] => None | l => Some l end)
              (pendingEvents t))
        (replayingEvents t) (pendingDiagnostics t));
  failed ← resolve_all r saved;
  _ ← match failed with
      | Some e => _ ← finish r (Some e); failExactNotificationDelivery e
      | None => _ ← for_each saved completeEvidenceTerminal; finish r finishErr
      end;
  for_each (map n_retained saved) release_m.

(** * The dispatcher *)

Definition invokeNotificationHandler (outcome : option error) : option error :=
  match outcome with Some e => Some (Errorf "%w: %w" [ErrHandlerFailed; e]) | None => None end.

Definition invokeRawNotificationHandler (outcome : option error) : option error :=
  match outcome with Some e => Some (Typed RawHandlerT [ErrRawNotificationDelivery; ErrHandlerFailed; e]) | None => None end.

Definition endNotificationHandler : M unit :=
  c ← get; if hasNotificationHandler c then set_life endHandlerWork else skip.

(** [discardAcceptedNotifications] *)
Fixpoint discard_loop (n : nat) : M unit :=
  match n with
  | O => skip
  | S n' =>
    c ← get;
    match queue c with
    | [] => skip
    | a :: q =>
      _ ← set_queue (fun _ => q);
      _ ← releaseDispatchWaiter a;
      _ ← endNotificationHandler;
      discard_loop n'
    end
  end.

Definition discardAcceptedNotifications : M unit := c ← get; discard_loop (length (queue c)).

(** [dispatchAcceptedNotification]: [raw_outcome] and [outcome] are what the
    application's handlers return. *)
Definition dispatchAcceptedNotification (raw_outcome outcome : option error) (a : acceptedNotification) : M bool :=
  c ← get;
  let err := match a_raw a with Some _ => invokeRawNotificationHandler raw_outcome | None => None end in
  let err := match err with
             | Some e => Some e
             | None => match a_notification a with
                       | Some _ => if hasServerHandler c then invokeNotificationHandler outcome else None
                       | None => None
                       end
             end in
  match err with
  | None =>
    _ ← releaseDispatchWaiter a;
    c ← get;
    _ ← match e ← a_evidence a; x ← evidences c !! e; ce ← e_completion x; Some (e_state x, ce) with
        | Some (r, ce) => finish r ce
        | None => skip
        end;
    _ ← for_each (a_completions a) (fun '(r, e) => finish r e);
    _ ← endNotificationHandler;
    mret true
  | Some e =>
    _ ← set_life (record_callback_failure e);
    _ ← failClient e;
    _ ← discardAcceptedNotifications;
    _ ← releaseDispatchWaiter a;
    _ ← endNotificationHandler;
    mret false
  end.

(** One turn of [notificationDispatcher] with an entry whose evidence is ready. *)
Definition dispatch_next (raw_outcome outcome : option error) : M bool :=
  c ← get;
  match queue c with
  | [] => mret true
  | a :: q =>
    _ ← set_queue (fun _ => q);
    if ctxDone (c_life c) then
      _ ← releaseDispatchWaiter a; _ ← endNotificationHandler; _ ← discardAcceptedNotifications; mret false
    else if hasNotificationHandler c then dispatchAcceptedNotification raw_outcome outcome a
    else _ ← releaseDispatchWaiter a; mret true
  end.
End client.

(** * Theorems *)

Section frame.
Context {PT : ProtocolTypes} {Response : Type}.
Implicit Types (c : client (Response := Response)).

(** What the handlers do to the runs while the client's cause is fixed: runs
    only take steps of [Run], a run that ends does so with the client's cause,
    and only the registration tables change. *)
Record frame c c' : Prop := {
  frame_life : c_life c' = c_life c;
  frame_calls : c_calls c' = c_calls c;
  frame_tables : exists s a, c_tables c' = with_streams (c_tables c) s a;
  frame_runs : forall r s, runs c !! r = Some s ->
    exists s', runs c' !! r = Some s' /\ rtc run_step s s' /\
      (terminal s = false -> terminal s' = true -> run_err s' = closeReason (c_life c))
}.

Definition framed {A} (m : M (Response := Response) A) : Prop :=
  forall c a c', is_Some (closeReason (c_life c)) -> m c = Some (a, c') -> frame c c'.

Lemma frame_refl c : frame c c.
Proof.
  constructor; try done.
  - exists (exactStreams (c_tables c)), (exactAttaching (c_tables c)). by destruct (c_tables c).
  - intros r s Hs. exists s. split; [done|]. split; [done|]. congruence.
Qed.

Lemma frame_trans c1 c2 c3 : frame c1 c2 -> frame c2 c3 -> frame c1 c3.
Proof.
  intros [Hl Hc [s1 [a1 Ht]] Hr] [Hl' Hc' [s2 [a2 Ht']] Hr']. constructor; try congruence.
  - exists s2, a2. by rewrite Ht', Ht.
  - intros r s Hs. destruct (Hr r s Hs) as (s' & Hs' & Hst & He).
    destruct (Hr' r s' Hs') as (s'' & Hs'' & Hst' & He'). exists s''. split; [done|].
    split; [by etrans|]. intros Hn Hy. destruct (terminal s') eqn:E.
    + pose proof (run_steps_frozen _ _ Hst' E) as Hf. unfold frozen_part in Hf.
      injection Hf as _ -> _ _ _. auto.
    + rewrite He' by done. by rewrite Hl.
Qed.

Lemma framed_ret {A} (a : A) : framed (mret a).
Proof. intros c x c' _ [= _ <-]. apply frame_refl. Qed.

Lemma framed_bind {A B} (m : M A) (f : A -> M B) : framed m -> (forall a, framed (f a)) -> framed (m ≫= f).
Proof.
  intros Hm Hf c b c' Hc H. unfold mbind, M_bind in H. destruct (m c) as [[a c1]|] eqn:E; [|done].
  pose proof (Hm _ _ _ Hc E) as F1. eapply frame_trans; [done|]. eapply Hf; [|done].
  by rewrite (frame_life _ _ F1).
Qed.

(** A handler that reads the state first. *)
Lemma framed_get {B} (f : client (Response := Response) -> M B) :
  (forall c, framed (f c)) -> framed (get ≫= f).
Proof. intros Hf. apply framed_bind; [|done]. intros c a c' _ [= _ <-]. apply frame_refl. Qed.

Lemma framed_for_each {A} (l : list A) (f : A -> M unit) : (forall x, framed (f x)) -> framed (for_each l f).
Proof.
  intros Hf. induction l as [|x l IH]; [apply framed_ret|]. simpl. by apply framed_bind.
Qed.

Lemma framed_retention f : framed (set_retention f).
Proof.
  intros c a c' _ H. unfold set_retention in H. destruct (f (retention c)); simplify_eq.
  constructor; try done; simpl.
  - exists (exactStreams (c_tables c)), (exactAttaching (c_tables c)). by destruct (c_tables c).
  - intros r s Hs. exists s. split; [done|]. split; [done|]. congruence.
Qed.

Lemma framed_evidence e x : framed (set_evidence e x).
Proof.
  intros c a c' _ [= _ <-]. constructor; try done; simpl.
  - exists (exactStreams (c_tables c)), (exactAttaching (c_tables c)). by destruct (c_tables c).
  - intros r s Hs. exists s. split; [done|]. split; [done|]. congruence.
Qed.

(** A change of one run, by a step that does not end it. *)
Lemma frame_run_update c c' r s s' :
  c_life c' = c_life c -> c_calls c' = c_calls c -> c_tables c' = c_tables c ->
  runs c !! r = Some s -> runs c' = <[r := s']> (runs c) -> rtc run_step s s' ->
  (terminal s = false -> terminal s' = true -> run_err s' = closeReason (c_life c)) -> frame c c'.
Proof.
  intros Hl Hc Ht Hs Hr Hst He. constructor; try done.
  - rewrite Ht. exists (exactStreams (c_tables c)), (exactAttaching (c_tables c)). by destruct (c_tables c).
  - intros r' x Hx. rewrite Hr. destruct (decide (r = r')) as [<-|Hne].
    + rewrite lookup_insert_eq. exists s'. simplify_eq. done.
    + rewrite lookup_insert_ne by done. exists x. split; [done|]. split; [done|]. congruence.
Qed.

Lemma framed_accept r n l : framed (accept_run r n l).
Proof.
  intros c a c' _ H. unfold accept_run in H. destruct (runs c !! r) as [s|] eqn:Es;
    [|simplify_eq; apply frame_refl].
  destruct (acceptRetainedBeforeTerminalCompletion n l s (retention c)) as [[[x s'] b]|] eqn:Ea; [|done].
  injection H as _ <-. eapply (frame_run_update _ _ r s s'); try done.
  - apply rtc_once. by eapply run_accept.
  - intros Hn Hy. apply accept_inv in Ea as [[-> _]|(_ & cl & _ & Ha)]; [congruence|].
    rewrite (acc_terminal _ _ _ _ Ha) in Hy. congruence.
Qed.

Lemma framed_diagnostic r ref l : framed (add_diagnostic_run r ref l).
Proof.
  intros c a c' _ H. unfold add_diagnostic_run in H. destruct (runs c !! r) as [s|] eqn:Es;
    [|simplify_eq; apply frame_refl].
  destruct (addDiagnosticRetained ref l s (retention c)) as [[[x s'] b]|] eqn:Ea; [|done].
  injection H as _ <-. eapply (frame_run_update _ _ r s s'); try done.
  - apply rtc_once. by eapply run_diagnostic.
  - intros Hn Hy. apply diagnostic_inv in Ea as [->|(_ & Hf & _)]; congruence.
Qed.

Lemma framed_unregister r : framed (unregisterExactRun r).
Proof.
  apply framed_get. intros c0 c a c' _ [= _ <-]. constructor; try done; simpl; [by eexists _, _|].
  intros r' s Hs. exists s. split; [done|]. split; [done|]. congruence.
Qed.

Lemma run_cause_closed c : is_Some (closeReason (c_life c)) -> run_cause (c_life c) = closeReason (c_life c).
Proof. unfold run_cause. by intros [e ->]. Qed.

Lemma finish_spec r e c c' :
  is_Some (closeReason (c_life c)) -> finish r e c = Some (tt, c') ->
  frame c c' /\ forall s', runs c' !! r = Some s' -> terminal s' = true.
Proof.
  intros Hc H. unfold finish in H. unfold mbind at 1, M_bind at 1 in H. simpl in H.
  destruct (runs c !! r) as [s|] eqn:Es.
  2:{ injection H as <-. split; [apply frame_refl|]. congruence. }
  rewrite run_cause_closed in H by done.
  destruct (finishState (closeReason (c_life c)) e s) as [ch s1] eqn:Ef.
  set (c1 := mk_client c (c_life c) (retention c) (<[r := s1]> (runs c)) (c_tables c) (evidences c)
    (next_evidence c) (queue c) (c_calls c)).
  change ((if ch then unregisterExactRun r else skip) c1 = Some (tt, c')) in H.
  assert (terminal s1 = true /\ (terminal s = false -> run_err s1 = closeReason (c_life c))) as [Ht He].
  { unfold finishState in Ef. destruct (terminal s) eqn:E; simplify_eq; [done|]. simpl. split; [done|].
    intros _. by destruct Hc as [x ->]. }
  assert (frame c c1) as F1.
  { eapply (frame_run_update _ _ r s s1); try done; [|auto].
    apply rtc_once. replace s1 with (finishState (closeReason (c_life c)) e s).2 by by rewrite Ef.
    apply run_finish. }
  assert (frame c1 c') as F2.
  { destruct ch; [by eapply framed_unregister|]. injection H as <-. apply frame_refl. }
  split; [by eapply frame_trans|]. intros s' Hs'.
  destruct (frame_runs _ _ F2 r s1) as (s2 & Hs2 & Hst & _); [apply lookup_insert_eq|].
  rewrite Hs' in Hs2. injection Hs2 as <-. by eapply run_over_stays.
Qed.

Lemma framed_finish r e : framed (finish r e).
Proof. intros c [] c' Hc H. by apply finish_spec in H as [F _]. Qed.

Lemma framed_resolve n r : framed (resolveEvidence n r).
Proof.
  unfold resolveEvidence. destruct (evidence n) as [e|]; [|apply framed_ret].
  apply framed_get. intros c. destruct (evidences c !! e) as [x|]; [|apply framed_ret].
  destruct (e_once x); [apply framed_ret|]. apply framed_bind.
  - destruct (exactNotification n); [apply framed_accept | apply framed_ret].
  - intros [[[? ce]|]|err]; (apply framed_bind; [apply framed_evidence | intros _; apply framed_ret]).
Qed.

Lemma framed_resolve_pending n : framed (resolvePendingEvidence n).
Proof.
  apply framed_get. intros c. destruct (evidence n); [|apply framed_ret].
  destruct (evidences c !! _); [|apply framed_ret].
  apply framed_bind; [apply framed_resolve | intros _; apply framed_ret].
Qed.

Lemma finish_all_spec l e c c' :
  is_Some (closeReason (c_life c)) -> for_each l (fun r => finish r e) c = Some (tt, c') ->
  frame c c' /\ forall r s', r ∈ l -> runs c' !! r = Some s' -> is_Some (runs c !! r) -> terminal s' = true.
Proof.
  revert c. induction l as [|r l IH]; intros c Hc H.
  - injection H as <-. split; [apply frame_refl|]. by intros ? ? ?%not_elem_of_nil.
  - simpl in H. unfold mbind, M_bind in H. destruct (finish r e c) as [[[] c1]|] eqn:E; [|done].
    apply finish_spec in E as [F1 Ht]; [|done].
    assert (is_Some (closeReason (c_life c1))) as Hc1 by by rewrite (frame_life _ _ F1).
    destruct (IH c1 Hc1 H) as [F2 Hl]. split; [by eapply frame_trans|].
    intros r' s' Hin Hs' [s Hs]. destruct (frame_runs _ _ F1 _ _ Hs) as (s1 & Hs1 & _).
    apply elem_of_cons in Hin as [->|Hin]; [|by eapply Hl; eauto].
    destruct (frame_runs _ _ F2 _ _ Hs1) as (s2 & Hs2 & Hst & _). rewrite Hs' in Hs2. injection Hs2 as <-.
    by eapply run_over_stays, Ht.
Qed.
End frame.

Section settle.
Context {PT : ProtocolTypes} {Response : Type}.
Implicit Types (c : client (Response := Response)).

Lemma M_bind_inv {A B} (m : M (Response := Response) A) (f : A -> M B) c b c' :
  (m ≫= f) c = Some (b, c') -> exists a c1, m c = Some (a, c1) /\ f a c1 = Some (b, c').
Proof. unfold mbind, M_bind. destruct (m c) as [[a c1]|]; [eauto | done]. Qed.

(** The answers to the drained calls touch nothing but the calls. *)
Lemma send_all_spec (l : list string) (e : error) c c' :
  for_each l (fun id => set_calls (fun s => send s id (Err e))) c = Some (tt, c') ->
  c_life c' = c_life c /\ runs c' = runs c /\ c_tables c' = c_tables c /\
  pending (c_calls c') = pending (c_calls c).
Proof.
  revert c. induction l as [|id l IH]; intros c H; [by injection H as <-|].
  apply M_bind_inv in H as (? & c1 & [= _ <-] & H). apply IH in H as (-> & -> & -> & ->). done.
Qed.

(** The runs in the routing tables. *)
Definition registered c (r : nat) : Prop :=
  r ∈ flat_map snd (map_to_list (exactStreams (c_tables c))) ++
      flat_map snd (map_to_list (exactAttaching (c_tables c))).

Definition tables_cleared (t : tables) : Prop :=
  pendingEvents t = ∅ /\ pendingThread t = ∅ /\ armedThreadAttach t = [] /\ armedTurnAttach t = ∅ /\
  attachmentRetention t = ∅ /\ pendingDiagnostics t = ∅.

(** What a run is after the client failed with [e]. *)
Definition settled (e : error) (s s' : exactRunState Response) : Prop :=
  terminal s' = true /\ rtc run_step s s' /\ (terminal s = false -> run_err s' = Some e).

Lemma failAll_spec e c c' :
  closeReason (c_life c) = Some e -> failAll e c = Some (tt, c') ->
  c_life c' = c_life c /\ tables_cleared (c_tables c') /\ pending (c_calls c') = ∅ /\
  forall r s, registered c r -> runs c !! r = Some s -> exists s', runs c' !! r = Some s' /\ settled e s s'.
Proof.
  intros Hcause H. unfold failAll in H. apply M_bind_inv in H as (c0 & ? & [= <- <-] & H).
  assert (firstCloseReason e (c_life c) = e) as Hfirst by (unfold firstCloseReason; by rewrite Hcause).
  rewrite Hfirst in H.
  apply M_bind_inv in H as (? & c1 & [= _ <-] & H). cbn beta in H.
  set (c1 := mk_client c (c_life c) (retention c) (runs c) (c_tables c) (evidences c) (next_evidence c) (queue c)
    (fail_take (c_calls c) e)) in H.
  assert (is_Some (closeReason (c_life c1))) as Hc1 by (simpl; eauto).
  apply M_bind_inv in H as ([] & c2 & H2 & H).
  apply framed_for_each in H2; [|intros; apply framed_retention|done].
  assert (is_Some (closeReason (c_life c2))) as Hc2 by by rewrite (frame_life _ _ H2).
  apply M_bind_inv in H as ([] & c3 & H3 & H).
  apply framed_for_each in H3; [|intros; apply framed_retention|done].
  assert (frame c1 c3) as F13 by by eapply frame_trans. clear H2 H3 Hc2.
  apply M_bind_inv in H as (? & c4 & [= _ <-] & H).
  set (c4 := mk_client c3 _ _ _ _ _ _ _ _) in H.
  assert (is_Some (closeReason (c_life c4))) as Hc4 by (simpl; by rewrite (frame_life _ _ F13)).
  (* everything up to the finishing loop *)
  assert (forall m : M (Response := Response) unit, forall c c' k, framed m -> is_Some (closeReason (c_life c)) ->
    (m ≫= k) c = Some (tt, c') -> exists c1, frame c c1 /\ is_Some (closeReason (c_life c1)) /\ k tt c1 = Some (tt, c')) as Hstep.
  { clear. intros m c c' k Hm Hc H. apply M_bind_inv in H as ([] & c1 & H1 & H).
    apply Hm in H1; [|done]. exists c1. rewrite (frame_life _ _ H1). done. }
  apply Hstep in H as (c5 & F5 & Hc5 & H); [| apply framed_for_each; intros; apply framed_retention | done].
  apply Hstep in H as (c6 & F6 & Hc6 & H); [| | done].
  2:{ apply framed_for_each; intros; apply framed_bind; [apply framed_resolve_pending | intros; apply framed_retention]. }
  apply Hstep in H as (c7 & F7 & Hc7 & H); [| | done].
  2:{ apply framed_for_each; intros; apply framed_bind; [apply framed_resolve_pending | intros; apply framed_retention]. }
  apply Hstep in H as (c8 & F8 & Hc8 & H); [| | done].
  2:{ apply framed_for_each; intros [turn refs]. apply framed_for_each; intros [ref l].
      apply framed_bind; [|intros; apply framed_retention].
      apply framed_for_each; intros r. apply framed_get. intros c0.
      destruct (String.eqb _ _); [|apply framed_ret].
      apply framed_bind; [apply framed_diagnostic | intros; apply framed_ret]. }
  assert (frame c4 c8) as F48 by eauto using frame_trans.
  apply M_bind_inv in H as ([] & c9 & H9 & H). apply finish_all_spec in H9 as [F9 Hend]; [|done].
  assert (frame c4 c9) as F49 by by eapply frame_trans.
  apply send_all_spec in H as (Hl & Hr & Ht & Hp).
  assert (c_life c9 = c_life c) as Hl9 by by rewrite (frame_life _ _ F49); simpl; rewrite (frame_life _ _ F13).
  split; [by rewrite Hl|]. split_and!.
  - rewrite Ht. destruct (frame_tables _ _ F49) as (s & a & ->). done.
  - rewrite Hp, (frame_calls _ _ F49). simpl. by rewrite (frame_calls _ _ F13).
  - intros r s Hreg Hs. rewrite Hr.
    destruct (frame_runs _ _ F13 r s) as (s1 & Hs1 & Hst1 & He1); [done|].
    destruct (frame_runs _ _ F48 r s1) as (s2 & Hs2 & Hst2 & He2); [done|].
    destruct (frame_runs _ _ F9 r s2) as (s3 & Hs3 & Hst3 & He3); [done|].
    exists s3. split; [done|]. assert (terminal s3 = true) as Hover by (eapply Hend; eauto).
    split; [done|]. split; [by etrans; [|etrans]|]. intros Hn.
    assert (frame c1 c1) as _ by apply frame_refl.
    assert (closeReason (c_life c1) = Some e) as Hca by done.
    destruct (terminal s1) eqn:E1.
    { assert (rtc run_step s1 s3) as Hst13 by by etrans.
      pose proof (run_steps_frozen _ _ Hst13 E1) as Hf.
      unfold frozen_part in Hf. injection Hf as _ -> _ _ _. rewrite He1 by done. done. }
    assert (closeReason (c_life c4) = Some e) as Hca4 by (simpl; by rewrite (frame_life _ _ F13)).
    destruct (terminal s2) eqn:E2.
    { pose proof (run_steps_frozen _ _ Hst3 E2) as Hf. unfold frozen_part in Hf.
      injection Hf as _ -> _ _ _. rewrite He2 by done. done. }
    rewrite He3 by done. by rewrite (frame_life _ _ F48).
Qed.
End settle.

Lemma failClient_closed {PT : ProtocolTypes} {Response} e (c c' : client (Response := Response)) :
  failClient e c = Some (tt, c') -> isClosed c' = true.
Proof.
  intros H. unfold failClient in H. apply M_bind_inv in H as (c0 & ? & [= <- <-] & H).
  unfold isClosed, claimClientFailure, claimFailureLocked in *.
  destruct (l_closed (c_life c)) eqn:Hc; [by injection H as <-|].
  apply M_bind_inv in H as (? & c1 & [= _ <-] & H). apply M_bind_inv in H as (? & c2 & [= _ <-] & H).
  apply M_bind_inv in H as (? & c3 & [= _ <-] & H). apply M_bind_inv in H as ([] & c4 & Hf & H).
  apply failAll_spec in Hf as (Hl & _); [|done].
  apply M_bind_inv in H as (? & c5 & [= _ <-] & H). injection H as <-. simpl. rewrite Hl.
  unfold beginShutdown. simpl. by destruct (shutdownStarted _).
Qed.

(** C1: failing a client settles everything it owns: the first failure is its
    cause, every routing table of saved or armed work is empty, no call is
    pending, and every registered run is over; each of them only took run
    steps, and one that was still open ended with that cause. *)
Theorem failClient_settles {PT : ProtocolTypes} {Response} (e : error) (c c' : client (Response := Response))
    (Hopen : l_closed (c_life c) = false) (H : failClient e c = Some (tt, c')) :
  l_closed (c_life c') = true /\ closeReason (c_life c') = Some e /\ failure (c_life c') = Some e /\
  closeCausePublished (c_life c') = true /\ shutdownStarted (c_life c') = true /\
  tables_cleared (c_tables c') /\ pending (c_calls c') = ∅ /\
  forall r s, registered c r -> runs c !! r = Some s -> exists s', runs c' !! r = Some s' /\ settled e s s'.
Proof.
  unfold failClient in H. apply M_bind_inv in H as (c0 & ? & [= <- <-] & H).
  unfold claimClientFailure, claimFailureLocked in H. rewrite Hopen in H.
  apply M_bind_inv in H as (? & c1 & [= _ <-] & H). apply M_bind_inv in H as (? & c2 & [= _ <-] & H).
  apply M_bind_inv in H as (? & c3 & [= _ <-] & H). apply M_bind_inv in H as ([] & c4 & Hf & H).
  apply failAll_spec in Hf as (Hl & Ht & Hp & Hr); [|done].
  apply M_bind_inv in H as (? & c5 & [= _ <-] & H). injection H as <-. simpl. rewrite Hl.
  unfold beginShutdown. simpl. destruct (shutdownStarted (c_life c)) eqn:Es; simpl; split_and!; try done; try exact Hr.
Qed.

Section routing.
Context {PT : ProtocolTypes} {Response : Type}.
Implicit Types (c : client (Response := Response)).

Lemma deliver_all_runs l n c x c' :
  deliver_all l n c = Some (x, c') -> forall r, r ∉ l -> runs c' !! r = runs c !! r.
Proof.
  revert c x. induction l as [|r0 l IH]; intros c x H r Hr; [by injection H as _ <-|].
  apply not_elem_of_cons in Hr as [Hne Hr]. simpl in H.
  apply M_bind_inv in H as (y & c1 & Ha & H). apply M_bind_inv in H as ([cs e] & c2 & Hd & H).
  injection H as _ <-. rewrite (IH _ _ Hd r Hr). unfold accept_run in Ha.
  destruct (runs c !! r0); [|by simplify_eq].
  destruct (acceptRetainedBeforeTerminalCompletion _ _ _ _) as [[[? ?] ?]|]; [|done].
  injection Ha as _ <-. simpl. by rewrite lookup_insert_ne.
Qed.

Lemma reserve_runs count bytes c x c' :
  reserve_m count bytes c = Some (x, c') -> runs c' = runs c.
Proof. unfold reserve_m. destruct (reserve _ _ _). by intros [= _ <-]. Qed.

Lemma save_thread_fact_runs thread n c x c' :
  save_thread_fact thread n c = Some (x, c') -> runs c' = runs c.
Proof.
  intros H. apply M_bind_inv in H as (l & c1 & Hr & H). apply reserve_runs in Hr.
  destruct l as [l|e]; [|by injection H as _ <-].
  apply M_bind_inv in H as (? & c2 & [= _ <-] & H). by injection H as _ <-.
Qed.

Lemma save_evidence_runs n typed turn owner c x c' :
  save_evidence n typed turn owner c = Some (x, c') -> runs c' = runs c.
Proof.
  intros H. apply M_bind_inv in H as (l & c1 & Hr & H). apply reserve_runs in Hr.
  destruct l as [l|e]; [|by injection H as _ <-].
  apply M_bind_inv in H as (? & c2 & [= _ <-] & H). apply M_bind_inv in H as (? & c3 & [= _ <-] & H).
  apply M_bind_inv in H as (? & c4 & [= _ <-] & H). by injection H as _ <-.
Qed.

Lemma delivery_failure_closed e c c' :
  failExactNotificationDelivery e c = Some (tt, c') -> isClosed c' = true.
Proof. apply failClient_closed. Qed.

Lemma targets_match c i r s :
  runs c !! r = Some s -> matchesRun i (run_threadID s) (run_turnID s) = false ->
  r ∉ turn_targets c i /\ r ∉ thread_targets c i.
Proof.
  intros Hs Hm. unfold turn_targets, thread_targets.
  assert (matchesRun i (run_thread c r) (turnIDSnapshot c r) = false) as Hf
    by (unfold run_thread, turnIDSnapshot; by rewrite Hs).
  rewrite not_elem_of_app, !list_elem_of_filter. rewrite Hf. split; [split|]; intros [? _]; naive_solver.
Qed.
End routing.

(** Routing is isolated: a typed notification changes no run whose thread or
    turn it contradicts, unless its routing fails the whole client. *)
Theorem route_isolated {PT : ProtocolTypes} {Response} (n : rpcNotification) (typed : ServerNotification)
    (c c' : client (Response := Response)) x (r : nat) (s : exactRunState Response)
    (H : routeExactNotificationBeforeTerminalCompletion n typed c = Some (x, c'))
    (Halive : isClosed c' = false) (Hs : runs c !! r = Some s)
    (Hother : matchesRun (attributionFor typed).2 (run_threadID s) (run_turnID s) = false) :
  runs c' !! r = Some s.
Proof.
  unfold routeExactNotificationBeforeTerminalCompletion in H.
  destruct (attributionFor typed) as [class i]. simpl in Hother.
  destruct (targets_match c i r s Hs Hother) as [Ht1 Ht2].
  assert (forall c0 targets (k : list completion * option error -> M (bool * list completion * option nat)),
    runs c0 = runs c -> r ∉ targets ->
    (forall p c1 y c2, k p c1 = Some (y, c2) -> c2 = c1 \/ isClosed c2 = true) ->
    (deliver_all targets typed ≫= k) c0 = Some (x, c') -> runs c' !! r = Some s) as Hdeliver.
  { intros c0 targets k Hc0 Hr Hk Hd. apply M_bind_inv in Hd as (p & c1 & Hd & Hke).
    apply Hk in Hke as [-> | Hcl]; [|congruence]. rewrite (deliver_all_runs _ _ _ _ _ Hd r Hr). congruence. }
  destruct class; [by injection H as _ <-| | | by injection H as _ <-];
    (apply M_bind_inv in H as (c0 & ? & [= <- <-] & H);
     destruct (isClosed c); [by injection H as _ <-|];
     apply M_bind_inv in H as (failed & c1 & Hsave & H)).
  all: assert (runs c1 = runs c) as Hc1
    by (clear -Hsave; repeat case_match; first [by eapply save_thread_fact_runs | by injection Hsave as _ <-]).
  all: destruct failed as [e|];
    [apply M_bind_inv in H as ([] & c2 & Hf & H); apply failClient_closed in Hf; injection H as _ <-; congruence|].
  all: assert (forall targets, r ∉ targets ->
     ('(completions, err) ← deliver_all targets typed;
      _ ← match err with Some e => failExactNotificationDelivery e | None => skip end;
      mret (match targets with [] => false | _ => true end, completions, None)) c1 = Some (x, c') ->
     runs c' !! r = Some s) as Hgo.
  1,3: intros targets Hr; apply Hdeliver; [done | done|]; intros [cs err] c2 y c3 Hk;
     apply M_bind_inv in Hk as ([] & c4 & Hf & [= _ <-]);
     destruct err; [right; by eapply delivery_failure_closed | left; by injection Hf as <-].
  all: match type of H with context [match ?t with [] => _ | _ :: _ => _ end] => destruct t eqn:Et end;
    [|by eapply Hgo; [|exact H]].
  all: destruct (armed_owner c i); [|apply (Hgo []); [apply not_elem_of_nil | exact H]].
  all: apply M_bind_inv in H as (saved & c2 & Hsv & H); apply save_evidence_runs in Hsv.
  all: destruct saved; [injection H as _ <-; congruence|].
  all: apply M_bind_inv in H as ([] & c3 & Hf & H); apply failClient_closed in Hf; injection H as _ <-; congruence.
Qed.

(** A client with one live run of turn [u1] that has one item. *)
Definition open_client : client (PT := sample_protocol) (Response := unit) := {|
  hasServerHandler := true; rawMethods := None; queue_capacity := 64; c_life := initial_life;
  retention := sample_budget; runs := {[0 := item_run]};
  c_tables := {| exactStreams := {["u1" := [0]]}; exactAttaching := ∅; pendingEvents := ∅;
                 armedThreadAttach := []; armedTurnAttach := ∅; pendingThread := ∅;
                 replayingEvents := ∅; pendingDiagnostics := ∅; attachmentRetention := ∅ |};
  evidences := ∅; next_evidence := 0; queue := []; c_calls := initial_calls; call_data := ∅ |}.

Definition sample_failure := failClient (Sentinel "boom") open_client.
Lemma sample_failure_ends : sample_failure = Some (tt, end_of open_client sample_failure).
Proof. apply ends_with. vm_compute. reflexivity. Qed.

Lemma failClient_settles_witness :
  (exists s', runs (end_of open_client sample_failure) !! 0 = Some s' /\ settled (Sentinel "boom") item_run s') /\
  closeReason (c_life (end_of open_client sample_failure)) = Some (Sentinel "boom").
Proof.
  split.
  - apply (failClient_settles (Sentinel "boom") open_client _ eq_refl sample_failure_ends);
      [unfold registered; vm_compute; by left | vm_compute; reflexivity].
  - apply (failClient_settles (Sentinel "boom") open_client _ eq_refl sample_failure_ends).
Defined.

Definition stray_item := sample_item "t2" "u1".
Definition stray_rpc : rpcNotification :=
  {| envelope := None; method := "item/started"; params := None; evidence := None; n_retained := None |}.
Definition sample_routing := routeExactNotificationBeforeTerminalCompletion (PT := sample_protocol)
  stray_rpc stray_item open_client.
Lemma sample_routing_ends : sample_routing = Some ((false, [], None), end_of open_client sample_routing).
Proof. apply ends_with. vm_compute. reflexivity. Qed.
Lemma sample_routing_open : isClosed (end_of open_client sample_routing) = false.
Proof. vm_compute. reflexivity. Qed.
Lemma stray_item_unmatched :
  matchesRun (attributionFor (PT := sample_protocol) stray_item).2 (run_threadID item_run) (run_turnID item_run) = false.
Proof. vm_compute. reflexivity. Qed.

Lemma route_isolated_witness : runs (end_of open_client sample_routing) !! 0 = Some item_run.
Proof.
  apply (route_isolated (PT := sample_protocol) stray_rpc stray_item open_client _ _ 0 item_run sample_routing_ends
           sample_routing_open eq_refl stray_item_unmatched).
Defined.
