(* ===== verification/LlmSchema.v ===== *)
(** Structured-output contracts: [src/llmkit/llmschema/schema.go].

    A response is text; its lexemes, the projection of a Go type to a schema
    (package jsonschema), the compiled validator and [json.Unmarshal] into the
    type are parameters.  The validator's error is the tree of the validator
    package. *)

From S2P Require Import Prelude GoStrings JsonLex Json Envelope.
From Stdlib Require Import Sorting.Sorted.

Local Open Scope string_scope.
Local Open Scope list_scope.

(** * Violations *)

Record Violation := { v_Path : string; v_Keyword : string; v_Message : string }.

#[export] Instance Violation_eq_dec : EqDecision Violation.
Proof. solve_decision. Defined.

Definition SchemaValidationError (vs : list Violation) : error :=
  Typed (SchemaValidationT (map (fun v => (v_Path v, v_Keyword v, v_Message v)) vs)) [].

(** [validator.ValidationError]: where, which keyword, and why. *)
Inductive ValidationError := mkValidationError (location keywordPath : list string) (causes : list ValidationError).

(** Whatever the validator returns: no error, a validation error, another error. *)
Inductive validation := Valid | Invalid (e : ValidationError) | ValidatorFailed (e : error).

Definition jsonPointer (tokens : list string) : string :=
  foldr (fun t acc => "/" +:+ escapePointer t +:+ acc) "" tokens.

Fixpoint visit (e : ValidationError) : list Violation :=
  match e with
  | mkValidationError location keywordPath [] =>
    let keyword := match last keywordPath with Some k => k | None => "schema" end in
    [{| v_Path := jsonPointer location; v_Keyword := keyword;
        v_Message := keyword +:+ " constraint failed" |}]
  | mkValidationError _ _ causes => flat_map visit causes
  end.

(** The comparison of the stable sort, as "not after". *)
Definition violation_le (a b : Violation) : bool :=
  if negb (String.eqb (v_Path a) (v_Path b)) then str_le (v_Path a) (v_Path b)
  else if negb (String.eqb (v_Keyword a) (v_Keyword b)) then str_le (v_Keyword a) (v_Keyword b)
  else str_le (v_Message a) (v_Message b).

Fixpoint insert_violation (x : Violation) (l : list Violation) : list Violation :=
  match l with
  | [] => [x]
  | y :: l' => if violation_le x y then x :: y :: l' else y :: insert_violation x l'
  end.

Definition collectViolations (root : ValidationError) : list Violation :=
  foldr insert_violation [] (visit root).

(** * Contracts *)

Definition ErrUncompiledContract : error := Sentinel "llmschema: contract is not compiled".

Record Contract := { c_schema : option (list lexeme); c_compiled : option (JSONValue -> validation) }.

Definition zero_contract : Contract := {| c_schema := None; c_compiled := None |}.

Definition Compiled (c : Contract) : bool := match c_compiled c with Some _ => true | None => false end.

Definition SchemaJSON (c : Contract) : option (list lexeme) :=
  match c_compiled c, c_schema c with
  | Some _, Some (l :: s) => Some (l :: s)
  | _, _ => None
  end.

(** [decodeJSON]: exactly one value. *)
Definition decodeJSON (data : list lexeme) : res JSONValue :=
  '(raw, d) ← DecodeRaw (NewDecoder data);
  instance ← build_any raw [];
  match DecodeRaw d with
  | Ok _ => Err (Errorf "multiple JSON values" [])
  | Err e => if errors_is "EOF" e then Ok instance else Err e
  end.

Definition validateCompiled (compiled : JSONValue -> validation) (instance : JSONValue) : res unit :=
  match compiled instance with
  | Valid => Ok tt
  | Invalid e => Err (SchemaValidationError (collectViolations e))
  | ValidatorFailed e => Err (Errorf "validate structured output: %w" [e])
  end.

Section contract.
Context {T : Type} (unmarshal : list lexeme -> res T).
(** [schemaFor]: project the type and marshal the projection; [addResource] and
    [compileResource]: the two calls on the validator's compiler. *)
Context {S R : Type} (schemaFor : res S) (marshalSchema : S -> res (list lexeme)).
Context (addResource : JSONValue -> res R) (compileResource : R -> res (JSONValue -> validation)).

Definition compileSchema (schema : list lexeme) : res (JSONValue -> validation) :=
  match unmarshalJSONPreserveNumbers schema with
  | Err e => Err (Errorf "decode generated schema: %w" [e])
  | Ok document =>
    match addResource document with
    | Err e => Err (Errorf "register generated schema: %w" [e])
    | Ok compiler =>
      match compileResource compiler with
      | Err e => Err (Errorf "compile generated schema: %w" [e])
      | Ok compiled => Ok compiled
      end
    end
  end.

Definition SchemaJSONFor : res (list lexeme) :=
  schema ← schemaFor;
  match marshalSchema schema with
  | Err e => Err (Errorf "marshal structured output schema: %w" [e])
  | Ok data => Ok data
  end.

Definition Compile : res Contract :=
  schema ← SchemaJSONFor; compiled ← compileSchema schema;
  Ok {| c_schema := Some schema; c_compiled := Some compiled |}.

Definition Contract_Decode (c : Contract) (data : list lexeme) : res T :=
  match c_compiled c with
  | None => Err ErrUncompiledContract
  | Some compiled =>
    match decodeJSON data with
    | Err e => Err (Errorf "decode structured output: %w" [e])
    | Ok instance =>
      _ ← validateCompiled compiled instance;
      match unmarshal data with
      | Err e => Err (Errorf "decode structured output: %w" [e])
      | Ok value => Ok value
      end
    end
  end.

Definition Decode (data : list lexeme) : res T := c ← Compile; Contract_Decode c data.
End contract.

(** * Theorems *)

(** The leaves of a validation error: its violations before sorting. *)
Inductive leaf : ValidationError -> list string -> list string -> Prop :=
| leaf_here location keywordPath : leaf (mkValidationError location keywordPath []) location keywordPath
| leaf_below location keywordPath causes e l k :
    e ∈ causes -> leaf e l k -> leaf (mkValidationError location keywordPath causes) l k.

Lemma insert_violation_perm x l : insert_violation x l ≡ₚ x :: l.
Proof.
  induction l as [|y l IH]; simpl; [done|]. destruct (violation_le x y); [done|].
  rewrite IH. by rewrite Permutation_swap.
Qed.

Lemma collect_perm e : collectViolations e ≡ₚ visit e.
Proof.
  unfold collectViolations. induction (visit e) as [|x l IH]; simpl; [done|].
  by rewrite insert_violation_perm, IH.
Qed.

Fixpoint verror_size (e : ValidationError) : nat :=
  match e with mkValidationError _ _ causes => S (list_sum (map verror_size causes)) end.

Lemma cause_size e causes : e ∈ causes -> verror_size e <= list_sum (map verror_size causes).
Proof.
  induction causes as [|x l IH]; [by intros ?%not_elem_of_nil|].
  intros [->|H]%elem_of_cons; simpl; [lia|]. specialize (IH H). lia.
Qed.

Definition violation_at (location keywordPath : list string) : Violation :=
  let keyword := match last keywordPath with Some k => k | None => "schema" end in
  {| v_Path := jsonPointer location; v_Keyword := keyword; v_Message := keyword +:+ " constraint failed" |}.

Lemma visit_leaf n e v : verror_size e < n ->
  v ∈ visit e <-> exists l k, leaf e l k /\ v = violation_at l k.
Proof.
  revert e. induction n as [|n IH]; intros [loc kp causes] Hn; [lia|]. simpl in Hn.
  destruct causes as [|c cs].
  - simpl. rewrite list_elem_of_singleton. split.
    + intros ->. exists loc, kp. split; [constructor | done].
    + intros (l & k & Hl & ->). inversion Hl as [|? ? ? ? ? ? He]; subst; [done|]. by apply not_elem_of_nil in He.
  - change (visit _) with (flat_map visit (c :: cs)). rewrite list_elem_of_In, in_flat_map. split.
    + intros (e & He & Hv). apply list_elem_of_In in He, Hv.
      pose proof (cause_size e (c :: cs) He). apply IH in Hv as (l & k & Hl & ->); [|lia].
      exists l, k. split; [by econstructor | done].
    + intros (l & k & Hl & ->). inversion Hl as [|? ? ? e ? ? He Hle]; subst.
      pose proof (cause_size e (c :: cs) He). exists e. rewrite <- !list_elem_of_In. split; [done|].
      apply IH; [lia | eauto].
Qed.

Lemma str_le_total a b : str_le a b = true \/ str_le b a = true.
Proof.
  revert b. induction a as [|c a IH]; intros [|d b]; simpl; auto.
  rewrite !orb_true_iff, !andb_true_iff, !Nat.ltb_lt, !Nat.eqb_eq. specialize (IH b).
  destruct (Nat.lt_total (Ascii.nat_of_ascii c) (Ascii.nat_of_ascii d)) as [?|[?|?]]; intuition.
Qed.

Lemma violation_le_total a b : violation_le a b = false -> violation_le b a = true.
Proof.
  unfold violation_le. rewrite (String.eqb_sym (v_Path b)), (String.eqb_sym (v_Keyword b)).
  pose proof (str_le_total (v_Path a) (v_Path b)). pose proof (str_le_total (v_Keyword a) (v_Keyword b)).
  pose proof (str_le_total (v_Message a) (v_Message b)).
  repeat case_match; intuition congruence.
Qed.

Lemma insert_violation_sorted x l : Sorted violation_le l -> Sorted violation_le (insert_violation x l).
Proof.
  induction 1 as [|y l Hs IH Hd]; simpl; [by repeat constructor|].
  destruct (violation_le x y) eqn:E; [constructor; [by constructor | constructor; by rewrite E]|].
  apply violation_le_total in E. constructor; [done|].
  destruct l as [|z l]; simpl in *; [by constructor; rewrite E|].
  inversion Hd as [|? ? Hz]; subst. by destruct (violation_le x z); constructor; rewrite ?E.
Qed.

(** The violations a validation error is reported with are exactly the
    constraints that failed at its leaves, each at the JSON pointer of its
    location and under the last step of its keyword path, with the same
    multiplicity, in the documented stable order. *)
Theorem collectViolations_spec (e : ValidationError) :
  Sorted violation_le (collectViolations e) /\ collectViolations e ≡ₚ visit e /\
  (forall v, v ∈ collectViolations e <-> exists l k, leaf e l k /\ v = violation_at l k).
Proof.
  split; [|split; [apply collect_perm|]].
  - unfold collectViolations. induction (visit e); simpl; [constructor | by apply insert_violation_sorted].
  - intros v. rewrite (collect_perm e). apply (visit_leaf (S (verror_size e))). lia.
Qed.

Lemma DecodeRaw_top (input raw : list lexeme) d :
  DecodeRaw (NewDecoder input) = Ok (raw, d) ->
  exists rest, input = raw ++ rest /\ complete raw /\ d = NewDecoder rest.
Proof.
  unfold DecodeRaw, NewDecoder. cbn -[scan_value]. destruct input as [|l input]; [done|].
  destruct (scan_value TTop [] [] (l :: input)) as [[raw' rest]|] eqn:E; [|done].
  intros [= -> <-]. apply scan_value_split in E as (mid & _ & Hr & Hi & Hall). simpl in Hr. subst mid.
  exists rest. split; [done|]. split; [|done]. unfold complete.
  specialize (Hall []). by rewrite app_nil_r in Hall.
Qed.

Lemma DecodeRaw_top_complete raw rest :
  complete raw -> DecodeRaw (NewDecoder (raw ++ rest)) = Ok (raw, NewDecoder rest).
Proof.
  intros H. unfold DecodeRaw, NewDecoder. cbn -[scan_value app].
  pose proof (complete_cons raw H) as (l & raw' & Hraw).
  pose proof (complete_app raw rest H) as Happ. rewrite Hraw in Happ |- *.
  cbn [app] in *. by rewrite Happ.
Qed.

Lemma DecodeRaw_top_eof input e :
  DecodeRaw (NewDecoder input) = Err e -> errors_is "EOF" e = true -> input = [].
Proof.
  unfold DecodeRaw, NewDecoder. cbn -[scan_value]. destruct input; [done|].
  destruct (scan_value TTop [] [] _) as [[? ?]|]; [done|]. by intros [= <-].
Qed.

Lemma decodeJSON_spec data v : decodeJSON data = Ok v <-> complete data /\ build_any data [] = Ok v.
Proof.
  unfold decodeJSON. split.
  - intros H. apply bind_Ok in H as ([raw d] & Hd & H). apply bind_Ok in H as (w & Hw & H).
    apply DecodeRaw_top in Hd as (rest & -> & Hraw & ->).
    destruct (DecodeRaw (NewDecoder rest)) as [?|e] eqn:E; [done|].
    destruct (errors_is "EOF" e) eqn:Ee; [|done]. injection H as ->.
    rewrite (DecodeRaw_top_eof _ _ E Ee), app_nil_r. done.
  - intros [Hc Hb]. pose proof (DecodeRaw_top_complete data [] Hc) as Hd. rewrite app_nil_r in Hd.
    rewrite Hd. simpl. by rewrite Hb.
Qed.

(** A contract decodes a text to a value exactly when it was compiled, the
    text is one whole JSON value and nothing else, that value is valid for the
    compiled schema, and the same text unmarshals into the type: nothing the
    validator did not see, and nothing after it, reaches the value. *)
Theorem Contract_Decode_spec {T} (unmarshal : list lexeme -> res T) (c : Contract) (data : list lexeme) (value : T) :
  Contract_Decode unmarshal c data = Ok value <->
  exists compiled instance, c_compiled c = Some compiled /\ complete data /\
    build_any data [] = Ok instance /\ compiled instance = Valid /\ unmarshal data = Ok value.
Proof.
  unfold Contract_Decode, validateCompiled. split.
  - intros H. destruct (c_compiled c) as [compiled|]; [|done].
    destruct (decodeJSON data) as [instance|] eqn:Ed; [|done]. apply decodeJSON_spec in Ed as [Hc Hb].
    destruct (compiled instance) eqn:Ev; try done. simpl in H.
    destruct (unmarshal data) eqn:Eu; [|done]. injection H as ->. eauto 10.
  - intros (compiled & instance & -> & Hc & Hb & Hv & Hu).
    rewrite (proj2 (decodeJSON_spec data instance) (conj Hc Hb)), Hv. simpl. by rewrite Hu.
Qed.
