(* ===== verification/LlmAdapter.v ===== *)
(** The provider-neutral inference adapter:
    [src/llmkit/llmadapter/observation.go] and [adapter.go].

    A caller is a function over a world [W], the state of everything the call
    can reach (the provider, its transport, the clock of the context); the
    context is the read [ctxErr] of that world.  A clone of a pointer field is
    the value it points to: no modelled code writes through a pointer it
    received or published. *)

From S2P Require Import Prelude GoStrings JsonLex LlmSchema.

Local Open Scope string_scope.
Local Open Scope list_scope.

(** * Observations *)

Inductive Observation (T : Type) := Unknown | Observed (value : T).
Arguments Unknown {T}.
Arguments Observed {T} value.

#[export] Instance Observation_eq_dec `{EqDecision T} : EqDecision (Observation T).
Proof. solve_decision. Defined.

Definition Present {T} (o : Observation T) : bool := match o with Observed _ => true | Unknown => false end.

Definition Observation_Value {T} (zero : T) (o : Observation T) : T * bool :=
  match o with Observed v => (v, true) | Unknown => (zero, false) end.

(** * Evidence *)

Record TokenUsage := {
  Input : Observation Z; CachedInput : Observation Z; Output : Observation Z; ReasoningOutput : Observation Z }.

Record ExecutionEvidence := {
  BackendName : string; ProviderName : Observation string; Model : Observation string;
  Usage : option TokenUsage }.

Definition zero_evidence : ExecutionEvidence :=
  {| BackendName := ""; ProviderName := Unknown; Model := Unknown; Usage := None |}.

(** The receivers are pointers: [None] is the nil one. *)
Definition ObserveCounts (u : option TokenUsage) (input cachedInput output reasoningOutput : Z) : option TokenUsage :=
  _ ← u;
  Some {| Input := Observed input; CachedInput := Observed cachedInput;
          Output := Observed output; ReasoningOutput := Observed reasoningOutput |}.

Definition ObserveProviderName (e : option ExecutionEvidence) (provider : string) : option ExecutionEvidence :=
  e ← e;
  Some {| BackendName := BackendName e; ProviderName := Observed provider; Model := Model e; Usage := Usage e |}.

Definition ObserveModel (e : option ExecutionEvidence) (model : string) : option ExecutionEvidence :=
  e ← e;
  Some {| BackendName := BackendName e; ProviderName := ProviderName e; Model := Observed model; Usage := Usage e |}.

(** [BackendDetails]: the nil interface, an interface holding a nil pointer, or
    a value with its name. *)
Inductive BackendDetails := NoDetails | TypedNilDetails | Details (name : string).

Record Request := { Prompt : string; OutputSchema : option (list lexeme) }.

Record Response := {
  FinalResponse : Observation string; Execution : ExecutionEvidence; Backend : BackendDetails }.

Definition zero_response : Response :=
  {| FinalResponse := Unknown; Execution := zero_evidence; Backend := NoDetails |}.

Definition ErrNilCaller : error := Sentinel "llmadapter: caller is nil".
Definition ErrMissingResponse : error := Sentinel "llmadapter: final response is missing".
Definition ErrEmptyResponse : error := Sentinel "llmadapter: final response is empty".
Definition ErrBackendIdentityMismatch : error := Sentinel "llmadapter: backend identity mismatch".

Inductive ValueStage := ValueStageRequest | ValueStageCall | ValueStageDecode.

Definition stage_text (s : ValueStage) : string :=
  match s with ValueStageRequest => "request" | ValueStageCall => "call" | ValueStageDecode => "decode" end.

Definition valueError (stage : ValueStage) (err : error) : error := Typed (ValueErrorT (stage_text stage)) [err].

Definition validateBackendIdentity (response : Response) : option error :=
  match Backend response with
  | NoDetails => None
  | TypedNilDetails => Some (Errorf "%w: backend details is typed nil" [ErrBackendIdentityMismatch])
  | Details name =>
    let executionName := trim_space (BackendName (Execution response)) in
    let detailsName := trim_space name in
    if String.eqb executionName "" || String.eqb detailsName "" then
      Some (Errorf "%w: empty backend identity execution=%q details=%q" [ErrBackendIdentityMismatch])
    else if negb (String.eqb executionName detailsName) then
      Some (Errorf "%w: execution=%q details=%q" [ErrBackendIdentityMismatch])
    else None
  end.

Definition cloneRequest (request : Request) : Request :=
  {| Prompt := Prompt request;
     OutputSchema := match OutputSchema request with Some (l :: s) => Some (l :: s) | _ => None end |}.

Definition cloneResponse (response : Response) : Response := response.

(** * Calls *)

(** [Caller]: the nil interface, an interface holding a nil value, a caller. *)
Inductive Caller (W : Type) :=
| NilCaller
| TypedNilCaller
| CallerFunc (call : Request -> W -> (Response * option error) * W).
Arguments NilCaller {W}.
Arguments TypedNilCaller {W}.
Arguments CallerFunc {W} call.

Record ValueResult (T : Type) := { Value : T; result_Response : Response }.
Arguments Value {T} v.
Arguments result_Response {T} v.

(** [scan] lexes the bytes of the final response; [unmarshal] is
    [json.Unmarshal] into [T], whose zero value is [zero]. *)
Section value.
Context {W T : Type} (ctxErr : W -> option error).
Context (scan : string -> list lexeme) (unmarshal : list lexeme -> res T) (zero : T).

Definition decodeFinalResponse (final : Observation string) (contract : Contract) : res T :=
  let '(raw, ok) := Observation_Value "" final in
  if negb ok then Err ErrMissingResponse
  else if String.eqb (trim_space raw) "" then Err ErrEmptyResponse
  else Contract_Decode unmarshal contract (scan raw).

Definition zero_result : ValueResult T := {| Value := zero; result_Response := zero_response |}.

Definition ValueWithContract (caller : Caller W) (prompt : string) (contract : Contract) (w : W)
    : (ValueResult T * option error) * W :=
  match caller with
  | NilCaller | TypedNilCaller => ((zero_result, Some (valueError ValueStageCall ErrNilCaller)), w)
  | CallerFunc call =>
    if negb (Compiled contract) then
      ((zero_result, Some (valueError ValueStageRequest ErrUncompiledContract)), w)
    else
    let request := {| Prompt := prompt; OutputSchema := SchemaJSON contract |} in
    let '((response, callErr), w) := call (cloneRequest request) w in
    let result := {| Value := zero; result_Response := cloneResponse response |} in
    let identityErr := validateBackendIdentity response in
    match errors_join [callErr; identityErr] with
    | Some e => ((result, Some (valueError ValueStageCall e)), w)
    | None =>
      match ctxErr w with
      | Some e => ((result, Some (valueError ValueStageCall e)), w)
      | None =>
        match decodeFinalResponse (FinalResponse response) contract with
        | Err e => ((result, Some (valueError ValueStageDecode e)), w)
        | Ok value => (({| Value := value; result_Response := result_Response result |}, None), w)
        end
      end
    end
  end.

(** [Value]: [compile] is the compilation of the contract of [T]. *)
Definition Value_call (compile : res Contract) (caller : Caller W) (prompt : string) (w : W)
    : (ValueResult T * option error) * W :=
  match compile with
  | Err e => ((zero_result, Some (valueError ValueStageRequest e)), w)
  | Ok contract => ValueWithContract caller prompt contract w
  end.

(** * Theorems *)

(** A response whose backend identity is consistent: no details, or details
    whose trimmed name is the trimmed, non-blank backend name. *)
Definition identity_agrees (response : Response) : Prop :=
  match Backend response with
  | NoDetails => True
  | TypedNilDetails => False
  | Details name => trim_space name = trim_space (BackendName (Execution response)) /\ trim_space name <> ""
  end.

Lemma validateBackendIdentity_spec response :
  validateBackendIdentity response = None <-> identity_agrees response.
Proof.
  unfold validateBackendIdentity, identity_agrees. destruct (Backend response); [done..|].
  destruct (String.eqb_spec (trim_space (BackendName (Execution response))) "") as [E|E]; simpl.
  { split; [done|]. intros []. congruence. }
  destruct (String.eqb_spec (trim_space name) "") as [F|F]; simpl; [by split; [|intros []]|].
  destruct (String.eqb_spec (trim_space (BackendName (Execution response))) (trim_space name)); simpl.
  - done.
  - split; [done | intros []; congruence].
Qed.

Lemma decodeFinalResponse_spec final contract value :
  decodeFinalResponse final contract = Ok value <->
  exists raw, final = Observed raw /\ trim_space raw <> "" /\
    Contract_Decode unmarshal contract (scan raw) = Ok value.
Proof.
  unfold decodeFinalResponse. destruct final as [|raw]; simpl.
  - split; [done | by intros (? & ? & _)].
  - destruct (String.eqb_spec (trim_space raw) ""); split; try done.
    + by intros (? & [= <-] & ? & _).
    + eauto.
    + by intros (? & [= <-] & ? & ?).
Qed.

(** Typed inference succeeds exactly when a real caller was asked, with the
    compiled contract's schema, and returned no error, its evidence is about
    one backend, the context is still live after the call, and the observed
    non-blank final response decodes under the same contract; the result then
    carries that value and that response. *)
Theorem ValueWithContract_ok caller prompt contract w result w' :
  ValueWithContract caller prompt contract w = ((result, None), w') <->
  exists call response raw, caller = CallerFunc call /\ Compiled contract = true /\
    call (cloneRequest {| Prompt := prompt; OutputSchema := SchemaJSON contract |}) w = ((response, None), w') /\
    identity_agrees response /\ ctxErr w' = None /\
    FinalResponse response = Observed raw /\ trim_space raw <> "" /\
    Contract_Decode unmarshal contract (scan raw) = Ok (Value result) /\
    result_Response result = response.
Proof.
  unfold ValueWithContract. split.
  - intros H. destruct caller as [| |call]; [done..|].
    destruct (Compiled contract); [|done]. simpl in H.
    destruct (call _ w) as [[response callErr] w1] eqn:Ec.
    destruct (errors_join _) eqn:Ej; [done|]. apply errors_join_None in Ej.
    apply Forall_cons in Ej as [-> [Hi _]%Forall_cons]. apply validateBackendIdentity_spec in Hi.
    destruct (ctxErr w1) eqn:Ex; [done|].
    destruct (decodeFinalResponse _ _) as [v|] eqn:Ed; [|done]. injection H as <- <-.
    apply decodeFinalResponse_spec in Ed as (raw & Hf & Ht & Hd). by exists call, response, raw.
  - intros (call & response & raw & -> & -> & Hc & Hi & Hx & Hf & Ht & Hd & Hr). simpl.
    rewrite Hc, (proj2 (validateBackendIdentity_spec response) Hi). simpl. rewrite Hx.
    rewrite (proj2 (decodeFinalResponse_spec _ contract (Value result))) by eauto.
    destruct result; simpl in *. by subst.
Qed.

(** A failed typed inference names its stage and keeps its evidence: before
    the call nothing happened and there is none; at and after the call the
    result carries exactly the caller's response, and every sentinel the
    caller's error wraps, and the identity mismatch when there is one, can be
    found below the returned error. *)
Theorem ValueWithContract_error caller prompt contract w result e w'
    (H : ValueWithContract caller prompt contract w = ((result, Some e), w')) :
  (w' = w /\ result = zero_result /\
    (e = valueError ValueStageCall ErrNilCaller \/ e = valueError ValueStageRequest ErrUncompiledContract)) \/
  (exists call response callErr, caller = CallerFunc call /\
    call (cloneRequest {| Prompt := prompt; OutputSchema := SchemaJSON contract |}) w = ((response, callErr), w') /\
    Value result = zero /\ result_Response result = response /\
    (forall c t, callErr = Some c -> errors_is t c = true ->
       errors_types e = ValueErrorT "call" :: tail (errors_types e) /\ errors_is t e = true) /\
    (~ identity_agrees response ->
       errors_is "llmadapter: backend identity mismatch" e = true) /\
    (callErr = None -> identity_agrees response -> ctxErr w' = None ->
       exists d, e = valueError ValueStageDecode d /\ decodeFinalResponse (FinalResponse response) contract = Err d)).
Proof.
  unfold ValueWithContract in H. destruct caller as [| |call]; [simplify_eq; eauto..|].
  destruct (Compiled contract); simpl in H; [|simplify_eq; eauto].
  destruct (call _ w) as [[response callErr] w1] eqn:Ec. right.
  destruct (errors_join [callErr; validateBackendIdentity response]) as [j|] eqn:Ej.
  - injection H as <- <- <-. exists call, response, callErr. repeat (split; [done|]). split_and!.
    + intros c t -> Ht. split; [done|]. simpl. rewrite orb_false_r.
      destruct (proj2 (errors_join_is t [Some c; validateBackendIdentity response])) as (j' & Hj & Hjt).
      { exists c. split; [constructor | done]. }
      congruence.
    + intros Hi. destruct (validateBackendIdentity response) as [i|] eqn:Ei.
      2: { by apply validateBackendIdentity_spec in Ei. }
      assert (errors_is "llmadapter: backend identity mismatch" i = true) as Hm.
      { unfold validateBackendIdentity in Ei. repeat case_match; simplify_eq; reflexivity. }
      destruct (proj2 (errors_join_is "llmadapter: backend identity mismatch" [callErr; Some i])) as (j' & Hj & Hjt).
      { exists i. split; [repeat constructor | done]. }
      simpl. rewrite orb_false_r. congruence.
    + intros -> Hi%validateBackendIdentity_spec. by rewrite Hi in Ej.
  - apply errors_join_None in Ej. apply Forall_cons in Ej as [-> [Hi _]%Forall_cons].
    apply validateBackendIdentity_spec in Hi.
    destruct (ctxErr w1) eqn:Ex; [|destruct (decodeFinalResponse _ _) eqn:Ed; [done|]];
      injection H as <- <- <-; exists call, response, None; simpl; split_and!; try done; eauto.
    intros. congruence.
Qed.
End value.

(** A contract for booleans and a caller that answers with a fixed response. *)
Definition bool_contract : Contract :=
  {| c_schema := Some [LBraceO; LStr "type"; LColon; LStr "boolean"; LBraceC];
     c_compiled := Some (fun v => match v with Json.JSONBool _ => Valid
                                  | _ => Invalid (mkValidationError [] ["type"] []) end) |}.

Definition read_bool (data : list lexeme) : res bool :=
  match data with [LBool b] => Ok b | _ => Err type_error end.

Definition scan_bool (raw : string) : list lexeme :=
  if String.eqb raw "true" then [LBool true] else if String.eqb raw "false" then [LBool false] else [LBad].

Definition mismatch_response : Response :=
  {| FinalResponse := Observed "true";
     Execution := {| BackendName := "one"; ProviderName := Unknown; Model := Unknown; Usage := None |};
     Backend := Details "two" |}.

Lemma ValueWithContract_error_witness :
  exists e, ValueWithContract (fun _ => None) scan_bool read_bool false
    (CallerFunc (fun _ w => ((mismatch_response, Some (Sentinel "provider failed")), S w))) "prompt" bool_contract 0%nat
    = (({| Value := false; result_Response := mismatch_response |}, Some e), 1%nat) /\
  errors_is "llmadapter: backend identity mismatch" e = true.
Proof.
  eexists. split; [reflexivity|].
  pose proof (ValueWithContract_error (fun _ => None) scan_bool read_bool false
    (CallerFunc (fun _ w => ((mismatch_response, Some (Sentinel "provider failed")), S w))) "prompt" bool_contract 0%nat
    _ _ _ eq_refl) as [(? & _)|(call & r & c & [= <-] & [= <- <-] & _ & _ & _ & Hi & _)]; [discriminate|].
  apply Hi. vm_compute. intros [H _]. discriminate H.
Defined.
