(* ===== verification/LlmStep.v ===== *)
(** Bounded structured-output steps: [src/llmkit/llmstep/step.go].

    The three hooks of a step are functions over the world of the adapter; a
    slice is [option (list A)], whose [None] is the nil slice.  Copies of
    slices are the values they hold: what a hook may do to the copy it received
    is confined to the world it returns. *)

From S2P Require Import Prelude GoStrings JsonLex LlmSchema LlmAdapter.

Local Open Scope string_scope.
Local Open Scope list_scope.

Definition ErrNilRender : error := Sentinel "llmstep: render is nil".
Definition ErrNilValidate : error := Sentinel "llmstep: validate is nil".
Definition ErrInvalidMaxIter : error := Sentinel "llmstep: maxIter must be at least 1".
Definition ErrMissingRepairProjection : error := Sentinel "llmstep: repair projection is required for retry".
Definition ErrExhausted : error := Sentinel "llmstep: no accepted judgment before maxIter".

Record Finding := {
  f_Summary : string; f_Codes : option (list string); f_Locations : option (list string) }.

Record Judgment := { Accepted : bool; Findings : option (list Finding) }.

Record Repair := {
  Iteration : Z; r_Summary : string; r_Codes : option (list string); r_Locations : option (list string) }.

Inductive Stage :=
| StageRender | StageRequest | StageCall | StageDecode | StageValidate | StageProjectRepair.

Definition Stage_text (s : Stage) : string :=
  match s with
  | StageRender => "render" | StageRequest => "request" | StageCall => "call" | StageDecode => "decode"
  | StageValidate => "validate" | StageProjectRepair => "project_repair"
  end.

Definition StepError (stage : Stage) (iteration : Z) (err : error) : error :=
  Typed (StepErrorT (Stage_text stage) iteration) [err].

(** * Copies *)

Definition copyStrings (values : option (list string)) : option (list string) :=
  vs ← values; Some vs.

Definition copyFindings (findings : option (list Finding)) : option (list Finding) :=
  fs ← findings;
  Some (map (fun item => {| f_Summary := f_Summary item; f_Codes := copyStrings (f_Codes item);
                            f_Locations := copyStrings (f_Locations item) |}) fs).

Definition copyRepair (repair : option (list Repair)) : option (list Repair) :=
  rs ← repair;
  Some (map (fun item => {| Iteration := Iteration item; r_Summary := r_Summary item;
                            r_Codes := copyStrings (r_Codes item);
                            r_Locations := copyStrings (r_Locations item) |}) rs).

Definition copyJudgment (judgment : option Judgment) : option Judgment :=
  j ← judgment; Some {| Accepted := Accepted j; Findings := copyFindings (Findings j) |}.

Definition stampIterations (repair : option (list Repair)) (iteration : Z) : option (list Repair) :=
  rs ← repair;
  Some (map (fun item => {| Iteration := iteration; r_Summary := r_Summary item;
                            r_Codes := r_Codes item; r_Locations := r_Locations item |}) rs).

Lemma copyStrings_id v : copyStrings v = v.
Proof. by destruct v. Qed.

Lemma copyFindings_id v : copyFindings v = v.
Proof.
  destruct v as [l|]; [|done]. simpl. f_equal. induction l as [|[]]; simpl; [done|].
  by rewrite !copyStrings_id, IHl.
Qed.

Lemma copyRepair_id v : copyRepair v = v.
Proof.
  destruct v as [l|]; [|done]. simpl. f_equal. induction l as [|[]]; simpl; [done|].
  by rewrite !copyStrings_id, IHl.
Qed.

Lemma copyJudgment_id v : copyJudgment v = v.
Proof. destruct v as [[]|]; [|done]. simpl. by rewrite copyFindings_id. Qed.

#[export] Hint Rewrite copyStrings_id copyFindings_id copyRepair_id copyJudgment_id : go_eqs.

(** * Runs *)

(** [valueStage]: the stage of the first [ValueError] below the error. *)
Definition valueStage (err : error) : Stage :=
  match errors_as (fun t => match t with ValueErrorT s => Some s | _ => None end) err with
  | Some "request" => StageRequest
  | Some "call" => StageCall
  | Some "decode" => StageDecode
  | _ => StageCall
  end.

Section step.
Context {W I O : Type} (ctxErr : W -> option error).
Context (scan : string -> list lexeme) (unmarshal : list lexeme -> res O) (zero : O).
(** [llmschema.Compile[O]]. *)
Context (compile : res Contract).

Record Step := {
  step_Caller : Caller W;
  Render : option (I -> option (list Repair) -> W -> (string * option error) * W);
  Validate : option (I -> O -> W -> (Judgment * option error) * W);
  MaxIter : Z;
  ProjectRepair : option (option (list Finding) -> W -> (option (list Repair) * option error) * W) }.

Record Attempt := {
  a_Iteration : Z; a_Repair : option (list Repair); a_Call : ValueResult O;
  a_Judgment : option Judgment; a_NextRepair : option (list Repair); a_Err : option error }.

Record Result := { r_Output : O; HasOutput : bool; Attempts : list Attempt }.

Definition zero_step_result : Result := {| r_Output := zero; HasOutput := false; Attempts := [] |}.
Definition new_attempt (iter : Z) (repair : option (list Repair)) : Attempt :=
  {| a_Iteration := iter; a_Repair := copyRepair repair; a_Call := zero_result zero;
     a_Judgment := None; a_NextRepair := None; a_Err := None |}.
Definition with_call (a : Attempt) c : Attempt :=
  {| a_Iteration := a_Iteration a; a_Repair := a_Repair a; a_Call := c;
     a_Judgment := a_Judgment a; a_NextRepair := a_NextRepair a; a_Err := a_Err a |}.
Definition with_judgment (a : Attempt) j : Attempt :=
  {| a_Iteration := a_Iteration a; a_Repair := a_Repair a; a_Call := a_Call a;
     a_Judgment := j; a_NextRepair := a_NextRepair a; a_Err := a_Err a |}.
Definition with_next (a : Attempt) n : Attempt :=
  {| a_Iteration := a_Iteration a; a_Repair := a_Repair a; a_Call := a_Call a;
     a_Judgment := a_Judgment a; a_NextRepair := n; a_Err := a_Err a |}.
Definition with_err (a : Attempt) e : Attempt :=
  {| a_Iteration := a_Iteration a; a_Repair := a_Repair a; a_Call := a_Call a;
     a_Judgment := a_Judgment a; a_NextRepair := a_NextRepair a; a_Err := e |}.

Definition snapshot_attempt (a : Attempt) : Attempt :=
  {| a_Iteration := a_Iteration a; a_Repair := copyRepair (a_Repair a); a_Call := a_Call a;
     a_Judgment := copyJudgment (a_Judgment a); a_NextRepair := copyRepair (a_NextRepair a); a_Err := a_Err a |}.

Definition snapshotResult (result : Result) : Result :=
  {| r_Output := r_Output result; HasOutput := HasOutput result;
     Attempts := map snapshot_attempt (Attempts result) |}.

Definition fail (result : Result) (attempt : Attempt) (stage : Stage) (err : error) : Result * option error :=
  let stepErr := StepError stage (a_Iteration attempt) err in
  (snapshotResult {| r_Output := r_Output result; HasOutput := HasOutput result;
                     Attempts := Attempts result ++ [with_err attempt (Some stepErr)] |}, Some stepErr).

Definition append_attempt (result : Result) (attempt : Attempt) : Result :=
  {| r_Output := r_Output result; HasOutput := HasOutput result; Attempts := Attempts result ++ [attempt] |}.

Definition exhausted (result : Result) : Result * option error :=
  (snapshotResult result, Some (Errorf "%w: maxIter=%d" [ErrExhausted])).

(** The body of one iteration: the run returns, or continues with the repair
    for the next render. *)
Inductive flow :=
| Return (outcome : Result * option error)
| Continue (repair : option (list Repair)) (result : Result).

Definition iteration (step : Step) (contract : Contract)
    (render : I -> option (list Repair) -> W -> (string * option error) * W)
    (validate : I -> O -> W -> (Judgment * option error) * W)
    (input : I) (iter : Z) (repair : option (list Repair)) (result : Result) (w : W) : flow * W :=
  let attempt := new_attempt iter repair in
  match ctxErr w with
  | Some err => (Return (fail result attempt StageRender err), w)
  | None =>
  let '((prompt, err), w) := render input (copyRepair (a_Repair attempt)) w in
  match err with
  | Some err => (Return (fail result attempt StageRender err), w)
  | None =>
  match ctxErr w with
  | Some err => (Return (fail result attempt StageRender err), w)
  | None =>
  let '((call, err), w) := ValueWithContract ctxErr scan unmarshal zero (step_Caller step) prompt contract w in
  let attempt := with_call attempt call in
  match err with
  | Some err => (Return (fail result attempt (valueStage err) err), w)
  | None =>
  let '((judgment, err), w) := validate input (Value call) w in
  let attempt := with_judgment attempt (copyJudgment (Some judgment)) in
  match err with
  | Some err => (Return (fail result attempt StageValidate err), w)
  | None =>
  match ctxErr w with
  | Some err => (Return (fail result attempt StageValidate err), w)
  | None =>
  if Accepted judgment then
    (Return (snapshotResult {| r_Output := Value call; HasOutput := true;
                               Attempts := Attempts result ++ [attempt] |}, None), w)
  else if (iter =? MaxIter step)%Z then
    (Return (exhausted (append_attempt result attempt)), w)
  else
  match ProjectRepair step with
  | None => (Return (fail result attempt StageProjectRepair ErrMissingRepairProjection), w)
  | Some project =>
  let '((nextRepair, err), w) := project (copyFindings (Findings judgment)) w in
  match err with
  | Some err => (Return (fail result attempt StageProjectRepair err), w)
  | None =>
  let nextRepair := stampIterations (copyRepair nextRepair) iter in
  let attempt := with_next attempt (copyRepair nextRepair) in
  (Continue (copyRepair nextRepair) (append_attempt result attempt), w)
  end end end end end end end end.

(** The loop from [iter], [n] iterations of which are left. *)
Fixpoint iterate (step : Step) (contract : Contract) render validate (input : I) (n : nat) (iter : Z)
    (repair : option (list Repair)) (result : Result) (w : W) : (Result * option error) * W :=
  match n with
  | 0%nat => (exhausted result, w)
  | S n =>
    match iteration step contract render validate input iter repair result w with
    | (Return outcome, w) => (outcome, w)
    | (Continue repair result, w) => iterate step contract render validate input n (iter + 1) repair result w
    end
  end.

Definition Run (step : Step) (input : I) (w : W) : (Result * option error) * W :=
  if (MaxIter step <? 1)%Z then ((zero_step_result, Some ErrInvalidMaxIter), w)
  else match step_Caller step with
  | NilCaller | TypedNilCaller => ((zero_step_result, Some ErrNilCaller), w)
  | CallerFunc _ =>
  match Render step with
  | None => ((zero_step_result, Some ErrNilRender), w)
  | Some render =>
  match Validate step with
  | None => ((zero_step_result, Some ErrNilValidate), w)
  | Some validate =>
  match compile with
  | Err e => ((zero_step_result, Some e), w)
  | Ok contract =>
    iterate step contract render validate input (Z.to_nat (MaxIter step)) 1 None zero_step_result w
  end end end end.

(** * Theorems *)

Definition is_caller (c : Caller W) : bool := match c with CallerFunc _ => true | _ => false end.

Lemma snapshot_attempt_id a : snapshot_attempt a = a.
Proof. destruct a. unfold snapshot_attempt. simpl. by autorewrite with go_eqs. Qed.

Lemma snapshotResult_id r : snapshotResult r = r.
Proof.
  destruct r as [o h l]. unfold snapshotResult. simpl. f_equal.
  induction l; simpl; [done|]. by rewrite snapshot_attempt_id, IHl.
Qed.

Section history.
Context (step : Step) (contract : Contract) (input : I).
Context (render : I -> option (list Repair) -> W -> (string * option error) * W).
Context (validate : I -> O -> W -> (Judgment * option error) * W).

(** The attempt [a] took the world from [w] to [w'] and was judged [j]: its
    repair was rendered, the prompt was answered by the caller with a decoded
    value, and the validator judged that value, each with no error. *)
Definition judged (a : Attempt) (j : Judgment) (w w' : W) : Prop :=
  exists prompt w1 w2,
    ctxErr w = None /\ render input (a_Repair a) w = ((prompt, None), w1) /\
    ctxErr w1 = None /\
    ValueWithContract ctxErr scan unmarshal zero (step_Caller step) prompt contract w1 = ((a_Call a, None), w2) /\
    validate input (Value (a_Call a)) w2 = ((j, None), w') /\ ctxErr w' = None /\
    a_Judgment a = Some j /\ a_Err a = None.

(** The attempts after which the run goes on, with the number of the next
    iteration, its repair and its world. *)
Inductive retried (w0 : W) : list Attempt -> Z -> option (list Repair) -> W -> Prop :=
| retried_none : retried w0 [] 1 None w0
| retried_more l k repair w a j w1 project next w2 :
    retried w0 l k repair w -> (k < MaxIter step)%Z -> a_Iteration a = k -> a_Repair a = repair ->
    judged a j w w1 -> Accepted j = false ->
    ProjectRepair step = Some project -> project (Findings j) w1 = ((next, None), w2) ->
    a_NextRepair a = stampIterations next k ->
    retried w0 (l ++ [a]) (k + 1) (a_NextRepair a) w2.

(** How a run ends at iteration [k] with its last attempt. *)
Inductive ends (k : Z) (w : W) : Attempt -> O -> bool -> option error -> W -> Prop :=
| ends_accepted a j w' :
    judged a j w w' -> Accepted j = true -> ends k w a (Value (a_Call a)) true None w'
| ends_exhausted a j w' :
    judged a j w w' -> Accepted j = false -> k = MaxIter step ->
    ends k w a zero false (Some (Errorf "%w: maxIter=%d" [ErrExhausted])) w'
| ends_failed a stage err w' :
    a_Err a = Some (StepError stage k err) -> ends k w a zero false (a_Err a) w'.

Lemma retried_length w0 l k repair w : retried w0 l k repair w -> k = (Z.of_nat (length l) + 1)%Z.
Proof. induction 1; [done|]. rewrite length_app. simpl. lia. Qed.

Definition pending_result (l : list Attempt) : Result := {| r_Output := zero; HasOutput := false; Attempts := l |}.

Lemma ends_fail l attempt stage err w w' result e :
  fail (pending_result l) attempt stage err = (result, e) ->
  exists a, Attempts result = l ++ [a] /\ a_Iteration a = a_Iteration attempt /\ a_Repair a = a_Repair attempt /\
    a_NextRepair a = a_NextRepair attempt /\ ends (a_Iteration attempt) w a (r_Output result) (HasOutput result) e w'.
Proof.
  unfold fail. rewrite snapshotResult_id. intros [= <- <-]. eexists. split; [reflexivity|].
  split_and!; [done..|].
  exact (ends_failed _ w (with_err attempt (Some (StepError stage (a_Iteration attempt) err))) stage err w' eq_refl).
Qed.

Definition iteration_spec (w0 : W) (l : list Attempt) (k : Z) repair (w w' : W) (f : flow) : Prop :=
  match f with
  | Return (result, e) =>
    exists a, Attempts result = l ++ [a] /\ a_Iteration a = k /\ a_Repair a = repair /\
      a_NextRepair a = None /\ ends k w a (r_Output result) (HasOutput result) e w'
  | Continue repair' result =>
    exists l', result = pending_result l' /\ retried w0 l' (k + 1) repair' w' /\ (k < MaxIter step)%Z
  end.

Lemma iteration_sound w0 l k repair w f w' :
  retried w0 l k repair w -> (k <= MaxIter step)%Z ->
  iteration step contract render validate input k repair (pending_result l) w = (f, w') ->
  iteration_spec w0 l k repair w w' f.
Proof.
  intros Hl Hk H. unfold iteration in H. autorewrite with go_eqs in H. cbn [a_Repair new_attempt] in H.
  assert (forall stage err a, a_Iteration a = k -> a_Repair a = repair -> a_NextRepair a = None ->
    iteration_spec w0 l k repair w w' (Return (fail (pending_result l) a stage err))) as Hfail.
  { intros stage err a <- <- Hn. destruct (fail _ _ _ _) as [r e] eqn:E. simpl.
    apply (ends_fail l a stage err w w') in E as (b & ? & ? & ? & ? & ?). exists b. split_and!; try done. congruence. }
  pose proof (copyRepair_id repair : a_Repair (new_attempt k repair) = repair) as Hnew.
  destruct (ctxErr w) eqn:Ex; [by injection H as <- <-; apply Hfail|].
  rewrite !copyRepair_id in H.
  destruct (render input repair w) as [[prompt [re|]] w1] eqn:Er; [by injection H as <- <-; apply Hfail|].
  destruct (ctxErr w1) eqn:Ex1; [by injection H as <- <-; apply Hfail|].
  destruct (ValueWithContract _ _ _ _ _ _ _ _) as [[call [ce|]] w2] eqn:Ec; [by injection H as <- <-; apply Hfail|].
  destruct (validate input (Value call) w2) as [[j [ve|]] w3] eqn:Ev; [by injection H as <- <-; apply Hfail|].
  destruct (ctxErr w3) eqn:Ex3; [by injection H as <- <-; apply Hfail|].
  set (a := with_judgment (with_call (new_attempt k repair) call) (copyJudgment (Some j))) in *.
  assert (judged a j w w3) as Hj.
  { exists prompt, w1, w2. unfold a. simpl. rewrite copyRepair_id, copyFindings_id. destruct j. by split_and!. }
  assert (a_Repair a = repair) as Hr by (unfold a; simpl; apply copyRepair_id).
  destruct (Accepted j) eqn:Ea.
  { injection H as <- <-. rewrite snapshotResult_id. exists a. split_and!; try done. exact (ends_accepted k w a j w3 Hj Ea). }
  destruct (k =? MaxIter step)%Z eqn:Em.
  { injection H as <- <-. apply Z.eqb_eq in Em. unfold exhausted. rewrite snapshotResult_id.
    exists a.
    split_and!; try done. by apply (ends_exhausted k w a j). }
  apply Z.eqb_neq in Em.
  destruct (ProjectRepair step) as [project|] eqn:Ep; [|by injection H as <- <-; apply Hfail].
  autorewrite with go_eqs in H. destruct (project (Findings j) w3) as [[next [pe|]] w4] eqn:En;
    [by injection H as <- <-; apply Hfail|].
  injection H as <- <-. simpl. rewrite !copyRepair_id. eexists. split; [done|]. split; [|lia].
  eapply (retried_more w0 l k repair w (with_next a (stampIterations next k)) j w3 project next w4); try done. lia.
Qed.

(** A run that made at least one attempt: all but its last were retried. *)
Definition finished (w0 : W) (result : Result) (e : option error) (w' : W) : Prop :=
  exists l k repair w a, retried w0 l k repair w /\ (k <= MaxIter step)%Z /\ Attempts result = l ++ [a] /\
    a_Iteration a = k /\ a_Repair a = repair /\ a_NextRepair a = None /\
    ends k w a (r_Output result) (HasOutput result) e w'.

Lemma iterate_sound n w0 : forall l k repair w result e w',
  retried w0 l k repair w -> (k + Z.of_nat n = MaxIter step + 1)%Z -> 1 <= n ->
  iterate step contract render validate input n k repair (pending_result l) w = ((result, e), w') ->
  finished w0 result e w'.
Proof.
  induction n as [|n IH]; intros l k repair w result e w' Hl Hk Hn H; [lia|]. simpl in H.
  destruct (iteration _ _ _ _ _ _ _ _ _) as [f w1] eqn:E.
  apply (iteration_sound w0) in E; [|done|lia].
  destruct f as [[result1 e1]|repair1 result1]; simpl in E.
  - injection H as <- <- <-. destruct E as (a & ? & ? & ? & ? & ?).
    exists l, k, repair, w, a. split_and!; try done. lia.
  - destruct E as (l1 & -> & Hl1 & Hlt). eapply IH; [exact Hl1 | lia | lia | exact H].
Qed.

Lemma retried_repair w0 l k repair w : retried w0 l k repair w -> repair = (last l ≫= a_NextRepair).
Proof. induction 1; [done|]. by rewrite last_snoc. Qed.

(** What a retried attempt at position [i] of the history [l] records. *)
Definition retried_record (l : list Attempt) (i : nat) (a : Attempt) : Prop :=
  a_Iteration a = Z.of_nat (S i) /\ a_Err a = None /\
  (exists j, a_Judgment a = Some j /\ Accepted j = false) /\
  (forall rs r, a_NextRepair a = Some rs -> r ∈ rs -> Iteration r = Z.of_nat (S i)) /\
  a_Repair a = (last (take i l) ≫= a_NextRepair).

Lemma stamped next k rs r : stampIterations next k = Some rs -> r ∈ rs -> Iteration r = k.
Proof.
  destruct next; [|done]. simpl. intros [= <-] (x & -> & _)%list_elem_of_fmap. done.
Qed.

Lemma retried_records w0 l k repair w :
  retried w0 l k repair w -> forall i a, l !! i = Some a -> retried_record l i a.
Proof.
  induction 1 as [|l k repair w a j w1 project next w2 Hl IH Hk Hi Hr Hj Ha Hp Hn He]; [done|].
  intros i b Hb. apply lookup_app_Some in Hb as [Hb|[Hge Hb]].
  - pose proof (lookup_lt_Some _ _ _ Hb). destruct (IH i b Hb) as (?&?&?&?&Hrep). split_and!; try done.
    rewrite take_app_le by lia. done.
  - apply list_lookup_singleton_Some in Hb as [Hz <-].
    pose proof (retried_length _ _ _ _ _ Hl). pose proof (retried_repair _ _ _ _ _ Hl).
    destruct Hj as (p & v1 & v2 & _ & _ & _ & _ & _ & _ & Hj & Herr).
    split_and!; [lia | done | eauto | |].
    + intros rs r Hrs Hin. rewrite He in Hrs. rewrite (stamped _ _ _ _ Hrs Hin). lia.
    + replace i with (length l) by lia. rewrite take_app_length. congruence.
Qed.
End history.

Lemma finished_accepted step contract input render validate w result e w' :
  finished step contract input render validate w result e w' ->
  (HasOutput result = true <-> e = None) /\ (HasOutput result = false -> r_Output result = zero).
Proof. intros (l & k & repair & w1 & a & _ & _ & _ & _ & _ & _ & []); [done..|]. by rewrite H. Qed.

Lemma finished_attempts step contract input render validate w result e w' :
  finished step contract input render validate w result e w' ->
  (Z.of_nat (length (Attempts result)) <= MaxIter step)%Z /\
  (forall i a, Attempts result !! i = Some a ->
    a_Iteration a = Z.of_nat (S i) /\ a_Repair a = (last (take i (Attempts result)) ≫= a_NextRepair) /\
    (S i < length (Attempts result) -> retried_record (Attempts result) i a)).
Proof.
  intros (l & k & repair & w1 & a & Hl & Hk & -> & Hi & Hr & _).
  pose proof (retried_length _ _ _ _ _ _ _ _ _ _ Hl) as Hlen.
  rewrite length_app. simpl. split; [lia|]. intros i b Hb.
  apply lookup_app_Some in Hb as [Hb|[Hge Hb]].
  - pose proof (lookup_lt_Some _ _ _ Hb). unfold retried_record.
    destruct (retried_records _ _ _ _ _ _ _ _ _ _ Hl i b Hb) as (?&?&?&?&?).
    rewrite take_app_le by lia. by split_and!.
  - apply list_lookup_singleton_Some in Hb as [Hz <-]. replace i with (length l) by lia.
    rewrite take_app_length. split_and!; [lia | | lia].
    rewrite Hr. by apply (retried_repair _ _ _ _ _ _ _ _ _ _ Hl).
Qed.

(** The configuration errors of [Run], found before anything else. *)
Definition misconfigured (step : Step) : Prop :=
  (MaxIter step < 1)%Z \/ is_caller (step_Caller step) = false \/ Render step = None \/
  Validate step = None \/ exists c, compile = Err c.

Lemma Run_cases step input w result e w' :
  Run step input w = ((result, e), w') ->
  (result = zero_step_result /\ w' = w /\ e <> None /\ misconfigured step) \/
  (exists contract render validate, compile = Ok contract /\ Render step = Some render /\
    Validate step = Some validate /\ finished step contract input render validate w result e w').
Proof.
  unfold Run, misconfigured, is_caller. intros H. destruct (MaxIter step <? 1)%Z eqn:Em.
  { apply Z.ltb_lt in Em. left. simplify_eq. auto. }
  apply Z.ltb_ge in Em. destruct (step_Caller step) as [| |call] eqn:Ec.
  1,2: left; simplify_eq; split_and!; auto 10.
  destruct (Render step) as [render|]; [|left; simplify_eq; split_and!; auto 10].
  destruct (Validate step) as [validate|]; [|left; simplify_eq; split_and!; auto 10].
  destruct compile as [contract|c]; [|left; simplify_eq; split_and!; eauto 10].
  right. exists contract, render, validate. split_and!; try done.
  apply (iterate_sound _ _ _ _ _ (Z.to_nat (MaxIter step)) w [] 1 None w); [constructor | lia | lia | done].
Qed.

(** C29: a run with an invalid configuration fails before it touches the world;
    every other run retries rejected attempts, each rendered with the repair
    projected from the previous one, and ends once: with the value its
    validator accepted, after [MaxIter] rejections, or with the stamped error
    of the stage that failed. *)
Theorem Run_history (step : Step) (input : I) (w : W) :
  match Run step input w with
  | ((result, e), w') =>
    (result = zero_step_result /\ w' = w /\ e <> None /\ misconfigured step) \/
    (exists contract render validate, compile = Ok contract /\ Render step = Some render /\
      Validate step = Some validate /\ finished step contract input render validate w result e w')
  end.
Proof. destruct (Run step input w) as [[result e] w'] eqn:E. by apply (Run_cases _ input). Qed.

(** The attempts of a run are numbered from one without gap and are at most
    [MaxIter]; each but the last was judged, rejected and stamped its repair
    with its own number, and each was rendered with exactly the repair of the
    one before it; an output is published exactly when the run returns no
    error. *)
Theorem Run_attempts (step : Step) (input : I) (w : W) :
  match Run step input w with
  | ((result, e), _) =>
    (Z.of_nat (length (Attempts result)) <= Z.max 0 (MaxIter step))%Z /\
    (HasOutput result = true <-> e = None) /\ (HasOutput result = false -> r_Output result = zero) /\
    (forall i a, Attempts result !! i = Some a ->
      a_Iteration a = Z.of_nat (S i) /\ a_Repair a = (last (take i (Attempts result)) ≫= a_NextRepair) /\
      (S i < length (Attempts result) -> retried_record (Attempts result) i a))
  end.
Proof.
  destruct (Run step input w) as [[result e] w'] eqn:E.
  apply Run_cases in E as [(-> & _ & He & _)|(contract & render & validate & _ & _ & _ & Hf)].
  - simpl. split_and!; [lia | done | done | by intros i a Ha].
  - pose proof (finished_accepted _ _ _ _ _ _ _ _ _ Hf) as [? ?].
    destruct (finished_attempts _ _ _ _ _ _ _ _ _ Hf). split_and!; try done; lia.
Qed.
End step.
