(* ===== verification/JsonAny.v ===== *)
(** The two readers of JSON values agree on what [JSONValue] prints:
    [src/codexsdk/protocolv2/json_value.go] writes it, and [encoding/json]
    with [UseNumber] decodes it into [any]. *)

From S2P Require Import Prelude GoStrings JsonLex Json Envelope.

Local Open Scope string_scope.
Local Open Scope list_scope.

Fixpoint element_lexemes (first : bool) (raws : list RawMessage) : list lexeme :=
  match raws with
  | [] => []
  | raw :: raws' => sep first ++ raw ++ element_lexemes false raws'
  end.

(** * What was written *)

Definition written (v : JSONValue) (raw : RawMessage) : Prop :=
  utf8_value v = true /\ exists path, writeJSON v path = Ok raw.

Lemma write_elements_lexemes first raws :
  write_elements first (map Ok raws) = Ok (element_lexemes first raws).
Proof.
  revert first. induction raws as [|r raws IH]; intros first; simpl; [done|].
  rewrite IH. simpl. by destruct first.
Qed.

Lemma write_members_lexemes first (kvs : list (string * JSONValue)) raws :
  length kvs = length raws ->
  write_elements first (zip_with (fun k raw => Ok (LStr k :: LColon :: raw)) kvs.*1 raws) =
    Ok (member_lexemes first (zip kvs.*1 raws)).
Proof.
  revert first raws. induction kvs as [|[k v] kvs IH]; intros first [|r raws] H; simpl in *; try lia; [done|].
  rewrite IH by lia. simpl. by destruct first.
Qed.

Lemma written_array l raw :
  written (JSONArr l) raw ->
  exists raws, Forall2 written l raws /\ raw = LBrackO :: element_lexemes true raws ++ [LBrackC].
Proof.
  intros [Hu%utf8_array [path H]]. simpl in H. apply bind_Ok in H as (es & Hes & [= <-]).
  pose proof (write_elements_Ok _ _ _ Hes) as [raws Hraws]. rewrite Hraws, write_elements_lexemes in Hes.
  injection Hes as <-. exists raws. split; [|done]. apply write_array_Forall2 in Hraws.
  clear -Hu Hraws. induction Hraws; constructor; inversion Hu; subst; [by split | auto].
Qed.

Lemma written_object m raw :
  written (JSONObj m) raw ->
  exists kvs raws, NoDup kvs.*1 /\ m = insert_members ∅ kvs /\
    Forall2 (fun kv raw => m !! kv.1 = Some kv.2 /\ written kv.2 raw) kvs raws /\
    raw = LBraceO :: member_lexemes true (zip kvs.*1 raws) ++ [LBraceC].
Proof.
  intros [Hu [path H]]. rewrite utf8_object in Hu. simpl in H. apply bind_Ok in H as (es & Hes & [= <-]).
  pose proof (write_elements_Ok _ _ _ Hes) as [raws' Hraws]. destruct (sorted_keys_spec m) as [Hnd Hks].
  destruct (write_object_members path m (sorted_keys m) _
    (fun k => map_fold_rebuild (fun k x => writeJSON x (joinPointer path k)) m k)) with (raws' := raws')
    as (kvs & raws & Hkeys & HF & Hz); [by apply Forall_forall; intros k Hk; apply Hks | done|].
  rewrite Hz, coerced_members, write_members_lexemes in Hes.
  2: by eapply Forall2_length.
  2: { rewrite Hkeys. apply Forall_forall. intros k [x Hx]%Hks. by apply valid_coerce, (Hu k x). }
  injection Hes as <-. exists kvs, raws. rewrite Hkeys. split_and!; [done | | | done].
  2: { eapply Forall2_impl; [exact HF|]. intros [k v] raw [Hk Hw]. split; [exact Hk|]. split; [by eapply Hu | exact Hw]. }
  apply map_eq. intros k. rewrite (insert_members_lookup m), Hkeys, lookup_empty.
  - destruct (decide _) as [|Hno]; [done|]. rewrite Hks in Hno. by apply eq_None_not_Some in Hno.
  - intros k' v' Hin. apply list_elem_of_lookup in Hin as [i Hi].
    eapply Forall2_lookup_l in HF as (? & _ & [? _]); [|done]. done.
Qed.

(** * Building *)

(** A complete value arrives at a stack of open arrays and objects. *)
Definition push_value (v : JSONValue) (rest : list lexeme) (stack : list frame) : res JSONValue :=
  match stack with
  | [] => Ok v
  | FArr vs :: s => build_any rest (FArr (v :: vs) :: s)
  | FObj m (Some k) :: s => build_any rest (FObj (<[k := v]> m) None :: s)
  | FObj _ None :: _ => Err syntax_error
  end.

Definition expects_value (stack : list frame) : Prop :=
  match stack with FObj _ None :: _ => False | _ => True end.

Definition builds (v : JSONValue) (raw : RawMessage) : Prop :=
  forall rest stack, expects_value stack -> build_any (raw ++ rest) stack = push_value v rest stack.

Lemma build_elements l raws : Forall2 builds l raws -> forall first acc rest stack,
  build_any (element_lexemes first raws ++ LBrackC :: rest) (FArr acc :: stack) =
    push_value (JSONArr (rev acc ++ l)) rest stack.
Proof.
  induction 1 as [|v raw l raws Hv _ IH]; intros first acc rest stack; simpl.
  - by rewrite app_nil_r.
  - rewrite <- !app_assoc. transitivity (build_any (raw ++ element_lexemes false raws ++ LBrackC :: rest) (FArr acc :: stack)).
    { by destruct first. }
    rewrite Hv by done. simpl. rewrite IH. simpl. by rewrite <- app_assoc.
Qed.

Lemma build_members kvs raws : Forall2 (fun kv raw => builds kv.2 raw) kvs raws -> Forall (fun k => coerce k = k) kvs.*1 ->
  forall first acc rest stack,
  build_any (member_lexemes first (zip kvs.*1 raws) ++ LBraceC :: rest) (FObj acc None :: stack) =
    push_value (JSONObj (insert_members acc kvs)) rest stack.
Proof.
  induction 1 as [|[k v] raw kvs raws Hv _ IH]; intros Hu first acc rest stack; simpl; [done|].
  apply Forall_cons in Hu as [Hk Hu]. rewrite <- !app_assoc. simpl. rewrite <- app_assoc.
  transitivity (build_any (raw ++ member_lexemes false (zip kvs.*1 raws) ++ LBraceC :: rest) (FObj acc (Some k) :: stack)).
  { cbn in Hk. destruct first; cbn; by rewrite Hk. }
  rewrite Hv by done. simpl. by rewrite IH.
Qed.

Lemma written_builds v : forall raw, written v raw -> builds v raw.
Proof.
  induction v as [v H1 H2|l IH|m IH] using json_nested_ind; intros raw Hw.
  - destruct Hw as [Hu [path Hw]]. intros rest stack Hs.
    destruct v as [| |b|s|x|l|m]; simplify_eq/=; try (by destruct stack as [|[|? []]]);
      try (apply valid_coerce in Hu as Hc; rewrite !Hc; by destruct stack as [|[|? []]]).
    destruct (validateJSONNumber x); simplify_eq/=. by destruct stack as [|[|? []]].
  - apply written_array in Hw as (raws & HF & ->). intros rest stack _. simpl. rewrite <- app_assoc. simpl.
    rewrite (build_elements l raws); [done|]. clear -HF IH. induction HF; constructor; inversion IH; subst; auto.
  - pose proof Hw as [Hu _]. rewrite utf8_object in Hu.
    apply written_object in Hw as (kvs & raws & _ & Hm & HF & ->). intros rest stack _. simpl.
    rewrite <- app_assoc. simpl. rewrite (build_members kvs raws); [by rewrite <- Hm| |].
    + eapply Forall2_impl; [exact HF|]. intros [k v] raw [Hk Hw]. by apply (IH k).
    + clear -HF Hu. induction HF as [|[k v] raw kvs raws [Hk _] _ IHF]; constructor; [|done]. by apply valid_coerce, (Hu k v).
Qed.

(** * Scanning *)

Definition scan_resume (st : tstate) (stk : list tstate) (acc rest : list lexeme) : option (list lexeme * list lexeme) :=
  match stk with
  | [] => match st with TTop => Some (rev acc, rest) | _ => None end
  | _ => scan_value st stk acc rest
  end.

Definition scans (raw : RawMessage) : Prop :=
  forall st stk acc rest, value_allowed st = true ->
    scan_value st stk acc (raw ++ rest) = scan_resume (value_end st) stk (rev raw ++ acc) rest.

Lemma scan_step l st stk acc rest st' stk' :
  lex_step st stk l = Some (st', stk') ->
  scan_value st stk acc (l :: rest) = scan_resume st' stk' (l :: acc) rest.
Proof. simpl. intros ->. by destruct stk'. Qed.

Lemma scan_elements raws : Forall scans raws -> forall first st stk acc rest,
  scan_value (before false first) (st :: stk) acc (element_lexemes first raws ++ LBrackC :: rest) =
    scan_resume (value_end st) stk (LBrackC :: rev (element_lexemes first raws) ++ acc) rest.
Proof.
  induction 1 as [|raw raws Hr _ IH]; intros first st stk acc rest; simpl element_lexemes.
  - apply scan_step. by destruct first.
  - rewrite <- !app_assoc. destruct first; simpl sep; cbn [app].
    + rewrite Hr by done. cbn [scan_resume]. change (value_end (before false true)) with (before false false). rewrite IH.
      by rewrite !rev_app_distr, !app_assoc.
    + rewrite (scan_step LComma _ _ _ _ TArrayValue (st :: stk)) by done. cbn [scan_resume].
      rewrite Hr by done. cbn [scan_resume]. change (value_end TArrayValue) with (before false false). rewrite IH.
      simpl rev. by rewrite !rev_app_distr, <- !app_assoc.
Qed.

Lemma scan_members kvs : Forall (fun kv => scans kv.2) kvs -> forall first st stk acc rest,
  scan_value (before true first) (st :: stk) acc (member_lexemes first kvs ++ LBraceC :: rest) =
    scan_resume (value_end st) stk (LBraceC :: rev (member_lexemes first kvs) ++ acc) rest.
Proof.
  induction 1 as [|[k raw] kvs Hr _ IH]; intros first st stk acc rest; simpl member_lexemes.
  - apply scan_step. by destruct first.
  - simpl in Hr. rewrite <- !app_assoc. cbn [app]. rewrite <- !app_assoc.
    assert (forall acc', scan_value TObjectColon (st :: stk) acc' (LColon :: raw ++ member_lexemes false kvs ++ LBraceC :: rest) =
      scan_resume (value_end st) stk (LBraceC :: rev (member_lexemes false kvs) ++ rev raw ++ LColon :: acc') rest) as Hc.
    { intros acc'. rewrite (scan_step LColon _ _ _ _ TObjectValue (st :: stk)) by done. cbn [scan_resume].
      rewrite Hr by done. cbn [scan_resume]. change (value_end TObjectValue) with (before true false). by rewrite IH. }
    destruct first; simpl sep; cbn [app].
    + rewrite (scan_step (LStr k) _ _ _ _ TObjectColon (st :: stk)) by done. cbn [scan_resume]. rewrite Hc.
      simpl rev. by rewrite !rev_app_distr, <- !app_assoc.
    + rewrite (scan_step LComma _ _ _ _ TObjectKey (st :: stk)) by done. cbn [scan_resume].
      rewrite (scan_step (LStr k) _ _ _ _ TObjectColon (st :: stk)) by done. cbn [scan_resume]. rewrite Hc.
      simpl rev. by rewrite !rev_app_distr, <- !app_assoc.
Qed.

Lemma written_scans v : forall raw, written v raw -> scans raw.
Proof.
  induction v as [v H1 H2|l IH|m IH] using json_nested_ind; intros raw Hw.
  - destruct Hw as [_ [path Hw]]. intros st stk acc rest Hst.
    destruct v as [| |b|s|x|l|m]; simplify_eq/=; try destruct (validateJSONNumber x); simplify_eq/=;
      rewrite ?Hst; destruct st; try done; by destruct stk.
  - apply written_array in Hw as (raws & HF & ->). intros st stk acc rest Hst.
    cbn [app]. rewrite (scan_step LBrackO _ _ _ _ TArrayStart (st :: stk)) by (simpl; by rewrite Hst).
    cbn [scan_resume]. rewrite <- app_assoc. cbn [app]. change TArrayStart with (before false true).
    rewrite scan_elements.
    + simpl rev. by rewrite rev_app_distr, <- !app_assoc.
    + clear -HF IH. induction HF; constructor; inversion IH; subst; auto.
  - apply written_object in Hw as (kvs & raws & _ & Hm & HF & ->). intros st stk acc rest Hst.
    cbn [app]. rewrite (scan_step LBraceO _ _ _ _ TObjectStart (st :: stk)) by (simpl; by rewrite Hst).
    cbn [scan_resume]. rewrite <- app_assoc. cbn [app]. change TObjectStart with (before true true).
    rewrite scan_members.
    + simpl rev. by rewrite rev_app_distr, <- !app_assoc.
    + clear Hm. induction HF as [|[k v] raw kvs raws [Hk Hv] _ IHF]; simpl; constructor; [|done].
      simpl. by apply (IH k v).
Qed.

Lemma written_complete v raw : written v raw -> complete raw.
Proof.
  intros H. pose proof (written_scans v raw H TTop [] [] [] eq_refl) as Hs.
  rewrite app_nil_r in Hs. unfold complete. rewrite Hs. simpl. by rewrite app_nil_r, rev_involutive.
Qed.

(** ** The readers agree *)

Lemma written_opens v raw : written v raw -> raw <> [].
Proof. intros [Hu [p H]]. by destruct (write_reads_back v p raw Hu H) as [_ Ho], raw. Qed.

Lemma unmarshal_written v raw : written v raw -> unmarshalJSONPreserveNumbers raw = Ok v.
Proof.
  intros Hw. pose proof (written_complete v raw Hw) as Hc. unfold unmarshalJSONPreserveNumbers.
  destruct raw as [|l raw]; [by apply written_opens in Hw|]. rewrite Hc.
  rewrite <- (app_nil_r (l :: raw)). by apply (written_builds v).
Qed.
