(* ===== verification/SchemaAdmission.v ===== *)
(** Admission of caller-owned JSON Schemas: [src/llmcaller/codex/schema.go].

    [walk] recurses through subschemas and through local references, which lead
    back to any place of the root: it takes fuel, and [admit_fuel] of it is
    always enough.  Members of an object are visited in the order of the map
    model; Go's order is unspecified, and which error is reported first depends
    on it, but whether there is one does not (theorem [walk_exact]).  The schema
    compiler of the jsonschema package is a parameter. *)

From S2P Require Import Prelude GoStrings JsonLex Json Envelope JsonAny.
From Stdlib Require Import Ascii.

Local Open Scope string_scope.
Local Open Scope list_scope.

Definition SchemaPolicyError (path kind : string) (err : error) : error := Typed (SchemaPolicyT path kind) [err].

(** [for ... range]: the first error ends the loop. *)
Fixpoint for_each {A} (f : A -> res unit) (l : list A) : res unit :=
  match l with
  | [] => Ok tt
  | x :: l' => _ ← f x; for_each f l'
  end.

(** * References *)

Definition refPath (ref : string) : string := if String.eqb ref "#" then "" else trim_prefix "#" ref.

Definition copyRefSet (refs : gset string) : gset string := refs.

Definition unescapePointer (encoded : string) : string := replace_all (replace_all encoded "~1" "/") "~0" "~".

Fixpoint follow (current : JSONValue) (tokens : list string) : res JSONValue :=
  match tokens with
  | [] => Ok current
  | encoded :: tokens =>
    let token := unescapePointer encoded in
    match current with
    | JSONObj object =>
      match object !! token with
      | Some next => follow next tokens
      | None => Err (Errorf "reference %q does not exist" [])
      end
    | _ => Err (Errorf "reference %q traverses a non-object" [])
    end
  end.

Definition resolveLocalRef (root : JSONValue) (ref : string) : res JSONValue :=
  if String.eqb ref "#" then Ok root
  else if negb (has_prefix "#/" ref) then Err (Errorf "unsupported local reference %q" [])
  else follow root (split_byte "/"%char (trim_prefix "#/" ref)).

(** * Keywords *)

Definition single_keywords : list string :=
  ["additionalProperties"; "unevaluatedProperties"; "propertyNames"; "additionalItems"; "contains";
   "unevaluatedItems"; "not"; "if"; "then"; "else"; "contentSchema"].
Definition map_keywords : list string :=
  ["properties"; "patternProperties"; "dependentSchemas"; "$defs"; "definitions"].
Definition list_keywords : list string := ["allOf"; "anyOf"; "oneOf"; "prefixItems"].

(** [objectMap(object[key])]: a missing key reads as nil. *)
Definition objectMap (value : option JSONValue) : option (gmap string JSONValue) :=
  match value with Some (JSONObj m) => Some m | _ => None end.

Definition invalid_required (path : string) (message : string) : error :=
  SchemaPolicyError (path +:+ "/required") "invalid_required" (Sentinel message).

Fixpoint required_entries (set : gset string) (l : list JSONValue) (path : string) : res (gset string) :=
  match l with
  | [] => Ok set
  | JSONString name :: l' => required_entries ({[name]} ∪ set) l' path
  | _ :: _ => Err (invalid_required path "required entries must be strings")
  end.

Definition requiredSet (value : option JSONValue) (path : string) : res (gset string) :=
  match value with
  | None | Some JSONNull => Ok ∅
  | Some (JSONArr l) => required_entries ∅ l path
  | Some _ => Err (invalid_required path "required must be an array")
  end.

(** * The walk *)

Section walk.
Context (root : JSONValue).

(** The parts of the walk over one object; [walk] is the recursive call. *)
Section parts.
Context (walk : JSONValue -> string -> gset string -> res unit).
Context (object : gmap string JSONValue) (path : string) (refs : gset string).

Definition walk_ref : res unit :=
  match object !! "$ref" with
  | None => Ok tt
  | Some (JSONString ref) =>
    if negb (has_prefix "#" ref) then
      Err (SchemaPolicyError (path +:+ "/$ref") "external_ref" (Errorf "external reference %q is unsupported" []))
    else if bool_decide (ref ∈ refs) then
      Err (SchemaPolicyError (path +:+ "/$ref") "cyclic_ref" (Errorf "cyclic reference %q" []))
    else match resolveLocalRef root ref with
    | Err e => Err (SchemaPolicyError (path +:+ "/$ref") "unresolvable_ref" e)
    | Ok resolved => walk resolved (refPath ref) ({[ref]} ∪ copyRefSet refs)
    end
  | Some _ => Err (SchemaPolicyError (path +:+ "/$ref") "invalid_ref" (Sentinel "$ref must be a string"))
  end.

Definition reject_keywords : res unit :=
  match object !! "$dynamicRef", object !! "$vocabulary" with
  | Some _, _ => Err (SchemaPolicyError (path +:+ "/$dynamicRef") "unsupported_dynamic_ref"
                        (Sentinel "dynamic references are unsupported"))
  | _, Some _ => Err (SchemaPolicyError (path +:+ "/$vocabulary") "unsupported_vocabulary"
                        (Sentinel "custom vocabulary declarations are unsupported"))
  | None, None => Ok tt
  end.

Definition walk_properties : res unit :=
  match objectMap (object !! "properties") with
  | Some properties =>
    required ← requiredSet (object !! "required") path;
    for_each (fun '(name, property) =>
      let propertyPath := path +:+ "/properties/" +:+ escapePointer name in
      if negb (bool_decide (name ∈ (required : gset string))) then
        Err (SchemaPolicyError propertyPath "optional_property_unsupported"
          (Sentinel "Codex representation cannot require this property without narrowing the caller contract"))
      else walk property propertyPath refs) (map_to_list properties)
  | None =>
    match object !! "properties" with
    | Some _ => Err (SchemaPolicyError (path +:+ "/properties") "invalid_properties"
                       (Sentinel "properties must be an object"))
    | None => Ok tt
    end
  end.

Definition walk_single : res unit :=
  for_each (fun key => match object !! key with
                       | Some child => walk child (path +:+ "/" +:+ escapePointer key) refs
                       | None => Ok tt
                       end) single_keywords.

(** The elements of an array, each at its index. *)
Definition walk_elements (prefix : string) (list : list JSONValue) : res unit :=
  for_each (fun '(index, child) => walk child (prefix +:+ "/" +:+ itoa index) refs) (imap pair list).

Definition walk_items : res unit :=
  match object !! "items" with
  | None => Ok tt
  | Some (JSONArr list) => walk_elements (path +:+ "/items") list
  | Some items => walk items (path +:+ "/items") refs
  end.

Definition walk_maps : res unit :=
  for_each (fun key => match objectMap (object !! key) with
    | None => Ok tt
    | Some children =>
      for_each (fun '(name, child) =>
        if String.eqb key "properties" then Ok tt
        else walk child (path +:+ "/" +:+ escapePointer key +:+ "/" +:+ escapePointer name) refs)
        (map_to_list children)
    end) map_keywords.

Definition walk_lists : res unit :=
  for_each (fun key => match object !! key with
    | None => Ok tt
    | Some (JSONArr list) => walk_elements (path +:+ "/" +:+ key) list
    | Some _ => Err (SchemaPolicyError (path +:+ "/" +:+ key) "invalid_subschemas"
                       (Sentinel "keyword must be an array"))
    end) list_keywords.

Definition walk_dependencies : res unit :=
  match objectMap (object !! "dependencies") with
  | Some dependencies =>
    for_each (fun '(name, dependency) =>
      match dependency with
      | JSONArr _ => Ok tt
      | _ => walk dependency (path +:+ "/dependencies/" +:+ escapePointer name) refs
      end) (map_to_list dependencies)
  | None =>
    match object !! "dependencies" with
    | Some _ => Err (SchemaPolicyError (path +:+ "/dependencies") "invalid_dependencies"
                       (Sentinel "dependencies must be an object"))
    | None => Ok tt
    end
  end.

Definition walk_object : res unit :=
  _ ← walk_ref; _ ← reject_keywords; _ ← walk_properties; _ ← walk_single; _ ← walk_items;
  _ ← walk_maps; _ ← walk_lists; walk_dependencies.
End parts.

Fixpoint walk (n : nat) (value : JSONValue) (path : string) (refs : gset string) {struct n} : res unit :=
  match n with
  | O => Err out_of_fuel
  | S n =>
    match value with
    | JSONObj object => walk_object (walk n) object path refs
    | JSONBool _ => Ok tt
    | _ => Err (SchemaPolicyError path "invalid_subschema" (Sentinel "subschema must be an object or boolean"))
    end
  end.
End walk.

(** Every string of a value; a reference of the root is one of its strings. *)
Fixpoint all_strings (v : JSONValue) : list string :=
  match v with
  | JSONString s => [s]
  | JSONArr l => flat_map all_strings l
  | JSONObj m => map_fold (fun _ x acc => all_strings x ++ acc) [] m
  | _ => []
  end.

Definition admit_fuel (root : JSONValue) : nat :=
  S (S (length (all_strings root)) * S (json_size root)).

(** * Admission *)

Inductive Draft := Draft7 | Draft2020.

Definition supportedSchemaDraft (root : JSONValue) : res Draft :=
  match root with
  | JSONObj object =>
    match object !! "$schema" with
    | None => Ok Draft2020
    | Some (JSONString identifier) =>
      if String.eqb identifier "http://json-schema.org/draft-07/schema#" then Ok Draft7
      else if String.eqb identifier "https://json-schema.org/draft/2020-12/schema" then Ok Draft2020
      else Err (SchemaPolicyError "" "invalid_schema" (Errorf "unsupported $schema %q" []))
    | Some _ => Err (SchemaPolicyError "" "invalid_schema" (Sentinel "$schema must be a string"))
    end
  | _ => Ok Draft2020
  end.

Definition ErrMissingSchemaJSON : error := Sentinel "llmcaller/codex: output schema JSON is required".

Definition Load (url : string) : res JSONValue := Err (Errorf "external schema resource %q is unsupported" []).

Section admission.
(** The compiler with its default draft and loader, after [AddResource]; then
    [Compile]; and the schema validation inside [OutputSchemaFromJSON]. *)
Context {C S : Type} (AddResource : Draft -> (string -> res JSONValue) -> JSONValue -> res C).
Context (Compile : C -> res S) (validate : list lexeme -> res unit).

(** [err] as a schema policy error at the root. *)
Definition at_root {A} (kind : string) (r : res A) : res A :=
  match r with Ok a => Ok a | Err e => Err (SchemaPolicyError "" kind e) end.

Definition StrictOutputSchemaFromJSON (raw : list lexeme) : res JSONValue :=
  if bool_decide (raw = []) then Err ErrMissingSchemaJSON
  else
  parsed ← at_root "invalid_json" (ParseJSONValue raw);
  canonical ← at_root "invalid_json" (MarshalJSON parsed);
  root ← at_root "invalid_json" (unmarshalJSONPreserveNumbers canonical);
  draft ← supportedSchemaDraft root;
  compiler ← at_root "invalid_schema" (AddResource draft Load root);
  _ ← walk root (admit_fuel root) root "" ∅;
  _ ← at_root "invalid_schema" (Compile compiler);
  out ← at_root "marshal" (MarshalJSON root);
  at_root "invalid_schema" (OutputSchemaFromJSON validate out).
End admission.

(** * What is admitted *)

Section spec.
Context (root : JSONValue).

(** The subschemas of an object, and the target of its reference. *)
Inductive subschema (m : gmap string JSONValue) : JSONValue -> Prop :=
| sub_property ps name v : m !! "properties" = Some (JSONObj ps) -> ps !! name = Some v -> subschema m v
| sub_single key v : key ∈ single_keywords -> m !! key = Some v -> subschema m v
| sub_item l v : m !! "items" = Some (JSONArr l) -> v ∈ l -> subschema m v
| sub_items v : m !! "items" = Some v -> (forall l, v <> JSONArr l) -> subschema m v
| sub_member key c name v : key ∈ map_keywords -> m !! key = Some (JSONObj c) -> c !! name = Some v -> subschema m v
| sub_element key l v : key ∈ list_keywords -> m !! key = Some (JSONArr l) -> v ∈ l -> subschema m v
| sub_dependency ds name v :
    m !! "dependencies" = Some (JSONObj ds) -> ds !! name = Some v -> (forall l, v <> JSONArr l) -> subschema m v.

Inductive edge : JSONValue -> JSONValue -> Prop :=
| edge_sub m v : subschema m v -> edge (JSONObj m) v
| edge_ref m s t : m !! "$ref" = Some (JSONString s) -> resolveLocalRef root s = Ok t -> edge (JSONObj m) t.

(** The conditions on one object. *)
Record well_formed (m : gmap string JSONValue) : Prop := {
  wf_ref r : m !! "$ref" = Some r -> exists s t, r = JSONString s /\ has_prefix "#" s = true /\ resolveLocalRef root s = Ok t;
  wf_dynamic : m !! "$dynamicRef" = None;
  wf_vocabulary : m !! "$vocabulary" = None;
  wf_properties p : m !! "properties" = Some p -> exists ps required,
    p = JSONObj ps /\ requiredSet (m !! "required") "" = Ok required /\
    forall name v, ps !! name = Some v -> name ∈ required;
  wf_lists key v : key ∈ list_keywords -> m !! key = Some v -> exists l, v = JSONArr l;
  wf_dependencies v : m !! "dependencies" = Some v -> exists ds, v = JSONObj ds }.

(** An admitted schema: every object reached through subschemas and references
    is well formed, and, the predicate being inductive, none is reached again
    from itself. *)
Inductive admitted : JSONValue -> Prop :=
| admitted_bool b : admitted (JSONBool b)
| admitted_object m : well_formed m -> (forall v, edge (JSONObj m) v -> admitted v) -> admitted (JSONObj m).

(** ** Loops *)

Lemma for_each_Ok {A} (f : A -> res unit) l : for_each f l = Ok tt <-> forall x, x ∈ l -> f x = Ok tt.
Proof.
  induction l as [|x l IH]; simpl.
  - split; [by intros _ x ?%not_elem_of_nil | done].
  - rewrite bind_Ok. split.
    + intros ([] & Hx & Hl) y [->|Hy]%elem_of_cons; [done|]. by apply IH.
    + intros H. exists tt. split; [apply H; by left|]. apply IH. intros y Hy. apply H. by right.
Qed.

Lemma for_each_Err {A} (f : A -> res unit) l e : for_each f l = Err e -> exists x, x ∈ l /\ f x = Err e.
Proof.
  induction l as [|x l IH]; simpl; [done|]. intros [H|([] & _ & H)]%bind_Err.
  - exists x. split; [by left | done].
  - destruct (IH H) as (y & Hy & ?). exists y. split; [by right | done].
Qed.

Lemma elem_of_imap_pair {A} (l : list A) i x : (i, x) ∈ imap pair l <-> l !! i = Some x.
Proof.
  rewrite list_elem_of_lookup. split.
  - intros [j Hj]. rewrite list_lookup_imap in Hj. destruct (l !! j) eqn:E; simplify_eq/=. done.
  - intros H. exists i. rewrite list_lookup_imap. by rewrite H.
Qed.

(** The walk of every child, at some path. *)
Definition visits (walk : JSONValue -> string -> gset string -> res unit) (refs : gset string) (v : JSONValue) : Prop :=
  exists path, walk v path refs = Ok tt.

Lemma walk_elements_Ok walk refs prefix l :
  walk_elements walk refs prefix l = Ok tt -> forall v, v ∈ l -> visits walk refs v.
Proof.
  intros H v [i Hi]%list_elem_of_lookup. unfold walk_elements in H. rewrite for_each_Ok in H.
  apply elem_of_imap_pair in Hi. apply H in Hi. eexists. exact Hi.
Qed.

Lemma required_entries_path set l path set' path' :
  required_entries set l path = Ok set' -> required_entries set l path' = Ok set'.
Proof. revert set. induction l as [|[] l IH]; intros set; simpl; eauto; done. Qed.

Lemma requiredSet_path value path set path' : requiredSet value path = Ok set -> requiredSet value path' = Ok set.
Proof. destruct value as [[]|]; simpl; try done. apply required_entries_path. Qed.

Lemma bind_tt (r s : res unit) : (_ ← r; s) = Ok tt <-> r = Ok tt /\ s = Ok tt.
Proof. destruct r as [[]|]; simpl; intuition congruence. Qed.

Lemma walk_object_Ok walk m path refs :
  walk_object root walk m path refs = Ok tt <->
  walk_ref root walk m path refs = Ok tt /\ reject_keywords m path = Ok tt /\
  walk_properties walk m path refs = Ok tt /\ walk_single walk m path refs = Ok tt /\
  walk_items walk m path refs = Ok tt /\ walk_maps walk m path refs = Ok tt /\
  walk_lists walk m path refs = Ok tt /\ walk_dependencies walk m path refs = Ok tt.
Proof. unfold walk_object. by rewrite !bind_tt. Qed.

Lemma walk_properties_Ok walk m path refs ps :
  m !! "properties" = Some (JSONObj ps) ->
  walk_properties walk m path refs = Ok tt <->
  exists required, requiredSet (m !! "required") path = Ok required /\
    forall name v, ps !! name = Some v ->
      name ∈ required /\ walk v (path +:+ "/properties/" +:+ escapePointer name) refs = Ok tt.
Proof.
  intros Hp. unfold walk_properties. rewrite Hp. simpl. rewrite bind_Ok. f_equiv. intros required.
  rewrite for_each_Ok. f_equiv. split.
  - intros H name v Hv%elem_of_map_to_list. apply H in Hv. simpl in Hv. by case_bool_decide.
  - intros H [name v] Hv%elem_of_map_to_list. destruct (H name v Hv) as [Hr Hw].
    by rewrite bool_decide_eq_true_2.
Qed.

(** ** Soundness *)

Lemma walk_object_well_formed walk m path refs :
  walk_object root walk m path refs = Ok tt -> well_formed m.
Proof.
  rewrite walk_object_Ok. intros (Href & Hrej & Hprops & _ & _ & _ & Hlists & Hdeps).
  constructor.
  - intros r Hr. unfold walk_ref in Href. rewrite Hr in Href. destruct r as [| | |s| | |]; try done.
    destruct (has_prefix "#" s) eqn:Ep; [|done]. simpl in Href. case_bool_decide; [done|].
    destruct (resolveLocalRef root s) eqn:Es; [|done]. eauto.
  - unfold reject_keywords in Hrej. by destruct (m !! "$dynamicRef").
  - unfold reject_keywords in Hrej. by destruct (m !! "$dynamicRef"), (m !! "$vocabulary").
  - intros p Hp. destruct p as [| | | | | |ps]; try (unfold walk_properties in Hprops; by rewrite Hp in Hprops).
    apply (walk_properties_Ok walk m path refs ps Hp) in Hprops as (req & Hreq & Hall).
    exists ps, req. split; [done|]. split; [by eapply requiredSet_path|].
    intros name v Hv. by apply Hall in Hv as [? _].
  - intros key v Hk Hv. unfold walk_lists in Hlists. rewrite for_each_Ok in Hlists.
    apply Hlists in Hk. rewrite Hv in Hk. destruct v; try done. eauto.
  - intros v Hv. unfold walk_dependencies in Hdeps. rewrite Hv in Hdeps. destruct v; try done. eauto.
Qed.

Lemma walk_object_children walk m path refs v :
  walk_object root walk m path refs = Ok tt -> subschema m v -> visits walk refs v.
Proof.
  rewrite walk_object_Ok. intros (_ & _ & Hprops & Hsingle & Hitems & Hmaps & Hlists & Hdeps) Hv.
  assert (forall ps name v, m !! "properties" = Some (JSONObj ps) -> ps !! name = Some v -> visits walk refs v) as Hprop.
  { intros ps name x Hp Hx. apply (walk_properties_Ok walk m path refs ps Hp) in Hprops as (req & _ & Hall).
    eexists. by apply Hall. }
  destruct Hv as [ps name v Hp Hv|key v Hk Hv|l v Hl Hv|v Hv Hno|key c name v Hk Hc Hv|key l v Hk Hl Hv|ds name v Hd Hv Hno].
  - by eapply Hprop.
  - unfold walk_single in Hsingle. rewrite for_each_Ok in Hsingle. apply Hsingle in Hk.
    rewrite Hv in Hk. by eexists.
  - unfold walk_items in Hitems. rewrite Hl in Hitems. by eapply walk_elements_Ok.
  - unfold walk_items in Hitems. rewrite Hv in Hitems. destruct v; try by eexists. by edestruct Hno.
  - unfold walk_maps in Hmaps. rewrite for_each_Ok in Hmaps. pose proof (Hmaps _ Hk) as Hm.
    rewrite Hc in Hm. simpl in Hm. rewrite for_each_Ok in Hm. apply elem_of_map_to_list in Hv as Hin.
    apply Hm in Hin. simpl in Hin. destruct (String.eqb_spec key "properties") as [->|]; [by eapply Hprop | by eexists].
  - unfold walk_lists in Hlists. rewrite for_each_Ok in Hlists. apply Hlists in Hk.
    rewrite Hl in Hk. by eapply walk_elements_Ok.
  - unfold walk_dependencies in Hdeps. rewrite Hd in Hdeps. simpl in Hdeps. rewrite for_each_Ok in Hdeps.
    apply elem_of_map_to_list in Hv. apply Hdeps in Hv. simpl in Hv.
    destruct v; try by eexists. by edestruct Hno.
Qed.

Lemma walk_sound n : forall v path refs, walk root n v path refs = Ok tt -> admitted v.
Proof.
  induction n as [|n IH]; intros v path refs H; [done|]. simpl in H.
  destruct v as [| |b| | | |m]; try done; [constructor|]. constructor.
  - by eapply walk_object_well_formed.
  - intros v Hv. inversion Hv as [? ? Hs|? s t Hr Ht]; subst.
    + by apply (walk_object_children _ _ _ _ _ H) in Hs as [p Hs%IH].
    + apply walk_object_Ok in H as [H _]. unfold walk_ref in H. rewrite Hr in H.
      repeat case_match; simplify_eq. by eapply IH.
Qed.

(** ** Outcomes of a walk *)

(** A property of outcomes that holds of success, of sequences, of the walks of
    the children and either of all policy errors or of none needed. *)
Section outcome.
Context (Q : res unit -> Prop).
Context (Qok : Q (Ok tt)) (Qbind : forall r s, Q r -> Q s -> Q (_ ← r; s)).
Context (walk : JSONValue -> string -> gset string -> res unit).
Context (m : gmap string JSONValue) (path : string) (refs : gset string).
Definition unbroken : Prop := well_formed m /\ forall s, m !! "$ref" = Some (JSONString s) -> s ∉ refs.
Context (Qbad : unbroken \/ forall p k e, Q (Err (SchemaPolicyError p k e))).
Context (Qsub : forall v p, subschema m v -> Q (walk v p refs)).
Context (Qref : forall s t, m !! "$ref" = Some (JSONString s) -> resolveLocalRef root s = Ok t -> s ∉ refs ->
  Q (walk t (refPath s) ({[s]} ∪ refs))).

Lemma for_each_Q {A} (f : A -> res unit) l : (forall x, x ∈ l -> Q (f x)) -> Q (for_each f l).
Proof.
  induction l as [|x l IH]; simpl; [done|]. intros H. apply Qbind; [apply H; by left|].
  apply IH. intros y Hy. apply H. by right.
Qed.

Lemma walk_elements_Q prefix l : (forall v, v ∈ l -> subschema m v) -> Q (walk_elements walk refs prefix l).
Proof.
  intros H. apply for_each_Q. intros [i x] Hx%elem_of_imap_pair%list_elem_of_lookup_2. by apply Qsub, H.
Qed.

Lemma bad_Q p k e : ~ unbroken -> Q (Err (SchemaPolicyError p k e)).
Proof. destruct Qbad; [done | auto]. Qed.

Lemma walk_ref_Q : Q (walk_ref root walk m path refs).
Proof.
  unfold walk_ref. destruct (m !! "$ref") as [[| | |s| | |]|] eqn:E; try done;
    try (apply bad_Q; intros [Hwf _]; destruct (wf_ref _ Hwf _ E) as (? & ? & ? & _); done).
  destruct (has_prefix "#" s) eqn:Ep; simpl.
  2: { apply bad_Q. intros [Hwf _]. destruct (wf_ref _ Hwf _ E) as (? & ? & [= <-] & ? & _). congruence. }
  case_bool_decide; [apply bad_Q; intros [_ Hr]; by apply (Hr s)|].
  destruct (resolveLocalRef root s) eqn:Es; [by apply Qref|].
  apply bad_Q. intros [Hwf _]. destruct (wf_ref _ Hwf _ E) as (? & ? & [= <-] & _ & ?). congruence.
Qed.

Lemma requiredSet_Err value e : requiredSet value path = Err e ->
  exists k w, e = SchemaPolicyError (path +:+ "/required") k w.
Proof.
  destruct value as [[| | | | |l|]|]; simpl; try done; try by intros [= <-]; eauto.
  generalize (∅ : gset string). induction l as [|[] l IH]; intros set; simpl; try done; eauto;
    intros [= <-]; unfold invalid_required; eauto.
Qed.

Lemma walk_properties_Q : Q (walk_properties walk m path refs).
Proof.
  unfold walk_properties. destruct (m !! "properties") as [p|] eqn:Ep; simpl; [|done].
  destruct p as [| | | | | |ps]; simpl;
    try (apply bad_Q; intros [Hwf _]; destruct (wf_properties _ Hwf _ Ep) as (? & ? & ? & _); done).
  destruct (requiredSet (m !! "required") path) as [req|e] eqn:Er; simpl.
  - apply for_each_Q. intros [name v] Hv%elem_of_map_to_list. case_bool_decide as Hn; simpl.
    + apply Qsub. by eapply sub_property.
    + apply bad_Q. intros [Hwf _]. destruct (wf_properties _ Hwf _ Ep) as (? & req' & [= <-] & Hr' & Hall).
      apply (requiredSet_path _ _ _ path) in Hr'. rewrite Er in Hr'. injection Hr' as <-. by eapply Hn, Hall.
  - pose proof (requiredSet_Err _ _ Er) as (k & w & ->). apply bad_Q. intros [Hwf _].
    destruct (wf_properties _ Hwf _ Ep) as (? & req' & _ & Hr' & _).
    apply (requiredSet_path _ _ _ path) in Hr'. congruence.
Qed.

Lemma walk_children_Q :
  Q (walk_single walk m path refs) /\ Q (walk_items walk m path refs) /\ Q (walk_maps walk m path refs) /\
  Q (walk_lists walk m path refs) /\ Q (walk_dependencies walk m path refs).
Proof.
  split_and!.
  - apply for_each_Q. intros key Hk. destruct (m !! key) eqn:E; [|done]. apply Qsub. by eapply sub_single.
  - unfold walk_items. destruct (m !! "items") as [[]|] eqn:E; try done;
      try (by apply Qsub; eapply sub_items). apply walk_elements_Q. intros. by eapply sub_item.
  - apply for_each_Q. intros key Hk. destruct (m !! key) as [[| | | | | |c]|] eqn:E; simpl; try done.
    apply for_each_Q. intros [name v] Hv%elem_of_map_to_list. destruct (String.eqb _ _); [done|].
    apply Qsub. by eapply sub_member.
  - apply for_each_Q. intros key Hk. destruct (m !! key) as [v|] eqn:E; [|done].
    destruct v; try (apply bad_Q; intros [Hwf _]; by destruct (wf_lists _ Hwf _ _ Hk E)).
    apply walk_elements_Q. intros. by eapply sub_element.
  - unfold walk_dependencies. destruct (m !! "dependencies") as [d|] eqn:E; simpl; [|done].
    destruct d as [| | | | | |ds]; simpl; try (apply bad_Q; intros [Hwf _]; by destruct (wf_dependencies _ Hwf _ E)).
    apply for_each_Q. intros [name v] Hv%elem_of_map_to_list.
    destruct v; try done; apply Qsub; by eapply sub_dependency.
Qed.

Lemma reject_keywords_Q : Q (reject_keywords m path).
Proof.
  unfold reject_keywords. destruct (m !! "$dynamicRef") eqn:Ed.
  { apply bad_Q. intros [Hwf _]. pose proof (wf_dynamic _ Hwf). congruence. }
  destruct (m !! "$vocabulary") eqn:Ev; [|done].
  apply bad_Q. intros [Hwf _]. pose proof (wf_vocabulary _ Hwf). congruence.
Qed.

Lemma walk_object_Q : Q (walk_object root walk m path refs).
Proof.
  pose proof walk_children_Q as (? & ? & ? & ? & ?). unfold walk_object.
  do 7 (apply Qbind; [first [apply walk_ref_Q | apply walk_properties_Q | apply reject_keywords_Q | done]|]). done.
Qed.
End outcome.

(** ** Termination *)

(** A value at most as large as the root whose strings are strings of the root. *)
Definition within (x : JSONValue) (n : nat) : Prop :=
  json_size x <= n /\ forall s, s ∈ all_strings x -> s ∈ all_strings root.

Lemma member_strings (m : gmap string JSONValue) k x :
  m !! k = Some x -> forall s, s ∈ all_strings x -> s ∈ all_strings (JSONObj m).
Proof.
  simpl. revert k x. apply (map_fold_weak_ind
    (fun r m => forall k x, m !! k = Some x -> forall s, s ∈ all_strings x -> s ∈ r)); simpl.
  - intros k x H. by rewrite lookup_empty in H.
  - intros i y m' r Hi IH k x. rewrite lookup_insert_Some.
    intros [[-> ->]|[_ Hk]] s Hs; apply elem_of_app; [by left|]. right. by eapply IH.
Qed.

Lemma within_member m n k x : within (JSONObj m) (S n) -> m !! k = Some x -> within x n.
Proof.
  intros [Hs Ha] Hx. pose proof (map_fold_size_le json_size m k x Hx). simpl in Hs. split; [lia|].
  intros s H1. by eapply Ha, member_strings.
Qed.

Lemma within_weaken x n n' : within x n -> n <= n' -> within x n'.
Proof. intros [? ?] ?. split; [lia | done]. Qed.

Lemma within_item l n x : within (JSONArr l) n -> x ∈ l -> within x n.
Proof.
  intros [Hs Ha] Hx. simpl in Hs. split.
  - apply list_elem_of_split in Hx as (l1 & l2 & ->). rewrite map_app, list_sum_app in Hs. simpl in Hs. lia.
  - intros s H1. apply Ha. simpl. apply list_elem_of_In, in_flat_map. exists x. by rewrite <- !list_elem_of_In.
Qed.

Lemma within_sub m n v : within (JSONObj m) (S n) -> subschema m v -> within v n.
Proof.
  intros Hm Hv. destruct Hv as [ps name v Hp Hv|key v _ Hv|l v Hl Hv|v Hv _|key c name v _ Hc Hv|key l v _ Hl Hv|ds name v Hd Hv _].
  all: try by eapply within_member.
  all: match goal with H : _ !! _ = Some (JSONArr _) |- _ => pose proof (within_member _ n _ _ Hm H) as Hw
       | H : _ !! _ = Some (JSONObj _) |- _ => pose proof (within_member _ n _ _ Hm H) as Hw end.
  all: try by eapply within_item.
  all: eapply within_member; [eapply within_weaken; [exact Hw | lia] | done].
Qed.

Lemma within_follow tokens : forall x t n, within x n -> follow x tokens = Ok t -> within t n.
Proof.
  induction tokens as [|tok tokens IH]; intros x t n Hx H; simpl in H; [by simplify_eq|].
  destruct x as [| | | | | |m]; try done. destruct (m !! _) as [y|] eqn:Ey; [|done].
  eapply IH; [|exact H]. eapply within_member; [|exact Ey]. by eapply within_weaken; [exact Hx | lia].
Qed.

Lemma within_resolved s t : resolveLocalRef root s = Ok t -> within t (json_size root).
Proof.
  unfold resolveLocalRef. intros H. assert (within root (json_size root)) by (by split).
  repeat case_match; simplify_eq; [done|]. by eapply within_follow.
Qed.

Definition missing (refs : gset string) : nat := size (list_to_set (all_strings root) ∖ refs : gset string).

Lemma missing_ref s refs : s ∈ all_strings root -> s ∉ refs -> missing ({[s]} ∪ refs) < missing refs.
Proof. intros. unfold missing. apply subset_size. set_solver. Qed.

Lemma walk_terminates n : forall v path refs k,
  within v k -> missing refs * S (json_size root) + k < n -> walk root n v path refs <> Err out_of_fuel.
Proof.
  induction n as [|n IH]; intros v path refs k Hv Hn; [lia|]. simpl.
  destruct v as [| | | | | |m]; try done.
  destruct k as [|k]; [destruct Hv as [Hv _]; simpl in Hv; lia|].
  apply (walk_object_Q (fun r => r <> Err out_of_fuel)).
  - done.
  - intros [[]|] s; simpl; congruence.
  - by right.
  - intros v p Hs. eapply IH; [by eapply within_sub|]. lia.
  - intros s t Hr Ht Hns. eapply IH; [by eapply within_resolved|].
    assert (s ∈ all_strings root) as Hin.
    { destruct Hv as [_ Ha]. eapply Ha, member_strings; [exact Hr|]. by left. }
    pose proof (missing_ref s refs Hin Hns). nia.
Qed.

Lemma size_list_to_set_le (l : list string) : size (list_to_set l : gset string) <= length l.
Proof.
  induction l as [|s l IH]; [done|]. change (list_to_set (s :: l)) with ({[s]} ∪ list_to_set l : gset string).
  rewrite size_union_alt, size_singleton.
  assert (size ((list_to_set l : gset string) ∖ {[s]}) <= size (list_to_set l : gset string)) by (apply subseteq_size; set_solver).
  simpl. lia.
Qed.

Lemma root_terminates path : walk root (admit_fuel root) root path ∅ <> Err out_of_fuel.
Proof.
  apply (walk_terminates _ _ _ _ (json_size root)); [by split|]. unfold admit_fuel.
  pose proof (size_list_to_set_le (all_strings root)) as Hle.
  unfold missing. rewrite difference_empty_L. nia.
Qed.

(** ** Completeness *)

Lemma admitted_acyclic v : admitted v -> ~ tc edge v v.
Proof.
  induction 1 as [b|m Hwf Hm IH]; intros Hc.
  - inversion Hc as [? ? He|? ? ? He _]; inversion He.
  - assert (exists c, edge (JSONObj m) c /\ rtc edge c (JSONObj m)) as (c & He & Hr).
    { inversion Hc; subst; [by eexists | eexists; split; [done|]; by apply tc_rtc]. }
    apply (IH c He). eapply tc_rtc_l; [exact Hr|]. by apply tc_once.
Qed.

Lemma walk_complete n : forall v path refs,
  (forall s, s ∈ refs -> exists t, resolveLocalRef root s = Ok t /\ rtc edge t v) ->
  admitted v -> walk root n v path refs = Ok tt \/ walk root n v path refs = Err out_of_fuel.
Proof.
  induction n as [|n IH]; intros v path refs Hrefs Hv; [by right|]. simpl.
  destruct Hv as [b|m Hwf Hm]; [by left|].
  assert (forall s t, m !! "$ref" = Some (JSONString s) -> resolveLocalRef root s = Ok t -> edge (JSONObj m) t) as Hedge.
  { intros. by eapply edge_ref. }
  apply (walk_object_Q (fun r => r = Ok tt \/ r = Err out_of_fuel)).
  - by left.
  - intros r s [->| ->]; simpl; auto.
  - left. split; [done|]. intros s Hr Hin. destruct (wf_ref _ Hwf _ Hr) as (s' & t & [= <-] & _ & Ht).
    destruct (Hrefs s Hin) as (t' & Ht' & Hrtc). rewrite Ht in Ht'. injection Ht' as <-.
    apply (admitted_acyclic t); [by apply Hm, (Hedge s)|].
    eapply tc_rtc_l; [exact Hrtc|]. by apply tc_once, (Hedge s).
  - intros v p Hs. apply IH; [|by apply Hm, edge_sub].
    intros s Hin. destruct (Hrefs s Hin) as (t & Ht & Hrtc). exists t. split; [done|].
    eapply rtc_r; [exact Hrtc | by apply edge_sub].
  - intros s t Hr Ht Hns. apply IH; [|by apply Hm, (Hedge s)].
    intros s' [->%elem_of_singleton|Hin]%elem_of_union; [by exists t|].
    destruct (Hrefs s' Hin) as (t' & Ht' & Hrtc). exists t'. split; [done|].
    eapply rtc_r; [exact Hrtc | by apply (Hedge s)].
Qed.

Lemma walk_admitted : walk root (admit_fuel root) root "" ∅ = Ok tt <-> admitted root.
Proof.
  split; [by apply walk_sound|]. intros H. destruct (walk_complete (admit_fuel root) root "" ∅) as [?|?]; try done.
  by destruct (root_terminates "").
Qed.

Definition policy_outcome (r : res unit) : Prop :=
  r = Ok tt \/ r = Err out_of_fuel \/ exists p k w, r = Err (SchemaPolicyError p k w).

Lemma walk_policy n : forall v path refs, policy_outcome (walk root n v path refs).
Proof.
  induction n as [|n IH]; intros v path refs; [by right; left|]. simpl. unfold policy_outcome in *.
  destruct v as [| | | | | |m]; eauto 10.
  apply (walk_object_Q (fun r => r = Ok tt \/ r = Err out_of_fuel \/ exists p k w, r = Err (SchemaPolicyError p k w)));
    auto; [|right; eauto 10].
  intros r s [->|[->|(? & ? & ? & ->)]] Hs; simpl; eauto 10.
Qed.
End spec.

(** C31: the walk of a schema ends, admits exactly the schemas all of whose
    reachable objects are well formed and none of whose references leads back
    to where it came from, and otherwise reports a schema policy error. *)
Theorem walk_exact (root : JSONValue) :
  match walk root (admit_fuel root) root "" ∅ with
  | Ok _ => admitted root root
  | Err e => ~ admitted root root /\ exists path kind err, e = SchemaPolicyError path kind err
  end.
Proof.
  pose proof (walk_admitted root) as Ha. pose proof (root_terminates root "") as Hf.
  destruct (walk_policy root (admit_fuel root) root "" ∅) as [Hw|[Hw|(p & k & w & Hw)]]; rewrite Hw in *.
  - by apply Ha.
  - done.
  - split; [by rewrite <- Ha | eauto].
Qed.

Lemma at_root_Ok {A} kind (r : res A) a : at_root kind r = Ok a <-> r = Ok a.
Proof. destruct r; simpl; split; congruence. Qed.

(** C30: the output schema sent to the backend is the value the caller's text
    denotes, unchanged: admission either succeeds with exactly that value, and
    does so exactly when the text parses and prints, its draft is supported,
    it is an admitted object or boolean, and the schema compilers accept it,
    or it fails. *)
Theorem StrictOutputSchemaFromJSON_exact {C S : Type}
    (AddResource : Draft -> (string -> res JSONValue) -> JSONValue -> res C) (Compile : C -> res S)
    (validate : list lexeme -> res unit) (raw : list lexeme) (schema : JSONValue) :
  StrictOutputSchemaFromJSON AddResource Compile validate raw = Ok schema <->
  exists canonical draft compiler compiled,
    ParseJSONValue raw = Ok schema /\ MarshalJSON schema = Ok canonical /\
    supportedSchemaDraft schema = Ok draft /\ AddResource draft Load schema = Ok compiler /\
    admitted schema schema /\ Compile compiler = Ok compiled /\
    OutputSchemaFromJSON validate canonical = Ok schema.
Proof.
  unfold StrictOutputSchemaFromJSON. split.
  - intros H. case_bool_decide; [done|].
    apply bind_Ok in H as (parsed & Hp%at_root_Ok & H). apply bind_Ok in H as (canonical & Hc%at_root_Ok & H).
    apply parse_utf8 in Hp as Hu.
    rewrite (unmarshal_written parsed canonical) in H by (split; [done | by exists ""]). simpl in H.
    apply bind_Ok in H as (draft & Hd & H). apply bind_Ok in H as (compiler & Ha%at_root_Ok & H).
    apply bind_Ok in H as ([] & Hw%walk_admitted & H). apply bind_Ok in H as (compiled & Hcc%at_root_Ok & H).
    rewrite Hc in H. simpl in H. apply at_root_Ok in H as Ho.
    assert (parsed = schema) as ->.
    { unfold OutputSchemaFromJSON in H. pose proof (parse_printed parsed "" canonical Hu Hc) as Hpp.
      rewrite Hpp in H. cbn -[MarshalJSON] in H. apply at_root_Ok in H. case_match; [done|].
      by apply bind_Ok in H as (? & _ & [= ->]). }
    by exists canonical, draft, compiler, compiled.
  - intros (canonical & draft & compiler & compiled & Hp & Hm & Hd & Ha & Hw & Hc & Ho).
    case_bool_decide as He; [by subst raw|].
    apply parse_utf8 in Hp as Hu. repeat (apply bind_Ok; eexists; split; [first [by apply at_root_Ok | done | by apply walk_admitted
      | apply at_root_Ok, unmarshal_written; split; [done | by exists ""]]|]).
    by apply at_root_Ok.
Qed.

(** * Pointers *)

(** The bytes of a token with each one replaced by [f]. *)
Fixpoint str_flat_map (f : ascii -> string) (s : string) : string :=
  match s with EmptyString => EmptyString | String c s' => f c +:+ str_flat_map f s' end.

Definition tilde_escaped (c : ascii) : string := if Ascii.eqb c "~" then "~0" else String c "".
Definition escaped (c : ascii) : string :=
  if Ascii.eqb c "~" then "~0" else if Ascii.eqb c "/" then "~1" else String c "".

Lemma replace_byte a new c s :
  replace_from 0 (String a "") new (String c s) =
    if Ascii.eqb a c then new +:+ replace_from 0 (String a "") new s
    else String c (replace_from 0 (String a "") new s).
Proof. simpl. by rewrite andb_true_r. Qed.

Lemma replace_pair a b new c s : a <> c ->
  replace_from 0 (String a (String b "")) new (String c s) = String c (replace_from 0 (String a (String b "")) new s).
Proof. intros H%Ascii.eqb_neq. simpl. by rewrite H. Qed.

Lemma replace_all_tilde s : replace_all s "~" "~0" = str_flat_map tilde_escaped s.
Proof.
  unfold replace_all. induction s as [|c s IH]; [done|].
  rewrite replace_byte, IH, Ascii.eqb_sym. cbn [str_flat_map]. unfold tilde_escaped at 3.
  by destruct (Ascii.eqb c "~").
Qed.

Lemma escapePointer_flat_map s : escapePointer s = str_flat_map escaped s.
Proof.
  unfold escapePointer. rewrite replace_all_tilde. unfold replace_all. induction s as [|c s IH]; [done|].
  cbn [str_flat_map]. unfold tilde_escaped at 1, escaped at 1.
  destruct (Ascii.eqb_spec c "~") as [->|]; [rewrite !app_String, app_Empty; simpl; by rewrite IH|].
  rewrite app_String, app_Empty, replace_byte, IH, Ascii.eqb_sym. by destruct (Ascii.eqb c "/").
Qed.

Lemma replace_slash_back s : replace_all (str_flat_map escaped s) "~1" "/" = str_flat_map tilde_escaped s.
Proof.
  unfold replace_all. induction s as [|c s IH]; [done|].
  cbn [str_flat_map]. unfold tilde_escaped at 1, escaped at 1.
  destruct (Ascii.eqb_spec c "~") as [->|Hc]; [rewrite !app_String, app_Empty; simpl; by rewrite IH|].
  destruct (Ascii.eqb_spec c "/") as [->|]; [rewrite !app_String, app_Empty; simpl; by rewrite IH|].
  by rewrite app_String, app_Empty, replace_pair, IH.
Qed.

Lemma replace_tilde_back s : replace_all (str_flat_map tilde_escaped s) "~0" "~" = s.
Proof.
  unfold replace_all. induction s as [|c s IH]; [done|].
  cbn [str_flat_map]. unfold tilde_escaped at 1.
  destruct (Ascii.eqb_spec c "~") as [->|Hc]; [rewrite !app_String, app_Empty; simpl; by rewrite IH|].
  by rewrite app_String, app_Empty, replace_pair, IH.
Qed.

Lemma unescape_escape s : unescapePointer (escapePointer s) = s.
Proof. unfold unescapePointer. by rewrite escapePointer_flat_map, replace_slash_back, replace_tilde_back. Qed.

Lemma index_byte_cons a c s : a <> c -> index_byte c s = None -> index_byte c (String a s) = None.
Proof. intros H%Ascii.eqb_neq Hs. simpl. by rewrite H, Hs. Qed.

Lemma escape_no_slash s : index_byte "/" (escapePointer s) = None.
Proof.
  rewrite escapePointer_flat_map. induction s as [|c s IH]; [done|]. cbn [str_flat_map]. unfold escaped at 1.
  destruct (Ascii.eqb_spec c "~"); [|destruct (Ascii.eqb_spec c "/")];
    rewrite !app_String, app_Empty; by repeat (apply index_byte_cons; [done|]).
Qed.

Fixpoint value_at (v : JSONValue) (keys : list string) : option JSONValue :=
  match keys with
  | [] => Some v
  | k :: keys => match v with JSONObj m => m !! k ≫= fun x => value_at x keys | _ => None end
  end.

(** The fragment that names the place under [keys]. *)
Definition local_ref (keys : list string) : string :=
  "#" +:+ foldr (fun k acc => "/" +:+ escapePointer k +:+ acc) "" keys.

Lemma split_local k keys :
  split_byte "/" (escapePointer k +:+ foldr (fun k acc => "/" +:+ escapePointer k +:+ acc) "" keys) =
    map escapePointer (k :: keys).
Proof.
  revert k. induction keys as [|k' keys IH]; intros k; simpl.
  - rewrite str_app_nil_r. apply split_byte_no_sep, escape_no_slash.
  - rewrite !app_String, !app_Empty, split_byte_app by apply escape_no_slash. by rewrite IH.
Qed.

Lemma follow_value_at keys : forall v x, follow v (map escapePointer keys) = Ok x <-> value_at v keys = Some x.
Proof.
  induction keys as [|k keys IH]; intros v x; simpl; [split; congruence|].
  rewrite unescape_escape. destruct v; try done. destruct (values !! k); simpl; [apply IH | done].
Qed.

(** A local reference written with the pointer escapes, whatever bytes its
    keys hold, resolves to exactly the value under those keys. *)
Theorem resolveLocalRef_pointer (root : JSONValue) (keys : list string) (v : JSONValue) :
  resolveLocalRef root (local_ref keys) = Ok v <-> value_at root keys = Some v.
Proof.
  unfold resolveLocalRef, local_ref. destruct keys as [|k keys]; simpl foldr.
  { simpl. split; congruence. }
  change ("#" +:+ "/" +:+ ?s) with ("#/" +:+ s). rewrite has_prefix_app, trim_prefix_app, split_local.
  change (String.eqb ("#/" +:+ ?s) "#") with false. cbn [negb]. apply follow_value_at.
Qed.
