(* ===== verification/Caller.v ===== *)
(** The Codex caller: [src/llmcaller/codex/caller.go] and [clone.go].

    It turns a neutral request into an exact thread run and a run into neutral
    evidence.  The generated protocol types are a class: their clones through
    JSON ([cloneGenerated]), what [reflect] shows of them and the fields the
    caller reads.  The runner is a pair of functions over a world; [None] is a
    panic. *)

From S2P Require Import Prelude GoStrings JsonLex Json SchemaAdmission LlmAdapter.

Local Open Scope string_scope.
Local Open Scope list_scope.

(** * Reflection *)

(** What [hasMutableReferences] sees of a value: the kinds whose values can be
    nil, with whether this one is; arrays and structs; everything else. *)
Inductive reflected :=
| VInvalid
| VInterface (elem : option reflected)
| VReference (is_nil : bool)
| VArray (elems : list reflected)
| VStruct (fields : list reflected)
| VScalar.

(** [value.Field] panics on an array. *)
Fixpoint hasMutableReferences (value : reflected) : option bool :=
  match value with
  | VInvalid | VScalar => Some false
  | VInterface None => Some false
  | VInterface (Some elem) => hasMutableReferences elem
  | VReference is_nil => Some (negb is_nil)
  | VArray elems => match elems with [] => Some false | _ :: _ => None end
  | VStruct fields =>
    (fix go (fields : list reflected) : option bool :=
       match fields with
       | [] => Some false
       | f :: fields => b ← hasMutableReferences f; if (b : bool) then Some true else go fields
       end) fields
  end.

Definition isNil (value : option reflected) : bool :=
  match value with
  | None => true
  | Some (VReference is_nil) => is_nil
  | Some (VInterface elem) => match elem with None => true | Some _ => false end
  | Some _ => false
  end.

(** * Generated types *)

Record TokenUsageBreakdown := {
  InputTokens : Z; CachedInputTokens : Z; OutputTokens : Z; ReasoningOutputTokens : Z }.

Class CodexTypes := {
  ThreadStartParams : Type;
  ThreadStartResponse : Type;
  (** The fields of [TurnStartParams] the caller does not own, and of [Turn]
      that it does not read. *)
  TurnParamsRest : Type;
  UserInput : Type;
  TurnRest : Type;
  ThreadItem : Type;
  TurnError : Type;
  ThreadTokenUsage : Type;
  ServerNotification : Type;
  AdmitTurn : Type;
  zero_ThreadStartResponse : ThreadStartResponse;
  (** [reflect.DeepEqual] with the zero response. *)
  start_is_zero : ThreadStartResponse -> bool;
  start_Thread_ID : ThreadStartResponse -> string;
  usage_Total : ThreadTokenUsage -> TokenUsageBreakdown;
  NewUserInputText : string -> UserInput
}.

Section caller.
Context {CT : CodexTypes}.

Record TurnStartParams := {
  p_ThreadID : string; p_Input : option (list UserInput); p_OutputSchema : option JSONValue;
  p_rest : TurnParamsRest }.

Record StartThreadRunRequest := {
  s_Thread : ThreadStartParams; s_Turn : TurnStartParams; s_AdmitTurn : option AdmitTurn }.

Record Turn := {
  CompletedAt : option (Nullable Z); DurationMS : option (Nullable Z); t_Error : option (Nullable TurnError);
  t_ID : string; Items : option (list ThreadItem); ItemsView : option string;
  StartedAt : option (Nullable Z); Status : string; t_rest : TurnRest }.

Record ThreadRunResult := {
  run_Turn : Turn; run_Usage : option ThreadTokenUsage; run_Notifications : option (list ServerNotification);
  run_FinalResponse : string; run_FinalResponsePresent : bool; run_Diagnostics : list (string * nat) }.

Record StartedThreadRun := { Start : ThreadStartResponse; Run : ThreadRunResult }.

Definition hasTurnEvidence (turn : Turn) : bool :=
  bool_decide (is_Some (CompletedAt turn)) || bool_decide (is_Some (DurationMS turn)) ||
  bool_decide (is_Some (t_Error turn)) || negb (String.eqb (t_ID turn) "") ||
  bool_decide (is_Some (Items turn)) || bool_decide (is_Some (ItemsView turn)) ||
  bool_decide (is_Some (StartedAt turn)) || negb (String.eqb (Status turn) "").

(** * Clones *)

(** [cloneGenerated] at the types it is used at: marshal, then unmarshal. *)
Class Clones := {
  clone_thread_params : ThreadStartParams -> res ThreadStartParams;
  clone_turn_params : TurnStartParams -> res TurnStartParams;
  clone_start : ThreadStartResponse -> res ThreadStartResponse;
  clone_turn : Turn -> res Turn;
  clone_usage : ThreadTokenUsage -> res ThreadTokenUsage;
  clone_notification : ServerNotification -> res ServerNotification;
  reflect_start : ThreadStartResponse -> reflected;
  reflect_turn : Turn -> reflected;
  (** [reflect.DeepEqual] of a run with the zero run. *)
  run_is_zero : StartedThreadRun -> bool
}.
Context {CL : Clones}.

Definition set_turn_input (input : option (list UserInput)) (turn : TurnStartParams) : TurnStartParams := {|
  p_ThreadID := p_ThreadID turn; p_Input := input; p_OutputSchema := p_OutputSchema turn; p_rest := p_rest turn |}.

Definition cloneStartRequest (request : StartThreadRunRequest) : res StartThreadRunRequest :=
  thread ← clone_thread_params (s_Thread request);
  let nilInput := bool_decide (p_Input (s_Turn request) = None) in
  turn ← clone_turn_params (if nilInput then set_turn_input (Some []) (s_Turn request) else s_Turn request);
  Ok {| s_Thread := thread; s_Turn := if nilInput then set_turn_input None turn else turn;
        s_AdmitTurn := s_AdmitTurn request |}.

(** The outer [None] is the panic of [hasMutableReferences]. *)
Definition cloneGeneratedOrSafeValue {A} (clone : A -> res A) (reflect : A -> reflected) (source : A) : option (res A) :=
  match clone source with
  | Ok copy => Some (Ok copy)
  | Err e => mutable ← hasMutableReferences (reflect source);
             Some (if (mutable : bool) then Err e else Ok source)
  end.

Fixpoint clone_all (l : list ServerNotification) : res (list ServerNotification) :=
  match l with
  | [] => Ok []
  | n :: l => n ← clone_notification n; l ← clone_all l; Ok (n :: l)
  end.

Definition clone_rest (start : ThreadStartResponse) (run : ThreadRunResult) (turn : Turn) : res StartedThreadRun :=
  usage ← match run_Usage run with
          | None => Ok None
          | Some u => u ← clone_usage u; Ok (Some u)
          end;
  notifications ← match run_Notifications run with
                  | None => Ok None
                  | Some l => l ← clone_all l; Ok (Some l)
                  end;
  Ok {| Start := start;
        Run := {| run_Turn := turn; run_Usage := usage; run_Notifications := notifications;
                  run_FinalResponse := run_FinalResponse run;
                  run_FinalResponsePresent := run_FinalResponsePresent run;
                  run_Diagnostics := run_Diagnostics run |} |}.

Definition cloneStartedRun (run : StartedThreadRun) : option (res StartedThreadRun) :=
  start ← (if start_is_zero (Start run) then Some (Ok zero_ThreadStartResponse)
           else cloneGeneratedOrSafeValue clone_start reflect_start (Start run));
  match start with
  | Err e => Some (Err e)
  | Ok start =>
    turn ← (if hasTurnEvidence (run_Turn (Run run))
            then cloneGeneratedOrSafeValue clone_turn reflect_turn (run_Turn (Run run))
            else Some (Ok (run_Turn (Run run))));
    match turn with
    | Err e => Some (Err e)
    | Ok turn => Some (clone_rest start (Run run) turn)
    end
  end.

(** * The caller *)

Definition ErrNilThreadRunner : error := Sentinel "llmcaller/codex: thread runner is nil".
Definition ErrMissingAdmission : error := Sentinel "llmcaller/codex: application-owned AdmitTurn is required".
Definition ErrMissingThreadID : string := "codexsdk: thread response missing thread id".

Definition CodexBackendName : string := "codex".

(** [ThreadRunner.Start] of a runner that is not nil. *)
Context {W : Type}.
Definition Runner : Type := StartThreadRunRequest -> W -> (StartedThreadRun * option error) * W.

Record Caller := { runner : option Runner; defaults : StartThreadRunRequest }.

Definition New (r : option Runner) (d : StartThreadRunRequest) : res Caller :=
  match r with
  | None => Err ErrNilThreadRunner
  | Some _ =>
    if negb (String.eqb (p_ThreadID (s_Turn d)) "") then
      Err (Sentinel "llmcaller/codex: Defaults.Turn.ThreadID is adapter-owned")
    else if bool_decide (is_Some (p_Input (s_Turn d))) then
      Err (Sentinel "llmcaller/codex: Defaults.Turn.Input is adapter-owned")
    else if bool_decide (is_Some (p_OutputSchema (s_Turn d))) then
      Err (Sentinel "llmcaller/codex: Defaults.Turn.OutputSchema is adapter-owned")
    else if bool_decide (s_AdmitTurn d = None) then Err ErrMissingAdmission
    else match cloneStartRequest d with
         | Err e => Err (Errorf "llmcaller/codex: clone defaults: %w" [e])
         | Ok defaults => Ok {| runner := r; defaults := defaults |}
         end
  end.

(** [strict] is [StrictOutputSchemaFromJSON] with its compiler. *)
Context (strict : list lexeme -> res JSONValue).

Definition request (c : Caller) (r : Request) : res StartThreadRunRequest :=
  outputSchema ← strict (default [] (OutputSchema r));
  startRequest ← cloneStartRequest (defaults c);
  Ok {| s_Thread := s_Thread startRequest;
        s_Turn := {| p_ThreadID := ""; p_Input := Some [NewUserInputText (Prompt r)];
                     p_OutputSchema := Some outputSchema; p_rest := p_rest (s_Turn startRequest) |};
        s_AdmitTurn := s_AdmitTurn startRequest |}.

Context (zero_run : StartedThreadRun).

Definition startRun (c : option Caller) (r : Request) (w : W) : (StartedThreadRun * option error) * W :=
  match c with
  | Some c =>
    match runner c with
    | None => ((zero_run, Some ErrNilThreadRunner), w)
    | Some run =>
      match request c r with
      | Err e => ((zero_run, Some e), w)
      | Ok startRequest => run startRequest w
      end
    end
  | None => ((zero_run, Some ErrNilThreadRunner), w)
  end.

Definition hasDecodedStart (run : StartedThreadRun) (runErr : option error) : bool :=
  negb (String.eqb (start_Thread_ID (Start run)) "") ||
  match runErr with Some e => errors_is ErrMissingThreadID e | None => false end.

Definition hasRunEvidence (run : StartedThreadRun) (runErr : option error) : bool :=
  negb (run_is_zero run) || hasDecodedStart run runErr.

Definition isolatedNeutralUsage (usage : option ThreadTokenUsage) : res (option TokenUsage) :=
  match usage with
  | None => Ok None
  | Some u =>
    cloned ← clone_usage u;
    let total := usage_Total cloned in
    Ok (ObserveCounts (Some {| Input := Unknown; CachedInput := Unknown; Output := Unknown; ReasoningOutput := Unknown |})
          (InputTokens total) (CachedInputTokens total) (OutputTokens total) (ReasoningOutputTokens total))
  end.

Definition projectNeutralResponse (run : StartedThreadRun) (cloned : res StartedThreadRun) : Response := {|
  FinalResponse := if run_FinalResponsePresent (Run run) then Observed (run_FinalResponse (Run run)) else Unknown;
  Execution := {| BackendName := "codex"; ProviderName := Unknown; Model := Unknown;
                  Usage := match isolatedNeutralUsage (run_Usage (Run run)) with Ok u => u | Err _ => None end |};
  Backend := match cloned with Ok _ => Details CodexBackendName | Err _ => NoDetails end |}.

Definition err_of {A} (r : res A) : option error := match r with Ok _ => None | Err e => Some e end.

Definition Call (c : option Caller) (r : Request) (w : W) : option ((Response * option error) * W) :=
  let '((run, runErr), w) := startRun c r w in
  if negb (hasRunEvidence run runErr) then Some ((zero_response, runErr), w)
  else cloned ← cloneStartedRun run;
       Some ((projectNeutralResponse run cloned, errors_join [runErr; err_of cloned]), w).

Definition finalizeRun (run : StartedThreadRun) (runErr : option error) : option (StartedThreadRun * option error) :=
  cloned ← cloneStartedRun run;
  Some (match cloned with Ok c => c | Err _ => run end, errors_join [runErr; err_of cloned]).

Definition CallDetailed (c : option Caller) (r : Request) (w : W) : option ((StartedThreadRun * option error) * W) :=
  let '((run, runErr), w) := startRun c r w in
  out ← finalizeRun run runErr; Some (out, w).

(** [Stream]: the exact stream, whose result and error are read when asked. *)
Definition isTerminalRun (run : StartedThreadRun) : bool :=
  mem (Status (run_Turn (Run run))) ["completed"; "failed"; "interrupted"].

Definition Stream_Err (result : option StartedThreadRun) (streamErr : option error) : option (option error) :=
  match result with
  | None => Some streamErr
  | Some run =>
    if bool_decide (streamErr = None) && negb (isTerminalRun run) then Some None
    else snd <$> finalizeRun run streamErr
  end.

(** * Theorems *)

(** Values in which [hasMutableReferences] meets no array. *)
Fixpoint array_free (value : reflected) : Prop :=
  match value with
  | VInterface (Some elem) => array_free elem
  | VArray elems => elems = []
  | VStruct fields => (fix go (fields : list reflected) : Prop :=
                         match fields with [] => True | f :: fields => array_free f /\ go fields end) fields
  | _ => True
  end.

Fixpoint hasMutableReferences_defined (value : reflected) {struct value} :
  array_free value -> is_Some (hasMutableReferences value).
Proof.
  destruct value as [|[e|]|b|elems|fields|]; simpl; try by eexists.
  - apply hasMutableReferences_defined.
  - intros ->. by eexists.
  - revert fields. fix IH 1. intros [|f fields]; simpl; [by eexists|]. intros [Hf Hfs].
    destruct (hasMutableReferences_defined f Hf) as [b ->]. simpl. destruct b; [by eexists | by apply IH].
Qed.

Lemma cloneGeneratedOrSafeValue_defined {A} (clone : A -> res A) reflect source :
  array_free (reflect source) -> is_Some (cloneGeneratedOrSafeValue clone reflect source).
Proof.
  intros H. unfold cloneGeneratedOrSafeValue. destruct (clone source); [by eexists|].
  destruct (hasMutableReferences_defined _ H) as [b ->]. by eexists.
Qed.

Context (Hstart : forall s, array_free (reflect_start s)) (Hturn : forall t, array_free (reflect_turn t)).

Lemma cloneStartedRun_defined run : is_Some (cloneStartedRun run).
Proof.
  unfold cloneStartedRun.
  assert (exists r, (if start_is_zero (Start run) then Some (Ok zero_ThreadStartResponse)
    else cloneGeneratedOrSafeValue clone_start reflect_start (Start run)) = Some r) as [[s|e] ->].
  { destruct (start_is_zero _); [by eexists|]. by apply cloneGeneratedOrSafeValue_defined. }
  2: by eexists.
  simpl.
  assert (exists r, (if hasTurnEvidence (run_Turn (Run run))
    then cloneGeneratedOrSafeValue clone_turn reflect_turn (run_Turn (Run run))
    else Some (Ok (run_Turn (Run run)))) = Some r) as [[t|e] ->].
  { destruct (hasTurnEvidence _); [|by eexists]. by apply cloneGeneratedOrSafeValue_defined. }
  all: by eexists.
Qed.

(** A constructed caller never sends a turn the application did not admit:
    whatever request it builds carries the admission function it was
    constructed with, a fresh thread, exactly the prompt as its input and
    exactly the strictly admitted schema; the remaining turn settings come from
    a clone of the defaults. *)
Theorem request_owned r d c req s (Hnew : New r d = Ok c) (Hreq : request c req = Ok s) :
  is_Some (s_AdmitTurn d) /\ s_AdmitTurn s = s_AdmitTurn d /\
  p_ThreadID (s_Turn s) = "" /\ p_Input (s_Turn s) = Some [NewUserInputText (Prompt req)] /\
  (exists schema, strict (default [] (OutputSchema req)) = Ok schema /\ p_OutputSchema (s_Turn s) = Some schema) /\
  (exists d1 d2, cloneStartRequest d = Ok d1 /\ cloneStartRequest d1 = Ok d2 /\
     s_Thread s = s_Thread d2 /\ p_rest (s_Turn s) = p_rest (s_Turn d2)).
Proof.
  unfold New in Hnew. destruct r as [run|]; [|done].
  destruct (negb _); [done|]. case_bool_decide; [done|]. case_bool_decide; [done|].
  case_bool_decide as Ha; [done|]. destruct (cloneStartRequest d) as [d1|] eqn:E1; [|done]. injection Hnew as <-.
  unfold request in Hreq. simpl in Hreq.
  apply bind_Ok in Hreq as (schema & Hs & Hreq). apply bind_Ok in Hreq as (d2 & E2 & [= <-]). simpl.
  assert (forall a b, cloneStartRequest a = Ok b -> s_AdmitTurn b = s_AdmitTurn a) as Hadm.
  { unfold cloneStartRequest. intros a b Hb. apply bind_Ok in Hb as (? & _ & Hb). by apply bind_Ok in Hb as (? & _ & [= <-]). }
  split_and!; try done; [by destruct (s_AdmitTurn d) | by rewrite (Hadm _ _ E2), (Hadm _ _ E1) | eauto | eauto 10].
Qed.

(** What the neutral response says of a run. *)
Record evidence_of (run : StartedThreadRun) (response : Response) : Prop := {
  ev_final : FinalResponse response =
    if run_FinalResponsePresent (Run run) then Observed (run_FinalResponse (Run run)) else Unknown;
  ev_backend : BackendName (Execution response) = "codex";
  ev_identity : ProviderName (Execution response) = Unknown /\ Model (Execution response) = Unknown;
  ev_usage u total : run_Usage (Run run) = Some u -> (usage_Total <$> clone_usage u) = Ok total ->
    Usage (Execution response) = Some {| Input := Observed (InputTokens total); CachedInput := Observed (CachedInputTokens total);
      Output := Observed (OutputTokens total); ReasoningOutput := Observed (ReasoningOutputTokens total) |} }.

(** A call never panics and never loses evidence: every sentinel of the run's
    error is below the returned error, no error is invented but a failed
    clone's, a run with any evidence is projected to exactly its final
    response, usage totals and no inferred identity, and the response always
    passes the adapter's backend-identity check. *)
Theorem Call_evidence (c : option Caller) (r : Request) (w : W) :
  exists run runErr response err w',
    startRun c r w = ((run, runErr), w') /\ Call c r w = Some ((response, err), w') /\
    identity_agrees response /\
    (forall t e, runErr = Some e -> errors_is t e = true -> exists e', err = Some e' /\ errors_is t e' = true) /\
    (runErr = None -> err = None \/ exists e, cloneStartedRun run = Some (Err e)) /\
    (if hasRunEvidence run runErr then evidence_of run response else response = zero_response).
Proof.
  unfold Call. destruct (startRun c r w) as [[run runErr] w'].
  destruct (hasRunEvidence run runErr) eqn:Ev; simpl.
  - destruct (cloneStartedRun_defined run) as [cloned Hc]. rewrite Hc. simpl.
    exists run, runErr. eexists _, _, w'. split; [done|]. split; [done|]. rewrite Ev. split_and!.
    + unfold identity_agrees, projectNeutralResponse. simpl. destruct cloned; [|done]. by split.
    + intros t e -> Ht.
      destruct (proj2 (errors_join_is t [Some e; err_of cloned])) as (j & -> & Hj); [|eauto].
      exists e. split; [by left | done].
    + intros ->. destruct cloned; simpl; [by left | right; eauto].
    + constructor; try done. intros u total Hu Ht. simpl. rewrite Hu. simpl.
      by destruct (clone_usage u); simplify_eq/=.
  - exists run, runErr, zero_response, runErr, w'. rewrite Ev. split_and!; try done; eauto.
Qed.
End caller.

(** * A small instance *)

Definition sample_types : CodexTypes := {|
  ThreadStartParams := string; ThreadStartResponse := string; TurnParamsRest := string; UserInput := string;
  TurnRest := unit; ThreadItem := string; TurnError := string; ThreadTokenUsage := TokenUsageBreakdown;
  ServerNotification := string; AdmitTurn := unit;
  zero_ThreadStartResponse := ""; start_is_zero := fun s => String.eqb s ""; start_Thread_ID := fun s => s;
  usage_Total := fun u => u; NewUserInputText := fun s => s |}.

Definition sample_clones : Clones (CT := sample_types) :=
  @Build_Clones sample_types Ok Ok Ok Ok Ok Ok
    (fun _ => VStruct [VScalar; VReference false]) (fun _ => VStruct []) (fun run => String.eqb (Start run) "").

Definition sample_defaults : StartThreadRunRequest (CT := sample_types) :=
  @Build_StartThreadRunRequest sample_types "model" (@Build_TurnStartParams sample_types "" None None "low") (Some tt).

Definition sample_turn : Turn (CT := sample_types) :=
  @Build_Turn sample_types None None None "turn" (Some ["answer"]) None None "completed" tt.

Definition sample_started : StartedThreadRun (CT := sample_types) :=
  @Build_StartedThreadRun sample_types "thread"
    (@Build_ThreadRunResult sample_types sample_turn
       (Some {| InputTokens := 7; CachedInputTokens := 1; OutputTokens := 2; ReasoningOutputTokens := 0 |})
       (Some ["turn/completed"]) "42" true []).

Definition sample_empty_run : StartedThreadRun (CT := sample_types) :=
  @Build_StartedThreadRun sample_types ""
    (@Build_ThreadRunResult sample_types (@Build_Turn sample_types None None None "" None None None "" tt) None None "" false []).

Definition sample_runner : Runner (CT := sample_types) (W := nat) :=
  fun _ w => ((sample_started, Some (Sentinel "codexsdk: turn failed")), S w).

Definition sample_strict (raw : list lexeme) : res JSONValue := Ok (JSONBool true).

Lemma request_owned_witness :
  exists c s, New (CL := sample_clones) (Some sample_runner) sample_defaults = Ok c /\
    request (CL := sample_clones) sample_strict c {| Prompt := "hello"; OutputSchema := Some [LBool true] |} = Ok s /\
    p_Input (s_Turn s) = Some ["hello"].
Proof.
  eexists _, _. split; [reflexivity|]. split; [reflexivity|].
  pose proof (request_owned (CL := sample_clones) sample_strict (Some sample_runner) sample_defaults _
    {| Prompt := "hello"; OutputSchema := Some [LBool true] |} _ eq_refl eq_refl) as (_ & _ & _ & Hi & _).
  exact Hi.
Defined.

Lemma Call_evidence_witness :
  exists response err w', identity_agrees response /\
    Call (CL := sample_clones) sample_strict sample_empty_run
      (Some {| runner := Some sample_runner; defaults := sample_defaults |})
      {| Prompt := "hello"; OutputSchema := Some [LBool true] |} 0%nat = Some ((response, err), w') /\
    FinalResponse response = Observed "42".
Proof.
  pose proof (Call_evidence (CL := sample_clones) sample_strict sample_empty_run
    (fun _ => conj I (conj I I)) (fun _ => I)
    (Some {| runner := Some sample_runner; defaults := sample_defaults |})
    {| Prompt := "hello"; OutputSchema := Some [LBool true] |} 0%nat)
    as (run & runErr & response & err & w' & Hs & Hc & Hi & _ & _ & He).
  exists response, err, w'. split; [exact Hi|]. split; [exact Hc|].
  vm_compute in Hs. injection Hs as <- <- <-. exact (ev_final _ _ He).
Defined.
