(* ===== verification/Checks.v ===== *)
(** Required checks of a candidate head: [src/codexsdk/internal/checkacceptance]
    ([checks.go] and [recovery.go]).

    The GitHub API is a pair of functions over a world: [Get] answers a read
    with raw bytes or an error, [Post] is the one effect.  The decoders of the
    three listings and of the single objects ([json.Unmarshal] into the
    anonymous structs) are parameters.  The pause between the two attempts of a
    read is left out. *)

From S2P Require Import Prelude GoStrings.
From Stdlib Require Import Ascii.

Local Open Scope string_scope.
Local Open Scope list_scope.
Local Open Scope Z_scope.

Definition RequiredNames : list string :=
  ["Root source verification"; "Codex generated reproducibility / Generated reproducibility";
   "Codex protocol provenance"; "Live Codex integration / Live scenarios"].

(** [NoState] is the zero value of the Go type. *)
Inductive State := NoState | Missing | Pending | Failed | Cancelled | Succeeded.
#[export] Instance State_eq_dec : EqDecision State.
Proof. solve_decision. Defined.

Record Run := { ID : Z; run_Name : string; HeadSHA : string; run_Status : string; run_Conclusion : string; App_Slug : string }.
Definition zero_Run : Run :=
  {| ID := 0; run_Name := ""; HeadSHA := ""; run_Status := ""; run_Conclusion := ""; App_Slug := "" |}.

Record Check_ := { check_Name : string; check_State : State; RunID : Z; check_Conclusion : string }.

Record Observation := {
  Head : string; obs_State : State; obs_Checks : list Check_;
  WorkflowRunID : Z; WorkflowAttempt : Z; WorkflowState : State }.

(** * Evaluation *)

Definition proves (name head : string) (run : Run) : bool :=
  String.eqb (run_Name run) name && String.eqb (HeadSHA run) head && String.eqb (App_Slug run) "github-actions".

Definition latest_run (name head : string) (runs : list Run) : Run :=
  foldl (fun latest run => if proves name head run && (ID latest <? ID run) then run else latest) zero_Run runs.

Definition conclusion_state (status conclusion : string) : State :=
  if String.eqb status "completed" then
    if String.eqb conclusion "success" then Succeeded
    else if String.eqb conclusion "cancelled" then Cancelled
    else if String.eqb conclusion "" then Pending
    else Failed
  else Pending.

Definition check_of (head : string) (runs : list Run) (name : string) : Check_ :=
  let latest := latest_run name head runs in
  {| check_Name := name;
     check_State := if 0 <? ID latest then conclusion_state (run_Status latest) (run_Conclusion latest) else Missing;
     RunID := ID latest; check_Conclusion := run_Conclusion latest |}.

(** The first of the states, in order of precedence, that a check has. *)
Fixpoint worst (states : list State) (checks : list Check_) : State :=
  match states with
  | [] => Succeeded
  | s :: states => if existsb (fun c => bool_decide (check_State c = s)) checks then s else worst states checks
  end.

Definition Evaluate (head : string) (runs : list Run) : Observation :=
  let checks := map (check_of head runs) RequiredNames in
  {| Head := head; obs_State := worst [Failed; Cancelled; Missing; Pending] checks; obs_Checks := checks;
     WorkflowRunID := 0; WorkflowAttempt := 0; WorkflowState := NoState |}.

(** * Workflow runs *)

(** [StartedAt] is an instant; the zero time is [0]. *)
Record WorkflowRun := {
  StartedAt : Z; w_ID : Z; w_HeadSHA : string; Attempt : Z; w_Status : string; w_Conclusion : string }.
Definition zero_WorkflowRun : WorkflowRun :=
  {| StartedAt := 0; w_ID := 0; w_HeadSHA := ""; Attempt := 0; w_Status := ""; w_Conclusion := "" |}.

Definition workflowState (run : WorkflowRun) : State :=
  if w_ID run =? 0 then Missing
  else if negb (String.eqb (w_Status run) "completed") || String.eqb (w_Conclusion run) "" then Pending
  else if String.eqb (w_Conclusion run) "success" then Succeeded
  else if String.eqb (w_Conclusion run) "cancelled" then Cancelled
  else Failed.

Definition later (latest run : WorkflowRun) : bool :=
  (StartedAt latest <? StartedAt run) || ((StartedAt run =? StartedAt latest) && (w_ID latest <? w_ID run)).

Definition latest_workflow (runs : list WorkflowRun) : WorkflowRun :=
  foldl (fun latest run => if later latest run then run else latest) zero_WorkflowRun runs.

Definition workflow_active (runs : list WorkflowRun) : bool :=
  existsb (fun run => bool_decide (workflowState run = Pending)) runs.

Definition with_workflow (result : Observation) (runs : list WorkflowRun) : Observation :=
  let latest := latest_workflow runs in
  let state := if workflow_active runs then Pending else workflowState latest in
  {| Head := Head result; obs_State := if bool_decide (state = Succeeded) then obs_State result else state;
     obs_Checks := obs_Checks result; WorkflowRunID := w_ID latest; WorkflowAttempt := Attempt latest;
     WorkflowState := state |}.

(** * Reads *)

(** [headPattern] and [repositoryPattern]. *)
Definition is_hex (c : Ascii.ascii) : bool :=
  let n := Ascii.nat_of_ascii c in ((48 <=? n) && (n <=? 57) || (97 <=? n) && (n <=? 102))%nat.
Definition headPattern (s : string) : bool := (String.length s =? 40)%nat && all_bytes is_hex s.

Definition is_repository_byte (c : Ascii.ascii) : bool :=
  let n := Ascii.nat_of_ascii c in
  ((65 <=? n) && (n <=? 90) || (97 <=? n) && (n <=? 122) || (48 <=? n) && (n <=? 57) ||
   (n =? 95) || (n =? 46) || (n =? 45))%nat.
Definition repositoryPattern (s : string) : bool :=
  match split_byte "/"%char s with
  | [owner; name] => negb (String.eqb owner "") && negb (String.eqb name "") &&
                     all_bytes is_repository_byte owner && all_bytes is_repository_byte name
  | _ => false
  end.

(** ** The latest run *)

(** [run] is the first run with the largest id among those that prove [name]. *)
Definition decides (name head : string) (runs : list Run) (run : Run) : Prop :=
  exists before after, runs = before ++ run :: after /\ proves name head run = true /\ 0 < ID run /\
    (forall r, r ∈ before -> proves name head r = true -> ID r < ID run) /\
    (forall r, r ∈ after -> proves name head r = true -> ID r <= ID run).

Lemma latest_run_spec name head runs :
  (latest_run name head runs = zero_Run /\ forall r, r ∈ runs -> proves name head r = true -> ID r <= 0) \/
  decides name head runs (latest_run name head runs).
Proof.
  unfold latest_run. induction runs as [|run runs IH] using rev_ind.
  { left. split; [done|]. by intros r ?%not_elem_of_nil. }
  rewrite foldl_snoc. set (latest := foldl _ _ runs) in *.
  destruct (proves name head run && (ID latest <? ID run)) eqn:E.
  - apply andb_true_iff in E as [Ep Hlt%Z.ltb_lt]. right. exists runs, []. split_and!; [done..| | |].
    + destruct IH as [[Hz _]|(? & ? & _ & _ & Hpos & _)]; [rewrite Hz in Hlt; done | lia].
    + intros r Hr Hp. destruct IH as [[Hz Hall]|(b & a & Hruns & _ & _ & Hb & Ha)].
      * specialize (Hall r Hr Hp). rewrite Hz in Hlt. simpl in Hlt. lia.
      * rewrite Hruns in Hr. apply elem_of_app in Hr as [Hr|[->|Hr]%elem_of_cons]; [specialize (Hb r Hr Hp); lia | lia | specialize (Ha r Hr Hp); lia].
    + by intros r ?%not_elem_of_nil.
  - assert (proves name head run = true -> ID run <= ID latest) as Hle.
    { intros Hp. rewrite Hp in E. simpl in E. by apply Z.ltb_ge in E. }
    destruct IH as [[Hz Hall]|(b & a & Hruns & Hp & Hpos & Hb & Ha)].
    + left. split; [done|]. intros r [Hr| ->%list_elem_of_singleton]%elem_of_app Hp; [by apply Hall|].
      specialize (Hle Hp). by rewrite Hz in Hle.
    + right. exists b, (a ++ [run]). split_and!; try done.
      * by rewrite Hruns at 1; rewrite <- app_assoc.
      * intros r [Hr| ->%list_elem_of_singleton]%elem_of_app Hp'; [by apply Ha | by apply Hle].
Qed.

Lemma decides_latest name head runs run : decides name head runs run -> latest_run name head runs = run.
Proof.
  intros (b & a & Hruns & Hp & Hpos & Hb & Ha).
  destruct (latest_run_spec name head runs) as [[_ Hall]|(b' & a' & Hruns' & Hp' & Hpos' & Hb' & Ha')].
  { assert (ID run <= 0); [|lia]. apply Hall; [|done]. rewrite Hruns. apply elem_of_app. right. by left. }
  set (latest := latest_run name head runs) in *.
  assert (forall (l1 l2 m1 m2 : list Run) x y, l1 ++ x :: l2 = m1 ++ y :: m2 -> y ∈ l1 \/ y = x \/ y ∈ l2) as Hin.
  { intros l1 l2 m1 m2 x y Heq. assert (y ∈ l1 ++ x :: l2) as Hy; [rewrite Heq; apply elem_of_app; right; by left|].
    apply elem_of_app in Hy as [?|[?|?]%elem_of_cons]; auto. }
  rewrite Hruns in Hruns'.
  assert (ID latest <= ID run) by (destruct (Hin _ _ _ _ _ _ Hruns') as [H|[->|H]]; [specialize (Hb _ H Hp'); lia | lia | by apply Ha]).
  symmetry in Hruns'.
  assert (ID run <= ID latest) by (destruct (Hin _ _ _ _ _ _ Hruns') as [H'|[->|H']]; [specialize (Hb' _ H' Hp); lia | lia | by apply Ha']).
  assert (forall (l1 l2 m1 m2 : list Run) x y, l1 ++ x :: l2 = m1 ++ y :: m2 -> x ∈ m1 \/ y ∈ l1 \/ x = y) as Hpos2.
  { induction l1 as [|z l1 IHl]; intros l2 [|z' m1] m2 x y Heq; injection Heq as <- Heq; auto.
    - left. by left.
    - right. left. by left.
    - destruct (IHl _ _ _ _ _ Heq) as [?|[?|?]]; auto; [left; by right | right; left; by right]. }
  destruct (Hpos2 _ _ _ _ _ _ Hruns') as [H'|[H'|H']]; [specialize (Hb _ H' Hp'); lia | specialize (Hb' _ H' Hp); lia | done].
Qed.

Lemma worst_succeeded states checks :
  Succeeded ∉ states ->
  worst states checks = Succeeded <-> forall c, c ∈ checks -> check_State c ∉ states.
Proof.
  induction states as [|s states IH]; intros Hno; simpl.
  - split; [|done]. intros _ c _. apply not_elem_of_nil.
  - apply not_elem_of_cons in Hno as [Hs Hno]. destruct (existsb _ checks) eqn:E.
    + split; [congruence|]. intros H. apply existsb_exists in E as (c & Hc%list_elem_of_In & Hcs%bool_decide_eq_true).
      destruct (H c Hc). rewrite Hcs. by left.
    + rewrite IH by done. apply existsb_false_Forall in E. rewrite Forall_forall in E.
      split; intros H c Hc; [|intros ?; apply (H c Hc); by right].
      intros [Heq|?]%elem_of_cons; [|by apply (H c Hc)].
      specialize (E c Hc). by apply bool_decide_eq_false in E.
Qed.

Lemma conclusion_success status conclusion :
  conclusion_state status conclusion = Succeeded <-> status = "completed" /\ conclusion = "success".
Proof.
  unfold conclusion_state. destruct (String.eqb_spec status "completed"), (String.eqb_spec conclusion "success");
    repeat case_match; naive_solver.
Qed.

Definition required_check_state (s : State) : Prop := s ∈ [Failed; Cancelled; Missing; Pending; Succeeded].

Lemma check_of_state head runs name : required_check_state (check_State (check_of head runs name)).
Proof.
  unfold check_of, conclusion_state, required_check_state; simpl. repeat case_match; set_solver.
Qed.

(** The decisive run of every required check completed successfully. *)
Definition all_required_succeed (head : string) (runs : list Run) : Prop :=
  forall name, name ∈ RequiredNames ->
    exists run, decides name head runs run /\ run_Status run = "completed" /\ run_Conclusion run = "success".

Lemma check_of_succeeded head runs name :
  check_State (check_of head runs name) = Succeeded <->
  exists run, decides name head runs run /\ run_Status run = "completed" /\ run_Conclusion run = "success".
Proof.
  unfold check_of. simpl. destruct (latest_run_spec name head runs) as [[Hz Hall]|Hd].
  - rewrite Hz. simpl. split; [done|]. intros (run & Hd & _). apply decides_latest in Hd as Hl.
    destruct Hd as (_ & _ & _ & _ & Hpos & _). rewrite Hz in Hl. subst run. done.
  - pose proof Hd as (_ & _ & _ & _ & Hpos & _). rewrite (proj2 (Z.ltb_lt _ _) Hpos), conclusion_success. split.
    + intros []. eauto.
    + intros (run & Hr%decides_latest & ?). by rewrite Hr.
Qed.

(** A head is accepted by [Evaluate] exactly when, for every required name,
    the GitHub Actions run of that name on that head with the largest id, the
    first of them in the listing, completed successfully: a newer attempt, a
    run of another app and a run of another head never stand in for it. *)
Lemma Evaluate_spec head runs : obs_State (Evaluate head runs) = Succeeded <-> all_required_succeed head runs.
Proof.
  unfold Evaluate. cbn [obs_State]. rewrite worst_succeeded by set_solver. unfold all_required_succeed. split.
  - intros H name Hn. apply check_of_succeeded.
    assert (check_of head runs name ∈ map (check_of head runs) RequiredNames) as Hin.
    { apply list_elem_of_In, in_map. by apply list_elem_of_In. }
    specialize (H _ Hin). pose proof (check_of_state head runs name) as Hs.
    unfold required_check_state in Hs. set_solver.
  - intros H c Hc. apply list_elem_of_In, in_map_iff in Hc as (name & <- & Hn%list_elem_of_In).
    rewrite (proj2 (check_of_succeeded head runs name) (H name Hn)). set_solver.
Qed.

(** ** The latest workflow run *)

Lemma latest_workflow_spec runs :
  (latest_workflow runs = zero_WorkflowRun \/ latest_workflow runs ∈ runs) /\
  forall r, r ∈ runs -> later (latest_workflow runs) r = false.
Proof.
  unfold latest_workflow. induction runs as [|run runs [IHl IHr]] using rev_ind.
  { split; [by left | by intros r ?%not_elem_of_nil]. }
  rewrite foldl_snoc. set (latest := foldl _ _ runs) in *.
  destruct (later latest run) eqn:E.
  - split; [right; set_solver|]. intros r [Hr| ->%list_elem_of_singleton]%elem_of_app.
    + specialize (IHr r Hr). unfold later in *. lia.
    + unfold later. lia.
  - split; [destruct IHl; [by left | right; set_solver]|].
    intros r [Hr| ->%list_elem_of_singleton]%elem_of_app; [by apply IHr | done].
Qed.

Lemma with_workflow_succeeded result runs :
  obs_State (with_workflow result runs) = Succeeded ->
  obs_State result = Succeeded /\ (forall r, r ∈ runs -> workflowState r <> Pending) /\
  latest_workflow runs ∈ runs /\ workflowState (latest_workflow runs) = Succeeded.
Proof.
  unfold with_workflow, workflow_active. simpl. intros H.
  destruct (existsb _ runs) eqn:Ea; [by rewrite bool_decide_eq_false_2 in H|].
  apply existsb_false_Forall in Ea. rewrite Forall_forall in Ea.
  case_bool_decide as Hs; [|done]. split_and!; try done.
  - intros r Hr. by apply Ea, bool_decide_eq_false in Hr.
  - destruct (latest_workflow_spec runs) as [[Hz|?] _]; [|done]. by rewrite Hz in Hs.
Qed.

Section api.
Context {W Raw : Type} (Get : string -> W -> res Raw * W).

Fixpoint read_attempts {A} (n : nat) (decode : Raw -> res A) (path : string) (w : W) : res A * W :=
  match Get path w with
  | (Ok raw, w) => (decode raw, w)
  | (Err e, w) => match n with O => (Err e, w) | S n => read_attempts n decode path w end
  end.

(** [read]: a failed request is repeated once, a failed decode is not. *)
Definition read {A} (decode : Raw -> res A) (path : string) (w : W) : res A * W := read_attempts 1 decode path w.

(** ** Listings *)

(** The loop that the three listings share: every page is read, the total may
    not change, [check] inspects an item after those before it, and the first
    page whose length is [final] is the last. *)
Section listing.
Context {A : Type} (decode : Raw -> res (Z * list A)) (path : nat -> string).
Context (check : list A -> A -> res unit) (final : nat -> bool) (changed incomplete oversized : error).

Fixpoint add_batch (items batch : list A) : res (list A) :=
  match batch with
  | [] => Ok items
  | x :: batch => _ ← check items x; add_batch (items ++ [x]) batch
  end.

Fixpoint list_pages (n page : nat) (total : Z) (items : list A) (w : W) : res (list A) * W :=
  match n with
  | O => (Err oversized, w)
  | S n =>
    let '(r, w) := read decode (path page) w in
    match r with
    | Err e => (Err e, w)
    | Ok (batch_total, batch) =>
      if negb (total <? 0) && negb (total =? batch_total) then (Err changed, w)
      else
      let total := if total <? 0 then batch_total else total in
      match add_batch items batch with
      | Err e => (Err e, w)
      | Ok items =>
        if final (length batch) then
          if Z.of_nat (length items) =? total then (Ok items, w) else (Err incomplete, w)
        else list_pages n (S page) total items w
      end
    end
  end.

Definition listing (w : W) : res (list A) * W := list_pages 100 1 (-1) [] w.
End listing.

(** ** Observations *)

Context (decode_checks : Raw -> res (Z * list Run)) (decode_workflows : Raw -> res (Z * list WorkflowRun)).

Definition checks_path (repository head : string) (page : nat) : string :=
  "repos/" +:+ repository +:+ "/commits/" +:+ head +:+ "/check-runs?filter=all&per_page=100&page=" +:+ pretty page.
Definition workflows_path (repository head : string) (page : nat) : string :=
  "repos/" +:+ repository +:+ "/actions/workflows/pr-verification.yml/runs?head_sha=" +:+ head
    +:+ "&per_page=100&page=" +:+ pretty page.

Definition check_run (items : list Run) (run : Run) : res unit :=
  guard_err ((ID run <=? 0) || mem (ID run) (map ID items))
    (Errorf "invalid or repeated check-run ID while observing H %s" []).

Definition check_workflow (head : string) (items : list WorkflowRun) (run : WorkflowRun) : res unit :=
  guard_err ((w_ID run <=? 0) || mem (w_ID run) (map w_ID items) || negb (String.eqb (w_HeadSHA run) head) || (Attempt run <? 1))
    (Errorf "invalid workflow observation for H %s" []).

Definition observeWorkflow (repository head : string) (result : Observation) (w : W) : res Observation * W :=
  let '(r, w) := listing decode_workflows (workflows_path repository head) (check_workflow head)
    (fun n => negb (n =? 100)%nat) (Errorf "workflow listing changed while observing H %s" []) (Errorf "incomplete workflow listing for H %s" [])
    (Errorf "workflow listing exceeds bounded observation for H %s" []) w in
  (runs ← r; Ok (with_workflow result runs), w).

Definition Observe (repository head : string) (w : W) : res Observation * W :=
  if negb (headPattern head) || negb (repositoryPattern repository) then
    (Err (Errorf "repository and exact 40-character head SHA are required" []), w)
  else
  let '(r, w) := listing decode_checks (checks_path repository head) check_run
    (fun n => (n <? 100)%nat) (Errorf "check listing changed while observing H %s" []) (Errorf "incomplete check listing for H %s: got %d of %d" [])
    (Errorf "check listing exceeds bounded observation for H %s" []) w in
  match r with
  | Err e => (Err e, w)
  | Ok runs => observeWorkflow repository head (Evaluate head runs) w
  end.

(** * Recovery *)

Record RecoveryJob := {
  job_Name : string; job_HeadSHA : string; job_Status : string; job_Conclusion : string;
  job_StartedAt : option string; job_Steps : list string }.

Record PullHead := { pull_State : string; pull_SHA : string; pull_Ref : string; pull_Repo : string }.

Context (decode_jobs : Raw -> res (Z * list RecoveryJob)) (decode_pull : Raw -> res PullHead).
Context (decode_ref : Raw -> res string) (decode_run : Raw -> res WorkflowRun).
(** [url.PathEscape], and the one effect: [api.Request("POST", ...)]. *)
Context (PathEscape : string -> string) (Post : string -> W -> option error * W).

Definition needs_maintainer (reason : string) : error := Errorf ("needs-maintainer: " +:+ reason) [].

Definition check_job (head : string) (_ : list RecoveryJob) (job : RecoveryJob) : res unit :=
  if negb (String.eqb (job_HeadSHA job) head) || negb (String.eqb (job_Status job) "completed") then
    Err (needs_maintainer "job identity or state changed")
  else if negb (mem (job_Conclusion job) ["success"; "cancelled"; "skipped"]) then
    Err (needs_maintainer "job failure requires investigation")
  else if contains "Live scenarios" (job_Name job) && negb (String.eqb (job_Conclusion job) "success") then
    if bool_decide (is_Some (job_StartedAt job)) then
      Err (needs_maintainer "cancelled live job already started")
    else guard_err (existsb (fun status => negb (String.eqb status "queued")) (job_Steps job))
           (needs_maintainer "cancelled live execution must not be replayed")
  else Ok tt.

Definition run_path (repository : string) (runID : Z) : string :=
  "repos/" +:+ repository +:+ "/actions/runs/" +:+ pretty runID.
Definition jobs_path (repository : string) (runID attempt : Z) (page : nat) : string :=
  run_path repository runID +:+ "/attempts/" +:+ pretty attempt +:+ "/jobs?per_page=100&page=" +:+ pretty page.

Definition verifyRecoveryJobs (repository head : string) (runID attempt : Z) (w : W) : res unit * W :=
  let '(r, w) := listing decode_jobs (jobs_path repository runID attempt) (check_job head)
    (fun n => (n <? 100)%nat) (needs_maintainer "jobs changed during recovery observation")
    (needs_maintainer "incomplete jobs listing") (needs_maintainer "jobs listing exceeds bounded observation") w in
  (_ ← r; Ok tt, w).

(** The workflow is the cancelled [attempt] of [runID]. *)
Definition same_cancellation (o : Observation) (runID attempt : Z) : bool :=
  bool_decide (WorkflowState o = Cancelled) && (WorkflowRunID o =? runID) && (WorkflowAttempt o =? attempt).

Definition empty_observation (head : string) : Observation :=
  {| Head := head; obs_State := NoState; obs_Checks := []; WorkflowRunID := 0; WorkflowAttempt := 0; WorkflowState := NoState |}.

Definition stop (e : error) (w : W) : option error * W := (Some e, w).

(** The identities read back right before the effect. *)
Definition recheck (repository head : string) (pr runID attempt : Z) (w : W) : res unit * W :=
  let '(current, w) := read decode_pull ("repos/" +:+ repository +:+ "/pulls/" +:+ pretty pr) w in
  match current with
  | Err e => (Err e, w)
  | Ok current =>
  if negb (String.eqb (pull_State current) "open") || negb (String.eqb (pull_SHA current) head) ||
     negb (String.eqb (pull_Repo current) repository) then
    (Err (needs_maintainer "PR head changed before recovery"), w)
  else if String.eqb (pull_Ref current) "" then (Err (needs_maintainer "PR has no head ref"), w)
  else
  let '(ref, w) := read decode_ref ("repos/" +:+ repository +:+ "/git/ref/heads/" +:+ PathEscape (pull_Ref current)) w in
  match ref with
  | Err e => (Err e, w)
  | Ok sha =>
  if negb (String.eqb sha head) then (Err (needs_maintainer "remote head changed before recovery"), w)
  else
  let '(run, w) := read decode_run (run_path repository runID) w in
  match run with
  | Err e => (Err e, w)
  | Ok run =>
  if negb (w_ID run =? runID) || negb (String.eqb (w_HeadSHA run) head) || negb (Attempt run =? attempt) ||
     negb (bool_decide (workflowState run = Cancelled)) then
    (Err (needs_maintainer "run changed before recovery"), w)
  else
  let '(latest, w) := observeWorkflow repository head (empty_observation head) w in
  match latest with
  | Err e => (Err e, w)
  | Ok latest =>
    (guard_err (negb (same_cancellation latest runID attempt)) (needs_maintainer "latest workflow changed before recovery"), w)
  end end end end.

Definition RecoverCancelled (repository head : string) (pr runID attempt : Z) (w : W) : option error * W :=
  if (pr <=? 0) || (runID <=? 0) || negb (attempt =? 1) then
    stop (needs_maintainer "recovery is limited to one retry of attempt 1") w
  else
  let '(observation, w) := Observe repository head w in
  match observation with
  | Err e => stop e w
  | Ok observation =>
  if negb (same_cancellation observation runID attempt) then stop (needs_maintainer "cancellation observation changed") w
  else if existsb (fun c => bool_decide (check_State c = Failed)) (obs_Checks observation) then
    stop (needs_maintainer "failed required check %s is not automatically retried") w
  else
  let '(jobs, w) := verifyRecoveryJobs repository head runID attempt w in
  match jobs with
  | Err e => stop e w
  | Ok _ =>
  let '(same, w) := recheck repository head pr runID attempt w in
  match same with
  | Err e => stop e w
  | Ok _ => Post (run_path repository runID +:+ "/rerun-failed-jobs") w
  end end end.

(** * Theorems *)

(** ** Listings *)

(** Every item passed its check after the items before it. *)
Definition checked {A} (check : list A -> A -> res unit) (items : list A) : Prop :=
  forall before x after, items = before ++ x :: after -> check before x = Ok tt.

Lemma checked_snoc {A} (check : list A -> A -> res unit) items x :
  checked check items -> check items x = Ok tt -> checked check (items ++ [x]).
Proof.
  intros Hc Hx before y after Heq.
  destruct after as [|z after _] using rev_ind.
  - apply app_inj_tail in Heq as [<- <-]. done.
  - rewrite app_comm_cons, app_assoc in Heq. apply app_inj_tail in Heq as [Heq _]. by eapply Hc.
Qed.

Section listing_facts.
Context {A : Type} (decode : Raw -> res (Z * list A)) (path : nat -> string).
Context (check : list A -> A -> res unit) (final : nat -> bool) (changed incomplete oversized : error).

Lemma add_batch_checked batch : forall items items',
  add_batch check items batch = Ok items' -> checked check items -> checked check items' /\ exists more, items' = items ++ more.
Proof.
  induction batch as [|x batch IH]; intros items items' H Hc; simpl in H.
  - injection H as <-. split; [done|]. exists []. by rewrite app_nil_r.
  - apply bind_Ok in H as ([] & Hx & H). apply IH in H as [Hc' [more ->]]; [|by apply checked_snoc].
    split; [done|]. exists (x :: more). by rewrite <- app_assoc.
Qed.

(** A page that reports [total] was read. *)
Definition reports (total : Z) : Prop := exists w page batch w', read decode (path page) w = (Ok (total, batch), w').

Lemma list_pages_spec n : forall page total items w items' w',
  list_pages decode path check final changed incomplete oversized n page total items w = (Ok items', w') ->
  checked check items ->
  checked check items' /\ reports (Z.of_nat (length items')).
Proof.
  induction n as [|n IH]; intros page total items w items' w' H Hc; simpl in H; [done|].
  destruct (read decode (path page) w) as [[[batch_total batch]|e] w1] eqn:Er; [|done].
  destruct (negb (total <? 0) && negb (total =? batch_total)) eqn:Eg; [done|].
  destruct (add_batch check items batch) as [items1|] eqn:Eb; [|done].
  apply add_batch_checked in Eb as [Hc1 _]; [|done].
  assert ((if total <? 0 then batch_total else total) = batch_total) as Et.
  { destruct (total <? 0); [done|]. simpl in Eg. apply negb_false_iff, Z.eqb_eq in Eg. done. }
  rewrite Et in H. destruct (final (length batch)).
  - destruct (Z.of_nat (length items1) =? batch_total) eqn:El; [|done]. apply Z.eqb_eq in El.
    injection H as <- <-. split; [done|]. rewrite El. by exists w, page, batch, w1.
  - by apply IH in H.
Qed.
End listing_facts.

Lemma listing_spec {A} (decode : Raw -> res (Z * list A)) path check final changed incomplete oversized w items w' :
  listing decode path check final changed incomplete oversized w = (Ok items, w') ->
  checked check items /\ reports decode path (Z.of_nat (length items)).
Proof. unfold listing. intros H. eapply list_pages_spec; [exact H|]. intros [|? ?] ? ? Heq; discriminate Heq. Qed.

(** The world after reads only. *)
Definition reads : W -> W -> Prop := rtc (fun w w' => exists path, w' = (Get path w).2).

Lemma read_reads {A} (decode : Raw -> res A) path w : reads w (read decode path w).2.
Proof.
  unfold read. generalize 1%nat. intros n. revert w. induction n as [|n IH]; intros w; simpl;
    destruct (Get path w) as [[raw|e] w1] eqn:E; simpl;
    (eapply rtc_l; [exists path; by rewrite E|]); try apply rtc_refl. apply IH.
Qed.

Lemma list_pages_reads {A} (decode : Raw -> res (Z * list A)) path check final changed incomplete oversized n :
  forall page total items w,
  reads w (list_pages decode path check final changed incomplete oversized n page total items w).2.
Proof.
  induction n as [|n IH]; intros page total items w; simpl; [apply rtc_refl|].
  pose proof (read_reads decode (path page) w) as Hr.
  destruct (read decode (path page) w) as [[[batch_total batch]|e] w1]; simpl in *; [|exact Hr].
  destruct (negb _ && negb _); [exact Hr|]. destruct (add_batch _ _ _); [|exact Hr].
  destruct (final _); [destruct (_ =? _); exact Hr|]. etrans; [exact Hr | apply IH].
Qed.

Lemma listing_reads {A} (decode : Raw -> res (Z * list A)) path check final changed incomplete oversized w :
  reads w (listing decode path check final changed incomplete oversized w).2.
Proof. apply list_pages_reads. Qed.

#[local] Opaque listing.

(** The evidence behind an accepted observation. *)
Record accepted_head (repository head : string) (o : Observation) (runs : list Run) (workflows : list WorkflowRun) : Prop := {
  acc_head : headPattern head = true /\ Head o = head;
  acc_runs : checked check_run runs /\ reports decode_checks (checks_path repository head) (Z.of_nat (length runs));
  acc_required : all_required_succeed head runs;
  acc_workflows : checked (check_workflow head) workflows /\
    reports decode_workflows (workflows_path repository head) (Z.of_nat (length workflows));
  acc_settled r : r ∈ workflows -> workflowState r <> Pending;
  acc_latest : exists latest, latest ∈ workflows /\ workflowState latest = Succeeded /\ w_ID latest = WorkflowRunID o /\
    forall r, r ∈ workflows -> later latest r = false }.

(** An observation accepts a head only on complete listings: every page was
    read, no id is missing or repeated, the counts are the reported totals, the
    decisive run of every required check of that head succeeded, no workflow
    attempt of that head is still active and the latest one succeeded. *)
Theorem Observe_accepts (repository head : string) (w : W) (o : Observation) (w' : W)
    (H : Observe repository head w = (Ok o, w')) (Hs : obs_State o = Succeeded) :
  exists runs workflows, accepted_head repository head o runs workflows.
Proof.
  unfold Observe in H. destruct (negb (headPattern head) || negb (repositoryPattern repository)) eqn:Ep; [done|].
  apply orb_false_iff in Ep as [Eh%negb_false_iff _].
  destruct (listing decode_checks _ _ _ _ _ _ w) as [[runs|e] w1] eqn:El; [|done]. apply listing_spec in El.
  unfold observeWorkflow in H. destruct (listing decode_workflows _ _ _ _ _ _ w1) as [[workflows|e] w2] eqn:Ew; [|done].
  apply listing_spec in Ew. injection H as <- <-.
  apply with_workflow_succeeded in Hs as (Hr & Hp & Hin & Hl).
  exists runs, workflows. constructor; try done.
  - by apply Evaluate_spec.
  - exists (latest_workflow workflows). split_and!; try done. apply latest_workflow_spec.
Qed.

(** ** Recovery *)

Lemma observeWorkflow_reads repository head result w : reads w (observeWorkflow repository head result w).2.
Proof.
  unfold observeWorkflow. pose proof (listing_reads decode_workflows (workflows_path repository head) (check_workflow head)
    (fun n => negb (n =? 100)%nat) (Errorf "workflow listing changed while observing H %s" [])
    (Errorf "incomplete workflow listing for H %s" []) (Errorf "workflow listing exceeds bounded observation for H %s" []) w).
  by destruct (listing _ _ _ _ _ _ _ w).
Qed.

Lemma Observe_reads repository head w : reads w (Observe repository head w).2.
Proof.
  unfold Observe. destruct (_ || _); [apply rtc_refl|].
  pose proof (listing_reads decode_checks (checks_path repository head) check_run (fun n => (n <? 100)%nat)
    (Errorf "check listing changed while observing H %s" []) (Errorf "incomplete check listing for H %s: got %d of %d" [])
    (Errorf "check listing exceeds bounded observation for H %s" []) w) as Hl.
  destruct (listing _ _ _ _ _ _ _ w) as [[runs|e] w1]; [|done]. etrans; [exact Hl | apply observeWorkflow_reads].
Qed.

(** A job that recovery may run again: of this head, completed without failure,
    and, when it is a live job, successful or never started. *)
Definition replayable (head : string) (job : RecoveryJob) : Prop :=
  job_HeadSHA job = head /\ job_Status job = "completed" /\ job_Conclusion job ∈ ["success"; "cancelled"; "skipped"] /\
  (contains "Live scenarios" (job_Name job) = true -> job_Conclusion job = "success" \/
     job_StartedAt job = None /\ Forall (fun status => status = "queued") (job_Steps job)).

Lemma check_job_replayable head items job : check_job head items job = Ok tt -> replayable head job.
Proof.
  unfold check_job, replayable. intros H.
  destruct (negb _ || negb _) eqn:E1; [done|]. apply orb_false_iff in E1 as [E1%negb_false_iff%String.eqb_eq E2%negb_false_iff%String.eqb_eq].
  destruct (negb (mem _ _)) eqn:E3; [done|]. apply negb_false_iff, mem_true in E3.
  split_and!; try done. intros Hl. rewrite Hl in H. simpl in H.
  destruct (String.eqb_spec (job_Conclusion job) "success") as [|_]; [by left|]. right. simpl in H.
  case_bool_decide as Hst; [done|]. split; [by destruct (job_StartedAt job); [destruct Hst; eexists|]|].
  apply guard_err_Ok, existsb_false_Forall in H. eapply Forall_impl; [exact H|].
  intros status Hq%negb_false_iff. by apply String.eqb_eq.
Qed.

Lemma verifyRecoveryJobs_spec repository head runID attempt w w' :
  verifyRecoveryJobs repository head runID attempt w = (Ok tt, w') ->
  exists jobs, Forall (replayable head) jobs /\
    reports decode_jobs (jobs_path repository runID attempt) (Z.of_nat (length jobs)).
Proof.
  unfold verifyRecoveryJobs. intros H. destruct (listing _ _ _ _ _ _ _ w) as [[jobs|e] w1] eqn:E; [|done].
  apply listing_spec in E as [Hc Hr]. exists jobs. split; [|done]. apply Forall_forall. intros job Hj.
  apply list_elem_of_split in Hj as (b & a & ->). by eapply check_job_replayable, Hc.
Qed.

Lemma verifyRecoveryJobs_reads repository head runID attempt w :
  reads w (verifyRecoveryJobs repository head runID attempt w).2.
Proof.
  unfold verifyRecoveryJobs. pose proof (listing_reads decode_jobs (jobs_path repository runID attempt) (check_job head)
    (fun n => (n <? 100)%nat) (needs_maintainer "jobs changed during recovery observation")
    (needs_maintainer "incomplete jobs listing") (needs_maintainer "jobs listing exceeds bounded observation") w).
  by destruct (listing _ _ _ _ _ _ _ w).
Qed.

(** Compose the reads at hand. *)
Ltac chain_reads := repeat first [eassumption | apply rtc_refl | etrans; [eassumption|]].

Lemma recheck_reads repository head pr runID attempt w : reads w (recheck repository head pr runID attempt w).2.
Proof.
  unfold recheck.
  repeat match goal with
  | |- context [read ?d ?p ?x] => let H := fresh in pose proof (read_reads d p x) as H; destruct (read d p x) as [[?|?] ?]; simpl in H
  | |- context [observeWorkflow ?r ?h ?o ?x] =>
    let H := fresh in pose proof (observeWorkflow_reads r h o x) as H; destruct (observeWorkflow r h o x) as [[?|?] ?]; simpl in H
  | |- context [if ?b then _ else _] => destruct b
  end; simpl; chain_reads.
Qed.

(** Recovery has at most one effect, the rerun of attempt one of a cancelled
    workflow, and only after everything was read again: the head's latest
    attempt is that cancellation both before and after the pull request, its
    branch and the run were read back, no required check failed, and every job
    may be replayed: no live job that started runs twice. *)
Theorem RecoverCancelled_guarded (repository head : string) (pr runID attempt : Z) (w : W) :
  match RecoverCancelled repository head pr runID attempt w with
  | (e, w') =>
    (reads w w' /\ e <> None) \/
    exists w0 w1 w2 w3 o jobs,
      Post (run_path repository runID +:+ "/rerun-failed-jobs") w3 = (e, w') /\ reads w w3 /\ attempt = 1 /\
      Observe repository head w = (Ok o, w1) /\ same_cancellation o runID attempt = true /\
      (forall c, c ∈ obs_Checks o -> check_State c <> Failed) /\
      Forall (replayable head) jobs /\ reports decode_jobs (jobs_path repository runID attempt) (Z.of_nat (length jobs)) /\
      recheck repository head pr runID attempt w2 = (Ok tt, w3) /\
      exists latest, observeWorkflow repository head (empty_observation head) w0 = (Ok latest, w3) /\
        same_cancellation latest runID attempt = true
  end.
Proof.
  unfold RecoverCancelled, stop. destruct (_ || _) eqn:Eg; [left; split; [apply rtc_refl | done]|].
  apply orb_false_iff in Eg as [_ Ha%negb_false_iff%Z.eqb_eq].
  pose proof (Observe_reads repository head w) as R1.
  destruct (Observe repository head w) as [[o|e] w1] eqn:Eo; simpl in R1; [|by left].
  destruct (same_cancellation o runID attempt) eqn:Es; simpl; [|by left].
  destruct (existsb _ _) eqn:Ef; [by left|].
  pose proof (verifyRecoveryJobs_reads repository head runID attempt w1) as R2.
  destruct (verifyRecoveryJobs repository head runID attempt w1) as [[[]|e] w2] eqn:Ej; simpl in R2;
    [|left; split; [chain_reads | done]].
  apply verifyRecoveryJobs_spec in Ej as (jobs & Hj & Hr).
  pose proof (recheck_reads repository head pr runID attempt w2) as R3.
  destruct (recheck repository head pr runID attempt w2) as [[[]|e] w3] eqn:Ec; simpl in R3;
    [|left; split; [chain_reads | done]].
  destruct (Post _ w3) as [e w'] eqn:Ep. right.
  assert (exists w0 latest, observeWorkflow repository head (empty_observation head) w0 = (Ok latest, w3) /\
    same_cancellation latest runID attempt = true) as (w0 & latest & Hl).
  { unfold recheck in Ec.
    repeat match type of Ec with
    | context [read ?d ?p ?x] => destruct (read d p x) as [[?|?] ?]; [|done]
    | context [if ?b then _ else _] => destruct b; [done|]
    end.
    destruct (observeWorkflow _ _ _ _) as [[latest|?] wl] eqn:El; [|done].
    injection Ec as Hg <-. apply guard_err_Ok, negb_false_iff in Hg. eauto. }
  exists w0, w1, w2, w3, o, jobs. split_and!; try done; [chain_reads | | by exists latest].
  intros c Hc. apply existsb_false_Forall in Ef. rewrite Forall_forall in Ef.
  specialize (Ef c Hc). by apply bool_decide_eq_false in Ef.
Qed.
End api.

(** * A small repository *)

Definition sample_head : string := "0123456789012345678901234567890123456789".

Definition sample_check (id : Z) (name : string) : Run :=
  {| ID := id; run_Name := name; HeadSHA := sample_head; run_Status := "completed";
     run_Conclusion := "success"; App_Slug := "github-actions" |}.

(** The world counts the reads; a body is the listing it decodes to. *)
Definition sample_get (path : string) (w : nat) : res (list Run + list WorkflowRun) * nat :=
  (Ok (if contains "/commits/" path then inl (imap (fun i name => sample_check (Z.of_nat i + 1) name) RequiredNames)
       else inr [{| StartedAt := 10; w_ID := 7; w_HeadSHA := sample_head; Attempt := 1;
                    w_Status := "completed"; w_Conclusion := "success" |}]), S w).

Definition sample_runs (raw : list Run + list WorkflowRun) : res (Z * list Run) :=
  match raw with inl l => Ok (Z.of_nat (length l), l) | inr _ => Err (Sentinel "json") end.
Definition sample_workflows (raw : list Run + list WorkflowRun) : res (Z * list WorkflowRun) :=
  match raw with inr l => Ok (Z.of_nat (length l), l) | inl _ => Err (Sentinel "json") end.

Lemma Observe_accepts_witness :
  match Observe sample_get sample_runs sample_workflows "owner/name" sample_head 0%nat with
  | (Ok o, w') => w' = 2%nat /\ exists runs workflows,
      accepted_head sample_get sample_runs sample_workflows "owner/name" sample_head o runs workflows
  | (Err _, _) => False
  end.
Proof.
  destruct (Observe sample_get sample_runs sample_workflows "owner/name" sample_head 0%nat) as [[o|e] w'] eqn:E.
  - assert (obs_State o = Succeeded /\ w' = 2%nat) as [Hs Hw] by (vm_compute in E; injection E as <- <-; by split).
    split; [exact Hw|]. exact (Observe_accepts sample_get sample_runs sample_workflows "owner/name" sample_head 0%nat o w' E Hs).
  - vm_compute in E. discriminate E.
Defined.
