(* ===== verification/Forward.v ===== *)
(** Integration of a candidate into main:
    [src/codexsdk/internal/protocolsync/auto_forward.go].

    [AutoForward] converges by observing and acting through the operations of
    [ForwardOperations], which are functions over a world [W] and may answer
    anything.  Every call is logged with its answer, the newest first, so that
    what the loop did before an effect can be stated.  The context is the read
    [ctxErr] of the world; an operation is told whether it runs under the
    original context or under the bounded one of a readback.  The loop takes
    fuel; [AutoForward_terminates] shows that the deadline bounds it. *)

From S2P Require Import Prelude GoStrings Policy Checks.

Local Open Scope string_scope.
Local Open Scope list_scope.

Record ForwardState := { fs_Head : string; fs_Main : string; fs_Branch : string; Ready : bool; Merged : bool }.

Record ForwardResult := {
  fr_Status : string; fr_Head : string; fr_Main : string; fr_Reason : option error; fr_Checks : Observation }.

Inductive ctx_kind := Original | Readback.

Definition ErrForwardConflict : error := Sentinel "mechanical rebase conflicts; bounded fresh repair required".
Definition ErrForwardSemanticProof : error := Sentinel "local candidate verification failed".

(** The calls of [ForwardOperations] with their answers. *)
Inductive event :=
| ERead (head : string) (r : res ForwardState)
| EAncestor (a b : string) (r : res bool)
| EPolicy (main head : string) (r : res string)
| ERebase (main head : string) (r : res string)
| EPublish (old next main : string) (r : option error)
| EChecks (head : string) (checks : Observation) (r : option error)
| EReview (r : option error)
| EVerify (main head : string) (r : option error)
| EForward (head main : string) (r : option error)
| ECleanup (head : string) (r : option error).

Section forward.
Context {W : Type}.

Record ForwardOperations := {
  op_Read : ctx_kind -> string -> W -> res ForwardState * W;
  op_Ancestor : ctx_kind -> string -> string -> W -> res bool * W;
  op_Policy : string -> string -> W -> res string * W;
  op_Rebase : string -> string -> W -> res string * W;
  op_Publish : string -> string -> string -> W -> option error * W;
  op_Checks : string -> W -> (Observation * option error) * W;
  op_Review : W -> option error * W;
  op_Verify : string -> string -> W -> option error * W;
  op_Forward : string -> string -> W -> option error * W;
  op_Cleanup : string -> W -> option error * W }.

(** The context, and the select between its end and the poll timer. *)
Context (ctxErr : W -> option error) (wait : W -> option error * W) (op : ForwardOperations).

Abbreviation st := (W * list event)%type.

(** Run an operation and log it. *)
Definition logged {A} (f : W -> A * W) (event_of : A -> event) (s : st) : A * st :=
  let '(a, w) := f (fst s) in (a, (w, event_of a :: snd s)).

Definition Read (c : ctx_kind) (h : string) := logged (op_Read op c h) (ERead h).
Definition Ancestor (c : ctx_kind) (a b : string) := logged (op_Ancestor op c a b) (EAncestor a b).
Definition PolicyOf (m h : string) := logged (op_Policy op m h) (EPolicy m h).
Definition Rebase (m h : string) := logged (op_Rebase op m h) (ERebase m h).
Definition Publish (old next m : string) := logged (op_Publish op old next m) (EPublish old next m).
Definition Checks_ (h : string) := logged (op_Checks op h) (fun '(c, e) => EChecks h c e).
Definition Review := logged (op_Review op) EReview.
Definition Verify (m h : string) := logged (op_Verify op m h) (EVerify m h).
Definition Forward (h m : string) := logged (op_Forward op h m) (EForward h m).
Definition Cleanup (h : string) := logged (op_Cleanup op h) (ECleanup h).

Inductive flow := Return (result : ForwardResult) (err : option error) | Again (result : ForwardResult).

Definition set_main (r : ForwardResult) m : ForwardResult := {|
  fr_Status := fr_Status r; fr_Head := fr_Head r; fr_Main := m; fr_Reason := fr_Reason r; fr_Checks := fr_Checks r |}.
Definition set_status (r : ForwardResult) s e : ForwardResult := {|
  fr_Status := s; fr_Head := fr_Head r; fr_Main := fr_Main r; fr_Reason := e; fr_Checks := fr_Checks r |}.
Definition set_checks (r : ForwardResult) c : ForwardResult := {|
  fr_Status := fr_Status r; fr_Head := fr_Head r; fr_Main := fr_Main r; fr_Reason := fr_Reason r; fr_Checks := c |}.
Definition set_head (r : ForwardResult) h : ForwardResult := {|
  fr_Status := fr_Status r; fr_Head := h; fr_Main := fr_Main r; fr_Reason := fr_Reason r;
  fr_Checks := empty_observation "" |}.

Definition fail (r : ForwardResult) (e : error) (s : st) : flow * st :=
  (Return (set_status r (fr_Status r) (Some e)) (Some e), s).
Definition again (r : ForwardResult) (s : st) : flow * st := (Again r, s).

(** After a failure: main moved under an unchanged, ready head, so start over. *)
Definition main_moved (r : ForwardResult) (main : string) (fresh : res ForwardState) : bool :=
  match fresh with
  | Ok fresh => String.eqb (fs_Head fresh) (fr_Head r) && Ready fresh && negb (String.eqb (fs_Main fresh) main)
  | Err _ => false
  end.

(** The branch is rewritten onto main: rebase, proof, publication and readback. *)
Definition reconcile (r : ForwardResult) (main : string) (s : st) : flow * st :=
  let '(next, s) := Rebase main (fr_Head r) s in
  match next with
  | Err e =>
    let '(fresh, s) := Read Original (fr_Head r) s in
    if main_moved r main fresh then again r s
    else fail (if errors_is "mechanical rebase conflicts; bounded fresh repair required" e
               then set_status r "repair_required" (fr_Reason r) else r) e s
  | Ok next =>
    if negb (shaRE next) || String.eqb next (fr_Head r) then
      fail r (Sentinel "reconciliation did not produce a new exact candidate") s
    else
    let '(descends, s) := Ancestor Original main next s in
    match descends with
    | Ok true =>
      let '(proof, s) := Verify main next s in
      match proof with
      | Some e =>
        let '(fresh, s) := Read Original (fr_Head r) s in
        if main_moved r main fresh then again r s else fail r e s
      | None =>
        let old := fr_Head r in
        let '(pushErr, s) := Publish old next main s in
        let '(observed, s) := Read Readback next s in
        match observed with
        | Err _ => fail r (Sentinel "branch publication outcome unknown; inspect native refs before retry") s
        | Ok observed =>
          if String.eqb (fs_Head observed) next then again (set_head r next) s
          else if String.eqb (fs_Head observed) old && negb (String.eqb (fs_Main observed) main) && Ready observed
          then again r s
          else if negb (String.eqb (fs_Head observed) old)
          then fail r (Sentinel "branch lease lost to an external edit; preserved remote head") s
          else match pushErr with
               | Some e => fail r e s
               | None => fail r (Sentinel "branch write was not confirmed") s
               end
        end
      end
    | _ => fail r (Sentinel "reconstructed candidate does not descend from current main") s
    end
  end.

(** Main is moved to the head, and read back. *)
Definition advance (r : ForwardResult) (main : string) (s : st) : flow * st :=
  let '(pushErr, s) := Forward (fr_Head r) main s in
  let '(after, s) := Read Readback (fr_Head r) s in
  match after with
  | Err _ => fail r (Sentinel "main update outcome unknown; inspect native refs before retry") s
  | Ok after =>
    let '(contained, s) := Ancestor Readback (fr_Head r) (fs_Main after) s in
    match contained with
    | Err _ => fail r (Sentinel "main update outcome unknown; inspect native refs before retry") s
    | Ok true => again r s
    | Ok false =>
      if negb (String.eqb (fs_Head after) (fr_Head r)) then fail r (Sentinel "candidate changed during integration") s
      else if negb (String.eqb (fs_Main after) main) then again r s
      else match pushErr with
           | Some e => fail r e s
           | None => fail r (Sentinel "main readback does not contain verified candidate") s
           end
    end
  end.

(** The candidate is linear on main and proved: its checks, review and identity. *)
Definition integrate (r : ForwardResult) (main : string) (s : st) : flow * st :=
  let '((checks, e), s) := Checks_ (fr_Head r) s in
  let r := set_checks r checks in
  match e with
  | Some e => fail r e s
  | None =>
  if negb (String.eqb (Head checks) (fr_Head r)) then fail r (Sentinel "CI observation belongs to another head") s
  else match obs_State checks with
  | Failed | Cancelled => fail r (Errorf "current candidate CI is %s; no automatic retry" []) s
  | Missing | Pending =>
    match wait (fst s) with
    | (Some e, w) => fail r e (w, snd s)
    | (None, w) => again r (w, snd s)
    end
  | NoState => fail r (Sentinel "unknown CI outcome") s
  | Succeeded =>
    let '(e, s) := Review s in
    match e with
    | Some e => fail r e s
    | None =>
    let '(fresh, s) := Read Original (fr_Head r) s in
    match fresh with
    | Err e => fail r e s
    | Ok fresh =>
      if negb (Ready fresh) || negb (String.eqb (fs_Head fresh) (fr_Head r)) then
        fail r (Sentinel "candidate changed before integration") s
      else if negb (String.eqb (fs_Main fresh) main) then again r s
      else
      let '((checks, e), s) := Checks_ (fr_Head r) s in
      let r := set_checks r checks in
      match e with
      | Some e => fail r e s
      | None =>
        if negb (String.eqb (Head checks) (fr_Head r)) || negb (bool_decide (obs_State checks = Succeeded)) then
          fail r (Sentinel "final exact-head checks are not successful") s
        else advance r main s
      end
    end end
  end end.

(** The body of the loop. *)
Definition iteration (r : ForwardResult) (s : st) : flow * st :=
  match ctxErr (fst s) with
  | Some e => fail r e s
  | None =>
  let '(state, s) := Read Original (fr_Head r) s in
  match state with
  | Err e => fail r e s
  | Ok state =>
  let r := set_main r (fs_Main state) in
  let '(integrated, s) := Ancestor Original (fr_Head r) (fs_Main state) s in
  match integrated with
  | Err e => fail r e s
  | Ok true =>
    let '(e, s) := Cleanup (fr_Head r) s in
    match e with
    | Some e => fail r e s
    | None => (Return (set_status r "integrated"
        (Some (Sentinel "exact candidate is contained in main; PR/ref cleanup confirmed"))) None, s)
    end
  | Ok false =>
  if negb (Ready state) || Merged state || negb (String.eqb (fs_Head state) (fr_Head r)) then
    fail r (Sentinel "PR identity, readiness or expected head changed") s
  else
  let '(decision, s) := PolicyOf (fs_Main state) (fr_Head r) s in
  match decision with
  | Err e => fail r e s
  | Ok decision =>
  if negb (String.eqb decision "run") then
    (Return (set_status r decision (Some (Sentinel "fixed target no longer eligible for integration"))) None, s)
  else
  let '(linear, s) := Ancestor Original (fs_Main state) (fr_Head r) s in
  match linear with
  | Err e => fail r e s
  | Ok false => reconcile r (fs_Main state) s
  | Ok true =>
    let '(proof, s) := Verify (fs_Main state) (fr_Head r) s in
    match proof with
    | None => integrate r (fs_Main state) s
    | Some err =>
      let '(fresh, s) := Read Original (fr_Head r) s in
      if main_moved r (fs_Main state) fresh then again r s
      else if negb (errors_is "local candidate verification failed" err) then fail r err s
      else reconcile r (fs_Main state) s
    end
  end end end end end.

(** [None]: the fuel is spent. *)
Fixpoint loop (n : nat) (r : ForwardResult) (s : st) : option (ForwardResult * option error) * st :=
  match n with
  | O => (None, s)
  | S n =>
    match iteration r s with
    | (Return result err, s) => (Some (result, err), s)
    | (Again r, s) => loop n r s
    end
  end.

Definition initial_result (expected : string) : ForwardResult := {|
  fr_Status := "blocked"; fr_Head := expected; fr_Main := ""; fr_Reason := None; fr_Checks := empty_observation "" |}.

(** [bounded]: the context has a deadline; [op] is not nil. *)
Definition AutoForward (n : nat) (bounded : bool) (expected : string) (w : W)
    : option (ForwardResult * option error) * st :=
  if negb bounded || negb (shaRE expected) then
    (Some (initial_result expected, Some (Sentinel "exact head and original finite deadline required")), (w, []))
  else loop n (initial_result expected) (w, []).

(** * Theorems *)

(** What was observed right before main is moved to [h] while it is [m], the
    newest first: the candidate was read, is not yet in main, is wanted by the
    policy, is linear on [m] and proved against it; the checks of exactly [h]
    succeeded, the review passed, neither moved, and the checks succeed still. *)
Definition forward_evidence (h m : string) (older : list event) : Prop :=
  exists c2 fresh c1 state rest,
    older = EChecks h c2 None :: ERead h (Ok fresh) :: EReview None :: EChecks h c1 None ::
            EVerify m h None :: EAncestor m h (Ok true) :: EPolicy m h (Ok "run") ::
            EAncestor h m (Ok false) :: ERead h (Ok state) :: rest /\
    Head c1 = h /\ obs_State c1 = Succeeded /\ Head c2 = h /\ obs_State c2 = Succeeded /\
    fs_Head state = h /\ fs_Main state = m /\ Ready state = true /\ Merged state = false /\
    fs_Head fresh = h /\ fs_Main fresh = m /\ Ready fresh = true.

(** What was done right before the branch is rewritten from [old] to [next]. *)
Definition publish_evidence (old next m : string) (older : list event) : Prop :=
  exists rest, older = EVerify m next None :: EAncestor m next (Ok true) :: ERebase m old (Ok next) :: rest /\
    shaRE next = true /\ next <> old.

(** Every effect of the log has its evidence. *)
Fixpoint guarded (log : list event) : Prop :=
  match log with
  | [] => True
  | ev :: older =>
    match ev with
    | EForward h m _ => forward_evidence h m older
    | EPublish old next m _ => publish_evidence old next m older
    | ECleanup h _ => exists state rest, older = EAncestor h (fs_Main state) (Ok true) :: ERead h (Ok state) :: rest
    | _ => True
    end /\ guarded older
  end.

(** A head the loop was started with or published itself. *)
Definition own (expected : string) (log : list event) (h : string) : Prop :=
  h = expected \/ exists old m e, EPublish old h m e ∈ log.

Definition flow_result (f : flow) : ForwardResult := match f with Return r _ | Again r => r end.

(** A run ends without an error only on a main that contains the head, cleaned
    up, or on the word of the policy. *)
Definition honest (f : flow) (log : list event) : Prop :=
  match f with
  | Return r None =>
    (fr_Status r = "integrated" /\ exists state rest, fr_Main r = fs_Main state /\
       log = ECleanup (fr_Head r) None :: EAncestor (fr_Head r) (fs_Main state) (Ok true) :: ERead (fr_Head r) (Ok state) :: rest) \/
    (fr_Status r <> "run" /\ exists rest, log = EPolicy (fr_Main r) (fr_Head r) (Ok (fr_Status r)) :: rest)
  | _ => True
  end.

Record step_ok (expected : string) (f : flow) (log log' : list event) : Prop := {
  ok_guarded : guarded log';
  ok_own : own expected log' (fr_Head (flow_result f));
  ok_honest : honest f log';
  ok_grows : log `suffix_of` log' }.

Lemma own_cons expected log ev h : own expected log h -> own expected (ev :: log) h.
Proof. intros [?|(old & m & e & Hin)]; [by left|]. right. exists old, m, e. by right. Qed.

(** Run the calls of a hypothesis, naming their answers and worlds. *)
Ltac run_calls H :=
  unfold Read, Ancestor, PolicyOf, Rebase, Publish, Checks_, Review, Verify, Forward, Cleanup, logged, again, fail in H;
  simpl in H; repeat (case_match; simplify_eq/=).

Ltac close_own := repeat first [assumption | apply own_cons].
Ltac close_suffix := repeat first [reflexivity | apply suffix_cons_r].
Ltac close_guarded := simpl; repeat match goal with |- _ /\ _ => split | |- True => exact I end; try tauto.

(** Close the log obligations of an executed path. *)
Ltac close_path :=
  solve [constructor; simpl; [close_guarded | close_own | try done | close_suffix]].

Lemma advance_ok expected r main w log f w' log' :
  guarded log -> own expected log (fr_Head r) -> forward_evidence (fr_Head r) main log ->
  advance r main (w, log) = (f, (w', log')) -> step_ok expected f log log'.
Proof.
  intros Hg Ho He H. unfold advance in H. run_calls H; close_path.
Qed.

Lemma step_ok_weaken expected f log log1 log' : log `suffix_of` log1 -> step_ok expected f log1 log' -> step_ok expected f log log'.
Proof. intros Hs []. constructor; try done. by etrans. Qed.

(** What the loop knows when it turns to the checks. *)
Definition linear_evidence (h m : string) (log : list event) : Prop :=
  exists state rest,
    log = EVerify m h None :: EAncestor m h (Ok true) :: EPolicy m h (Ok "run") ::
          EAncestor h m (Ok false) :: ERead h (Ok state) :: rest /\
    fs_Head state = h /\ fs_Main state = m /\ Ready state = true /\ Merged state = false.

Lemma integrate_ok expected r main w log f w' log' :
  guarded log -> own expected log (fr_Head r) -> linear_evidence (fr_Head r) main log ->
  integrate r main (w, log) = (f, (w', log')) -> step_ok expected f log log'.
Proof.
  intros Hg Ho (state & rest & Hlog & Hs) H. unfold integrate in H. run_calls H; try close_path.
  reflect_bools; rewrite ?String.eqb_eq in *; simplify_eq/=.
  eapply step_ok_weaken; [|eapply (advance_ok expected); [..|eassumption]]; simpl; [close_suffix | close_guarded | close_own |].
  repeat eexists; tauto.
Qed.

Lemma reconcile_ok expected r main w log f w' log' :
  guarded log -> own expected log (fr_Head r) ->
  reconcile r main (w, log) = (f, (w', log')) -> step_ok expected f log log'.
Proof.
  intros Hg Ho H. unfold reconcile in H. run_calls H; try close_path.
  all: reflect_bools; rewrite ?String.eqb_neq in *.
  all: match goal with |- step_ok _ _ _ (_ :: EPublish ?old ?next ?m _ :: ?older) =>
         assert (publish_evidence old next m older) by (eexists; split_and!; done) end.
  all: try close_path.
  constructor; simpl; [close_guarded | | done | close_suffix].
  right. eexists _, _, _. apply list_elem_of_further, list_elem_of_here.
Qed.

Lemma iteration_ok expected r w log f w' log' :
  guarded log -> own expected log (fr_Head r) ->
  iteration r (w, log) = (f, (w', log')) -> step_ok expected f log log'.
Proof.
  intros Hg Ho H. unfold iteration in H. run_calls H; try close_path.
  all: reflect_bools; rewrite ?String.eqb_neq, ?String.eqb_eq in *; try subst.
  1: constructor; simpl; [close_guarded; by eexists _, _ | close_own | done | close_suffix].
  1: constructor; simpl; [close_guarded; by eexists _, _ | close_own | left; split; [done|]; by eexists _, _ | close_suffix].
  1: constructor; simpl; [close_guarded | close_own | right; split; [done|]; by eexists | close_suffix].
  all: first [ eapply step_ok_weaken; [|eapply (reconcile_ok expected); [..|eassumption]]; simpl;
                 [close_suffix | close_guarded | close_own]
             | eapply step_ok_weaken; [|eapply (integrate_ok expected); [..|eassumption]]; simpl;
                 [close_suffix | close_guarded | close_own | by eexists _, _] ].
Qed.

Lemma loop_ok expected n : forall r w log out w' log',
  guarded log -> own expected log (fr_Head r) ->
  loop n r (w, log) = (out, (w', log')) ->
  guarded log' /\ match out with
                  | Some (result, err) => own expected log' (fr_Head result) /\ honest (Return result err) log'
                  | None => True
                  end.
Proof.
  induction n as [|n IH]; intros r w log out w' log' Hg Ho H; simpl in H; [by simplify_eq|].
  destruct (iteration r (w, log)) as [f [w1 log1]] eqn:E.
  apply (iteration_ok expected) in E as [Hg1 Ho1 Hh _]; [|done..]. destruct f as [result err|r1].
  - injection H as <- <- <-. done.
  - by eapply IH.
Qed.

(** C12: whatever the operations answer, main is only ever moved to a head right
    after that head was read, wanted by the policy, linear on and proved
    against that main, accepted by its own checks before and after a review,
    and reread unmoved; the branch is only rewritten to a fresh exact candidate
    rebased on and proved against main; the reported head is the expected one
    or one this run published itself; and success is reported only when main
    was observed to contain the head and cleanup succeeded, or as the policy's
    own decision. *)
Theorem AutoForward_guarded (n : nat) (bounded : bool) (expected : string) (w : W) :
  match AutoForward n bounded expected w with
  | (out, (_, log)) =>
    guarded log /\
    match out with
    | Some (result, err) => own expected log (fr_Head result) /\ honest (Return result err) log
    | None => True
    end
  end.
Proof.
  unfold AutoForward. destruct (_ || _); [by simpl; repeat split; left|].
  destruct (loop _ _ _) as [out [w' log]] eqn:E. apply (loop_ok expected) in E; [done | done | by left].
Qed.

(** ** What every call carries *)

Section carried.
Context (R : st -> st -> Prop) `{!PreOrder R}.

(** Every call, and the wait, leads along [R]. *)
Record carried : Prop := {
  carried_wait s : R s ((wait (fst s)).2, snd s);
  carried_read c h s : R s (Read c h s).2;
  carried_ancestor c a b s : R s (Ancestor c a b s).2;
  carried_policy m h s : R s (PolicyOf m h s).2;
  carried_rebase m h s : R s (Rebase m h s).2;
  carried_publish o n m s : R s (Publish o n m s).2;
  carried_checks h s : R s (Checks_ h s).2;
  carried_review s : R s (Review s).2;
  carried_verify m h s : R s (Verify m h s).2;
  carried_forward h m s : R s (Forward h m s).2;
  carried_cleanup h s : R s (Cleanup h s).2 }.
Context (Hc : carried).

Ltac carry_call call lemma := let E := fresh "Q" in pose proof lemma as E; destruct call as [? ?]; cbn [fst snd] in E.
Ltac carry_calls :=
  unfold again, fail;
  repeat (lazymatch goal with |- R _ (snd (match ?call with _ => _ end)) => lazymatch call with
  | Read ?c ?h ?s => carry_call (Read c h s) (carried_read Hc c h s)
  | Ancestor ?c ?a ?b ?s => carry_call (Ancestor c a b s) (carried_ancestor Hc c a b s)
  | PolicyOf ?m ?h ?s => carry_call (PolicyOf m h s) (carried_policy Hc m h s)
  | Rebase ?m ?h ?s => carry_call (Rebase m h s) (carried_rebase Hc m h s)
  | Publish ?o ?n ?m ?s => carry_call (Publish o n m s) (carried_publish Hc o n m s)
  | Checks_ ?h ?s => carry_call (Checks_ h s) (carried_checks Hc h s)
  | Review ?s => carry_call (Review s) (carried_review Hc s)
  | Verify ?m ?h ?s => carry_call (Verify m h s) (carried_verify Hc m h s)
  | Forward ?h ?m ?s => carry_call (Forward h m s) (carried_forward Hc h m s)
  | Cleanup ?h ?s => carry_call (Cleanup h s) (carried_cleanup Hc h s)
  | wait (fst ?s) => carry_call (wait (fst s)) (carried_wait Hc s)
  | _ => destruct call
  end end; cbn [fst snd]).
Ltac carry := carry_calls; repeat first [reflexivity | eassumption | etransitivity; [eassumption|]].

Lemma advance_carried r m s : R s (advance r m s).2.
Proof. unfold advance. carry. Qed.
Lemma reconcile_carried r m s : R s (reconcile r m s).2.
Proof. unfold reconcile. carry. Qed.
Lemma integrate_carried r m s : R s (integrate r m s).2.
Proof. unfold integrate. carry; apply advance_carried. Qed.
Lemma iteration_carried r s : R s (iteration r s).2.
Proof. unfold iteration. carry; first [apply reconcile_carried | apply integrate_carried]. Qed.
Lemma loop_carried n r s : R s (loop n r s).2.
Proof.
  revert r s. induction n as [|n IH]; intros r s; simpl; [reflexivity|]. pose proof (iteration_carried r s) as Q.
  destruct (iteration r s) as [[result err|r'] s1]; [done|]. etransitivity; [exact Q | apply IH].
Qed.
End carried.

(** ** Termination *)

Section deadline.
Context (clock : W -> nat) (deadline : nat).

Definition steady {A} (f : W -> A * W) : Prop := forall w, clock w <= clock (f w).2.

(** Time passes: every read under the original context takes some, nothing
    turns it back, and the context has ended at the deadline. *)
Record paced : Prop := {
  paced_ctx w : deadline <= clock w -> ctxErr w <> None;
  paced_progress h w : clock w < clock (op_Read op Original h w).2;
  paced_wait : steady wait;
  paced_read c h : steady (op_Read op c h);
  paced_ancestor c a b : steady (op_Ancestor op c a b);
  paced_policy m h : steady (op_Policy op m h);
  paced_rebase m h : steady (op_Rebase op m h);
  paced_publish o n m : steady (op_Publish op o n m);
  paced_checks h : steady (op_Checks op h);
  paced_review : steady (op_Review op);
  paced_verify m h : steady (op_Verify op m h);
  paced_forward h m : steady (op_Forward op h m);
  paced_cleanup h : steady (op_Cleanup op h) }.
Context (Hp : paced).

Definition ticks (s s' : st) : Prop := clock (fst s) <= clock (fst s').

Lemma logged_ticks {A} (f : W -> A * W) ev s : steady f -> ticks s (logged f ev s).2.
Proof. intros H. unfold logged, ticks. specialize (H s.1). by destruct (f s.1). Qed.

(** Run every call of the goal, keeping that time passed. *)
Ltac tick_calls :=
  unfold Read, Ancestor, PolicyOf, Rebase, Publish, Checks_, Review, Verify, Forward, Cleanup, again, fail;
  repeat (match goal with
  | |- context [logged ?f ?ev ?s] =>
    let T := fresh "T" in
    assert (ticks s (logged f ev s).2) as T by (apply logged_ticks; first
      [ apply (paced_read Hp) | apply (paced_ancestor Hp) | apply (paced_policy Hp) | apply (paced_rebase Hp)
      | apply (paced_publish Hp) | apply (paced_checks Hp) | apply (paced_review Hp) | apply (paced_verify Hp)
      | apply (paced_forward Hp) | apply (paced_cleanup Hp) ]);
    destruct (logged f ev s) as [? ?]
  | |- context [wait ?w] =>
    let T := fresh "T" in pose proof (paced_wait Hp w) as T; destruct (wait w) as [? ?]
  | |- context [match ?x with _ => _ end] => destruct x
  end; simpl in *).

#[local] Instance ticks_order : PreOrder ticks.
Proof. split; unfold ticks; [intros s | intros s1 s2 s3]; lia. Qed.
Lemma ticks_carried : carried ticks.
Proof. destruct Hp. constructor; intros; first [by apply logged_ticks; auto | unfold ticks; cbn; auto]. Qed.

Lemma reconcile_ticks r m s : ticks s (reconcile r m s).2.
Proof. exact (reconcile_carried ticks ticks_carried r m s). Qed.
Lemma integrate_ticks r m s : ticks s (integrate r m s).2.
Proof. exact (integrate_carried ticks ticks_carried r m s). Qed.

Lemma iteration_progress r s r' s' :
  iteration r s = (Again r', s') -> clock s.1 < deadline /\ clock s.1 < clock s'.1.
Proof.
  unfold iteration. destruct (ctxErr s.1) eqn:Ex; [done|]. intros H. split.
  { destruct (Nat.lt_ge_cases (clock s.1) deadline) as [|Hge]; [done|]. by apply (paced_ctx Hp) in Hge. }
  assert (clock s.1 < clock (Read Original (fr_Head r) s).2.1) as T0.
  { unfold Read, logged. pose proof (paced_progress Hp (fr_Head r) s.1). by destruct (op_Read _ _ _ _). }
  destruct (Read Original (fr_Head r) s) as [state s1]. simpl in T0. eapply Nat.lt_le_trans; [exact T0|].
  replace s' with (Again r', s').2 by done. rewrite <- H. clear H T0.
  tick_calls; try (unfold ticks in *; simpl in *; lia).
  all: match goal with
    | |- context [integrate ?r ?m ?s] => pose proof (integrate_ticks r m s)
    | |- context [reconcile ?r ?m ?s] => pose proof (reconcile_ticks r m s) end.
  all: unfold ticks in *; simpl in *; lia.
Qed.

Lemma loop_terminates n : forall r s, deadline <= n + clock s.1 -> is_Some (loop (S n) r s).1.
Proof.
  induction n as [|n IH]; intros r s Hn; simpl; destruct (iteration r s) as [[result err|r1] s1] eqn:E; try by eexists.
  - apply iteration_progress in E. lia.
  - apply iteration_progress in E. apply IH. lia.
Qed.

(** The loop ends within its original deadline: one round more than the time
    left is always enough, whatever the operations answer. *)
Theorem AutoForward_terminates (bounded : bool) (expected : string) (w : W) :
  is_Some (AutoForward (S (deadline - clock w)) bounded expected w).1.
Proof.
  unfold AutoForward. destruct (_ || _); [by eexists|]. apply loop_terminates. simpl. lia.
Qed.
End deadline.
End forward.

(** * A small repository *)

(** The world is its clock; the candidate is integrated once it is read twice. *)
Definition sample_tip : string := "0123456789012345678901234567890123456789".
Definition sample_main : string := "aaaaaaaaaaaaaaaaaaaaaaaaaaaaaaaaaaaaaaaa".

Definition sample_observation (h : string) : Observation :=
  {| Head := h; obs_State := Succeeded; obs_Checks := []; WorkflowRunID := 1; WorkflowAttempt := 1; WorkflowState := Succeeded |}.

(** Main contains the candidate from instant 9 on, when it was forwarded. *)
Definition sample_operations : ForwardOperations (W := nat) := {|
  op_Read _ h w := (Ok {| fs_Head := h; fs_Main := sample_main; fs_Branch := "b"; Ready := true; Merged := false |}, S w);
  op_Ancestor _ a _ w := (Ok (negb (String.eqb a sample_tip) || (9 <=? w)%nat), S w);
  op_Policy _ _ w := (Ok "run", S w);
  op_Rebase _ _ w := (Err ErrForwardConflict, S w);
  op_Publish _ _ _ w := (None, S w);
  op_Checks h w := ((sample_observation h, None), S w);
  op_Review w := (None, S w);
  op_Verify _ _ w := (None, S w);
  op_Forward _ _ w := (None, S w);
  op_Cleanup _ w := (None, S w) |}.

Definition sample_ctxErr (w : nat) : option error := if (30 <=? w)%nat then Some (Sentinel "context deadline exceeded") else None.
Definition sample_wait (w : nat) : option error * nat := (None, S w).

Lemma sample_paced : paced sample_ctxErr sample_wait sample_operations (fun w => w) 30.
Proof.
  constructor; try (intros; try intros w; simpl; lia).
  intros w Hw. unfold sample_ctxErr. by rewrite (proj2 (Nat.leb_le _ _) Hw).
Qed.

Lemma AutoForward_terminates_witness :
  (exists result, (AutoForward sample_ctxErr sample_wait sample_operations 31 true sample_tip 0).1 = Some (result, None) /\
     fr_Status result = "integrated") /\
  is_Some (AutoForward sample_ctxErr sample_wait sample_operations 31 true sample_tip 0).1.
Proof.
  split; [eexists; split; [vm_compute; reflexivity | reflexivity]|].
  exact (AutoForward_terminates sample_ctxErr sample_wait sample_operations (fun w => w) 30 sample_paced true sample_tip 0).
Defined.
