(* ===== verification/Session.v ===== *)
(** A goroutine of the client with its surroundings: the operations of [Client]
    run in a state that also holds a world [W] (the application's callbacks, the
    peer, the other goroutines) and a log of what the goroutine did, newest
    first.

    An operation of the surroundings may change the client in any way: it is
    where other goroutines run.  [None] is a Go panic. *)

From S2P Require Import Prelude GoStrings Json JsonLex Envelope Retention Pending Lifecycle Protocol Run Client.

Local Open Scope string_scope.
Local Open Scope list_scope.

Section session.
Context {PT : ProtocolTypes} {Response W E : Type}.
Abbreviation client := (client (Response := Response)).
Abbreviation M := (M (Response := Response)).

Record session := { s_client : client; s_world : W; s_log : list E }.

Definition G (A : Type) : Type := session -> option (A * session).
#[global] Instance G_ret : MRet G := fun A a s => Some (a, s).
#[global] Instance G_bind : MBind G := fun A B f m s =>
  match m s with Some (a, s') => f a s' | None => None end.

(** An operation of the client. *)
Definition lift {A} (m : M A) : G A := fun s =>
  match m (s_client s) with
  | Some (a, c) => Some (a, {| s_client := c; s_world := s_world s; s_log := s_log s |})
  | None => None
  end.

(** An operation of the surroundings. *)
Definition surround {A} (f : client -> W -> A * client * W) : G A := fun s =>
  let '(a, c, w) := f (s_client s) (s_world s) in
  Some (a, {| s_client := c; s_world := w; s_log := s_log s |}).

Definition emit (e : E) : G unit := fun s =>
  Some (tt, {| s_client := s_client s; s_world := s_world s; s_log := e :: s_log s |}).

Definition look : G client := fun s => Some (s_client s, s).

Lemma G_bind_inv {A B} (m : G A) (f : A -> G B) s b s' :
  (m ≫= f) s = Some (b, s') -> exists a s1, m s = Some (a, s1) /\ f a s1 = Some (b, s').
Proof. unfold mbind, G_bind. destruct (m s) as [[a s1]|]; [eauto | done]. Qed.

Lemma lift_inv {A} (m : M A) s a s' :
  lift m s = Some (a, s') ->
  m (s_client s) = Some (a, s_client s') /\ s_world s' = s_world s /\ s_log s' = s_log s.
Proof. unfold lift. destruct (m (s_client s)) as [[x c]|]; [|done]. by intros [= <- <-]. Qed.

Lemma surround_inv {A} (f : client -> W -> A * client * W) s a s' :
  surround f s = Some (a, s') ->
  f (s_client s) (s_world s) = (a, s_client s', s_world s') /\ s_log s' = s_log s.
Proof. unfold surround. destruct (f _ _) as [[x c] w]. by intros [= <- <-]. Qed.
End session.
Arguments session {PT} Response W E.
Arguments G {PT} Response W E A.

(** Undo one bind, one client operation or one step of the surroundings. *)
Ltac sbind H :=
  let a := fresh "a" in let s := fresh "s" in let H1 := fresh "H" in
  apply G_bind_inv in H as (a & s & H1 & H).

(** * Runs only advance *)

Section advances.
Context {PT : ProtocolTypes} {Response : Type}.
Implicit Types (c : client (Response := Response)).

(** Every run is still there and only took steps of [Run]. *)
Definition advances c c' : Prop :=
  forall r s, runs c !! r = Some s -> exists s', runs c' !! r = Some s' /\ rtc run_step s s'.

#[export] Instance advances_preorder : PreOrder advances.
Proof.
  split.
  - intros c r s Hs. exists s. done.
  - intros c1 c2 c3 H1 H2 r s Hs. destruct (H1 r s Hs) as (s1 & Hs1 & Hst).
    destruct (H2 r s1 Hs1) as (s2 & Hs2 & Hst2). exists s2. split; [done|]. by etrans.
Qed.

Definition advancing {A} (m : M (Response := Response) A) : Prop :=
  forall c a c', m c = Some (a, c') -> advances c c'.

Lemma advances_runs c c' : runs c' = runs c -> advances c c'.
Proof. intros Hr r s Hs. exists s. by rewrite Hr. Qed.

Lemma advances_insert c c' r s s' :
  runs c !! r = Some s -> runs c' = <[r := s']> (runs c) -> rtc run_step s s' -> advances c c'.
Proof.
  intros Hs Hr Hst r' t Ht. rewrite Hr. destruct (decide (r' = r)) as [->|Hn].
  - rewrite lookup_insert_eq. exists s'. split; [done|]. rewrite Hs in Ht. by injection Ht as <-.
  - rewrite lookup_insert_ne by done. exists t. done.
Qed.

Lemma advancing_ret {A} (a : A) : advancing (mret a).
Proof. intros c x c' [= _ <-]. done. Qed.

Lemma advancing_bind {A B} (m : M A) (f : A -> M B) :
  advancing m -> (forall a, advancing (f a)) -> advancing (m ≫= f).
Proof.
  intros Hm Hf c b c' H. apply M_bind_inv in H as (a & c1 & H1 & H2).
  etrans; [by eapply Hm | by eapply Hf].
Qed.

Lemma advancing_get : advancing get.
Proof. intros c x c' [= _ <-]. done. Qed.

Lemma advancing_for_each {A} (l : list A) (f : A -> M unit) : (forall x, advancing (f x)) -> advancing (for_each l f).
Proof.
  intros Hf. induction l as [|x l IH]; [apply advancing_ret|]. simpl. by apply advancing_bind.
Qed.

Lemma advancing_set_life f : advancing (set_life f).
Proof. intros c x c' [= _ <-]. by apply advances_runs. Qed.
Lemma advancing_set_tables f : advancing (set_tables f).
Proof. intros c x c' [= _ <-]. by apply advances_runs. Qed.
Lemma advancing_set_queue f : advancing (set_queue f).
Proof. intros c x c' [= _ <-]. by apply advances_runs. Qed.
Lemma advancing_set_calls f : advancing (set_calls f).
Proof. intros c x c' [= _ <-]. by apply advances_runs. Qed.
Lemma advancing_set_evidence e x : advancing (set_evidence e x).
Proof. intros c y c' [= _ <-]. by apply advances_runs. Qed.
Lemma advancing_new_evidence x : advancing (new_evidence x).
Proof. intros c y c' [= _ <-]. by apply advances_runs. Qed.
Lemma advancing_set_retention f : advancing (set_retention f).
Proof.
  intros c y c' H. unfold set_retention in H. destruct (f _); [|done]. injection H as _ <-. by apply advances_runs.
Qed.
Lemma advancing_reserve count bytes : advancing (reserve_m count bytes).
Proof. intros c y c' H%reserve_runs. by apply advances_runs. Qed.

Lemma advancing_set_turn r turn : advancing (set_runs (alter (setTurn turn) r)).
Proof.
  intros c y c' [= _ <-] r' s Hs. simpl. destruct (decide (r' = r)) as [->|Hn].
  - rewrite lookup_alter_eq, Hs. eexists. split; [done|]. apply rtc_once, run_turn.
  - rewrite lookup_alter_ne by done. exists s. done.
Qed.

Lemma advancing_accept r n l : advancing (accept_run r n l).
Proof.
  intros c x c' H. unfold accept_run in H. destruct (runs c !! r) as [s|] eqn:Es; [|by injection H as _ <-].
  destruct (acceptRetainedBeforeTerminalCompletion _ _ _ _) as [[[y s'] b]|] eqn:Ea; [|done].
  injection H as _ <-. eapply (advances_insert _ _ r s s'); [done | done|]. apply rtc_once. by eapply run_accept.
Qed.

Lemma advancing_diagnostic r ref l : advancing (add_diagnostic_run r ref l).
Proof.
  intros c x c' H. unfold add_diagnostic_run in H. destruct (runs c !! r) as [s|] eqn:Es; [|by injection H as _ <-].
  destruct (addDiagnosticRetained _ _ _ _) as [[[y s'] b]|] eqn:Ea; [|done].
  injection H as _ <-. eapply (advances_insert _ _ r s s'); [done | done|]. apply rtc_once. by eapply run_diagnostic.
Qed.
End advances.

Create HintDb advancing.
#[export] Hint Resolve advancing_ret advancing_bind advancing_get advancing_for_each advancing_set_life
  advancing_set_tables advancing_set_queue advancing_set_calls advancing_set_evidence advancing_new_evidence
  advancing_set_retention advancing_reserve advancing_set_turn advancing_accept advancing_diagnostic : advancing.
#[export] Hint Extern 1 (advancing skip) => apply advancing_ret : advancing.
#[export] Hint Extern 1 (advancing (release_m _)) => apply advancing_set_retention : advancing.
#[export] Hint Extern 1 (advancing (retain_m _)) => apply advancing_set_retention : advancing.

(** Prove that a handler advances: split its binds and its tests. *)
Ltac advance :=
  repeat first
    [ solve [auto 2 with advancing nocore]
    | apply advancing_bind; [|intros]
    | apply advancing_for_each; intros
    | case_match ].

Section handlers.
Context {PT : ProtocolTypes} {Response : Type}.
Implicit Types (c : client (Response := Response)).

Lemma advancing_finish r e : advancing (Response := Response) (finish r e).
Proof.
  intros c x c' H. apply M_bind_inv in H as (c0 & ? & [= <- <-] & H).
  destruct (runs c !! r) as [s|] eqn:Es; [|by injection H as _ <-].
  destruct (finishState (run_cause (c_life c)) e s) as [ch s1] eqn:Ef.
  apply M_bind_inv in H as (? & c1 & [= _ <-] & H).
  set (c1 := mk_client c _ _ _ _ _ _ _ _) in H.
  assert (advances c c1) as H1.
  { eapply (advances_insert _ _ r s s1); [done | done|]. apply rtc_once.
    replace s1 with (finishState (run_cause (c_life c)) e s).2 by by rewrite Ef. apply run_finish. }
  etrans; [exact H1|]. destruct ch; [|by injection H as _ <-].
  revert H. assert (advancing (Response := Response) (unregisterExactRun r)) as Hu by (unfold unregisterExactRun; advance).
  apply Hu.
Qed.
End handlers.
#[export] Hint Resolve advancing_finish : advancing.

Section failures.
Context {PT : ProtocolTypes} {Response : Type}.

Lemma advancing_resolveEvidence n r : advancing (Response := Response) (resolveEvidence n r).
Proof. unfold resolveEvidence. advance. Qed.
Hint Resolve advancing_resolveEvidence : advancing.

Lemma advancing_resolvePending n : advancing (Response := Response) (resolvePendingEvidence n).
Proof. unfold resolvePendingEvidence. advance. Qed.
Hint Resolve advancing_resolvePending : advancing.

Lemma advancing_completeEvidence n : advancing (Response := Response) (completeEvidenceTerminal n).
Proof. unfold completeEvidenceTerminal. advance. Qed.

Lemma advancing_failAll e : advancing (Response := Response) (failAll e).
Proof. unfold failAll. advance. Qed.
Hint Resolve advancing_failAll : advancing.

Lemma advancing_failClient e : advancing (Response := Response) (failClient e).
Proof. unfold failClient. advance. Qed.

Lemma advancing_failDelivery e : advancing (Response := Response) (failExactNotificationDelivery e).
Proof. apply advancing_failClient. Qed.

Lemma advancing_releaseAttachment key : advancing (Response := Response) (releaseAttachmentLocked key).
Proof. unfold releaseAttachmentLocked. advance. Qed.
End failures.
#[export] Hint Resolve advancing_resolveEvidence advancing_resolvePending advancing_completeEvidence
  advancing_failAll advancing_failClient advancing_failDelivery advancing_releaseAttachment : advancing.

Section attaching.
Context {PT : ProtocolTypes} {Response : Type}.

Lemma advancing_accept_facts r facts : advancing (Response := Response) (accept_facts r facts).
Proof. induction facts as [|[n l] facts IH]; simpl; advance. Qed.
Hint Resolve advancing_accept_facts : advancing.

Lemma advancing_register r : advancing (Response := Response) (registerAttachingExactStream r).
Proof. unfold registerAttachingExactStream. advance. Qed.

Lemma advancing_finishReplay r : advancing (Response := Response) (finishExactPendingReplay r).
Proof. unfold finishExactPendingReplay. advance. Qed.
Hint Resolve advancing_finishReplay : advancing.

Lemma advancing_replay r saved : advancing (Response := Response) (replay_events r saved).
Proof. induction saved as [|n saved IH]; simpl; advance. Qed.
Hint Resolve advancing_replay : advancing.

Lemma advancing_replay_diagnostics r refs : advancing (Response := Response) (replay_diagnostics r refs).
Proof. induction refs as [|[d l] refs IH]; simpl; advance. Qed.
Hint Resolve advancing_replay_diagnostics : advancing.

Lemma advancing_attach r turn : advancing (Response := Response) (attachExactStreamForTurn r turn).
Proof. unfold attachExactStreamForTurn. advance. Qed.

Lemma advancing_resolve_all r saved : advancing (Response := Response) (resolve_all r saved).
Proof. induction saved as [|n saved IH]; simpl; advance. Qed.
Hint Resolve advancing_resolve_all : advancing.

Lemma advancing_finishAttaching r e : advancing (Response := Response) (finishAttachingExactStream r e).
Proof. unfold finishAttachingExactStream. advance. Qed.
End attaching.
#[export] Hint Resolve advancing_register advancing_attach advancing_finishAttaching : advancing.

(** * Runs stay routed until they are over *)

Section kept.
Context {PT : ProtocolTypes} {Response : Type}.
Implicit Types (c : client (Response := Response)) (r : nat).

Definition over r c : Prop := exists s, runs c !! r = Some s /\ terminal s = true.

(** The run has the turn [id] and is registered under it. *)
Definition routed r (id : string) c : Prop :=
  r ∈ default [] (exactStreams (c_tables c) !! id) /\ exists s, runs c !! r = Some s /\ run_turnID s = id.

(** So the notifications of that turn which do not name another thread reach it. *)
Lemma routed_targeted r id c (i : notificationIdentity) :
  routed r id c -> turnID i = id -> matchesRun i (run_thread c r) id = true -> r ∈ turn_targets c i.
Proof.
  intros (Hin & s & Hs & Ht) <- Hm. apply elem_of_app. left. apply list_elem_of_filter. split; [|done].
  unfold turnIDSnapshot. by rewrite Hs, Ht.
Qed.

Lemma over_advances r c c' : advances c c' -> over r c -> over r c'.
Proof.
  intros Ha (s & Hs & Ht). destruct (Ha r s Hs) as (s' & Hs' & Hst). exists s'. split; [done|].
  by eapply run_over_stays.
Qed.

Definition keeps r c c' : Prop := advances c c' /\ (forall id, routed r id c -> routed r id c' \/ over r c').

(** The runs of [c] are in [c'] with the turns they had. *)
Definition same_turns c c' : Prop :=
  forall r s, runs c !! r = Some s -> exists s', runs c' !! r = Some s' /\ run_turnID s' = run_turnID s.

Lemma same_turns_runs c c' : runs c' = runs c -> same_turns c c'.
Proof. intros Hr r s Hs. exists s. by rewrite Hr. Qed.
Lemma same_turns_insert c c' r s s' :
  runs c !! r = Some s -> runs c' = <[r := s']> (runs c) -> run_turnID s' = run_turnID s -> same_turns c c'.
Proof.
  intros Hs Hr Hst r' t Ht. rewrite Hr. destruct (decide (r' = r)) as [->|Hn].
  - rewrite lookup_insert_eq. exists s'. split; [done|]. rewrite Hs in Ht. by injection Ht as <-.
  - rewrite lookup_insert_ne by done. exists t. done.
Qed.
Lemma routed_same r id c c' :
  same_turns c c' -> r ∈ default [] (exactStreams (c_tables c') !! id) -> routed r id c -> routed r id c'.
Proof. intros Hst Hin (_ & s & Hs & Ht). destruct (Hst r s Hs) as (s' & Hs' & Ht'). split; [done|]. exists s'. by rewrite Ht'. Qed.

Lemma keeps_trans r c1 c2 c3 : keeps r c1 c2 -> keeps r c2 c3 -> keeps r c1 c3.
Proof.
  intros [A1 K1] [A2 K2]. split; [by etrans|]. intros id Hr.
  destruct (K1 id Hr) as [H|H]; [by apply K2 | right; by eapply over_advances].
Qed.

Definition keeping {A} (m : M (Response := Response) A) : Prop :=
  forall r c a c', m c = Some (a, c') -> keeps r c c'.

(** An operation that leaves the routing table and the turns. *)
Lemma keeping_turns {A} (m : M A) :
  advancing m ->
  (forall c a c', m c = Some (a, c') -> exactStreams (c_tables c') = exactStreams (c_tables c) /\ same_turns c c') -> keeping m.
Proof.
  intros Ha Hs r c a c' H. split; [by eapply Ha|]. intros id Hr. left. destruct (Hs _ _ _ H) as [Ht Hst].
  apply (routed_same _ _ _ _ Hst); [rewrite Ht; apply Hr | done].
Qed.

Lemma keeping_same {A} (m : M A) :
  (forall c a c', m c = Some (a, c') -> exactStreams (c_tables c') = exactStreams (c_tables c) /\ runs c' = runs c) -> keeping m.
Proof.
  intros Hs. apply keeping_turns; intros c a c' H; destruct (Hs _ _ _ H) as [Ht Hr]; [by apply advances_runs|].
  split; [done | by apply same_turns_runs].
Qed.

Lemma keeping_ret {A} (a : A) : keeping (mret a).
Proof. apply keeping_same. by intros c x c' [= _ <-]. Qed.
Lemma keeping_get : keeping get.
Proof. apply keeping_same. by intros c x c' [= _ <-]. Qed.
Lemma keeping_bind {A B} (m : M A) (f : A -> M B) : keeping m -> (forall a, keeping (f a)) -> keeping (m ≫= f).
Proof.
  intros Hm Hf r c b c' H. apply M_bind_inv in H as (a & c1 & H1 & H2).
  eapply keeps_trans; [by eapply Hm | by eapply Hf].
Qed.
Lemma keeping_for_each {A} (l : list A) (f : A -> M unit) : (forall x, keeping (f x)) -> keeping (for_each l f).
Proof. intros Hf. induction l as [|x l IH]; [apply keeping_ret|]. simpl. by apply keeping_bind. Qed.
Lemma keeping_set_life f : keeping (set_life f).
Proof. apply keeping_same. by intros c x c' [= _ <-]. Qed.
Lemma keeping_set_calls f : keeping (set_calls f).
Proof. apply keeping_same. by intros c x c' [= _ <-]. Qed.
Lemma keeping_set_evidence e x : keeping (set_evidence e x).
Proof. apply keeping_same. by intros c y c' [= _ <-]. Qed.
Lemma keeping_set_tables f : (forall t, exactStreams (f t) = exactStreams t) -> keeping (set_tables f).
Proof.
  intros Hf. apply keeping_same. intros c x c' [= _ <-]. split; [apply Hf | done].
Qed.
Lemma keeping_set_retention f : keeping (set_retention f).
Proof.
  apply keeping_same. intros c x c' H. unfold set_retention in H.
  destruct (f _); [|done]. by injection H as _ <-.
Qed.
Lemma keeping_accept r n l : keeping (accept_run r n l).
Proof.
  apply keeping_turns; [apply advancing_accept|]. intros c x c' H. unfold accept_run in H.
  destruct (runs c !! r) as [s|] eqn:Es; [|injection H as _ <-; split; [done | by apply same_turns_runs]].
  destruct (acceptRetainedBeforeTerminalCompletion _ _ _ _) as [[[y s'] b]|] eqn:Ea; [|done]. injection H as _ <-.
  split; [done|]. apply (same_turns_insert _ _ r s s'); [done | done|].
  apply accept_inv in Ea as [[-> _]|(_ & cloned & _ & Hacc)]; [done | apply Hacc].
Qed.
Lemma keeping_diagnostic r ref l : keeping (add_diagnostic_run r ref l).
Proof.
  apply keeping_turns; [apply advancing_diagnostic|]. intros c x c' H. unfold add_diagnostic_run in H.
  destruct (runs c !! r) as [s|] eqn:Es; [|injection H as _ <-; split; [done | by apply same_turns_runs]].
  destruct (addDiagnosticRetained _ _ _ _) as [[[y s'] b]|] eqn:Ea; [|done]. injection H as _ <-.
  split; [done|]. apply (same_turns_insert _ _ r s s'); [done | done|].
  by apply diagnostic_inv in Ea as [->|(_ & _ & _ & _ & _ & _ & ? & _)].
Qed.

Lemma remove_from_other key k r r' (m : gmap string (list nat)) :
  r' <> r -> r' ∈ default [] (m !! k) -> r' ∈ default [] (remove_from key r m !! k).
Proof.
  intros Hn Hin. unfold remove_from. destruct (decide (k = key)) as [->|Hk].
  - assert (r' ∈ filter (fun x => x <> r) (default [] (m !! key))) as Hf by by apply list_elem_of_filter.
    destruct (filter _ _) as [|x l]; [by apply not_elem_of_nil in Hf|]. by rewrite lookup_insert_eq.
  - destruct (filter _ _); [by rewrite lookup_delete_ne | by rewrite lookup_insert_ne].
Qed.

(** Finishing a run ends it, and unregisters no other. *)
Lemma finish_over r e c c' : finish r e c = Some (tt, c') -> is_Some (runs c !! r) -> over r c'.
Proof.
  intros H [s Hs]. apply M_bind_inv in H as (? & ? & [= <- <-] & H). rewrite Hs in H.
  destruct (finishState (run_cause (c_life c)) e s) as [ch s1] eqn:Ef.
  apply M_bind_inv in H as (? & c1 & [= _ <-] & H).
  assert (runs c' = <[r := s1]> (runs c)) as Hr by (destruct ch; by injection H as <-).
  exists s1. rewrite Hr, lookup_insert_eq. split; [done|]. unfold finishState in Ef.
  destruct (terminal s) eqn:Et; by injection Ef as _ <-.
Qed.

Lemma keeping_finish r e : keeping (finish r e).
Proof.
  intros r' c x c' H. destruct x. split; [by eapply advancing_finish|]. intros id Hr.
  destruct (decide (r' = r)) as [->|Hn]; [right; eapply finish_over; [done|]; destruct Hr as (_ & s & Hs & _); eauto|]. left.
  apply M_bind_inv in H as (? & ? & [= <- <-] & H). destruct (runs c !! r) as [s|] eqn:Es; [|by injection H as <-].
  destruct (finishState _ _ s) as [ch s1] eqn:Ef. apply M_bind_inv in H as (? & c1 & [= _ <-] & H).
  assert (runs c' = <[r := s1]> (runs c)) as Hruns by (destruct ch; by injection H as <-).
  eapply routed_same; [| | exact Hr].
  - apply (same_turns_insert _ _ r s s1); [done | done|]. unfold finishState in Ef. destruct (terminal s); by injection Ef as _ <-.
  - destruct ch; injection H as <-; [apply remove_from_other; [done | apply Hr] | apply Hr].
Qed.
End kept.

Create HintDb keeping.
#[export] Hint Resolve keeping_ret keeping_get keeping_set_life keeping_set_calls keeping_set_evidence
  keeping_set_retention keeping_accept keeping_diagnostic keeping_finish : keeping.
#[export] Hint Extern 1 (keeping skip) => apply keeping_ret : keeping.
#[export] Hint Extern 1 (keeping (release_m _)) => apply keeping_set_retention : keeping.
#[export] Hint Extern 1 (keeping (retain_m _)) => apply keeping_set_retention : keeping.
#[export] Hint Extern 2 (keeping (set_tables _)) => apply keeping_set_tables; reflexivity : keeping.

Ltac keep :=
  repeat first
    [ solve [auto 2 with keeping nocore]
    | apply keeping_bind; [|intros]
    | apply keeping_for_each; intros
    | case_match ].

Section kept_handlers.
Context {PT : ProtocolTypes} {Response : Type}.

Lemma keeping_resolveEvidence n r : keeping (Response := Response) (resolveEvidence n r).
Proof. unfold resolveEvidence. keep. Qed.
Hint Resolve keeping_resolveEvidence : keeping.
Lemma keeping_resolvePending n : keeping (Response := Response) (resolvePendingEvidence n).
Proof. unfold resolvePendingEvidence. keep. Qed.
Hint Resolve keeping_resolvePending : keeping.
Lemma keeping_completeEvidence n : keeping (Response := Response) (completeEvidenceTerminal n).
Proof. unfold completeEvidenceTerminal. keep. Qed.
Hint Resolve keeping_completeEvidence : keeping.
Lemma keeping_failClient e : keeping (Response := Response) (failClient e).
Proof. unfold failClient, failAll. keep. Qed.
Hint Resolve keeping_failClient : keeping.
Lemma keeping_failDelivery e : keeping (Response := Response) (failExactNotificationDelivery e).
Proof. apply keeping_failClient. Qed.
Lemma keeping_finishReplay r : keeping (Response := Response) (finishExactPendingReplay r).
Proof. unfold finishExactPendingReplay. keep. Qed.
Lemma keeping_replay r saved : keeping (Response := Response) (replay_events r saved).
Proof. induction saved as [|n saved IH]; simpl; keep. Qed.
Lemma keeping_replay_diagnostics r refs : keeping (Response := Response) (replay_diagnostics r refs).
Proof. induction refs as [|[d l] refs IH]; simpl; keep. Qed.
End kept_handlers.
#[export] Hint Resolve keeping_resolveEvidence keeping_completeEvidence keeping_failClient keeping_failDelivery
  keeping_finishReplay keeping_replay keeping_replay_diagnostics : keeping.

Section attached.
Context {PT : ProtocolTypes} {Response : Type}.
Implicit Types (c : client (Response := Response)).

Lemma run_known r c c' : advances c c' -> is_Some (runs c !! r) -> is_Some (runs c' !! r).
Proof. intros Ha [s Hs]. destruct (Ha r s Hs) as (s' & -> & _). eauto. Qed.

Lemma add_to_in key r (m : gmap string (list nat)) : r ∈ default [] (add_to key r m !! key).
Proof.
  unfold add_to. rewrite lookup_insert_eq. simpl. destruct (mem r _) eqn:E; [by apply mem_true | set_solver].
Qed.

Lemma release_runs key c c' : releaseAttachmentLocked key c = Some (tt, c') -> runs c' = runs c.
Proof.
  intros H. unfold releaseAttachmentLocked in H. apply M_bind_inv in H as (? & ? & [= <- <-] & H).
  apply M_bind_inv in H as (? & c1 & H1 & H). injection H as <-. unfold release_m, set_retention in H1.
  destruct (release _ _); [|done]. by injection H1 as _ <-.
Qed.

(** Attaching routes the run to its turn, unless it is over. *)
Lemma attach_routes r turn c c' :
  attachExactStreamForTurn r turn c = Some (tt, c') -> is_Some (runs c !! r) -> routed r (turn_ID turn) c' \/ over r c'.
Proof.
  intros H [s0 Hk]. apply M_bind_inv in H as (? & c1 & [= _ <-] & H).
  set (c1 := mk_client c _ _ _ _ _ _ _ _) in H. set (s := setTurn turn s0).
  assert (runs c1 !! r = Some s) as Es by (simpl; by rewrite lookup_alter_eq, Hk).
  assert (turnIDSnapshot c1 r = turn_ID turn) as Eid by (unfold turnIDSnapshot; by rewrite Es).
  apply M_bind_inv in H as (? & ? & [= <- <-] & H).
  apply M_bind_inv in H as (? & c2 & [= _ <-] & H). apply M_bind_inv in H as ([] & c3 & H3 & H).
  apply M_bind_inv in H as (? & c4 & [= _ <-] & H). apply release_runs in H3.
  set (c4 := mk_client c3 _ _ _ _ _ _ _ _) in H. assert (runs c4 !! r = Some s) as E4 by (simpl; by rewrite H3).
  rewrite Es, Eid in H. destruct (terminal s) eqn:Et; [injection H as <-; right; by exists s|].
  apply M_bind_inv in H as (? & c5 & [= _ <-] & H). set (c5 := mk_client c4 _ _ _ _ _ _ _ _) in H.
  assert (routed r (turn_ID turn) c5) as Hr5 by (split; [apply add_to_in | by exists s]).
  match type of H with ?m c5 = _ => assert (keeping m) as Hm by keep end.
  by apply (Hm r c5 tt c' H).
Qed.

(** An attachment that ends early ends its run. *)
Lemma finishAttaching_over r e c c' :
  finishAttachingExactStream r e c = Some (tt, c') -> is_Some (runs c !! r) -> over r c'.
Proof.
  intros H Hk. apply M_bind_inv in H as (? & ? & [= <- <-] & H).
  apply M_bind_inv in H as (? & c1 & [= _ <-] & H). apply M_bind_inv in H as ([] & c2 & H2 & H).
  assert (advances (mk_client c (c_life c) (retention c) (runs c)
    (with_streams (c_tables c) (exactStreams (c_tables c)) (remove_from (run_thread c r) r (exactAttaching (c_tables c))))
    (evidences c) (next_evidence c) (queue c) (c_calls c)) c2) as A2.
  { revert H2. match goal with |- ?m _ = _ -> _ => assert (advancing m) as Hm by advance end. apply Hm. }
  apply M_bind_inv in H as (? & c3 & [= _ <-] & H). apply M_bind_inv in H as (failed & c4 & H4 & H).
  apply advancing_resolve_all in H4. apply M_bind_inv in H as ([] & c5 & H5 & H).
  assert (is_Some (runs c4 !! r)) as Hk4.
  { eapply run_known; [exact H4|]. eapply (run_known r _ c2); [exact A2 | done]. }
  eapply (over_advances r c5).
  { revert H. match goal with |- ?m _ = _ -> _ => assert (advancing m) as Hm by advance end. apply Hm. }
  destruct failed as [err|].
  - apply M_bind_inv in H5 as ([] & c6 & Hf & H5). eapply over_advances; [by eapply advancing_failDelivery|].
    by eapply finish_over.
  - apply M_bind_inv in H5 as ([] & c6 & Hf & H5). eapply finish_over; [exact H5|].
    eapply run_known; [|exact Hk4]. revert Hf.
    match goal with |- ?m _ = _ -> _ => assert (advancing m) as Hm by advance end. apply Hm.
Qed.
End attached.
