(* ===== verification/ServerRequest.v ===== *)
(** Requests of the app-server to the application:
    [src/codexsdk/server_request.go], [exact_server_request.go] and the response
    value of [types.go].

    A request is handled on the reader's goroutine up to the admission of a
    callback, and answered on a goroutine of its own.  The application's handler
    and the write of a frame are operations of the surroundings: while they run
    the client may change in any way.  The log keeps the handler's outcomes and
    the frames written, each with the client at that moment.  The text of an
    error in a frame is the error itself. *)

From S2P Require Import Prelude GoStrings Json JsonLex Envelope Retention Pending Lifecycle Protocol Run Client Session.

Local Open Scope string_scope.
Local Open Scope list_scope.

Definition ErrExactServerRequest : error := Sentinel "codexsdk: exact server request failed closed".
Definition ExactServerRequestError (kind reason : string) : error :=
  Typed (ExactServerRequestT kind reason) [ErrExactServerRequest].

(** What the generated package knows of a server request: its decoder, its kind
    and its encoding read back as an object, and the encoder of a response. *)
Class ServerRequestTypes := {
  ServerRequest : Type;
  zero_request : ServerRequest;
  request_Kind : ServerRequest -> string;
  request_envelope : ServerRequest -> option any_map;
  unmarshal_request : any_map -> res ServerRequest;
  ResponseValue : Type;
  marshal_response : ResponseValue -> res (list lexeme)
}.

Section server_request.
Context {PT : ProtocolTypes} {RT : ServerRequestTypes} {Response W : Type}.
Abbreviation client := (client (Response := Response)).

(** [ServerRequestResponse] of [types.go]. *)
Record ServerRequestResponse := { kind : string; value : option ResponseValue }.

(** How a call of the application's handler ends. *)
Inductive handler_outcome :=
| HandlerReturns (response : ServerRequestResponse)
| HandlerFails (e : error)
| HandlerPanics.

Inductive outgoing :=
| ResultFrame (id : option JSONValue) (result : option any_map)
| ErrorFrame (id : option JSONValue) (code : Z) (failure : error).

Inductive event :=
| Invoked (request : ServerRequest) (outcome : handler_outcome) (c : client)
| Wrote (f : outgoing) (c : client).

Abbreviation G := (G Response W event).

Context (ServerRequestHandler : option (ServerRequest -> client -> W -> handler_outcome * client * W))
        (write_frame : outgoing -> client -> W -> option error * client * W).

Definition write (f : outgoing) : G (option error) :=
  c ← look; _ ← emit (Wrote f c); surround (write_frame f).

Definition writeServerRequestError (id : option JSONValue) (code : Z) (e : error) : G (option error) :=
  write (ErrorFrame id code e).

(** * Attribution *)

Record serverRequestIdentity := { sr_threadID : string; sr_turnID : string }.

Definition extractServerRequestIdentity (request : ServerRequest) : serverRequestIdentity :=
  match envelope ← request_envelope request; object_at envelope "params" with
  | None => {| sr_threadID := ""; sr_turnID := "" |}
  | Some params =>
    let thread := json_string_at params "threadId" in
    {| sr_threadID := if String.eqb thread "" then json_string_at params "conversationId" else thread;
       sr_turnID := json_string_at params "turnId" |}
  end.

Definition exactRunsForServerRequest (c : client) (request : ServerRequest) : list nat :=
  let identity := extractServerRequestIdentity request in
  let thread := sr_threadID identity in
  let turn := sr_turnID identity in
  let live := default [] (exactStreams (c_tables c) !! turn) in
  let attaching := default [] (exactAttaching (c_tables c) !! thread) in
  if String.eqb thread "" && String.eqb turn "" then []
  else if present turn then
    filter (fun r => thread = "" \/ run_thread c r = thread) live ++
    (if present thread then
       filter (fun r => turnIDSnapshot c r = turn \/ (turnIDSnapshot c r = "" /\ live = [])) attaching
     else [])
  else
    filter (fun r => run_thread c r = thread) (flat_map snd (map_to_list (exactStreams (c_tables c)))) ++
    attaching.

(** * Answers *)

Definition failExactServerRequest (id : option JSONValue) (request : ServerRequest) (code : Z) (failure : error)
    : G unit :=
  c ← look;
  _ ← lift (for_each (exactRunsForServerRequest c request) (fun r => finish r (Some failure)));
  err ← writeServerRequestError id code failure;
  match err with Some e => lift (failClient e) | None => mret tt end.

Definition rejectExactServerRequestAfterAdmissionClosed (id : option JSONValue) (request : ServerRequest) : G unit :=
  _ ← writeServerRequestError id (-32000) (ExactServerRequestError (request_Kind request) "callback admission is closed");
  mret tt.

Definition unhandledExactServerRequest (k : string) : error :=
  ExactServerRequestError k "no server request handler is configured".

Definition invokeExactServerRequestHandler
    (handler : ServerRequest -> client -> W -> handler_outcome * client * W) (request : ServerRequest)
    : G (res ServerRequestResponse) :=
  outcome ← surround (handler request);
  c ← look;
  _ ← emit (Invoked request outcome c);
  mret (match outcome with
        | HandlerReturns response => Ok response
        | HandlerFails e => Err (Errorf "%w: %w" [ErrHandlerFailed; e])
        | HandlerPanics => Err (Errorf "%w: server request handler panic: %v" [ErrHandlerFailed])
        end).

(** [unmarshalJSONPreserveNumbers] into a [map[string]any]: null is the nil map. *)
Definition unmarshal_object (raw : list lexeme) : res (option any_map) :=
  match unmarshalJSONPreserveNumbers raw with
  | Err e => Err e
  | Ok (JSONObj o) => Ok (Some o)
  | Ok JSONNull => Ok None
  | Ok _ => Err type_error
  end.

Definition writeExactServerRequestResponse (id : option JSONValue) (request : ServerRequest) (v : ResponseValue)
    : G (option error) :=
  match marshal_response v with
  | Err e =>
    _ ← failExactServerRequest id request (-32602) (Errorf "codexsdk: encode %s response: %w" [e]); mret None
  | Ok raw =>
    match unmarshal_object raw with
    | Err e =>
      _ ← failExactServerRequest id request (-32602) (Errorf "codexsdk: decode %s response object: %w" [e]); mret None
    | Ok result => write (ResultFrame id result)
    end
  end.

Definition respondToExactServerRequest (id : option JSONValue) (request : ServerRequest) : G unit :=
  match ServerRequestHandler with
  | None => failExactServerRequest id request (-32000) (unhandledExactServerRequest (request_Kind request))
  | Some handler =>
    answer ← invokeExactServerRequestHandler handler request;
    match answer with
    | Err e =>
      c ← look;
      if closingNormally (c_life c) then mret tt else failExactServerRequest id request (-32000) e
    | Ok response =>
      match (if String.eqb (kind response) (request_Kind request) then value response else None) with
      | None =>
        failExactServerRequest id request (-32602)
          (ExactServerRequestError (request_Kind request) "received mismatched or empty response %s")
      | Some v =>
        err ← writeExactServerRequestResponse id request v;
        match err with Some e => lift (failClient e) | None => mret tt end
      end
    end
  end.

(** * Admission *)

(** The goroutine that answers an admitted request. *)
Inductive task := RespondTo (id : option JSONValue) (request : ServerRequest).

Definition run_task (t : task) : G unit :=
  match t with
  | RespondTo id request => _ ← respondToExactServerRequest id request; lift (set_life endHandlerWork)
  end.

Definition begin_handler : G bool :=
  c ← look;
  let '(ok, l) := beginHandler (c_life c) in
  _ ← lift (set_life (fun _ => l)); mret ok.

Definition handleExactServerRequest (id : option JSONValue) (request : ServerRequest) : G (option task) :=
  ok ← begin_handler;
  if negb ok then _ ← rejectExactServerRequestAfterAdmissionClosed id request; mret None
  else mret (Some (RespondTo id request)).

Definition decodeProtocolServerRequest (message : any_map) : res ServerRequest := unmarshal_request message.

(** A method the server sends as a request. *)
Definition serverRequestMethod (name : string) : bool :=
  match LookupMethod name with
  | Some info => bool_decide (Direction info = MethodDirectionServerToClient) &&
                 bool_decide (method_Kind info = MethodKindRequest)
  | None => false
  end.

Definition handleServerRequest (message : any_map) : G (option task) :=
  let id := message !! "id" in
  let name := json_string_at message "method" in
  if negb (serverRequestMethod name) then
    _ ← failExactServerRequest id zero_request (-32601) (Errorf "codexsdk: unsupported ServerRequest method %q" []);
    mret None
  else match decodeProtocolServerRequest message with
       | Err e =>
         _ ← failExactServerRequest id zero_request (-32602)
               (Errorf "codexsdk: decode ServerRequest request_id=%s: %w" [e]);
         mret None
       | Ok typed =>
         c ← look;
         if isClosed c then _ ← rejectExactServerRequestAfterAdmissionClosed id typed; mret None
         else handleExactServerRequest id typed
       end.

(** A request from its frame to the end of its answer; [meanwhile] is what
    happens between the admission and the start of the goroutine. *)
Definition serve (meanwhile : client -> W -> client * W) (message : any_map) : G unit :=
  t ← handleServerRequest message;
  match t with
  | None => mret tt
  | Some t =>
    _ ← surround (fun c w => let '(c, w) := meanwhile c w in (tt, c, w));
    run_task t
  end.

Definition frames (l : list event) : list outgoing :=
  omap (fun e => match e with Wrote f _ => Some f | Invoked _ _ _ => None end) l.
Definition frame_id (f : outgoing) : option JSONValue :=
  match f with ResultFrame id _ | ErrorFrame id _ _ => id end.
End server_request.
Arguments event {PT RT} Response.

(** * Theorems *)

Section answers.
Context {PT : ProtocolTypes} {RT : ServerRequestTypes} {Response W : Type}.
Abbreviation client := (client (Response := Response)).
Abbreviation session := (session Response W (event Response)).
Context (handler : option (ServerRequest -> client -> W -> handler_outcome * client * W))
        (write_frame : outgoing -> client -> W -> option error * client * W).
Implicit Types (s : session).

Lemma write_inv f s r s' :
  write write_frame f s = Some (r, s') ->
  s_log s' = Wrote f (s_client s) :: s_log s /\
  write_frame f (s_client s) (s_world s) = (r, s_client s', s_world s').
Proof.
  intros H. sbind H. injection H0 as <- <-. sbind H. injection H0 as _ <-.
  apply surround_inv in H as [H Hl]. done.
Qed.

(** Finishing runs changes nothing of the log; the runs are over afterwards and
    the others are as they were. *)
Lemma finish_runs_spec l e (c c' : client) :
  for_each l (fun r => finish r e) c = Some (tt, c') ->
  advances c c' /\ c_life c' = c_life c /\ (forall r, r ∉ l -> runs c' !! r = runs c !! r) /\
  (forall r st, r ∈ l -> runs c !! r = Some st -> exists st', runs c' !! r = Some st' /\ rtc run_step st st' /\
     terminal st' = true /\
     (terminal st = false -> run_err st' = match run_cause (c_life c) with Some x => Some x | None => e end)).
Proof.
  revert c. induction l as [|r l IH]; intros c H; simpl in H.
  { injection H as <-. split_and!; [done | done | done|]. by intros r st ?%not_elem_of_nil. }
  apply M_bind_inv in H as ([] & c1 & Hf & H).
  pose proof (advancing_finish _ _ _ _ _ Hf) as Hadv1.
  apply IH in H as (Hadv & Hlife & Hother & Hin).
  apply M_bind_inv in Hf as (? & ? & [= <- <-] & Hf).
  assert (c_life c1 = c_life c /\ (forall r', r' <> r -> runs c1 !! r' = runs c !! r') /\
    forall st, runs c !! r = Some st -> runs c1 !! r = Some (finishState (run_cause (c_life c)) e st).2)
    as (Hl1 & Ho1 & Hr1).
  { destruct (runs c !! r) as [st|] eqn:Est; [|by injection Hf as <-].
    destruct (finishState _ _ st) as [ch st1] eqn:Ef. apply M_bind_inv in Hf as (? & c2 & [= _ <-] & Hf).
    assert (c_life c1 = c_life c /\ runs c1 = <[r := st1]> (runs c)) as [-> ->] by (destruct ch; by injection Hf as <-).
    split_and!; [done | intros; by rewrite lookup_insert_ne|]. intros ? [= <-]. rewrite Ef. apply lookup_insert_eq. }
  split_and!; [by etrans | congruence | |].
  - intros r' [Hne Hr']%not_elem_of_cons. rewrite Hother by done. auto.
  - intros r' st Hr' Hst. rewrite Hl1 in Hin. destruct (decide (r' = r)) as [->|Hne].
    + pose proof (Hr1 _ Hst) as Hst1. destruct (Hadv _ _ Hst1) as (st' & Hst' & Hsteps).
      assert (terminal (finishState (run_cause (c_life c)) e st).2 = true) as Hover
        by (unfold finishState; by destruct (terminal st) eqn:?).
      exists st'. split_and!; [done | | by eapply run_over_stays|].
      * eapply rtc_l; [apply run_finish | done].
      * intros Hopen. pose proof (run_steps_frozen _ _ Hsteps Hover) as Hfr. unfold frozen_part in Hfr.
        injection Hfr as _ -> _ _ _. unfold finishState. rewrite Hopen. simpl. done.
    + apply elem_of_cons in Hr' as [?|Hr']; [done|]. apply (Hin r' st Hr'). by rewrite Ho1.
Qed.

(** The log of a failed request: its error frame, after its runs are over. *)
Lemma fail_request_spec id request code failure s s' :
  failExactServerRequest write_frame id request code failure s = Some (tt, s') ->
  exists c, s_log s' = Wrote (ErrorFrame id code failure) c :: s_log s /\
    for_each (exactRunsForServerRequest (s_client s) request) (fun r => finish r (Some failure)) (s_client s) =
      Some (tt, c) /\
    exists err c1 w, write_frame (ErrorFrame id code failure) c (s_world s) = (err, c1, w) /\
      (is_Some err -> isClosed (s_client s') = true).
Proof.
  intros H. sbind H. injection H0 as <- <-. sbind H. apply lift_inv in H0 as (Hf & Hw & Hl). destruct a.
  sbind H. apply write_inv in H0 as [Hl1 Hwr]. rewrite Hw in Hwr. exists (s_client s0).
  destruct a as [e|].
  - apply lift_inv in H as (Hfc & _ & Hl2). rewrite Hl2, Hl1, Hl. split_and!; [done | done|].
    eexists _, _, _. split; [done|]. intros _. by eapply failClient_closed.
  - injection H as <-. rewrite Hl1, Hl. split_and!; [done | done|].
    eexists _, _, _. split; [done|]. by intros [? ?].
Qed.

Lemma reject_log id request s s' :
  rejectExactServerRequestAfterAdmissionClosed write_frame id request s = Some (tt, s') ->
  exists e c, s_log s' = Wrote (ErrorFrame id (-32000) e) c :: s_log s.
Proof. intros H. sbind H. apply write_inv in H0 as [Hl _]. injection H as <-. eauto. Qed.

(** What the answer of [request] wrote: one frame of the right id, or nothing
    when the handler failed while the client closed normally. *)
Definition answered (id : option JSONValue) (request : ServerRequest) (l : list (event Response)) : Prop :=
  (exists f, frames l = [f] /\ frame_id f = id /\
     forall id' result, f = ResultFrame id' result -> exists response v c raw,
       Invoked request (HandlerReturns response) c ∈ l /\ kind response = request_Kind request /\
       value response = Some v /\ marshal_response v = Ok raw /\ unmarshal_object raw = Ok result) \/
  (frames l = [] /\ exists outcome c, Invoked request outcome c ∈ l /\
     (forall response, outcome <> HandlerReturns response) /\ closingNormally (c_life c) = true).

Lemma answered_error id request code e c l :
  frames l = [] -> answered id request (Wrote (ErrorFrame id code e) c :: l).
Proof. intros Hl. left. exists (ErrorFrame id code e).
  split; [|done]. transitivity (ErrorFrame id code e :: frames l); [reflexivity | by rewrite Hl].
Qed.

Lemma respond_log id request s s' :
  respondToExactServerRequest handler write_frame id request s = Some (tt, s') ->
  exists l, s_log s' = l ++ s_log s /\ answered id request l.
Proof.
  unfold respondToExactServerRequest. intros H. destruct handler as [h|].
  2:{ apply fail_request_spec in H as (c & -> & _). eexists [_]. split; [done|]. by apply answered_error. }
  apply G_bind_inv in H as (answer & s1 & Hi & H).
  assert (exists outcome c, s_log s1 = Invoked request outcome c :: s_log s /\ c = s_client s1 /\
    answer = match outcome with
             | HandlerReturns response => Ok response
             | HandlerFails e => Err (Errorf "%w: %w" [ErrHandlerFailed; e])
             | HandlerPanics => Err (Errorf "%w: server request handler panic: %v" [ErrHandlerFailed])
             end) as (outcome & c1 & Hl1 & -> & ->).
  { sbind Hi. apply surround_inv in H0 as [_ Hl0]. sbind Hi. injection H0 as <- <-. sbind Hi.
    injection H0 as _ <-. injection Hi as <- <-. simpl. rewrite Hl0. eauto. }
  assert (forall code e, failExactServerRequest write_frame id request code e s1 = Some (tt, s') ->
    exists l, s_log s' = l ++ s_log s /\ answered id request l) as Hfail.
  { intros code e Hf. apply fail_request_spec in Hf as (c & -> & _). rewrite Hl1.
    eexists [_; _]. split; [done|]. by apply answered_error. }
  destruct outcome as [response|e|].
  - destruct (String.eqb_spec (kind response) (request_Kind request)) as [Hk|]; [|by eapply Hfail].
    destruct (value response) as [v|] eqn:Hv; [|by eapply Hfail].
    unfold writeExactServerRequestResponse in H. destruct (marshal_response v) as [raw|e] eqn:Em.
    2:{ sbind H. sbind H0. injection H0 as <- <-. injection H as <-. destruct a0. by eapply Hfail. }
    destruct (unmarshal_object raw) as [result|e] eqn:Eu.
    2:{ sbind H. sbind H0. injection H0 as <- <-. injection H as <-. destruct a0. by eapply Hfail. }
    sbind H. apply write_inv in H0 as [Hl2 _].
    assert (s_log s' = s_log s0) as -> by (destruct a; [by apply lift_inv in H as (_ & _ & ?) | by injection H as <-]).
    rewrite Hl2, Hl1. eexists [_; _]. split; [done|]. left. eexists. split_and!; [done | done|].
    intros id' result' [= <- <-]. exists response, v, (s_client s1), raw. split_and!; try done. set_solver.
  - sbind H. injection H0 as <- <-. destruct (closingNormally _) eqn:En; [|by eapply Hfail].
    injection H as <-. eexists [_]. split; [exact Hl1|]. right. split; [done|].
    eexists _, _. split_and!; [by left | done | done].
  - sbind H. injection H0 as <- <-. destruct (closingNormally _) eqn:En; [|by eapply Hfail].
    injection H as <-. eexists [_]. split; [exact Hl1|]. right. split; [done|].
    eexists _, _. split_and!; [by left | done | done].
Qed.

(** Handling on the reader: a frame at once, or an admitted task for the
    decoded request. *)
Lemma handle_log message s t s' :
  handleServerRequest write_frame message s = Some (t, s') ->
  (t = None /\ exists code e c, s_log s' = Wrote (ErrorFrame (message !! "id") code e) c :: s_log s) \/
  (s_log s' = s_log s /\ isClosed (s_client s) = false /\
   exists request, t = Some (RespondTo (message !! "id") request) /\ unmarshal_request message = Ok request).
Proof.
  unfold handleServerRequest. intros H. destruct (negb (serverRequestMethod _)).
  { sbind H. injection H as <- <-. destruct a. apply fail_request_spec in H0 as (c & -> & _). left. eauto. }
  unfold decodeProtocolServerRequest in H. destruct (unmarshal_request message) as [typed|e].
  2:{ sbind H. injection H as <- <-. destruct a. apply fail_request_spec in H0 as (c & -> & _). left. eauto. }
  sbind H. injection H0 as <- <-. destruct (isClosed (s_client s)) eqn:Ec.
  { sbind H. injection H as <- <-. destruct a. apply reject_log in H0 as (e & c & ->). left. eauto. }
  sbind H. sbind H0. injection H1 as <- <-. unfold beginHandler in H0. unfold isClosed in Ec. rewrite Ec in H0.
  sbind H0. injection H1 as _ <-. injection H0 as <- <-. injection H as <- <-. right. eauto 10.
Qed.
End answers.

(** C2: every request of the server is answered exactly once: one frame with
    its id is written, whatever the callback, the peer and the other goroutines
    do; only when the callback failed while the client was closing normally is
    nothing written.  A result frame carries what the callback returned for the
    decoded request, of the request's kind; a request that was not admitted or
    not understood never reaches the callback. *)
Theorem request_answered_once {PT : ProtocolTypes} {RT : ServerRequestTypes} {Response W : Type}
    (handler : option (ServerRequest -> client -> W -> handler_outcome * client * W))
    (write_frame : outgoing -> client -> W -> option error * client * W)
    (meanwhile : client -> W -> client * W) (message : any_map) (s s' : session Response W (event Response))
    (H : serve handler write_frame meanwhile message s = Some (tt, s')) :
  (exists code e c, s_log s' = Wrote (ErrorFrame (message !! "id") code e) c :: s_log s) \/
  (isClosed (s_client s) = false /\ exists request l, unmarshal_request message = Ok request /\
     s_log s' = l ++ s_log s /\ answered (message !! "id") request l).
Proof.
  unfold serve in H. sbind H. apply handle_log in H0 as [(-> & code & e & c & Hl) | (Hl & Ho & request & -> & Hd)].
  - injection H as <-. left. eauto.
  - right. split; [done|]. sbind H. apply surround_inv in H0 as [_ Hl1]. sbind H. destruct a0.
    apply respond_log in H0 as (l & Hl2 & Ha). apply lift_inv in H as (_ & _ & Hl3).
    exists request, l. split_and!; [done | | done]. congruence.
Qed.

(** A request that fails ends the runs it belongs to before the peer can
    see the failure: when the error frame is written every correlated run is
    over, an open one with the client's own cause or else with this failure, no
    other run has changed, and a frame that cannot be written fails the client. *)
Theorem failed_request_ends_runs {PT : ProtocolTypes} {RT : ServerRequestTypes} {Response W : Type}
    (write_frame : outgoing -> client -> W -> option error * client * W)
    (id : option JSONValue) (request : ServerRequest) (code : Z) (failure : error)
    (s s' : session Response W (event Response))
    (H : failExactServerRequest write_frame id request code failure s = Some (tt, s')) :
  exists c err c1 w, s_log s' = Wrote (ErrorFrame id code failure) c :: s_log s /\
    write_frame (ErrorFrame id code failure) c (s_world s) = (err, c1, w) /\
    (is_Some err -> isClosed (s_client s') = true) /\
    (forall r st, r ∈ exactRunsForServerRequest (s_client s) request -> runs (s_client s) !! r = Some st ->
       exists st', runs c !! r = Some st' /\ rtc run_step st st' /\ terminal st' = true /\
         (terminal st = false ->
          run_err st' = Some (default failure (run_cause (c_life (s_client s)))))) /\
    (forall r, r ∉ exactRunsForServerRequest (s_client s) request -> runs c !! r = runs (s_client s) !! r).
Proof.
  apply fail_request_spec in H as (c & Hl & Hf & err & c1 & w & Hw & Hc).
  apply finish_runs_spec in Hf as (_ & _ & Hother & Hin).
  exists c, err, c1, w. split_and!; [done | done | done | | done].
  intros r st Hr Hst. destruct (Hin r st Hr Hst) as (st' & Hst' & Hsteps & Ht & He).
  exists st'. split_and!; [done | done | done|]. intros Ho. rewrite (He Ho). by destruct (run_cause _).
Qed.

(** The runs a request reaches belong to the thread it names and, when it names
    a turn, own that turn or are about to start one nobody owns. *)
Lemma request_runs_owned {PT : ProtocolTypes} {RT : ServerRequestTypes} {Response}
    (c : client (Response := Response)) (request : ServerRequest) r :
  (forall thread l, exactAttaching (c_tables c) !! thread = Some l -> Forall (fun r => run_thread c r = thread) l) ->
  r ∈ exactRunsForServerRequest c request ->
  (sr_threadID (extractServerRequestIdentity request) = "" \/
   run_thread c r = sr_threadID (extractServerRequestIdentity request)) /\
  (sr_turnID (extractServerRequestIdentity request) = "" \/
   r ∈ default [] (exactStreams (c_tables c) !! sr_turnID (extractServerRequestIdentity request)) \/
   turnIDSnapshot c r = sr_turnID (extractServerRequestIdentity request) \/
   (turnIDSnapshot c r = "" /\
    default [] (exactStreams (c_tables c) !! sr_turnID (extractServerRequestIdentity request)) = [])).
Proof.
  intros Hkeyed. unfold exactRunsForServerRequest. destruct (extractServerRequestIdentity request) as [thread turn].
  simpl. assert (forall x, x ∈ default [] (exactAttaching (c_tables c) !! thread) -> run_thread c x = thread) as Ha.
  { intros x Hx. destruct (_ !! thread) as [l|] eqn:E; [|by apply not_elem_of_nil in Hx].
    pose proof (Hkeyed _ _ E) as Hf. rewrite Forall_forall in Hf. auto. }
  destruct (String.eqb thread "" && String.eqb turn ""); [by intros ?%not_elem_of_nil|].
  destruct (present turn) eqn:Et.
  - intros [[Hr Hin]%list_elem_of_filter|Hr]%elem_of_app; [naive_solver|].
    destruct (present thread); [|by apply not_elem_of_nil in Hr].
    apply list_elem_of_filter in Hr as [Hr Hin]. split; [right; auto | naive_solver].
  - apply present_false in Et. intros [[Hr Hin]%list_elem_of_filter|Hr]%elem_of_app; auto.
Qed.

(** * A small instance *)

(** A request is its message, its kind the method; a response value is its text. *)
Definition sample_request_types : ServerRequestTypes := {|
  ServerRequest := any_map; zero_request := ∅;
  request_Kind m := json_string_at m "method"; request_envelope := Some;
  unmarshal_request := Ok; ResponseValue := list lexeme; marshal_response := Ok |}.

Definition tool_call : any_map :=
  <["id" := JSONNum "7"]> (<["method" := JSONString "item/tool/call"]>
    {["params" := JSONObj (<["threadId" := JSONString "t1"]> {["turnId" := JSONString "u1"]})]}).

(** The world is the list of frames the peer has received. *)
Definition sample_write (f : outgoing) (c : client (PT := sample_protocol) (Response := unit)) (w : list outgoing) :=
  (@None error, c, f :: w).
Definition sample_handler (_ : any_map) (c : client (PT := sample_protocol) (Response := unit)) (w : list outgoing) :=
  (HandlerReturns (RT := sample_request_types)
     (Build_ServerRequestResponse (RT := sample_request_types) "item/tool/call"
        (Some [LBraceO; LStr "ok"; LColon; LBool true; LBraceC])), c, w).
Definition sample_session : session (PT := sample_protocol) unit (list outgoing)
    (event (PT := sample_protocol) (RT := sample_request_types) unit) :=
  {| s_client := open_client; s_world := []; s_log := [] |}.

Definition sample_served := serve (PT := sample_protocol) (RT := sample_request_types) (Some sample_handler)
  sample_write (fun c w => (c, w)) tool_call sample_session.
Definition sample_failed := failExactServerRequest (PT := sample_protocol) (RT := sample_request_types) sample_write
  (Some (JSONNum "7")) tool_call (-32000) (Sentinel "boom") sample_session.

Lemma sample_serves : sample_served = Some (tt, end_of sample_session sample_served).
Proof. apply ends_with. vm_compute. reflexivity. Qed.
Lemma sample_fails : sample_failed = Some (tt, end_of sample_session sample_failed).
Proof. apply ends_with. vm_compute. reflexivity. Qed.
Lemma sample_received : s_world (end_of sample_session sample_served) =
  [ResultFrame (Some (JSONNum "7")) (Some {["ok" := JSONBool true]})].
Proof. vm_compute. reflexivity. Qed.
Lemma sample_log : length (s_log (end_of sample_session sample_served)) = 2.
Proof. vm_compute. reflexivity. Qed.

Lemma request_answered_once_witness :
  s_world (end_of sample_session sample_served) =
    [ResultFrame (Some (JSONNum "7")) (Some {["ok" := JSONBool true]})] /\
  exists request l, unmarshal_request (ServerRequestTypes := sample_request_types) tool_call = Ok request /\
    s_log (end_of sample_session sample_served) = l ++ [] /\
    answered (PT := sample_protocol) (RT := sample_request_types) (Some (JSONNum "7")) request l.
Proof.
  split; [apply sample_received|].
  destruct (request_answered_once (PT := sample_protocol) (RT := sample_request_types) (Some sample_handler)
              sample_write (fun c w => (c, w)) tool_call sample_session _ sample_serves)
    as [(code & e & c & Hl) | [_ H]]; [|exact H].
  exfalso. apply (f_equal length) in Hl. rewrite sample_log in Hl. discriminate Hl.
Defined.

Lemma failed_request_ends_runs_witness :
  exists c st', s_log (end_of sample_session sample_failed) =
      [Wrote (ErrorFrame (Some (JSONNum "7")) (-32000) (Sentinel "boom")) c] /\
    runs c !! 0 = Some st' /\ terminal st' = true /\ run_err st' = Some (Sentinel "boom").
Proof.
  destruct (failed_request_ends_runs (PT := sample_protocol) (RT := sample_request_types) sample_write
              _ _ _ _ _ _ sample_fails) as (c & err & c1 & w & Hl & _ & _ & Hin & _).
  destruct (Hin 0 item_run) as (st' & Hst & _ & Ht & He); [vm_compute; by left | reflexivity|].
  exists c, st'. split_and!; [exact Hl | exact Hst | exact Ht | exact (He eq_refl)].
Defined.
