(* ===== verification/Facades.v ===== *)
(** Protocol calls: [src/codexsdk/facades.go].

    A typed call is gated (the client is open, the method is known, neither the
    method nor any member of its parameters is experimental unless the
    capability was requested), encoded, sent, and its response decoded.  The
    generated tables of experimental members are a class.  The exchange itself
    ([callValidated]) is an operation of the surroundings: [Pending] and
    [routeResponse] of [Client] are its two halves, and the decoder given here
    is the validation that [routeResponse] runs before it answers. *)

From S2P Require Import Prelude GoStrings Json JsonLex Envelope Lifecycle Protocol Run Client Session ServerRequest.

Local Open Scope string_scope.
Local Open Scope list_scope.

(** The tables of [experimental_members.gen.go]. *)
Class ExperimentalMembers := {
  ExperimentalJSONFields : gmap string (gset string);
  ExperimentalUnionValues : gmap string (gset string);
  ExperimentalChildTypes : gmap string (gmap string string)
}.

Section experimental.
Context {EM : ExperimentalMembers}.

Definition in_table (table : gmap string (gset string)) (typeName key : string) : bool :=
  bool_decide (key ∈ default ∅ (table !! typeName)).

Definition child_type (typeName key : string) : string :=
  default "" (default ∅ (ExperimentalChildTypes !! typeName) !! key).

(** The first of the discriminator members that is a non-empty string. *)
Definition experimentalDiscriminatorValue (fields : any_map) : string :=
  default "" (head (filter (fun s => s <> "")
    (map (json_string_at fields) ["type"; "method"; "kind"; "mode"; "handlerType"]))).

Definition experimentalFieldError : error :=
  Errorf "codexsdk: experimental field %s.%s requires ClientCapabilities.ExperimentalAPI" [].
Definition experimentalVariantError : error :=
  Errorf "codexsdk: experimental variant %s.%s requires ClientCapabilities.ExperimentalAPI" [].

(** The first error of a loop that stops at it. *)
Definition or_else (a b : option error) : option error := match a with Some e => Some e | None => b end.

Fixpoint rejectExperimentalJSON (value : JSONValue) (typeName : string) : option error :=
  match value with
  | JSONObj typed =>
    let disc := experimentalDiscriminatorValue typed in
    if present disc && in_table ExperimentalUnionValues typeName disc then Some experimentalVariantError
    else map_fold (fun key child acc =>
      or_else
        (if in_table ExperimentalJSONFields typeName key then Some experimentalFieldError
         else if present (child_type typeName key) then rejectExperimentalJSON child (child_type typeName key)
         else None) acc) None typed
  | JSONArr typed =>
    fold_right (fun child acc => or_else (rejectExperimentalJSON child typeName) acc) None typed
  | _ => None
  end.

(** What it looks for: an experimental variant or field of a value of the named
    type, at any depth the table of child types leads to. *)
Inductive experimental : string -> JSONValue -> Prop :=
| experimental_variant t m :
    experimentalDiscriminatorValue m <> "" ->
    in_table ExperimentalUnionValues t (experimentalDiscriminatorValue m) = true -> experimental t (JSONObj m)
| experimental_field t m key v :
    m !! key = Some v -> in_table ExperimentalJSONFields t key = true -> experimental t (JSONObj m)
| experimental_child t m key v :
    m !! key = Some v -> child_type t key <> "" -> experimental (child_type t key) v -> experimental t (JSONObj m)
| experimental_element t l v : v ∈ l -> experimental t v -> experimental t (JSONArr l).

Lemma or_else_None a b : or_else a b = None <-> a = None /\ b = None.
Proof. destruct a; naive_solver. Qed.

Lemma map_fold_or_else (f : string -> JSONValue -> option error) (m : any_map) :
  map_fold (fun k x acc => or_else (f k x) acc) None m = None <-> forall k x, m !! k = Some x -> f k x = None.
Proof.
  apply (map_fold_weak_ind (fun r m => r = None <-> forall k x, m !! k = Some x -> f k x = None)).
  - split; [|done]. intros _ k x H. by rewrite lookup_empty in H.
  - intros i y m' r Hi IH. rewrite or_else_None, IH. split.
    + intros [Hy Hm] k x. rewrite lookup_insert_Some. intros [[<- <-]|[_ Hk]]; eauto.
    + intros H. split; [apply (H i y), lookup_insert_eq|]. intros k x Hk. apply (H k x).
      rewrite lookup_insert_ne; congruence.
Qed.

Lemma fold_or_else {A} (f : A -> option error) (l : list A) :
  fold_right (fun x acc => or_else (f x) acc) None l = None <-> forall x, x ∈ l -> f x = None.
Proof.
  induction l as [|x l IH]; simpl.
  - split; [|done]. intros _ x H. by apply not_elem_of_nil in H.
  - rewrite or_else_None, IH. set_solver.
Qed.

Lemma rejectExperimentalJSON_None v t : rejectExperimentalJSON v t = None <-> ~ experimental t v.
Proof.
  revert t. induction v as [v H1 H2|l IH|m IH] using json_nested_ind; intros t.
  - destruct v; simpl in *; try done; (split; [|done]); intros _ He; inversion He.
  - simpl. rewrite (fold_or_else (fun x => rejectExperimentalJSON x t)). rewrite Forall_forall in IH. split.
    + intros H He. inversion He as [| | |? ? x Hx Hex]; subst. by apply (proj1 (IH x Hx t) (H x Hx)).
    + intros Hn x Hx. apply (IH x Hx t). intros He. apply Hn. by eapply experimental_element.
  - simpl. destruct (present (experimentalDiscriminatorValue m) && _) eqn:Ed.
    { reflect_bools. split; [done|]. intros Hn. exfalso. apply Hn, experimental_variant; [by apply present_true | done]. }
    rewrite (map_fold_or_else (fun key child => if in_table ExperimentalJSONFields t key then Some experimentalFieldError
         else if present (child_type t key) then rejectExperimentalJSON child (child_type t key) else None)). split.
    + intros H He. inversion He as [? ? Hd Hu|? ? k v Hk Hf|? ? k v Hk Hc Hex|]; subst.
      * apply present_true in Hd. by rewrite Hd, Hu in Ed.
      * specialize (H k v Hk). by rewrite Hf in H.
      * specialize (H k v Hk). apply present_true in Hc. rewrite Hc in H.
        destruct (in_table ExperimentalJSONFields t k); [done|]. by apply (proj1 (IH k v Hk _) H).
    + intros Hn k v Hk. cbv beta.
      destruct (in_table ExperimentalJSONFields t k) eqn:Ef; [exfalso; apply Hn; by apply (experimental_field _ _ k v)|].
      destruct (present (child_type t k)) eqn:Ec; [|done]. apply present_true in Ec.
      apply (IH k v Hk). intros He. apply Hn. by apply (experimental_child _ _ k v).
Qed.
End experimental.

(** * Calls *)

Record InitializeCapabilities := { ExperimentalAPI : option bool }.

Definition experimentalAPIEnabled (capabilities : option (Nullable InitializeCapabilities)) : bool :=
  match capabilities with Some (Some c) => default false (ExperimentalAPI c) | _ => false end.

(** The parameters are given by what [json.Marshal] makes of them. *)
Definition encodeProtocolParams (params : res (list lexeme)) : res any_map :=
  match params with
  | Err e => Err (Errorf "codexsdk: encode %s params: %w" [e])
  | Ok raw =>
    match unmarshal_object raw with
    | Err e => Err (Errorf "codexsdk: encode %s params object: %w" [e])
    | Ok None => Err (Errorf "codexsdk: encode %s params: protocol params must encode to object" [])
    | Ok (Some m) => Ok m
    end
  end.

Definition decodeProtocolResponse {R} (decode : any_map -> res R) (result : any_map) : res R :=
  match decode result with Err e => Err (Errorf "codexsdk: decode %s response: %w" [e]) | Ok r => Ok r end.

Section calls.
Context {PT : ProtocolTypes} {EM : ExperimentalMembers}.

Definition checkProtocolMethodAllowed (enabled : bool) (method : string) : res unit :=
  match LookupMethod method with
  | None => Err (Errorf "codexsdk: unknown app-server method %q" [])
  | Some info =>
    guard_err (bool_decide (Stability info = MethodStabilityExperimental) && negb enabled)
      (Errorf "codexsdk: experimental app-server method %q requires ClientCapabilities.ExperimentalAPI" [])
  end.

Definition checkProtocolParamsAllowed (enabled : bool) (method : string) (params : res (list lexeme)) : res unit :=
  if enabled then Ok tt
  else match LookupMethod method with
       | None => Ok tt
       | Some info =>
         if String.eqb (ParamsOrPayloadSchema info) "" then Ok tt
         else encoded ← encodeProtocolParams params;
              match rejectExperimentalJSON (JSONObj encoded) (ParamsOrPayloadSchema info) with
              | Some e => Err e
              | None => Ok tt
              end
       end.

Context {Response W E : Type}.
Abbreviation client := (client (Response := Response)).
Abbreviation G := (G Response W E).
Context (capabilities : option (Nullable InitializeCapabilities))
        (called : string -> option any_map -> exactCallIntent -> client -> E)
        (exchange : string -> option any_map -> exactCallIntent -> client -> W -> res any_map * client * W).

Definition no_intent : exactCallIntent := {| intent_thread := false; intent_turn := None |}.

(** [callValidated] with the decoder of the response as its validation. *)
Definition callValidated {R} (method : string) (params : option any_map) (decode : any_map -> res R)
    (exact : exactCallIntent) : G (res R) :=
  c ← look;
  _ ← emit (called method params exact c);
  answer ← surround (exchange method params exact);
  mret (result ← answer; decodeProtocolResponse decode result).

Definition checks (c : client) (method : string) (params : res (list lexeme)) : res any_map :=
  _ ← checkOpen (c_life c);
  _ ← checkProtocolMethodAllowed (experimentalAPIEnabled capabilities) method;
  _ ← checkProtocolParamsAllowed (experimentalAPIEnabled capabilities) method params;
  encodeProtocolParams params.

Definition callProtocolWithExactIntent {R} (method : string) (params : res (list lexeme))
    (decode : any_map -> res R) (exact : exactCallIntent) : G (res R) :=
  c ← look;
  match checks c method params with
  | Err e => mret (Err e)
  | Ok paramsMap => callValidated method (Some paramsMap) decode exact
  end.

Definition callProtocol {R} (method : string) (params : res (list lexeme)) (decode : any_map -> res R) : G (res R) :=
  callProtocolWithExactIntent method params decode no_intent.

Definition callProtocolNoParams {R} (method : string) (decode : any_map -> res R) : G (res R) :=
  c ← look;
  match (_ ← checkOpen (c_life c); checkProtocolMethodAllowed (experimentalAPIEnabled capabilities) method) with
  | Err e => mret (Err e)
  | Ok _ => callValidated method None decode no_intent
  end.

(** When a call may be sent. *)
Definition admissible (c : client) (method : string) (params : any_map) : Prop :=
  isClosed c = false /\
  exists info, LookupMethod method = Some info /\
    (experimentalAPIEnabled capabilities = false ->
     Stability info <> MethodStabilityExperimental /\
     (ParamsOrPayloadSchema info <> "" -> ~ experimental (ParamsOrPayloadSchema info) (JSONObj params))).

Lemma checks_spec c method raw params :
  checks c method raw = Ok params <-> encodeProtocolParams raw = Ok params /\ admissible c method params.
Proof.
  unfold checks, admissible, checkOpen, isClosed, checkProtocolMethodAllowed, checkProtocolParamsAllowed.
  rewrite bind_Ok. setoid_rewrite guard_err_Ok.
  destruct (LookupMethod method) as [info|].
  2:{ split; [|by intros (_ & _ & ? & ? & _)]. intros (? & _ & H). by apply bind_Ok in H as (? & ? & _). }
  split.
  - intros (? & Ho & H). apply bind_Ok in H as (? & Hs & H). apply bind_Ok in H as (? & Hp & He).
    split; [done|]. split; [done|]. exists info. split; [done|]. intros Hen. rewrite Hen in Hs, Hp.
    apply guard_err_Ok in Hs. rewrite andb_true_r in Hs. apply bool_decide_eq_false in Hs. split; [done|].
    intros Hn%String.eqb_neq. rewrite Hn, He in Hp. cbv [mbind res_bind] in Hp.
    apply rejectExperimentalJSON_None. revert Hp. by destruct (rejectExperimentalJSON _ _).
  - intros (He & Ho & info' & [= <-] & H). exists tt. split; [done|]. apply bind_Ok. exists tt.
    destruct (experimentalAPIEnabled capabilities).
    { rewrite andb_false_r. split; [done|]. by apply bind_Ok; exists tt. }
    destruct H as [Hs Hp]; [done|]. rewrite bool_decide_eq_false_2 by done. split; [done|].
    apply bind_Ok. exists tt. split; [|done]. destruct (String.eqb_spec (ParamsOrPayloadSchema info) "") as [|Hn]; [done|].
    rewrite He. cbv [mbind res_bind]. apply Hp, rejectExperimentalJSON_None in Hn. by rewrite Hn.
Qed.

(** A call either is refused before anything happened, or is sent once. *)
Lemma call_spec {R} method raw (decode : any_map -> res R) exact s r s' :
  callProtocolWithExactIntent method raw decode exact s = Some (r, s') ->
  (exists e, r = Err e /\ s' = s /\ checks (s_client s) method raw = Err e) \/
  (exists params answer, checks (s_client s) method raw = Ok params /\
     s_log s' = called method (Some params) exact (s_client s) :: s_log s /\
     exchange method (Some params) exact (s_client s) (s_world s) = (answer, s_client s', s_world s') /\
     r = (result ← answer; decodeProtocolResponse decode result)).
Proof.
  intros H. sbind H. injection H0 as <- <-. destruct (checks (s_client s) method raw) as [params|e].
  - right. sbind H. injection H0 as <- <-. sbind H. injection H0 as _ <-. sbind H.
    apply surround_inv in H0 as [He Hl]. injection H as <- <-. eexists params, _. by split_and!.
  - left. injection H as <- <-. by exists e.
Qed.
End calls.

(** A typed call never panics, and it reaches the peer exactly when it may:
    the client is open, the method is known, the parameters encode to an
    object, and without the capability neither the method nor any member of the
    parameters, at any depth of the schema, is experimental.  Otherwise nothing
    happens; when it is sent it is sent once, and its result is the decoded
    answer. *)
Theorem call_gated {PT : ProtocolTypes} {EM : ExperimentalMembers} {Response W E R : Type}
    (capabilities : option (Nullable InitializeCapabilities))
    (called : string -> option any_map -> exactCallIntent -> client (Response := Response) -> E)
    (exchange : string -> option any_map -> exactCallIntent -> client -> W -> res any_map * client * W)
    (method : string) (raw : res (list lexeme)) (decode : any_map -> res R) (exact : exactCallIntent)
    (s : session Response W E) :
  exists r s', callProtocolWithExactIntent capabilities called exchange method raw decode exact s = Some (r, s') /\
  ((exists params answer, encodeProtocolParams raw = Ok params /\ admissible capabilities (s_client s) method params /\
      s_log s' = called method (Some params) exact (s_client s) :: s_log s /\
      exchange method (Some params) exact (s_client s) (s_world s) = (answer, s_client s', s_world s') /\
      r = (result ← answer; decodeProtocolResponse decode result)) \/
   ((exists e, r = Err e) /\ s' = s /\
      forall params, encodeProtocolParams raw = Ok params -> ~ admissible capabilities (s_client s) method params)).
Proof.
  destruct (callProtocolWithExactIntent capabilities called exchange method raw decode exact s) as [[r s']|] eqn:E0.
  - exists r, s'. split; [done|]. apply call_spec in E0 as [(e & -> & -> & He) | (params & answer & Hc & H)].
    + right. split; [eauto|]. split; [done|]. intros params Hp Ha.
      assert (checks capabilities (s_client s) method raw = Ok params) by by apply checks_spec. congruence.
    + left. apply checks_spec in Hc as [? ?]. exists params, answer. by split.
  - exfalso. revert E0. unfold callProtocolWithExactIntent, mbind, G_bind, look. simpl.
    destruct (checks _ _ _ _); [|done]. unfold callValidated, mbind, G_bind, look, emit, surround. simpl.
    by destruct (exchange _ _ _ _ _) as [[? ?] ?].
Qed.

(** A protocol whose turn parameters have one experimental field, and one in a
    nested object. *)
Definition sample_members : ExperimentalMembers := {|
  ExperimentalJSONFields := <["TurnStartParams" := {["secret"]}]> {["Sandbox" := {["escape"]}]};
  ExperimentalUnionValues := {["Sandbox" := {["lab"]}]};
  ExperimentalChildTypes := {["TurnStartParams" := {["sandbox" := "Sandbox"]}]} |}.

Example nested_field_rejected :
  rejectExperimentalJSON (EM := sample_members)
    (JSONObj {["sandbox" := JSONArr [JSONObj {["escape" := JSONNull]}]]}) "TurnStartParams" = Some experimentalFieldError.
Proof. vm_compute. reflexivity. Qed.

Example plain_field_admitted :
  rejectExperimentalJSON (EM := sample_members)
    (JSONObj {["sandbox" := JSONObj {["type" := JSONString "plain"]}]}) "TurnStartParams" = None.
Proof. vm_compute. reflexivity. Qed.
