(* ===== verification/Runner.v ===== *)
(** Exact runs from the request to the stream:
    [src/codexsdk/exact_runner.go] ([StartStream], [ResumeStream],
    [admitContinuation], [finishMissingTurnID], [Close], [Start], [Resume]).

    A run is composed of three exchanges with the surroundings: the thread call,
    the admission callback of the application, and the turn call.  While each of
    them is on its way the client may change.  The log keeps the calls and the
    admissions.  [thread/start] and [thread/resume] differ in their method, in
    the constructor of the result and in the texts of errors, so one definition
    serves both.  The receiver is a runner of a client: the tests for nil
    receivers are left out. *)

From S2P Require Import Prelude GoStrings Json JsonLex Envelope Retention Pending Lifecycle Protocol Run Client.
From S2P Require Import Session ServerRequest Facades.

Local Open Scope string_scope.
Local Open Scope list_scope.

Definition ErrMissingThreadID : error := Sentinel "codexsdk: thread response missing thread id".
Definition ErrMissingTurnID : error := Sentinel "codexsdk: turn response missing turn id".
Definition ErrTurnAdmissionRejected : error := Sentinel "codexsdk: turn admission rejected".

(** [Unwrap] joins the sentinel and the caller's rejection. *)
Definition TurnAdmissionError (e : error) : error := Typed TurnAdmissionT [ErrTurnAdmissionRejected; e].

(** The generated types of the thread and turn calls: their clones through JSON,
    their encoders and decoders, and the fields the runner reads and writes. *)
Class RunnerTypes (Response : Type) := {
  ThreadParams : Type;
  TurnStartParams : Type;
  clone_thread_params : ThreadParams -> res ThreadParams;
  clone_turn_params : TurnStartParams -> res TurnStartParams;
  marshal_thread_params : ThreadParams -> res (list lexeme);
  marshal_turn_params : TurnStartParams -> res (list lexeme);
  turn_ThreadID : TurnStartParams -> string;
  set_ThreadID : string -> TurnStartParams -> TurnStartParams;
  turn_Input : TurnStartParams -> list UserInput;
  clone_response : Response -> res Response;
  thread_ID : Response -> string;
  unmarshal_thread_response : any_map -> res Response;
  unmarshal_turn_response : any_map -> res Turn
}.

Inductive lifecycle_call := StartCall | ResumeCall.
Definition lifecycle_method (k : lifecycle_call) : string :=
  match k with StartCall => MethodThreadStart | ResumeCall => MethodThreadResume end.

Section runner.
Context {PT : ProtocolTypes} {EM : ExperimentalMembers} {Response W : Type} {RT : RunnerTypes Response}.
Abbreviation client := (client (Response := Response)).

(** [StartThreadRunRequest] and [ResumeThreadRunRequest]. *)
Record ThreadRunRequest := {
  Thread : ThreadParams;
  req_Turn : TurnStartParams;
  AdmitTurn : option (Response -> TurnStartParams -> client -> W -> option error * client * W)
}.

Inductive run_event :=
| Called (method : string) (params : option any_map) (exact : exactCallIntent) (c : client)
| Judged (observed : Response) (pending : TurnStartParams) (verdict : option error).

Abbreviation G := (G Response W run_event).
Context (capabilities : option (Nullable InitializeCapabilities)) (input_hash : list UserInput -> string)
        (exchange : string -> option any_map -> exactCallIntent -> client -> W -> res any_map * client * W).

Definition opened_result (k : lifecycle_call) (observed : Response) (run : ThreadRunResult) : run_result Response :=
  match k with StartCall => StartedThreadRun observed run | ResumeCall => ResumedThreadRun observed run end.

(** Allocate a run. *)
Definition allocate_run (thread : string) (initial : run_result Response) : G nat :=
  c ← look;
  let r := fresh (dom (runs c)) in
  _ ← lift (add_run r thread initial); mret r.

Definition admitContinuation (judge : option (Response -> TurnStartParams -> client -> W -> option error * client * W))
    (observed : Response) (pending : TurnStartParams) : G (option error) :=
  match judge with
  | None => mret None
  | Some judge =>
    match clone_response observed with
    | Err e => mret (Some (Errorf "codexsdk: clone lifecycle observation: %w" [e]))
    | Ok observedCopy =>
      match clone_turn_params pending with
      | Err e => mret (Some (Errorf "codexsdk: clone pending turn/start params: %w" [e]))
      | Ok pendingCopy =>
        verdict ← surround (judge observedCopy pendingCopy);
        _ ← emit (Judged observedCopy pendingCopy verdict);
        mret (TurnAdmissionError <$> verdict)
      end
    end
  end.

Definition finishMissingTurnID (r : nat) (turn : Turn) : G unit :=
  _ ← lift (set_runs (alter (setTurn turn) r));
  lift (finishAttachingExactStream r (Some (Errorf "codexsdk: turn/start response missing turn id: %w" [ErrMissingTurnID]))).

(** From the admission of the turn to the attachment of the run. *)
Definition start_turn (request : ThreadRunRequest) (observed : Response) (turnParams : TurnStartParams) (r : nat)
    : G unit :=
  admitted ← admitContinuation (AdmitTurn request) observed turnParams;
  match admitted with
  | Some e => lift (finishAttachingExactStream r (Some e))
  | None =>
    turn ← callProtocolWithExactIntent capabilities Called exchange MethodTurnStart (marshal_turn_params turnParams)
             unmarshal_turn_response {| intent_thread := false; intent_turn := Some r |};
    match turn with
    | Err e => lift (finishAttachingExactStream r (Some e))
    | Ok turn => if String.eqb (turn_ID turn) "" then finishMissingTurnID r turn
                 else lift (attachExactStreamForTurn r turn)
    end
  end.

(** [StartStream] and [ResumeStream]; a stream is its run. *)
Definition OpenStream (k : lifecycle_call) (request : ThreadRunRequest) : G (res nat) :=
  c ← look;
  match checkOpen (c_life c) with
  | Err e => mret (Err e)
  | Ok _ =>
    if present (turn_ThreadID (req_Turn request)) then
      mret (Err (Errorf "codexsdk: ThreadRunRequest.Turn.ThreadID is composition-owned" []))
    else match clone_thread_params (Thread request), clone_turn_params (req_Turn request) with
    | Err e, _ => mret (Err (Errorf "codexsdk: clone thread params: %w" [e]))
    | _, Err e => mret (Err (Errorf "codexsdk: clone turn/start params: %w" [e]))
    | Ok threadParams, Ok turnParams =>
      started ← callProtocolWithExactIntent capabilities Called exchange (lifecycle_method k)
                  (marshal_thread_params threadParams) unmarshal_thread_response
                  {| intent_thread := true; intent_turn := None |};
      match started with
      | Err e => mret (Err e)
      | Ok observed =>
        let initial := opened_result k observed (new_run (exactInputStats input_hash (turn_Input turnParams))) in
        r ← allocate_run (thread_ID observed) initial;
        if String.eqb (thread_ID observed) "" then
          _ ← lift (finish r (Some (Errorf "codexsdk: thread response missing thread id: %w" [ErrMissingThreadID])));
          mret (Ok r)
        else
          registered ← lift (registerAttachingExactStream r);
          match registered with
          | Err e => _ ← lift (finish r (Some e)); mret (Ok r)
          | Ok _ => _ ← start_turn request observed (set_ThreadID (thread_ID observed) turnParams) r; mret (Ok r)
          end
      end
    end
  end.

Definition StartStream := OpenStream StartCall.
Definition ResumeStream := OpenStream ResumeCall.

(** [Close] of a stream; the interrupt it sends to the peer is a call of its own. *)
Definition Close (r : nat) : G (option (string * string)) :=
  c ← look;
  match runs c !! r with
  | None => mret None
  | Some s =>
    if terminal s then mret None
    else _ ← lift (finish r (Some ErrStreamClosed));
         mret (if present (run_turnID s) then Some (run_threadID s, run_turnID s) else None)
  end.

(** [drainExactStream]: wait until the run is over or the context ends, then
    close.  [await] is the wait: whether the run was over first. *)
Definition drainExactStream (clone : run_result Response -> res (run_result Response))
    (await : nat -> client -> W -> option error * client * W) (r : nat)
    : G (option (run_result Response) * option error) :=
  waitErr ← surround (await r);
  c ← look;
  let answer := match runs c !! r with
                | Some s => let '(result, err, _) := waitSnapshot clone s waitErr in (result, err)
                | None => (None, waitErr)
                end in
  _ ← Close r;
  mret answer.

(** [Start] and [Resume]. *)
Definition RunToEnd (k : lifecycle_call) (clone : run_result Response -> res (run_result Response))
    (await : nat -> client -> W -> option error * client * W) (request : ThreadRunRequest)
    : G (option (run_result Response) * option error) :=
  stream ← OpenStream k request;
  match stream with
  | Err e => mret (None, Some e)
  | Ok r => drainExactStream clone await r
  end.
End runner.
Arguments run_event {PT} Response {RT}.

(** * Theorems *)

Section opening.
Context {PT : ProtocolTypes} {EM : ExperimentalMembers} {Response W : Type} {RT : RunnerTypes Response}.
Abbreviation client := (client (Response := Response)).
Context (capabilities : option (Nullable InitializeCapabilities)) (input_hash : list UserInput -> string)
        (exchange : string -> option any_map -> exactCallIntent -> client -> W -> res any_map * client * W).
Implicit Types (s : session Response W (run_event Response)) (request : ThreadRunRequest (Response := Response) (W := W)).

(** The log of an admission that let the turn pass. *)
Definition admission_log request (observed : Response) (pending : TurnStartParams) (l : list (run_event Response)) : Prop :=
  match AdmitTurn request with
  | None => l = []
  | Some _ => exists observed' pending', clone_response observed = Ok observed' /\
                clone_turn_params pending = Ok pending' /\ l = [Judged observed' pending' None]
  end.

Definition no_turn_call (l : list (run_event Response)) : Prop :=
  Forall (fun e => match e with Called m _ _ _ => m <> MethodTurnStart | Judged _ _ _ => True end) l.

Lemma admit_log request observed pending s v s' :
  admitContinuation (AdmitTurn request) observed pending s = Some (v, s') ->
  exists l, s_log s' = l ++ s_log s /\ no_turn_call l /\ (v = None -> admission_log request observed pending l).
Proof.
  unfold admission_log, admitContinuation. destruct (AdmitTurn request) as [judge|].
  2:{ intros [= <- <-]. exists []. by repeat constructor. }
  destruct (clone_response observed) as [obs'|]; [|intros [= <- <-]; exists []; by repeat constructor].
  destruct (clone_turn_params pending) as [pend'|]; [|intros [= <- <-]; exists []; by repeat constructor].
  intros H. apply G_bind_inv in H as (verdict & s1 & H1 & H). apply surround_inv in H1 as [_ Hl].
  apply G_bind_inv in H as (? & s2 & [= _ <-] & H). injection H as <- <-. simpl. rewrite Hl.
  exists [Judged obs' pend' verdict]. split; [done|]. split; [by repeat constructor|].
  destruct verdict; [done|]. eauto 10.
Qed.

(** What the turn of an opened stream logged. *)
Definition turn_log request (observed : Response) (pending : TurnStartParams) (r : nat) (l : list (run_event Response)) : Prop :=
  no_turn_call l \/
  exists params c admission, encodeProtocolParams (marshal_turn_params pending) = Ok params /\
    admission_log request observed pending admission /\ no_turn_call admission /\
    l = Called MethodTurnStart (Some params) {| intent_thread := false; intent_turn := Some r |} c :: admission.

Lemma start_turn_log request observed pending r s s' :
  start_turn capabilities exchange request observed pending r s = Some (tt, s') ->
  exists l, s_log s' = l ++ s_log s /\ turn_log request observed pending r l.
Proof.
  intros H. apply G_bind_inv in H as (v & s1 & H1 & H). apply admit_log in H1 as (l & Hl & Hn & Ha).
  destruct v as [e|].
  { apply lift_inv in H as (_ & _ & Hl1). exists l. split; [congruence | by left]. }
  specialize (Ha eq_refl). apply G_bind_inv in H as (turn & s2 & H2 & H).
  assert (s_log s' = s_log s2) as ->.
  { destruct turn as [turn|]; [|by apply lift_inv in H as (_ & _ & ?)].
    destruct (String.eqb _ _); [|by apply lift_inv in H as (_ & _ & ?)].
    apply G_bind_inv in H as (? & s3 & H3 & H). apply lift_inv in H as (_ & _ & ->). by apply lift_inv in H3 as (_ & _ & ?). }
  apply call_spec in H2 as [(e & _ & -> & _) | (params & answer & Hc & -> & _)].
  - exists l. split; [done | by left].
  - apply checks_spec in Hc as [Hc _]. eexists (_ :: l). rewrite Hl. split; [done|]. right. eauto 10.
Qed.

Lemma lifecycle_not_turn k : lifecycle_method k <> MethodTurnStart.
Proof. by destruct k. Qed.

(** An opened stream, piece by piece. *)
Lemma open_inv k request s x s' :
  OpenStream capabilities input_hash exchange k request s = Some (x, s') ->
  (exists e, x = Err e /\ exists l, s_log s' = l ++ s_log s /\ no_turn_call l) \/
  exists threadParams turnParams params observed s1 s2 r,
    clone_thread_params (Thread request) = Ok threadParams /\ clone_turn_params (req_Turn request) = Ok turnParams /\
    callProtocolWithExactIntent capabilities Called exchange (lifecycle_method k) (marshal_thread_params threadParams)
      unmarshal_thread_response {| intent_thread := true; intent_turn := None |} s = Some (Ok observed, s1) /\
    s_log s1 = Called (lifecycle_method k) (Some params) {| intent_thread := true; intent_turn := None |} (s_client s) :: s_log s /\
    x = Ok r /\ s_log s2 = s_log s1 /\ is_Some (runs (s_client s2) !! r) /\
    ((s_log s' = s_log s2 /\ over r (s_client s')) \/
     (thread_ID observed <> "" /\
      start_turn capabilities exchange request observed (set_ThreadID (thread_ID observed) turnParams) r s2 = Some (tt, s'))).
Proof.
  intros H. apply G_bind_inv in H as (? & ? & [= <- <-] & H).
  assert (forall e, (mret (Err e) : G Response W (run_event Response) (res nat)) s = Some (x, s') ->
    exists e, x = Err e /\ exists l, s_log s' = l ++ s_log s /\ no_turn_call l) as Hstop.
  { intros e [= <- <-]. exists e. split; [done|]. exists []. by repeat constructor. }
  destruct (checkOpen _); [|left; by eapply Hstop]. destruct (present _); [left; by eapply Hstop|].
  destruct (clone_thread_params _) as [threadParams|] eqn:Et; [|left; by eapply Hstop].
  destruct (clone_turn_params _) as [turnParams|] eqn:Eu; [|left; by eapply Hstop].
  apply G_bind_inv in H as (started & s1 & H1 & H). pose proof H1 as Hcall.
  apply call_spec in H1 as [(e & -> & -> & _) | (params & answer & _ & Hl1 & _ & _)]; [left; by eapply Hstop|].
  destruct started as [observed|e].
  2:{ injection H as <- <-. left. exists e. split; [done|]. rewrite Hl1. eexists [_]. split; [done|].
      repeat constructor. apply lifecycle_not_turn. }
  right. apply G_bind_inv in H as (r & s2 & H2 & H).
  assert (s_log s2 = s_log s1 /\ is_Some (runs (s_client s2) !! r)) as [Hl2 Hk2].
  { apply G_bind_inv in H2 as (? & ? & [= <- <-] & H2). apply G_bind_inv in H2 as (? & s3 & H3 & H2).
    injection H2 as <- <-. apply lift_inv in H3 as (H3 & _ & Hl). injection H3 as _ <-. simpl.
    rewrite lookup_insert_eq. eauto. }
  destruct (String.eqb_spec (thread_ID observed) "") as [_|Hthread].
  - apply G_bind_inv in H as ([] & s3 & H3 & H). injection H as <- <-. apply lift_inv in H3 as (H3 & _ & Hl3).
    exists threadParams, turnParams, params, observed, s1, s2, r. split_and!; try done.
    left. split; [done|]. by eapply finish_over.
  - apply G_bind_inv in H as (reg & s3 & H3 & H). apply lift_inv in H3 as (H3 & _ & Hl3).
    pose proof (run_known r _ _ (advancing_register _ _ _ _ H3) Hk2) as Hk3.
    exists threadParams, turnParams, params, observed, s1, s3, r. destruct reg as [[]|e].
    + apply G_bind_inv in H as ([] & s4 & H4 & H). injection H as <- <-.
      split_and!; try done; [congruence|]. by right.
    + apply G_bind_inv in H as ([] & s4 & H4 & H). injection H as <- <-. apply lift_inv in H4 as (H4 & _ & Hl4).
      split_and!; try done; [congruence|]. left. split; [done|]. by eapply finish_over.
Qed.
End opening.

(** C6: a turn starts only after everything before it went through: the log of
    an opened stream holds at most one [turn/start], and then it is the last
    call, for the run that is returned, with the cloned parameters of the
    request and the thread id that the peer reported; the thread call before it
    was answered with that observation; and if the application has an admission
    callback it was asked in between, with copies of exactly that observation
    and those parameters, and accepted. *)
Theorem turn_starts_admitted {PT : ProtocolTypes} {EM : ExperimentalMembers} {Response W : Type}
    {RT : RunnerTypes Response} (capabilities : option (Nullable InitializeCapabilities))
    (input_hash : list UserInput -> string)
    (exchange : string -> option any_map -> exactCallIntent -> client -> W -> res any_map * client * W)
    (k : lifecycle_call) (request : ThreadRunRequest) (s s' : session Response W (run_event Response)) x
    (H : OpenStream capabilities input_hash exchange k request s = Some (x, s')) :
  exists l, s_log s' = l ++ s_log s /\
  (no_turn_call l \/
   exists r observed answer c1 w1 turnParams params0 params c admission,
     x = Ok r /\ thread_ID observed <> "" /\ clone_turn_params (req_Turn request) = Ok turnParams /\
     exchange (lifecycle_method k) (Some params0) {| intent_thread := true; intent_turn := None |} (s_client s) (s_world s)
       = (Ok answer, c1, w1) /\ unmarshal_thread_response answer = Ok observed /\
     encodeProtocolParams (marshal_turn_params (set_ThreadID (thread_ID observed) turnParams)) = Ok params /\
     admission_log request observed (set_ThreadID (thread_ID observed) turnParams) admission /\ no_turn_call admission /\
     l = Called MethodTurnStart (Some params) {| intent_thread := false; intent_turn := Some r |} c :: admission ++
         [Called (lifecycle_method k) (Some params0) {| intent_thread := true; intent_turn := None |} (s_client s)]).
Proof.
  apply open_inv in H as [(e & -> & l & Hl & Hn) | H]; [exists l; split; [done | by left]|].
  destruct H as (threadParams & turnParams & params0 & observed & s1 & s2 & r & _ & Hu & Hcall & Hl1 & -> & Hl2 & _ & H).
  assert (no_turn_call [Called (lifecycle_method k) (Some params0) {| intent_thread := true; intent_turn := None |} (s_client s)]) as Hn0.
  { repeat constructor. apply lifecycle_not_turn. }
  destruct H as [[Hl _] | [Hthread H]].
  { eexists [_]. split; [by rewrite Hl, Hl2, Hl1 | by left]. }
  apply start_turn_log in H as (l & Hl & Ht). rewrite Hl2, Hl1 in Hl.
  eexists (l ++ [_]). rewrite <- app_assoc. split; [exact Hl|].
  destruct Ht as [Hn | (params & c & admission & He & Ha & Hn & ->)]; [left; by apply Forall_app|].
  right. apply call_spec in Hcall as [(e & Hx & _) | (params' & answer & _ & Hl' & Hx & Hr)]; [done|].
  rewrite Hl1 in Hl'. injection Hl' as <-. destruct answer as [answer|]; [|done].
  cbn in Hr. unfold decodeProtocolResponse in Hr. destruct (unmarshal_thread_response answer) eqn:Ed; [|done].
  injection Hr as <-. eexists r, observed, answer, _, _, turnParams, params0, params, c, admission. by split_and!.
Qed.

(** C4: no stream is left behind: when the surroundings only advance the runs
    they touch, a stream that is returned belongs to a run that is over, or the
    peer answered its [turn/start] with a turn, and the run has that turn and is
    registered under it: every notification of the turn that does not name
    another thread has the run among its targets.  No path leaves a run open that
    nothing will ever end. *)
Theorem stream_never_orphaned {PT : ProtocolTypes} {EM : ExperimentalMembers} {Response W : Type}
    {RT : RunnerTypes Response} (capabilities : option (Nullable InitializeCapabilities))
    (input_hash : list UserInput -> string)
    (exchange : string -> option any_map -> exactCallIntent -> client -> W -> res any_map * client * W)
    (k : lifecycle_call) (request : ThreadRunRequest) (s s' : session Response W (run_event Response)) r
    (Hexchange : forall m p i c w a c' w', exchange m p i c w = (a, c', w') -> advances c c')
    (Hadmit : forall judge o p c w a c' w', AdmitTurn request = Some judge -> judge o p c w = (a, c', w') -> advances c c')
    (H : OpenStream capabilities input_hash exchange k request s = Some (Ok r, s')) :
  over r (s_client s') \/
  exists params answer c w c1 w1 turn,
    exchange MethodTurnStart (Some params) {| intent_thread := false; intent_turn := Some r |} c w = (Ok answer, c1, w1) /\
    unmarshal_turn_response answer = Ok turn /\ turn_ID turn <> "" /\ routed r (turn_ID turn) (s_client s') /\
    (forall i, turnID i = turn_ID turn -> matchesRun i (run_thread (s_client s') r) (turn_ID turn) = true ->
     r ∈ turn_targets (s_client s') i).
Proof.
  apply open_inv in H as [(e & ? & _) | H]; [done|].
  destruct H as (threadParams & turnParams & params0 & observed & s1 & s2 & r' & _ & _ & _ & _ & [= <-] & _ & Hk & H).
  destruct H as [[_ H] | [_ H]]; [by left|].
  apply G_bind_inv in H as (v & s3 & H3 & H).
  assert (advances (s_client s2) (s_client s3)) as A3.
  { unfold admitContinuation in H3. destruct (AdmitTurn request) as [judge|] eqn:Ea; [|by injection H3 as _ <-].
    destruct (clone_response _); [|by injection H3 as _ <-]. destruct (clone_turn_params _); [|by injection H3 as _ <-].
    apply G_bind_inv in H3 as (verdict & s4 & H4 & H3). apply surround_inv in H4 as [H4 _].
    apply G_bind_inv in H3 as (? & s5 & [= _ <-] & H3). injection H3 as _ <-. by eapply Hadmit. }
  pose proof (run_known r _ _ A3 Hk) as Hk3. destruct v as [e|].
  { apply lift_inv in H as (H & _). left. by eapply finishAttaching_over. }
  apply G_bind_inv in H as (turn & s4 & H4 & H).
  assert (advances (s_client s3) (s_client s4) /\ forall t, turn = Ok t -> exists params answer,
    exchange MethodTurnStart (Some params) {| intent_thread := false; intent_turn := Some r |} (s_client s3) (s_world s3) =
      (Ok answer, s_client s4, s_world s4) /\ unmarshal_turn_response answer = Ok t) as [A4 Hans].
  { apply call_spec in H4 as [(? & -> & -> & _) | (params & answer & _ & _ & H4 & ->)]; [done|]. split; [by eapply Hexchange|].
    intros t Hdec. destruct answer as [answer|]; [|done]. exists params, answer. split; [done|].
    cbn in Hdec. unfold decodeProtocolResponse in Hdec. by destruct (unmarshal_turn_response answer). }
  pose proof (run_known r _ _ A4 Hk3) as Hk4. destruct turn as [turn|e].
  2:{ apply lift_inv in H as (H & _). left. by eapply finishAttaching_over. }
  destruct (String.eqb_spec (turn_ID turn) "") as [|Hid].
  - apply G_bind_inv in H as (? & s5 & H5 & H). apply lift_inv in H5 as (H5 & _). apply lift_inv in H as (H & _).
    left. eapply finishAttaching_over; [exact H|]. eapply run_known; [by eapply advancing_set_turn | done].
  - apply lift_inv in H as (H & _). apply attach_routes in H as [Hr|?]; [right | by left | done].
    destruct (Hans turn eq_refl) as (params & answer & Hx & Hd). eexists params, answer, _, _, _, _, turn. split_and!; try done.
    intros i. by apply routed_targeted.
Qed.

(** * A small runner *)

(** Turn parameters are their thread id; the peer answers every call, and the
    application admits every turn. *)
Definition sample_runner : RunnerTypes unit := {|
  ThreadParams := unit; TurnStartParams := string; clone_thread_params := Ok; clone_turn_params := Ok;
  marshal_thread_params _ := Ok [LBraceO; LBraceC];
  marshal_turn_params t := Ok [LBraceO; LStr "threadId"; LColon; LStr t; LBraceC];
  turn_ThreadID t := t; set_ThreadID id _ := id; turn_Input _ := []; clone_response := Ok; thread_ID _ := "t9";
  unmarshal_thread_response _ := Ok tt;
  unmarshal_turn_response _ := Ok {| turn_ID := "u9"; turn_Status := "inProgress"; turn_Items := [] |} |}.

Definition sample_exchange (_ : string) (_ : option any_map) (_ : exactCallIntent)
    (c : client (PT := sample_protocol) (Response := unit)) (w : unit) := (Ok (∅ : any_map), c, w).
Definition sample_admit (_ : unit) (_ : string) (c : client (PT := sample_protocol) (Response := unit)) (w : unit) :=
  (@None error, c, w).
Definition sample_request : ThreadRunRequest (PT := sample_protocol) (W := unit) (RT := sample_runner) :=
  Build_ThreadRunRequest (PT := sample_protocol) (W := unit) (RT := sample_runner) tt "" (Some sample_admit).
Definition sample_start : session (PT := sample_protocol) unit unit (run_event (PT := sample_protocol) (RT := sample_runner) unit) :=
  {| s_client := open_client; s_world := tt; s_log := [] |}.

Definition sample_open := OpenStream (PT := sample_protocol) (EM := sample_members) (RT := sample_runner)
  None (fun _ => "") sample_exchange StartCall sample_request sample_start.
Lemma sample_opens : sample_open = Some (Ok 1, end_of sample_start sample_open).
Proof. apply ends_with. vm_compute. reflexivity. Qed.

Definition first_call (l : list (run_event (PT := sample_protocol) (RT := sample_runner) unit)) : string :=
  match l with Called m _ _ _ :: _ => m | _ => "" end.
Lemma sample_open_log : first_call (s_log (end_of sample_start sample_open)) = MethodTurnStart /\
  length (s_log (end_of sample_start sample_open)) = 3.
Proof. vm_compute. done. Qed.

Lemma turn_starts_admitted_witness :
  exists turnParams c admission rest, clone_turn_params (RunnerTypes := sample_runner) "" = Ok turnParams /\
    s_log (end_of sample_start sample_open) =
      Called (RT := sample_runner) MethodTurnStart (Some {["threadId" := JSONString "t9"]})
        {| intent_thread := false; intent_turn := Some 1 |} c :: admission ++ rest /\
    admission_log (RT := sample_runner) sample_request tt "t9" admission.
Proof.
  destruct (turn_starts_admitted (PT := sample_protocol) (EM := sample_members) (RT := sample_runner)
              None (fun _ => "") sample_exchange StartCall sample_request sample_start _ _ sample_opens)
    as (l & Hl & [Hn | (r & observed & answer & c1 & w1 & tp & p0 & p & c & adm & Hx & Ht & Hu & _ & _ & Hp & Ha & _ & El)]).
  - exfalso. rewrite app_nil_r in Hl. rewrite <- Hl in Hn. destruct sample_open_log as [Hf _].
    destruct (s_log _) as [|[m ? ? ?|]]; [discriminate Hf | | discriminate Hf].
    apply Forall_cons in Hn as [Hn _]. exact (Hn Hf).
  - injection Hx as <-. exists tp, c, adm. eexists. split; [exact Hu|]. split; [|by destruct observed].
    rewrite Hl, El, app_nil_r. assert (p = {["threadId" := JSONString "t9"]}) as -> by (vm_compute in Hp; by injection Hp as <-).
    reflexivity.
Defined.

Lemma stream_never_orphaned_witness :
  over 1 (s_client (end_of sample_start sample_open)) \/ routed 1 "u9" (s_client (end_of sample_start sample_open)).
Proof.
  destruct (stream_never_orphaned (PT := sample_protocol) (EM := sample_members) (RT := sample_runner)
           None (fun _ => "") sample_exchange StartCall sample_request sample_start (end_of sample_start sample_open) 1)
    as [Ho | (params & answer & c & w & c1 & w1 & turn & _ & [= <-] & _ & Hr & _)].
  - intros m p i c w a c' w' [= _ <- _]. done.
  - intros judge o p c w a c' w' [= <-] [= _ <- _]. done.
  - exact sample_opens.
  - by left.
  - right. exact Hr.
Defined.
