(* ===== verification/Transport.v ===== *)
(** The reader of the transport: [readFrame], [readLoopWithLimit] and
    [ingestJSONRPCLine] of [src/codexsdk/client.go].

    The peer's output is the bytes still to come and the error that follows
    them ([io.EOF] when it closes its end).  [read_slice] is
    [bufio.Reader.ReadSlice] with the default buffer of 4096 bytes.  Scanning a
    line into lexemes is a parameter, as are the application's callback and the
    write of a frame.  Before each frame the other goroutines may change the
    client in any way. *)

From S2P Require Import Prelude GoStrings Json JsonLex Envelope Retention Pending Lifecycle Protocol Run Client.
From S2P Require Import Session ServerRequest.
From Stdlib Require Import Ascii.

Local Open Scope string_scope.
Local Open Scope list_scope.

Definition io_EOF : error := Sentinel "EOF".
Definition errInboundFrameTooLarge : error := Sentinel "codexsdk: app-server JSON-RPC frame too large".
Definition errInboundFrameUnterminated : error := Sentinel "codexsdk: app-server JSON-RPC frame missing newline".
Definition maxInboundJSONRPCFrameBytes : Z := Z.shiftl 16 20.

Definition newline : ascii := "010"%char.

(** * Frames *)

Inductive slice_end := SliceLine | SliceFull | SliceEnd.

(** [ReadSlice] of at most [n] bytes: through the newline, a full buffer, or all
    there is. *)
Fixpoint read_slice (n : nat) (s : string) : string * string * slice_end :=
  match n with
  | O => ("", s, SliceFull)
  | S n' =>
    match s with
    | EmptyString => ("", "", SliceEnd)
    | String c s' =>
      if Ascii.eqb c newline then (String c "", s', SliceLine)
      else let '(fragment, rest, e) := read_slice n' s' in (String c fragment, rest, e)
    end
  end.

Definition bufio_size : nat := 4096.

Definition out_of_fuel : error := Sentinel "out of fuel".

(** The loop of [readFrame]; the result carries the bytes left. *)
Fixpoint read_frame_loop (fuel : nat) (maxBytes : Z) (ending : error) (frame rest : string) : res string * string :=
  match fuel with
  | O => (Err out_of_fuel, rest)
  | S fuel' =>
    let '(fragment, rest', e) := read_slice bufio_size rest in
    let frame' := frame +:+ fragment in
    let consumed := Z.of_nat (String.length frame') in
    if negb (String.eqb fragment "") && (maxBytes <? consumed)%Z then
      (Err (Errorf "%w: prefix_bytes=%d prefix_sha256=%s" [errInboundFrameTooLarge]), rest')
    else match e with
         | SliceLine => (Ok frame', rest')
         | SliceFull => read_frame_loop fuel' maxBytes ending frame' rest'
         | SliceEnd =>
           (Err (if errors_is "EOF" ending then
                   if (consumed =? 0)%Z then io_EOF
                   else Errorf "%w: bytes=%d sha256=%s" [errInboundFrameUnterminated]
                 else Errorf "codexsdk: read app-server JSON-RPC frame bytes=%d sha256=%s: %w" [ending]), rest')
         end
  end.

Definition readFrame (maxBytes : Z) (ending : error) (rest : string) : res string * string :=
  if (maxBytes <=? 0)%Z then (Err (Errorf "codexsdk: invalid inbound JSON-RPC frame limit" []), rest)
  else read_frame_loop (S (String.length rest)) maxBytes ending "" rest.

(** * The loop *)

Section reader.
Context {PT : ProtocolTypes} {RT : ServerRequestTypes} {Response W : Type}.
Abbreviation client := (client (Response := Response)).
Abbreviation G := (G Response W (event Response)).
Context (write_frame : outgoing -> client -> W -> option error * client * W)
        (scan : string -> list lexeme) (validate_raw_item : option any_map -> bool)
        (reflect_raw : RawNotification -> rvalue) (digest : option any_map -> Z * string)
        (interleave : client -> W -> client * W).

(** The tasks are the goroutines that answer requests. *)
Definition ingestJSONRPCLine (line : string) : G (res (option task)) :=
  match decodeJSONRPCEnvelope (scan line) with
  | Err e => mret (Err e)
  | Ok frame =>
    let m := message frame in
    match env_kind frame with
    | jsonRPCRequest => t ← handleServerRequest write_frame m; mret (Ok t)
    | jsonRPCNotification =>
      _ ← lift (routeNotification validate_raw_item reflect_raw digest
                  {| envelope := Some m; method := json_string_at m "method"; params := object_at m "params";
                     evidence := None; n_retained := None |});
      mret (Ok None)
    | jsonRPCResponse | jsonRPCError => _ ← lift (routeResponse m); mret (Ok None)
    end
  end.

Definition app_server_closed : error := Errorf "codexsdk: app-server closed stdout" [].

(** The lines read, the goroutines started, and whether the loop returned. *)
Fixpoint readLoopWithLimit (fuel : nat) (maxBytes : Z) (ending : error) (rest : string)
    : G (list string * list task * bool) :=
  match fuel with
  | O => mret ([], [], false)
  | S fuel' =>
    _ ← surround (fun c w => let '(c, w) := interleave c w in (tt, c, w));
    match readFrame maxBytes ending rest with
    | (Err e, _) =>
      c ← look;
      if isClosed c then mret ([], [], true)
      else _ ← lift (failClient (if errors_is "EOF" e then app_server_closed else e)); mret ([], [], true)
    | (Ok line, rest') =>
      ingested ← ingestJSONRPCLine line;
      match ingested with
      | Err e =>
        _ ← lift (failClient (Errorf "codexsdk: invalid app-server JSON-RPC line bytes=%d sha256=%s: %w" [e]));
        mret ([line], [], true)
      | Ok t =>
        '(lines, tasks, finished) ← readLoopWithLimit fuel' maxBytes ending rest';
        mret (line :: lines, match t with Some t => t :: tasks | None => tasks end, finished)
      end
    end
  end.

Definition readLoop (ending : error) (stdout : string) : G (list string * list task * bool) :=
  readLoopWithLimit (S (String.length stdout)) maxInboundJSONRPCFrameBytes ending stdout.
End reader.

(** * Theorems *)

(** The first line with its newline, what follows it, and whether there is one. *)
Fixpoint split_line (s : string) : string * string * bool :=
  match s with
  | EmptyString => ("", "", false)
  | String c s' =>
    if Ascii.eqb c newline then (String c "", s', true)
    else let '(line, rest, found) := split_line s' in (String c line, rest, found)
  end.

Lemma split_line_app s line rest found : split_line s = (line, rest, found) -> s = line +:+ rest.
Proof.
  revert line rest found. induction s as [|c s IH]; intros line rest found; simpl; [by intros [= <- <- _]|].
  destruct (Ascii.eqb c newline); [by intros [= <- <- _]|].
  destruct (split_line s) as [[l r] f]. intros [= <- <- _]. rewrite app_String. f_equal. by eapply IH.
Qed.

Lemma split_line_none s line rest : split_line s = (line, rest, false) -> line = s /\ rest = "".
Proof.
  revert line rest. induction s as [|c s IH]; intros line rest; simpl; [by intros [= <- <-]|].
  destruct (Ascii.eqb c newline); [done|].
  destruct (split_line s) as [[l r] f]. intros [= <- <- ->]. destruct (IH l r eq_refl) as [-> ->]. done.
Qed.

Lemma split_line_found_length s line rest : split_line s = (line, rest, true) -> 0 < String.length line.
Proof.
  destruct s as [|c s]; simpl; [done|]. destruct (Ascii.eqb c newline); [intros [= <- _]; simpl; lia|].
  destruct (split_line s) as [[l r] f]. intros [= <- _ _]. simpl. lia.
Qed.

Lemma read_slice_spec n s fragment rest e :
  read_slice n s = (fragment, rest, e) ->
  match e with
  | SliceLine => split_line s = (fragment, rest, true)
  | SliceEnd => split_line s = (fragment, rest, false) /\ rest = ""
  | SliceFull => String.length fragment = n /\ s = fragment +:+ rest /\
                 forall l r f, split_line rest = (l, r, f) -> split_line s = (fragment +:+ l, r, f)
  end.
Proof.
  revert s fragment rest. induction n as [|n IH]; intros s fragment rest; simpl; [by intros [= <- <- <-]|].
  destruct s as [|c s]; [by intros [= <- <- <-]|]. simpl.
  destruct (Ascii.eqb c newline); [by intros [= <- <- <-]|].
  destruct (read_slice n s) as [[f r] e'] eqn:E. intros [= <- <- <-]. specialize (IH _ _ _ E). destruct e'.
  - by rewrite IH.
  - destruct IH as (Hl & -> & Hs). split_and!; [simpl; lia | done|]. intros l r' f' Hr. by rewrite (Hs _ _ _ Hr).
  - destruct IH as [-> ->]. done.
Qed.

(** What reading a frame should do, by the first line alone. *)
Definition frame_spec (maxBytes : Z) (ending : error) (frame s : string) : res string :=
  let '(line, _, found) := split_line s in
  if (maxBytes <? Z.of_nat (String.length (frame +:+ line)))%Z then
    Err (Errorf "%w: prefix_bytes=%d prefix_sha256=%s" [errInboundFrameTooLarge])
  else if found then Ok (frame +:+ line)
  else Err (if errors_is "EOF" ending then
              if String.eqb (frame +:+ line) "" then io_EOF
              else Errorf "%w: bytes=%d sha256=%s" [errInboundFrameUnterminated]
            else Errorf "codexsdk: read app-server JSON-RPC frame bytes=%d sha256=%s: %w" [ending]).

Lemma length_zero s : (Z.of_nat (String.length s) =? 0)%Z = String.eqb s "".
Proof. by destruct s. Qed.

Lemma read_frame_loop_spec fuel maxBytes ending frame s :
  String.length s < fuel -> (Z.of_nat (String.length frame) <= maxBytes)%Z ->
  (read_frame_loop fuel maxBytes ending frame s).1 = frame_spec maxBytes ending frame s /\
  forall line, frame_spec maxBytes ending frame s = Ok line ->
    exists l, split_line s = (l, (read_frame_loop fuel maxBytes ending frame s).2, true) /\ line = frame +:+ l.
Proof.
  revert frame s. induction fuel as [|fuel IH]; intros frame s Hf Hm; [lia|].
  cbn [read_frame_loop]. destruct (read_slice bufio_size s) as [[fragment rest] e] eqn:Er.
  apply read_slice_spec in Er. unfold frame_spec.
  destruct e.
  - rewrite Er. pose proof (split_line_found_length _ _ _ Er).
    assert (String.eqb fragment "" = false) as -> by (destruct fragment; simpl in *; [lia | done]). simpl.
    destruct (_ <? _)%Z; simpl; (split; [done|]); [done|]. intros line [= <-]. eauto.
  - destruct Er as (Hl & Hs & Hsp). destruct (split_line rest) as [[l r] f] eqn:El.
    rewrite (Hsp _ _ _ eq_refl).
    assert (String.eqb fragment "" = false) as -> by (destruct fragment; [discriminate Hl | done]). simpl.
    assert (String.length s = bufio_size + String.length rest) as Hlen by (by rewrite Hs, str_length_app, Hl).
    destruct (Z.ltb_spec maxBytes (Z.of_nat (String.length (frame +:+ fragment)))) as [Hbig|Hok].
    + assert ((maxBytes <? Z.of_nat (String.length (frame +:+ (fragment +:+ l))))%Z = true) as ->.
      { apply Z.ltb_lt. rewrite <- str_app_assoc, (str_length_app (frame +:+ fragment)). lia. }
      done.
    + unfold bufio_size in Hlen. destruct (IH (frame +:+ fragment) rest) as [H1 H2]; [lia | done|].
      unfold frame_spec in H1, H2. rewrite El in H1, H2. rewrite !str_app_assoc in H1, H2.
      split; [exact H1|]. intros line Hline. destruct (H2 line Hline) as (l' & Hl' & ->).
      injection Hl' as <- -> ->. exists (fragment +:+ l). by rewrite str_app_assoc.
  - destruct Er as [Er ->]. rewrite Er, length_zero. destruct (split_line_none _ _ _ Er) as [-> _].
    destruct (String.eqb_spec s "") as [->|Hn]; simpl.
    + rewrite str_app_nil_r. assert ((maxBytes <? Z.of_nat (String.length frame))%Z = false) as -> by (apply Z.ltb_ge; lia).
      done.
    + destruct (_ <? _)%Z; done.
Qed.

(** Reading a frame in fragments is reading a line: for every byte limit
    and every buffering the result is the first line with its newline when it
    fits, the bytes after it stay for the next frame, a longer one is refused
    as too large whether or not its end has arrived, the end of the stream is
    reported only between frames, and a cut-off frame is an error of its own. *)
Theorem readFrame_reads_line (maxBytes : Z) (ending : error) (s : string) (Hmax : (0 < maxBytes)%Z) :
  (readFrame maxBytes ending s).1 = frame_spec maxBytes ending "" s /\
  forall line, (readFrame maxBytes ending s).1 = Ok line ->
    split_line s = (line, (readFrame maxBytes ending s).2, true) /\ s = line +:+ (readFrame maxBytes ending s).2.
Proof.
  unfold readFrame. assert ((maxBytes <=? 0)%Z = false) as -> by (apply Z.leb_gt; lia).
  destruct (read_frame_loop_spec (S (String.length s)) maxBytes ending "" s) as [H1 H2]; [lia | simpl; lia|].
  split; [exact H1|]. intros line Hline. rewrite H1 in Hline. destruct (H2 line Hline) as (l & Hl & ->).
  rewrite app_Empty. split; [done|]. by eapply split_line_app.
Qed.

Lemma readFrame_reads_line_witness :
  (readFrame 4 io_EOF ("ab" +:+ String newline "cd")).1 = Ok ("ab" +:+ String newline "") /\
  "ab" +:+ String newline "cd" = ("ab" +:+ String newline "") +:+ "cd".
Proof.
  assert (readFrame 4 io_EOF ("ab" +:+ String newline "cd") = (Ok ("ab" +:+ String newline ""), "cd")) as E
    by (vm_compute; reflexivity).
  destruct (readFrame_reads_line 4 io_EOF ("ab" +:+ String newline "cd") eq_refl) as [_ H].
  rewrite E in *. split; [reflexivity|]. apply (H _ eq_refl).
Defined.

(** A whole line: its only newline is its last byte, and it fits. *)
Definition whole_line (maxBytes : Z) (line : string) : Prop :=
  split_line line = (line, "", true) /\ (Z.of_nat (String.length line) <= maxBytes)%Z.

Lemma split_line_whole s line rest : split_line s = (line, rest, true) -> split_line line = (line, "", true).
Proof.
  revert line rest. induction s as [|c s IH]; intros line rest; simpl; [done|].
  destruct (Ascii.eqb c newline) eqn:Ec; [intros [= <- _]; simpl; by rewrite Ec|].
  destruct (split_line s) as [[l r] f]. intros [= <- _ ->]. simpl. rewrite Ec. by rewrite (IH l r eq_refl).
Qed.

Lemma readFrame_line maxBytes ending s line rest :
  (0 < maxBytes)%Z -> readFrame maxBytes ending s = (Ok line, rest) -> whole_line maxBytes line /\ s = line +:+ rest.
Proof.
  intros Hm H. destruct (read_frame_loop_spec (S (String.length s)) maxBytes ending "" s) as [H1 H2]; [lia | simpl; lia|].
  unfold readFrame in H. assert ((maxBytes <=? 0)%Z = false) as Hz by (apply Z.leb_gt; lia). rewrite Hz in H.
  rewrite H in H1, H2. simpl in H1, H2. destruct (H2 line (eq_sym H1)) as (l & Hl & ->). rewrite app_Empty in *.
  split; [|by eapply split_line_app]. split; [by eapply split_line_whole|].
  unfold frame_spec in H1. rewrite Hl, app_Empty in H1. destruct (Z.ltb_spec maxBytes (Z.of_nat (String.length l))); [done | lia].
Qed.

Definition concat_lines (lines : list string) : string := foldr (fun l acc => l +:+ acc) "" lines.

Section loop.
Context {PT : ProtocolTypes} {RT : ServerRequestTypes} {Response W : Type}.
Context (write_frame : outgoing -> client (Response := Response) -> W -> option error * client (Response := Response) * W)
        (scan : string -> list lexeme) (validate_raw_item : option any_map -> bool)
        (reflect_raw : RawNotification -> rvalue) (digest : option any_map -> Z * string)
        (interleave : client (Response := Response) -> W -> client (Response := Response) * W).

Lemma reader_spec fuel maxBytes ending rest s lines tasks finished s' :
  (0 < maxBytes)%Z -> String.length rest < fuel ->
  readLoopWithLimit write_frame scan validate_raw_item reflect_raw digest interleave fuel maxBytes ending rest s =
    Some ((lines, tasks, finished), s') ->
  finished = true /\ isClosed (s_client s') = true /\
  (exists left, rest = concat_lines lines +:+ left) /\ Forall (whole_line maxBytes) lines /\
  length tasks <= length lines.
Proof.
  intros Hm. revert rest s lines tasks finished. induction fuel as [|fuel IH]; intros rest s lines tasks finished Hf H; [lia|].
  cbn [readLoopWithLimit] in H. apply G_bind_inv in H as (? & s1 & H1 & H).
  destruct (readFrame maxBytes ending rest) as [[line|e] rest'] eqn:Er.
  - apply readFrame_line in Er as [Hw Hr]; [|done]. apply G_bind_inv in H as (ingested & s2 & H2 & H).
    destruct ingested as [t|e].
    + apply G_bind_inv in H as ([[lines' tasks'] fin'] & s3 & H3 & H). injection H as <- <- <- <-.
      assert (0 < String.length line) as Hpos by (destruct Hw as [Hw _]; by eapply split_line_found_length).
      apply IH in H3 as (-> & Hc & [left Hl] & Hall & Hlen); [|rewrite Hr, str_length_app in Hf; lia].
      split_and!; [done | done | | by constructor | destruct t; simpl; lia].
      exists left. rewrite Hr, Hl. simpl. by rewrite str_app_assoc.
    + apply G_bind_inv in H as ([] & s3 & H3 & H). injection H as <- <- <- <-. apply lift_inv in H3 as (H3 & _).
      split_and!; [done | by eapply failClient_closed | | by constructor | simpl; lia].
      exists rest'. simpl. by rewrite str_app_nil_r.
  - apply G_bind_inv in H as (? & ? & [= <- <-] & H). destruct (isClosed (s_client s1)) eqn:Ec.
    + injection H as <- <- <- <-. split_and!; [done | done | by exists rest | constructor | simpl; lia].
    + apply G_bind_inv in H as ([] & s3 & H3 & H). injection H as <- <- <- <-. apply lift_inv in H3 as (H3 & _).
      split_and!; [done | by eapply failClient_closed | by exists rest | constructor | simpl; lia].
Qed.
End loop.

(** C11: the reader ingests the complete lines of the peer's output in order,
    each once and none skipped, each within the frame limit, and starts at most
    one goroutine for each; the recursion bound is never reached; and however it
    ends (end of stream, read error, oversized or cut-off frame, invalid line)
    the client is closed when it returns. *)
Theorem reader_closes_client {PT : ProtocolTypes} {RT : ServerRequestTypes} {Response W : Type}
    (write_frame : outgoing -> client (Response := Response) -> W -> option error * client (Response := Response) * W)
    (scan : string -> list lexeme) (validate_raw_item : option any_map -> bool)
    (reflect_raw : RawNotification -> rvalue) (digest : option any_map -> Z * string)
    (interleave : client (Response := Response) -> W -> client (Response := Response) * W) (ending : error) (stdout : string)
    (s s' : session Response W (event Response)) lines tasks finished
    (H : readLoop write_frame scan validate_raw_item reflect_raw digest interleave ending stdout s =
         Some ((lines, tasks, finished), s')) :
  finished = true /\ isClosed (s_client s') = true /\
  (exists left, stdout = concat_lines lines +:+ left) /\ Forall (whole_line maxInboundJSONRPCFrameBytes) lines /\
  length tasks <= length lines.
Proof. eapply reader_spec; [| |exact H]; [done | lia]. Qed.

(** Two requests, then the end of the stream. *)
Definition sample_scan (line : string) : list lexeme :=
  if String.eqb line ("call" +:+ String newline "") then
    [LBraceO; LStr "id"; LColon; LNum "7"; LComma; LStr "method"; LColon; LStr "item/tool/call"; LBraceC]
  else [LBad].
Definition sample_stdout : string := "call" +:+ String newline ("call" +:+ String newline "").
Definition sample_read := readLoop (PT := sample_protocol) (RT := sample_request_types) sample_write sample_scan
  (fun _ => true) (fun _ => RScalar 8) (fun _ => (0%Z, "")) (fun c w => (c, w)) io_EOF sample_stdout sample_session.
Definition sample_lines := match sample_read with Some ((lines, _, _), _) => lines | None => [] end.
Definition sample_tasks := match sample_read with Some ((_, tasks, _), _) => tasks | None => [] end.
Lemma sample_reads : sample_read = Some ((sample_lines, sample_tasks, true), end_of sample_session sample_read).
Proof. apply ends_with. unfold sample_lines, sample_tasks. vm_compute. reflexivity. Qed.
Lemma sample_reads_both : length sample_lines = 2 /\ length sample_tasks = 2.
Proof. vm_compute. done. Qed.

Lemma reader_closes_client_witness :
  length sample_tasks = 2 /\ isClosed (s_client (end_of sample_session sample_read)) = true.
Proof.
  split; [apply sample_reads_both|].
  apply (reader_closes_client (PT := sample_protocol) (RT := sample_request_types) sample_write sample_scan
           (fun _ => true) (fun _ => RScalar 8) (fun _ => (0%Z, "")) (fun c w => (c, w)) io_EOF sample_stdout
           sample_session _ _ _ _ sample_reads).
Defined.
