(* ===== verification/PublicationText.v ===== *)
(** The texts of a publication: branch names, the hidden metadata block of a
    pull request and its projection, from [publish.go] of
    [src/codexsdk/internal/protocolsync].  The regular expressions are
    executable matchers; [None] of [syncBranchName] is the panic of a short
    slice. *)

From S2P Require Import Prelude GoStrings Policy.
From Stdlib Require Import Ascii.

Local Open Scope string_scope.

Definition newline : ascii := byte 10.

(** * Search ([strings.Index], [strings.Cut], [strings.Trim]) *)

Fixpoint index (sub s : string) : option nat :=
  if has_prefix sub s then Some O
  else match s with EmptyString => None | String _ s' => S <$> index sub s' end.

Definition cut_byte (c : ascii) (s : string) : option (string * string) :=
  (fun i => (str_take i s, str_drop (S i) s)) <$> index_byte c s.

Fixpoint trim_left_bytes (f : ascii -> bool) (s : string) : string :=
  match s with String c s' => if f c then trim_left_bytes f s' else s | EmptyString => s end.
Fixpoint trim_right_bytes (f : ascii -> bool) (s : string) : string :=
  match s with
  | EmptyString => EmptyString
  | String c s' => if all_bytes f s then EmptyString else String c (trim_right_bytes f s')
  end.
Definition trim_bytes (f : ascii -> bool) (s : string) : string := trim_right_bytes f (trim_left_bytes f s).

(** * Branches *)

Definition normalizeBranchRef (ref remote : string) : string :=
  trim_prefix (remote +:+ "/") (trim_prefix ("refs/remotes/" +:+ remote +:+ "/") (trim_prefix "refs/heads/" ref)).

(** The bytes of [A-Za-z0-9._-]. *)
Definition is_name_byte (c : ascii) : bool :=
  let n := nat_of_ascii c in
  ((65 <=? n) && (n <=? 90) || (97 <=? n) && (n <=? 122) || is_digit c)%nat ||
  Ascii.eqb c "." || Ascii.eqb c "_" || Ascii.eqb c "-".

(** A run of other bytes becomes one hyphen; [inside] is such a run. *)
Fixpoint replace_runs (inside : bool) (s : string) : string :=
  match s with
  | EmptyString => EmptyString
  | String c s' =>
    if is_name_byte c then String c (replace_runs false s')
    else if inside then replace_runs true s' else String "-" (replace_runs true s')
  end.

(** [^refs/(heads|tags)/] *)
Definition trim_ref_namespace (ref : string) : string :=
  if has_prefix "refs/heads/" ref then str_drop 11 ref
  else if has_prefix "refs/tags/" ref then str_drop 10 ref else ref.

(** [s[:n]] *)
Definition slice_to (n : nat) (s : string) : option string :=
  if (n <=? String.length s)%nat then Some (str_take n s) else None.

Definition syncBranchName (targetRef targetSHA baseSHA : string) : option string :=
  sha ← slice_to 12 targetSHA;
  base ← slice_to 12 baseSHA;
  let name := trim_ref_namespace targetRef in
  let name := if String.eqb name "" then sha else name in
  let name := trim_bytes (fun c => Ascii.eqb c "-" || Ascii.eqb c ".") (replace_runs false name) in
  let name := if String.eqb name "" then sha else name in
  let name := if (64 <? String.length name)%nat then str_take 64 name else name in
  Some ("codex/sync-upstream-" +:+ name +:+ "-" +:+ sha +:+ "-base-" +:+ base).

(** * The hidden block *)

Definition block_open := "<!-- codexsdk-upstream-sync".
Definition block_close := "-->".

Definition metadata_keys : list string :=
  ["upstream_ref"; "upstream_ref_kind"; "upstream_commit"; "sync_commit"; "base_branch"].

Definition metadata_line (m : gmap string string) (line : string) : gmap string string :=
  match cut_byte ":" line with
  | None => m
  | Some (key, value) =>
    if mem (trim_space key) metadata_keys then <[trim_space key := trim_space value]> m else m
  end.

Definition parseSyncMetadata (body : string) : gmap string string :=
  match index block_open body with
  | None => ∅
  | Some start =>
    let rest := str_drop start body in
    match index block_close rest with
    | None => ∅
    | Some e => fold_left metadata_line (split_byte newline (str_take e rest)) ∅
    end
  end.

Record publicationDescription := { pd_target : BaselineIdentity; pd_head : string; pd_base : string }.

Definition publicationProjection (body : string) : publicationDescription :=
  let get k := default "" (parseSyncMetadata body !! k) in
  {| pd_target := {| SourceRefName := get "upstream_ref"; SourceRefKind := get "upstream_ref_kind";
                     SourceCommit := get "upstream_commit" |};
     pd_head := get "sync_commit"; pd_base := get "base_branch" |}.

Definition publicationProjectionMatches (body base targetRef targetKind targetSHA head : string) : bool :=
  let got := publicationProjection body in
  String.eqb (pd_base got) base && String.eqb (pd_head got) head &&
  String.eqb (SourceRefName (pd_target got)) targetRef && String.eqb (SourceRefKind (pd_target got)) targetKind &&
  String.eqb (SourceCommit (pd_target got)) targetSHA.

Definition publicationTitle (ref : string) : string := "Sync Codex protocol baseline to " +:+ ref.

Definition nl : string := String newline "".

Definition metadata_entry (key value : string) : string := key +:+ ": " +:+ value +:+ nl.

(** The block without its closing marker. *)
Definition metadata_lines (landRef targetRef targetKind targetSHA syncCommit : string) : string :=
  metadata_entry "upstream_ref" targetRef +:+ metadata_entry "upstream_ref_kind" targetKind +:+
  metadata_entry "upstream_commit" targetSHA +:+ metadata_entry "sync_commit" syncCommit +:+
  metadata_entry "base_branch" landRef.

Definition syncMetadataBlock (landRef targetRef targetKind targetSHA syncCommit : string) : string :=
  block_open +:+ nl +:+ metadata_lines landRef targetRef targetKind targetSHA syncCommit +:+ block_close.

Definition updateSyncMetadata (body landRef targetRef targetKind targetSHA syncCommit : string) : string :=
  let block := syncMetadataBlock landRef targetRef targetKind targetSHA syncCommit in
  match index block_open body with
  | None =>
    if String.eqb (trim_space body) "" then block +:+ nl
    else block +:+ nl +:+ nl +:+ trim_left_bytes (Ascii.eqb newline) body
  | Some start =>
    match index block_close (str_drop start body) with
    | None => block +:+ nl +:+ nl +:+ body
    | Some relEnd => str_take start body +:+ block +:+ str_drop (start + relEnd + 3) body
    end
  end.

(** What a new pull request says to its reader. *)
Definition publication_text : string := "

Automated upstream protocol sync.

## Description

This PR advances the checked-in protocol baseline for the selected upstream target, regenerates deterministic SDK artifacts, includes any one-run handwritten updates required by real drift, and publishes only after native checks passed.

It does not merge itself, tag, or bypass branch protection.

The exact publication identity is owned by the current Git head and its checked-in baseline metadata. The hidden block above is a recoverable projection. This visible body is operator-owned scratchboard text and may be edited without changing protocol correctness.

Integration must use the trusted Auto-forward PR path only after the exact current head has all required checks and review policy satisfied; main is then advanced to that same head by non-force fast-forward.
".

Definition publicationBody (landRef targetRef targetKind targetSHA syncCommit : string) : string :=
  syncMetadataBlock landRef targetRef targetKind targetSHA syncCommit +:+ publication_text.

Definition githubOutputValue (value : string) : string :=
  replace_all (replace_all value (String (byte 13) "") " ") nl " ".

(** * Lemmas *)

Lemma index_here sub s : index sub (sub +:+ s) = Some 0.
Proof.
  assert (has_prefix sub (sub +:+ s) = true) as H by apply has_prefix_app.
  destruct (sub +:+ s) as [|c t] eqn:E; simpl; by rewrite H.
Qed.

Lemma has_prefix_long sub u v w :
  String.length sub <= String.length u -> has_prefix sub (u +:+ v) = has_prefix sub (u +:+ w).
Proof.
  revert u. induction sub as [|a sub IH]; intros u Hl; [done|].
  destruct u as [|b u]; simpl in Hl; [lia|]. rewrite !app_String. simpl. f_equal. apply IH. lia.
Qed.

(** The first occurrence depends only on the text through its end. *)
Lemma index_prefix sub pre x y :
  index sub (pre +:+ sub +:+ x) = Some (String.length pre) ->
  index sub (pre +:+ sub +:+ y) = Some (String.length pre).
Proof.
  induction pre as [|c pre IH]; [intros _; exact (index_here sub y)|].
  rewrite !app_String. simpl. intros H.
  assert (has_prefix sub (String c (pre +:+ sub +:+ x)) = has_prefix sub (String c (pre +:+ sub +:+ y))) as E.
  { rewrite <- !app_String, <- !str_app_assoc. apply has_prefix_long. rewrite str_length_app. simpl. lia. }
  rewrite <- E. destruct (has_prefix _ _); [done|].
  destruct (index sub (pre +:+ sub +:+ x)) as [i|] eqn:Ei; [|done]. injection H as [= ->].
  by rewrite (IH eq_refl).
Qed.

Lemma index_split sub s i :
  index sub s = Some i -> s = str_take i s +:+ sub +:+ str_drop (i + String.length sub) s /\ String.length (str_take i s) = i.
Proof.
  revert i. induction s as [|c s IH]; intros i; simpl.
  - destruct (has_prefix sub "") eqn:E; [|done]. intros [= <-]. apply has_prefix_spec in E as [t Ht].
    by destruct sub, t.
  - destruct (has_prefix sub (String c s)) eqn:E.
    + intros [= <-]. apply has_prefix_spec in E as [t ->]. split; [|done]. simpl. by rewrite str_drop_app.
    + destruct (index sub s) as [j|] eqn:Ej; [|done]. intros [= <-]. destruct (IH j eq_refl) as [H1 H2].
      simpl. rewrite H2. split; [|done]. rewrite app_String. by rewrite <- H1.
Qed.

(** A byte that a pattern does not hold cuts its occurrences. *)
Lemma has_prefix_cut c sub u v :
  index_byte c sub = None -> has_prefix sub (u +:+ String c v) = true -> has_prefix sub u = true.
Proof.
  revert u. induction sub as [|a sub IH]; intros u Hc; [done|]. simpl in Hc.
  destruct (Ascii.eqb a c) eqn:Ea; [done|]. apply fmap_None in Hc. destruct u as [|b u].
  - simpl. by rewrite Ea.
  - rewrite app_String. simpl. intros [H1 H2]%andb_true_iff. rewrite H1. by eapply IH.
Qed.

Lemma index_past_line c sub u v :
  sub <> "" -> index_byte c sub = None -> contains sub u = false ->
  index sub (u +:+ String c v) = (fun i => S (String.length u) + i) <$> index sub v.
Proof.
  intros Hne Hc. induction u as [|a u IH]; intros Hu.
  - change ("" +:+ String c v) with (String c v). simpl.
    assert (has_prefix sub (String c v) = false) as ->.
    { apply not_true_iff_false. intros H. apply (has_prefix_cut c sub "" v Hc) in H. by destruct sub. }
    by destruct (index sub v).
  - rewrite app_String. simpl in *. apply orb_false_iff in Hu as [Hp Hu].
    assert (has_prefix sub (String a (u +:+ String c v)) = false) as ->.
    { apply not_true_iff_false. intros H. rewrite <- app_String in H. apply (has_prefix_cut _ _ _ _ Hc) in H. congruence. }
    rewrite (IH Hu). by destruct (index sub v).
Qed.

(** A value that fits on a line of the block. *)
Definition clean_value (v : string) : Prop :=
  index_byte newline v = None /\ contains block_close v = false /\ trim_space v = v.

Lemma contains_after_dashless sub c u :
  contains sub u = false -> has_prefix sub (String c u) = false -> contains sub (String c u) = false.
Proof. intros H1 H2. simpl. by rewrite H1, H2. Qed.

(** The keys hold neither the closing marker nor its first byte. *)
Lemma contains_key_value key v :
  index_byte "-" key = None -> contains block_close v = false -> contains block_close (key +:+ v) = false.
Proof.
  induction key as [|c key IH]; intros Hk Hv; [done|]. simpl in Hk.
  destruct (Ascii.eqb c "-") eqn:Ec; [done|]. apply fmap_None in Hk. rewrite app_String.
  apply contains_after_dashless; [auto|].
  change (Ascii.eqb "-" c && has_prefix "->" (key +:+ v) = false). by rewrite Ascii.eqb_sym, Ec.
Qed.

Lemma index_entry key v t :
  index_byte "-" key = None -> clean_value v ->
  index block_close (metadata_entry key v +:+ t) =
    (fun i => String.length (metadata_entry key v) + i) <$> index block_close t.
Proof.
  intros Hk (Hn & Hc & _). unfold metadata_entry, nl. rewrite !str_app_assoc.
  replace (key +:+ ": " +:+ v +:+ String newline "" +:+ t) with ((key +:+ ": " +:+ v) +:+ String newline t)
    by (by rewrite !str_app_assoc).
  rewrite index_past_line; [| done | done |].
  - rewrite !str_length_app. simpl. apply option_fmap_ext. intros i. lia.
  - rewrite <- str_app_assoc. apply contains_key_value; [|done].
    rewrite index_byte_app_None by done. done.
Qed.

Lemma split_entry key v t :
  index_byte newline key = None -> clean_value v ->
  split_byte newline (metadata_entry key v +:+ t) = (key +:+ ": " +:+ v) :: split_byte newline t.
Proof.
  intros Hk (Hn & _ & _). unfold metadata_entry, nl. rewrite !str_app_assoc.
  replace (key +:+ ": " +:+ v +:+ String newline "" +:+ t) with ((key +:+ ": " +:+ v) +:+ String newline t)
    by (by rewrite !str_app_assoc).
  apply split_byte_app. rewrite index_byte_app_None by done.
  rewrite (index_byte_app_None newline ": " v) by done. by rewrite Hn.
Qed.

Lemma trim_space_head v : trim_space (String " " v) = trim_space v.
Proof. reflexivity. Qed.

Lemma entry_line key v m :
  index_byte ":" key = None -> trim_space key = key -> key ∈ metadata_keys -> clean_value v ->
  metadata_line m (key +:+ ": " +:+ v) = <[key := v]> m.
Proof.
  intros Hc Ht Hk (_ & _ & Hv). unfold metadata_line, cut_byte.
  assert (index_byte ":" (key +:+ ": " +:+ v) = Some (String.length key)) as ->.
  { rewrite index_byte_app_None by done. change (index_byte ":" (": " +:+ v)) with (Some 0). simpl. by rewrite Nat.add_0_r. }
  assert (str_drop (S (String.length key)) (key +:+ ": " +:+ v) = String " " v) as Hd.
  { replace (S (String.length key)) with (String.length key + 1) by lia. by rewrite str_drop_app_ge. }
  cbn [fmap option_fmap option_map]. rewrite Hd, str_take_app, Ht. apply mem_true in Hk as ->.
  by rewrite trim_space_head, Hv.
Qed.

Lemma split_block landRef targetRef targetKind targetSHA syncCommit :
  clean_value landRef -> clean_value targetRef -> clean_value targetKind -> clean_value targetSHA -> clean_value syncCommit ->
  index block_close (block_open +:+ nl +:+ metadata_lines landRef targetRef targetKind targetSHA syncCommit +:+ block_close) =
    Some (String.length (block_open +:+ nl +:+ metadata_lines landRef targetRef targetKind targetSHA syncCommit)) /\
  fold_left metadata_line
    (split_byte newline (block_open +:+ nl +:+ metadata_lines landRef targetRef targetKind targetSHA syncCommit)) ∅ =
  <["base_branch" := landRef]> (<["sync_commit" := syncCommit]> (<["upstream_commit" := targetSHA]>
    (<["upstream_ref_kind" := targetKind]> (<["upstream_ref" := targetRef]> ∅)))).
Proof.
  intros H1 H2 H3 H4 H5. unfold metadata_lines. split.
  - change (block_open +:+ nl +:+ ?x) with (block_open +:+ String newline x).
    rewrite index_past_line by done. rewrite !str_app_assoc. rewrite !index_entry by done.
    change (index block_close block_close) with (Some 0). cbn [fmap option_fmap option_map].
    change (block_open +:+ String newline ?x) with (block_open +:+ nl +:+ x).
    rewrite !str_length_app. change (String.length nl) with 1. f_equal. lia.
  - change (block_open +:+ nl +:+ ?x) with (block_open +:+ String newline x).
    rewrite split_byte_app by done. rewrite !split_entry by done.
    rewrite <- (str_app_nil_r (metadata_entry "base_branch" landRef)), split_entry by done.
    cbn [fold_left]. change (metadata_line ∅ block_open) with (∅ : gmap string string).
    rewrite !entry_line by (first [done | apply mem_true; reflexivity]). done.
Qed.

Lemma projection_of_block pre post landRef targetRef targetKind targetSHA syncCommit :
  clean_value landRef -> clean_value targetRef -> clean_value targetKind -> clean_value targetSHA -> clean_value syncCommit ->
  index block_open (pre +:+ syncMetadataBlock landRef targetRef targetKind targetSHA syncCommit +:+ post) = Some (String.length pre) ->
  publicationProjection (pre +:+ syncMetadataBlock landRef targetRef targetKind targetSHA syncCommit +:+ post) =
  {| pd_target := {| SourceRefName := targetRef; SourceRefKind := targetKind; SourceCommit := targetSHA |};
     pd_head := syncCommit; pd_base := landRef |}.
Proof.
  intros H1 H2 H3 H4 H5 Hi.
  destruct (split_block landRef targetRef targetKind targetSHA syncCommit) as [Hc Hf]; try done.
  set (inner := block_open +:+ nl +:+ metadata_lines landRef targetRef targetKind targetSHA syncCommit) in *.
  assert (syncMetadataBlock landRef targetRef targetKind targetSHA syncCommit = inner +:+ block_close) as Hb
    by (unfold syncMetadataBlock, inner; by rewrite !str_app_assoc).
  assert (parseSyncMetadata (pre +:+ syncMetadataBlock landRef targetRef targetKind targetSHA syncCommit +:+ post) =
    <["base_branch" := landRef]> (<["sync_commit" := syncCommit]> (<["upstream_commit" := targetSHA]>
      (<["upstream_ref_kind" := targetKind]> (<["upstream_ref" := targetRef]> ∅))))) as Hp.
  { unfold parseSyncMetadata. rewrite Hi, str_drop_app, Hb, str_app_assoc.
    assert (index block_close (inner +:+ block_close +:+ post) = Some (String.length inner)) as ->.
    { apply (index_prefix _ _ ""). rewrite str_app_nil_r. unfold inner. rewrite !str_app_assoc. exact Hc. }
    by rewrite str_take_app. }
  unfold publicationProjection. rewrite Hp. reflexivity.
Qed.

Lemma leading_newlines s : exists lead, s = lead +:+ trim_left_bytes (Ascii.eqb newline) s /\
  all_bytes (Ascii.eqb newline) lead = true /\ has_prefix nl (trim_left_bytes (Ascii.eqb newline) s) = false.
Proof.
  induction s as [|c s (lead & E & Hl & Hp)]; [by exists ""|]. cbn [trim_left_bytes].
  destruct (Ascii.eqb newline c) eqn:Ec; [|exists ""; split_and!; [done | done | unfold nl; cbn [has_prefix]; by rewrite Ec]].
  exists (String c lead). rewrite app_String. cbn [all_bytes]. rewrite Ec. split_and!; [by rewrite <- E | done | done].
Qed.

Lemma index_past_open s :
  index block_close (block_open +:+ s) = (fun i => String.length block_open + i) <$> index block_close s.
Proof.
  change (block_open +:+ s) with ("<!-- codexsdk-upstream-syn" +:+ String "c" s).
  by rewrite index_past_line by done.
Qed.

(** What stands before and after the block of an updated body: what stood around
    the first block, up to the first closing marker after it; nothing and the
    body, without its leading newlines when it has no opening marker, and as it
    is when the marker is not closed; or nothing and the end of the line, of a
    blank body. *)
Inductive around (body : string) : string -> string -> Prop :=
| around_block pre inner post :
    body = pre +:+ block_open +:+ inner +:+ block_close +:+ post -> index block_open body = Some (String.length pre) ->
    index block_close (inner +:+ block_close +:+ post) = Some (String.length inner) -> around body pre post
| around_unclosed pre rest :
    body = pre +:+ block_open +:+ rest -> index block_open body = Some (String.length pre) -> index block_close rest = None ->
    around body "" (nl +:+ nl +:+ body)
| around_blank : index block_open body = None -> trim_space body = "" -> around body "" nl
| around_text lead rest :
    index block_open body = None -> trim_space body <> "" -> body = lead +:+ rest -> all_bytes (Ascii.eqb newline) lead = true ->
    has_prefix nl rest = false -> around body "" (nl +:+ nl +:+ rest).

(** An update writes its block there, ahead of every other mark. *)
Lemma update_around body landRef targetRef targetKind targetSHA syncCommit : exists pre post, around body pre post /\
  updateSyncMetadata body landRef targetRef targetKind targetSHA syncCommit =
    pre +:+ syncMetadataBlock landRef targetRef targetKind targetSHA syncCommit +:+ post /\
  index block_open (pre +:+ syncMetadataBlock landRef targetRef targetKind targetSHA syncCommit +:+ post) = Some (String.length pre).
Proof.
  assert (forall post, index block_open (syncMetadataBlock landRef targetRef targetKind targetSHA syncCommit +:+ post) = Some 0) as Hfirst.
  { intros post. unfold syncMetadataBlock. rewrite str_app_assoc. apply index_here. }
  unfold updateSyncMetadata. destruct (index block_open body) as [start|] eqn:Ei.
  - destruct (index_split _ _ _ Ei) as [Hbody Hstart]. set (pre := str_take start body) in *.
    set (tail := str_drop (start + String.length block_open) body) in *.
    assert (str_drop start body = block_open +:+ tail) as Hd by (rewrite Hbody at 1; rewrite <- Hstart at 1; by rewrite str_drop_app).
    rewrite Hd, index_past_open. destruct (index block_close tail) as [n|] eqn:Ee; cbn [fmap option_fmap option_map].
    + destruct (index_split _ _ _ Ee) as [Htail Hn]. set (inner := str_take n tail) in *.
      set (post := str_drop (n + String.length block_close) tail) in *. exists pre, post.
      assert (str_drop (start + (String.length block_open + n) + 3) body = post) as ->.
      { rewrite Hbody. rewrite <- Hstart at 1. rewrite <- !Nat.add_assoc, str_drop_app_ge, str_drop_app_ge. done. }
      split; [|split; [done|]].
      * apply (around_block _ _ inner); rewrite <- ?Htail, ?Hn, ?Hstart; done.
      * rewrite Hbody in Ei. unfold syncMetadataBlock. rewrite str_app_assoc, Hstart. rewrite <- Hstart in Ei |- *. by eapply index_prefix.
    + exists "", (nl +:+ nl +:+ body). rewrite app_Empty. split; [|split; [by rewrite ?str_app_assoc | apply Hfirst]].
      apply (around_unclosed _ pre tail); by rewrite ?Hstart.
  - destruct (String.eqb_spec (trim_space body) "") as [Hb|Hb].
    + exists "", nl. rewrite app_Empty. split; [by apply around_blank | split; [done | apply Hfirst]].
    + destruct (leading_newlines body) as (lead & Hw & Hl & Hr). exists "", (nl +:+ nl +:+ trim_left_bytes (Ascii.eqb newline) body).
      rewrite app_Empty. split; [by apply (around_text _ lead) | split; [by rewrite ?str_app_assoc | apply Hfirst]].
Qed.

(** An update of a body that holds a written block as its first replaces it. *)
Lemma update_written pre post block landRef targetRef targetKind targetSHA syncCommit :
  clean_value landRef -> clean_value targetRef -> clean_value targetKind -> clean_value targetSHA -> clean_value syncCommit ->
  block = syncMetadataBlock landRef targetRef targetKind targetSHA syncCommit ->
  index block_open (pre +:+ block +:+ post) = Some (String.length pre) ->
  forall landRef' targetRef' targetKind' targetSHA' syncCommit',
  updateSyncMetadata (pre +:+ block +:+ post) landRef' targetRef' targetKind' targetSHA' syncCommit' =
    pre +:+ syncMetadataBlock landRef' targetRef' targetKind' targetSHA' syncCommit' +:+ post.
Proof.
  intros H1 H2 H3 H4 H5 -> Hi landRef' targetRef' targetKind' targetSHA' syncCommit'.
  destruct (split_block landRef targetRef targetKind targetSHA syncCommit) as [Hc _]; try done.
  set (inner := block_open +:+ nl +:+ metadata_lines landRef targetRef targetKind targetSHA syncCommit) in *.
  assert (syncMetadataBlock landRef targetRef targetKind targetSHA syncCommit = inner +:+ block_close) as Hb
    by (unfold syncMetadataBlock, inner; by rewrite !str_app_assoc).
  unfold updateSyncMetadata. rewrite Hi, Hb, str_drop_app, str_take_app, !str_app_assoc.
  assert (index block_close (inner +:+ block_close +:+ post) = Some (String.length inner)) as ->.
  { apply (index_prefix _ _ ""). rewrite str_app_nil_r. unfold inner. rewrite !str_app_assoc. exact Hc. }
  do 2 f_equal. rewrite <- Nat.add_assoc, str_drop_app_ge, str_drop_app_ge. done.
Qed.

(** C32: the hidden block of a pull request is a recoverable projection: for
    every body, whatever an operator wrote into it, updating the block and
    reading it back gives exactly the target, head and base that were written.
    The update changes nothing else: the first block is replaced where it stands,
    a body without one keeps its text behind the new block but for leading
    newlines, or all of it behind an unclosed marker; and every later update
    replaces the same block, so that blocks do not accumulate.  The values fit on
    a line of the block: without a newline, a closing marker or surrounding
    blanks. *)
Theorem metadata_roundtrip (body landRef targetRef targetKind targetSHA syncCommit : string)
    (Hl : clean_value landRef) (Hr : clean_value targetRef) (Hk : clean_value targetKind)
    (Hs : clean_value targetSHA) (Hc : clean_value syncCommit) :
  publicationProjection (updateSyncMetadata body landRef targetRef targetKind targetSHA syncCommit) =
    {| pd_target := {| SourceRefName := targetRef; SourceRefKind := targetKind; SourceCommit := targetSHA |};
       pd_head := syncCommit; pd_base := landRef |} /\
  exists pre post, around body pre post /\
    updateSyncMetadata body landRef targetRef targetKind targetSHA syncCommit =
      pre +:+ syncMetadataBlock landRef targetRef targetKind targetSHA syncCommit +:+ post /\
    forall landRef' targetRef' targetKind' targetSHA' syncCommit',
      updateSyncMetadata (updateSyncMetadata body landRef targetRef targetKind targetSHA syncCommit)
        landRef' targetRef' targetKind' targetSHA' syncCommit' =
      pre +:+ syncMetadataBlock landRef' targetRef' targetKind' targetSHA' syncCommit' +:+ post.
Proof.
  destruct (update_around body landRef targetRef targetKind targetSHA syncCommit) as (pre & post & Ha & -> & Hi).
  split; [by apply projection_of_block|]. exists pre, post. split_and!; [done..|].
  intros. by apply (update_written pre post _ landRef targetRef targetKind targetSHA syncCommit).
Qed.

Lemma metadata_roundtrip_witness :
  publicationProjection (updateSyncMetadata "Operator notes --> kept" "main" "rust-v0.9.0" "stable_rust_tag"
    (sha_of "a") (sha_of "b")) =
  {| pd_target := {| SourceRefName := "rust-v0.9.0"; SourceRefKind := "stable_rust_tag"; SourceCommit := sha_of "a" |};
     pd_head := sha_of "b"; pd_base := "main" |}.
Proof.
  apply (metadata_roundtrip "Operator notes --> kept" "main" "rust-v0.9.0" "stable_rust_tag" (sha_of "a") (sha_of "b"));
    (split_and!; vm_compute; reflexivity).
Defined.

Lemma projection_matches_iff body base ref k sha head :
  publicationProjectionMatches body base ref k sha head = true <->
  publicationProjection body =
    {| pd_target := {| SourceRefName := ref; SourceRefKind := k; SourceCommit := sha |}; pd_head := head; pd_base := base |}.
Proof.
  unfold publicationProjectionMatches. destruct (publicationProjection body) as [[c n k'] h b]. simpl.
  rewrite !andb_true_iff, !String.eqb_eq. naive_solver.
Qed.

Example branch_of_tag :
  syncBranchName "refs/tags/rust v1..0" (sha_of "a") (sha_of "b") =
  Some ("codex/sync-upstream-rust-v1..0-aaaaaaaaaaaa-base-bbbbbbbbbbbb").
Proof. vm_compute. reflexivity. Qed.
