(* ===== verification/Boundary.v ===== *)
(** The boundary of protocol synchronisation: git, the GitHub API and the
    upstream lookup, as the files of [src/codexsdk/internal/protocolsync] call
    them ([generate.go], [changes.go], [publication_api.go], [pending.go],
    [publish.go]).

    A program of this part is a function on a [flow]: the world and the log of
    what was asked of it, with the answers, newest first.  Git and the API may
    answer anything and change the world; [None] is a Go panic.  The root
    directory of the repository is left out of the arguments of git: it is the
    same in every call.  [json.Unmarshal] into the structs of the API is a
    parameter of the boundary. *)

From Stdlib Require Import Ascii.
From stdpp Require Import pretty.
From S2P Require Import Prelude GoStrings Policy Scope Resolve PublicationText Checks.

Local Open Scope string_scope.
Local Open Scope list_scope.

(** * Data of the API *)

Record publicationUser := { user_ID : Z; Login : string; user_Type : string }.
Record publicationRef := { Ref : string; ref_SHA : string; FullName : string }.
Record publicationPR := {
  pr_Number : Z; pr_URL : string; pr_State : string; pr_Body : string; pr_Title : string; MergedAt : option string;
  User : publicationUser; pr_Head : publicationRef; pr_Base : publicationRef; MergeSHA : string }.

(** An entry of the activity listing of a ref. *)
Record activity := { act_Ref : string; After : string; Actor : publicationUser }.

#[export] Instance publicationUser_eq_dec : EqDecision publicationUser.
Proof. solve_decision. Defined.

(** * The surroundings *)

Class Boundary (W : Type) := {
  Raw : Type;
  exec_git : list string -> string -> W -> res string * W;
  Request : string -> string -> option (gmap string string) -> W -> res Raw * W;
  LSRemote : string -> list string -> W -> res string;
  Lstat : string -> W -> lstat;
  append_output : gmap string string -> W -> option error * W;
  decode_prs : Raw -> res (list publicationPR);
  decode_pr : Raw -> res publicationPR;
  decode_activities : Raw -> res (list activity);
  decode_checks : Raw -> res (Z * list Run);
  decode_workflows : Raw -> res (Z * list WorkflowRun);
  decode_metadata : string -> res BaselineIdentity
}.

(** What a flow asks of the host it runs on, besides git and the API: git in a
    clean environment, the one push of a candidate, tokens, files, the bytes that
    GitHub has at a path, and the commands of a verification. *)
Inductive hostcall :=
| ArtifactGit (args : list string) | ArtifactGitIn (args : list string) (input : string)
| PushGit (args : list string) (token : option string)
| PublicationToken | ReleaseToken
| MkdirTemp (pattern : string) | MkdirAll (path : string) | RemoveAll (path : string)
| CreateTemp (dir pattern : string) | RemoveFile (path : string) | Chmod (path : string)
| SyncFile (path : string) | SyncDir (path : string) | Digest (path : string) | ReadText (path : string)
| WriteText (path data : string) | AppendText (path data : string) | WriteSynced (path data : string) | Rename (from to : string)
| Open (path : string) | Close (path : string) | CopyFile (from to : string) (perm : Z) | Sleep (duration : Z)
| Mkdir (path : string) | Symlink (to path : string) | Download (path : string)
| MkdirTempIn (dir pattern : string) | Execute (env argv : list string).

Section flow.
Context {W : Type} {B : Boundary W}.

Inductive event :=
| Ran (args : list string) (out : res string)
| Asked (method path : string) (body : option (gmap string string)) (answer : res Raw)
| LookedUp (request : ResolveRequest) (answer : res Target)
| Wrote (values : gmap string string)
| Called (name : string)
| Performed (call : hostcall) (out : res string).

Record flow := { world : W; log : list event }.

Definition P (A : Type) : Type := flow -> option (res A * flow).

#[global] Instance P_ret : MRet P := fun A a s => Some (Ok a, s).
#[global] Instance P_bind : MBind P := fun A B f m s =>
  match m s with
  | Some (Ok a, s') => f a s'
  | Some (Err e, s') => Some (Err e, s')
  | None => None
  end.

(** A result that needs no step of the surroundings; a Go panic. *)
Definition of_res {A} (r : res A) : P A := fun s => Some (r, s).
Definition fail {A} (e : error) : P A := of_res (Err e).
Definition of_option {A} (o : option A) : P A := fun s => (fun a => (Ok a, s)) <$> o.
(** A read of the world that is not logged. *)
Definition peek {A} (f : W -> A) : P A := fun s => Some (Ok (f (world s)), s).
(** Go on with the error as a value. *)
Definition attempt {A} (m : P A) : P (res A) := fun s =>
  match m s with Some (r, s') => Some (Ok r, s') | None => None end.
(** Wrap the error. *)
Definition wrap_err {A} (format : string) (m : P A) : P A := fun s =>
  match m s with Some (Err e, s') => Some (Err (Errorf format [e]), s') | r => r end.

Definition emit (e : event) : P unit := fun s => Some (Ok tt, {| world := world s; log := e :: log s |}).

Definition guard (bad : bool) (e : error) : P unit := of_res (guard_err bad e).

(** * Git *)

(** One run of git; [input] is its standard input. *)
Definition run (args : list string) (input : string) : P string := fun s =>
  let '(out, w) := exec_git args input (world s) in
  Some (out, {| world := w; log := Ran args out :: log s |}).

Definition gitOutput (args : list string) : P string := wrap_err "git %s: %w" (run args "").
Definition runGit (args : list string) : P unit := _ ← wrap_err "git %s: %w: %s" (run args ""); mret tt.

(** The NUL-separated paths of a listing. *)
Definition gitNUL (args : list string) : P (list string) :=
  out ← wrap_err "git %s: %w" (run args "");
  mret (filter (fun p => p <> "") (split_byte (byte 0) out)).

Definition tracked_args : list string := ["diff"; "--name-only"; "--no-renames"; "-z"; "HEAD"; "--"].
Definition untracked_args : list string := ["ls-files"; "--others"; "--exclude-standard"; "-z"].

Definition ChangedPaths : P (list string) :=
  tracked ← gitNUL tracked_args;
  untracked ← gitNUL untracked_args;
  of_res (Scope.ChangedPaths (Ok tracked) (Ok untracked)).

Definition AssertClean : P unit :=
  changed ← ChangedPaths; of_res (Scope.AssertClean (Ok changed)).

Definition CheckScope (phase : string) : P unit :=
  changed ← ChangedPaths;
  stat ← peek (fun w path => Lstat path w);
  of_res (Scope.CheckScope (Ok changed) stat phase).

Definition nul : string := String (byte 0) "".

Definition StagePaths (phase : string) : P (list string) :=
  paths ← ChangedPaths;
  _ ← of_res (validatePaths paths phase);
  _ ← guard (match paths with [] => true | _ => false end) (Errorf "sync change set is empty" []);
  _ ← wrap_err "git add: %w: %s" (run ["add"; "-A"; "--pathspec-from-file=-"; "--pathspec-file-nul"]
        (foldr (fun p rest => p +:+ nul +:+ rest) "" paths));
  mret paths.

(** * The GitHub API *)

(** The API as a function on the flow, which [Checks] reads through. *)
Definition ask (method path : string) (body : option (gmap string string)) (s : flow) : res Raw * flow :=
  let '(answer, w) := Request method path body (world s) in
  (answer, {| world := w; log := Asked method path body answer :: log s |}).
Definition request (method path : string) (body : option (gmap string string)) : P Raw := fun s =>
  Some (ask method path body s).

Definition get {A} (decode : Raw -> res A) (path : string) : P A :=
  raw ← request "GET" path None; of_res (decode raw).

Definition pulls_path (repository : string) (page : nat) : string :=
  "repos/" +:+ repository +:+ "/pulls?state=all&per_page=100&page=" +:+ pretty page.
Definition pull_path (repository : string) (number : Z) : string :=
  "repos/" +:+ repository +:+ "/pulls/" +:+ pretty number.

Definition too_many_pages : error := Errorf "listing has more pages than the bound of the model" [].

(** The loop over the pages; [n] bounds it ([list_all_pages]). *)
Fixpoint list_prs (repository : string) (n page : nat) (all : list publicationPR) : P (list publicationPR) :=
  match n with
  | O => fail too_many_pages
  | S n =>
    batch ← get decode_prs (pulls_path repository page);
    let all := all ++ batch in
    if (length batch <? 100)%nat then mret all else list_prs repository n (S page) all
  end.
Definition listPublicationPRs (pages : nat) (repository : string) : P (list publicationPR) :=
  list_prs repository pages 1 [].

(** The observation of the required checks, over the logged API. *)
Definition observe (repository head : string) : P Observation := fun s =>
  Some (Observe (fun path => ask "GET" path None) decode_checks decode_workflows repository head s).

(** * The upstream and the output file *)

Definition resolve (req : ResolveRequest) : P Target := fun s =>
  let answer := ResolveUpstream (fun remote patterns => LSRemote remote patterns (world s)) req in
  Some (answer, {| world := world s; log := LookedUp req answer :: log s |}).

Definition appendGitHubOutput (path : string) (values : gmap string string) : P unit :=
  if String.eqb path "" then mret tt
  else fun s =>
    let '(err, w) := append_output values (world s) in
    Some (match err with Some e => Err e | None => Ok tt end, {| world := w; log := Wrote values :: log s |}).
End flow.

(** * Reasoning about flows *)

Section facts.
Context {W : Type} {B : Boundary W}.
Implicit Types (s : flow (B := B)) (Q : event (B := B) -> Prop).

(** ** Undoing a step *)

Lemma P_bind_Ok {A C} (m : P A) (f : A -> P C) s c s' :
  (m ≫= f) s = Some (Ok c, s') -> exists a s1, m s = Some (Ok a, s1) /\ f a s1 = Some (Ok c, s').
Proof. unfold mbind, P_bind. destruct (m s) as [[[a|e] s1]|]; [eauto | done | done]. Qed.

Lemma ret_inv {A} (a b : A) s s' : mret (M := P) a s = Some (Ok b, s') -> b = a /\ s' = s.
Proof. by intros [= <- <-]. Qed.

Lemma P_bind_inv {A C} (m : P A) (f : A -> P C) s r s' :
  (m ≫= f) s = Some (r, s') ->
  (exists a s1, m s = Some (Ok a, s1) /\ f a s1 = Some (r, s')) \/ (exists e, m s = Some (Err e, s') /\ r = Err e).
Proof. unfold mbind, P_bind. destruct (m s) as [[[a|e] s1]|]; [left; eauto | intros [= <- <-]; right; eauto | done]. Qed.

Lemma of_res_inv {A} (x r : res A) s s' : of_res x s = Some (r, s') -> x = r /\ s' = s.
Proof. by intros [= <- <-]. Qed.

Lemma of_option_Ok {A} (o : option A) s r s' : of_option o s = Some (r, s') -> exists a, o = Some a /\ r = Ok a /\ s' = s.
Proof. unfold of_option. destruct o as [a|]; [intros [= <- <-]; eauto | done]. Qed.

Lemma guard_inv bad e s s' : guard bad e s = Some (Ok tt, s') -> bad = false /\ s' = s.
Proof. unfold guard, guard_err. destruct bad; [done | by intros [= <-]]. Qed.

Lemma attempt_inv {A} (m : P A) r s s' : attempt m s = Some (r, s') -> exists x, r = Ok x /\ m s = Some (x, s').
Proof. unfold attempt. destruct (m s) as [[x s1]|]; [intros [= <- <-]; eauto | done]. Qed.

Lemma wrap_err_Ok {A} format (m : P A) a s s' : wrap_err format m s = Some (Ok a, s') -> m s = Some (Ok a, s').
Proof. unfold wrap_err. destruct (m s) as [[[x|e] s1]|]; done. Qed.

Lemma gitOutput_inv args out s s' :
  gitOutput args s = Some (Ok out, s') -> log s' = Ran args (Ok out) :: log s.
Proof.
  intros H%wrap_err_Ok. unfold run in H. destruct (exec_git args "" (world s)) as [o w]. by injection H as -> <-.
Qed.

Lemma gitNUL_inv args paths s s' :
  gitNUL args s = Some (Ok paths, s') -> exists out, log s' = Ran args (Ok out) :: log s /\
    paths = filter (fun p => p <> "") (split_byte (byte 0) out).
Proof.
  intros (out & s1 & H%gitOutput_inv & [= <- <-])%P_bind_Ok. eauto.
Qed.

Lemma runGit_inv args s s' :
  runGit args s = Some (Ok tt, s') -> exists out, log s' = Ran args (Ok out) :: log s.
Proof.
  intros (out & s1 & H & [= <-])%P_bind_Ok. apply wrap_err_Ok in H. unfold run in H.
  destruct (exec_git args "" (world s)) as [o w]. injection H as -> <-. eauto.
Qed.

Lemma get_inv {A} (decode : Raw -> res A) path a s s' :
  get decode path s = Some (Ok a, s') -> exists raw, log s' = Asked "GET" path None (Ok raw) :: log s /\ decode raw = Ok a.
Proof.
  intros (raw & s1 & H & [Hd ->]%of_res_inv)%P_bind_Ok. unfold request, ask in H.
  destruct (Request "GET" path None (world s)) as [answer w]. injection H as -> <-. eauto.
Qed.

Lemma resolve_inv req target s s' :
  resolve req s = Some (Ok target, s') -> log s' = LookedUp req (Ok target) :: log s.
Proof. unfold resolve. by intros [= -> <-]. Qed.

(** ** What a flow asks *)

(** Every step of [m] satisfies [Q]. *)
Definition emits {A} Q (m : P A) : Prop :=
  forall s r s', m s = Some (r, s') -> exists l, log s' = l ++ log s /\ Forall Q l.

Lemma emits_silent {A} Q (m : P A) : (forall s r s', m s = Some (r, s') -> log s' = log s) -> emits Q m.
Proof. intros H s r s' Hm. exists []. split; [by rewrite (H _ _ _ Hm) | constructor]. Qed.

Lemma emits_ret {A} Q (a : A) : emits Q (mret a).
Proof. apply emits_silent. by intros s r s' [= <- <-]. Qed.
Lemma emits_of_res {A} Q (x : res A) : emits Q (of_res x).
Proof. apply emits_silent. by intros s r s' [= <- <-]. Qed.
Lemma emits_fail {A} Q e : emits Q (fail (A := A) e).
Proof. apply emits_of_res. Qed.
Lemma emits_guard Q bad e : emits Q (guard bad e).
Proof. apply emits_of_res. Qed.
Lemma emits_peek {A} Q (f : W -> A) : emits Q (peek f).
Proof. apply emits_silent. by intros s r s' [= <- <-]. Qed.
Lemma emits_of_option {A} Q (o : option A) : emits Q (of_option o).
Proof. apply emits_silent. by intros s r s' (a & _ & _ & ->)%of_option_Ok. Qed.

Lemma emits_bind {A C} Q (m : P A) (f : A -> P C) : emits Q m -> (forall a, emits Q (f a)) -> emits Q (m ≫= f).
Proof.
  intros Hm Hf s r s' [(a & s1 & H1 & H2)|(e & H1 & ->)]%P_bind_inv; [|by eapply Hm].
  apply Hm in H1 as (l1 & E1 & F1). apply Hf in H2 as (l2 & E2 & F2).
  exists (l2 ++ l1). split; [by rewrite E2, E1, app_assoc | by apply Forall_app].
Qed.

Lemma emits_wrap {A} Q format (m : P A) : emits Q m -> emits Q (wrap_err format m).
Proof.
  intros Hm s r s'. unfold wrap_err. pose proof (Hm s) as H. destruct (m s) as [[[a|e] s1]|]; [| |done];
    intros [= <- <-]; by eapply H.
Qed.
Lemma emits_attempt {A} Q (m : P A) : emits Q m -> emits Q (attempt m).
Proof. intros Hm s r s' (x & _ & H)%attempt_inv. by eapply Hm. Qed.

Lemma emits_run Q args input : (forall out, Q (Ran args out)) -> emits Q (run args input).
Proof.
  intros HQ s r s'. unfold run. destruct (exec_git args input (world s)) as [out w]. intros [= <- <-].
  exists [Ran args out]. by split; [|constructor].
Qed.
Lemma emits_request Q method path body :
  (forall answer, Q (Asked method path body answer)) -> emits Q (request method path body).
Proof.
  intros HQ s r s'. unfold request, ask. destruct (Request method path body (world s)) as [answer w]. intros [= <- <-].
  exists [Asked method path body answer]. by split; [|constructor].
Qed.
Lemma emits_resolve Q req : (forall answer, Q (LookedUp req answer)) -> emits Q (resolve req).
Proof. intros HQ s r s' [= <- <-]. eexists [_]. by split; [|constructor]. Qed.

Lemma emits_weaken {A} Q Q' (m : P A) : (forall e, Q e -> Q' e) -> emits Q m -> emits Q' m.
Proof.
  intros HQ Hm s r s' H. destruct (Hm _ _ _ H) as (l & El & Hl). exists l. split; [done|].
  eapply Forall_impl; [exact Hl|]. exact HQ.
Qed.

(** ** Reads *)

(** The git commands that change a branch, the index or the worktree. *)
Definition writing_commands : list string := ["push"; "commit"; "apply"; "add"].

Definition read_only (e : event (B := B)) : bool :=
  match e with
  | Ran args _ => negb (existsb (String.eqb (hd "" args)) writing_commands)
  | Asked method _ _ _ => String.eqb method "GET"
  | LookedUp _ _ => true
  | Wrote _ | Called _ | Performed _ _ => false
  end.

Abbreviation reads := (emits (fun e => read_only e = true)).

(** The log only grows. *)
Lemma emits_later {A} Q (m : P A) s r s' : emits Q m -> m s = Some (r, s') -> log s ⊆ log s'.
Proof. intros Hm H. destruct (Hm _ _ _ H) as (l & -> & _). set_solver. Qed.

End facts.

Create HintDb emitting.
#[export] Hint Resolve emits_ret emits_of_res emits_fail emits_guard emits_peek emits_of_option emits_wrap emits_attempt : emitting.

(** Show that a flow only asks what it may, from its structure. *)
Ltac emitted :=
  repeat first
    [ progress intros
    | solve [eauto 3 with emitting]
    | apply emits_bind | apply emits_wrap | apply emits_attempt | apply emits_run | apply emits_request | apply emits_resolve
    | match goal with
      | |- emits _ (match ?x with _ => _ end) => destruct x
      | |- emits _ (if ?x then _ else _) => destruct x
      end
    | progress cbv [gitOutput runGit gitNUL get] ];
  try done.

Section reads.
Context {W : Type} {B : Boundary W}.
Abbreviation reads := (emits (B := B) (fun e => read_only e = true)).

Lemma ChangedPaths_reads : reads ChangedPaths.
Proof. unfold ChangedPaths. emitted. Qed.
Lemma AssertClean_reads : reads AssertClean.
Proof. apply emits_bind; [apply ChangedPaths_reads | intros; apply emits_of_res]. Qed.
Lemma CheckScope_reads phase : reads (CheckScope phase).
Proof. apply emits_bind; [apply ChangedPaths_reads|]. emitted. Qed.

Lemma list_prs_reads repository n page all : reads (list_prs repository n page all).
Proof. revert page all. induction n as [|n IH]; intros page all; cbn [list_prs]; emitted. Qed.
Lemma listPublicationPRs_reads pages repository : reads (listPublicationPRs pages repository).
Proof. apply list_prs_reads. Qed.

Lemma observe_reads repository head : reads (observe repository head).
Proof.
  intros s r s' [= Ho].
  pose proof (Observe_reads (fun path => ask "GET" path None) decode_checks decode_workflows repository head s) as H.
  rewrite Ho in H. simpl in H. clear Ho. induction H as [s|s1 s2 s3 (path & ->) _ IH]; [by exists []|].
  destruct IH as (l & -> & Hl). unfold ask. destruct (Request "GET" path None (world s1)) as [answer w].
  exists (l ++ [Asked "GET" path None answer]). simpl. split; [by rewrite <- app_assoc|].
  apply Forall_app. split; [done | by constructor].
Qed.
End reads.
#[export] Hint Resolve ChangedPaths_reads AssertClean_reads CheckScope_reads listPublicationPRs_reads observe_reads : emitting.

(** Undo the steps of a flow that ended well. *)
Ltac pstep H :=
  let a := fresh "a" in let s := fresh "s" in let H1 := fresh "H" in
  apply P_bind_Ok in H as (a & s & H1 & H).

Ltac undo_step :=
  match goal with
  | H : (_ ≫= _) _ = Some (Ok _, _) |- _ => pstep H
  | H : mret _ _ = Some (Ok (_, _), _) |- _ => apply ret_inv in H as [[= -> ->] ->]
  | H : mret _ _ = Some (Ok _, _) |- _ => apply ret_inv in H as [-> ->]
  | H : guard _ _ _ = Some (Ok ?x, _) |- _ => destruct x; apply guard_inv in H as [H ->]
  | H : of_res _ _ = Some (Ok _, _) |- _ => apply of_res_inv in H as [H ->]
  | H : fail _ _ = Some (Ok _, _) |- _ => discriminate H
  | H : wrap_err _ _ _ = Some (Ok _, _) |- _ => apply wrap_err_Ok in H
  | H : attempt _ _ = Some (Ok _, _) |- _ => apply attempt_inv in H as (? & [= ->] & H)
  | H : gitOutput _ _ = Some (Ok _, _) |- _ => apply gitOutput_inv in H
  | H : gitNUL _ _ = Some (Ok _, _) |- _ => apply gitNUL_inv in H as (? & H & ->)
  | H : runGit _ _ = Some (Ok ?x, _) |- _ => destruct x; apply runGit_inv in H as (? & H)
  | H : get _ _ _ = Some (Ok _, _) |- _ => apply get_inv in H as (? & H & ?)
  | H : resolve _ _ = Some (Ok _, _) |- _ => apply resolve_inv in H
  | H : guard_err ?b _ = Ok ?x |- _ => destruct x; apply guard_err_Ok in H
  end.
Ltac undo := repeat undo_step.

(** Find an answer in the log. *)
Ltac said :=
  match goal with
  | |- _ => eassumption
  | |- _ => apply list_elem_of_here
  | |- _ => apply list_elem_of_further; said
  | E : log ?s = _ |- _ ∈ log ?s => rewrite E; said
  | L : log _ ⊆ log ?s |- _ ∈ log ?s => apply L; said
  end.

(** The log of an earlier state is part of that of a later one. *)
Ltac later := let e := fresh in let He := fresh in intros e He; said.

(** * A small repository

    One sync branch and the pull requests: enough of git and of GitHub to run
    the flows on. *)

Record hub := { hub_branch : option string; hub_pulls : list publicationPR }.

Definition hub_head := sha_of "a".
Definition hub_base := sha_of "b".
Definition hub_target := sha_of "c".
Definition hub_identity : BaselineIdentity :=
  {| SourceCommit := hub_target; SourceRefName := "rust-v1.2.0"; SourceRefKind := "stable_rust_tag" |}.
Definition hub_old : BaselineIdentity :=
  {| SourceCommit := sha_of "d"; SourceRefName := "rust-v1.1.0"; SourceRefKind := "stable_rust_tag" |}.
Definition hub_bot : publicationUser := {| user_ID := 7; Login := "bot"; user_Type := "Bot" |}.
Definition hub_pr (branch body title : string) : publicationPR :=
  {| pr_Number := 3; pr_URL := "url"; pr_State := "open"; pr_Body := body; pr_Title := title; MergedAt := None;
     User := hub_bot; pr_Head := {| Ref := branch; ref_SHA := hub_head; FullName := "o/r" |};
     pr_Base := {| Ref := "main"; ref_SHA := hub_base; FullName := "o/r" |}; MergeSHA := "" |}.

Definition has_arg (arg : string) (args : list string) : bool := existsb (String.eqb arg) args.

Definition branch_line (head ref : string) : string := head +:+ " " +:+ ref.

Definition hub_branch_name := default "" (syncBranchName "rust-v1.2.0" hub_target hub_base).
Definition hub_branch_ref := "refs/heads/" +:+ hub_branch_name.

Definition hub_git (args : list string) (_ : string) (w : hub) : res string * hub :=
  let cmd := hd "" args in
  if String.eqb cmd "ls-remote" then
    if has_arg "refs/heads/main" args then (Ok (branch_line hub_base "refs/heads/main"), w)
    else (Ok (match hub_branch w with Some head => branch_line head hub_branch_ref | None => "" end), w)
  else if String.eqb cmd "push" then (Ok "", {| hub_branch := Some hub_head; hub_pulls := hub_pulls w |})
  else if String.eqb cmd "rev-parse" then (Ok (if has_arg "HEAD" args then hub_head else hub_base), w)
  else if String.eqb cmd "rev-list" then (Ok (branch_line hub_head hub_base), w)
  else if String.eqb cmd "diff" && negb (has_arg "HEAD" args) then (Ok ("codexsdk/sdk_surface.gen.go" +:+ nul), w)
  else (Ok "", w).

Inductive hub_raw := RawPulls (prs : list publicationPR) | RawPull (pr : publicationPR) | RawActivity (a : activity) | RawNothing.

Definition hub_request (method path : string) (body : option (gmap string string)) (w : hub) : res hub_raw * hub :=
  if String.eqb method "GET" then
    if contains "activity" path then
      (Ok (match hub_branch w with
           | Some head => RawActivity {| act_Ref := hub_branch_ref; After := head; Actor := hub_bot |}
           | None => RawNothing end), w)
    else if contains "state=all" path then (Ok (RawPulls (hub_pulls w)), w)
    else (Ok (match hub_pulls w with pr :: _ => RawPull pr | [] => RawNothing end), w)
  else
    let field key := default "" (body ≫= lookup key) in
    let pr := hub_pr hub_branch_name (field "body") (field "title") in
    (Ok (RawPull pr), {| hub_branch := hub_branch w; hub_pulls := [pr] |}).

Definition not_json : error := Foreign 0.

#[export] Instance hub_boundary : Boundary hub := {|
  Raw := hub_raw; exec_git := hub_git; Request := hub_request;
  LSRemote _ _ _ := Ok (branch_line hub_target "refs/tags/rust-v1.2.0");
  Lstat _ _ := LRegular;
  append_output _ w := (None, w);
  decode_prs raw := match raw with RawPulls prs => Ok prs | _ => Err not_json end;
  decode_pr raw := match raw with RawPull pr => Ok pr | _ => Err not_json end;
  decode_activities raw := match raw with RawActivity a => Ok [a] | _ => Err not_json end;
  decode_checks _ := Err not_json; decode_workflows _ := Err not_json;
  decode_metadata raw := Ok (if String.eqb raw "old" then hub_old else hub_identity) |}.

Definition start_hub (w : hub) : flow (B := hub_boundary) := {| world := w; log := [] |}.
