(* ===== verification/Inspection.v ===== *)
(** Inspection of pending publications: [pending.go], with the readings of a
    remote head and of a commit's identity from [publication.go], of
    [src/codexsdk/internal/protocolsync].

    [InspectPending] finds the one pull request, or the one branch without a
    pull request, that a publication would continue, and proves from git who
    changed it last and what it contains.  It only reads. *)

From Stdlib Require Import Ascii.
From stdpp Require Import pretty.
From S2P Require Import Prelude GoStrings Policy Scope Resolve PublicationText Checks Boundary.

Local Open Scope string_scope.
Local Open Scope list_scope.

Record PendingRequest := {
  ReadChecks : bool; RepairPending : bool;
  Repository : string; BaseBranch : string; BaseSHA : string; Remote : string;
  AppBotID : Z; req_Target : Target }.

Record PendingPublication := {
  Number : Z; URL : string; Branch : string; pp_Head : string; pp_BaseSHA : string; pp_Checks : string;
  Description : string; Title : string; pp_Target : BaselineIdentity; Reusable : bool; Repair : bool;
  CheckObservation : option Observation }.

Definition no_identity : BaselineIdentity := {| SourceCommit := ""; SourceRefName := ""; SourceRefKind := "" |}.

Definition publicationPolicy (format : string) : error := Failure FailurePolicy ("needs-maintainer: " +:+ format).

Definition publicationRemote (req : PendingRequest) : string :=
  if negb (String.eqb (Remote req) "") then Remote req else "origin".

(** [url.QueryEscape] *)
Definition hex_digit (n : nat) : ascii := ascii_of_nat (if (n <? 10)%nat then 48 + n else 55 + n).
Definition escape_byte (c : ascii) : string :=
  if is_name_byte c || Ascii.eqb c "~" then String c ""
  else if Ascii.eqb c " " then "+"
  else String "%" (String (hex_digit (nat_of_ascii c / 16)) (String (hex_digit (nat_of_ascii c mod 16)) "")).
Fixpoint QueryEscape (s : string) : string :=
  match s with "" => "" | String c s => escape_byte c +:+ QueryEscape s end.

Definition state_text (state : State) : string :=
  match state with
  | NoState => "" | Missing => "missing" | Pending => "pending" | Failed => "failed"
  | Cancelled => "cancelled" | Succeeded => "succeeded"
  end.

Definition metadata_path := "codexsdk/internal/protocolschema/appserver/v2/baseline_metadata.json".

(** The identities of the request and of a commit name the same upstream ref,
    and the same commit of it. *)
Definition same_ref (identity : BaselineIdentity) (target : Target) : bool :=
  String.eqb (SourceRefName identity) (RefName target) && String.eqb (SourceRefKind identity) (RefKind target).
Definition same_commit (identity : BaselineIdentity) (target : Target) : bool :=
  String.eqb (SourceCommit identity) (PeeledCommitSHA target).

Section inspection.
Context {W : Type} {B : Boundary W} (pages : nat).

Definition remotePublicationHead (remote branch : string) : P (B := B) string :=
  out ← gitOutput ["ls-remote"; remote; "refs/heads/" +:+ branch];
  match str_fields out with
  | [] => mret ""
  | [sha; _] => if shaRE sha then mret sha else fail (Errorf "invalid remote branch observation" [])
  | _ => fail (Errorf "invalid remote branch observation" [])
  end.

Definition decodeBaselineIdentity (raw : string) : res BaselineIdentity :=
  match decode_metadata (Boundary := B) raw with
  | Ok identity => Ok identity
  | Err e => Err (Errorf "decode baseline metadata: %w" [e])
  end.

Definition gitBaselineIdentity (head : string) : P (B := B) BaselineIdentity :=
  raw ← gitOutput ["show"; head +:+ ":" +:+ metadata_path]; of_res (decodeBaselineIdentity raw).

Definition fetchPublicationCommit (req : PendingRequest) (head : string) : P (B := B) unit :=
  _ ← guard (negb (shaRE head)) (publicationPolicy "publication has no exact head");
  known ← attempt (gitOutput ["cat-file"; "-e"; head +:+ "^{commit}"]);
  match known with
  | Ok _ => mret tt
  | Err _ => runGit ["fetch"; "--no-tags"; publicationRemote req; head]
  end.

Definition verifyAppActor (user : publicationUser) (botID : Z) : res unit :=
  guard_err (negb (String.eqb (user_Type user) "Bot") || negb (user_ID user =? botID)%Z)
    (publicationPolicy "publication belongs to a different GitHub App bot").

Definition activity_path (req : PendingRequest) (branch : string) : string :=
  "repos/" +:+ Repository req +:+ "/activity?ref=" +:+ QueryEscape ("refs/heads/" +:+ branch) +:+ "&per_page=1".

Definition publicationHeadActor (req : PendingRequest) (branch head : string) : P (B := B) publicationUser :=
  activities ← get decode_activities (activity_path req branch);
  match activities with
  | [a] =>
    if String.eqb (act_Ref a) ("refs/heads/" +:+ branch) && String.eqb (After a) head then mret (Actor a)
    else fail (publicationPolicy "current push ownership of %s at %s is not confirmed")
  | _ => fail (publicationPolicy "current push ownership of %s at %s is not confirmed")
  end.

Definition repairNonSingleHead (req : PendingRequest) (pr : publicationPR) (head : string) : P (B := B) PendingPublication :=
  metadata ← gitBaselineIdentity head;
  _ ← guard (negb (same_commit metadata (req_Target req)) || negb (same_ref metadata (req_Target req)))
        (publicationPolicy "PR #%d repair requires the current tree to contain upstream %s/%s/%s");
  mret {| Number := pr_Number pr; URL := pr_URL pr; Branch := Ref (pr_Head pr); pp_Head := head; pp_BaseSHA := "";
          pp_Checks := ""; Description := pr_Body pr; Title := pr_Title pr; pp_Target := metadata; Reusable := false;
          Repair := true; CheckObservation := None |}.

(** A head with one parent, once its parent is known. *)
Definition inspect_candidate (req : PendingRequest) (pr : publicationPR) (head base : string) : P (B := B) PendingPublication :=
  ancestor ← attempt (runGit ["merge-base"; "--is-ancestor"; base; BaseSHA req]);
  _ ← guard (match ancestor with Err _ => true | Ok _ => false end)
        (publicationPolicy "PR #%d contains commits outside the accepted base history");
  actor ← publicationHeadActor req (Ref (pr_Head pr)) head;
  _ ← guard (negb (user_ID actor =? user_ID (User pr))%Z || negb (String.eqb (user_Type actor) "Bot"))
        (publicationPolicy "sync branch head was changed outside its publishing App");
  changed ← gitNUL ["diff"; "--name-only"; "--no-renames"; "-z"; base; head; "--"];
  _ ← of_res (validatePaths changed "final");
  metadata ← gitBaselineIdentity head;
  _ ← guard (negb (shaRE (SourceCommit metadata)) || String.eqb (SourceRefName metadata) "" ||
             negb (validKinds (SourceRefKind metadata)))
        (publicationPolicy "PR #%d has an invalid upstream identity");
  _ ← guard (same_ref metadata (req_Target req) && negb (same_commit metadata (req_Target req)))
        (Failure FailureSource "upstream ref %s changed from pending commit %s to %s");
  mret {| Number := pr_Number pr; URL := pr_URL pr; Branch := Ref (pr_Head pr); pp_Head := head; pp_BaseSHA := base;
          pp_Checks := ""; Description := pr_Body pr; Title := pr_Title pr; pp_Target := metadata;
          Reusable := String.eqb base (BaseSHA req) && same_commit metadata (req_Target req) && same_ref metadata (req_Target req);
          Repair := false; CheckObservation := None |}.

Definition inspectPublicationHead (req : PendingRequest) (pr : publicationPR) : P (B := B) PendingPublication :=
  head ← wrap_err "read open PR #%d remote head: %w" (remotePublicationHead (publicationRemote req) (Ref (pr_Head pr)));
  _ ← guard (negb (shaRE head)) (publicationPolicy "open sync PR #%d branch %s has no exact remote head");
  _ ← fetchPublicationCommit req head;
  parents ← gitOutput ["rev-list"; "--parents"; "-n"; "1"; head];
  match str_fields parents with
  | [_; base] => inspect_candidate req pr head base
  | _ =>
    if RepairPending req then repairNonSingleHead req pr head
    else fail (publicationPolicy "PR #%d is not a single candidate commit")
  end.

(** ** Branches without a pull request *)

Definition orphan_pr (branch sha : string) (actor : publicationUser) : publicationPR :=
  {| pr_Number := 0; pr_URL := ""; pr_State := ""; pr_Body := ""; pr_Title := ""; MergedAt := None; User := actor;
     pr_Head := {| Ref := branch; ref_SHA := sha; FullName := "" |};
     pr_Base := {| Ref := ""; ref_SHA := ""; FullName := "" |}; MergeSHA := "" |}.

Definition set_reusable (reusable : bool) (p : PendingPublication) : PendingPublication :=
  {| Number := Number p; URL := URL p; Branch := Branch p; pp_Head := pp_Head p; pp_BaseSHA := pp_BaseSHA p;
     pp_Checks := pp_Checks p; Description := Description p; Title := Title p; pp_Target := pp_Target p;
     Reusable := reusable; Repair := Repair p; CheckObservation := CheckObservation p |}.

Definition inspect_orphan (req : PendingRequest) (known : list string) (line : string) : P (B := B) (list PendingPublication) :=
  match str_fields line with
  | [] => mret []
  | [sha; ref] =>
    if negb (shaRE sha) then fail (publicationPolicy "invalid remote sync branch observation") else
    let branch := trim_prefix "refs/heads/" ref in
    if mem branch known then mret [] else
    actor ← publicationHeadActor req branch sha;
    _ ← wrap_err "orphan sync branch %s: %w" (of_res (verifyAppActor actor (AppBotID req)));
    observation ← inspectPublicationHead req (orphan_pr branch sha actor);
    mret [set_reusable false observation]
  | _ => fail (publicationPolicy "invalid remote sync branch observation")
  end.

(** A loop that collects what it finds and stops at the first error. *)
Fixpoint collect {X A} (f : X -> P (B := B) (list A)) (l : list X) : P (B := B) (list A) :=
  match l with
  | [] => mret []
  | x :: l => found ← f x; rest ← collect f l; mret (found ++ rest)
  end.

Definition absent (branch : string) : PendingPublication :=
  {| Number := 0; URL := ""; Branch := branch; pp_Head := "absent"; pp_BaseSHA := ""; pp_Checks := "";
     Description := ""; Title := ""; pp_Target := no_identity; Reusable := false; Repair := false; CheckObservation := None |}.

Definition inspectOrphanPublication (req : PendingRequest) (prs : list publicationPR) : P (B := B) PendingPublication :=
  let known := map (fun pr => Ref (pr_Head pr)) prs in
  refs ← gitOutput ["ls-remote"; "--heads"; publicationRemote req; "refs/heads/codex/sync-upstream*"];
  found ← collect (inspect_orphan req known) (split_byte PublicationText.newline (trim_space refs));
  match found with
  | [] =>
    branch ← of_option (syncBranchName (RefName (req_Target req)) (PeeledCommitSHA (req_Target req)) (BaseSHA req));
    mret (absent branch)
  | [p] => mret p
  | _ => fail (publicationPolicy "multiple orphan sync branches require reconciliation")
  end.

(** ** Pull requests *)

Definition is_sync_branch (branch : string) : bool := has_prefix "codex/sync-upstream" branch.

(** A closed pull request blocks its own candidate, and nothing else. *)
Definition inspect_closed (req : PendingRequest) (pr : publicationPR) : P (B := B) (list PendingPublication) :=
  _ ← fetchPublicationCommit req (ref_SHA (pr_Head pr));
  identity ← gitBaselineIdentity (ref_SHA (pr_Head pr));
  if same_ref identity (req_Target req) && negb (same_commit identity (req_Target req)) then
    fail (Failure FailureSource "upstream ref %s changed since closed PR #%d")
  else if negb (same_commit identity (req_Target req)) || negb (same_ref identity (req_Target req)) then mret []
  else fail (publicationPolicy "sync PR #%d was closed; restore it explicitly before retrying this candidate").

Definition inspect_open (req : PendingRequest) (pr : publicationPR) : P (B := B) (list PendingPublication) :=
  _ ← wrap_err "sync PR #%d ownership: %w" (of_res (verifyAppActor (User pr) (AppBotID req)));
  let projection := publicationProjection (pr_Body pr) in
  pending ← inspectPublicationHead req pr;
  mret [set_reusable (Reusable pending && bool_decide (pd_target projection = pp_Target pending) &&
                      String.eqb (pd_head projection) (pp_Head pending) &&
                      String.eqb (pd_base projection) (BaseBranch req)) pending].

Definition inspect_pr (req : PendingRequest) (pr : publicationPR) : P (B := B) (list PendingPublication) :=
  if negb (is_sync_branch (Ref (pr_Head pr))) then
    if (0 <? size (parseSyncMetadata (pr_Body pr)))%nat then
      fail (publicationPolicy "sync PR #%d branch was renamed outside its publishing namespace")
    else mret []
  else if bool_decide (MergedAt pr <> None) then mret []
  else if negb (String.eqb (FullName (pr_Head pr)) (Repository req)) || negb (String.eqb (Ref (pr_Base pr)) (BaseBranch req)) then
    fail (publicationPolicy "sync PR #%d has another repository or base")
  else if negb (String.eqb (pr_State pr) "open") then inspect_closed req pr
  else inspect_open req pr.

(** The pending target is a newer stable version than the requested one. *)
Definition older_request (req : PendingRequest) (pending : PendingPublication) : bool :=
  match parseRustTag (SourceRefName (pp_Target pending)), parseRustTag (RefName (req_Target req)) with
  | Some pendingVersion, Some requestedVersion => (compareVersion requestedVersion pendingVersion <? 0)%Z
  | _, _ => false
  end.

(** The pull request a second time; [changed] if it is not the one inspected. *)
Definition pr_changed (req : PendingRequest) (pending : PendingPublication) (current : publicationPR) : bool :=
  negb (String.eqb (pr_State current) "open") || negb (String.eqb (Ref (pr_Head current)) (Branch pending)) ||
  negb (String.eqb (FullName (pr_Head current)) (Repository req)) || negb (String.eqb (Ref (pr_Base current)) (BaseBranch req)) ||
  negb (String.eqb (pr_Body current) (Description pending)) || negb (String.eqb (pr_Title current) (Title pending)).

Definition with_checks (checks : Observation) (p : PendingPublication) : PendingPublication :=
  {| Number := Number p; URL := URL p; Branch := Branch p; pp_Head := pp_Head p; pp_BaseSHA := pp_BaseSHA p;
     pp_Checks := "current-head required checks " +:+ state_text (obs_State checks) +:+
       (if bool_decide (obs_State checks = Succeeded) then "; no fresh proof acquired" else "");
     Description := Description p; Title := Title p; pp_Target := pp_Target p;
     Reusable := Reusable p; Repair := Repair p; CheckObservation := Some checks |}.

Definition confirm_pending (req : PendingRequest) (pending : PendingPublication) : P (B := B) PendingPublication :=
  _ ← guard (older_request req pending)
        (publicationPolicy "pending PR already targets a newer stable version; refusing an older publication");
  current ← get decode_pr (pull_path (Repository req) (Number pending));
  _ ← guard (pr_changed req pending current) (publicationPolicy "sync PR #%d changed while inspecting it");
  if Reusable pending && ReadChecks req then
    checks ← observe (Repository req) (pp_Head pending);
    mret (with_checks checks pending)
  else mret pending.

Definition InspectPending (req : PendingRequest) : P (B := B) PendingPublication :=
  _ ← guard (AppBotID req <=? 0)%Z
        (publicationPolicy "configure PROTOCOL_SYNC_APP_BOT_ID to the publishing App bot user ID");
  _ ← guard (String.eqb (Repository req) "" || String.eqb (BaseBranch req) "" || negb (shaRE (BaseSHA req)))
        (publicationPolicy "repository, base branch and exact base SHA are required");
  prs ← listPublicationPRs pages (Repository req);
  found ← collect (inspect_pr req) prs;
  match found with
  | [] => inspectOrphanPublication req prs
  | [pending] => confirm_pending req pending
  | _ => fail (publicationPolicy "multiple pending sync PRs require reconciliation")
  end.
End inspection.

(** * What the answers of git and of the API say *)

Section said.
Context {W : Type} {B : Boundary W}.
Implicit Types (L : list (event (B := B))).

(** The remote holds [branch] at [sha]. *)
Definition remote_at L (remote branch sha : string) : Prop :=
  exists out name, Ran ["ls-remote"; remote; "refs/heads/" +:+ branch] (Ok out) ∈ L /\ str_fields out = [sha; name].

(** The tree of [head] holds the baseline identity [identity]. *)
Definition identity_at L (head : string) (identity : BaselineIdentity) : Prop :=
  exists raw, Ran ["show"; head +:+ ":" +:+ metadata_path] (Ok raw) ∈ L /\ decode_metadata raw = Ok identity.

(** [head] is a commit with the one parent [base]. *)
Definition child_of L (head base : string) : Prop :=
  exists out self, Ran ["rev-list"; "--parents"; "-n"; "1"; head] (Ok out) ∈ L /\ str_fields out = [self; base].

Definition contained_in L (commit main : string) : Prop :=
  exists out, Ran ["merge-base"; "--is-ancestor"; commit; main] (Ok out) ∈ L.

(** The last push of [branch] moved it to [head] and was made by [user]. *)
Definition pushed_by L (req : PendingRequest) (branch head : string) (user : publicationUser) : Prop :=
  exists raw a, Asked "GET" (activity_path req branch) None (Ok raw) ∈ L /\ decode_activities raw = Ok [a] /\
    act_Ref a = "refs/heads/" +:+ branch /\ After a = head /\ Actor a = user.

Definition paths_of (out : string) : list string := filter (fun p => p <> "") (split_byte (byte 0) out).

(** The worktree was clean. *)
Definition clean_worktree L : Prop := exists tracked untracked,
  Ran tracked_args (Ok tracked) ∈ L /\ Ran untracked_args (Ok untracked) ∈ L /\
  Scope.AssertClean (Scope.ChangedPaths (Ok (paths_of tracked)) (Ok (paths_of untracked))) = Ok tt.

(** Every path that differs between the two commits is in the final scope. *)
Definition differs_in_scope L (base head : string) : Prop :=
  exists out, Ran ["diff"; "--name-only"; "--no-renames"; "-z"; base; head; "--"] (Ok out) ∈ L /\
    Forall (fun p => phase_allows "final" p = true) (filter (fun p => p <> "") (split_byte (byte 0) out)).

(** The pages of the listing, in order, the last one short. *)
Definition listed L (repository : string) (prs : list publicationPR) : Prop :=
  exists batches last, prs = concat batches ++ last /\ Forall (fun b => 100 <= length b) batches /\ length last < 100 /\
    forall i b, (batches ++ [last]) !! i = Some b ->
      exists raw, Asked "GET" (pulls_path repository (S i)) None (Ok raw) ∈ L /\ decode_prs raw = Ok b.

(** The pull request was read again and is unchanged. *)
Definition reread L (req : PendingRequest) (p : PendingPublication) : Prop :=
  exists raw current, Asked "GET" (pull_path (Repository req) (Number p)) None (Ok raw) ∈ L /\
    decode_pr raw = Ok current /\ pr_changed req p current = false.

Definition is_bot (user : publicationUser) (botID : Z) : Prop := user_Type user = "Bot" /\ user_ID user = botID.

Definition target_identity (target : Target) : BaselineIdentity :=
  {| SourceCommit := PeeledCommitSHA target; SourceRefName := RefName target; SourceRefKind := RefKind target |}.

(** A head with one parent that the publisher owns: it descends from the
    accepted base, the bot pushed it, it changes only what a publication may
    change, and its identity is complete and not a moved version of the target's ref. *)
Definition owned_candidate L (req : PendingRequest) (p : PendingPublication) : Prop :=
  child_of L (pp_Head p) (pp_BaseSHA p) /\ contained_in L (pp_BaseSHA p) (BaseSHA req) /\
  (exists user, pushed_by L req (Branch p) (pp_Head p) user /\ is_bot user (AppBotID req)) /\
  differs_in_scope L (pp_BaseSHA p) (pp_Head p) /\ complete_identity (pp_Target p) = true /\
  (same_ref (pp_Target p) (req_Target req) = true -> pp_Target p = target_identity (req_Target req)).

Definition owned_head L (req : PendingRequest) (p : PendingPublication) : Prop :=
  shaRE (pp_Head p) = true /\ remote_at L (publicationRemote req) (Branch p) (pp_Head p) /\
  identity_at L (pp_Head p) (pp_Target p) /\
  if Repair p then RepairPending req = true /\ Reusable p = false /\ pp_BaseSHA p = "" /\ pp_Target p = target_identity (req_Target req)
  else owned_candidate L req p.

(** A publication that needs no new candidate. *)
Definition reusable (req : PendingRequest) (p : PendingPublication) : Prop :=
  pp_BaseSHA p = BaseSHA req /\ pp_Target p = target_identity (req_Target req) /\
  publicationProjection (Description p) =
    {| pd_target := pp_Target p; pd_head := pp_Head p; pd_base := BaseBranch req |}.

(** An open pull request of a sync branch into the base of the repository. *)
Definition open_sync (pr : publicationPR) : bool :=
  is_sync_branch (Ref (pr_Head pr)) && negb (bool_decide (MergedAt pr <> None)) && String.eqb (pr_State pr) "open".
Definition closed_sync (pr : publicationPR) : bool :=
  is_sync_branch (Ref (pr_Head pr)) && negb (bool_decide (MergedAt pr <> None)) && negb (String.eqb (pr_State pr) "open").

Definition of_pr (pr : publicationPR) (p : PendingPublication) : Prop :=
  Number p = pr_Number pr /\ URL p = pr_URL pr /\ Branch p = Ref (pr_Head pr) /\
  Description p = pr_Body pr /\ Title p = pr_Title pr.
End said.

(** * Reads *)

Section reads.
Context {W : Type} {B : Boundary W} (pages : nat).
Abbreviation reads := (emits (B := B) (fun e => read_only e = true)).

Lemma remotePublicationHead_reads remote branch : reads (remotePublicationHead remote branch).
Proof. unfold remotePublicationHead. emitted. Qed.
Lemma gitBaselineIdentity_reads head : reads (gitBaselineIdentity head).
Proof. unfold gitBaselineIdentity. emitted. Qed.
Lemma fetchPublicationCommit_reads req head : reads (fetchPublicationCommit req head).
Proof. unfold fetchPublicationCommit. emitted. Qed.
Lemma publicationHeadActor_reads req branch head : reads (publicationHeadActor req branch head).
Proof. unfold publicationHeadActor. emitted. Qed.
Hint Resolve remotePublicationHead_reads gitBaselineIdentity_reads fetchPublicationCommit_reads
  publicationHeadActor_reads : emitting.

Lemma inspect_candidate_reads req pr head base : reads (inspect_candidate req pr head base).
Proof. unfold inspect_candidate. emitted. Qed.
Lemma repairNonSingleHead_reads req pr head : reads (repairNonSingleHead req pr head).
Proof. unfold repairNonSingleHead. emitted. Qed.
Hint Resolve inspect_candidate_reads repairNonSingleHead_reads : emitting.

Lemma inspectPublicationHead_reads req pr : reads (inspectPublicationHead req pr).
Proof. unfold inspectPublicationHead. emitted. Qed.
Hint Resolve inspectPublicationHead_reads : emitting.

Lemma inspect_orphan_reads req known line : reads (inspect_orphan req known line).
Proof. unfold inspect_orphan. emitted. Qed.
Lemma inspect_pr_reads req pr : reads (inspect_pr req pr).
Proof. unfold inspect_pr, inspect_closed, inspect_open. emitted. Qed.
Lemma collect_reads {X A} (f : X -> P (B := B) (list A)) l : (forall x, reads (f x)) -> reads (collect f l).
Proof. intros Hf. induction l as [|x l IH]; cbn [collect]; emitted; apply Hf. Qed.
Hint Resolve inspect_orphan_reads inspect_pr_reads collect_reads : emitting.

Lemma inspectOrphanPublication_reads req prs : reads (inspectOrphanPublication req prs).
Proof. unfold inspectOrphanPublication. emitted. Qed.
Lemma confirm_pending_reads req pending : reads (confirm_pending req pending).
Proof. unfold confirm_pending. emitted. Qed.
Hint Resolve inspectOrphanPublication_reads confirm_pending_reads : emitting.

Lemma InspectPending_reads req : reads (InspectPending pages req).
Proof. unfold InspectPending. emitted. Qed.
End reads.
#[export] Hint Resolve remotePublicationHead_reads gitBaselineIdentity_reads fetchPublicationCommit_reads
  publicationHeadActor_reads inspectPublicationHead_reads inspect_orphan_reads inspect_pr_reads
  InspectPending_reads : emitting.

(** * What an inspection proves *)

Section proofs.
Context {W : Type} {B : Boundary W} (pages : nat).
Implicit Types (s : flow (B := B)).

(** The answers stay said. *)
Lemma owned_head_mono L L' req p : L ⊆ L' -> owned_head (B := B) L req p -> owned_head L' req p.
Proof.
  unfold owned_head, owned_candidate, remote_at, identity_at, child_of, contained_in, pushed_by, differs_in_scope.
  intros HL. destruct (Repair p); naive_solver.
Qed.

Lemma remotePublicationHead_inv remote branch head s s' :
  remotePublicationHead remote branch s = Some (Ok head, s') ->
  exists out, log s' = Ran ["ls-remote"; remote; "refs/heads/" +:+ branch] (Ok out) :: log s /\
    (head = "" /\ str_fields out = [] \/ shaRE head = true /\ exists name, str_fields out = [head; name]).
Proof.
  unfold remotePublicationHead. intros H. undo. exists a.
  destruct (str_fields a) as [|sha [|name [|]]]; undo; [split; [done | by left]|].
  destruct (shaRE sha) eqn:Es; undo. split; [done | right]. split; [done | by exists name].
Qed.

Lemma identity_inv head identity s s' :
  gitBaselineIdentity head s = Some (Ok identity, s') -> identity_at (log s') head identity /\ log s ⊆ log s'.
Proof.
  unfold gitBaselineIdentity, decodeBaselineIdentity. intros H. undo. rewrite H0.
  destruct (decode_metadata a) as [i|] eqn:Ed; [|done]. injection H as ->. split; [|set_solver].
  exists a. split; [apply list_elem_of_here | done].
Qed.

Lemma actor_inv req branch head user s s' :
  publicationHeadActor req branch head s = Some (Ok user, s') ->
  pushed_by (log s') req branch head user /\ log s ⊆ log s'.
Proof.
  unfold publicationHeadActor. intros H. undo. destruct a as [|a [|]]; undo. destruct (_ && _) eqn:E; undo.
  apply andb_true_iff in E as [E1%String.eqb_eq E2%String.eqb_eq]. rewrite H0. split; [|set_solver].
  eexists _, a. split_and!; [apply list_elem_of_here | done..].
Qed.

Lemma bot_inv user botID u : verifyAppActor user botID = Ok u -> is_bot user botID.
Proof.
  unfold verifyAppActor. intros [H1%negb_false_iff%String.eqb_eq H2%negb_false_iff%Z.eqb_eq]%guard_err_Ok%orb_false_iff.
  by split.
Qed.

Lemma same_target identity target :
  same_commit identity target = true -> same_ref identity target = true -> identity = target_identity target.
Proof.
  unfold same_commit, same_ref. intros ?%String.eqb_eq [?%String.eqb_eq ?%String.eqb_eq]%andb_true_iff.
  destruct identity. simpl in *. by subst.
Qed.

Lemma AssertClean_inv u s s' : AssertClean s = Some (Ok u, s') -> clean_worktree (log s') /\ log s ⊆ log s'.
Proof.
  unfold AssertClean, ChangedPaths. intros H. undo. split; [|later].
  eexists _, _. split; [said|]. split; [said|]. unfold paths_of. rewrite H0. destruct u. exact H.
Qed.

Lemma validatePaths_final paths u :
  validatePaths paths "final" = Ok u -> Forall (fun p => phase_allows "final" p = true) paths.
Proof. intros H. pose proof (validatePaths_spec paths "final") as Hs. rewrite H in Hs. apply Hs. Qed.

Lemma candidate_inv req pr head base p s s' :
  inspect_candidate req pr head base s = Some (Ok p, s') ->
  of_pr pr p /\ pp_Head p = head /\ pp_BaseSHA p = base /\ Repair p = false /\ identity_at (log s') head (pp_Target p) /\
  (Reusable p = true -> base = BaseSHA req /\ pp_Target p = target_identity (req_Target req)) /\
  (child_of (log s) head base -> is_bot (User pr) (AppBotID req) -> owned_candidate (log s') req p) /\ log s ⊆ log s'.
Proof.
  unfold inspect_candidate. intros H. undo. repeat match goal with
  | H : publicationHeadActor _ _ _ _ = Some _ |- _ => apply actor_inv in H as [? ?]
  | H : gitBaselineIdentity _ _ = Some _ |- _ => apply identity_inv in H as [? ?] end. reflect_bools.
  destruct x as [u|]; [|done]. undo. apply validatePaths_final in H5.
  assert (log s ⊆ log s6) as Hl by later.
  split_and!; try done.
  - simpl. intros Hr. reflect_bools. split; [by apply String.eqb_eq | by apply same_target].
  - intros (out & self & Hc & Hf) [Hb1 Hb2]. unfold owned_candidate. simpl. split_and!.
    + exists out, self. split; [by apply Hl | done].
    + eexists. said.
    + destruct H as (raw & a & Ha & ? & ? & ? & <-). exists (Actor a). split.
      * exists raw, a. split_and!; try done. said.
      * split; [by apply String.eqb_eq|]. apply Z.eqb_eq in H3. congruence.
    + eexists. split; [said | exact H5].
    + unfold complete_identity. by rewrite H7, H11, H10.
    + intros Hs. apply same_target; [|done]. rewrite Hs in H8. simpl in H8. by apply negb_false_iff in H8.
Qed.
Lemma repair_inv req pr head p s s' :
  repairNonSingleHead req pr head s = Some (Ok p, s') ->
  of_pr pr p /\ pp_Head p = head /\ Repair p = true /\ Reusable p = false /\ pp_BaseSHA p = "" /\
  pp_Target p = target_identity (req_Target req) /\ identity_at (log s') head (pp_Target p) /\ log s ⊆ log s'.
Proof.
  unfold repairNonSingleHead. intros H. undo. apply identity_inv in H0 as [Hi Hl]. reflect_bools.
  split_and!; try done. by apply same_target.
Qed.

Lemma fetch_later req head s r s' : fetchPublicationCommit req head s = Some (r, s') -> log s ⊆ log s'.
Proof. apply (emits_later (fun e => read_only e = true)). apply fetchPublicationCommit_reads. Qed.

(** The head of an open pull request, or of a branch of the bot. *)
Lemma head_inv req pr p s s' (Hb : is_bot (User pr) (AppBotID req)) :
  inspectPublicationHead req pr s = Some (Ok p, s') ->
  of_pr pr p /\ owned_head (log s') req p /\
  (Reusable p = true -> Repair p = false /\ pp_BaseSHA p = BaseSHA req /\ pp_Target p = target_identity (req_Target req)) /\
  log s ⊆ log s'.
Proof.
  unfold inspectPublicationHead. intros H. undo.
  apply remotePublicationHead_inv in H0 as (out & E1 & Hout). rename a into head. reflect_bools.
  destruct Hout as [[-> _]|[_ (name & Hn)]]; [done|]. apply fetch_later in H2.
  assert (forall s, log s3 ⊆ log s -> remote_at (log s) (publicationRemote req) (Ref (pr_Head pr)) head) as Hr.
  { intros s4 Hl. exists out, name. split; [apply Hl; said | done]. }
  assert (forall p, repairNonSingleHead req pr head s3 = Some (Ok p, s') -> RepairPending req = true ->
    of_pr pr p /\ owned_head (log s') req p /\
    (Reusable p = true -> Repair p = false /\ pp_BaseSHA p = BaseSHA req /\ pp_Target p = target_identity (req_Target req)) /\
    log s ⊆ log s') as Hrepair.
  { intros q (Ho & Eh & Er & Eu & Eb & Et & Hi & Hl)%repair_inv Hp. pose proof Ho as (_ & _ & Ebr & _).
    split; [done|]. split; [|split; [by rewrite Eu | later]].
    unfold owned_head. rewrite Eh, Er, Ebr. by eauto 10. }
  destruct (str_fields a2) as [|self [|base [|]]] eqn:Ef; try (destruct (RepairPending req); undo; by apply Hrepair).
  apply candidate_inv in H as (Ho & Eh & Eb & Er & Hi & Hre & Hc & Hl). pose proof Ho as (_ & _ & Ebr & _).
  split; [done|]. split; [|split; [intros Hu; destruct (Hre Hu); by rewrite Eb | later]].
  unfold owned_head. rewrite Eh, Er, Ebr. split_and!; try done; [by apply Hr|].
  apply Hc; [|done]. exists a2, self. split; [said | done].
Qed.
Lemma owned_set_reusable L req p b :
  owned_head (B := B) L req p -> (b = true -> Repair p = false) -> owned_head L req (set_reusable b p).
Proof.
  unfold owned_head, owned_candidate. simpl. intros (? & ? & ? & H) Hb. split_and!; try done.
  destruct (Repair p); [|done]. destruct H as (? & _ & ? & ?). split_and!; try done. destruct b; [by discriminate Hb | done].
Qed.

(** ** Loops *)

Lemma collect_inv {X A} (f : X -> P (B := B) (list A)) l :
  (forall x s a s', f x s = Some (Ok a, s') -> log s ⊆ log s') -> forall found s s',
  collect f l s = Some (Ok found, s') -> log s ⊆ log s' /\ exists founds, found = concat founds /\
    Forall2 (fun x a => exists s1 s2, f x s1 = Some (Ok a, s2) /\ log s2 ⊆ log s') l founds.
Proof.
  intros Hf. induction l as [|x l IH]; intros found s s' H; cbn [collect] in H; undo.
  - split; [done|]. exists []. split; [done | constructor].
  - apply IH in H1 as [Hl (founds & -> & Ha)]. pose proof (Hf _ _ _ _ H0) as Hl0. split; [later|].
    exists (a :: founds). split; [done|]. constructor; [by exists s, s0 | done].
Qed.

Lemma list_prs_inv repository n : forall page all prs s s',
  list_prs repository n page all s = Some (Ok prs, s') -> exists l, log s' = l ++ log s /\
  exists batches last, prs = all ++ concat batches ++ last /\ Forall (fun b => 100 <= length b) batches /\ length last < 100 /\
    forall i b, (batches ++ [last]) !! i = Some b ->
      exists raw, Asked "GET" (pulls_path repository (page + i)) None (Ok raw) ∈ l /\ decode_prs raw = Ok b.
Proof.
  induction n as [|n IH]; intros page all prs s s' H; cbn [list_prs] in H; undo.
  destruct (Nat.ltb_spec (length a) 100) as [Hs|Hs]; undo.
  - eexists [_]. split; [exact H0|]. exists [], a. split_and!; [done | constructor | done|].
    intros [|[|i]] b [= <-]. rewrite Nat.add_0_r. eexists. split; [left | done].
  - apply IH in H as (l & El & batches & last & -> & Hb & Hlast & Hget). rewrite H0 in El.
    eexists (l ++ [_]). split; [by rewrite El, <- app_assoc|].
    exists (a :: batches), last. split_and!; [by simpl; rewrite <- !app_assoc | by constructor | done|].
    intros [|i] b Hi.
    + injection Hi as <-. rewrite Nat.add_0_r. eexists. split; [apply elem_of_app; right; left | done].
    + rewrite <- Nat.add_succ_comm. destruct (Hget _ _ Hi) as (raw & ? & ?). exists raw. split; [apply elem_of_app; by left | done].
Qed.

(** The bound on the pages is only reached by a listing that goes on: the API
    failed with this very error, or every page up to the bound was full. *)
Lemma list_prs_exhausted repository n : forall page all s s',
  list_prs repository n page all s = Some (Err too_many_pages, s') -> log s ⊆ log s' /\
  ((exists i s1 s2, get decode_prs (pulls_path repository i) s1 = Some (Err too_many_pages, s2)) \/
   forall i, i < n -> exists raw b, Asked "GET" (pulls_path repository (page + i)) None (Ok raw) ∈ log s' /\
     decode_prs raw = Ok b /\ 100 <= length b).
Proof.
  induction n as [|n IH]; intros page all s s' H; cbn [list_prs] in H; [injection H as <-; split; [done|]; right; lia|].
  apply P_bind_inv in H as [(b & s1 & H1 & H)|(e & H1 & [= <-])].
  - destruct (get_inv _ _ _ _ _ H1) as (raw & El & Hd).
    destruct (Nat.ltb_spec (length b) 100) as [Hs|Hs]; [done|]. apply IH in H as [Hl H]. split; [later|].
    destruct H as [?|H]; [by left | right]. intros [|i] Hi.
    + rewrite Nat.add_0_r. exists raw, b. split; [said | done].
    + rewrite <- Nat.add_succ_comm. apply H. lia.
  - split; [|left; eauto]. revert H1. apply (emits_later (fun e => read_only e = true)). emitted.
Qed.

(** What each of two results of a loop proves, for the items that have one. *)
Lemma collected {X A} (has : X -> bool) (R : X -> A -> Prop) l founds :
  Forall2 (fun x a => a = [] /\ has x = false \/ exists p, a = [p] /\ has x = true /\ R x p) l founds ->
  Forall2 R (filter (fun x => has x = true) l) (concat founds).
Proof.
  induction 1 as [|x a l founds [[-> Hx]|(p & -> & Hx & Hp)] _ IH]; [constructor| |]; rewrite filter_cons, Hx; simpl; [done|].
  by constructor.
Qed.

(** ** Pull requests and orphans *)

(** A pull request whose inspection found [p]. *)
Definition inspected (L : list (event (B := B))) req (pr : publicationPR) (p : PendingPublication) : Prop :=
  of_pr pr p /\ FullName (pr_Head pr) = Repository req /\ Ref (pr_Base pr) = BaseBranch req /\
  is_bot (User pr) (AppBotID req) /\ owned_head L req p /\ (Reusable p = true -> Repair p = false /\ reusable req p).

Lemma inspect_open_inv req pr a s s' :
  inspect_open req pr s = Some (Ok a, s') ->
  FullName (pr_Head pr) = Repository req -> Ref (pr_Base pr) = BaseBranch req ->
  exists p, a = [p] /\ inspected (log s') req pr p.
Proof.
  unfold inspect_open. intros H Hf Hbase. undo. apply bot_inv in H0. apply head_inv in H1 as (Ho & Hh & Hr & _); [|done].
  eexists. split; [done|]. split; [exact Ho|]. split_and!; [done.. | |].
  { apply owned_set_reusable; [done|]. intros Hu. reflect_bools. by apply Hr. }
  simpl. intros Hu. reflect_bools.
  destruct (Hr ltac:(done)) as (Hrep & Hb & Ht). split; [done|]. split; [done|]. split; [done|]. simpl.
  destruct Ho as (_ & _ & _ & -> & _).
  repeat match goal with E : String.eqb _ _ = true |- _ => apply String.eqb_eq in E end.
  unfold publicationProjection. simpl in *. congruence.
Qed.

(** The closed pull request [pr] is of another target. *)
Definition other_target (L : list (event (B := B))) req (pr : publicationPR) : Prop :=
  exists identity, identity_at L (ref_SHA (pr_Head pr)) identity /\ identity <> target_identity (req_Target req).

Lemma inspect_closed_inv req pr a s s' :
  inspect_closed req pr s = Some (Ok a, s') -> a = [] /\ other_target (log s') req pr.
Proof.
  unfold inspect_closed. intros H. undo. apply identity_inv in H1 as [Hi _].
  destruct (same_ref a1 _ && _); undo. destruct (_ || _) eqn:E; undo. split; [done|]. exists a1. split; [done|].
  intros ->. unfold same_ref, same_commit in E. simpl in E. by rewrite !String.eqb_refl in E.
Qed.

Lemma inspect_pr_inv req pr a s s' :
  inspect_pr req pr s = Some (Ok a, s') ->
  (a = [] /\ open_sync pr = false \/ exists p, a = [p] /\ open_sync pr = true /\ inspected (log s') req pr p) /\
  (closed_sync pr = true -> other_target (log s') req pr).
Proof.
  unfold inspect_pr, open_sync, closed_sync. intros H. destruct (is_sync_branch _); simpl in *.
  2: { destruct (0 <? _)%nat; undo. split; [by left | done]. }
  destruct (bool_decide _); simpl; undo; [split; [by left | done]|].
  destruct (_ || _) eqn:E; undo. apply orb_false_iff in E as [E1%negb_false_iff%String.eqb_eq E2%negb_false_iff%String.eqb_eq].
  destruct (String.eqb (pr_State pr) "open"); simpl in *.
  - apply inspect_open_inv in H as (p & -> & Hp); [|done..]. split; [right; by exists p | done].
  - apply inspect_closed_inv in H as [-> Ho]. split; [by left | done].
Qed.

Lemma inspect_orphan_inv req known line a s s' :
  inspect_orphan req known line s = Some (Ok a, s') ->
  a = [] /\ (str_fields line = [] \/ exists sha ref, str_fields line = [sha; ref] /\ trim_prefix "refs/heads/" ref ∈ known) \/
  exists p, a = [p] /\ Number p = 0%Z /\ Branch p ∉ known /\ Reusable p = false /\ owned_head (log s') req p.
Proof.
  unfold inspect_orphan. intros H. destruct (str_fields line) as [|sha [|ref [|]]]; undo; [left; by auto|].
  destruct (negb (shaRE sha)); undo. destruct (mem _ known) eqn:Em; undo.
  - left. split; [done|]. right. exists sha, ref. split; [done | by apply mem_true].
  - right. apply bot_inv in H1. apply head_inv in H2 as ((Hn & _ & Hb & _) & Hh & Hr & _); [|done].
    eexists. split; [done|]. simpl. split_and!; [done | | done | ].
    + rewrite Hb. simpl. intros Hk%mem_true. congruence.
    + by apply owned_set_reusable.
Qed.
(** No branch of the namespace is left without a pull request. *)
Definition no_orphans (L : list (event (B := B))) req (prs : list publicationPR) : Prop :=
  exists out, Ran ["ls-remote"; "--heads"; publicationRemote req; "refs/heads/codex/sync-upstream*"] (Ok out) ∈ L /\
    Forall (fun line => str_fields line = [] \/ exists sha ref, str_fields line = [sha; ref] /\
              trim_prefix "refs/heads/" ref ∈ map (fun pr => Ref (pr_Head pr)) prs)
           (split_byte PublicationText.newline (trim_space out)).

Lemma reads_later {A} (m : P A) s r s' : emits (B := B) (fun e => read_only e = true) m -> m s = Some (r, s') -> log s ⊆ log s'.
Proof. apply emits_later. Qed.

Lemma orphan_inv req prs p s s' :
  inspectOrphanPublication req prs s = Some (Ok p, s') ->
  Number p = 0%Z /\ Reusable p = false /\
  (owned_head (log s') req p /\ Branch p ∉ map (fun pr => Ref (pr_Head pr)) prs \/
   pp_Head p = "absent" /\ no_orphans (log s') req prs /\
   syncBranchName (RefName (req_Target req)) (PeeledCommitSHA (req_Target req)) (BaseSHA req) = Some (Branch p)).
Proof.
  unfold inspectOrphanPublication. intros H. undo.
  apply collect_inv in H1 as [Hl (founds & -> & Hf)]; [|intros; by eapply reads_later; [apply inspect_orphan_reads|]].
  assert (log s0 ⊆ log s1) as Hl1 by later.
  destruct (concat founds) as [|q [|]] eqn:Ec; undo.
  - apply of_option_Ok in H1 as (branch & Hb & [= ->] & ->). split; [done|]. split; [done|]. right.
    split; [done|]. split; [|done]. exists a. split; [said|].
    assert (Forall (fun a => a = []) founds) as Hnil.
    { clear -Ec. induction founds as [|[|? ?] founds IH]; [constructor | constructor; auto | done]. }
    clear -Hf Hnil. induction Hf as [|line a' lines founds (s2 & s3 & Ho & _) _ IH]; [constructor|].
    apply Forall_cons in Hnil as [-> Hnil]. constructor; [|by apply IH].
    apply inspect_orphan_inv in Ho as [[_ ?]|(? & ? & _)]; done.
  - assert (exists line s2 s3 a', inspect_orphan req (map (fun pr => Ref (pr_Head pr)) prs) line s2 = Some (Ok a', s3) /\
              log s3 ⊆ log s1 /\ q ∈ a') as (line & s2 & s3 & a' & Ho & Hl3 & Hq).
    { assert (q ∈ concat founds) as Hq by (rewrite Ec; left). apply list_elem_of_In, in_concat in Hq as (a' & Ha & Hq).
      apply list_elem_of_In, list_elem_of_lookup in Ha as [i Ha].
      destruct (Forall2_lookup_r _ _ _ _ _ Hf Ha) as (line & _ & s2 & s3 & ? & ?). exists line, s2, s3, a'.
      split_and!; [done | done | by apply list_elem_of_In]. }
    apply inspect_orphan_inv in Ho as [[-> _]|(p & -> & Hn & Hb & Hr & Hh)]; [by apply not_elem_of_nil in Hq|].
    apply list_elem_of_singleton in Hq as ->. split; [done|]. split; [done|]. left. split; [|done].
    by eapply owned_head_mono.
Qed.

Lemma listed_mono L L' repository prs : L ⊆ L' -> listed (B := B) L repository prs -> listed L' repository prs.
Proof.
  intros HL (bs & last & Hp & Hb & Hlast & Hget). exists bs, last. split_and!; try done.
  intros i b (raw & ? & ?)%Hget. exists raw. split; [by apply HL | done].
Qed.

(** The listing is what the API answered to it. *)
Lemma listed_new repository prs s s' :
  listPublicationPRs pages repository s = Some (Ok prs, s') -> exists l, log s' = l ++ log s /\ listed l repository prs.
Proof. intros (l & El & bs & last & Hp & ?)%list_prs_inv. exists l. split; [done | by exists bs, last]. Qed.

Lemma listed_inv repository prs s s' :
  listPublicationPRs pages repository s = Some (Ok prs, s') -> listed (log s') repository prs /\ log s ⊆ log s'.
Proof. intros (l & -> & Hl)%listed_new. split; [eapply listed_mono; [|exact Hl] |]; set_solver. Qed.

Lemma inspected_mono L L' req pr p : L ⊆ L' -> inspected L req pr p -> inspected L' req pr p.
Proof. intros HL (? & ? & ? & ? & ? & ?). split_and!; try done. by eapply owned_head_mono. Qed.

(** Nothing that was found changed in the meantime. *)
Lemma confirm_pending_inv req p p' s s' :
  confirm_pending req p s = Some (Ok p', s') ->
  older_request req p = false /\ reread (log s') req p /\ log s ⊆ log s' /\
  (p' = p \/ exists checks, p' = with_checks checks p).
Proof.
  unfold confirm_pending. intros H. undo. destruct (_ && _); undo.
  - match goal with Ho : observe _ _ _ = _ |- _ => apply (reads_later _ _ _ _ (observe_reads _ _)) in Ho end.
    split; [done|]. split; [|split; [later | eauto]]. eexists _, a0. split; [said | done].
  - split; [done|]. split; [|split; [later | by left]]. eexists _, a0. split; [said | done].
Qed.

(** The loop over the pull requests. *)
Lemma inspect_prs_inv req prs found s s' :
  collect (inspect_pr req) prs s = Some (Ok found, s') -> log s ⊆ log s' /\
  Forall (fun pr => closed_sync pr = true -> other_target (log s') req pr) prs /\
  Forall2 (inspected (log s') req) (filter (fun pr => open_sync pr = true) prs) found.
Proof.
  intros [Hl (founds & -> & Hf)]%collect_inv; [|intros; by eapply reads_later; [apply inspect_pr_reads|]].
  split; [done|]. split.
  - clear Hl. induction Hf as [|pr a prs founds (s1 & s2 & H & Hs2) _ IH]; constructor; [|done].
    intros Hc. apply inspect_pr_inv in H as [_ Ho]. destruct (Ho Hc) as (identity & (raw & Hr & Hd) & Hn).
    exists identity. split; [|done]. exists raw. split; [by apply Hs2 | done].
  - apply collected. eapply Forall2_impl; [exact Hf|]. intros pr a (s1 & s2 & [Hi _]%inspect_pr_inv & Hs2).
    destruct Hi as [Hi|(p & -> & Ho & Hp)]; [by left|]. right. exists p. split_and!; try done. by eapply inspected_mono.
Qed.

(** An inspection only reads, and what it reports is proved by what git and
    the API answered to it: at most one sync pull request is open, its branch
    is at the reported head, the publishing bot made the last push, the head is
    one commit on the accepted history that changes only publishable paths and
    holds the reported identity (or, only where repair was asked for, a
    contaminated head with the target's identity), and the pull request was
    read again unchanged; it is reusable only on exactly this base with exactly
    this target and projection; no closed pull request is of this target; and
    absence is only reported when no branch of the namespace is left over. *)
Theorem InspectPending_proven (req : PendingRequest) p s s' (H : InspectPending pages req s = Some (Ok p, s')) :
  (exists l, log s' = l ++ log s /\ Forall (fun e => read_only e = true) l) /\
  exists prs, listed (log s') (Repository req) prs /\
    Forall (fun pr => closed_sync pr = true -> other_target (log s') req pr) prs /\
    match filter (fun pr => open_sync pr = true) prs with
    | [] =>
      Number p = 0%Z /\ Reusable p = false /\
      (owned_head (log s') req p /\ Branch p ∉ map (fun pr => Ref (pr_Head pr)) prs \/
       pp_Head p = "absent" /\ no_orphans (log s') req prs /\
       syncBranchName (RefName (req_Target req)) (PeeledCommitSHA (req_Target req)) (BaseSHA req) = Some (Branch p))
    | [pr] =>
      inspected (log s') req pr p /\ older_request req p = false /\ reread (log s') req p
    | _ => False
    end.
Proof.
  split; [by eapply InspectPending_reads|].
  unfold InspectPending in H. undo. apply listed_inv in H2 as [Hp Hl].
  apply inspect_prs_inv in H3 as (Hl1 & Hc & Hf). exists a1.
  destruct a2 as [|q [|]]; undo; inversion Hf as [Hnil|pr ? prs ? Hi Hrest Hprs]; subst.
  - pose proof (reads_later _ _ _ _ (inspectOrphanPublication_reads _ _) H) as Hl2.
    split; [eapply listed_mono; [|exact Hp]; later|]. split; [|by eapply orphan_inv].
    eapply Forall_impl; [exact Hc|]. intros pr Ho Hcl. destruct (Ho Hcl) as (i & (raw & Hr & Hd) & Hn). exists i. split; [exists raw; split; [said | done] | done].
  - inversion Hrest. apply confirm_pending_inv in H as (Ho & Hr & Hl2 & Hp').
    split; [eapply listed_mono; [|exact Hp]; later|]. split.
    + eapply Forall_impl; [exact Hc|]. intros pr' Hcl1 Hcl2. destruct (Hcl1 Hcl2) as (i & (raw & Hraw & Hd) & Hn).
      exists i. split; [exists raw; split; [said | done] | done].
    + apply (inspected_mono _ (log s')) in Hi; [|later]. destruct Hp' as [->|(checks & ->)]; done.
Qed.
End proofs.

(** The repository with the pull request that publishes the target. *)
Definition published_hub : hub :=
  {| hub_branch := Some hub_head;
     hub_pulls := [hub_pr hub_branch_name
       (publicationBody "main" "rust-v1.2.0" "stable_rust_tag" hub_target hub_head) (publicationTitle "rust-v1.2.0")] |}.
Definition hub_requested : Target :=
  {| RefName := "rust-v1.2.0"; RefKind := "stable_rust_tag"; TagSHA := hub_target; PeeledCommitSHA := hub_target;
     TargetExplicit := true |}.
Definition hub_inspection : PendingRequest :=
  {| ReadChecks := false; RepairPending := false; Repository := "o/r"; BaseBranch := "main"; BaseSHA := hub_base;
     Remote := ""; AppBotID := 7; req_Target := hub_requested |}.

Definition sample_inspection := InspectPending (B := hub_boundary) 1 hub_inspection (start_hub published_hub).
Definition sample_pending : PendingPublication :=
  match sample_inspection with Some (Ok p, _) => p | _ => absent "" end.
Lemma sample_inspects : sample_inspection = Some (Ok sample_pending, end_of (start_hub published_hub) sample_inspection).
Proof. apply ends_with. unfold sample_pending. vm_compute. reflexivity. Qed.
Lemma sample_reusable : Reusable sample_pending = true.
Proof. vm_compute. reflexivity. Qed.

Lemma InspectPending_proven_witness :
  reusable hub_inspection sample_pending /\
  owned_head (log (end_of (start_hub published_hub) sample_inspection)) hub_inspection sample_pending.
Proof.
  destruct (InspectPending_proven (B := hub_boundary) 1 hub_inspection sample_pending (start_hub published_hub) _ sample_inspects)
    as (_ & prs & _ & _ & H).
  destruct (filter _ prs) as [|pr [|]].
  - destruct H as (_ & Hr & _). pose proof (eq_trans (eq_sym sample_reusable) Hr). discriminate.
  - destruct H as ((_ & _ & _ & _ & Ho & Hr) & _). split; [apply Hr, sample_reusable | exact Ho].
  - destruct H.
Defined.
