(* ===== verification/Publish.v ===== *)
(** Publication of a candidate: [publication.go] and [Publish] of [publish.go] in
    [src/codexsdk/internal/protocolsync].

    [publishCandidate] first observes and decides ([plan_publication], which
    only reads), then moves the branch ([push_candidate]), writes the pull
    request ([settle_pr]) and reads everything back ([confirm]).  In repair mode
    it first replays the diff of a contaminated head as a local commit
    ([materializeRepairCommit]). *)

From Stdlib Require Import Ascii.
From stdpp Require Import pretty.
From S2P Require Import Prelude GoStrings Policy Scope Resolve PublicationText Checks Boundary Inspection.

Local Open Scope string_scope.
Local Open Scope list_scope.

Record PublishRequest := {
  pub_RepoRoot : string; pub_Repository : string; ExpectedHead : string; ExpectedBranch : string;
  pub_AppBotID : Z; pub_BaseBranch : string; pub_TargetRef : string; pub_TargetKind : string; pub_TargetSHA : string;
  pub_Remote : string; GitHubOutputPath : string; pub_RepairPending : bool }.

Definition OutcomePRPending := "pr_pending".
Definition OutcomeFailed := "failed".

Definition remote_of (req : PublishRequest) : string := if String.eqb (pub_Remote req) "" then "origin" else pub_Remote req.
Definition base_branch (req : PublishRequest) : string := normalizeBranchRef (pub_BaseBranch req) (remote_of req).

Definition requested_identity (req : PublishRequest) : BaselineIdentity :=
  {| SourceCommit := pub_TargetSHA req; SourceRefName := pub_TargetRef req; SourceRefKind := pub_TargetKind req |}.

Definition lookup_request (req : PublishRequest) : ResolveRequest :=
  {| res_Remote := ""; res_UpstreamRef := pub_TargetRef req; res_LatestStable := false |}.

Definition inspection_of (req : PublishRequest) (base : string) (target : Target) (repair : bool) : PendingRequest :=
  {| ReadChecks := false; Inspection.RepairPending := repair; Repository := pub_Repository req; BaseBranch := base_branch req;
     BaseSHA := base; Remote := remote_of req; AppBotID := pub_AppBotID req; req_Target := target |}.

(** What publication decided before its first effect. *)
Record planned := {
  pl_head : string; pl_parent : string; pl_publishHead : string; pl_already : bool; pl_observed : PendingPublication }.

Definition planned_as (head parent : string) (observed : PendingPublication) (already : bool) : planned :=
  {| pl_head := head; pl_parent := parent; pl_publishHead := if already then pp_Head observed else head;
     pl_already := already; pl_observed := observed |}.

Definition source_moved : error := Failure FailureSource "upstream target moved from %s to %s".

Section publish.
Context {W : Type} {B : Boundary W} (pages : nat).
Notation P := (P (B := B)).

Definition fetch_base (req : PublishRequest) : P unit :=
  runGit ["fetch"; remote_of req;
          "refs/heads/" +:+ base_branch req +:+ ":refs/remotes/" +:+ remote_of req +:+ "/" +:+ base_branch req].

(** The upstream target again; it has to be the requested one. *)
Definition resolve_target (req : PublishRequest) : P Target :=
  target ← resolve (lookup_request req);
  _ ← guard (negb (bool_decide (target_identity target = requested_identity req))) source_moved;
  mret target.

(** ** Planning *)

(** [head] is one commit on the current landing ref. *)
Definition observe_candidate (req : PublishRequest) : P (string * string) :=
  _ ← AssertClean;
  head ← gitOutput ["rev-parse"; "HEAD"];
  let head := trim_space head in
  _ ← fetch_base req;
  landing ← gitOutput ["rev-parse"; remote_of req +:+ "/" +:+ base_branch req];
  parent ← gitOutput ["rev-parse"; "HEAD^"];
  let parent := trim_space parent in
  _ ← guard (negb (String.eqb (trim_space landing) parent))
        (Failure FailurePublication "landing ref %s moved; rebuild against the current base");
  mret (head, parent).

(** The candidate contains the identity it claims and nothing out of scope. *)
Definition verify_candidate (req : PublishRequest) (head parent : string) : P unit :=
  identity ← gitBaselineIdentity head;
  _ ← guard (negb (bool_decide (identity = requested_identity req)))
        (Failure FailureSource "candidate commit does not contain the selected upstream identity");
  changed ← gitNUL ["diff"; "--name-only"; "--no-renames"; "-z"; parent; head; "--"];
  of_res (validatePaths changed "final").

(** A prior attempt published these identical bytes. *)
Definition already_published (req : PublishRequest) (observed : PendingPublication) (head parent : string) : P bool :=
  if negb (String.eqb (pp_Head observed) "absent") && String.eqb (pp_BaseSHA observed) parent &&
     bool_decide (pp_Target observed = requested_identity req) then
    oldTree ← gitOutput ["rev-parse"; pp_Head observed +:+ "^{tree}"];
    newTree ← gitOutput ["rev-parse"; head +:+ "^{tree}"];
    mret (String.eqb oldTree newTree)
  else mret false.

Definition plan_publication (req : PublishRequest) : P planned :=
  '(head, parent) ← observe_candidate req;
  _ ← guard (negb (String.eqb (ExpectedHead req) "absent") && negb (shaRE (ExpectedHead req)))
        (publicationPolicy "publication requires the original observed head or explicit absence");
  target ← resolve_target req;
  _ ← verify_candidate req head parent;
  observed ← InspectPending pages (inspection_of req parent target (pub_RepairPending req));
  let branch := ExpectedBranch req in
  _ ← guard (String.eqb branch "" || negb (is_sync_branch branch))
        (publicationPolicy "publication requires its original sync branch");
  already ← already_published req observed head parent;
  _ ← guard (negb (String.eqb (Branch observed) branch) || (negb already && negb (String.eqb (pp_Head observed) (ExpectedHead req))))
        (publicationPolicy "publication state changed since planning; expected %s at %s, observed %s at %s");
  mret (planned_as head parent observed already).

(** ** Effects *)

(** The push moves the branch only from the expected head. *)
Definition push_args (req : PublishRequest) (head : string) : list string :=
  let expected := if String.eqb (ExpectedHead req) "absent" then "" else ExpectedHead req in
  ["push"; "--force-with-lease=refs/heads/" +:+ ExpectedBranch req +:+ ":" +:+ expected; remote_of req;
   head +:+ ":refs/heads/" +:+ ExpectedBranch req].

Definition push_candidate (req : PublishRequest) (pl : planned) : P unit :=
  if pl_already pl then mret tt else
  _ ← attempt (runGit (push_args req (pl_head pl)));
  actual ← wrap_err "publication push result unknown (%v); readback: %w" (remotePublicationHead (remote_of req) (ExpectedBranch req));
  guard (negb (String.eqb actual (pl_head pl)))
    (Failure FailurePublication "publication push did not establish expected head %s (observed %s): %v").

Definition matches_publication (req : PublishRequest) (body head : string) : bool :=
  publicationProjectionMatches body (base_branch req) (pub_TargetRef req) (pub_TargetKind req) (pub_TargetSHA req) head.

(** The pull request that was inspected is the one before the update. *)
Definition pr_moved (req : PublishRequest) (observed : PendingPublication) (before : publicationPR) : bool :=
  negb (String.eqb (pr_State before) "open") || negb (String.eqb (Ref (pr_Head before)) (ExpectedBranch req)) ||
  negb (String.eqb (FullName (pr_Head before)) (pub_Repository req)) || negb (String.eqb (Ref (pr_Base before)) (base_branch req)) ||
  negb (String.eqb (pr_Body before) (Description observed)) || negb (String.eqb (pr_Title before) (Title observed)).

Definition update_fields (req : PublishRequest) (head : string) (before : publicationPR) : gmap string string :=
  {["title" := publicationTitle (pub_TargetRef req);
    "body" := updateSyncMetadata (pr_Body before) (base_branch req) (pub_TargetRef req) (pub_TargetKind req) (pub_TargetSHA req) head]}.

Definition update_pr (req : PublishRequest) (pl : planned) : P publicationPR :=
  let path := pull_path (pub_Repository req) (Number (pl_observed pl)) in
  before ← get decode_pr path;
  _ ← guard (pr_moved req (pl_observed pl) before) (publicationPolicy "PR changed after push; retain the remote state for inspection");
  if pl_already pl && Reusable (pl_observed pl) && matches_publication req (pr_Body before) (pl_publishHead pl) then mret before
  else
    _ ← attempt (request "PATCH" path (Some (update_fields req (pl_publishHead pl) before)));
    wrap_err "PR update result unknown (%v): %w" (get decode_pr path).

Definition create_fields (req : PublishRequest) (head : string) : gmap string string :=
  {["head" := ExpectedBranch req; "base" := base_branch req; "title" := publicationTitle (pub_TargetRef req);
    "body" := publicationBody (base_branch req) (pub_TargetRef req) (pub_TargetKind req) (pub_TargetSHA req) head]}.

Definition pulls_collection (req : PublishRequest) : string := "repos/" +:+ pub_Repository req +:+ "/pulls".

(** Even a successful response is followed by discovery. *)
Definition create_pr (req : PublishRequest) (pl : planned) : P publicationPR :=
  _ ← attempt (raw ← request "POST" (pulls_collection req) (Some (create_fields req (pl_publishHead pl))); of_res (decode_pr raw));
  all ← wrap_err "PR creation result unknown (%v): %w" (listPublicationPRs pages (pub_Repository req));
  match filter (fun item => (String.eqb (Ref (pr_Head item)) (ExpectedBranch req) && String.eqb (pr_State item) "open") = true) all with
  | [pr] => mret pr
  | _ => fail (Errorf "PR creation has %d confirmed matches: %v" [])
  end.

Definition settle_pr (req : PublishRequest) (pl : planned) : P publicationPR :=
  if negb (Number (pl_observed pl) =? 0)%Z then update_pr req pl else create_pr req pl.

(** ** Readback *)

Definition other_object (req : PublishRequest) (pr : publicationPR) : bool :=
  negb (String.eqb (pr_State pr) "open") || negb (String.eqb (Ref (pr_Head pr)) (ExpectedBranch req)) ||
  negb (String.eqb (FullName (pr_Head pr)) (pub_Repository req)) || negb (String.eqb (Ref (pr_Base pr)) (base_branch req)).

Definition base_moved (out parent : string) : bool :=
  match str_fields out with [sha; _] => negb (String.eqb sha parent) | _ => true end.

Definition confirm (req : PublishRequest) (pl : planned) (pr : publicationPR) : P unit :=
  _ ← guard (other_object req pr) (publicationPolicy "PR readback does not match the publication object; it remains unconfirmed");
  _ ← guard (negb (matches_publication req (pr_Body pr) (pl_publishHead pl)))
        (publicationPolicy "PR metadata projection did not converge to the published Git identity");
  _ ← of_res (verifyAppActor (User pr) (pub_AppBotID req));
  latest ← gitOutput ["ls-remote"; remote_of req; "refs/heads/" +:+ base_branch req];
  _ ← guard (base_moved latest (pl_parent pl))
        (Failure FailurePublication "base moved during publication; PR remains pending and must be rebuilt");
  finalHead ← remotePublicationHead (remote_of req) (ExpectedBranch req);
  guard (negb (String.eqb finalHead (pl_publishHead pl)))
    (publicationPolicy "remote head changed during publication; preserving concurrent changes").

Definition publicationResult (req : PublishRequest) (url : string) (number : Z) (branch head : string) : P string :=
  _ ← appendGitHubOutput (GitHubOutputPath req)
        {["outcome" := OutcomePRPending; "pr_url" := url; "pr_number" := pretty number; "sync_branch" := branch; "sync_commit" := head]};
  mret url.

(** ** Repair *)

Fixpoint contained_parents (main : string) (parents : list string) : P (list string) :=
  match parents with
  | [] => mret []
  | parent :: parents =>
    ancestor ← attempt (runGit ["merge-base"; "--is-ancestor"; parent; main]);
    rest ← contained_parents main parents;
    mret (match ancestor with Ok _ => parent :: rest | Err _ => rest end)
  end.

Definition containedRepairParent (head main : string) : P string :=
  raw ← gitOutput ["rev-list"; "--parents"; "-n"; "1"; head];
  let fields := str_fields (trim_space raw) in
  _ ← guard ((length fields <? 3)%nat || negb (String.eqb (hd "" fields) head))
        (publicationPolicy "repair head %s is not a multi-parent commit");
  contained ← contained_parents main (tl fields);
  match contained with
  | [parent] => mret parent
  | _ => fail (publicationPolicy "repair requires exactly one parent contained by current main, found %d")
  end.

Definition applyRepairPatch (patch : string) : P unit :=
  _ ← wrap_err "git apply repair patch: %w: %s" (run ["apply"; "--index"; "--binary"] patch); mret tt.

Definition commit_args (req : PublishRequest) : list string :=
  ["commit"; "-m"; "Sync Codex protocol baseline to " +:+ pub_TargetRef req; "-m"; "Upstream-ref: " +:+ pub_TargetRef req;
   "-m"; "Upstream-ref-kind: " +:+ pub_TargetKind req; "-m"; "Upstream-commit: " +:+ pub_TargetSHA req].

Definition materializeRepairCommit (req : PublishRequest) : P unit :=
  _ ← guard (String.eqb (ExpectedHead req) "absent" || negb (shaRE (ExpectedHead req)))
        (publicationPolicy "repair requires the observed non-single head");
  _ ← guard (String.eqb (ExpectedBranch req) "" || negb (is_sync_branch (ExpectedBranch req)))
        (publicationPolicy "repair requires its original sync branch");
  _ ← AssertClean;
  head ← gitOutput ["rev-parse"; "HEAD"];
  let head := trim_space head in
  _ ← fetch_base req;
  landing ← gitOutput ["rev-parse"; remote_of req +:+ "/" +:+ base_branch req];
  _ ← guard (negb (String.eqb (trim_space landing) head)) (Failure FailurePublication "repair must start from current %s");
  target ← resolve_target req;
  observed ← InspectPending pages (inspection_of req head target true);
  _ ← guard (negb (Repair observed) || negb (String.eqb (pp_Head observed) (ExpectedHead req)) ||
             negb (String.eqb (Branch observed) (ExpectedBranch req)))
        (publicationPolicy "repair state changed since planning; expected %s at %s, observed repair=%t %s at %s");
  base ← containedRepairParent (pp_Head observed) head;
  changed ← gitNUL ["diff"; "--name-only"; "--no-renames"; "-z"; base; pp_Head observed; "--"];
  _ ← guard (match changed with [] => true | _ => false end) (publicationPolicy "repair diff from %s to %s is empty");
  _ ← of_res (validatePaths changed "final");
  patch ← gitOutput ["diff"; "--binary"; "--full-index"; base; pp_Head observed];
  _ ← applyRepairPatch patch;
  runGit (commit_args req).

(** ** The whole *)

Definition incomplete_request (req : PublishRequest) : bool :=
  String.eqb (pub_RepoRoot req) "" || String.eqb (pub_BaseBranch req) "" || String.eqb (pub_TargetRef req) "" ||
  String.eqb (pub_TargetKind req) "" || negb (shaRE (pub_TargetSHA req)).

(** Everything up to the first effect on the remote. *)
Definition prepare_publication (req : PublishRequest) : P planned :=
  _ ← guard (incomplete_request req) (Errorf "repo-root, base-branch, and exact target identity are required" []);
  _ ← (if pub_RepairPending req then materializeRepairCommit req else mret tt);
  plan_publication req.

Definition execute_publication (req : PublishRequest) (pl : planned) : P string :=
  _ ← push_candidate req pl;
  pr ← settle_pr req pl;
  _ ← confirm req pl pr;
  publicationResult req (pr_URL pr) (pr_Number pr) (ExpectedBranch req) (pl_publishHead pl).

Definition publishCandidate (req : PublishRequest) : P string :=
  pl ← prepare_publication req; execute_publication req pl.

Definition Publish (environmental : error -> bool) (req : PublishRequest) : P string :=
  result ← attempt (publishCandidate req);
  match result with
  | Ok url => mret url
  | Err e =>
    _ ← attempt (appendGitHubOutput (GitHubOutputPath req)
          {["outcome" := OutcomeFailed; "stage" := "publication"; "failure_category" := failureCategory environmental e]});
    fail e
  end.
End publish.

(** * What justifies a publication *)

Section said.
Context {W : Type} {B : Boundary W} (pages : nat).
Implicit Types (L : list (event (B := B))) (s : flow (B := B)).

Definition revision L (name commit : string) : Prop :=
  exists out, Ran ["rev-parse"; name] (Ok out) ∈ L /\ trim_space out = commit.

Definition same_tree L (a b : string) : Prop :=
  exists tree, Ran ["rev-parse"; a +:+ "^{tree}"] (Ok tree) ∈ L /\ Ran ["rev-parse"; b +:+ "^{tree}"] (Ok tree) ∈ L.

(** The remote was read and its branch is at [head]. *)
Definition branch_read L (remote branch head : string) : Prop :=
  exists out, Ran ["ls-remote"; remote; "refs/heads/" +:+ branch] (Ok out) ∈ L /\ hd "" (str_fields out) = head.

(** The candidate is one commit on the landing ref and holds the requested
    identity, which the upstream still has; it changes only what a publication
    may; and the pending publication is the expected one, or an equal tree. *)
Record justified L (req : PublishRequest) (pl : planned) : Prop := {
  j_clean : clean_worktree L;
  j_head : revision L "HEAD" (pl_head pl);
  j_parent : revision L "HEAD^" (pl_parent pl);
  j_landing : revision L (remote_of req +:+ "/" +:+ base_branch req) (pl_parent pl);
  j_identity : identity_at L (pl_head pl) (requested_identity req);
  j_scope : differs_in_scope L (pl_parent pl) (pl_head pl);
  j_branch : is_sync_branch (ExpectedBranch req) = true /\ Branch (pl_observed pl) = ExpectedBranch req;
  j_inspected : exists target s1 s2, LookedUp (lookup_request req) (Ok target) ∈ L /\
    target_identity target = requested_identity req /\ log s2 ⊆ L /\
    InspectPending pages (inspection_of req (pl_parent pl) target (pub_RepairPending req)) s1 = Some (Ok (pl_observed pl), s2);
  j_publishes :
    if pl_already pl then
      pl_publishHead pl = pp_Head (pl_observed pl) /\ pp_BaseSHA (pl_observed pl) = pl_parent pl /\
      pp_Target (pl_observed pl) = requested_identity req /\ same_tree L (pp_Head (pl_observed pl)) (pl_head pl)
    else pl_publishHead pl = pl_head pl /\ pp_Head (pl_observed pl) = ExpectedHead req }.

(** What changes the remote repository. *)
Definition remote_effect (e : event (B := B)) : bool :=
  match e with
  | Ran args _ => String.eqb (hd "" args) "push"
  | Asked method _ _ _ => negb (String.eqb method "GET")
  | Performed _ _ => true
  | LookedUp _ _ | Wrote _ | Called _ => false
  end.
Definition effects L := filter (fun e => remote_effect e = true) L.

(** The push of the candidate, if it is not published already: it moves the
    branch of the publication, from the expected head (or from nothing) only. *)
Definition pushed req pl L : Prop :=
  if pl_already pl then effects L = [] else exists lease out,
    effects L = [Ran ["push"; "--force-with-lease=refs/heads/" +:+ ExpectedBranch req +:+ ":" +:+ lease; remote_of req;
                      pl_head pl +:+ ":refs/heads/" +:+ ExpectedBranch req] out] /\
    lease = (if String.eqb (ExpectedHead req) "absent" then "" else ExpectedHead req).

(** At most one write of the pull request: an update of the inspected one, or a
    creation when there was none. *)
Definition written req pl L : Prop :=
  effects L = [] \/
  (Number (pl_observed pl) <> 0%Z /\ exists before answer, pr_moved req (pl_observed pl) before = false /\
     effects L = [Asked "PATCH" (pull_path (pub_Repository req) (Number (pl_observed pl)))
                    (Some (update_fields req (pl_publishHead pl) before)) answer]) \/
  (Number (pl_observed pl) = 0%Z /\ exists answer,
     effects L = [Asked "POST" (pulls_collection req) (Some (create_fields req (pl_publishHead pl))) answer]).

(** The pull request as it was read last. *)
Definition pr_read L req pl (pr : publicationPR) : Prop :=
  if (Number (pl_observed pl) =? 0)%Z then
    exists prs, listed L (pub_Repository req) prs /\
      filter (fun item => (String.eqb (Ref (pr_Head item)) (ExpectedBranch req) && String.eqb (pr_State item) "open") = true) prs = [pr]
  else exists raw, Asked "GET" (pull_path (pub_Repository req) (Number (pl_observed pl))) None (Ok raw) ∈ L /\ decode_pr raw = Ok pr.
End said.

Section proofs.
Context {W : Type} {B : Boundary W} (pages : nat).
Implicit Types (L : list (event (B := B))) (s : flow (B := B)).
Abbreviation reads := (emits (B := B) (fun e => read_only e = true)).
Abbreviation local := (emits (B := B) (fun e => remote_effect e = false)).

(** ** What each part asks *)

Lemma reads_local {A} (m : P A) : reads m -> local m.
Proof.
  apply emits_weaken. intros [args out|method ? ? ?|? ?|?|?|? ?]; try done; simpl.
  - destruct (String.eqb_spec (hd "" args) "push") as [->|]; done.
  - by intros ->.
Qed.

Lemma effects_none L : Forall (fun e => remote_effect e = false) L -> effects L = [].
Proof. intros H. unfold effects. induction H as [|e L He _ IH]; [done|]. rewrite filter_cons, He. done. Qed.

Lemma plan_publication_reads req : reads (plan_publication pages req).
Proof.
  unfold plan_publication, observe_candidate, fetch_base, resolve_target, verify_candidate, already_published. emitted.
Qed.

Lemma contained_parents_reads main parents : reads (contained_parents main parents).
Proof. induction parents as [|parent parents IH]; cbn [contained_parents]; emitted. Qed.
Lemma containedRepairParent_reads head main : reads (containedRepairParent head main).
Proof. unfold containedRepairParent. emitted. apply contained_parents_reads. Qed.

#[local] Hint Resolve containedRepairParent_reads plan_publication_reads : emitting.
#[local] Hint Extern 1 (emits (fun e => remote_effect e = false) _) => apply reads_local : emitting.

Lemma materialize_local req : local (materializeRepairCommit pages req).
Proof.
  unfold materializeRepairCommit, fetch_base, resolve_target, applyRepairPatch. emitted.
Qed.

Lemma confirm_reads req pl pr : reads (confirm req pl pr).
Proof. unfold confirm. emitted. Qed.
Lemma publicationResult_local req url number branch head : local (publicationResult req url number branch head).
Proof.
  unfold publicationResult, appendGitHubOutput. emitted. intros s r s'.
  destruct (append_output _ (world s)) as [err w]. intros [= <- <-]. eexists [_]. by split; [|constructor].
Qed.

(** ** Planning *)

Lemma fetch_base_later req r s s' : fetch_base req s = Some (r, s') -> log s ⊆ log s'.
Proof. apply reads_later. unfold fetch_base. emitted. Qed.

Lemma revision_later L L' name commit : L ⊆ L' -> revision (B := B) L name commit -> revision L' name commit.
Proof. intros HL (out & ? & ?). exists out. split; [by apply HL | done]. Qed.

Lemma observe_candidate_inv req head parent s s' :
  observe_candidate req s = Some (Ok (head, parent), s') ->
  clean_worktree (log s') /\ revision (log s') "HEAD" head /\ revision (log s') "HEAD^" parent /\
  revision (log s') (remote_of req +:+ "/" +:+ base_branch req) parent /\ log s ⊆ log s'.
Proof.
  unfold observe_candidate. intros H. undo. apply AssertClean_inv in H0 as [(t & u & ? & ? & ?) Hl]. apply fetch_base_later in H2.
  apply negb_false_iff, String.eqb_eq in H5. split; [exists t, u; split; [said | split; [said | done]]|].
  split_and!; [eexists; (split; [said | done]).. | later].
Qed.

Lemma resolve_target_inv req target s s' :
  resolve_target req s = Some (Ok target, s') ->
  LookedUp (lookup_request req) (Ok target) ∈ log s' /\ target_identity target = requested_identity req /\ log s ⊆ log s'.
Proof. unfold resolve_target. intros H. undo. reflect_bools. split_and!; [said | done | later]. Qed.

Lemma verify_candidate_inv req head parent u s s' :
  verify_candidate req head parent s = Some (Ok u, s') ->
  identity_at (log s') head (requested_identity req) /\ differs_in_scope (log s') parent head /\ log s ⊆ log s'.
Proof.
  unfold verify_candidate. intros H. undo. apply identity_inv in H0 as [(raw & ? & ?) ?]. reflect_bools. subst.
  split_and!; [exists raw; split; [said | done] | eexists; split; [said | by eapply validatePaths_final] | later].
Qed.

Lemma already_published_inv req observed head parent b s s' :
  already_published req observed head parent s = Some (Ok b, s') -> log s ⊆ log s' /\
  (b = true -> pp_BaseSHA observed = parent /\ pp_Target observed = requested_identity req /\
     same_tree (log s') (pp_Head observed) head).
Proof.
  unfold already_published. intros H. destruct (_ && _) eqn:E; undo; [|done]. split; [later|]. intros Ht%String.eqb_eq.
  reflect_bools. subst. split_and!; [by apply String.eqb_eq | done | eexists; split; said].
Qed.

Lemma plan_publication_justified req pl s s' :
  plan_publication pages req s = Some (Ok pl, s') -> justified pages (log s') req pl.
Proof.
  unfold plan_publication. intros H. pstep H. destruct a as [head parent]. undo.
  apply observe_candidate_inv in H0 as ((t & u & ? & ? & ?) & (oh & ? & ?) & (op & ? & ?) & (ol & ? & ?) & Hl0).
  apply resolve_target_inv in H2 as (Ht & Htt & Hl1).
  apply verify_candidate_inv in H3 as ((raw & ? & ?) & (od & ? & ?) & Hl2).
  pose proof (reads_later _ _ _ _ (InspectPending_reads pages _) H4) as Hl3.
  apply already_published_inv in H6 as (Hl4 & Ha). reflect_bools.
  match goal with E : String.eqb (Branch _) _ = true |- _ => apply String.eqb_eq in E end.
  split; simpl.
  - exists t, u. split; [said | split; [said | done]].
  - exists oh. split; [said | done].
  - exists op. split; [said | done].
  - exists ol. split; [said | done].
  - exists raw. split; [said | done].
  - exists od. split; [said | done].
  - done.
  - exists a0, s3, s4. split; [said|]. split; [done|]. split; [later | done].
  - destruct a4; [destruct (Ha eq_refl) as (? & ? & ?); by split_and!|]. simpl in *. split; [done|].
    match goal with E : negb _ = false |- _ => apply negb_false_iff, String.eqb_eq in E; done end.
Qed.

Lemma justified_mono L L' req pl : L ⊆ L' -> justified pages L req pl -> justified pages L' req pl.
Proof.
  intros HL [(t & u & ? & ? & ?) (oh & ? & ?) (op & ? & ?) (ol & ? & ?) (raw & ? & ?) (od & ? & ?) ? (ta & s1 & s2 & ? & ? & Hs & ?) Hp].
  split; try done; [exists t, u | exists oh | exists op | exists ol | exists raw | exists od | exists ta, s1, s2 | ].
  1-7: split_and!; try done; try (by apply HL); by etrans.
  destruct (pl_already pl); [|done]. destruct Hp as (? & ? & ? & tree & ? & ?). split_and!; try done.
  exists tree. split; by apply HL.
Qed.

(** ** Effects *)

Lemma effects_app L L' : effects (L ++ L') = effects L ++ effects (B := B) L'.
Proof. apply filter_app. Qed.

Lemma local_inv {A} (m : P (B := B) A) s r s' : local m -> m s = Some (r, s') -> exists l, log s' = l ++ log s /\ effects l = [].
Proof. intros Hm H. destruct (Hm _ _ _ H) as (l & ? & ?). exists l. split; [done | by apply effects_none]. Qed.

(** The head of the branch of the publication, as it was read. *)
Lemma branch_head_inv remote branch head s s' :
  remotePublicationHead remote branch s = Some (Ok head, s') ->
  exists out, log s' = Ran ["ls-remote"; remote; "refs/heads/" +:+ branch] (Ok out) :: log s /\ hd "" (str_fields out) = head.
Proof. intros (out & ? & [[-> Hf]|[_ (name & Hf)]])%remotePublicationHead_inv; exists out; by rewrite Hf. Qed.

Lemma runGit_logs args r s s' :
  runGit args s = Some (r, s') -> exists out, log s' = Ran args out :: log (B := B) s.
Proof.
  intros H. unfold runGit, wrap_err, run, mbind, P_bind in H. destruct (exec_git args "" (world s)) as [[o|e] w];
    injection H as <- <-; eauto.
Qed.

Lemma push_spec req pl r s s' :
  push_candidate req pl s = Some (r, s') -> exists l, log s' = l ++ log s /\ pushed req pl l /\
    (r = Ok tt -> pl_already pl = false -> branch_read l (remote_of req) (ExpectedBranch req) (pl_head pl)).
Proof.
  unfold push_candidate, pushed. destruct (pl_already pl) eqn:Ea.
  { intros [= <- <-]. exists []. split_and!; done. }
  intros [(x & s1 & H1 & H)|(e & H1 & ->)]%P_bind_inv; apply attempt_inv in H1 as (y & Hy & H1); [|done].
  apply runGit_logs in H1 as (out & E1). assert (effects (B := B) [Ran (push_args req (pl_head pl)) out] = [Ran (push_args req (pl_head pl)) out]) as Ef by done.
  apply P_bind_inv in H as [(head & s2 & H2 & H)|(e & H2 & ->)].
  - apply wrap_err_Ok, branch_head_inv in H2 as (o & E2 & Ho). apply of_res_inv in H as [<- ->].
    exists [Ran ["ls-remote"; remote_of req; "refs/heads/" +:+ ExpectedBranch req] (Ok o); Ran (push_args req (pl_head pl)) out].
    split; [by rewrite E2, E1|]. split; [eexists _, out; done|]. intros Hg%guard_err_Ok%negb_false_iff%String.eqb_eq _.
    exists o. split; [left | by rewrite Hg in Ho].
  - assert (local (wrap_err "publication push result unknown (%v); readback: %w"
      (remotePublicationHead (remote_of req) (ExpectedBranch req)))) as Hl by emitted.
    destruct (local_inv _ _ _ _ Hl H2) as (l & El & En). exists (l ++ [Ran (push_args req (pl_head pl)) out]).
    split; [by rewrite El, E1, <- app_assoc|]. split; [eexists _, out; split; [by rewrite effects_app, En, Ef | done] | done].
Qed.

Lemma request_logs {A} (decode : Raw -> res A) method path body r s s' :
  (raw ← request method path body; of_res (decode raw)) s = Some (r, s') ->
  exists answer, log s' = Asked method path body answer :: log (B := B) s /\
    forall a, r = Ok a -> exists raw, answer = Ok raw /\ decode raw = Ok a.
Proof.
  intros [(raw & s1 & H1 & H)|(e & H1 & ->)]%P_bind_inv; unfold request, ask in H1;
    destruct (Request method path body (world s)) as [answer w]; injection H1 as -> <-.
  - injection H as <- <-. eexists. split; [done|]. eauto.
  - eexists. by split.
Qed.

Lemma update_spec req pl r s s' :
  update_pr req pl s = Some (r, s') -> Number (pl_observed pl) <> 0%Z ->
  exists l, log s' = l ++ log s /\ written req pl l /\
    (forall pr, r = Ok pr -> exists l1 l2, l = l1 ++ l2 /\ effects l1 = [] /\ pr_read l1 req pl pr).
Proof.
  unfold update_pr, pr_read. set (path := pull_path _ _). intros H Hn. rewrite (proj2 (Z.eqb_neq _ _) Hn).
  apply P_bind_inv in H as [(before & s1 & H1 & H)|(e & H1 & ->)]; apply request_logs in H1 as (a1 & E1 & Ha1).
  2: { eexists [_]. split; [done|]. split; [by left | done]. }
  destruct (Ha1 _ eq_refl) as (raw1 & -> & Hd1).
  apply P_bind_inv in H as [([] & s2 & H2 & H)|(e & H2 & ->)]; [|injection H2 as _ <-; eexists [_]; split; [done|]; split; [by left | done]].
  apply guard_inv in H2 as [Hm ->]. destruct (_ && _).
  { injection H as <- <-. eexists [_]. split; [done|]. split; [by left|]. intros pr [= <-].
    eexists [_], []. split; [done|]. split; [done|]. exists raw1. split; [left | done]. }
  apply P_bind_inv in H as [(x & s3 & H3 & H)|(e & H3 & ->)]; apply attempt_inv in H3 as (y & Hy & H3); [|done].
  unfold request, ask in H3. destruct (Request "PATCH" path _ (world s1)) as [a3 w]. injection H3 as -> <-.
  assert (exists a4, log s' = Asked "GET" path None a4 ::
      Asked "PATCH" path (Some (update_fields req (pl_publishHead pl) before)) y :: log s1 /\
      (forall pr, r = Ok pr -> exists raw, a4 = Ok raw /\ decode_pr raw = Ok pr)) as (a4 & E4 & Ha4).
  { unfold wrap_err in H. destruct (get decode_pr path _) as [[r' s4]|] eqn:Hg; [|done].
    apply request_logs in Hg as (a4 & E4 & Ha4). exists a4. destruct r'; injection H as <- <-; split; try done. }
  rewrite E1 in E4. eexists [_; _; _]. split; [exact E4|]. split.
  - right. left. split; [done|]. exists before, y. done.
  - intros pr Hr. destruct (Ha4 _ Hr) as (raw & -> & Hd). eexists [_], [_; _]. split; [done|]. split; [done|].
    exists raw. split; [left | done].
Qed.

Lemma create_spec req pl r s s' :
  create_pr pages req pl s = Some (r, s') -> Number (pl_observed pl) = 0%Z ->
  exists l, log s' = l ++ log s /\ written req pl l /\
    (forall pr, r = Ok pr -> exists l1 l2, l = l1 ++ l2 /\ effects l1 = [] /\ pr_read l1 req pl pr).
Proof.
  unfold create_pr, pr_read. intros H Hn. rewrite (proj2 (Z.eqb_eq _ _) Hn).
  apply P_bind_inv in H as [(x & s1 & H1 & H)|(e & H1 & ->)]; apply attempt_inv in H1 as (y & Hy & H1); [|done].
  apply request_logs in H1 as (a1 & E1 & _). set (post := Asked _ _ _ a1) in *.
  assert (forall l, effects l = [] -> written req pl (l ++ [post])) as Hw.
  { intros l El. right. right. split; [done|]. exists a1. by rewrite effects_app, El. }
  apply P_bind_inv in H as [(all & s2 & H2 & H)|(e & H2 & ->)].
  - apply wrap_err_Ok in H2. destruct (local_inv _ _ _ _ (reads_local _ (listPublicationPRs_reads _ _)) H2) as (l & El & En).
    apply listed_new in H2 as (l' & El' & Hp). rewrite El in El'. apply app_inv_tail in El' as <-.
    exists (l ++ [post]). assert (log s' = log s2 /\ forall pr, r = Ok pr ->
        filter (fun item => (String.eqb (Ref (pr_Head item)) (ExpectedBranch req) && String.eqb (pr_State item) "open") = true) all = [pr])
      as [-> Hr] by (destruct (filter _ all) as [|pr0 [|]]; injection H as <- <-; by split; [|intros ? [= <-]]).
    split; [by rewrite El, E1, <- app_assoc|]. split; [by apply Hw|]. intros pr Hok.
    exists l, [post]. split; [done|]. split; [done|]. exists all. split; [done | by apply Hr].
  - assert (local (wrap_err "PR creation result unknown (%v): %w" (listPublicationPRs pages (pub_Repository req)))) as Hl by emitted.
    destruct (local_inv _ _ _ _ Hl H2) as (l & El & En). exists (l ++ [post]).
    split; [by rewrite El, E1, <- app_assoc|]. split; [by apply Hw | done].
Qed.

Lemma settle_spec req pl r s s' :
  settle_pr pages req pl s = Some (r, s') ->
  exists l, log s' = l ++ log s /\ written req pl l /\
    (forall pr, r = Ok pr -> exists l1 l2, l = l1 ++ l2 /\ effects l1 = [] /\ pr_read l1 req pl pr).
Proof.
  unfold settle_pr. destruct (Z.eqb_spec (Number (pl_observed pl)) 0) as [Hn|Hn]; simpl; intros H.
  - by apply create_spec.
  - by apply update_spec.
Qed.

Lemma pr_read_mono L L' req pl pr : L ⊆ L' -> pr_read L req pl pr -> pr_read L' req pl pr.
Proof.
  unfold pr_read. intros HL. destruct (_ =? _)%Z.
  - intros (prs & Hp & ?). exists prs. split; [by eapply listed_mono | done].
  - intros (raw & ? & ?). exists raw. split; [by apply HL | done].
Qed.

(** ** Readback *)

(** The last two observations: the base has not moved, and the branch is where
    the publication left it. *)
Definition read_back (l : list (event (B := B))) req pl : Prop := exists base branch rest,
  l = Ran ["ls-remote"; remote_of req; "refs/heads/" +:+ ExpectedBranch req] (Ok branch) ::
      Ran ["ls-remote"; remote_of req; "refs/heads/" +:+ base_branch req] (Ok base) :: rest /\
  hd "" (str_fields branch) = pl_publishHead pl /\ hd "" (str_fields base) = pl_parent pl.

Definition confirmed req pl pr : Prop :=
  other_object req pr = false /\ is_bot (User pr) (pub_AppBotID req) /\
  publicationProjection (pr_Body pr) =
    {| pd_target := requested_identity req; pd_head := pl_publishHead pl; pd_base := base_branch req |}.

Lemma confirm_inv req pl pr s s' :
  confirm req pl pr s = Some (Ok tt, s') -> confirmed req pl pr /\ read_back (log s') req pl.
Proof.
  unfold confirm. intros H. undo. apply bot_inv in H2. apply branch_head_inv in H5 as (o & E & Ho). reflect_bools.
  unfold base_moved in H4. destruct (str_fields a2) as [|sha [|? [|]]] eqn:Ef; try done. reflect_bools.
  apply String.eqb_eq in H, H4. apply projection_matches_iff in H1. split; [by split_and!|].
  exists a2, o, (log s). rewrite E, H3, Ef. by subst.
Qed.

Lemma prepare_spec req r s s' :
  prepare_publication pages req s = Some (r, s') ->
  exists l, log s' = l ++ log s /\ Forall (fun e => remote_effect e = false) l /\
    (pub_RepairPending req = false -> Forall (fun e => read_only e = true) l) /\
    (forall pl, r = Ok pl -> justified pages (log s') req pl).
Proof.
  intros H. assert (local (prepare_publication pages req)) as Hl by (unfold prepare_publication; emitted; apply materialize_local).
  destruct (Hl _ _ _ H) as (l & El & Fl). exists l. split; [done|]. split; [done|]. split.
  - intros Hr. assert (reads (prepare_publication pages req)) as Hrd by (unfold prepare_publication; rewrite Hr; emitted).
    destruct (Hrd _ _ _ H) as (l' & El' & Fl'). rewrite El in El'. by apply app_inv_tail in El' as <-.
  - intros pl ->. unfold prepare_publication in H. undo. by apply plan_publication_justified in H.
Qed.

(** C13: however a publication ends, it changed nothing on the remote unless its
    plan was justified first, and then only this, in this order: one push that
    moves the branch from the expected head only, none at all if an equal tree
    is already there; and, once the branch was read back at the candidate, one
    write of the pull request: the update of the inspected, unchanged one, or a
    creation when there was none. *)
Theorem publish_guarded (req : PublishRequest) r s s' (H : publishCandidate pages req s = Some (r, s')) :
  exists lp, Forall (fun e => remote_effect e = false) lp /\
    (pub_RepairPending req = false -> Forall (fun e => read_only e = true) lp) /\
    (log s' = lp ++ log s \/
     exists pl lpush lwrite, log s' = lwrite ++ lpush ++ lp ++ log s /\ justified pages (lp ++ log s) req pl /\
       pushed req pl lpush /\ written req pl lwrite /\
       (effects lwrite <> [] -> pl_already pl = true \/
          branch_read lpush (remote_of req) (ExpectedBranch req) (pl_head pl))).
Proof.
  unfold publishCandidate in H. apply P_bind_inv in H as [(pl & s1 & H1 & H)|(e & H1 & ->)];
    apply prepare_spec in H1 as (lp & E1 & Hlocal & Hreads & Hj); exists lp; (split; [done|]; split; [done|]); [right | by left].
  rewrite E1 in Hj. specialize (Hj _ eq_refl). unfold execute_publication in H.
  apply P_bind_inv in H as [([] & s2 & H2 & H)|(e & H2 & ->)]; apply push_spec in H2 as (lpush & E2 & Hpush & Hread).
  2: { exists pl, lpush, []. split; [by rewrite E2, E1|]. split_and!; try done. by left. }
  assert (exists lwrite, log s' = lwrite ++ log s2 /\ written req pl lwrite) as (lwrite & E3 & Hw).
  { apply P_bind_inv in H as [(pr & s3 & H3 & H)|(e & H3 & ->)]; apply settle_spec in H3 as (l & El & Hw & _); [|by exists l].
    assert (local (confirm req pl pr ≫= fun _ =>
      publicationResult req (pr_URL pr) (pr_Number pr) (ExpectedBranch req) (pl_publishHead pl))) as Hlc
      by (apply emits_bind; [apply reads_local, confirm_reads | intros; apply publicationResult_local]).
    destruct (local_inv _ _ _ _ Hlc H) as (l' & El' & En). exists (l' ++ l). split; [by rewrite El', El, app_assoc|].
    unfold written. rewrite effects_app, En. exact Hw. }
  exists pl, lpush, lwrite. split; [by rewrite E3, E2, E1|]. split_and!; try done.
  intros _. destruct (pl_already pl); [by left | right; by apply Hread].
Qed.

(** A publication that is reported is confirmed: its plan was justified, the
    pull request was read after the last write and is the open object of this
    branch, base and bot, its hidden block projects exactly to the published
    head and target, and the last two observations are that the base has not
    moved and that the branch is at the published head. *)
Theorem publish_confirmed (req : PublishRequest) url s s' (H : publishCandidate pages req s = Some (Ok url, s')) :
  exists pl pr l l', justified pages (l ++ l') req pl /\ url = pr_URL pr /\ confirmed req pl pr /\
    log s' = (if String.eqb (GitHubOutputPath req) "" then [] else
       [Wrote {["outcome" := OutcomePRPending; "pr_url" := url; "pr_number" := pretty (pr_Number pr);
                "sync_branch" := ExpectedBranch req; "sync_commit" := pl_publishHead pl]}]) ++ l ++ l' /\
    effects l = [] /\ pr_read l req pl pr /\ read_back (l ++ l') req pl.
Proof.
  unfold publishCandidate in H. pstep H. apply prepare_spec in H0 as (lp & E1 & _ & _ & Hj). specialize (Hj _ eq_refl).
  unfold execute_publication in H. pstep H. pstep H. pstep H. destruct a0, a2.
  apply push_spec in H0 as (lpush & E2 & _ & _). apply settle_spec in H1 as (lset & E3 & _ & Hread).
  destruct (Hread _ eq_refl) as (l1 & l2 & -> & En & Hpr). pose proof H2 as (l3 & E4 & Hl3)%(local_inv _ _ _ _ (reads_local _ (confirm_reads _ _ _))).
  apply confirm_inv in H2 as [Hc Hb]. exists a, a1, (l3 ++ l1), (l2 ++ lpush ++ log s0).
  assert (log s3 = (l3 ++ l1) ++ l2 ++ lpush ++ log s0) as E5 by (by rewrite E4, E3, E2, <- !app_assoc). rewrite E5 in Hb.
  rewrite <- E5 at 2.
  assert (log s' = (if String.eqb (GitHubOutputPath req) "" then [] else
       [Wrote {["outcome" := OutcomePRPending; "pr_url" := url; "pr_number" := pretty (pr_Number a1);
                "sync_branch" := ExpectedBranch req; "sync_commit" := pl_publishHead a]}]) ++ log s3 /\ url = pr_URL a1)
    as [-> ->].
  { unfold publicationResult, appendGitHubOutput in H. destruct (String.eqb _ ""); undo; [done|].
    destruct (append_output _ (world s3)) as [[e|] w]; [done|]. injection H0 as _ <-. done. }
  split_and!; try done.
  - eapply justified_mono; [|exact Hj]. set_solver.
  - by rewrite effects_app, Hl3, En.
  - eapply pr_read_mono; [|exact Hpr]. set_solver.
Qed.
End proofs.

(** * A publication *)

Definition sample_publication : PublishRequest :=
  {| pub_RepoRoot := "/repo"; pub_Repository := "o/r"; ExpectedHead := "absent"; ExpectedBranch := hub_branch_name;
     pub_AppBotID := 7; pub_BaseBranch := "refs/heads/main"; pub_TargetRef := "rust-v1.2.0";
     pub_TargetKind := "stable_rust_tag"; pub_TargetSHA := hub_target; pub_Remote := ""; GitHubOutputPath := "out";
     pub_RepairPending := false |}.
Definition empty_hub : hub := {| hub_branch := None; hub_pulls := [] |}.

Definition sample_published := publishCandidate (B := hub_boundary) 1 sample_publication (start_hub empty_hub).
Lemma sample_publishes : sample_published = Some (Ok "url", end_of (start_hub empty_hub) sample_published).
Proof. apply ends_with. vm_compute. reflexivity. Qed.
Lemma sample_effects : length (effects (log (end_of (start_hub empty_hub) sample_published))) = 2.
Proof. vm_compute. reflexivity. Qed.

Lemma publish_guarded_witness : exists pl L, L ⊆ log (end_of (start_hub empty_hub) sample_published) /\
  justified (B := hub_boundary) 1 L sample_publication pl.
Proof.
  destruct (publish_guarded (B := hub_boundary) 1 sample_publication _ (start_hub empty_hub) _ sample_publishes)
    as (lp & Hp & _ & [E | (pl & lpush & lwrite & E & Hj & _)]).
  - exfalso. pose proof sample_effects as He. rewrite E in He. simpl in He. rewrite app_nil_r, effects_none in He by exact Hp.
    discriminate He.
  - exists pl, (lp ++ log (start_hub empty_hub)). split; [|exact Hj].
    intros e He. rewrite E. apply elem_of_app; right. apply elem_of_app; right. exact He.
Defined.

Lemma publish_confirmed_witness : exists pl pr, pr_URL pr = "url" /\ confirmed sample_publication pl pr.
Proof.
  destruct (publish_confirmed (B := hub_boundary) 1 sample_publication _ (start_hub empty_hub) _ sample_publishes)
    as (pl & pr & _ & _ & _ & Hu & Hc & _).
  exists pl, pr. split; [symmetry; exact Hu | exact Hc].
Defined.
