(* ===== verification/Sync.v ===== *)
(** The protocol sync: [sync.go] of [src/codexsdk/internal/protocolsync], with
    [finishSync] of [failure.go].

    A sync resolves the target, asks the policy, looks for a pending publication,
    generates a candidate, plans it and applies the plan; its modes stop it
    before the effects.  Generation, planning, exact verification and
    application are operations of the surroundings, each logged by its name. *)

From Stdlib Require Import Ascii.
From stdpp Require Import pretty.
From S2P Require Import Prelude GoStrings Policy Scope Resolve PublicationText Checks Boundary Inspection.

Local Open Scope string_scope.
Local Open Scope list_scope.

Definition OutcomeBaselineMatches := "baseline_matches".
Definition OutcomeSchemasMatch := "schemas_match".
Definition OutcomeExactVerified := "exact_verified".
Definition OutcomeFailed := "failed".
Definition OutcomeApplied := "applied".
Definition OutcomePlanReady := "plan_ready".
Definition OutcomeSourceReady := "source_ready".
Definition OutcomePRPending := "pr_pending".
Definition OutcomeRepairReady := "repair_ready".
Definition OutcomeSemanticUnresolved := "semantic_unresolved".

Definition PlanReady := "ready".
Definition PlanSemanticUnresolved := "semantic_unresolved".

Record Candidate := {
  Dir : string; SchemaDir : string; StableSchemaDir : string; ReportsDir : string; CommonRS : string;
  CommonRSSourceSHA : string; CodexRepo : string; DriftStatus : string; cand_SourceCommit : string }.
Record GenerateRequest := { gen_ModuleRoot : string; gen_UpstreamRepo : string; gen_Target : Target }.
Record ApplyRequest := {
  ar_Baseline : string; ar_Candidate : string; ar_StableCandidate : string; ar_CodexRepo : string; ar_Reports : string;
  ar_CommonRS : string; ar_CommonRSSourceSHA : string; ar_TargetRef : string; ar_TargetKind : string;
  ar_TargetSHA : string; ar_ModuleRoot : string }.
Record PlanIssue := { issue_Stage : string; issue_Path : string; issue_Reason : string }.
(** [PlanResult], with [Preview.GeneratedReleaseImpact]. *)
Record PlanResult := { plan_Status : string; GeneratedReleaseImpact : string; plan_Issue : option PlanIssue }.

Record SyncRequest := {
  Publication : option PendingRequest; RepoRoot : string; ModuleRoot : string; UpstreamRepo : string; UpstreamRef : string;
  LatestStable : bool; sync_AllowDowngrade : bool; ForceCompare : bool; sync_RepairPending : bool; ValidationOnly : bool;
  Diagnostic : bool; EventName : string }.

Record SyncResult := {
  r_Publication : option PendingPublication; r_Stage : string; FailureCategory : string; Outcome : string; Reason : string;
  r_Target : Target; r_Candidate : string; CandidateDir : string; CandidateSHA256 : string; Issue : option PlanIssue }.

Definition no_target : Target := {| RefName := ""; RefKind := ""; TagSHA := ""; PeeledCommitSHA := ""; TargetExplicit := false |}.
Definition no_result : SyncResult :=
  {| r_Publication := None; r_Stage := ""; FailureCategory := ""; Outcome := ""; Reason := ""; r_Target := no_target;
     r_Candidate := ""; CandidateDir := ""; CandidateSHA256 := ""; Issue := None |}.

Definition with_target (target : Target) (reason : string) (r : SyncResult) : SyncResult :=
  {| r_Publication := r_Publication r; r_Stage := r_Stage r; FailureCategory := FailureCategory r; Outcome := Outcome r;
     Reason := reason; r_Target := target; r_Candidate := r_Candidate r; CandidateDir := CandidateDir r;
     CandidateSHA256 := CandidateSHA256 r; Issue := Issue r |}.
Definition with_outcome (outcome reason : string) (r : SyncResult) : SyncResult :=
  {| r_Publication := r_Publication r; r_Stage := r_Stage r; FailureCategory := FailureCategory r; Outcome := outcome;
     Reason := reason; r_Target := r_Target r; r_Candidate := r_Candidate r; CandidateDir := CandidateDir r;
     CandidateSHA256 := CandidateSHA256 r; Issue := Issue r |}.
Definition with_publication (p : PendingPublication) (r : SyncResult) : SyncResult :=
  {| r_Publication := Some p; r_Stage := r_Stage r; FailureCategory := FailureCategory r; Outcome := Outcome r;
     Reason := Reason r; r_Target := r_Target r; r_Candidate := r_Candidate r; CandidateDir := CandidateDir r;
     CandidateSHA256 := CandidateSHA256 r; Issue := Issue r |}.
Definition with_candidate (c : Candidate) (r : SyncResult) : SyncResult :=
  {| r_Publication := r_Publication r; r_Stage := r_Stage r; FailureCategory := FailureCategory r; Outcome := Outcome r;
     Reason := Reason r; r_Target := r_Target r; r_Candidate := SchemaDir c; CandidateDir := Dir c;
     CandidateSHA256 := CandidateSHA256 r; Issue := Issue r |}.
Definition with_issue (sha : string) (issue : option PlanIssue) (r : SyncResult) : SyncResult :=
  {| r_Publication := r_Publication r; r_Stage := r_Stage r; FailureCategory := FailureUnsupported;
     Outcome := OutcomeSemanticUnresolved;
     Reason := match issue with Some i => issue_Reason i | None => "candidate has unresolved protocol semantics" end;
     r_Target := r_Target r; r_Candidate := r_Candidate r; CandidateDir := CandidateDir r;
     CandidateSHA256 := sha; Issue := issue |}.

Definition decideAfterPolicy (decision : string) (forceCompare : bool) : string :=
  if String.eqb decision DecisionBlock then "blocked"
  else if String.eqb decision DecisionSkip then if forceCompare then "generate" else "current"
  else if String.eqb decision DecisionAllow then "generate"
  else "blocked".

Definition module_root (req : SyncRequest) : string :=
  if String.eqb (ModuleRoot req) "" then path_join (RepoRoot req) "codexsdk" else ModuleRoot req.
Definition defaultBaselineRel := "internal/protocolschema/appserver/v2".

Definition candidateApplyRequest (moduleRoot : string) (c : Candidate) (target : Target) : ApplyRequest :=
  {| ar_Baseline := path_join moduleRoot defaultBaselineRel; ar_Candidate := SchemaDir c; ar_StableCandidate := StableSchemaDir c;
     ar_CodexRepo := CodexRepo c; ar_Reports := ReportsDir c; ar_CommonRS := CommonRS c;
     ar_CommonRSSourceSHA := CommonRSSourceSHA c; ar_TargetRef := RefName target; ar_TargetKind := RefKind target;
     ar_TargetSHA := PeeledCommitSHA target; ar_ModuleRoot := moduleRoot |}.

Class SyncOperations (W : Type) := {
  do_generate : GenerateRequest -> W -> res Candidate * W;
  do_plan : ApplyRequest -> W -> res PlanResult * W;
  do_verify : ApplyRequest -> W -> res PlanResult * W;
  do_apply : ApplyRequest -> PlanResult -> W -> res unit * W;
  do_digest : string -> W -> res string;
  read_file : string -> W -> res string;
  error_text : error -> string;
  environmental : error -> bool
}.

Section sync.
Context {W : Type} {B : Boundary W} {O : SyncOperations W} (pages : nat).
Notation P := (P (B := B)).

(** How a sync ends: the result so far, the stage and the error. *)
Record exit := { x_result : SyncResult; x_stage : string; x_err : option error }.

(** A part of a sync: it goes on with a value or ends it. *)
Definition S (A : Type) : Type := P (A + exit).
#[global] Instance S_ret : MRet S := fun A a => mret (M := P) (inl a).
#[global] Instance S_bind : MBind S := fun A B f m =>
  mbind (M := P) (fun x => match x with inl a => f a | inr e => mret (M := P) (inr e) end) m.

Definition finish {A} (result : SyncResult) (stage : string) (err : option error) : S A :=
  mret (M := P) (inr {| x_result := result; x_stage := stage; x_err := err |}).

(** A step whose error ends the sync with the result so far. *)
Definition at_ {A} (result : SyncResult) (stage : string) (m : P A) : S A :=
  mbind (M := P) (fun r => match r with Ok a => mret (M := P) (inl a) | Err e => finish result stage (Some e) end) (attempt m).

Definition refuse (bad : bool) (result : SyncResult) (stage : string) (e : error) : S unit :=
  if bad then finish result stage (Some e) else mret tt.

(** One operation of the surroundings, logged by its name. *)
Definition call {A} (name : string) (f : W -> res A * W) : P A := fun s =>
  let '(r, w) := f (world s) in Some (r, {| world := w; log := Called name :: log s |}).

Definition policy_failure (format : string) : error := Failure FailurePolicy format.

(** The modes that may be combined. *)
Definition check_modes (req : SyncRequest) (prepareOnly : bool) : S unit :=
  _ ← refuse (prepareOnly && (bool_decide (Publication req <> None) || sync_RepairPending req || ValidationOnly req ||
                              ForceCompare req || Diagnostic req)) no_result "configuration"
        (policy_failure "source preparation cannot plan, verify, apply, or publish a candidate");
  _ ← refuse (ValidationOnly req && Diagnostic req) no_result "configuration"
        (policy_failure "validation-only cannot be combined with diagnostic mode");
  _ ← refuse (sync_RepairPending req && (ForceCompare req || ValidationOnly req || Diagnostic req)) no_result "configuration"
        (policy_failure "repair-pending cannot be combined with force-compare, validation-only, or diagnostic mode");
  refuse (ValidationOnly req && negb (ForceCompare req)) no_result "configuration"
    (policy_failure "validation-only requires force-compare").

Definition loadBaselineIdentity (path : string) : P BaselineIdentity :=
  raw ← peek (read_file path); raw ← of_res raw; of_res (decodeBaselineIdentity (B := B) raw).

(** The ref to resolve and whether the latest stable tag is wanted. *)
Definition select_ref (req : SyncRequest) (baseline : BaselineIdentity) : string * bool :=
  let selectedRef := trim_space (UpstreamRef req) in
  if ValidationOnly req && String.eqb selectedRef "" then (SourceRefName baseline, false)
  else (selectedRef, LatestStable req || String.eqb selectedRef "").

Definition upstream_repo (req : SyncRequest) : string :=
  if String.eqb (UpstreamRepo req) "" then defaultRemote else UpstreamRepo req.

Definition mark_explicit (selectedRef : string) (target : Target) : Target :=
  if String.eqb selectedRef "" then target
  else {| RefName := RefName target; RefKind := RefKind target; TagSHA := TagSHA target;
          PeeledCommitSHA := PeeledCommitSHA target; TargetExplicit := true |}.

Definition select_target (req : SyncRequest) (baseline : BaselineIdentity) : S Target :=
  _ ← refuse (ValidationOnly req && negb (complete_identity baseline)) no_result "baseline"
        (Failure FailureSource "validation-only requires a complete checked-in upstream identity");
  let '(selectedRef, latestStable) := select_ref req baseline in
  target ← at_ no_result "resolve" (resolve {| res_Remote := upstream_repo req; res_UpstreamRef := selectedRef;
                                                res_LatestStable := latestStable |});
  _ ← refuse (LatestStable req && negb (String.eqb (trim_space (UpstreamRef req)) "")) no_result "resolve"
        (Errorf "latest-stable cannot be combined with an explicit upstream ref" []);
  _ ← refuse (ValidationOnly req && negb (bool_decide (target_identity target = baseline))) no_result "resolve"
        (Failure FailureSource "validation-only target does not match the checked-in upstream identity");
  mret (mark_explicit selectedRef target).

Definition policy_of (req : SyncRequest) (baseline : BaselineIdentity) (target : Target) : PolicyDecision :=
  EvaluatePolicy {| Baseline := baseline; Policy.TargetRef := RefName target; Policy.TargetKind := RefKind target;
                    Policy.TargetSHA := PeeledCommitSHA target; req_TargetExplicit := TargetExplicit target;
                    req_Mode := if String.eqb (EventName req) "schedule" then "scheduled" else "manual";
                    AllowDowngrade := sync_AllowDowngrade req |}.

(** The modes in which a current baseline is still compared. *)
Definition comparing (req : SyncRequest) (prepareOnly : bool) : bool :=
  ForceCompare req || Diagnostic req || ValidationOnly req || prepareOnly.

Definition apply_policy (req : SyncRequest) (prepareOnly : bool) (baseline : BaselineIdentity) (target : Target) : S SyncResult :=
  let policy := policy_of req baseline target in
  let afterPolicy := decideAfterPolicy (Decision policy) (comparing req prepareOnly) in
  let result := with_target target (Policy.Reason policy) no_result in
  _ ← refuse (String.eqb afterPolicy "blocked") result "policy" (policy_failure "%s");
  if String.eqb afterPolicy "current" then finish (with_outcome OutcomeBaselineMatches (Reason result) result) "policy" None
  else mret result.

Definition inspection_for (req : SyncRequest) (publication : PendingRequest) (target : Target) (base : string) : PendingRequest :=
  {| ReadChecks := true; Inspection.RepairPending := sync_RepairPending req; Repository := Repository publication;
     BaseBranch := BaseBranch publication; BaseSHA := base; Remote := Remote publication;
     AppBotID := AppBotID publication; req_Target := target |}.

Definition repair_result (pending : PendingPublication) (result : SyncResult) : S SyncResult :=
  if negb (Repair pending) then
    finish result "pending_publication" (Some (
      if (Number pending =? 0)%Z then publicationPolicy "repair requested but no open non-single sync PR matches this candidate"
      else publicationPolicy "repair requested but PR #%d is already a single candidate commit"))
  else
    finish (with_outcome OutcomeRepairReady
      ("repair preserves the tree of PR #" +:+ pretty (Number pending) +:+ " at " +:+ pp_Head pending +:+ "; no regeneration")
      result) "pending_publication" None.

(** A pending publication of the same target makes generation unnecessary. *)
Definition pending_publication (req : SyncRequest) (target : Target) (result : SyncResult) : S SyncResult :=
  match Publication req with
  | Some publication =>
    if ValidationOnly req || Diagnostic req || ForceCompare req then mret result else
    let stage := "pending_publication" in
    base ← at_ result stage (gitOutput ["rev-parse"; "HEAD"]);
    let inspection := inspection_for req publication target (trim_space base) in
    pending ← at_ result stage (InspectPending pages inspection);
    currentBase ← at_ result stage (wrap_err "read current publication base: %w"
                    (remotePublicationHead (publicationRemote inspection) (BaseBranch inspection)));
    _ ← refuse (negb (String.eqb currentBase (BaseSHA inspection))) result stage
          (Failure FailurePublication "base branch %s moved from %s to %s; restart from the current base");
    let result := with_publication pending result in
    if sync_RepairPending req then repair_result pending result
    else if Reusable pending then
      finish (with_outcome OutcomePRPending
        (URL pending +:+ " remains pending: " +:+ pp_Checks pending +:+ "; no generation, Agent pass, or fresh proof") result) stage None
    else mret result
  | None => mret result
  end.

Definition generate (req : SyncRequest) (target : Target) (result : SyncResult) : S Candidate :=
  candidate ← at_ result "generate" (call "generate" (do_generate {|
    gen_ModuleRoot := module_root req; gen_UpstreamRepo := upstream_repo req; gen_Target := target |}));
  _ ← refuse (negb (String.eqb (cand_SourceCommit candidate) (PeeledCommitSHA target))) result "generate"
        (Failure FailureSource "candidate source_commit does not match the resolved target");
  mret candidate.

Definition finish_prepare (result : SyncResult) : S SyncResult :=
  _ ← at_ result "generate" (wrap_err "source preparation changed the accepted worktree: %w" AssertClean);
  finish (with_outcome OutcomeSourceReady
    "exact upstream source and schemas prepared; candidate planning belongs to the native goal" result) "generate" None.

Definition finish_validation (apply_request : ApplyRequest) (result : SyncResult) : S SyncResult :=
  let stage := "exact_verification" in
  proof ← at_ result stage (wrap_err "exact upstream verification: %w" (call "verify" (do_verify apply_request)));
  _ ← refuse (negb (String.eqb (plan_Status proof) PlanReady)) result stage
        (match plan_Issue proof with
         | Some _ => Failure FailureUnsupported "exact upstream verification unresolved at %s %s: %s"
         | None => Errorf "exact upstream verification returned %q" []
         end);
  _ ← at_ result stage (wrap_err "exact upstream verification changed the accepted worktree: %w" AssertClean);
  finish (with_outcome OutcomeExactVerified
    "fresh exact upstream reconstruction matches all accepted semantic artifacts" result) stage None.

Definition is_nil {A} (l : list A) : bool := match l with [] => true | _ => false end.

Definition finish_comparison (candidate : Candidate) (result : SyncResult) : S SyncResult :=
  let stage := "schema_comparison" in
  dirty ← at_ result stage ChangedPaths;
  _ ← refuse (negb (is_nil dirty)) result stage (Errorf "comparison must leave the protocol worktree unchanged" []);
  if String.eqb (DriftStatus candidate) "clean" then
    finish (with_outcome OutcomeSchemasMatch "read-only comparison found no protocol drift" result) stage None
  else finish result stage (Some (Failure FailureValidation "read-only comparison found protocol drift; comparison never applies")).

Definition finish_unresolved (candidate : Candidate) (planned : PlanResult) (result : SyncResult) : S SyncResult :=
  dirty ← at_ result "plan" ChangedPaths;
  _ ← refuse (negb (is_nil dirty)) result "plan" (Errorf "semantic planning must leave the protocol worktree unchanged" []);
  digest ← at_ result "plan" (peek (do_digest (Dir candidate)));
  fingerprint ← at_ result "plan" (wrap_err "snapshot unresolved candidate: %w" (of_res digest));
  finish (with_issue fingerprint (plan_Issue planned) result) "plan" None.

(** A failed plan; a diagnostic one must not have changed the worktree. *)
Definition plan_candidate (req : SyncRequest) (apply_request : ApplyRequest) (result : SyncResult) : S PlanResult :=
  planned ← at_ result "plan" (attempt (call "plan" (do_plan apply_request)));
  match planned with
  | Ok planned => mret planned
  | Err e =>
    _ ← (if Diagnostic req then
           at_ result "plan" (wrap_err "diagnostic planning changed the accepted worktree: %w (plan error: %v)" AssertClean)
         else mret tt);
    finish result "plan" (Some (Errorf "plan candidate: %w" [e]))
  end.

Definition finish_diagnostic (result : SyncResult) : S SyncResult :=
  _ ← at_ result "plan" (wrap_err "diagnostic planning changed the accepted worktree: %w" AssertClean);
  finish (with_outcome OutcomePlanReady "read-only candidate plan is ready" result) "plan" None.

Definition apply_plan (apply_request : ApplyRequest) (candidate : Candidate) (planned : PlanResult) (result : SyncResult) : S SyncResult :=
  _ ← at_ result "apply" (wrap_err "apply planned candidate: %w" (call "apply" (do_apply apply_request planned)));
  paths ← at_ result "apply" ChangedPaths;
  _ ← at_ result "apply" (wrap_err "planned apply escaped the generated sync surface: %w" (of_res (validatePaths paths "mechanical")));
  let provenanceOnly := String.eqb (DriftStatus candidate) "clean" && String.eqb (GeneratedReleaseImpact planned) "metadata-only" in
  finish (with_outcome OutcomeApplied
    (if provenanceOnly then "provenance-only candidate planned and applied" else "mechanical candidate planned and applied")
    result) "apply" None.

Definition plan_and_apply (req : SyncRequest) (apply_request : ApplyRequest) (candidate : Candidate) (result : SyncResult) : S SyncResult :=
  planned ← plan_candidate req apply_request result;
  if String.eqb (plan_Status planned) PlanSemanticUnresolved then finish_unresolved candidate planned result
  else if negb (String.eqb (plan_Status planned) PlanReady) then finish result "plan" (Some (Errorf "unknown plan status %q" []))
  else if Diagnostic req then finish_diagnostic result
  else apply_plan apply_request candidate planned result.

(** Every path of the body ends by [finish]. *)
Definition sync_body (req : SyncRequest) (prepareOnly : bool) : S SyncResult :=
  _ ← check_modes req prepareOnly;
  _ ← at_ no_result "configuration" AssertClean;
  baseline ← at_ no_result "baseline"
    (loadBaselineIdentity (path_join (path_join (module_root req) defaultBaselineRel) "baseline_metadata.json"));
  target ← select_target req baseline;
  result ← apply_policy req prepareOnly baseline target;
  result ← pending_publication req target result;
  candidate ← generate req target result;
  let result := with_candidate candidate result in
  let apply_request := candidateApplyRequest (module_root req) candidate target in
  if prepareOnly then finish_prepare result
  else if ValidationOnly req then finish_validation apply_request result
  else if ForceCompare req && negb (Diagnostic req) then finish_comparison candidate result
  else plan_and_apply req apply_request candidate result.

Definition finishSync (stage : string) (err : option error) (result : SyncResult) : SyncResult :=
  let '(outcome, category, reason) :=
    match err with
    | Some e => (OutcomeFailed, failureCategory environmental e, error_text e)
    | None => (Outcome result, FailureCategory result, Reason result)
    end in
  {| r_Publication := r_Publication result; r_Stage := stage; FailureCategory := category; Outcome := outcome; Reason := reason;
     r_Target := r_Target result; r_Candidate := r_Candidate result; CandidateDir := CandidateDir result;
     CandidateSHA256 := CandidateSHA256 result; Issue := Issue result |}.

Definition syncCandidate (req : SyncRequest) (prepareOnly : bool) : P (SyncResult * option error) :=
  mbind (M := P) (fun x => match x with
    | inl result => mret (M := P) (result, None)
    | inr e => mret (M := P) (finishSync (x_stage e) (x_err e) (x_result e), x_err e)
    end) (sync_body req prepareOnly).

Definition Sync (req : SyncRequest) : P (SyncResult * option error) := syncCandidate req false.
Definition PrepareSource (req : SyncRequest) : P (SyncResult * option error) := syncCandidate req true.

(** ** The outputs of a workflow step *)

Definition bool_text (b : bool) : string := if b then "true" else "false".

Definition output_lines (result : SyncResult) : list string :=
  let issue f := match Issue result with Some i => f i | None => "" end in
  let publication f := match r_Publication result with Some p => f p | None => "" end in
  let check f := publication (fun p => match CheckObservation p with Some o => f o | None => "" end) in
  ["check_run_id=" +:+ check (fun o => pretty (WorkflowRunID o)); "check_run_attempt=" +:+ check (fun o => pretty (WorkflowAttempt o));
   "check_state=" +:+ check (fun o => state_text (WorkflowState o));
   "outcome=" +:+ githubOutputValue (Outcome result);
   "publication_head=" +:+ githubOutputValue (publication pp_Head);
   "publication_branch=" +:+ githubOutputValue (publication Branch);
   "publication_number=" +:+ githubOutputValue (publication (fun p => pretty (Number p)));
   "pr_url=" +:+ githubOutputValue (publication URL);
   "publication_checks=" +:+ githubOutputValue (publication pp_Checks);
   "stage=" +:+ githubOutputValue (r_Stage result);
   "failure_category=" +:+ githubOutputValue (FailureCategory result);
   "applied=" +:+ bool_text (String.eqb (Outcome result) OutcomeApplied);
   "target_ref=" +:+ githubOutputValue (RefName (r_Target result));
   "target_kind=" +:+ githubOutputValue (RefKind (r_Target result));
   "target_sha=" +:+ githubOutputValue (PeeledCommitSHA (r_Target result));
   "candidate=" +:+ githubOutputValue (r_Candidate result);
   "candidate_dir=" +:+ githubOutputValue (CandidateDir result);
   "candidate_sha256=" +:+ githubOutputValue (CandidateSHA256 result);
   "reason=" +:+ githubOutputValue (Reason result);
   "issue_stage=" +:+ githubOutputValue (issue issue_Stage);
   "issue_path=" +:+ githubOutputValue (issue issue_Path);
   "issue_reason=" +:+ githubOutputValue (issue issue_Reason)].

(** What [WriteGitHubOutput] appends to the file. *)
Definition WriteGitHubOutput (result : SyncResult) : string := str_join nl (output_lines result) +:+ nl.
End sync.

(** * Facts *)

Section facts.
Context {W : Type} {B : Boundary W} {O : SyncOperations W} (pages : nat).
Notation S := (S (B := B)).
Implicit Types (s : flow (B := B)).

(** ** Undoing the parts *)

Lemma S_bind_inv {A C} (m : S A) (f : A -> S C) s r s' :
  mbind (M := S) f m s = Some (r, s') ->
  (exists a s1, m s = Some (Ok (inl a), s1) /\ f a s1 = Some (r, s')) \/
  (exists e, m s = Some (Ok (inr e), s') /\ r = Ok (inr e)) \/ (exists e, m s = Some (Err e, s') /\ r = Err e).
Proof.
  intros H. unfold mbind, S_bind in H. apply P_bind_inv in H as [([a|e] & s1 & H1 & H)|(e & H1 & ->)].
  - left. eauto.
  - right; left. injection H as <- <-. eauto.
  - right; right. eauto.
Qed.

Lemma S_bind_inl {A C} (m : S A) (f : A -> S C) s c s' :
  mbind (M := S) f m s = Some (Ok (inl c), s') -> exists a s1, m s = Some (Ok (inl a), s1) /\ f a s1 = Some (Ok (inl c), s').
Proof. intros [H|[(e & _ & H)|(e & _ & H)]]%S_bind_inv; [done | discriminate H..]. Qed.

Lemma at_inl {A} result stage (m : P A) a s s' : at_ result stage m s = Some (Ok (inl a), s') -> m s = Some (Ok a, s').
Proof.
  intros (r & s1 & (x & [= ->] & H1)%attempt_inv & H)%P_bind_Ok. destruct x; [|done]. by injection H as -> ->.
Qed.
Lemma refuse_inl bad result stage e u s s' : refuse bad result stage e s = Some (Ok (inl u), s') -> bad = false /\ s' = s.
Proof. unfold refuse. destruct bad; [done | by intros [= _ ->]]. Qed.
Lemma S_ret_inl {A} (a b : A) s s' : mret (M := S) a s = Some (Ok (inl b), s') -> b = a /\ s' = s.
Proof. by intros [= <- <-]. Qed.

(** ** What the parts ask *)

(** Reads, and the operations that leave the worktree alone. *)
Definition harmless (e : event (B := B)) : bool :=
  match e with Called name => negb (String.eqb name "apply") | _ => read_only e end.
Abbreviation careful := (emits (B := B) (fun e => harmless e = true)).

Lemma reads_careful {A} (m : P A) : emits (B := B) (fun e => read_only e = true) m -> careful m.
Proof. apply emits_weaken. by intros []. Qed.

Lemma emits_S_bind {A C} Q (m : S A) (f : A -> S C) :
  emits Q m -> (forall a, emits Q (f a)) -> emits Q (mbind (M := S) f m).
Proof. intros Hm Hf. unfold mbind, S_bind. apply emits_bind; [done|]. intros [a|e]; [apply Hf | apply emits_ret]. Qed.
Lemma emits_S_ret {A} Q (a : A) : emits Q (mret (M := S) a).
Proof. apply (emits_ret Q (inl a)). Qed.
Lemma emits_finish {A} Q result stage err : emits Q (finish (A := A) result stage err : S A).
Proof. apply (emits_ret (B := B) Q). Qed.
Lemma emits_at {A} Q result stage (m : P A) : emits Q m -> emits Q (at_ result stage m : S A).
Proof. intros Hm. unfold at_. apply emits_bind; [by apply emits_attempt|]. intros [a|e]; apply emits_ret. Qed.
Lemma emits_refuse Q bad result stage e : emits Q (refuse bad result stage e : S unit).
Proof. unfold refuse. destruct bad; apply (emits_ret (B := B) Q). Qed.
Lemma emits_call {A} Q name (f : W -> res A * W) : Q (Called name) -> emits Q (call (B := B) name f).
Proof.
  intros HQ s r s'. unfold call. destruct (f (world s)) as [a w]. intros [= <- <-]. exists [Called name].
  by split; [|constructor].
Qed.
End facts.

#[export] Hint Resolve emits_S_ret emits_finish emits_refuse : emitting.
#[export] Hint Extern 1 (emits (fun e => harmless e = true) _) => apply reads_careful : emitting.
#[export] Hint Extern 1 (emits _ (call _ _)) => apply emits_call; reflexivity : emitting.

(** As [emitted], for a part of a sync. *)
Ltac parted :=
  repeat first
    [ progress intros
    | solve [eauto 3 with emitting]
    | apply emits_S_bind | apply emits_at | apply emits_wrap | apply emits_attempt | apply emits_bind
    | match goal with
      | |- emits _ (match ?x with _ => _ end) => destruct x
      | |- emits _ (if ?x then _ else _) => destruct x
      | |- emits _ (let '(_, _) := ?x in _) => destruct x
      end ].

(** Undo the parts of a sync that went on. *)
Ltac unpart :=
  repeat match goal with
  | H : mbind (M := Sync.S) _ _ _ = Some (Ok (inl _), _) |- _ =>
    let a := fresh "a" in let s := fresh "s" in let H1 := fresh "H" in apply S_bind_inl in H as (a & s & H1 & H)
  | H : at_ _ _ _ _ = Some (Ok (inl _), _) |- _ => apply at_inl in H
  | H : refuse _ _ _ _ _ = Some (Ok (inl ?x), _) |- _ => apply refuse_inl in H as [H ->]
  | H : mret (M := Sync.S) _ _ = Some (Ok (inl _), _) |- _ => apply S_ret_inl in H as [-> ->]
  | H : finish _ _ _ _ = Some (Ok (inl _), _) |- _ => discriminate H
  end.

Section proofs.
Context {W : Type} {B : Boundary W} {O : SyncOperations W} (pages : nat).
Notation S := (S (B := B)).
Implicit Types (s : flow (B := B)).
Abbreviation careful := (emits (B := B) (fun e => harmless e = true)).

Lemma resolve_careful req : careful (resolve req).
Proof. by apply emits_resolve. Qed.
Lemma gitOutput_reads args : negb (existsb (String.eqb (hd "" args)) writing_commands) = true ->
  emits (B := B) (fun e => read_only e = true) (gitOutput args).
Proof. intros Ha. apply emits_wrap, emits_run. by intros out. Qed.
Hint Resolve resolve_careful : emitting.
Hint Extern 1 (emits _ (gitOutput _)) => apply gitOutput_reads; reflexivity : emitting.

Lemma check_modes_careful req prepareOnly : careful (check_modes req prepareOnly).
Proof. unfold check_modes. parted. Qed.
Lemma loadBaselineIdentity_careful path : careful (loadBaselineIdentity path).
Proof. unfold loadBaselineIdentity. parted. Qed.
Lemma select_target_careful req baseline : careful (select_target req baseline).
Proof. unfold select_target. parted. Qed.
Lemma apply_policy_careful req prepareOnly baseline target : careful (apply_policy req prepareOnly baseline target).
Proof. unfold apply_policy. parted. Qed.
Lemma pending_careful req target result : careful (pending_publication pages req target result).
Proof. unfold pending_publication, repair_result. parted. Qed.
Lemma generate_careful req target result : careful (generate req target result).
Proof. unfold generate. parted. Qed.
Lemma plan_careful req apply_request result : careful (plan_candidate req apply_request result).
Proof. unfold plan_candidate. parted. Qed.
Lemma finish_careful apply_request candidate planned result :
  careful (finish_prepare result) /\ careful (finish_validation apply_request result) /\
  careful (finish_comparison candidate result) /\ careful (finish_unresolved candidate planned result) /\
  careful (finish_diagnostic result).
Proof.
  unfold finish_prepare, finish_validation, finish_comparison, finish_unresolved, finish_diagnostic. split_and!; parted.
Qed.
Hint Resolve check_modes_careful loadBaselineIdentity_careful select_target_careful apply_policy_careful
  pending_careful generate_careful plan_careful : emitting.

(** ** The guards of an application *)

Lemma check_modes_inl req prepareOnly u s s' :
  check_modes req prepareOnly s = Some (Ok (inl u), s') ->
  (prepareOnly = true -> Publication req = None /\ sync_RepairPending req = false /\ ValidationOnly req = false /\
     ForceCompare req = false /\ Diagnostic req = false) /\
  (ValidationOnly req = true -> ForceCompare req = true /\ Diagnostic req = false) /\
  (sync_RepairPending req = true -> ForceCompare req = false /\ ValidationOnly req = false /\ Diagnostic req = false).
Proof.
  unfold check_modes. intros H. unpart.
  assert (bool_decide (Publication req <> None) = false -> Publication req = None) as Hp.
  { intros Hb%bool_decide_eq_false. destruct (Publication req); [|done]. exfalso. by apply Hb. }
  destruct prepareOnly, (bool_decide (Publication req <> None)), (sync_RepairPending req), (ValidationOnly req), (ForceCompare req), (Diagnostic req);
    simpl in *; naive_solver.
Qed.

Lemma select_target_inl req baseline target s s' :
  select_target req baseline s = Some (Ok (inl target), s') ->
  exists request answer, LookedUp request (Ok answer) ∈ log s' /\ target_identity target = target_identity answer /\
    res_Remote request = upstream_repo req /\
    (ValidationOnly req = true -> complete_identity baseline = true /\ target_identity target = baseline).
Proof.
  unfold select_target. intros H. unpart. destruct (select_ref req baseline) as [selected latest]. unpart.
  apply resolve_inv in H1. exists {| res_Remote := upstream_repo req; res_UpstreamRef := selected; res_LatestStable := latest |}, a0.
  assert (target_identity (mark_explicit selected a0) = target_identity a0) as Hm by (unfold mark_explicit; by destruct (String.eqb selected "")).
  split; [rewrite H1; left|]. split; [done|]. split; [done|]. intros Hv. rewrite Hv in *. simpl in *. reflect_bools.
  split; [done | by rewrite Hm].
Qed.

Lemma apply_policy_inl req prepareOnly baseline target result s s' :
  apply_policy req prepareOnly baseline target s = Some (Ok (inl result), s') ->
  Decision (policy_of req baseline target) = DecisionAllow \/
  comparing req prepareOnly = true /\ Decision (policy_of req baseline target) = DecisionSkip.
Proof.
  unfold apply_policy, decideAfterPolicy. intros H. unpart.
  destruct (String.eqb_spec (Decision (policy_of req baseline target)) DecisionBlock); [done|].
  destruct (String.eqb_spec (Decision (policy_of req baseline target)) DecisionSkip) as [Hs|].
  { destruct (comparing req prepareOnly) eqn:Ec; [right; by rewrite Hs|]. simpl in H. discriminate H. }
  destruct (String.eqb_spec (Decision (policy_of req baseline target)) DecisionAllow); [by left | done].
Qed.

Lemma pending_inl req target result result' s s' :
  pending_publication pages req target result s = Some (Ok (inl result'), s') ->
  sync_RepairPending req = true -> ValidationOnly req || Diagnostic req || ForceCompare req = false -> Publication req = None.
Proof.
  unfold pending_publication. intros H Hr Hm. destruct (Publication req) as [publication|]; [|done]. rewrite Hm in H. unpart.
  rewrite Hr in H. unfold repair_result in H. by destruct (Repair a0).
Qed.

(** What an applied plan is. *)
Record applicable (req : SyncRequest) (baseline : BaselineIdentity) (target : Target) (candidate : Candidate)
    (planned : PlanResult) : Prop := {
  a_modes : ValidationOnly req = false /\ Diagnostic req = false /\ ForceCompare req = false;
  a_no_repair : sync_RepairPending req = true -> Publication req = None;
  a_allowed : Decision (policy_of req baseline target) = DecisionAllow;
  a_target : exists w w', do_generate {| gen_ModuleRoot := module_root req; gen_UpstreamRepo := upstream_repo req;
                                        gen_Target := target |} w = (Ok candidate, w');
  a_commit : cand_SourceCommit candidate = PeeledCommitSHA target;
  a_planned : exists w w', do_plan (candidateApplyRequest (module_root req) candidate target) w = (Ok planned, w');
  a_ready : plan_Status planned = PlanReady }.

(** What has been asked since [s0], while it was harmless. *)
Definition careful_since s0 s : Prop := exists l, log s = l ++ log s0 /\ Forall (fun e => harmless e = true) l.

Lemma careful_since_refl s : careful_since s s.
Proof. by exists []. Qed.

Lemma careful_run {A} (m : P (B := B) A) s0 s r s' : careful m -> careful_since s0 s -> m s = Some (r, s') -> careful_since s0 s'.
Proof.
  intros Hm (l & E & F) H. destruct (Hm _ _ _ H) as (l' & E' & F'). exists (l' ++ l). rewrite E', E, app_assoc.
  split; [done | by apply Forall_app].
Qed.

Lemma careful_or {A C} s0 (m : S A) (f : A -> S C) s r s' :
  careful_since s0 s -> careful m -> mbind (M := S) f m s = Some (r, s') ->
  careful_since s0 s' \/ exists a s1, m s = Some (Ok (inl a), s1) /\ careful_since s0 s1 /\ log s ⊆ log s1 /\ f a s1 = Some (r, s').
Proof.
  intros Hs Hm [(a & s1 & H1 & H)|[(e & H1 & _)|(e & H1 & _)]]%S_bind_inv; pose proof (careful_run _ _ _ _ _ Hm Hs H1) as Hs1;
    [right | by left..]. exists a, s1. split_and!; try done. by eapply emits_later.
Qed.

Lemma call_inv {A} name (f : W -> res A * W) a s s' :
  call name f s = Some (Ok a, s') -> f (world s) = (Ok a, world s') /\ log s' = Called name :: log s.
Proof. unfold call. destruct (f (world s)) as [r w]. by intros [= -> <-]. Qed.

(** The application and what follows it. *)
Lemma apply_plan_log apply_request candidate planned result r s s' :
  apply_plan apply_request candidate planned result s = Some (r, s') ->
  exists l, log s' = l ++ Called "apply" :: log s /\ Forall (fun e => read_only e = true) l.
Proof.
  unfold apply_plan. set (rest := fun _ : unit => _). intros H.
  assert (forall u, emits (B := B) (fun e => read_only e = true) (rest u)) as Hrest by (intros; unfold rest; parted).
  assert (forall x s1, at_ (B := B) result "apply" (wrap_err "apply planned candidate: %w" (call "apply" (do_apply apply_request planned))) s =
    Some (x, s1) -> log s1 = Called "apply" :: log s) as Hcall.
  { intros x s1. unfold at_, attempt, wrap_err, call, mbind, P_bind. destruct (do_apply apply_request planned (world s)) as [[u|e] w];
      by intros [= <- <-]. }
  apply S_bind_inv in H as [(u & s1 & H1 & H)|[(e & H1 & _)|(e & H1 & _)]]; pose proof (Hcall _ _ H1) as E.
  - destruct (Hrest u _ _ _ H) as (l & El & Hl). exists l. by rewrite El, E.
  - exists []. by rewrite E.
  - exists []. by rewrite E.
Qed.

Lemma plan_inl req apply_request result planned s s' :
  plan_candidate req apply_request result s = Some (Ok (inl planned), s') ->
  exists w w', do_plan apply_request w = (Ok planned, w').
Proof.
  unfold plan_candidate. intros H. unpart. apply attempt_inv in H0 as (x & [= ->] & H0).
  destruct x as [p|e]; [|by destruct (Diagnostic req); unpart]. unpart.
  apply call_inv in H0 as [H0 _]. eauto.
Qed.

Lemma generate_inl req target result candidate s s' :
  generate req target result s = Some (Ok (inl candidate), s') ->
  (exists w w', do_generate {| gen_ModuleRoot := module_root req; gen_UpstreamRepo := upstream_repo req; gen_Target := target |} w =
     (Ok candidate, w')) /\ cand_SourceCommit candidate = PeeledCommitSHA target.
Proof.
  unfold generate. intros H. unpart. apply call_inv in H0 as [H0 _]. reflect_bools.
  split; [eauto | by apply String.eqb_eq].
Qed.

Lemma baseline_inv path baseline s s' :
  loadBaselineIdentity (B := B) path s = Some (Ok baseline, s') ->
  exists w raw, read_file path w = Ok raw /\ decode_metadata raw = Ok baseline.
Proof.
  unfold loadBaselineIdentity, decodeBaselineIdentity. intros H. undo. unfold peek in H0. injection H0 as <- <-.
  destruct (decode_metadata a0) as [i|] eqn:Ed; [|done]. injection H as ->. eauto.
Qed.

Definition baseline_path (req : SyncRequest) : string :=
  path_join (path_join (module_root req) defaultBaselineRel) "baseline_metadata.json".

(** The part of a sync from the candidate on. *)
Definition from_candidate (req : SyncRequest) (prepareOnly : bool) (target : Target) (candidate : Candidate)
    (result : SyncResult) : S SyncResult :=
  let result := with_candidate candidate result in
  let apply_request := candidateApplyRequest (module_root req) candidate target in
  if prepareOnly then finish_prepare result
  else if ValidationOnly req then finish_validation apply_request result
  else if ForceCompare req && negb (Diagnostic req) then finish_comparison candidate result
  else plan_and_apply req apply_request candidate result.

(** It asks nothing harmful, or it applies a ready plan outside every mode. *)
Lemma from_candidate_spec req prepareOnly target candidate result r s s' :
  from_candidate req prepareOnly target candidate result s = Some (r, s') ->
  careful_since s s' \/
  exists l2 s1 planned, log s' = l2 ++ Called "apply" :: log s1 /\ careful_since s s1 /\
    Forall (fun e => read_only e = true) l2 /\ prepareOnly = false /\ ValidationOnly req = false /\
    Diagnostic req = false /\ ForceCompare req = false /\ plan_Status planned = PlanReady /\
    exists w w', do_plan (candidateApplyRequest (module_root req) candidate target) w = (Ok planned, w').
Proof.
  unfold from_candidate. set (result' := with_candidate candidate result). set (ar := candidateApplyRequest _ _ _). intros H.
  destruct (finish_careful ar candidate {| plan_Status := ""; GeneratedReleaseImpact := ""; plan_Issue := None |} result')
    as (Hprep & Hval & Hcmp & _ & Hdiag).
  destruct prepareOnly; [left; by eapply Hprep|]. destruct (ValidationOnly req); [left; by eapply Hval|].
  destruct (ForceCompare req && negb (Diagnostic req)) eqn:Ef; [left; by eapply Hcmp|].
  unfold plan_and_apply in H. apply (careful_or s) in H as [?|(planned & s1 & H1 & Hs1 & _ & H)];
    [by left | | apply careful_since_refl | apply plan_careful]. apply plan_inl in H1.
  destruct (String.eqb _ PlanSemanticUnresolved); [left; eapply careful_run; [|exact Hs1 | exact H]; by apply (finish_careful ar candidate planned result')|].
  destruct (String.eqb_spec (plan_Status planned) PlanReady) as [Hr|]; simpl in H; [|left; eapply careful_run; [|exact Hs1 | exact H]; apply emits_finish].
  destruct (Diagnostic req); [left; by eapply careful_run|].
  right. apply apply_plan_log in H as (l & El & Fl). destruct (ForceCompare req); [done|].
  exists l, s1, planned. by split_and!.
Qed.

(** C14: an upgrade is applied at most once and only when everything allows it:
    whatever generation, planning, git and the API answer, a sync otherwise only
    reads; and it applies only outside the preparing, validating, diagnosing and
    comparing modes, on a clean worktree, when the policy allows the advance
    from the checked-in baseline to the target that the upstream was resolved
    to, the candidate was generated from that target's commit, and its plan is
    ready; after the application it only reads. *)
Theorem sync_applies_guarded (req : SyncRequest) prepareOnly r s s' (H : syncCandidate pages req prepareOnly s = Some (r, s')) :
  careful_since s s' \/
  exists l s1, log s' = l ++ Called "apply" :: log s1 /\ Forall (fun e => read_only e = true) l /\ careful_since s s1 /\
    prepareOnly = false /\ clean_worktree (log s1) /\
    exists baseline target candidate planned, applicable req baseline target candidate planned /\
      (exists w raw, read_file (baseline_path req) w = Ok raw /\ decode_metadata raw = Ok baseline) /\
      exists request answer, LookedUp request (Ok answer) ∈ log s1 /\ res_Remote request = upstream_repo req /\
        target_identity target = target_identity answer.
Proof.
  assert (exists x, sync_body pages req prepareOnly s = Some (x, s')) as [x Hx].
  { unfold syncCandidate in H. apply P_bind_inv in H as [([a|e] & s1 & H1 & [= _ <-])|(e & H1 & _)]; eauto. }
  clear H. revert Hx. unfold sync_body. fold (baseline_path req). intros H.
  apply (careful_or s) in H as [?|(u1 & s1 & H1 & C1 & _ & H)]; [by left | | apply careful_since_refl | parted].
  apply (careful_or s) in H as [?|(u2 & s2 & H2 & C2 & L2 & H)]; [by left | | done | parted].
  apply (careful_or s) in H as [?|(baseline & s3 & H3 & C3 & L3 & H)]; [by left | | done | parted].
  apply (careful_or s) in H as [?|(target & s4 & H4 & C4 & L4 & H)]; [by left | | done | parted].
  apply (careful_or s) in H as [?|(res5 & s5 & H5 & C5 & L5 & H)]; [by left | | done | parted].
  apply (careful_or s) in H as [?|(res6 & s6 & H6 & C6 & L6 & H)]; [by left | | done | parted].
  apply (careful_or s) in H as [?|(candidate & s7 & H7 & C7 & L7 & H)]; [by left | | done | parted].
  unpart. apply from_candidate_spec in H as [H|(l & s8 & planned & El & C8 & Fl & Hp & Hv & Hd & Hf & Hr & Hplan)].
  { left. destruct C7 as (l7 & E7 & F7), H as (l & El & Fl). exists (l ++ l7). rewrite El, E7, app_assoc.
    split; [done | by apply Forall_app]. }
  apply AssertClean_inv in H2 as [(tr & un & Htr & Hun & Hclean) _]. apply baseline_inv in H3.
  apply select_target_inl in H4 as (request & answer & Hlook & Ht & Hremote & _).
  apply check_modes_inl in H1 as (Hm1 & _ & _). apply apply_policy_inl in H5. apply generate_inl in H7 as [Hg Hcommit].
  assert (log s7 ⊆ log s8) as L8 by (destruct C8 as (l8 & -> & _); set_solver).
  right. exists l, s8. split; [done|]. split; [done|]. split.
  { destruct C7 as (l7 & E7 & F7), C8 as (l8 & E8 & F8). exists (l8 ++ l7). rewrite E8, E7, app_assoc.
    split; [done | by apply Forall_app]. }
  split; [done|]. split; [exists tr, un; split_and!; [said | said | done]|].
  exists baseline, target, candidate, planned. split; [|split; [done|]].
  - split; try done.
    + intros Hrep. eapply pending_inl; [exact H6 | done|]. by rewrite Hv, Hd, Hf.
    + destruct H5 as [?|[Hc _]]; [done|]. unfold comparing in Hc. by rewrite Hv, Hd, Hf, Hp in Hc.
  - exists request, answer. split; [said | done].
Qed.

(** ** Reports *)

Definition success_outcomes : list string :=
  [OutcomeBaselineMatches; OutcomeSchemasMatch; OutcomeExactVerified; OutcomeApplied; OutcomePlanReady;
   OutcomeSourceReady; OutcomePRPending; OutcomeRepairReady; OutcomeSemanticUnresolved].

(** The last step was an application whose changes, read back, are mechanical. *)
Definition applied_here s : Prop := exists tracked untracked rest paths,
  log s = Ran untracked_args (Ok untracked) :: Ran tracked_args (Ok tracked) :: Called "apply" :: rest /\
  Scope.ChangedPaths (Ok (paths_of tracked)) (Ok (paths_of untracked)) = Ok paths /\
  Forall (fun p => isMechanicalPath p = true) paths.

(** A part fails only by an exit with an error, and succeeds, where it does not
    go on, with a named outcome. *)
Definition reporting {A} (goes_on : bool) (m : S A) : Prop := forall s r s', m s = Some (r, s') ->
  match r with
  | Err _ => False
  | Ok (inl _) => goes_on = true
  | Ok (inr e) => x_err e = None -> Outcome (x_result e) ∈ success_outcomes /\ (Outcome (x_result e) = OutcomeApplied -> applied_here s')
  end.

Lemma reporting_bind {A C} b (m : S A) (f : A -> S C) :
  reporting true m -> (forall a, reporting b (f a)) -> reporting b (mbind (M := S) f m).
Proof.
  intros Hm Hf s r s' [(a & s1 & H1 & H)|[(e & H1 & ->)|(e & H1 & ->)]]%S_bind_inv;
    [by apply Hf in H | exact (Hm _ _ _ H1) | exact (Hm _ _ _ H1)].
Qed.
Lemma reporting_ret {A} (a : A) : reporting true (mret (M := S) a).
Proof. by intros s r s' [= <- <-]. Qed.
Lemma reporting_at {A} result stage (m : P (B := B) A) : reporting true (at_ result stage m : S A).
Proof.
  intros s r s' [(x & s1 & _ & H)|(e & (x & ? & _)%attempt_inv & _)]%P_bind_inv; [|done].
  by destruct x; injection H as <- <-.
Qed.
Lemma reporting_error {A} b result stage e : reporting b (finish (A := A) result stage (Some e) : S A).
Proof. by intros s r s' [= <- <-]. Qed.
Lemma reporting_refuse result stage bad e : reporting true (refuse bad result stage e : S unit).
Proof. unfold refuse. destruct bad; [apply reporting_error | apply reporting_ret]. Qed.
Lemma reporting_outcome {A} b outcome reason result stage :
  outcome ∈ success_outcomes -> outcome <> OutcomeApplied ->
  reporting b (finish (A := A) (with_outcome outcome reason result) stage None : S A).
Proof. by intros Ho Hn s r s' [= <- <-] _. Qed.
Lemma reporting_issue {A} b sha issue result stage : reporting b (finish (A := A) (with_issue sha issue result) stage None : S A).
Proof. intros s r s' [= <- <-] _. simpl. split; [unfold success_outcomes; set_solver | done]. Qed.

Lemma apply_plan_reporting apply_request candidate planned result : reporting false (apply_plan apply_request candidate planned result).
Proof.
  unfold apply_plan. intros s r s' [(u & s1 & H1 & H)|[(e & H1 & ->)|(e & H1 & ->)]]%S_bind_inv.
  2-3: exact (reporting_at _ _ _ _ _ _ H1).
  apply at_inl, wrap_err_Ok, call_inv in H1 as [_ E1].
  apply S_bind_inv in H as [(paths & s2 & H2 & H)|[(e & H2 & ->)|(e & H2 & ->)]]; [| exact (reporting_at _ _ _ _ _ _ H2)..].
  apply at_inl in H2. unfold ChangedPaths in H2. undo.
  apply S_bind_inv in H as [(v & s4 & H4 & H)|[(e & H4 & ->)|(e & H4 & ->)]]; [| exact (reporting_at _ _ _ _ _ _ H4)..].
  apply at_inl, wrap_err_Ok, of_res_inv in H4 as [Hv ->]. injection H as <- <-. intros _. split; [unfold success_outcomes; set_solver|].
  intros _. eexists _, _, (log s), paths. split; [by repeat match goal with E : log ?x = _ |- log ?x = _ => rewrite E; f_equal end|]. split; [done|].
  pose proof (validatePaths_spec paths "mechanical") as Hs. rewrite Hv in Hs. destruct Hs as [_ Hs].
  eapply Forall_impl; [exact Hs|]. intros p. unfold phase_allows. simpl. by rewrite orb_false_r.
Qed.

Ltac report :=
  repeat first
    [ progress intros
    | apply reporting_at | apply reporting_refuse | apply reporting_ret | apply reporting_error | apply reporting_issue
    | apply apply_plan_reporting
    | apply reporting_outcome; [unfold success_outcomes; set_solver | done]
    | apply reporting_bind
    | match goal with
      | |- reporting _ (match ?x with _ => _ end) => destruct x
      | |- reporting _ (if ?x then _ else _) => destruct x
      | |- reporting _ (let '(_, _) := ?x in _) => destruct x
      end ].

Lemma sync_body_reporting req prepareOnly : reporting false (sync_body pages req prepareOnly).
Proof.
  unfold sync_body, check_modes, select_target, apply_policy, pending_publication, repair_result, generate, finish_prepare,
    finish_validation, finish_comparison, plan_and_apply, plan_candidate, finish_unresolved, finish_diagnostic.
  report.
Qed.

(** Every sync reports: it always returns a result; the outcome is "failed"
    exactly when there is an error, with the category of that error and its
    text; otherwise it is one of the named outcomes, and an upgrade is only
    reported as applied directly after an application whose changes, read back
    from git, are all mechanical paths. *)
Theorem sync_reports (req : SyncRequest) prepareOnly r s s' (H : syncCandidate pages req prepareOnly s = Some (r, s')) :
  exists result err, r = Ok (result, err) /\
    match err with
    | Some e => Outcome result = OutcomeFailed /\ FailureCategory result = failureCategory environmental e /\
                Reason result = error_text e
    | None => Outcome result ∈ success_outcomes /\ (Outcome result = OutcomeApplied -> applied_here s')
    end.
Proof.
  unfold syncCandidate in H. apply P_bind_inv in H as [([a|e] & s1 & H1 & H)|(e & H1 & ->)];
    pose proof (sync_body_reporting req prepareOnly _ _ _ H1) as Hr; simpl in Hr; [done | | done].
  injection H as <- <-. exists (finishSync (x_stage e) (x_err e) (x_result e)), (x_err e). split; [done|].
  unfold finishSync. destruct (x_err e); simpl; [done | by apply Hr].
Qed.
End proofs.

(** * Outputs *)

Notation newline := PublicationText.newline.

Definition output_keys : list string :=
  ["check_run_id"; "check_run_attempt"; "check_state"; "outcome"; "publication_head"; "publication_branch"; "publication_number";
   "pr_url"; "publication_checks"; "stage"; "failure_category"; "applied"; "target_ref"; "target_kind"; "target_sha"; "candidate";
   "candidate_dir"; "candidate_sha256"; "reason"; "issue_stage"; "issue_path"; "issue_reason"].

Definition free_of (a : ascii) (s : string) : Prop := index_byte a s = None.
Abbreviation one_line := (free_of newline).

Lemma one_line_app s t : one_line s -> one_line t -> one_line (s +:+ t).
Proof. unfold free_of. intros Hs Ht. by rewrite index_byte_app_None, Ht. Qed.

Lemma one_line_cons c s : one_line (String c s) <-> c <> newline /\ one_line s.
Proof. unfold free_of. simpl. destruct (Ascii.eqb_spec c newline); [naive_solver|]. rewrite fmap_None. naive_solver. Qed.

Lemma replaced_byte a s : index_byte a (replace_from 0 (String a "") " " s) = None \/ a = " "%char.
Proof.
  destruct (Ascii.eqb_spec " " a) as [->|Hn]; [by right | left].
  induction s as [|c s IH]; [done|]. simpl. rewrite andb_true_r. destruct (Ascii.eqb_spec a c) as [->|Ha].
  - change (free_of c (String " " (replace_from 0 (String c "") " " s))). unfold free_of. cbn [index_byte].
    by rewrite (proj2 (Ascii.eqb_neq _ _) Hn), IH.
  - change (free_of a (String c (replace_from 0 (String a "") " " s))). unfold free_of. cbn [index_byte].
    by rewrite (proj2 (Ascii.eqb_neq c a) (not_eq_sym Ha)), IH.
Qed.

Lemma output_value_line s : one_line (githubOutputValue s).
Proof. unfold githubOutputValue, replace_all, free_of. by destruct (replaced_byte newline (replace_from 0 (String (byte 13) "") " " s)). Qed.

Lemma kept_byte a s : index_byte a s = None -> replace_from 0 (String a "") " " s = s.
Proof.
  induction s as [|c s IH]; [done|]. simpl. rewrite andb_true_r. destruct (Ascii.eqb_spec c a); [done|].
  intros H%fmap_None. rewrite (proj2 (Ascii.eqb_neq a c)) by congruence. by rewrite IH.
Qed.

Lemma pretty_N_line x : one_line (pretty (x : N)).
Proof.
  assert (forall s, one_line s -> one_line (pretty_N_go x s)) as H.
  { induction (N.lt_wf_0 x) as [x _ IH]; intros s Hs.
    assert (x = 0 \/ 0 < x)%N as [->|?] by lia; [by rewrite pretty_N_go_0|].
    rewrite pretty_N_go_step by done. apply IH; [by apply N.div_lt|]. apply one_line_cons. split; [|done].
    unfold pretty_N_char. by repeat case_match. }
  unfold pretty, pretty_N. case_decide; [done | by apply H].
Qed.
Lemma pretty_Z_line (x : Z) : one_line (pretty x).
Proof.
  destruct x as [|p|p]; [done | apply pretty_N_line |].
  change (one_line (String "-" (pretty (N.pos p)))). apply one_line_cons. split; [done | apply pretty_N_line].
Qed.

Lemma split_lines lines : Forall one_line lines -> lines <> [] -> split_byte newline (str_join nl lines +:+ nl) = lines ++ [""].
Proof.
  intros H Hn. induction H as [|l lines Hl Hls IH]; [done|].
  destruct lines as [|l' lines].
  - change (split_byte newline (l +:+ String newline "") = [l; ""]). by rewrite split_byte_app.
  - change (str_join nl (l :: l' :: lines)) with (l +:+ nl +:+ str_join nl (l' :: lines)). rewrite !str_app_assoc.
    change (nl +:+ ?x) with (String newline x) at 1. rewrite split_byte_app by done. by rewrite IH.
Qed.

Lemma output_line key value : one_line key -> free_of "=" key -> one_line value ->
  one_line (key +:+ "=" +:+ value) /\ cut_byte "=" (key +:+ "=" +:+ value) = Some (key, value).
Proof.
  intros Hk He Hv. split; [apply one_line_app; [done|]; by apply one_line_cons|].
  unfold cut_byte. change (key +:+ "=" +:+ value) with (key +:+ String "=" value). rewrite index_byte_app_None by done.
  cbn [index_byte]. rewrite Ascii.eqb_refl. simpl. rewrite Nat.add_0_r, str_take_app. f_equal. f_equal.
  change (str_drop (Datatypes.S (String.length key)) (key +:+ String "=" value) = value).
  replace (Datatypes.S (String.length key)) with (String.length key + 1)%nat by lia. by rewrite str_drop_app_ge.
Qed.

Lemma state_text_line state : one_line (state_text state).
Proof. by destruct state. Qed.

(** The values of [output_lines], in the order of [output_keys]. *)
Definition output_values (result : SyncResult) : list string :=
  let issue f := match Issue result with Some i => f i | None => "" end in
  let publication f := match r_Publication result with Some p => f p | None => "" end in
  let check f := publication (fun p => match CheckObservation p with Some o => f o | None => "" end) in
  [check (fun o => pretty (WorkflowRunID o)); check (fun o => pretty (WorkflowAttempt o)); check (fun o => state_text (WorkflowState o))] ++
  map githubOutputValue [Outcome result; publication pp_Head; publication Branch; publication (fun p => pretty (Number p));
    publication URL; publication pp_Checks; r_Stage result; FailureCategory result] ++
  [bool_text (String.eqb (Outcome result) OutcomeApplied)] ++
  map githubOutputValue [RefName (r_Target result); RefKind (r_Target result); PeeledCommitSHA (r_Target result);
    r_Candidate result; CandidateDir result; CandidateSHA256 result; Reason result; issue issue_Stage; issue issue_Path; issue issue_Reason].

Lemma output_lines_zip result :
  output_lines result = zip_with (fun key value => key +:+ "=" +:+ value) output_keys (output_values result).
Proof. reflexivity. Qed.

Lemma output_values_line result : Forall one_line (output_values result).
Proof.
  unfold output_values. repeat apply Forall_app_2; repeat constructor; try apply output_value_line.
  1-3: destruct (r_Publication result) as [p|]; [|done]; destruct (CheckObservation p) as [o|];
    [first [apply pretty_Z_line | apply state_text_line] | done].
  by destruct (String.eqb _ _).
Qed.

Lemma keyed_lines keys values : Forall (fun key => one_line key /\ free_of "=" key) keys -> Forall one_line values ->
  Forall one_line (zip_with (fun key value => key +:+ "=" +:+ value) keys values) /\
  map (cut_byte "=") (zip_with (fun key value => key +:+ "=" +:+ value) keys values) = map Some (zip keys values).
Proof.
  intros Hk. revert values. induction Hk as [|key keys [Hk He] _ IH]; intros values Hv; [done|].
  destruct Hv as [|value values Hv Hvs]; [done|]. destruct (IH values Hvs) as [H1 H2].
  destruct (output_line key value Hk He Hv) as [Hl Hc]. split; [by constructor|].
  cbn [zip_with map]. by rewrite H2, Hc.
Qed.

(** Nothing a sync reports can forge an output of the workflow: whatever
    texts the upstream, the pull request or an error put into the result, the
    file read line by line holds exactly the twenty-two keys, each once and in
    order, with the reported value, and a value without line breaks unchanged. *)
Theorem outputs_exact (result : SyncResult) :
  map (cut_byte "=") (split_byte newline (WriteGitHubOutput result)) =
    map Some (zip output_keys (output_values result)) ++ [None] /\
  NoDup output_keys /\ length (output_values result) = length output_keys /\
  (forall value, one_line value -> free_of (byte 13) value -> githubOutputValue value = value).
Proof.
  destruct (keyed_lines output_keys (output_values result)) as [Hl Hc].
  { repeat (apply Forall_cons; split; [by split|]). constructor. }
  { apply output_values_line. }
  rewrite <- output_lines_zip in Hl, Hc. split.
  - unfold WriteGitHubOutput. rewrite split_lines by done. by rewrite map_app, Hc.
  - split; [|split; [done|]].
    + apply (bool_decide_unpack (NoDup output_keys)). by vm_compute.
    + intros v Hv Hr. unfold githubOutputValue, replace_all. rewrite (kept_byte _ _ Hr). by apply kept_byte.
Qed.

(** * A sync *)

(** Generation, planning and application that succeed. *)
#[export] Instance hub_operations : SyncOperations hub := {|
  do_generate request w := (Ok {| Dir := "cache"; SchemaDir := "cache/schema"; StableSchemaDir := "cache/stable-schema";
    ReportsDir := "cache/reports"; CommonRS := "cache/common.rs"; CommonRSSourceSHA := PeeledCommitSHA (gen_Target request);
    CodexRepo := "codex"; DriftStatus := "drift"; cand_SourceCommit := PeeledCommitSHA (gen_Target request) |}, w);
  do_plan _ w := (Ok {| plan_Status := PlanReady; GeneratedReleaseImpact := ""; plan_Issue := None |}, w);
  do_verify _ w := (Err not_json, w); do_apply _ _ w := (Ok tt, w);
  do_digest _ _ := Ok ""; read_file _ _ := Ok "old"; error_text _ := "error"; environmental _ := false |}.

Definition sample_sync : SyncRequest :=
  {| Publication := None; RepoRoot := "/repo"; ModuleRoot := ""; UpstreamRepo := ""; UpstreamRef := "rust-v1.2.0";
     LatestStable := false; sync_AllowDowngrade := false; ForceCompare := false; sync_RepairPending := false;
     ValidationOnly := false; Diagnostic := false; EventName := "schedule" |}.
Definition hub_start := start_hub {| hub_branch := None; hub_pulls := [] |}.
Definition sample_synced := syncCandidate (B := hub_boundary) 1 sample_sync false hub_start.
Definition synced_result : SyncResult := match sample_synced with Some (Ok (result, _), _) => result | _ => no_result end.
Lemma sample_syncs : sample_synced = Some (Ok (synced_result, None), end_of hub_start sample_synced).
Proof. apply ends_with. unfold synced_result. vm_compute. reflexivity. Qed.
Lemma sample_applied : Outcome synced_result = OutcomeApplied.
Proof. vm_compute. reflexivity. Qed.

Lemma sample_not_careful : ~ careful_since hub_start (end_of hub_start sample_synced).
Proof.
  assert (forallb harmless (log (end_of hub_start sample_synced)) = false) as H by (vm_compute; reflexivity).
  intros (l & E & Hl). rewrite E in H. simpl in H. rewrite app_nil_r in H. apply forallb_Forall in Hl. congruence.
Qed.

Lemma sync_applies_guarded_witness : exists baseline target candidate planned,
  applicable sample_sync baseline target candidate planned.
Proof.
  destruct (sync_applies_guarded (B := hub_boundary) 1 sample_sync false _ hub_start _ sample_syncs)
    as [H | (l & s1 & _ & _ & _ & _ & _ & baseline & target & candidate & planned & H & _)].
  - destruct (sample_not_careful H).
  - exists baseline, target, candidate, planned. exact H.
Defined.

Lemma Ok_pair_inj {A C} (a a' : A) (c c' : C) : Ok (a, c) = Ok (a', c') -> a = a' /\ c = c'.
Proof. by intros [= -> ->]. Qed.

Lemma sync_reports_witness : applied_here (end_of hub_start sample_synced).
Proof.
  destruct (sync_reports (B := hub_boundary) 1 sample_sync false _ hub_start _ sample_syncs) as (result & err & E & H).
  apply Ok_pair_inj in E as [<- <-]. apply H, sample_applied.
Defined.

(** Repair without a publication to repair is an ordinary sync. *)
Definition repair_sync : SyncRequest :=
  {| Publication := None; RepoRoot := "/repo"; ModuleRoot := ""; UpstreamRepo := ""; UpstreamRef := "rust-v1.2.0";
     LatestStable := false; sync_AllowDowngrade := false; ForceCompare := false; sync_RepairPending := true;
     ValidationOnly := false; Diagnostic := false; EventName := "" |}.
Definition outcome_of (r : option (res (SyncResult * option error) * flow (B := hub_boundary))) : string :=
  match r with Some (Ok (result, _), _) => Outcome result | _ => "" end.
Example repair_without_publication :
  outcome_of (syncCandidate (B := hub_boundary) 1 repair_sync false hub_start) = OutcomeApplied.
Proof. vm_compute. reflexivity. Qed.
