(* ===== verification/Disk.v ===== *)
(** The file system as [src/codexsdk/internal/protocolupgrade] uses it through
    [os] and [path/filepath].

    A path is the list of its elements from the root, absolute and cleaned; the
    tree has files and directories.  A program is a function on a [disk]: the
    tree, a clock of system calls and the journal of the changes the program
    made, newest first.  Before each system call the rest of the system may change
    the tree ([interfere]), and each call may fail ([fault]); a write that fails
    may leave any bytes in its file.  Symbolic links are left out, and a walk
    reads its listing at once. *)

From Stdlib Require Import Ascii.
From S2P Require Import Prelude GoStrings.

Local Open Scope string_scope.
Local Open Scope list_scope.

(** * Paths *)

Definition path := list string.

(** [filepath.Join(p, name)] for a name relative to [p], cleaned. *)
Definition join (p : path) (name : string) : path :=
  rev (fold_left (clean_step true) (split_byte "/" name) (rev p)).

(** [filepath.Dir]; the root is its own parent. *)
Definition dir (p : path) : path := removelast p.

(** The elements of [p] below [root]. *)
Fixpoint strip (root p : path) : option path :=
  match root, p with
  | [], _ => Some p
  | x :: root', y :: p' => if String.eqb x y then strip root' p' else None
  | _ :: _, [] => None
  end.

Definition within (root p : path) : Prop := exists rel, p = root ++ rel.

(** [filepath.ToSlash] of a path relative to a walk's root. *)
Definition rel_name (rel : path) : string := match rel with [] => "." | _ => str_join "/" rel end.

(** An element of a path as a file system stores it. *)
Definition element (s : string) : bool :=
  negb (String.eqb s "") && negb (String.eqb s ".") && negb (String.eqb s "..") &&
  negb (contains_byte "/"%char s).

(** The order of [filepath.WalkDir]: a directory before its entries, these by name. *)
Fixpoint path_le (p q : path) : bool :=
  match p, q with
  | [], _ => true
  | _ :: _, [] => false
  | x :: p', y :: q' => if String.eqb x y then path_le p' q' else str_le x y
  end.

(** * The tree *)

Inductive node := File (data : string) | Dir.
Definition fs := gmap path node.

#[export] Instance node_eq_dec : EqDecision node.
Proof. solve_decision. Defined.

Definition node_at (f : fs) (p : path) : option node := match p with [] => Some Dir | _ => f !! p end.
Definition is_file (f : fs) (p : path) : bool :=
  match node_at f p with Some (File _) => true | _ => false end.
Definition is_dir (f : fs) (p : path) : bool :=
  match node_at f p with Some Dir => true | _ => false end.

(** The non-empty prefixes of a path, outermost first. *)
Definition prefixes (p : path) : list path := map (fun n => take n p) (seq 1 (length p)).

Definition ErrNotExist : error := Sentinel "file does not exist".
Definition errno (message : string) : error := Errorf message [].
Definition is_not_exist (e : error) : bool := errors_is "file does not exist" e.

(** The error of a path with no node. *)
Definition absent (f : fs) (p : path) : error :=
  if existsb (is_file f) (prefixes p) then errno "not a directory" else ErrNotExist.

(** What is below [root], with its path, in the order of a walk. *)
Definition entries_below (f : fs) (root : path) : list (path * node) :=
  sort_by (fun a b => path_le a.1 b.1)
    (omap (fun '(p, n) =>
       match strip root p with
       | Some (x :: rel) => if forallb element (x :: rel) then Some (x :: rel, n) else None
       | _ => None
       end) (map_to_list f)).

(** * System calls *)

Inductive change := WroteFile (p : path) | MadeDir (p : path) | Removed (p : path).

Definition change_path (c : change) : path :=
  match c with WroteFile p | MadeDir p | Removed p => p end.

Class System := {
  interfere : nat -> fs -> fs;
  fault : nat -> option (error * option string);
  fault_exists : forall n e partial, fault n = Some (e, partial) -> is_not_exist e = false;
  temp_name : nat -> fs -> string -> path;
  temp_fresh : forall n f pattern rel, temp_name n f pattern <> [] /\ f !! (temp_name n f pattern ++ rel) = None
}.

Section disk.
Context {Sys : System}.

Record disk := { files : fs; clock : nat; journal : list change }.

Definition D (A : Type) : Type := disk -> res A * disk.

#[global] Instance D_ret : MRet D := fun A a s => (Ok a, s).
#[global] Instance D_bind : MBind D := fun A B f m s =>
  match m s with
  | (Ok a, s') => f a s'
  | (Err e, s') => (Err e, s')
  end.

Definition of_res {A} (r : res A) : D A := fun s => (r, s).
Definition fail {A} (e : error) : D A := of_res (Err e).
Definition guard (bad : bool) (e : error) : D unit := of_res (guard_err bad e).
Definition attempt {A} (m : D A) : D (res A) := fun s => let '(r, s') := m s in (Ok r, s').
Definition wrap_err {A} (format : string) (m : D A) : D A := fun s =>
  match m s with (Err e, s') => (Err (Errorf format [e]), s') | r => r end.

(** [defer cleanup]: its own error is dropped. *)
Definition deferred {A} (cleanup : D unit) (m : D A) : D A := fun s =>
  let '(r, s1) := m s in (r, (cleanup s1).2).

(** One system call: [step] computes the answer, the tree and the changes;
    [broken] what a failing call leaves. *)
Definition syscall {A} (broken : option string -> fs -> fs * list change)
    (step : nat -> fs -> res A * fs * list change) : D A := fun s =>
  let n := clock s in
  let f := interfere n (files s) in
  match fault n with
  | Some (e, partial) =>
    let '(f', c) := broken partial f in (Err e, {| files := f'; clock := S n; journal := c ++ journal s |})
  | None =>
    let '(r, f', c) := step n f in (r, {| files := f'; clock := S n; journal := c ++ journal s |})
  end.

Definition untouched (partial : option string) (f : fs) : fs * list change := (f, []).

(** A call that only looks. *)
Definition look {A} (g : fs -> res A) : D A := syscall untouched (fun _ f => (g f, f, [])).

Definition read_node (f : fs) (p : path) : res string :=
  match node_at f p with
  | Some (File data) => Ok data
  | Some Dir => Err (errno "is a directory")
  | None => Err (absent f p)
  end.
Definition ReadFile (p : path) : D string := look (fun f => read_node f p).

(** [filepath.WalkDir]: the root and everything below it, relative to the
    root, in order.  The callback of the code is the rest of the program. *)
Definition walk_nodes (f : fs) (root : path) : res (list (path * node)) :=
  match node_at f root with
  | Some n => Ok (([], n) :: match n with Dir => entries_below f root | File _ => [] end)
  | None => Err (absent f root)
  end.
Definition WalkDir (root : path) : D (list (path * node)) := look (fun f => walk_nodes f root).

(** [os.ReadDir]: the names directly in a directory. *)
Definition dir_nodes (f : fs) (p : path) : res (list (string * node)) :=
  match node_at f p with
  | Some Dir => Ok (omap (fun '(rel, n) => match rel with [x] => Some (x, n) | _ => None end) (entries_below f p))
  | Some (File _) => Err (errno "not a directory")
  | None => Err (absent f p)
  end.
Definition ReadDir (p : path) : D (list (string * node)) := look (fun f => dir_nodes f p).

Definition written (p : path) (data : string) (f : fs) : res unit * fs * list change :=
  if is_dir f p then (Err (errno "is a directory"), f, [])
  else if is_dir f (dir p) then (Ok tt, <[p := File data]> f, [WroteFile p])
  else (Err (absent f p), f, []).

(** [os.WriteFile], which truncates first. *)
Definition WriteFile (p : path) (data : string) : D unit :=
  syscall (fun partial f =>
             match partial with
             | Some d => let '(_, f', c) := written p d f in (f', c)
             | None => (f, [])
             end)
          (fun _ f => written p data f).

Definition made (ps : list path) (f : fs) : fs := fold_left (fun f p => <[p := Dir]> f) ps f.

Definition MkdirAll (p : path) : D unit :=
  syscall untouched (fun _ f =>
    if existsb (is_file f) (prefixes p) then (Err (errno "not a directory"), f, [])
    else let missing := filter (fun q => f !! q = None) (prefixes p) in
         (Ok tt, made missing f, map MadeDir missing)).

Definition MkdirTemp (pattern : string) : D path :=
  syscall untouched (fun n f =>
    let p := temp_name n f pattern in
    if is_dir f (dir p) then (Ok p, <[p := Dir]> f, [MadeDir p]) else (Err (absent f p), f, [])).

(** [os.Remove] of a file or an empty directory. *)
Definition Remove (p : path) : D unit :=
  syscall untouched (fun _ f =>
    match node_at f p with
    | None => (Err (absent f p), f, [])
    | Some (File _) => (Ok tt, delete p f, [Removed p])
    | Some Dir => if decide (map_Forall (fun q _ => strip p q = None \/ q = p) f) then (Ok tt, delete p f, [Removed p])
                  else (Err (errno "directory not empty"), f, [])
    end).

Definition RemoveAll (p : path) : D unit :=
  syscall untouched (fun _ f => (Ok tt, filter (fun kv => strip p kv.1 = None) f, [Removed p])).

(** [for _, x := range l { if err := step(x); err != nil { return err } }] *)
Fixpoint each {A} (step : A -> D unit) (l : list A) : D unit :=
  match l with
  | [] => mret tt
  | x :: l' => _ ← step x; each step l'
  end.

(** A loop that builds a slice. *)
Fixpoint collect {A B} (step : A -> D B) (l : list A) : D (list B) :=
  match l with
  | [] => mret []
  | x :: l' => y ← step x; ys ← collect step l'; mret (y :: ys)
  end.
End disk.

(** * Reasoning about programs on a disk *)

(** A change [c] can alter the node at [p]. *)
Definition touches (c : change) (p : path) : Prop :=
  match c with
  | WroteFile q | MadeDir q => p = q
  | Removed q => within q p
  end.

(** A change [c] can alter the node that stands at [p]. *)
Definition alters (c : change) (p : path) : Prop :=
  match c with
  | WroteFile q => p = q
  | MadeDir _ => False
  | Removed q => within q p
  end.

(** Changes that satisfy [Q] lead from one tree to the other, as far as the
    paths they cannot touch or alter tell. *)
Definition spares (Q : change -> Prop) (f f' : fs) : Prop :=
  (forall p, (forall c, Q c -> ~ touches c p) -> f' !! p = f !! p) /\
  (forall p n, (forall c, Q c -> ~ alters c p) -> f !! p = Some n -> f' !! p = Some n).

(** Nothing but the program changes the tree. *)
Definition quiet (Sys : System) : Prop := forall n f, interfere n f = f.

Section facts.
Context {Sys : System}.
Implicit Types (s : disk) (Q : change -> Prop) (p : path) (f : fs).

(** ** Undoing a step *)

Lemma D_bind_inv {A C} (m : D A) (k : A -> D C) s r s' :
  (m ≫= k) s = (r, s') ->
  (exists a s1, m s = (Ok a, s1) /\ k a s1 = (r, s')) \/ (exists e, m s = (Err e, s') /\ r = Err e).
Proof. unfold mbind, D_bind. destruct (m s) as [[a|e] s1]; [left; eauto | intros [= <- <-]; right; eauto]. Qed.

Lemma D_bind_Ok {A C} (m : D A) (k : A -> D C) s c s' :
  (m ≫= k) s = (Ok c, s') -> exists a s1, m s = (Ok a, s1) /\ k a s1 = (Ok c, s').
Proof. intros [?|(e & _ & [=])]%D_bind_inv. done. Qed.

Lemma D_bind_ret {A C} (m : D A) (k : A -> D C) s a s1 : m s = (Ok a, s1) -> (m ≫= k) s = k a s1.
Proof. unfold mbind, D_bind. by intros ->. Qed.

Lemma D_of_res_inv {A} (x r : res A) s s' : of_res x s = (r, s') -> x = r /\ s' = s.
Proof. by intros [= <- <-]. Qed.

Lemma D_guard_inv bad e s s' : guard bad e s = (Ok tt, s') -> bad = false /\ s' = s.
Proof. unfold guard, guard_err. destruct bad; [done | by intros [= <-]]. Qed.

Lemma D_wrap_err_Ok {A} format (m : D A) a s s' : wrap_err format m s = (Ok a, s') -> m s = (Ok a, s').
Proof. unfold wrap_err. by destruct (m s) as [[x|e] s1]. Qed.

Lemma D_attempt_inv {A} (m : D A) r s s' : attempt m s = (r, s') -> exists x, r = Ok x /\ m s = (x, s').
Proof. unfold attempt. destruct (m s) as [x s1]. intros [= <- <-]. eauto. Qed.

Lemma deferred_inv {A} cleanup (m : D A) r s s' :
  deferred cleanup m s = (r, s') -> exists s1, m s = (r, s1) /\ s' = (cleanup s1).2.
Proof. unfold deferred. destruct (m s) as [x s1]. intros [= <- <-]. eauto. Qed.

Lemma syscall_Ok {A} broken step (a : A) s s' :
  syscall broken step s = (Ok a, s') ->
  exists c, step (clock s) (interfere (clock s) (files s)) = (Ok a, files s', c) /\ journal s' = c ++ journal s.
Proof.
  unfold syscall. destruct (fault (clock s)) as [[e partial]|].
  - by destruct (broken partial _).
  - destruct (step _ _) as [[r f'] c]. intros [= -> <-]. by exists c.
Qed.

Lemma look_Ok {A} (g : fs -> res A) a s s' :
  quiet Sys -> look g s = (Ok a, s') -> g (files s) = Ok a /\ files s' = files s.
Proof.
  intros Hq (c & H & _)%syscall_Ok. rewrite Hq in H. by injection H as -> -> _.
Qed.

(** ** Where a program writes *)

(** Every change of [m] satisfies [Q], and a quiet system sees no other. *)
Definition confined {A} Q (m : D A) : Prop :=
  forall s r s', m s = (r, s') ->
    (exists l, journal s' = l ++ journal s /\ Forall Q l) /\
    (quiet Sys -> spares Q (files s) (files s')).

Lemma spares_refl Q f : spares Q f f.
Proof. by split. Qed.
Lemma spares_trans Q f1 f2 f3 : spares Q f1 f2 -> spares Q f2 f3 -> spares Q f1 f3.
Proof.
  intros [A1 B1] [A2 B2]. split; [intros p Hp; by rewrite A2, A1 | intros p n Hp Hn; by apply B2, B1].
Qed.
Lemma spares_weaken Q Q' f f' : (forall c, Q c -> Q' c) -> spares Q f f' -> spares Q' f f'.
Proof. intros HQ [A B]. split; [intros p Hp; apply A; auto | intros p n Hp; apply B; auto]. Qed.

Abbreviation reads := (confined (fun _ => False)).

Lemma confined_same {A} Q (m : D A) : (forall s r s', m s = (r, s') -> s' = s) -> confined Q m.
Proof. intros H s r s' ->%H. split; [by exists [] | intros _; apply spares_refl]. Qed.

Lemma confined_ret {A} Q (a : A) : confined Q (mret a).
Proof. apply confined_same. by intros s r s' [= <- <-]. Qed.
Lemma confined_of_res {A} Q (x : res A) : confined Q (of_res x).
Proof. apply confined_same. by intros s r s' [= <- <-]. Qed.
Lemma confined_fail {A} Q e : confined Q (fail (A := A) e).
Proof. apply confined_of_res. Qed.
Lemma confined_guard Q bad e : confined Q (guard bad e).
Proof. apply confined_of_res. Qed.

Lemma confined_bind {A C} Q (m : D A) (k : A -> D C) :
  confined Q m -> (forall a, confined Q (k a)) -> confined Q (m ≫= k).
Proof.
  intros Hm Hk s r s' [(a & s1 & H1 & H2)|(e & H1 & ->)]%D_bind_inv; [|by eapply Hm].
  apply Hm in H1 as [(l1 & E1 & F1) K1]. apply Hk in H2 as [(l2 & E2 & F2) K2]. split.
  - exists (l2 ++ l1). split; [by rewrite E2, E1, app_assoc | by apply Forall_app].
  - intros Hq. eapply spares_trans; eauto.
Qed.

(** The rest of a program may rely on what the first part returns. *)
Lemma confined_bind_with {A C} Q (R : A -> Prop) (m : D A) (k : A -> D C) :
  confined Q m -> (forall s a s', m s = (Ok a, s') -> R a) -> (forall a, R a -> confined Q (k a)) -> confined Q (m ≫= k).
Proof.
  intros Hm HR Hk s r s' [(a & s1 & H1 & H2)|(e & H1 & ->)]%D_bind_inv; [|by eapply Hm].
  pose proof (HR _ _ _ H1) as Ha.
  apply Hm in H1 as [(l1 & E1 & F1) K1]. apply (Hk a Ha) in H2 as [(l2 & E2 & F2) K2]. split.
  - exists (l2 ++ l1). split; [by rewrite E2, E1, app_assoc | by apply Forall_app].
  - intros Hq. eapply spares_trans; eauto.
Qed.

Lemma confined_wrap {A} Q format (m : D A) : confined Q m -> confined Q (wrap_err format m).
Proof.
  intros Hm s r s'. unfold wrap_err. pose proof (Hm s) as H. destruct (m s) as [[a|e] s1];
    intros [= <- <-]; by eapply H.
Qed.
Lemma confined_attempt {A} Q (m : D A) : confined Q m -> confined Q (attempt m).
Proof. intros Hm s r s' (x & _ & H)%D_attempt_inv. by eapply Hm. Qed.

Lemma confined_deferred {A} Q cleanup (m : D A) : confined Q cleanup -> confined Q m -> confined Q (deferred cleanup m).
Proof.
  intros Hc Hm s r s' (s1 & H1 & ->)%deferred_inv. destruct (cleanup s1) as [rc s2] eqn:E.
  apply Hm in H1 as [(l1 & E1 & F1) K1]. apply Hc in E as [(l2 & E2 & F2) K2]. split; simpl.
  - exists (l2 ++ l1). split; [by rewrite E2, E1, app_assoc | by apply Forall_app].
  - intros Hq. eapply spares_trans; eauto.
Qed.

Lemma confined_syscall {A} Q broken (step : nat -> fs -> res A * fs * list change) :
  (forall partial f f' c, broken partial f = (f', c) -> Forall Q c /\ spares Q f f') ->
  (forall n f r f' c, step n f = (r, f', c) -> Forall Q c /\ spares Q f f') ->
  confined Q (syscall broken step).
Proof.
  intros Hb Hs s r s'. unfold syscall. destruct (fault (clock s)) as [[e partial]|].
  - destruct (broken _ _) as [f' c] eqn:E. intros [= <- <-]. apply Hb in E as [F K]. simpl.
    split; [by exists c | intros Hq; by rewrite Hq in K].
  - destruct (step _ _) as [[r' f'] c] eqn:E. intros [= <- <-]. apply Hs in E as [F K]. simpl.
    split; [by exists c | intros Hq; by rewrite Hq in K].
Qed.

Lemma same_ok Q f : Forall Q [] /\ spares Q f f.
Proof. split; [constructor | apply spares_refl]. Qed.

Lemma untouched_ok Q partial f f' c : untouched partial f = (f', c) -> Forall Q c /\ spares Q f f'.
Proof. intros [= <- <-]. apply same_ok. Qed.

Lemma confined_look {A} Q (g : fs -> res A) : confined Q (look g).
Proof. apply confined_syscall; [apply untouched_ok | intros n f r f' c [= _ <- <-]; apply same_ok]. Qed.

Lemma spares_insert Q f p n :
  (exists c, Q c /\ touches c p) -> f !! p = None \/ (exists c, Q c /\ alters c p) -> spares Q f (<[p := n]> f).
Proof.
  intros (c & Hc & Ht) Ha. split.
  - intros q Hq. apply lookup_insert_ne. intros ->. by apply (Hq c).
  - intros q m Hq Hm. rewrite <- Hm. apply lookup_insert_ne. intros ->. destruct Ha as [Ha|(c' & Hc' & Ha)]; [congruence | by apply (Hq c')].
Qed.

Lemma written_ok Q p data f r f' c : Q (WroteFile p) -> written p data f = (r, f', c) -> Forall Q c /\ spares Q f f'.
Proof.
  intros HQ. unfold written. destruct (is_dir f p); [intros [= _ <- <-]; apply same_ok|].
  destruct (is_dir f (dir p)); intros [= _ <- <-]; [|apply same_ok]. split; [by constructor|].
  apply spares_insert; [|right]; by exists (WroteFile p).
Qed.

Lemma confined_WriteFile Q p data : Q (WroteFile p) -> confined Q (WriteFile p data).
Proof.
  intros HQ. apply confined_syscall.
  - intros [d|] f f' c; [|apply (untouched_ok Q None)]. destruct (written p d f) as [[r0 f0] c0] eqn:E.
    intros [= <- <-]. by eapply written_ok.
  - intros n f r f' c H. by eapply written_ok.
Qed.

Lemma made_other ps f q : q ∉ ps -> made ps f !! q = f !! q.
Proof.
  revert f. induction ps as [|p ps IH]; intros f Hq; [done|]. simpl. apply not_elem_of_cons in Hq as [Hp Hq].
  change (made ps (<[p := Dir]> f) !! q = f !! q). rewrite IH by done. by apply lookup_insert_ne.
Qed.

Lemma confined_MkdirAll Q p : (forall q, q ∈ prefixes p -> Q (MadeDir q)) -> confined Q (MkdirAll p).
Proof.
  intros HQ. apply confined_syscall; [apply untouched_ok|]. intros n f r f' c.
  destruct (existsb _ _); intros [= _ <- <-]; [apply same_ok|]. split; [|split].
  - apply Forall_map, Forall_forall. intros q [_ Hq]%list_elem_of_filter. by apply HQ.
  - intros q Hq. apply made_other. intros [_ Hin]%list_elem_of_filter.
    by apply (Hq (MadeDir q)); [apply HQ|].
  - intros q m _ Hm. rewrite made_other; [done|]. intros [Hnone _]%list_elem_of_filter. congruence.
Qed.

Lemma confined_MkdirTemp Q pattern : (forall n f, Q (MadeDir (temp_name n f pattern))) -> confined Q (MkdirTemp pattern).
Proof.
  intros HQ. apply confined_syscall; [apply untouched_ok|]. intros n f r f' c.
  cbv beta zeta. destruct (is_dir f _); intros [= _ <- <-]; [|apply same_ok]. split; [by constructor|].
  apply spares_insert; [by exists (MadeDir (temp_name n f pattern))|]. left.
  destruct (temp_fresh n f pattern []) as [_ H]. by rewrite app_nil_r in H.
Qed.

Lemma strip_within root p : strip root p <> None <-> within root p.
Proof.
  revert p. induction root as [|x root IH]; intros [|y p]; simpl.
  - split; [by exists [] | done].
  - split; [by exists (y :: p) | done].
  - split; [done | by intros [rel [=]]].
  - destruct (String.eqb x y) eqn:E.
    + apply String.eqb_eq in E as ->. rewrite IH. split; intros [rel H]; exists rel; [by rewrite H | by injection H].
    + apply String.eqb_neq in E. split; [done | by intros [rel [= <-]]].
Qed.

Lemma strip_Some root p rel : strip root p = Some rel <-> p = root ++ rel.
Proof.
  revert p. induction root as [|x root IH]; intros [|y p]; simpl; try (split; congruence).
  destruct (String.eqb x y) eqn:E.
  - apply String.eqb_eq in E as ->. rewrite IH. split; [by intros -> | by intros [= ->]].
  - apply String.eqb_neq in E. split; [done | by intros [= <-]].
Qed.

Lemma confined_Remove Q p : Q (Removed p) -> confined Q (Remove p).
Proof.
  intros HQ. assert (Hd : forall f, Forall Q [Removed p] /\ spares Q f (delete p f)).
  { intros f. assert (Hp : within p p) by (exists []; by rewrite app_nil_r).
    split; [by constructor|]. split; [intros q Hq | intros q m Hq Hm; rewrite <- Hm];
      apply lookup_delete_ne; intros ->; by apply (Hq (Removed q)). }
  apply confined_syscall; [apply untouched_ok|]. intros n f r f' c.
  repeat case_match; intros [= _ <- <-]; auto using same_ok.
Qed.

Lemma confined_RemoveAll Q p : Q (Removed p) -> confined Q (RemoveAll p).
Proof.
  intros HQ. apply confined_syscall; [apply untouched_ok|]. intros n f r f' c [= _ <- <-].
  assert (Hkeep : forall q m, ~ within p q -> f !! q = Some m -> filter (fun kv => strip p kv.1 = None) f !! q = Some m).
  { intros q m Hq Hm. apply map_lookup_filter_Some. split; [done|]. simpl. destruct (strip p q) eqn:Es; [|done].
    exfalso. apply Hq, strip_within. by rewrite Es. }
  split; [by constructor|]. split.
  - intros q Hq. destruct (f !! q) as [x|] eqn:E; [apply Hkeep; [by apply (Hq (Removed p))|done]|].
    apply map_lookup_filter_None. by left.
  - intros q m Hq. apply Hkeep. by apply (Hq (Removed p)).
Qed.

Lemma confined_each {A} Q (step : A -> D unit) l : (forall x, x ∈ l -> confined Q (step x)) -> confined Q (each step l).
Proof.
  induction l as [|x l IH]; intros H; simpl; [apply confined_ret|].
  apply confined_bind; [apply H; constructor|]. intros _. apply IH. intros y Hy. apply H. by constructor.
Qed.

Lemma confined_collect_in {A C} Q (step : A -> D C) l : (forall x, x ∈ l -> confined Q (step x)) -> confined Q (collect step l).
Proof.
  induction l as [|x l IH]; intros H; simpl; [apply confined_ret|].
  apply confined_bind; [apply H; constructor|]. intros y. apply confined_bind; [|intros ys; apply confined_ret].
  apply IH. intros z Hz. apply H. by constructor.
Qed.
Lemma confined_collect {A C} Q (step : A -> D C) l : (forall x, confined Q (step x)) -> confined Q (collect step l).
Proof. intros H. apply confined_collect_in. auto. Qed.

Lemma confined_weaken {A} Q Q' (m : D A) : (forall c, Q c -> Q' c) -> confined Q m -> confined Q' m.
Proof.
  intros HQ Hm s r s' H. destruct (Hm _ _ _ H) as [(l & E & F) K]. split.
  - exists l. split; [done|]. eapply Forall_impl; [exact F | exact HQ].
  - intros Hq. eapply spares_weaken; eauto.
Qed.

Lemma confined_reads {A} Q (m : D A) : reads m -> confined Q m.
Proof. apply confined_weaken. done. Qed.

(** A program that only reads leaves a quiet tree as it is. *)
Lemma reads_keep {A} (m : D A) s r s' : reads m -> m s = (r, s') -> journal s' = journal s /\ (quiet Sys -> files s' = files s).
Proof.
  intros Hm H. destruct (Hm _ _ _ H) as [(l & E & F) K]. split.
  - destruct l as [|c l]; [done|]. by apply Forall_cons in F as [? _].
  - intros Hq. apply map_eq. intros p. apply (K Hq). by intros c [].
Qed.
End facts.

Create HintDb confined.
#[export] Hint Resolve confined_ret confined_of_res confined_fail confined_guard confined_look confined_wrap confined_attempt : confined.

(** Show where a program writes, from its structure. *)
Ltac confine :=
  repeat first
    [ progress intros
    | solve [eauto 3 with confined]
    | apply confined_bind
    | apply confined_wrap
    | apply confined_attempt
    | apply confined_collect
    | match goal with |- confined _ (match ?x with _ => _ end) => destruct x end ].

(** * A system in which nothing else happens *)

Section calm.
(** The second elements of the paths of a tree. *)
Definition second_elements (f : fs) : list string :=
  omap (fun kv : path * node => match kv.1 with _ :: x :: _ => Some x | _ => None end) (map_to_list f).

Fixpoint longer_than (l : list string) : string :=
  match l with [] => "t" | x :: l' => x +:+ longer_than l' end.

Lemma longer_than_spec l x : x ∈ l -> (String.length x < String.length (longer_than l))%nat.
Proof.
  assert (H0 : forall l, (0 < String.length (longer_than l))%nat).
  { clear l. intros l. induction l as [|y l IH]; cbn [longer_than]; [simpl; lia|]. rewrite str_length_app. lia. }
  induction l as [|y l IH]; [by intros ?%not_elem_of_nil|]. cbn [longer_than]. rewrite str_length_app.
  specialize (H0 l). intros [->|H]%elem_of_cons; [lia|]. specialize (IH H). lia.
Qed.

#[local] Lemma calm_fresh (f : fs) (rel : path) :
  ["tmp"; longer_than (second_elements f)] <> [] /\ f !! (["tmp"; longer_than (second_elements f)] ++ rel) = None.
Proof.
  split; [done|]. destruct (f !! _) as [n|] eqn:E; [|done]. exfalso.
  assert (Hin : longer_than (second_elements f) ∈ second_elements f).
  { unfold second_elements at 2. apply list_elem_of_omap. eexists (_, n).
    split; [by apply elem_of_map_to_list | done]. }
  apply longer_than_spec in Hin. lia.
Qed.

Definition calm : System := {|
  interfere := fun _ f => f;
  fault := fun _ => None;
  fault_exists := fun _ _ _ H => ltac:(discriminate H);
  temp_name := fun _ f _ => ["tmp"; longer_than (second_elements f)];
  temp_fresh := fun _ f _ rel => calm_fresh f rel |}.

Lemma calm_quiet : quiet calm.
Proof. done. Qed.

Definition disk_of (f : fs) : disk := {| files := f; clock := 0; journal := [] |}.

(** The value of a run that succeeds. *)
Definition value_of {A} (default : A) (r : res A) : A := match r with Ok a => a | Err _ => default end.

Lemma runs_ok {A} (default : A) (run : res A * disk) :
  is_ok run.1 = true -> run = (Ok (value_of default run.1), run.2).
Proof. destruct run as [[a|e] s]; [done | intros [=]]. Qed.
End calm.
