(* ===== verification/Drift.v ===== *)
(** The comparison of two schema directories in
    [src/codexsdk/internal/protocolupgrade]: the schema files and their hashes
    ([schema.go]), the drift report ([compare.go]) and its review texts
    ([reports.go]).

    [sha256], the encoding of structs and the decoding into structs belong to
    the standard library and are parameters ([Texts]); decoding into [any] and
    printing a value are those of the JSON model, over the lexemes [lex] finds. *)

From Stdlib Require Import Ascii.
From stdpp Require Import pretty.
From S2P Require Import Prelude GoStrings JsonLex Json Envelope Disk.

Local Open Scope string_scope.
Local Open Scope list_scope.

(** * Data *)

Record Target := {
  SourceRepo : string; SourceRefName : string; SourceRefKind : string; SourceCommit : string; CodexVersion : string;
  Generator : string; GeneratorDetail : string; SchemaBundleSHA256 : string; CanonicalJSONNote : string }.

Record FileDiff := { fd_Added : list string; fd_Changed : list string; fd_Removed : list string }.
Record MethodDelta := { md_Added : list string; md_Removed : list string }.

Record Report := {
  Status : string; ComparisonMode : string; rep_Target : Target; rep_FileDiff : FileDiff;
  MethodDiff : gmap string MethodDelta; MatrixUpdateSkeleton : string }.

(** An unset directory is [None]. *)
Record CompareRequest := {
  cmp_Baseline : option path; cmp_Candidate : option path; cmp_SourceCommit : string; cmp_SourceRef : string;
  cmp_SourceRefKind : string; cmp_CodexVersion : string; cmp_Generator : string; cmp_GeneratorDetail : string }.

Record MatrixUpdate := {
  mu_Status : string; mu_Source : string; ValidStatuses : list string;
  MethodUpdates : list (gmap string JSONValue); TypeUpdates : list (gmap string JSONValue);
  FieldUpdates : list JSONValue; GeneratedCompatibilityUpdates : option JSONValue }.

(** One variant of an aggregate schema: its title, the values of its method
    and the reference of its params. *)
Record variant := { Title : string; Enum : list string; params_Ref : string }.

Definition nil_list {A} (l : list A) : bool := match l with [] => true | _ => false end.
Definition fd_empty (d : FileDiff) : bool :=
  nil_list (fd_Added d) && nil_list (fd_Changed d) && nil_list (fd_Removed d).
Definition md_empty (d : MethodDelta) : bool := nil_list (md_Added d) && nil_list (md_Removed d).

Definition StatusClean := "clean".
Definition StatusReviewRequired := "review-required".
Definition ComparisonCanonicalJSON := "canonical-json".
Definition MatrixSkeletonName := "matrix_update_skeleton.json".
Definition sourceRepo := "https://github.com/openai/codex".
Definition canonicalJSONNote := "Schema comparisons use canonical JSON; object member ordering is irrelevant.".

Definition metadataFiles : list string :=
  ["baseline_metadata.json"; "coverage_matrix.json"; "drift_report.json"; "manifest.json";
   "manifest_generation.json"; "matrix_update_skeleton.json"].
Definition aggregateSchemas : list string :=
  ["ClientRequest.json"; "ServerRequest.json"; "ServerNotification.json"; "ClientNotification.json"].

(** * Texts *)

Class Texts := {
  lex : string -> list lexeme;
  unlex : list lexeme -> string;
  sha256_hex : string -> string;
  decode_methods : string -> res (list (list string));
  decode_variants : string -> res (list variant);
  encode_report : Report -> string;
  encode_matrix : MatrixUpdate -> string
}.

Section drift.
Context {Sys : System} {Txt : Texts}.

(** * Schema files and hashes *)

(** The name of a schema file among the entries of a walk from [root]. *)
Definition schema_entry (root : path) (e : path * node) : option string :=
  let name := List.last (root ++ e.1) "" in
  match e.2 with
  | Dir => None
  | File _ => if negb (String.eqb (path_ext name) ".json") || mem name metadataFiles then None
              else Some (rel_name e.1)
  end.

Definition schemaFiles (root : path) : D (list string) :=
  entries ← WalkDir root;
  mret (sort_strings (omap (schema_entry root) entries)).

(** [Decoder.Decode] with [UseNumber], which reads the first value, then
    [json.Marshal]. *)
Definition canonicalJSON (raw : string) : res string :=
  value ← unmarshalJSONPreserveNumbers (lex raw);
  lexemes ← MarshalJSON value;
  Ok (unlex lexemes).

Definition schemaHashes (root : path) : D (gmap string string) :=
  files ← schemaFiles root;
  hashes ← collect (fun rel =>
    raw ← ReadFile (join root rel);
    canonical ← wrap_err "%s: %w" (of_res (canonicalJSON raw));
    mret (rel, sha256_hex canonical)) files;
  mret (list_to_map hashes).

Definition schemaBundleSHA256 (root : path) : D string :=
  hashes ← schemaHashes root;
  canonical ← of_res (MarshalJSON (JSONObj (JSONString <$> hashes)));
  mret (sha256_hex (unlex canonical)).

Definition snapshotHashes (root : path) : D (gmap string string) :=
  entries ← WalkDir root;
  hashes ← collect (fun rel => raw ← ReadFile (root ++ rel); mret (rel_name rel, sha256_hex raw))
             (omap (fun '(rel, n) => match n with File _ => Some rel | Dir => None end) entries);
  mret (list_to_map hashes).

(** * Differences *)

Definition absent_in (m : gmap string string) (k : string) : bool := match m !! k with None => true | Some _ => false end.

Definition fileDiff (baseline candidate : gmap string string) : FileDiff :=
  {| fd_Added := sort_strings (List.filter (absent_in baseline) (map_to_list candidate).*1);
     fd_Changed := sort_strings (omap (fun '(p, hash) =>
       match candidate !! p with
       | Some candidateHash => if String.eqb hash candidateHash then None else Some p
       | None => None
       end) (map_to_list baseline));
     fd_Removed := sort_strings (List.filter (absent_in candidate) (map_to_list baseline).*1) |}.

(** The first value of each variant's method, where it has one. *)
Definition method_names (methods : list (list string)) : list string := omap head methods.

Definition aggregateMethodNames (root : path) (rel : string) : D (list string) :=
  read ← attempt (ReadFile (join root rel));
  match read with
  | Err e => if is_not_exist e then mret [] else fail e
  | Ok raw =>
    schema ← wrap_err "decode %s: %w" (of_res (decode_methods raw));
    mret (sort_strings (method_names schema))
  end.

Definition sortedSetDiff (left right : list string) : list string :=
  sort_strings (List.filter (fun v => negb (mem v right)) left).

Definition aggregateMethodDiff (baseline candidate : path) : D (gmap string MethodDelta) :=
  deltas ← collect (fun rel =>
    before ← aggregateMethodNames baseline rel;
    after ← aggregateMethodNames candidate rel;
    mret (rel, {| md_Added := sortedSetDiff after before; md_Removed := sortedSetDiff before after |})) aggregateSchemas;
  mret (list_to_map deltas).

Definition refName (ref : string) : string :=
  if String.eqb ref "" then "" else List.last (split_byte "/"%char ref) "".

(** [after[path]] of a missing path is the empty string. *)
Definition sameSnapshot (before after : gmap string string) : res unit :=
  if negb (Nat.eqb (size before) (size after)) then Err (Errorf "%s mutated during compare" [])
  else if forallb (fun '(p, hash) => String.eqb (default "" (after !! p)) hash) (map_to_list before) then Ok tt
  else Err (Errorf "%s mutated during compare: %s" []).

(** * The report *)

Definition status_of (files : FileDiff) (methods : gmap string MethodDelta) : string :=
  if negb (fd_empty files) || existsb (fun kv => negb (md_empty kv.2)) (map_to_list methods)
  then StatusReviewRequired else StatusClean.

Definition Compare (req : CompareRequest) : D Report :=
  match cmp_Baseline req, cmp_Candidate req with
  | None, _ => fail (Errorf "baseline directory is required" [])
  | _, None => fail (Errorf "candidate directory is required" [])
  | Some baseline, Some candidate =>
    beforeBaseline ← wrap_err "snapshot baseline: %w" (snapshotHashes baseline);
    beforeCandidate ← wrap_err "snapshot candidate: %w" (snapshotHashes candidate);
    baseHashes ← wrap_err "hash baseline: %w" (schemaHashes baseline);
    candidateHashes ← wrap_err "hash candidate: %w" (schemaHashes candidate);
    let files := fileDiff baseHashes candidateHashes in
    methods ← aggregateMethodDiff baseline candidate;
    bundle ← schemaBundleSHA256 candidate;
    let report :=
      {| Status := status_of files methods;
         ComparisonMode := ComparisonCanonicalJSON;
         rep_Target :=
           {| SourceRepo := sourceRepo; SourceRefName := cmp_SourceRef req; SourceRefKind := cmp_SourceRefKind req;
              SourceCommit := cmp_SourceCommit req; CodexVersion := cmp_CodexVersion req;
              Generator := cmp_Generator req; GeneratorDetail := cmp_GeneratorDetail req;
              SchemaBundleSHA256 := bundle; CanonicalJSONNote := canonicalJSONNote |};
         rep_FileDiff := files;
         MethodDiff := methods;
         MatrixUpdateSkeleton := MatrixSkeletonName |} in
    afterBaseline ← snapshotHashes baseline;
    afterCandidate ← snapshotHashes candidate;
    _ ← of_res (sameSnapshot beforeBaseline afterBaseline);
    _ ← of_res (sameSnapshot beforeCandidate afterCandidate);
    mret report
  end.

(** * Review texts *)

Definition validCoverageStatuses : list string :=
  ["supported"; "supported-generated"; "deferred"; "intentionally-unsupported"].

Definition str_map (l : list (string * string)) : gmap string JSONValue := list_to_map (prod_map id JSONString <$> l).

Definition method_update (schema change method : string) : gmap string JSONValue :=
  str_map [("method", method); ("source_schema", schema); ("change", change); ("status", StatusReviewRequired)].
Definition type_update (change file : string) : gmap string JSONValue :=
  str_map [("schema", file); ("change", change); ("status", StatusReviewRequired)].

Definition no_delta : MethodDelta := {| md_Added := []; md_Removed := [] |}.

Definition matrixFromReport (report : Report) : MatrixUpdate :=
  {| mu_Status := if String.eqb (Status report) StatusClean then "empty" else StatusReviewRequired;
     mu_Source := "drift_summary.json";
     ValidStatuses := validCoverageStatuses;
     MethodUpdates := concat (map (fun schema =>
       let delta := default no_delta (MethodDiff report !! schema) in
       map (method_update schema "added") (md_Added delta) ++ map (method_update schema "removed") (md_Removed delta))
       aggregateSchemas);
     TypeUpdates :=
       map (type_update "added") (fd_Added (rep_FileDiff report)) ++
       map (type_update "changed") (fd_Changed (rep_FileDiff report)) ++
       map (type_update "removed") (fd_Removed (rep_FileDiff report));
     FieldUpdates := [];
     GeneratedCompatibilityUpdates := None |}.

Definition slashed (p : path) : string := "/" +:+ str_join "/" p.
Definition nl : string := String (byte 10) "".

Definition summaryMarkdown (generatedSchema : string) (reportsDir : path) (report : Report) : string :=
  let line name value := "- " +:+ name +:+ ": `" +:+ value +:+ "`" in
  let t := rep_Target report in
  str_join nl
    ["# Codex SDK Upstream Tracking"; "";
     line "status" (Status report);
     line "source repo" (SourceRepo t);
     line "source ref" (SourceRefName t);
     line "source ref kind" (SourceRefKind t);
     line "source commit" (SourceCommit t);
     line "codex version" (CodexVersion t);
     line "generated schema" generatedSchema;
     line "drift summary" (slashed (join reportsDir "drift_summary.json"));
     line "matrix update skeleton" (slashed (join reportsDir MatrixSkeletonName));
     ""; "Review the generated reports before updating the checked-in baseline."; ""].

(** The write of one report, in its directory. *)
Definition WriteReports (directory : option path) (report : Report) (generatedSchema : string) : D MatrixUpdate :=
  match directory with
  | None => fail (Errorf "reports directory is required" [])
  | Some d =>
    _ ← MkdirAll d;
    let matrix := matrixFromReport report in
    _ ← WriteFile (join d "drift_summary.json") (encode_report report);
    _ ← WriteFile (join d MatrixSkeletonName) (encode_matrix matrix);
    _ ← WriteFile (join d "SUMMARY.md") (summaryMarkdown generatedSchema d report);
    mret matrix
  end.

Definition method_deltas (report : Report) : nat :=
  list_sum (map (fun kv => length (md_Added kv.2) + length (md_Removed kv.2))%nat (map_to_list (MethodDiff report))).

Definition DiffCountSummary (report : Report) : string :=
  let d := rep_FileDiff report in
  "status=" +:+ Status report +:+
  " files_added=" +:+ pretty (length (fd_Added d)) +:+
  " files_changed=" +:+ pretty (length (fd_Changed d)) +:+
  " files_removed=" +:+ pretty (length (fd_Removed d)) +:+
  " method_deltas=" +:+ pretty (method_deltas report).
End drift.

(** * Differences are exact *)

Section facts.
Context {Sys : System} {Txt : Texts}.

Lemma fd_Added_spec b c p : p ∈ fd_Added (fileDiff b c) <-> is_Some (c !! p) /\ b !! p = None.
Proof.
  simpl. rewrite elem_of_sort_strings, list_elem_of_In, filter_In, <- list_elem_of_In, list_elem_of_fmap.
  unfold absent_in. split.
  - intros [([q h] & -> & Hq%elem_of_map_to_list) Hb]. simpl in *. destruct (b !! q); [done|]. eauto.
  - intros [[h Hh] ->]. split; [|done]. exists (p, h). split; [done | by apply elem_of_map_to_list].
Qed.

Lemma fd_Removed_spec b c p : p ∈ fd_Removed (fileDiff b c) <-> is_Some (b !! p) /\ c !! p = None.
Proof. apply (fd_Added_spec c b p). Qed.

Lemma fd_Changed_spec b c p :
  p ∈ fd_Changed (fileDiff b c) <-> exists h h', b !! p = Some h /\ c !! p = Some h' /\ h <> h'.
Proof.
  simpl. rewrite elem_of_sort_strings, list_elem_of_omap. split.
  - intros ([q h] & Hq%elem_of_map_to_list & H). destruct (c !! q) as [h'|] eqn:E; [|done].
    destruct (String.eqb_spec h h'); [done|]. injection H as ->. eauto.
  - intros (h & h' & Hb & Hc & Hne). exists (p, h). split; [by apply elem_of_map_to_list|].
    rewrite Hc. by destruct (String.eqb_spec h h').
Qed.

Lemma nil_list_spec {A} (l : list A) : nil_list l = true <-> forall x, x ∉ l.
Proof.
  destruct l as [|x l]; simpl; split; try done.
  - intros _ y Hy. by apply not_elem_of_nil in Hy.
  - intros H. destruct (H x). constructor.
Qed.

Lemma fileDiff_empty b c : fd_empty (fileDiff b c) = true <-> b = c.
Proof.
  unfold fd_empty. rewrite !andb_true_iff, !nil_list_spec. split.
  - intros [[Ha Hc] Hr]. apply map_eq. intros p.
    specialize (Ha p). specialize (Hc p). specialize (Hr p).
    rewrite fd_Added_spec in Ha. rewrite fd_Changed_spec in Hc. rewrite fd_Removed_spec in Hr.
    destruct (b !! p) as [h|] eqn:Eb, (c !! p) as [h'|] eqn:Ec; [|by destruct Hr; eauto|by destruct Ha; eauto|done].
    destruct (decide (h = h')) as [->|Hne]; [done|]. destruct Hc. eauto 6.
  - intros ->. repeat split; intros p.
    + rewrite fd_Added_spec. intros [[h ->] [=]].
    + rewrite fd_Changed_spec. intros (h & h' & -> & [= ->] & Hne). done.
    + rewrite fd_Removed_spec. intros [[h ->] [=]].
Qed.

Lemma sortedSetDiff_spec left right v : v ∈ sortedSetDiff left right <-> v ∈ left /\ v ∉ right.
Proof.
  unfold sortedSetDiff. rewrite elem_of_sort_strings, list_elem_of_In, filter_In, <- list_elem_of_In, negb_true_iff, mem_false.
  done.
Qed.

Lemma sameSnapshot_Ok b a u : (forall h, h ∈ (map_to_list b).*2 -> h <> "") -> sameSnapshot b a = Ok u -> b = a.
Proof.
  intros Hne. unfold sameSnapshot. destruct (Nat.eqb_spec (size b) (size a)) as [Hs|]; [|done].
  simpl. destruct (forallb _ _) eqn:E; [|done]. intros _. rewrite forallb_Forall, Forall_forall in E.
  assert (Hsub : b ⊆ a).
  { apply map_subseteq_spec. intros p h Hp. assert (Hin : (p, h) ∈ map_to_list b) by by apply elem_of_map_to_list.
    specialize (E _ Hin). simpl in E. apply String.eqb_eq in E.
    assert (h <> "") by (apply Hne; apply list_elem_of_fmap; by exists (p, h)).
    destruct (a !! p) as [h'|]; simpl in E; congruence. }
  by apply map_subseteq_size_eq; [|rewrite Hs].
Qed.

Lemma sameSnapshot_refl b : sameSnapshot b b = Ok tt.
Proof.
  unfold sameSnapshot. rewrite Nat.eqb_refl. simpl.
  destruct (forallb _ _) eqn:E; [done|]. exfalso. apply not_true_iff_false in E. apply E.
  apply forallb_Forall, Forall_forall. intros [p h] Hp%elem_of_map_to_list. rewrite Hp. apply String.eqb_refl.
Qed.

(** * Reading *)

Abbreviation reads := (confined (fun _ => False)).

Lemma schemaFiles_reads Q root : confined Q (schemaFiles root).
Proof. unfold schemaFiles, WalkDir. confine. Qed.

Lemma schemaHashes_reads Q root : confined Q (schemaHashes root).
Proof. unfold schemaHashes, ReadFile. confine; apply schemaFiles_reads. Qed.

Lemma snapshotHashes_reads Q root : confined Q (snapshotHashes root).
Proof. unfold snapshotHashes, ReadFile, WalkDir. confine. Qed.

Lemma schemaBundleSHA256_reads Q root : confined Q (schemaBundleSHA256 root).
Proof. unfold schemaBundleSHA256. confine; apply schemaHashes_reads. Qed.

Lemma aggregateMethodNames_reads Q root rel : confined Q (aggregateMethodNames root rel).
Proof. unfold aggregateMethodNames, ReadFile. confine. Qed.

Lemma aggregateMethodDiff_reads Q b c : confined Q (aggregateMethodDiff b c).
Proof. unfold aggregateMethodDiff. confine; apply aggregateMethodNames_reads. Qed.

Lemma Compare_reads Q req : confined Q (Compare req).
Proof.
  unfold Compare. confine;
    first [apply snapshotHashes_reads | apply schemaHashes_reads | apply aggregateMethodDiff_reads
          | apply schemaBundleSHA256_reads].
Qed.
End facts.

#[export] Hint Resolve schemaFiles_reads schemaHashes_reads snapshotHashes_reads schemaBundleSHA256_reads
  aggregateMethodNames_reads aggregateMethodDiff_reads Compare_reads : confined.

(** * What a tree holds *)

Section spec.
Context {Sys : System} {Txt : Texts}.

(** The names of the schema files below a directory. *)
Definition schema_names (f : fs) (root : path) : list string :=
  match walk_nodes f root with Ok entries => sort_strings (omap (schema_entry root) entries) | Err _ => [] end.

Definition hash_file (f : fs) (root : path) (rel : string) : res string :=
  raw ← read_node f (join root rel);
  canonical ← canonicalJSON raw;
  Ok (sha256_hex canonical).

(** The hash of the canonical text of a schema file, where there is one. *)
Definition schema_hash (f : fs) (root : path) (rel : string) : option string :=
  if mem rel (schema_names f root) then
    match hash_file f root rel with Ok h => Some h | Err _ => None end
  else None.

(** The methods of an aggregate schema. *)
Definition methods_of (f : fs) (root : path) (rel : string) : list string :=
  match read_node f (join root rel) with
  | Ok raw => match decode_methods raw with Ok schema => method_names schema | Err _ => [] end
  | Err _ => []
  end.

Hypothesis Hquiet : quiet Sys.

Lemma schemaFiles_value root l s s' :
  schemaFiles root s = (Ok l, s') -> l = schema_names (files s) root /\ files s' = files s.
Proof.
  intros (entries & s1 & H & [= <- <-])%D_bind_Ok. apply look_Ok in H as [H ->]; [|done].
  unfold schema_names. by rewrite H.
Qed.

(** A loop of readers computes the map of what each reads. *)
Lemma collect_value {A B} (step : A -> D B) (value : fs -> A -> B -> Prop) l ys s s' :
  (forall x y s s', step x s = (Ok y, s') -> value (files s) x y /\ files s' = files s) ->
  collect step l s = (Ok ys, s') -> Forall2 (value (files s)) l ys /\ files s' = files s.
Proof.
  intros Hstep. revert ys s. induction l as [|x l IH]; intros ys s; simpl.
  - intros [= <- <-]. by split.
  - intros (y & s1 & Hy & (zs & s2 & Hzs & [= <- <-])%D_bind_Ok)%D_bind_Ok.
    apply Hstep in Hy as [Hy Es1]. apply IH in Hzs as [Hzs Es2]. rewrite Es1 in Hzs, Es2.
    split; [by constructor | done].
Qed.

(** The map a loop over distinct keys builds. *)
Lemma list_to_map_value (g : string -> string -> Prop) keys (pairs : list (string * string)) k h :
  Forall2 (fun key kv => kv.1 = key /\ g key kv.2) keys pairs ->
  (forall x y y', g x y -> g x y' -> y = y') ->
  ((list_to_map pairs : gmap string string) !! k = Some h <-> k ∈ keys /\ g k h).
Proof.
  intros H Hfun. induction H as [|key [k' h'] keys pairs [Hk Hg] _ IH]; simpl in *.
  - rewrite lookup_empty. split; [done | by intros [?%not_elem_of_nil _]].
  - subst k'. rewrite elem_of_cons. destruct (decide (key = k)) as [->|Hne].
    + rewrite lookup_insert_eq. split; [intros [= ->]; eauto|]. intros [_ Hh]. f_equal. by eapply Hfun.
    + rewrite lookup_insert_ne by done. rewrite IH. split; [intuition|]. intros [[->|] ?]; [done|]. by split.
Qed.

Lemma schemaHashes_value root m s s' :
  schemaHashes root s = (Ok m, s') -> (forall rel, m !! rel = schema_hash (files s) root rel) /\ files s' = files s.
Proof.
  intros (l & s1 & Hl & (pairs & s2 & Hp & [= <- <-])%D_bind_Ok)%D_bind_Ok.
  apply schemaFiles_value in Hl as [-> Es1].
  apply (collect_value _ (fun f rel kv => kv.1 = rel /\ hash_file f root rel = Ok kv.2)) in Hp as [Hp Es2].
  - rewrite Es1 in Hp, Es2. split; [|done]. intros rel. apply option_eq. intros h.
    rewrite (list_to_map_value (fun rel h => hash_file (files s) root rel = Ok h) _ _ _ _ Hp)
      by (intros x y y' Hy Hy'; congruence).
    unfold schema_hash. destruct (mem rel _) eqn:E.
    + apply mem_true in E. destruct (hash_file _ _ _) as [h'|e]; split; [by intros [_ [= ->]] | by intros [= ->] | by intros [_ [=]] | done].
    + apply mem_false in E. split; [by intros [? _] | done].
  - intros rel [k h] t t' (raw & t1 & Hr & (c & t2 & Hc & [= <- <- <-])%D_bind_Ok)%D_bind_Ok.
    apply look_Ok in Hr as [Hr Et]; [|done]. apply D_wrap_err_Ok, D_of_res_inv in Hc as [Hc ->].
    split; [|done]. simpl. unfold hash_file. rewrite Hr. simpl. by rewrite Hc.
Qed.

Lemma aggregateMethodNames_value root rel l s s' :
  aggregateMethodNames root rel s = (Ok l, s') ->
  l = sort_strings (methods_of (files s) root rel) /\ files s' = files s.
Proof.
  intros H. pose proof (reads_keep _ _ _ _ (aggregateMethodNames_reads _ _ _) H) as [_ Hk].
  split; [|by apply Hk]. apply D_bind_Ok in H as (r & s1 & (x & [= ->] & Hx)%D_attempt_inv & H).
  unfold ReadFile, look, syscall in Hx. rewrite Hquiet in Hx. unfold methods_of.
  destruct (fault _) as [[e partial]|] eqn:Ef.
  - injection Hx as <- <-. by rewrite (fault_exists _ _ _ Ef) in H.
  - destruct (read_node _ _) as [raw|e]; injection Hx as <- <-.
    + apply D_bind_Ok in H as (schema & s2 & [Hd ->]%D_wrap_err_Ok%D_of_res_inv & [= <- <-]). by rewrite Hd.
    + destruct (is_not_exist e); [|done]. by injection H as <- <-.
Qed.

Definition same_methods (f : fs) (b c : path) (rel : string) : Prop :=
  forall m, m ∈ methods_of f b rel <-> m ∈ methods_of f c rel.

Lemma md_empty_spec b c :
  md_empty {| md_Added := sortedSetDiff c b; md_Removed := sortedSetDiff b c |} = true <-> (forall m, m ∈ b <-> m ∈ c).
Proof.
  unfold md_empty. simpl. rewrite andb_true_iff, !nil_list_spec. setoid_rewrite sortedSetDiff_spec. split.
  - intros [Hc Hb] m. split; intros H; destruct (decide (m ∈ b)), (decide (m ∈ c)); try done; exfalso; [by eapply Hb | by eapply Hc].
  - intros H. split; intros m [H1 H2]; apply H2, H, H1.
Qed.

(** The deltas are empty exactly when both sides name the same methods. *)
Lemma aggregateMethodDiff_value b c m s s' :
  aggregateMethodDiff b c s = (Ok m, s') ->
  (existsb (fun kv => negb (md_empty kv.2)) (map_to_list m) = false <->
   Forall (same_methods (files s) b c) aggregateSchemas) /\ files s' = files s.
Proof.
  intros (deltas & s1 & H & [= <- <-])%D_bind_Ok.
  apply (collect_value _ (fun f rel kv => kv.1 = rel /\ (md_empty kv.2 = true <-> same_methods f b c rel))) in H as [H Es].
  - split; [|done]. assert (Hkeys : deltas.*1 = aggregateSchemas).
    { clear -H. induction H as [|x kv l kvs [<- _] _ IH]; [done|]. by rewrite fmap_cons, IH. }
    rewrite existsb_false_Forall, map_to_list_to_map by (rewrite Hkeys; apply (bool_decide_unpack _); vm_compute; exact I).
    clear Hkeys. induction H as [|rel kv l kvs [<- Hkv] _ IH]; [by split; constructor|].
    rewrite !Forall_cons, IH, negb_false_iff, Hkv. done.
  - intros rel [k d] t t' (before & t1 & Hb & (after & t2 & Ha & [= <- <- <-])%D_bind_Ok)%D_bind_Ok.
    apply aggregateMethodNames_value in Hb as [-> Et1]. apply aggregateMethodNames_value in Ha as [-> Et2].
    rewrite Et1 in Et2. split; [|done]. split; [done|]. cbn [snd]. rewrite md_empty_spec, Et1.
    unfold same_methods. by setoid_rewrite elem_of_sort_strings.
Qed.

Lemma status_of_clean d m :
  status_of d m = StatusClean <-> fd_empty d = true /\ existsb (fun kv => negb (md_empty kv.2)) (map_to_list m) = false.
Proof. unfold status_of. destruct (fd_empty d), (existsb _ _); simpl; naive_solver. Qed.
End spec.

(** * The report says what changed *)

(** C35: Nothing else changing the disk, a comparison leaves it as it is; its
    status is clean exactly when both directories hold the same schema files
    with the same canonical text (their hashes) and the same methods, and it
    lists exactly the files added, changed and removed. *)
Theorem Compare_exact {Sys : System} {Txt : Texts} (req : CompareRequest) (b c : path) (report : Report) (s s' : disk)
    (Hq : quiet Sys) (Hb : cmp_Baseline req = Some b) (Hc : cmp_Candidate req = Some c)
    (H : Compare req s = (Ok report, s')) :
  let f := files s in
  files s' = f /\ journal s' = journal s /\
  (Status report = StatusClean <->
     (forall rel, schema_hash f b rel = schema_hash f c rel) /\ Forall (same_methods f b c) aggregateSchemas) /\
  forall rel,
    (rel ∈ fd_Added (rep_FileDiff report) <-> is_Some (schema_hash f c rel) /\ schema_hash f b rel = None) /\
    (rel ∈ fd_Removed (rep_FileDiff report) <-> is_Some (schema_hash f b rel) /\ schema_hash f c rel = None) /\
    (rel ∈ fd_Changed (rep_FileDiff report) <->
       exists h h', schema_hash f b rel = Some h /\ schema_hash f c rel = Some h' /\ h <> h').
Proof.
  destruct (reads_keep _ _ _ _ (Compare_reads _ _) H) as [Hj Hk]. specialize (Hk Hq).
  unfold Compare in H. rewrite Hb, Hc in H.
  apply D_bind_Ok in H as (? & s1 & H1%D_wrap_err_Ok & H). apply D_bind_Ok in H as (? & s2 & H2%D_wrap_err_Ok & H).
  apply D_bind_Ok in H as (bh & s3 & H3%D_wrap_err_Ok & H). apply D_bind_Ok in H as (ch & s4 & H4%D_wrap_err_Ok & H).
  apply D_bind_Ok in H as (methods & s5 & H5 & H). apply D_bind_Ok in H as (bundle & s6 & _ & H).
  destruct (reads_keep _ _ _ _ (snapshotHashes_reads _ _) H1) as [_ E1].
  destruct (reads_keep _ _ _ _ (snapshotHashes_reads _ _) H2) as [_ E2].
  rewrite (E1 Hq) in E2. specialize (E2 Hq).
  apply schemaHashes_value in H3 as [Hbh E3]; [|done]. apply schemaHashes_value in H4 as [Hch E4]; [|done].
  apply aggregateMethodDiff_value in H5 as [Hm _]; [|done].
  rewrite E2 in Hbh, E3. rewrite E3 in Hch, E4. rewrite E4 in Hm. intros f.
  do 2 (apply D_bind_Ok in H as (? & ? & _ & H)). do 2 (apply D_bind_Ok in H as (? & ? & _ & H)).
  injection H as <- _. cbn [Status rep_FileDiff]. split; [done|]. split; [done|]. split.
  - rewrite status_of_clean, fileDiff_empty, Hm. split; intros [Hh Hs]; (split; [|done]).
    + intros rel. by rewrite <- Hbh, <- Hch, Hh.
    + apply map_eq. intros rel. by rewrite Hbh, Hch.
  - intros rel. rewrite fd_Added_spec, fd_Removed_spec, fd_Changed_spec, Hbh, Hch. done.
Qed.

(** Texts in which [x] and [y] are the same object with its members in two
    orders, and [z] another object. *)
Definition sample_lex (text : string) : list lexeme :=
  if String.eqb text "x" then [LBraceO; LStr "a"; LColon; LNum "1"; LComma; LStr "b"; LColon; LNull; LBraceC]
  else if String.eqb text "y" then [LBraceO; LStr "b"; LColon; LNull; LComma; LStr "a"; LColon; LNum "1"; LBraceC]
  else if String.eqb text "z" then [LBraceO; LBraceC] else [LBad].

Definition sample_unlex (l : list lexeme) : string :=
  foldr (fun lexeme rest =>
    match lexeme with
    | LBraceO => "{" | LBraceC => "}" | LBrackO => "[" | LBrackC => "]" | LComma => "," | LColon => ":"
    | LNull => "null" | LBool b => if b then "true" else "false" | LNum x => x | LStr x => "'" +:+ x +:+ "'"
    | LBad => "?"
    end +:+ rest) "" l.

Definition sample_texts : Texts := {|
  lex := sample_lex; unlex := sample_unlex; sha256_hex := fun text => "#" +:+ text;
  decode_methods := fun text => Ok [[text]];
  decode_variants := fun text => Ok [{| Title := ""; Enum := [text]; params_Ref := "" |}];
  encode_report := fun _ => ""; encode_matrix := fun _ => "" |}.

Definition sample_tree : fs := list_to_map
  [(["base"], Dir); (["base"; "A.json"], File "x"); (["base"; "B.json"], File "z"); (["base"; "manifest.json"], File "z");
   (["cand"], Dir); (["cand"; "v1"], Dir); (["cand"; "A.json"], File "y"); (["cand"; "v1"; "C.json"], File "z");
   (["cand"; "note.txt"], File "z")].

Definition sample_request : CompareRequest := {|
  cmp_Baseline := Some ["base"]; cmp_Candidate := Some ["cand"]; cmp_SourceCommit := ""; cmp_SourceRef := "";
  cmp_SourceRefKind := ""; cmp_CodexVersion := ""; cmp_Generator := ""; cmp_GeneratorDetail := "" |}.

Definition sample_run : res Report * disk := @Compare calm sample_texts sample_request (disk_of sample_tree).

Lemma sample_diff : rep_FileDiff <$> sample_run.1 = Ok {| fd_Added := ["v1/C.json"]; fd_Changed := []; fd_Removed := ["B.json"] |}.
Proof. vm_compute. reflexivity. Qed.

Definition no_report : Report :=
  {| Status := ""; ComparisonMode := ""; rep_Target := {| SourceRepo := ""; SourceRefName := ""; SourceRefKind := "";
       SourceCommit := ""; CodexVersion := ""; Generator := ""; GeneratorDetail := ""; SchemaBundleSHA256 := "";
       CanonicalJSONNote := "" |};
     rep_FileDiff := {| fd_Added := []; fd_Changed := []; fd_Removed := [] |}; MethodDiff := ∅; MatrixUpdateSkeleton := "" |}.

Lemma sample_run_ok : sample_run = (Ok (value_of no_report sample_run.1), sample_run.2).
Proof. apply runs_ok. vm_compute. reflexivity. Qed.

Lemma Compare_exact_witness :
  "v1/C.json" ∈ fd_Added (rep_FileDiff (value_of no_report sample_run.1)) /\
  is_Some (@schema_hash sample_texts sample_tree ["cand"] "v1/C.json") /\
  @schema_hash sample_texts sample_tree ["base"] "v1/C.json" = None.
Proof.
  destruct (@Compare_exact calm sample_texts sample_request ["base"] ["cand"] (value_of no_report sample_run.1)
              (disk_of sample_tree) sample_run.2 calm_quiet eq_refl eq_refl sample_run_ok) as (_ & _ & _ & Hd).
  assert (Hin : "v1/C.json" ∈ fd_Added (rep_FileDiff (value_of no_report sample_run.1))).
  { pose proof sample_diff as H. destruct sample_run.1 as [r|e]; [|discriminate H].
    simpl in H. injection H as H. simpl. rewrite H. constructor. }
  split; [exact Hin | apply Hd; exact Hin].
Defined.
