(* ===== verification/Surface.v ===== *)
(** The public surface of two baselines and the impact of moving from one to
    the other: the manifest's data and its facades ([manifest.go]) and the
    compatibility report of [surface.go], in
    [src/codexsdk/internal/protocolupgrade]. *)

From Stdlib Require Import Ascii.
From S2P Require Import Prelude GoStrings Json Disk Drift.

Local Open Scope string_scope.
Local Open Scope list_scope.

(** * The manifest *)

Record manifestEntry := {
  Direction : string; FacadeTarget : string; Family : string; Kind : string; Method : string;
  ParamsOrPayloadSchema : string; ResponseSchema : string; ResponseSchemaStatus : string; ResponseType : string;
  SchemaTitle : string; SourceRef : gmap string string; SourceSchema : string; SourceVariant : string;
  Stability : string; StabilitySource : string; FacadeStatus : string }.

(** [map[string]any] of strings and other JSON values. *)
Abbreviation item := (gmap string JSONValue).

Record manifestFile := {
  AggregateSchemas : list string; ClassificationSources : option item; Description : string;
  Entries : list manifestEntry; Surface : list item; SchemaVersion : Z; m_Status : string }.

(** [x, _ := item[key].(string)] *)
Definition get_str (i : item) (key : string) : string :=
  match i !! key with Some (JSONString s) => s | _ => "" end.

(** * Facades *)

Definition is_letter (c : ascii) : bool :=
  let n := nat_of_ascii c in ((65 <=? n) && (n <=? 90) || (97 <=? n) && (n <=? 122))%nat.
Definition is_alnum (c : ascii) : bool := is_letter c || is_digit c.

(** [A-Za-z][A-Za-z0-9]* *)
Definition go_name (s : string) : bool :=
  match s with String c s' => is_letter c && all_bytes is_alnum s' | EmptyString => false end.

Fixpoint span_alnum (s : string) : string * string :=
  match s with
  | String c s' => if is_alnum c then let (a, b) := span_alnum s' in (String c a, b) else (EmptyString, s)
  | EmptyString => (EmptyString, EmptyString)
  end.

(** [facadeCaptureRE]: the accessor and the operation of [Accessor().Operation]. *)
Definition facadeCaptureRE (s : string) : option (string * string) :=
  let (accessor, rest) := span_alnum s in
  if has_prefix "()." rest then
    let operation := str_drop 3 rest in
    if go_name accessor && go_name operation then Some (accessor, operation) else None
  else None.

Definition facade_signature (entry : manifestEntry) : string :=
  "func(context.Context" +:+
  (if String.eqb (ParamsOrPayloadSchema entry) "" then "" else ", protocolv2." +:+ ParamsOrPayloadSchema entry) +:+
  ") (protocolv2." +:+ ResponseType entry +:+ ", error)".

(** The accessor and the surface item of an entry with a generated facade. *)
Definition facade_method (entry : manifestEntry) : option (string * item) :=
  if negb (String.eqb (Direction entry) "client_to_server") || negb (String.eqb (Kind entry) "request") then None
  else match facadeCaptureRE (FacadeTarget entry) with
       | None => None
       | Some (accessor, operation) =>
         if negb (String.eqb (FacadeStatus entry) "generated") then None
         else Some (accessor, str_map
           [("kind", "method"); ("name", "codexsdk." +:+ accessor +:+ "." +:+ operation);
            ("owner", "codexsdk." +:+ accessor); ("signature", facade_signature entry);
            ("stability", Stability entry)])
       end.

(** The accessor's own type: mixed unless all its methods agree. *)
Definition type_stability (methods : list item) : string :=
  match remove_dups (map (fun m => get_str m "stability") methods) with
  | [stability] => stability
  | _ => "mixed"
  end.

Definition facade_type (accessor : string) (methods : list item) : item :=
  str_map [("kind", "type"); ("name", "codexsdk." +:+ accessor); ("owner", "");
           ("signature", "struct{/* opaque */}"); ("stability", type_stability methods)].

Definition surface_le (a b : item) : bool :=
  if String.eqb (get_str a "kind") (get_str b "kind") then str_le (get_str a "name") (get_str b "name")
  else str_le (get_str a "kind") (get_str b "kind").

(** The order of the accessors is that of a Go map. *)
Definition facadeCompatibilitySurface (manifest : manifestFile) : list item :=
  let methods := omap facade_method (Entries manifest) in
  sort_by surface_le
    (concat (map (fun accessor =>
       let own := omap (fun am => if String.eqb am.1 accessor then Some am.2 else None) methods in
       facade_type accessor own :: own) (remove_dups methods.*1))).

(** * The index of a surface *)

(** Kind and name. *)
Definition surfaceKey : Type := string * string.
Record surfaceFact := { classification : string; signature : string }.

#[export] Instance surfaceFact_eq_dec : EqDecision surfaceFact.
Proof. solve_decision. Defined.

Definition index_item (result : gmap surfaceKey surfaceFact) (raw : item) : gmap surfaceKey surfaceFact :=
  let kind := get_str raw "kind" in
  let name := get_str raw "name" in
  let stability := get_str raw "stability" in
  let sig := get_str raw "signature" in
  if String.eqb kind "" || String.eqb name "" || String.eqb stability "" || String.eqb sig "" then result
  else <[(kind, name) := {| classification := stability; signature := sig |}]> result.

Definition surfaceIndex (manifest : manifestFile) : gmap surfaceKey surfaceFact :=
  fold_left index_item (Surface manifest ++ facadeCompatibilitySurface manifest) ∅.

Definition key_le (a b : surfaceKey) : bool := if String.eqb a.1 b.1 then str_le a.2 b.2 else str_le a.1 b.1.
Definition sortedSurfaceKeys (index : gmap surfaceKey surfaceFact) : list surfaceKey :=
  sort_by key_le (map_to_list index).*1.

(** * The compatibility report *)

Record compatibility := {
  compatibility_impact : string; release_impact : string;
  added : list item; removed : list item; reclassified : list item; changed : list item;
  external_implementation_obligations : list item; weakened_support : list item; strengthened_support : list item }.

Definition one_sided (key : surfaceKey) (fact : surfaceFact) : item :=
  str_map [("kind", key.1); ("name", key.2); ("classification", classification fact); ("signature", signature fact)].

(** The keys of [index] that [other] lacks, with their facts. *)
Definition only_in (index other : gmap surfaceKey surfaceFact) : list item :=
  omap (fun key => match other !! key, index !! key with
                   | None, Some fact => Some (one_sided key fact)
                   | _, _ => None
                   end) (sortedSurfaceKeys index).

(** The items of the keys in both, by what [differs] makes of the facts. *)
Definition in_both (before after : gmap surfaceKey surfaceFact)
    (differs : surfaceKey -> surfaceFact -> surfaceFact -> option item) : list item :=
  omap (fun key => match before !! key, after !! key with
                   | Some b, Some a => differs key b a
                   | _, _ => None
                   end) (sortedSurfaceKeys before).

Definition reclassification (key : surfaceKey) (b a : surfaceFact) : option item :=
  if String.eqb (classification b) (classification a) then None
  else Some (str_map [("kind", key.1); ("name", key.2); ("from", classification b); ("to", classification a)]).

Definition signature_change (key : surfaceKey) (b a : surfaceFact) : option item :=
  if String.eqb (signature b) (signature a) then None
  else Some (str_map [("kind", key.1); ("name", key.2); ("classification", classification b);
                      ("from_signature", signature b); ("to_signature", signature a)]).

(** An unknown classification ranks as 0, as a missing key of the map. *)
Definition supportRank (stability : string) : nat :=
  if String.eqb stability "mixed" then 1 else if String.eqb stability "stable" then 2 else 0.

Definition weakens (i : item) : bool := (supportRank (get_str i "to") <? supportRank (get_str i "from"))%nat.
Definition strengthens (i : item) : bool := (supportRank (get_str i "from") <? supportRank (get_str i "to"))%nat.

Definition compatibilityReport (base target : manifestFile) : compatibility :=
  let before := surfaceIndex base in
  let after := surfaceIndex target in
  let added := only_in after before in
  let removed := only_in before after in
  let reclassified := in_both before after reclassification in
  let changed := in_both before after signature_change in
  let obligations := List.filter (fun i => String.eqb (get_str i "kind") "interface_method") added in
  let weakened := List.filter weakens reclassified in
  let strengthened := List.filter strengthens reclassified in
  let incompatible := negb (nil_list removed) || negb (nil_list changed) || negb (nil_list obligations) ||
                      negb (nil_list weakened) in
  {| compatibility_impact := if incompatible then "incompatible" else "additive_or_metadata_only";
     release_impact := if incompatible then "breaking"
                       else if negb (nil_list added) || negb (nil_list strengthened) then "additive" else "metadata-only";
     added := added; removed := removed; reclassified := reclassified; changed := changed;
     external_implementation_obligations := obligations;
     weakened_support := weakened; strengthened_support := strengthened |}.

Definition updateManifestSurface (manifest : manifestFile) (surface : list item) : manifestFile :=
  {| AggregateSchemas := AggregateSchemas manifest;
     ClassificationSources := Some (<["generated_surface" := JSONString
       "exported Go identities compared between generation without and with experimental schema visibility"]>
       (default ∅ (ClassificationSources manifest)));
     Description := Description manifest; Entries := Entries manifest; Surface := surface;
     SchemaVersion := SchemaVersion manifest; m_Status := m_Status manifest |}.

(** * What the report means *)

Section facts.
Implicit Types (before after : gmap surfaceKey surfaceFact).

Lemma nil_list_false {A} (l : list A) : nil_list l = false <-> exists x, x ∈ l.
Proof. destruct l as [|x l]; simpl; split; try done; [by intros [x ?%not_elem_of_nil] | exists x; constructor]. Qed.

Lemma in_sortedSurfaceKeys index key : key ∈ sortedSurfaceKeys index <-> is_Some (index !! key).
Proof.
  unfold sortedSurfaceKeys. rewrite elem_of_sort_by, list_elem_of_fmap. split.
  - intros ([k f] & -> & H%elem_of_map_to_list). eauto.
  - intros [f H]. exists (key, f). split; [done | by apply elem_of_map_to_list].
Qed.

Lemma in_only_in index other i :
  i ∈ only_in index other <-> exists key fact, index !! key = Some fact /\ other !! key = None /\ i = one_sided key fact.
Proof.
  unfold only_in. rewrite list_elem_of_omap. split.
  - intros (key & _ & H). destruct (other !! key) eqn:Eo; [done|]. destruct (index !! key) as [fact|] eqn:Ei; [|done].
    injection H as <-. eauto.
  - intros (key & fact & Hi & Ho & ->). exists key. rewrite in_sortedSurfaceKeys, Hi, Ho. split; [eauto|done].
Qed.

Lemma in_in_both before after differs i :
  i ∈ in_both before after differs <->
  exists key b a, before !! key = Some b /\ after !! key = Some a /\ differs key b a = Some i.
Proof.
  unfold in_both. rewrite list_elem_of_omap. split.
  - intros (key & _ & H). destruct (before !! key) as [b|] eqn:Eb; [|done]. destruct (after !! key) as [a|] eqn:Ea; [|done]. eauto 6.
  - intros (key & b & a & Hb & Ha & H). exists key. rewrite in_sortedSurfaceKeys, Hb, Ha. split; [eauto|done].
Qed.

Lemma in_filter {A} (p : A -> bool) l x : x ∈ List.filter p l <-> x ∈ l /\ p x = true.
Proof. by rewrite !list_elem_of_In, filter_In. Qed.

Lemma one_sided_kind key fact : get_str (one_sided key fact) "kind" = key.1.
Proof. done. Qed.

(** The two compatible cases of a key: it stays with its signature and at
    least its support, or it is new and asks nothing of an implementation. *)
Definition key_breaks (before after : gmap surfaceKey surfaceFact) (key : surfaceKey) : Prop :=
  match before !! key, after !! key with
  | Some b, Some a => signature b <> signature a \/ (supportRank (classification a) < supportRank (classification b))%nat
  | Some _, None => True
  | None, Some _ => key.1 = "interface_method"
  | None, None => False
  end.

Definition key_adds (before after : gmap surfaceKey surfaceFact) (key : surfaceKey) : Prop :=
  match before !! key, after !! key with
  | Some b, Some a => (supportRank (classification b) < supportRank (classification a))%nat
  | None, Some _ => True
  | _, None => False
  end.

(** A list of reclassifications filtered by how the support moves. *)
Lemma in_reclassified before after (p : item -> bool) (r : nat -> nat -> bool) :
  (forall i, p i = r (supportRank (get_str i "from")) (supportRank (get_str i "to"))) -> (forall n, r n n = false) ->
  (exists i, i ∈ List.filter p (in_both before after reclassification)) <->
  exists key b a, before !! key = Some b /\ after !! key = Some a /\
    r (supportRank (classification b)) (supportRank (classification a)) = true.
Proof.
  intros Hp Hr. split.
  - intros (i & [(key & b & a & Hb & Ha & Hi)%in_in_both Hpi]%in_filter). exists key, b, a. split; [done|]. split; [done|].
    unfold reclassification in Hi. destruct (String.eqb _ _); [done|]. injection Hi as <-. by rewrite Hp in Hpi.
  - intros (key & b & a & Hb & Ha & Hr'). unfold reclassification.
    destruct (String.eqb_spec (classification b) (classification a)) as [E|E]; [by rewrite E, Hr in Hr'|].
    exists (str_map [("kind", key.1); ("name", key.2); ("from", classification b); ("to", classification a)]).
    apply in_filter. split; [|by rewrite Hp].
    apply in_in_both. exists key, b, a. split; [done|]. split; [done|]. unfold reclassification.
    by destruct (String.eqb_spec (classification b) (classification a)).
Qed.
End facts.

(** Whether the move from [base] to [target] breaks, and whether it adds. *)
Definition breaks (base target : manifestFile) : Prop :=
  exists key, key_breaks (surfaceIndex base) (surfaceIndex target) key.
Definition adds (base target : manifestFile) : Prop :=
  exists key, key_adds (surfaceIndex base) (surfaceIndex target) key.

(** The two tests of the report. *)
Definition incompatible (r : compatibility) : bool :=
  negb (nil_list (removed r)) || negb (nil_list (changed r)) || negb (nil_list (external_implementation_obligations r)) ||
  negb (nil_list (weakened_support r)).
Definition additive (r : compatibility) : bool := negb (nil_list (added r)) || negb (nil_list (strengthened_support r)).

Lemma impacts base target :
  let r := compatibilityReport base target in
  release_impact r = (if incompatible r then "breaking" else if additive r then "additive" else "metadata-only") /\
  compatibility_impact r = (if incompatible r then "incompatible" else "additive_or_metadata_only").
Proof. done. Qed.

Lemma incompatible_spec base target : incompatible (compatibilityReport base target) = true <-> breaks base target.
Proof.
  unfold incompatible. simpl. rewrite !orb_true_iff, !negb_true_iff, !nil_list_false.
  rewrite (in_reclassified _ _ weakens (fun f t => t <? f)%nat) by (intros; done || apply Nat.ltb_irrefl).
  unfold breaks, key_breaks. split.
  - intros [[[(i & H)|(i & H)]|(i & H)]|H].
    + apply in_only_in in H as (key & fact & Hi & Ho & _). exists key. by rewrite Hi, Ho.
    + apply in_in_both in H as (key & b & a & Hb & Ha & H). exists key. rewrite Hb, Ha. left.
      unfold signature_change in H. by destruct (String.eqb_spec (signature b) (signature a)).
    + apply in_filter in H as [(key & fact & Hi & Ho & ->)%in_only_in Hk]. exists key. rewrite Hi, Ho.
      rewrite one_sided_kind in Hk. by apply String.eqb_eq.
    + destruct H as (key & b & a & Hb & Ha & H%Nat.ltb_lt). exists key. rewrite Hb, Ha. by right.
  - intros [key H]. destruct (surfaceIndex base !! key) as [b|] eqn:Eb, (surfaceIndex target !! key) as [a|] eqn:Ea.
    + destruct H as [H|H].
      * left. left. right. eexists. apply in_in_both. exists key, b, a. split; [done|]. split; [done|].
        unfold signature_change. by destruct (String.eqb_spec (signature b) (signature a)).
      * right. exists key, b, a. split; [done|]. split; [done|]. by apply Nat.ltb_lt.
    + left. left. left. eexists. apply in_only_in. by exists key, b.
    + left. right. exists (one_sided key a). apply in_filter. split; [apply in_only_in; by exists key, a|].
      rewrite one_sided_kind. by apply String.eqb_eq.
    + done.
Qed.

Lemma additive_spec base target : additive (compatibilityReport base target) = true <-> adds base target.
Proof.
  unfold additive. simpl. rewrite !orb_true_iff, !negb_true_iff, !nil_list_false.
  rewrite (in_reclassified _ _ strengthens (fun f t => f <? t)%nat) by (intros; done || apply Nat.ltb_irrefl).
  unfold adds, key_adds. split.
  - intros [(i & H)|H].
    + apply in_only_in in H as (key & fact & Hi & Ho & _). exists key. by rewrite Hi, Ho.
    + destruct H as (key & b & a & Hb & Ha & H%Nat.ltb_lt). exists key. by rewrite Hb, Ha.
  - intros [key H]. destruct (surfaceIndex base !! key) as [b|] eqn:Eb, (surfaceIndex target !! key) as [a|] eqn:Ea; try done.
    + right. exists key, b, a. split; [done|]. split; [done|]. by apply Nat.ltb_lt.
    + left. exists (one_sided key a). apply in_only_in. by exists key, a.
Qed.

Lemma breaks_through base mid target : breaks base target -> breaks base mid \/ breaks mid target.
Proof.
  intros [key H]. unfold breaks, key_breaks in *.
  destruct (surfaceIndex base !! key) as [b|] eqn:Eb, (surfaceIndex target !! key) as [t|] eqn:Et; try done.
  - destruct (surfaceIndex mid !! key) as [m|] eqn:Em; [|left; exists key; by rewrite Eb, Em].
    destruct (decide (signature b = signature m)) as [E|E]; [|left; exists key; rewrite Eb, Em; by left].
    destruct (decide (supportRank (classification m) < supportRank (classification b))%nat) as [Hr|Hr];
      [left; exists key; rewrite Eb, Em; by right|].
    right. exists key. rewrite Em, Et. destruct H as [H|H]; [left; by rewrite <- E | right; lia].
  - destruct (surfaceIndex mid !! key) as [m|] eqn:Em; [right; exists key; by rewrite Em, Et | left; exists key; by rewrite Eb, Em].
  - destruct (surfaceIndex mid !! key) as [m|] eqn:Em; [left; exists key; by rewrite Eb, Em | right; exists key; by rewrite Em, Et].
Qed.

Lemma stays base : ~ breaks base base /\ ~ adds base base.
Proof.
  split; intros [key H]; [unfold key_breaks in H | unfold key_adds in H]; destruct (_ !! key) as [b|]; try done; [|lia].
  destruct H; [done|lia].
Qed.

(** The release impact is breaking exactly when an exported identity is
    lost, changes its signature, loses support, or is a new method an
    implementation must have; additive exactly when none of that happens and an
    identity is new or gains support; metadata-only otherwise.  Compatible
    moves compose, and staying is metadata-only. *)
Theorem release_impact_spec (base mid target : manifestFile) :
  (release_impact (compatibilityReport base target) = "breaking" <-> breaks base target) /\
  (release_impact (compatibilityReport base target) = "additive" <-> ~ breaks base target /\ adds base target) /\
  (release_impact (compatibilityReport base target) = "metadata-only" <-> ~ breaks base target /\ ~ adds base target) /\
  (compatibility_impact (compatibilityReport base target) = "incompatible" <-> breaks base target) /\
  release_impact (compatibilityReport base base) = "metadata-only" /\
  (breaks base target -> breaks base mid \/ breaks mid target).
Proof.
  destruct (impacts base target) as [-> ->]. destruct (impacts base base) as [-> _].
  destruct (stays base) as [Hb Ha]. rewrite <- incompatible_spec in Hb. rewrite <- additive_spec in Ha.
  apply not_true_is_false in Hb as ->. apply not_true_is_false in Ha as ->.
  pose proof (breaks_through base mid target) as Hthrough.
  rewrite <- incompatible_spec, <- additive_spec in *.
  destruct (incompatible (compatibilityReport base target)), (additive (compatibilityReport base target)); naive_solver.
Qed.

(** * Facade targets *)

Lemma span_alnum_spec s a r :
  span_alnum s = (a, r) -> s = a +:+ r /\ all_bytes is_alnum a = true /\
  match r with String c _ => is_alnum c = false | EmptyString => True end.
Proof.
  revert a r. induction s as [|c s IH]; intros a r; simpl; [by intros [= <- <-]|].
  destruct (is_alnum c) eqn:E.
  - destruct (span_alnum s) as [a' r']. destruct (IH _ _ eq_refl) as (-> & Ha & Hr). intros [= <- <-].
    rewrite app_String. simpl. by rewrite E, Ha.
  - intros [= <- <-]. by rewrite app_Empty.
Qed.

Lemma span_alnum_app a c r : all_bytes is_alnum a = true -> is_alnum c = false -> span_alnum (a +:+ String c r) = (a, String c r).
Proof.
  intros Ha Hc. induction a as [|x a IH].
  - rewrite app_Empty. simpl. by rewrite Hc.
  - simpl in Ha. apply andb_true_iff in Ha as [Hx Ha]. rewrite app_String. simpl. by rewrite Hx, IH.
Qed.

Lemma go_name_alnum s : go_name s = true -> all_bytes is_alnum s = true.
Proof.
  destruct s as [|c s]; [done|]. simpl. intros [Hc Hs]%andb_true_iff. unfold is_alnum at 1. by rewrite Hc, Hs.
Qed.

Lemma drop_call t : str_drop 3 ("()." +:+ t) = t.
Proof. apply (str_drop_app "()." t). Qed.

(** The capture is that of the regular expression: two Go names around "()." *)
Lemma facadeCaptureRE_spec s a o :
  facadeCaptureRE s = Some (a, o) <-> s = a +:+ "()." +:+ o /\ go_name a = true /\ go_name o = true.
Proof.
  unfold facadeCaptureRE. split.
  - destruct (span_alnum s) as [x r] eqn:E. apply span_alnum_spec in E as (-> & _ & _).
    destruct (has_prefix _ r) eqn:Hp; [|done]. apply has_prefix_spec in Hp as [t ->].
    rewrite drop_call. destruct (go_name x && go_name t) eqn:Hg; [|done].
    apply andb_true_iff in Hg as [? ?]. by intros [= <- <-].
  - intros (-> & Ha & Ho). change ("()." +:+ o) with (String "(" (")." +:+ o)).
    rewrite (span_alnum_app a "(" (")." +:+ o)) by (done || by apply go_name_alnum).
    change (String "(" (")." +:+ o)) with ("()." +:+ o).
    by rewrite has_prefix_app, drop_call, Ha, Ho.
Qed.
