(* ===== verification/Regex.v ===== *)
(** Go's [regexp] as [src/codexsdk/internal/protocolupgrade/commonrs.go] uses
    it: captures by name, greedy and reluctant repetition, and the leftmost
    match in the order of preference of the alternatives.  The matcher
    backtracks; it is sound and finds a match wherever there is one. *)

From Stdlib Require Import Ascii.
From S2P Require Import Prelude GoStrings.

Local Open Scope string_scope.
Local Open Scope list_scope.

Inductive re :=
| Empty
| Char (f : ascii -> bool)
| Cat (a b : re)
| Alt (a b : re)
| Star (greedy : bool) (a : re)
| Group (name : string) (a : re).

(** The text of a capture, by the name of its group, the last one first. *)
Definition captures := list (string * string).

Section matcher.
Context {X : Type}.

(** A repetition, from the matcher of one iteration; [n] is more than the
    length of the text.  An iteration that consumes nothing ends it. *)
Definition star_run (one : string -> captures -> (string -> captures -> option X) -> option X) (greedy : bool)
    (k : string -> captures -> option X) : nat -> string -> captures -> option X :=
  fix star (n : nat) (s : string) (caps : captures) {struct n} : option X :=
    match n with
    | O => None
    | S n =>
      let again := one s caps (fun s' caps' =>
        if (String.length s' <? String.length s)%nat then star n s' caps' else None) in
      if greedy then match again with Some x => Some x | None => k s caps end
      else match k s caps with Some x => Some x | None => again end
    end.

(** Match a prefix of [s] and go on with [k] on the rest. *)
Fixpoint run (r : re) (s : string) (caps : captures) (k : string -> captures -> option X) {struct r} : option X :=
  match r with
  | Empty => k s caps
  | Char f => match s with String c s' => if f c then k s' caps else None | EmptyString => None end
  | Cat a b => run a s caps (fun s' caps' => run b s' caps' k)
  | Alt a b => match run a s caps k with Some x => Some x | None => run b s caps k end
  | Star greedy a => star_run (run a) greedy k (S (String.length s)) s caps
  | Group name a =>
    run a s caps (fun s' caps' => k s' ((name, str_take (String.length s - String.length s') s) :: caps'))
  end.
End matcher.

(** A match at the start of [s]: its captures and the rest. *)
Definition match_here (r : re) (s : string) : option (captures * string) :=
  run r s [] (fun rest caps => Some (caps, rest)).

(** The leftmost match. *)
Fixpoint find (r : re) (s : string) : option (captures * string) :=
  match match_here r s with
  | Some m => Some m
  | None => match s with String _ s' => find r s' | EmptyString => None end
  end.

(** [FindAllStringSubmatch] for an expression that does not match the empty
    string; [n] bounds the matches by the length of the text. *)
Fixpoint find_all (n : nat) (r : re) (s : string) : list captures :=
  match n with
  | O => []
  | S n => match find r s with
           | Some (caps, rest) => caps :: find_all n r rest
           | None => []
           end
  end.
Definition FindAll (r : re) (s : string) : list captures := find_all (String.length s) r s.

(** The capture of a group; the empty string when it took no part. *)
Definition group (caps : captures) (name : string) : string :=
  match List.find (fun kv => String.eqb kv.1 name) caps with Some kv => kv.2 | None => "" end.

(** * The language of an expression *)

Inductive matches : re -> string -> Prop :=
| m_empty : matches Empty ""
| m_char f c : f c = true -> matches (Char f) (String c "")
| m_cat a b s t : matches a s -> matches b t -> matches (Cat a b) (s +:+ t)
| m_alt_l a b s : matches a s -> matches (Alt a b) s
| m_alt_r a b s : matches b s -> matches (Alt a b) s
| m_star_nil g a : matches (Star g a) ""
| m_star g a s t : matches a s -> matches (Star g a) t -> matches (Star g a) (s +:+ t)
| m_group name a s : matches a s -> matches (Group name a) s.

Lemma run_sound {X} r s caps (k : string -> captures -> option X) x :
  run r s caps k = Some x -> exists p rest caps', s = p +:+ rest /\ matches r p /\ k rest caps' = Some x.
Proof.
  revert s caps k x. induction r as [| f | a IHa b IHb | a IHa b IHb | g a IHa | name a IHa]; intros s caps k x; cbn [run].
  - intros H. exists "", s, caps. split; [done|]. split; [constructor | done].
  - destruct s as [|c s]; [done|]. destruct (f c) eqn:E; [|done]. intros H. exists (String c ""), s, caps.
    split; [done|]. split; [by constructor | done].
  - intros (p & rest & caps' & -> & Hp & H)%IHa. apply IHb in H as (q & rest' & caps'' & -> & Hq & H).
    exists (p +:+ q), rest', caps''. split; [by rewrite str_app_assoc|]. split; [by constructor | done].
  - destruct (run a s caps k) as [y|] eqn:E; intros H.
    + injection H as ->. apply IHa in E as (p & rest & caps' & ? & ? & ?). exists p, rest, caps'. eauto using matches.
    + apply IHb in H as (p & rest & caps' & ? & ? & ?). exists p, rest, caps'. eauto using matches.
  - generalize (S (String.length s)) as n. intros n. revert s caps x. induction n as [|n IHn]; intros s caps x; [by cbn [star_run]|].
    cbn [star_run]. match goal with |- context [run a s caps ?k'] => destruct (run a s caps k') as [y|] eqn:Ea end.
    + assert (Hy : exists p rest caps', s = p +:+ rest /\ matches (Star g a) p /\ k rest caps' = Some y).
      { apply IHa in Ea as (p & rest & caps' & -> & Hp & H). cbv beta in H. destruct (_ <? _)%nat; [|done].
        apply IHn in H as (q & rest' & caps'' & -> & Hq & H).
        exists (p +:+ q), rest', caps''. split; [by rewrite str_app_assoc|]. split; [by constructor | done]. }
      destruct g; [by intros [= ->]|]. destruct (k s caps) as [z|] eqn:Ek; [|by intros [= ->]].
      intros [= ->]. exists "", s, caps. eauto using matches.
    + intros H. assert (k s caps = Some x) by (destruct g, (k s caps); done).
      exists "", s, caps. eauto using matches.
  - intros (p & rest & caps' & -> & Hp & H)%IHa. eexists p, rest, _. split; [done|]. split; [by constructor | exact H].
Qed.

(** Every text of the language can be consumed, whatever follows it, and a
    repetition needs no more rounds than the length of the text. *)
Lemma run_complete {X} r p : matches r p -> forall rest caps (k : string -> captures -> option X),
  (forall caps', k rest caps' <> None) ->
  run r (p +:+ rest) caps k <> None /\
  (forall g a n, r = Star g a -> (String.length (p +:+ rest) < n)%nat -> star_run (run a) g k n (p +:+ rest) caps <> None).
Proof.
  induction 1 as [|f c Hf|a b s t _ IHs _ IHt|a b s _ IH|a b s _ IH|g a|g a s t _ IHs _ IHt|name a s _ IH];
    intros rest caps k Hk; try (split; [|done]).
  - apply Hk.
  - simpl. rewrite Hf. apply Hk.
  - rewrite str_app_assoc. simpl. apply IHs. intros caps'. by apply IHt.
  - simpl. destruct (IH rest caps k Hk) as [H _]. by destruct (run a _ caps k).
  - simpl. destruct (IH rest caps k Hk) as [H _]. by destruct (run a _ caps k).
  - assert (Hstar : forall n, (String.length rest < n)%nat -> star_run (run a) g k n rest caps <> None).
    { intros [|n] Hn; [lia|]. cbn [star_run]. specialize (Hk caps).
      match goal with |- context [run a rest caps ?k'] => destruct (run a rest caps k') end; destruct g, (k rest caps); done. }
    rewrite app_Empty. split; [apply Hstar; lia | intros ? ? n [= <- <-]; apply Hstar].
  - assert (Hstar : forall n, (String.length ((s +:+ t) +:+ rest) < n)%nat ->
              star_run (run a) g k n ((s +:+ t) +:+ rest) caps <> None).
    { destruct s as [|c s].
      - rewrite app_Empty. intros n Hn. by apply (IHt rest caps k Hk).
      - intros [|n] Hn; [lia|]. rewrite str_app_assoc in Hn |- *. cbn [star_run].
        match goal with |- context [run a _ caps ?k'] => set (cont := k') end.
        assert (Ha : run a (String c s +:+ (t +:+ rest)) caps cont <> None).
        { apply IHs. intros caps'. unfold cont.
          assert (Hlt : (String.length (t +:+ rest) < String.length (String c s +:+ (t +:+ rest)))%nat)
            by (rewrite (str_length_app (String c s)); cbn [String.length]; lia).
          rewrite (proj2 (Nat.ltb_lt _ _) Hlt). apply (IHt rest caps' k Hk); [done | lia]. }
        destruct (run a _ caps cont); [|done]. destruct g; [done|]. by destruct (k _ caps). }
    split; [apply Hstar; simpl; lia | intros ? ? n [= <- <-]; apply Hstar].
  - simpl. apply IH. intros caps'. apply Hk.
Qed.

(** A match is found exactly where the text has a part in the language. *)
Lemma find_spec r s : find r s <> None <-> exists a p b, s = a +:+ p +:+ b /\ matches r p.
Proof.
  split.
  - induction s as [|c s IH]; simpl.
    + destruct (match_here r "") as [m|] eqn:E; [|done]. intros _.
      apply run_sound in E as (p & rest & caps & Hs & Hp & _). exists "", p, rest. by rewrite app_Empty.
    + destruct (match_here r (String c s)) as [m|] eqn:E.
      * intros _. apply run_sound in E as (p & rest & caps & Hs & Hp & _). exists "", p, rest. by rewrite app_Empty.
      * intros (a & p & b & -> & Hp)%IH. exists (String c a), p, b. done.
  - intros (a & p & b & -> & Hp). induction a as [|c a IH].
    + rewrite app_Empty. assert (H : match_here r (p +:+ b) <> None) by (apply (run_complete r p Hp); done).
      destruct (p +:+ b); simpl; by destruct (match_here _ _).
    + rewrite app_String. simpl. by destruct (match_here _ _).
Qed.
