(* ===== verification/CommonRS.v ===== *)
(** The response types of the app-server's requests, read from the macros of
    its Rust source: [src/codexsdk/internal/protocolupgrade/commonrs.go]. *)

From Stdlib Require Import Ascii.
From S2P Require Import Prelude GoStrings Regex Disk.

Local Open Scope string_scope.
Local Open Scope list_scope.

Definition commonRSRef := "codex-rs/app-server-protocol/src/protocol/common.rs".

Record requestMapping := { variant : string; responseType : string; macroName : string }.

(** * Expressions *)

Definition newline : ascii := ascii_of_nat 10.
Definition quote : ascii := ascii_of_nat 34.
Definition ch (c : ascii) : ascii -> bool := Ascii.eqb c.
Definition not_ch (c : ascii) (x : ascii) : bool := negb (Ascii.eqb c x).
Definition white (c : ascii) : bool := mem (nat_of_ascii c) [9; 10; 12; 13; 32]%nat.
Definition letter (c : ascii) : bool :=
  let n := nat_of_ascii c in ((65 <=? n) && (n <=? 90) || (97 <=? n) && (n <=? 122))%nat.
Definition word (c : ascii) : bool := letter c || is_digit c || ch "_"%char c.

Fixpoint lit (s : string) : re :=
  match s with EmptyString => Empty | String c s' => Cat (Char (ch c)) (lit s') end.
Definition star (r : re) : re := Star true r.
Definition plus (r : re) : re := Cat r (Star true r).
Definition opt (r : re) : re := Alt r Empty.
Definition spaces : re := star (Char white).
Definition line_rest : re := star (Char (not_ch newline)).
Fixpoint cat (l : list re) : re := match l with [] => Empty | r :: l' => Cat r (cat l') end.
Definition eol : re := Char (ch newline).

Definition requestEntryRE : re :=
  cat [Group "prefix" (star (cat [spaces;
         Alt (cat [lit "#["; line_rest; lit "]"]) (Alt (cat [lit "///"; line_rest]) (cat [lit "//"; line_rest])); eol]));
       spaces; Group "variant" (Cat (Char letter) (star (Char word)));
       opt (cat [spaces; lit "=>"; spaces; Char (ch quote); Group "wire" (plus (Char (not_ch quote))); Char (ch quote)]);
       spaces; lit "{"; Group "body" (Star false (Char (fun _ => true))); eol; spaces; lit "},"].

Definition responseEntryRE : re :=
  cat [lit "response:"; spaces; Group "type" (plus (Char (fun c => not_ch ","%char c && not_ch newline c)))].

(** * Macro bodies *)

(** [strings.Index] and [strings.LastIndex]. *)
Fixpoint str_index (sub s : string) : option nat :=
  if has_prefix sub s then Some O
  else match s with EmptyString => None | String _ s' => S <$> str_index sub s' end.
Fixpoint str_last_index (sub s : string) : option nat :=
  match s with
  | EmptyString => if has_prefix sub s then Some O else None
  | String _ s' => match str_last_index sub s' with
                   | Some i => Some (S i)
                   | None => if has_prefix sub s then Some O else None
                   end
  end.

(** The loop from [index] on; [text] is the rest of the source there. *)
Fixpoint scan_braces (text : string) (index : nat) (depth : Z) (inString escape : bool) : res nat :=
  match text with
  | EmptyString => Err (Errorf "unbalanced braces while parsing common.rs" [])
  | String char rest =>
    if inString then
      if escape then scan_braces rest (S index) depth true false
      else if ch "\"%char char then scan_braces rest (S index) depth true true
      else if ch quote char then scan_braces rest (S index) depth false false
      else scan_braces rest (S index) depth true false
    else if ch quote char then scan_braces rest (S index) depth true escape
    else if ch "{"%char char then scan_braces rest (S index) (depth + 1)%Z false escape
    else if ch "}"%char char then
      if (depth - 1 =? 0)%Z then Ok index else scan_braces rest (S index) (depth - 1)%Z false escape
    else scan_braces rest (S index) depth false escape
  end.

Definition findMatchingBrace (text : string) (openIndex : nat) : res nat :=
  scan_braces (str_drop openIndex text) openIndex 0 false false.

Definition extractMacroBody (text macroName : string) : res string :=
  match str_index (macroName +:+ "!") text with
  | None => Err (Errorf "macro %s not found" [])
  | Some start =>
    match str_index "{" (str_drop start text) with
    | None => Err (Errorf "macro %s is missing a body" [])
    | Some open =>
      let openIndex := (start + open)%nat in
      closeIndex ← findMatchingBrace text openIndex;
      Ok (str_take (closeIndex - S openIndex) (str_drop (S openIndex) text))
    end
  end.

Definition responseTypeName (responseType : string) : string :=
  let value := trim_space responseType in
  let value := replace_all value "crate::protocol::" "" in
  let value := replace_all value "crate::" "" in
  let value := replace_all value "super::" "" in
  match str_last_index "::" value with
  | Some idx => str_drop (idx + 2) value
  | None => value
  end.

(** [strings.ToLower] of a byte of ASCII. *)
Definition lower (c : ascii) : ascii :=
  let n := nat_of_ascii c in if ((65 <=? n) && (n <=? 90))%nat then ascii_of_nat (n + 32) else c.

Definition client_macro := "client_request_definitions".
Definition server_macro := "server_request_definitions".

(** The wire name of an entry: explicit, or by camelCase in the server macro. *)
Definition wire_name (macroName : string) (named : captures) : string :=
  let wire := group named "wire" in
  if String.eqb wire "" && String.eqb macroName server_macro then
    match group named "variant" with String c rest => String (lower c) rest | EmptyString => "" end
  else wire.

(** One match of a macro body. *)
Definition add_mapping (macroName : string) (mappings : gmap string requestMapping) (named : captures)
    : res (gmap string requestMapping) :=
  let wire := wire_name macroName named in
  if String.eqb wire "" then Ok mappings
  else match find responseEntryRE (group named "body") with
       | None => Ok mappings
       | Some (response, _) =>
         match mappings !! wire with
         | Some _ => Err (Errorf "duplicate response mapping for %q" [])
         | None => Ok (<[wire := {| variant := group named "variant";
                                    responseType := responseTypeName (group response "type");
                                    macroName := macroName |}]> mappings)
         end
       end.

Fixpoint add_mappings (macroName : string) (l : list captures) (mappings : gmap string requestMapping)
    : res (gmap string requestMapping) :=
  match l with
  | [] => Ok mappings
  | named :: l' => mappings ← add_mapping macroName mappings named; add_mappings macroName l' mappings
  end.

Fixpoint parse_macros (macros : list string) (body : string) (mappings : gmap string requestMapping)
    : res (gmap string requestMapping) :=
  match macros with
  | [] => Ok mappings
  | macroName :: macros' =>
    macroBody ← extractMacroBody body macroName;
    mappings ← add_mappings macroName (FindAll requestEntryRE macroBody) mappings;
    parse_macros macros' body mappings
  end.

Section commonrs.
Context {Sys : System}.

Definition parseRequestMappings (p : path) : D (gmap string requestMapping) :=
  text ← ReadFile p;
  of_res (parse_macros [client_macro; server_macro] text ∅).

(** The sidecar is the path of [commonRS] with a suffix. *)
Definition sidecar (commonRS : path) : path := dir commonRS ++ [List.last commonRS "" +:+ ".source_sha"].

Definition loadCommonRSSourceSHA (commonRS : path) (explicit : string) : D string :=
  if negb (String.eqb explicit "") then mret explicit
  else raw ← attempt (ReadFile (sidecar commonRS));
       match raw with
       | Ok raw => mret (trim_space raw)
       | Err e => if is_not_exist e then mret "" else fail e
       end.

Definition SourceIntegrity (e : error) : error := Typed SourceIntegrityT [e].

(** [git_show repo ref] is the output of git for [ref:commonRSRef]. *)
Definition verifyCommonRSProvenance (git_show : path -> string -> res string) (commonRS : path)
    (sourceSHA targetSHA : string) (codexRepo : option path) : D unit :=
  if String.eqb sourceSHA "" then fail (SourceIntegrity (Errorf "common.rs source SHA is required" []))
  else if negb (String.eqb sourceSHA targetSHA)
  then fail (SourceIntegrity (Errorf "common.rs source SHA %s does not match target %s" []))
  else match codexRepo with
       | None => mret tt
       | Some repo =>
         out ← wrap_err "git show %s:%s: %w" (of_res (git_show repo targetSHA));
         got ← ReadFile commonRS;
         guard (negb (String.eqb out got)) (SourceIntegrity (Errorf "common.rs content does not match %s:%s" []))
       end.
End commonrs.

(** * The braces that match *)

(** The rest of a string literal, to its closing quote. *)
Inductive literal_rest : string -> Prop :=
| lr_end : literal_rest (String quote "")
| lr_escape c l : literal_rest l -> literal_rest (String "\" (String c l))
| lr_char c l : c <> "\"%char -> c <> quote -> literal_rest l -> literal_rest (String c l).

(** A text whose braces, outside its string literals, are balanced. *)
Inductive balanced : string -> Prop :=
| b_nil : balanced ""
| b_char c s : c <> quote -> c <> "{"%char -> c <> "}"%char -> balanced s -> balanced (String c s)
| b_literal l s : literal_rest l -> balanced s -> balanced (String quote (l +:+ s))
| b_block b s : balanced b -> balanced s -> balanced (String "{" (b +:+ String "}" s)).

Lemma ch_refl c : ch c c = true.
Proof. apply Ascii.eqb_refl. Qed.
Lemma ch_ne c x : x <> c -> ch c x = false.
Proof. intros H. apply Ascii.eqb_neq. congruence. Qed.
Lemma ch_true c x : ch c x = true -> x = c.
Proof. by intros <-%Ascii.eqb_eq. Qed.
Lemma ch_false c x : ch c x = false -> x <> c.
Proof. intros H%Ascii.eqb_neq. congruence. Qed.

Lemma scan_at i j s d inString escape : i = j -> scan_braces s i d inString escape = scan_braces s j d inString escape.
Proof. by intros ->. Qed.

Lemma scan_literal l : literal_rest l -> forall rest i d,
  scan_braces (l +:+ rest) i d true false = scan_braces rest (i + String.length l) d false false.
Proof.
  induction 1 as [|c l _ IH|c l H1 H2 _ IH]; intros rest i d.
  - rewrite app_String, app_Empty. cbn [scan_braces]. change (ch "\" quote) with false. rewrite ch_refl.
    apply scan_at. simpl. lia.
  - rewrite !app_String. cbn [scan_braces]. rewrite ch_refl, IH. apply scan_at. simpl. lia.
  - rewrite app_String. cbn [scan_braces]. rewrite !ch_ne, IH by done. apply scan_at. simpl. lia.
Qed.

Lemma scan_balanced b : balanced b -> forall rest i d, (0 < d)%Z ->
  scan_braces (b +:+ rest) i d false false = scan_braces rest (i + String.length b) d false false.
Proof.
  induction 1 as [|c s H1 H2 H3 _ IH|l s Hl _ IH|b s _ IHb _ IHs]; intros rest i d Hd.
  - rewrite app_Empty. apply scan_at. simpl. lia.
  - rewrite app_String. cbn [scan_braces]. rewrite !ch_ne, IH by done. apply scan_at. simpl. lia.
  - rewrite app_String, str_app_assoc. cbn [scan_braces]. rewrite ch_refl, (scan_literal l Hl), IH by done.
    apply scan_at. cbn [String.length]. rewrite str_length_app. lia.
  - rewrite app_String, str_app_assoc, app_String. cbn [scan_braces]. change (ch quote "{") with false.
    rewrite ch_refl, IHb by lia. cbn [scan_braces]. change (ch quote "}") with false. change (ch "{" "}") with false.
    rewrite ch_refl. replace (d + 1 - 1)%Z with d by lia. destruct (Z.eqb_spec d 0); [lia|].
    rewrite IHs by done. apply scan_at. cbn [String.length]. rewrite str_length_app. cbn [String.length]. lia.
Qed.

Lemma scan_literal_inv s : forall i d esc j, scan_braces s i d true esc = Ok j ->
  exists l r, s = l +:+ r /\ scan_braces r (i + String.length l) d false false = Ok j /\
    if esc then exists c l', l = String c l' /\ literal_rest l' else literal_rest l.
Proof.
  induction s as [|c s IH]; intros i d esc j; cbn [scan_braces]; [done|]. destruct esc.
  - intros (l & r & -> & Hr & Hl)%IH. exists (String c l), r. split; [done|]. split; [|by exists c, l].
    rewrite <- Hr. apply scan_at. simpl. lia.
  - destruct (ch "\" c) eqn:E1; [apply ch_true in E1 as ->|destruct (ch quote c) eqn:E2].
    + intros (l & r & -> & Hr & (x & l' & -> & Hl))%IH. exists (String "\" (String x l')), r.
      split; [done|]. split; [|by constructor]. rewrite <- Hr. apply scan_at. simpl. lia.
    + apply ch_true in E2 as ->. intros H. exists (String quote ""), s. split; [done|]. split; [|constructor].
      rewrite <- H. apply scan_at. simpl. lia.
    + intros (l & r & -> & Hr & Hl)%IH. exists (String c l), r. split; [done|].
      split; [|constructor; [by apply ch_false | by apply ch_false | done]]. rewrite <- Hr. apply scan_at. simpl. lia.
Qed.

(** A scan that ends reached the brace that closes its block. *)
Lemma scan_inv n s i d j : (String.length s <= n)%nat -> (0 < d)%Z -> scan_braces s i d false false = Ok j ->
  exists b r, s = b +:+ String "}" r /\ balanced b /\
    (if (d =? 1)%Z then j = (i + String.length b)%nat
     else scan_braces r (i + String.length b + 1) (d - 1) false false = Ok j).
Proof.
  revert s i d. induction n as [|n IH]; intros s i d Hn Hd.
  - destruct s; [done | simpl in Hn; lia].
  - destruct s as [|c s]; [done|]. cbn [String.length] in Hn. cbn [scan_braces].
    destruct (ch quote c) eqn:E1; [apply ch_true in E1 as ->|destruct (ch "{" c) eqn:E2;
      [apply ch_true in E2 as ->|destruct (ch "}" c) eqn:E3; [apply ch_true in E3 as ->|]]].
    + intros (l & r & -> & Hr & Hl)%scan_literal_inv. rewrite str_length_app in Hn.
      apply IH in Hr as (b & r' & -> & Hb & Hj); [|lia|done]. exists (String quote (l +:+ b)), r'.
      split; [by rewrite app_String, str_app_assoc|]. split; [by constructor|].
      cbn [String.length]. rewrite str_length_app. destruct (d =? 1)%Z; [lia|]. rewrite <- Hj. apply scan_at. lia.
    + intros H. apply IH in H as (b & r & -> & Hb & H); [|lia|lia]. destruct (Z.eqb_spec (d + 1) 1); [lia|].
      rewrite str_length_app in Hn. cbn [String.length] in Hn.
      replace (d + 1 - 1)%Z with d in H by lia. apply IH in H as (b2 & r2 & -> & Hb2 & H); [|lia|done].
      exists (String "{" (b +:+ String "}" b2)), r2. split; [by rewrite app_String, str_app_assoc, app_String|].
      split; [by constructor|]. cbn [String.length]. rewrite str_length_app. cbn [String.length].
      destruct (d =? 1)%Z; [lia|]. rewrite <- H. apply scan_at. lia.
    + intros H. exists "", s. split; [done|]. split; [constructor|]. cbn [String.length].
      destruct (Z.eqb_spec (d - 1) 0), (Z.eqb_spec d 1); try lia; [injection H; lia|]. rewrite <- H. apply scan_at. lia.
    + intros H. apply IH in H as (b & r & -> & Hb & H); [|lia|done]. exists (String c b), r. split; [done|].
      split; [constructor; [by apply ch_false.. | done]|]. cbn [String.length].
      destruct (d =? 1)%Z; [lia|]. rewrite <- H. apply scan_at. lia.
Qed.

Lemma findMatchingBrace_spec pre s c :
  findMatchingBrace (pre +:+ String "{" s) (String.length pre) = Ok c <->
  exists b r, s = b +:+ String "}" r /\ balanced b /\ c = (String.length pre + 1 + String.length b)%nat.
Proof.
  unfold findMatchingBrace. rewrite str_drop_app. cbn [scan_braces]. change (ch quote "{") with false. rewrite ch_refl. split.
  - intros (b & r & -> & Hb & ->)%(scan_inv (String.length s)); [|done|done].
    exists b, r. split; [done|]. split; [done|]. lia.
  - intros (b & r & -> & Hb & ->). rewrite scan_balanced by done. cbn [scan_braces]. simpl. f_equal. lia.
Qed.

Lemma str_index_char c s : str_index (String c "") s = index_byte c s.
Proof.
  induction s as [|x s IH]; [done|]. cbn [str_index index_byte has_prefix]. rewrite IH, andb_true_r.
  rewrite Ascii.eqb_sym. by destruct (Ascii.eqb x c), (index_byte c s).
Qed.

Lemma str_take_drop n s : s = str_take n s +:+ str_drop n s.
Proof. revert s. induction n as [|n IH]; intros [|c s]; try done. simpl. rewrite app_String. by rewrite <- IH. Qed.

Lemma str_take_length n s : (n <= String.length s)%nat -> String.length (str_take n s) = n.
Proof. revert s. induction n as [|n IH]; intros [|c s] H; simpl in *; try lia. rewrite IH; lia. Qed.

Lemma str_index_bound sub s i : str_index sub s = Some i -> (i <= String.length s)%nat.
Proof.
  revert i. induction s as [|c s IH]; intros i; cbn [str_index].
  - destruct (has_prefix sub ""); [by intros [= <-]|done].
  - destruct (has_prefix sub _); [intros [= <-]; lia|].
    intros (j & Hj%IH & ->)%fmap_Some. simpl. lia.
Qed.

Lemma slice_body pre b r :
  str_take (String.length pre + 1 + String.length b - S (String.length pre))
    (str_drop (S (String.length pre)) (pre +:+ String "{" (b +:+ r))) = b.
Proof.
  replace (String.length pre + 1 + String.length b - S (String.length pre))%nat with (String.length b) by lia.
  replace (S (String.length pre)) with (String.length pre + 1)%nat by lia.
  rewrite str_drop_app_ge. apply str_take_app.
Qed.

(** C36: The body of a macro is what stands between the first brace after the
    macro's name and the brace that matches it, string literals apart: the
    text between is balanced; and such a body is always found. *)
Theorem extractMacroBody_spec (text name body : string) :
  extractMacroBody text name = Ok body <->
  exists start before middle after,
    str_index (name +:+ "!") text = Some start /\ String.length before = start /\
    text = before +:+ middle +:+ String "{" (body +:+ String "}" after) /\
    index_byte "{" middle = None /\ balanced body.
Proof.
  unfold extractMacroBody. destruct (str_index (name +:+ "!") text) as [start|] eqn:Es.
  2: { split; [done | by intros (? & ? & ? & ? & [=] & _)]. }
  pose proof (str_take_drop start text) as Htext. pose proof (str_take_length start text (str_index_bound _ _ _ Es)) as Hlen.
  set (before := str_take start text) in *. set (tail := str_drop start text) in *. clearbody before tail. subst start text.
  rewrite str_index_char. split.
  - destruct (index_byte "{" tail) as [open|] eqn:Ei; [|done].
    apply index_byte_Some in Ei as (middle & s & -> & <- & Hm). intros H.
    rewrite <- str_app_assoc, <- str_length_app in H. apply bind_Ok in H as (close & Hclose & H).
    apply findMatchingBrace_spec in Hclose as (b & r & -> & Hb & ->). rewrite slice_body in H. injection H as <-.
    exists (String.length before), before, middle, r. done.
  - intros (start & before' & middle & after & [= <-] & Hl & Ht & Hm & Hb).
    assert (before' = before /\ tail = middle +:+ String "{" (body +:+ String "}" after)) as [-> ->].
    { clear -Hl Ht. revert before' Hl Ht. induction before as [|c before IH]; intros [|c' before']; simpl; try done.
      rewrite !app_String. intros [= Hl] [= <- Ht]. by destruct (IH before' Hl Ht) as [-> ->]. }
    rewrite (index_byte_app_None "{" middle _ Hm). change (index_byte "{" (String "{" ?x)) with (Some 0%nat).
    cbn [fmap option_fmap option_map]. rewrite Nat.add_0_r, <- str_app_assoc, <- str_length_app.
    rewrite (proj2 (findMatchingBrace_spec (before +:+ middle) (body +:+ String "}" after) _)) by eauto.
    cbn [mbind res_bind]. by rewrite slice_body.
Qed.

(** A macro with an entry of each form. *)
Definition sample_source : string :=
  let q := String quote "" in let nl := String newline "" in
  "client_request_definitions! {" +:+ nl +:+
  "  /// doc }" +:+ q +:+ "{" +:+ q +:+ nl +:+
  "  ThreadStart => " +:+ q +:+ "thread/start" +:+ q +:+ " {" +:+ nl +:+
  "    params: v2::ThreadStartParams," +:+ nl +:+ "    response: crate::protocol::v2::ThreadStartResponse," +:+ nl +:+ "  }," +:+ nl +:+ "}" +:+ nl +:+
  "server_request_definitions! {" +:+ nl +:+
  "  ApplyPatch {" +:+ nl +:+ "    response: ApplyPatchResponse," +:+ nl +:+ "  }," +:+ nl +:+ "}".

Example sample_mappings :
  (fun m => map_to_list m) <$> parse_macros [server_macro] sample_source ∅ =
  Ok [("applyPatch", {| variant := "ApplyPatch"; responseType := "ApplyPatchResponse"; macroName := server_macro |})].
Proof. vm_compute. reflexivity. Qed.
