(* ===== verification/Manifest.v ===== *)
(** The classified manifest and the coverage matrix of a baseline, derived from
    its schemas: [src/codexsdk/internal/protocolupgrade/manifest.go] and
    [current_facts.go], with the checks of a manifest by the generator's loader
    ([src/codexsdk/internal/protocolgen/manifest.go]). *)

From Stdlib Require Import Ascii.
From stdpp Require Import pretty.
From S2P Require Import Prelude GoStrings JsonLex Json Envelope Disk Drift Surface Regex CommonRS.

Local Open Scope string_scope.
Local Open Scope list_scope.

(** * Naming tables *)

Definition familyAccessors : gmap string string := list_to_map
  [("account", "Accounts()"); ("app", "Apps()"); ("applyPatchApproval", "ServerRequests()");
   ("collaborationMode", "CollaborationModes()"); ("command", "Commands()"); ("config", "Config()");
   ("configRequirements", "ConfigRequirements()"); ("configWarning", "ServerNotifications()");
   ("deprecationNotice", "ServerNotifications()"); ("error", "ServerNotifications()");
   ("execCommandApproval", "ServerRequests()"); ("experimentalFeature", "ExperimentalFeatures()");
   ("externalAgentConfig", "ExternalAgentConfigs()"); ("feedback", "Feedback()"); ("fs", "FS()");
   ("fuzzyFileSearch", "FuzzyFileSearch()"); ("guardianWarning", "ServerNotifications()"); ("hook", "Hooks()");
   ("hooks", "Hooks()"); ("initialize", "Initialize()"); ("initialized", "ClientNotifications()");
   ("marketplace", "Marketplace()"); ("mcpServer", "MCPServers()"); ("mcpServerStatus", "MCPServerStatus()");
   ("memory", "Memory()"); ("mock", "Mock()"); ("model", "Models()"); ("modelProvider", "ModelProviders()");
   ("plugin", "Plugins()"); ("process", "Processes()"); ("remoteControl", "RemoteControl()"); ("review", "Reviews()");
   ("serverRequest", "ServerRequests()"); ("skills", "Skills()"); ("thread", "Threads()"); ("turn", "Turns()");
   ("warning", "ServerNotifications()"); ("windows", "Windows()"); ("windowsSandbox", "WindowsSandbox()");
   ("attestation", "ServerRequests()"); ("environment", "Environments()"); ("permissionProfile", "PermissionProfiles()")].

Definition rootOperationOverrides : gmap string string := list_to_map [("fuzzyFileSearch", "Search")].

Definition rootInternalOverrides : gmap string string := list_to_map
  [("initialize", "internal.InitializeHandshake.Request");
   ("initialized", "internal.InitializeHandshake.InitializedNotification")].

Definition publicFacadeNames : gmap string string := list_to_map
  [("config/mcpServer/reload", "Config().MCPServerReload");
   ("item/agentMessage/delta", "ServerNotifications().AgentMessageDelta");
   ("item/autoApprovalReview/completed", "ServerNotifications().ItemGuardianApprovalReviewCompleted");
   ("item/autoApprovalReview/started", "ServerNotifications().ItemGuardianApprovalReviewStarted");
   ("item/commandExecution/outputDelta", "ServerNotifications().CommandExecutionOutputDelta");
   ("item/commandExecution/terminalInteraction", "ServerNotifications().TerminalInteraction");
   ("item/fileChange/outputDelta", "ServerNotifications().FileChangeOutputDelta");
   ("item/fileChange/patchUpdated", "ServerNotifications().FileChangePatchUpdated");
   ("item/mcpToolCall/progress", "ServerNotifications().McpToolCallProgress");
   ("item/plan/delta", "ServerNotifications().PlanDelta");
   ("item/reasoning/summaryPartAdded", "ServerNotifications().ReasoningSummaryPartAdded");
   ("item/reasoning/summaryTextDelta", "ServerNotifications().ReasoningSummaryTextDelta");
   ("item/reasoning/textDelta", "ServerNotifications().ReasoningTextDelta");
   ("mcpServer/oauth/login", "MCPServers().OAuthLogin");
   ("mcpServer/startupStatus/updated", "ServerNotifications().McpServerStatusUpdated");
   ("process/resizePty", "Processes().ResizePTY");
   ("thread/compacted", "ServerNotifications().ContextCompacted")].

Definition facadeTargetRE (s : string) : bool := match facadeCaptureRE s with Some _ => true | None => false end.

(** * Names *)

Record aggregateEntry := {
  aggregate : string; ae_index : nat; method : string; paramsRef : string; schemaTitle : string }.

(** [tokenRE.FindAllString]: the runs of letters and digits; [cur] is the run being read. *)
Fixpoint token_runs (cur s : string) : list string :=
  match s with
  | EmptyString => if String.eqb cur "" then [] else [cur]
  | String c s' =>
    if is_alnum c then token_runs (cur +:+ String c "") s'
    else if String.eqb cur "" then token_runs "" s' else cur :: token_runs "" s'
  end.

Definition upper (c : ascii) : ascii :=
  let n := nat_of_ascii c in if ((97 <=? n) && (n <=? 122))%nat then ascii_of_nat (n - 32) else c.
Definition capitalized (s : string) : string :=
  match s with String c s' => String (upper c) s' | EmptyString => "" end.
Definition pascalCase (value : string) : string := str_join "" (map capitalized (token_runs "" value)).

Fixpoint trim_first (suffixes : list string) (title : string) : string :=
  match suffixes with
  | [] => title
  | suffix :: rest =>
    if has_suffix suffix title then str_take (String.length title - String.length suffix) title
    else trim_first rest title
  end.
Definition titleVariant (title : string) : string := pascalCase (trim_first ["Request"; "Notification"] title).

(** [strings.SplitN(s, "/", 2)] *)
Definition split_slash (s : string) : string * option string :=
  match index_byte "/"%char s with
  | Some i => (str_take i s, Some (str_drop (S i) s))
  | None => (s, None)
  end.

Definition aggregateKindDirection (aggregate : string) : res (string * string) :=
  if String.eqb aggregate "ClientRequest.json" then Ok ("client_to_server", "request")
  else if String.eqb aggregate "ServerRequest.json" then Ok ("server_to_client", "request")
  else if String.eqb aggregate "ServerNotification.json" then Ok ("server_to_client", "notification")
  else if String.eqb aggregate "ClientNotification.json" then Ok ("client_to_server", "notification")
  else Err (Errorf "unsupported aggregate schema: %s" []).

Definition facadeTarget (entry : aggregateEntry) (direction kind : string) (mapping : option requestMapping) : string :=
  match rootInternalOverrides !! method entry with
  | Some override => override
  | None =>
    match publicFacadeNames !! method entry with
    | Some name => name
    | None =>
      let variant := match mapping with Some m => CommonRS.variant m | None => titleVariant (schemaTitle entry) end in
      if String.eqb direction "server_to_client" && String.eqb kind "request" then "ServerRequests()." +:+ variant
      else if String.eqb direction "server_to_client" && String.eqb kind "notification"
      then "ServerNotifications()." +:+ titleVariant (schemaTitle entry)
      else if String.eqb direction "client_to_server" && String.eqb kind "notification"
      then "ClientNotifications()." +:+ titleVariant (schemaTitle entry)
      else
        let (family, rest) := split_slash (method entry) in
        let accessor :=
          let known := default "" (familyAccessors !! family) in
          if String.eqb known "" then pascalCase family +:+ "()" else known in
        match rootOperationOverrides !! method entry with
        | Some operation => accessor +:+ "." +:+ operation
        | None => accessor +:+ "." +:+ pascalCase (default (method entry) rest)
        end
    end
  end.

(** * Reading JSON *)

Record coverageFile := {
  c_Description : string; Fields : list item; Methods : list item; c_SchemaVersion : Z; c_Status : string;
  Types : list item; c_ValidStatuses : list string }.

(** The encodings of the standard library, and its clock. *)
Class ManifestTexts := {
  float64_text : string -> res string;
  encode_any : JSONValue -> string;
  decode_manifest : string -> res manifestFile;
  encode_manifest : manifestFile -> string;
  decode_coverage : string -> res coverageFile;
  encode_coverage : coverageFile -> string;
  time : Type;
  is_zero_time : time -> bool;
  truncate_second : time -> time;
  format_time : time -> string;
  parse_time : string -> option time;
  time_now : nat -> time
}.

Definition manifestIssue (p format : string) : error := Typed (IncompatibilityT "manifest" p) [Errorf format []].

(** [filepath.Base] without its extension. *)
Definition base_name (rel : string) : string :=
  let base := path_base rel in str_take (String.length base - String.length (path_ext base)) base.

Definition oneOf (aggregate : string) (index : nat) : string := aggregate +:+ "#/oneOf/" +:+ pretty index.

Section reading.
Context {Sys : System} {Txt : Texts} {MT : ManifestTexts}.

(** [json.Unmarshal] into [any]: one value and nothing after it, numbers as float64. *)
Definition unmarshal_any (raw : string) : res JSONValue :=
  let fix rounded (l : list lexeme) : res (list lexeme) :=
    match l with
    | [] => Ok []
    | LNum x :: l' => y ← float64_text x; rest ← rounded l'; Ok (LNum y :: rest)
    | x :: l' => rest ← rounded l'; Ok (x :: rest)
    end in
  match scan_value TTop [] [] (lex raw) with
  | Some (value, []) => lexemes ← rounded value; build_any lexemes []
  | _ => Err syntax_error
  end.

(** ... and into [map[string]any]; null is the nil map. *)
Definition unmarshal_object (raw : string) : res (option item) :=
  value ← unmarshal_any raw;
  match value with
  | JSONObj m => Ok (Some m)
  | JSONNull => Ok None
  | _ => Err type_error
  end.

Definition loadJSON {A} (decode : string -> res A) (p : path) : D A :=
  raw ← ReadFile p; wrap_err "decode %s: %w" (of_res (decode raw)).

Definition load_object (p : path) : D item := o ← loadJSON unmarshal_object p; mret (default ∅ o).

Definition writeJSON_file (p : path) (text : string) : D unit := WriteFile p text.

Definition typeNameFromSchema (p : path) : D string :=
  data ← load_object p;
  let title := get_str data "title" in
  mret (if String.eqb title "" then base_name (List.last p "") else title).

(** [add]: one path per type name. *)
Definition add_type (out : gmap string string) (name p : string) : res (gmap string string) :=
  let previous := default "" (out !! name) in
  if negb (String.eqb previous "") && negb (String.eqb previous p)
  then Err (manifestIssue p "ambiguous schema type %s: %s and %s")
  else Ok (<[name := p]> out).

Fixpoint add_names (files : list string) (out : gmap string string) : res (gmap string string) :=
  match files with
  | [] => Ok out
  | rel :: files' => out ← add_type out (base_name rel) rel; add_names files' out
  end.

Fixpoint add_titles (root : path) (files : list string) (out : gmap string string) : D (gmap string string) :=
  match files with
  | [] => mret out
  | rel :: files' =>
    data ← load_object (join root rel);
    let title := get_str data "title" in
    out ← (if String.eqb title "" then mret out else of_res (add_type out title rel));
    add_titles root files' out
  end.

Definition schemaTypeIndex (root : path) : D (gmap string string) :=
  files ← schemaFiles root;
  out ← of_res (add_names files ∅);
  add_titles root files out.

Definition aggregate_entries (aggregate : string) (variants : list Drift.variant) : list aggregateEntry :=
  omap id (imap (fun i v =>
    match Enum v with
    | [] => None
    | m :: _ => Some {| aggregate := aggregate; ae_index := i; method := m; paramsRef := params_Ref v; schemaTitle := Title v |}
    end) variants).

Definition loadAggregateEntries (root : path) (aggregate : string) : D (list aggregateEntry) :=
  variants ← loadJSON decode_variants (join root aggregate);
  mret (aggregate_entries aggregate variants).

(** * The manifest *)

(** The response facts of an entry: schema, status, type and mapping. *)
Definition response_facts (typePaths : gmap string string) (direction kind : string) (entry : aggregateEntry)
    (mapping : option requestMapping) : res (string * string * string * string) :=
  if negb (String.eqb kind "request")
  then Ok ("", "not_applicable", "", "not_applicable:notification_does_not_expect_response")
  else
    let issue format := Err (manifestIssue (oneOf (aggregate entry) (ae_index entry)) format) in
    match mapping with
    | None => issue "missing response mapping for request method %q"
    | Some m =>
      if String.eqb (responseType m) "" then issue "missing response mapping for request method %q"
      else if negb (String.eqb (macroName m) (if String.eqb direction "server_to_client" then server_macro else client_macro))
      then issue "response mapping for %q came from %s, want %s"
      else
        let responseSchema := default "" (typePaths !! responseType m) in
        if String.eqb responseSchema "" then issue "unable to resolve response schema for request method %q"
        else Ok (responseSchema, "declared", responseType m,
                 commonRSRef +:+ "#" +:+ macroName m +:+ "/" +:+ CommonRS.variant m)
    end.

Definition build_entry (typePaths : gmap string string) (mappings : gmap string requestMapping) (stable : list string)
    (sourceCommit agg direction kind : string) (entry : aggregateEntry) : res manifestEntry :=
  let mapping := mappings !! method entry in
  let paramsName := refName (paramsRef entry) in
  let is_stable := mem (method entry) stable in
  '(responseSchema, responseStatus, responseType, responseMapping) ← response_facts typePaths direction kind entry mapping;
  let target := facadeTarget entry direction kind mapping in
  Ok {| Direction := direction; FacadeTarget := target; Family := (split_slash (method entry)).1; Kind := kind;
        Method := method entry; ParamsOrPayloadSchema := paramsName; ResponseSchema := responseSchema;
        ResponseSchemaStatus := responseStatus; ResponseType := responseType; SchemaTitle := schemaTitle entry;
        SourceRef := list_to_map
          [("aggregate_pointer", oneOf agg (ae_index entry)); ("aggregate_schema", agg);
           ("baseline_source_commit", sourceCommit); ("facade_rule", "manifest_generation.json#facade_target_rule");
           ("params_or_payload_schema", default "" (typePaths !! paramsName));
           ("response_mapping", responseMapping); ("response_schema", responseSchema);
           ("stability", if is_stable then "present in schema generated without --experimental"
                         else "absent from schema generated without --experimental")];
        SourceSchema := agg;
        SourceVariant := match mapping with Some m => CommonRS.variant m | None => titleVariant (schemaTitle entry) end;
        Stability := if is_stable then "stable" else "experimental";
        StabilitySource := if is_stable then "present_in_stable_schema" else "experimental_only_in_schema";
        FacadeStatus := if String.eqb direction "client_to_server" && String.eqb kind "request" && facadeTargetRE target
                        then "generated" else "" |}.

Fixpoint map_res {A B} (f : A -> res B) (l : list A) : res (list B) :=
  match l with
  | [] => Ok []
  | x :: l' => y ← f x; ys ← map_res f l'; Ok (y :: ys)
  end.

Definition SourceIntegrityf (format : string) : error := Typed SourceIntegrityT [Errorf format []].

(** The entries of one aggregate. *)
Definition aggregate_manifest (root stableRoot : path) (typePaths : gmap string string)
    (mappings : gmap string requestMapping) (sourceCommit agg : string) : D (list manifestEntry) :=
  '(direction, kind) ← of_res (aggregateKindDirection agg);
  aggEntries ← loadAggregateEntries root agg;
  stableEntries ← wrap_err "load stable %s: %w" (loadAggregateEntries stableRoot agg);
  let complete := map method aggEntries in
  let stable := map method stableEntries in
  _ ← guard (negb (forallb (fun m => mem m complete) stable))
        (SourceIntegrityf "stable %s contains method %q absent from complete schema");
  of_res (map_res (build_entry typePaths mappings stable sourceCommit agg direction kind) aggEntries).

Definition entry_le (a b : manifestEntry) : bool := str_le (Method a) (Method b).

Definition buildManifest (root stableRoot : path) (old : manifestFile) (mappings : gmap string requestMapping)
    (sourceCommit : string) : D manifestFile :=
  if (SchemaVersion old <? 2)%Z then fail (Errorf "classified manifest schema_version must be at least 2" [])
  else
    typePaths ← schemaTypeIndex root;
    entries ← collect (aggregate_manifest root stableRoot typePaths mappings sourceCommit) aggregateSchemas;
    mret {| AggregateSchemas := aggregateSchemas;
            ClassificationSources := Some (str_map
              [("facade_target", "manifest_generation.json local naming rules plus protocolupgrade.publicFacadeNames");
               ("generated_surface", "exported Go identities compared between stable and complete candidate schemas");
               ("method_surface", "exact target complete and stable aggregate schemas");
               ("response_schema", "exact target common.rs request definition macros");
               ("source_ref", "exact target commit plus aggregate schema pointer");
               ("stability", "stable-vs-complete schema visibility at the same exact upstream commit")]);
            Description := if String.eqb (Description old) "" then "Classified app-server protocol manifest."
                           else Description old;
            Entries := sort_by entry_le (concat entries);
            Surface := Surface.Surface old;
            SchemaVersion := SchemaVersion old;
            m_Status := "classified-manifest" |}.
End reading.

(** * The generator's checks of a manifest ([LoadMethodFacts]) *)

Definition classifiedManifestStatus := "classified-manifest".

Definition check_kind (e : manifestEntry) : res unit :=
  if String.eqb (Kind e) "request" then
    guard_err (String.eqb (ResponseSchema e) "" || negb (String.eqb (ResponseSchemaStatus e) "declared"))
      (Errorf "request method %q missing declared response schema" [])
  else if String.eqb (Kind e) "notification" then
    guard_err (negb (String.eqb (ResponseSchema e) "") || negb (String.eqb (ResponseSchemaStatus e) "not_applicable"))
      (Errorf "notification method %q must have response_schema_status=not_applicable" [])
  else Err (Errorf "method %q has unsupported kind %q" []).

Definition incomplete (e : manifestEntry) : bool :=
  existsb (fun x => String.eqb x "") [Method e; Direction e; Kind e; Family e; FacadeTarget e; Stability e].

Fixpoint check_entries (seen : list string) (entries : list manifestEntry) : res unit :=
  match entries with
  | [] => Ok tt
  | e :: rest =>
    _ ← guard_err (incomplete e) (Errorf "manifest entry %q is missing required classification facts" []);
    _ ← guard_err (mem (Method e) seen) (Errorf "manifest method %q appears more than once" []);
    _ ← check_kind e;
    check_entries (Method e :: seen) rest
  end.

Definition checkMethodFacts (m : manifestFile) : res unit :=
  _ ← guard_err (negb (String.eqb (m_Status m) classifiedManifestStatus)) (Errorf "manifest status %q is not %q" []);
  _ ← guard_err (SchemaVersion m <? 2)%Z (Errorf "manifest schema_version %d is older than the classified surface contract" []);
  check_entries [] (Entries m).

(** * What a built manifest says *)

Section manifest.
Context {Sys : System} {Txt : Texts} {MT : ManifestTexts}.

(** The entries of an aggregate schema on the disk. *)
Definition entries_of (f : fs) (root : path) (agg : string) : list aggregateEntry :=
  match (raw ← read_node f (join root agg); decode_variants raw) with
  | Ok variants => aggregate_entries agg variants
  | Err _ => []
  end.

(** What an entry says of its method: where it stands, whether it is stable,
    and for a request the response its macro declares. *)
Definition classified (f : fs) (root stableRoot : path) (mappings : gmap string requestMapping) (e : manifestEntry) : Prop :=
  exists ae, SourceSchema e ∈ aggregateSchemas /\ ae ∈ entries_of f root (SourceSchema e) /\ Method e = method ae /\
    aggregateKindDirection (SourceSchema e) = Ok (Direction e, Kind e) /\
    (Stability e = "stable" <-> Method e ∈ map method (entries_of f stableRoot (SourceSchema e))) /\
    (FacadeStatus e = "generated" <-> Direction e = "client_to_server" /\ Kind e = "request" /\ facadeTargetRE (FacadeTarget e) = true) /\
    (Kind e = "request" -> ResponseSchema e <> "" /\ ResponseSchemaStatus e = "declared" /\
       exists m, mappings !! Method e = Some m /\ responseType m = ResponseType e /\
         macroName m = (if String.eqb (Direction e) "server_to_client" then server_macro else client_macro)) /\
    (Kind e <> "request" -> ResponseSchema e = "" /\ ResponseSchemaStatus e = "not_applicable") /\
    FacadeTarget e <> "" /\ Stability e <> "".

Lemma loadJSON_value {A} (decode : string -> res A) p a s s' : quiet Sys ->
  loadJSON decode p s = (Ok a, s') -> (raw ← read_node (files s) p; decode raw) = Ok a /\ files s' = files s.
Proof.
  intros Hq (raw & s1 & [Hr Ef]%look_Ok & [Hd ->]%D_wrap_err_Ok%D_of_res_inv)%D_bind_Ok; [|done].
  rewrite Hr. done.
Qed.

Lemma loadAggregateEntries_value root agg l s s' : quiet Sys ->
  loadAggregateEntries root agg s = (Ok l, s') -> l = entries_of (files s) root agg /\ files s' = files s.
Proof.
  intros Hq (v & s1 & [Hv Ef]%loadJSON_value & [= <- <-])%D_bind_Ok; [|done]. unfold entries_of. by rewrite Hv.
Qed.

Lemma loadJSON_reads {A} Q (decode : string -> res A) p : confined Q (loadJSON decode p).
Proof. unfold loadJSON, ReadFile. confine. Qed.
Lemma load_object_reads Q p : confined Q (load_object p).
Proof. unfold load_object. confine; apply loadJSON_reads. Qed.
Lemma add_titles_reads Q root l : forall out, confined Q (add_titles root l out).
Proof.
  induction l as [|rel l IH]; intros out; cbn [add_titles]; [apply confined_ret|].
  confine; first [apply load_object_reads | apply IH].
Qed.
Lemma schemaTypeIndex_reads Q root : confined Q (schemaTypeIndex root).
Proof. unfold schemaTypeIndex. confine. apply add_titles_reads. Qed.
Lemma aggregate_manifest_reads Q root stableRoot typePaths mappings c agg :
  confined Q (aggregate_manifest root stableRoot typePaths mappings c agg).
Proof. unfold aggregate_manifest, loadAggregateEntries. confine; apply loadJSON_reads. Qed.
Lemma buildManifest_reads Q root stableRoot old mappings c : confined Q (buildManifest root stableRoot old mappings c).
Proof.
  pose proof (schemaTypeIndex_reads Q root). pose proof (fun t => aggregate_manifest_reads Q root stableRoot t mappings c).
  unfold buildManifest. confine.
Qed.

Lemma map_res_Forall2 {A B} (f : A -> res B) l ys : map_res f l = Ok ys -> Forall2 (fun x y => f x = Ok y) l ys.
Proof.
  revert ys. induction l as [|x l IH]; intros ys; simpl; [intros [= <-]; constructor|].
  intros (y & Hy & (zs & Hzs%IH & [= <-])%bind_Ok)%bind_Ok. by constructor.
Qed.

Lemma response_facts_spec typePaths direction kind entry mapping schema status typ m :
  response_facts typePaths direction kind entry mapping = Ok (schema, status, typ, m) ->
  (kind = "request" -> schema <> "" /\ status = "declared" /\ exists mp, mapping = Some mp /\ responseType mp = typ /\
     macroName mp = (if String.eqb direction "server_to_client" then server_macro else client_macro)) /\
  (kind <> "request" -> schema = "" /\ status = "not_applicable").
Proof.
  unfold response_facts. destruct (String.eqb_spec kind "request") as [->|Hne]; cbn [negb].
  - destruct mapping as [mp|]; [|done]. destruct (String.eqb (responseType mp) ""); [done|].
    destruct (String.eqb_spec (macroName mp) (if String.eqb direction "server_to_client" then server_macro else client_macro))
      as [Hm|]; [|done]. cbn [negb].
    destruct (String.eqb_spec (default "" (typePaths !! responseType mp)) "") as [|Hs]; [done|].
    intros [= <- <- <- _]. split; [|done]. eauto 6.
  - intros [= <- <- _ _]. by split.
Qed.

Lemma str_append_nonempty a b : b <> "" -> a +:+ b <> "".
Proof. destruct a; [done | by rewrite app_String]. Qed.

Lemma table_nonempty (m : gmap string string) k v :
  map_Forall (fun _ v => v <> "") m -> m !! k = Some v -> v <> "".
Proof. intros H Hk. by apply (H k). Qed.

Lemma facadeTarget_nonempty entry direction kind mapping : facadeTarget entry direction kind mapping <> "".
Proof.
  unfold facadeTarget. destruct (rootInternalOverrides !! method entry) as [v|] eqn:E1.
  { apply (table_nonempty rootInternalOverrides _ _ ltac:(apply (bool_decide_unpack _); vm_compute; exact I) E1). }
  destruct (publicFacadeNames !! method entry) as [v|] eqn:E2.
  { apply (table_nonempty publicFacadeNames _ _ ltac:(apply (bool_decide_unpack _); vm_compute; exact I) E2). }
  repeat case_match; try done; apply str_append_nonempty; by rewrite app_String.
Qed.

Lemma build_entry_spec f root stableRoot typePaths mappings c agg direction kind ae e :
  agg ∈ aggregateSchemas -> ae ∈ entries_of f root agg -> aggregateKindDirection agg = Ok (direction, kind) ->
  build_entry typePaths mappings (map method (entries_of f stableRoot agg)) c agg direction kind ae = Ok e ->
  classified f root stableRoot mappings e /\ Method e = method ae.
Proof.
  intros Hagg Hae Hdk ([[[schema status] typ] mp] & Hr & [= <-])%bind_Ok. split; [|done].
  apply response_facts_spec in Hr as [Hreq Hnot]. exists ae. cbn [SourceSchema Method Direction Kind Stability FacadeStatus
    FacadeTarget ResponseSchema ResponseSchemaStatus ResponseType]. split_and!; try done.
  - destruct (mem _ _) eqn:E; [apply mem_true in E | apply mem_false in E]; naive_solver.
  - clear. destruct (facadeTargetRE _).
    all: destruct (String.eqb_spec direction "client_to_server"), (String.eqb_spec kind "request"); naive_solver.
  - apply facadeTarget_nonempty.
  - by destruct (mem _ _).
Qed.

(** The entries an aggregate contributes. *)
Definition contributes (root stableRoot : path) (mappings : gmap string requestMapping) (f : fs) (agg : string)
    (es : list manifestEntry) : Prop :=
  map Method es = map method (entries_of f root agg) /\
  map method (entries_of f stableRoot agg) ⊆ map method (entries_of f root agg) /\
  Forall (fun e => agg ∈ aggregateSchemas -> classified f root stableRoot mappings e) es.

Lemma aggregate_manifest_value root stableRoot typePaths mappings c agg es s s' : quiet Sys ->
  aggregate_manifest root stableRoot typePaths mappings c agg s = (Ok es, s') ->
  contributes root stableRoot mappings (files s) agg es /\ files s' = files s.
Proof.
  intros Hq ([direction kind] & s1 & [Hdk ->]%D_of_res_inv & H)%D_bind_Ok.
  apply D_bind_Ok in H as (aes & s2 & [-> E2]%loadAggregateEntries_value & H); [|done].
  apply D_bind_Ok in H as (stable & s3 & [-> E3]%D_wrap_err_Ok%loadAggregateEntries_value & H); [|done].
  apply D_bind_Ok in H as ([] & s4 & [Hsub ->]%D_guard_inv & [Hm ->]%D_of_res_inv). rewrite E2 in *.
  split; [|done]. apply map_res_Forall2 in Hm. unfold contributes. split_and!.
  - clear -Hm. induction Hm as [|ae e aes es He _ IH]; [done|]. cbn [map].
    apply bind_Ok in He as ([[[? ?] ?] ?] & _ & [= <-]). by rewrite IH.
  - apply negb_false_iff, forallb_Forall in Hsub. rewrite Forall_forall in Hsub. intros x Hx. by apply mem_true, Hsub.
  - apply Forall_forall. intros e He Hagg. apply list_elem_of_lookup in He as [i Hi].
    destruct (Forall2_lookup_r _ _ _ _ _ Hm Hi) as (ae & Hae & Hb). apply list_elem_of_lookup_2 in Hae.
    by destruct (build_entry_spec (files s) root stableRoot typePaths mappings c agg direction kind ae e Hagg Hae Hdk Hb).
Qed.

Lemma check_entries_spec seen es :
  Forall (fun e => check_kind e = Ok tt) es ->
  (check_entries seen es = Ok tt <->
   Forall (fun e => incomplete e = false) es /\ NoDup (map Method es) /\ Forall (fun e => Method e ∉ seen) es).
Proof.
  intros Hk. revert seen. induction Hk as [|e es He _ IH]; intros seen; cbn [check_entries map].
  - split; [by repeat constructor|done].
  - rewrite !Forall_cons, NoDup_cons. destruct (incomplete e); cbn [guard_err mbind res_bind];
      [split; [done | by intros [[? _] _]]|].
    destruct (mem (Method e) seen) eqn:Em; cbn [guard_err mbind res_bind].
    { apply mem_true in Em. split; [done | by intros (_ & _ & ? & _)]. }
    apply mem_false in Em. rewrite He. cbn [mbind res_bind]. rewrite IH. split.
    + intros (Hi & Hn & Hs). rewrite Forall_forall in Hs. split_and!; try done.
      * intros Hin. apply list_elem_of_fmap in Hin as (e' & Heq & He').
        apply (Hs e' He'). rewrite Heq. constructor.
      * apply Forall_forall. intros e' He' Hin. apply (Hs e' He'). by constructor.
    + intros ([_ Hi] & [Hnot Hn] & _ & Hs). split_and!; try done. rewrite Forall_forall in Hs |- *.
      intros e' He' [Heq|Hin]%elem_of_cons; [|by apply (Hs e')]. apply Hnot. rewrite <- Heq.
      apply list_elem_of_fmap. by exists e'.
Qed.

Lemma classified_facts f root stableRoot mappings e : classified f root stableRoot mappings e ->
  check_kind e = Ok tt /\ Direction e <> "" /\ Kind e <> "".
Proof.
  intros (ae & _ & _ & _ & Hdk & _ & _ & Hreq & Hnot & _). unfold aggregateKindDirection in Hdk. unfold check_kind.
  repeat case_match; simplify_eq/=; repeat match goal with H : _ = Direction e |- _ => rewrite <- H in * end;
    repeat match goal with H : _ = Kind e |- _ => rewrite <- H in * end; simpl in *; try done.
  all: try (destruct (Hreq eq_refl) as (Hs & -> & _); apply String.eqb_neq in Hs; rewrite Hs; done).
  all: destruct Hnot as [-> ->]; done.
Qed.

(** C37: A built manifest has one entry for each method of the four aggregate
    schemas.  Each is classified by where its method stands: stable exactly when
    the stable schema has it, with the response its request macro declares, and
    with a generated facade exactly when it is a client request with a facade
    name.  The generator's loader accepts the manifest exactly when the methods are
    distinct and have a family. *)
Theorem buildManifest_classifies (root stableRoot : path) (old : manifestFile) (mappings : gmap string requestMapping)
    (sourceCommit : string) (m : manifestFile) (s s' : disk) (Hq : quiet Sys)
    (H : buildManifest root stableRoot old mappings sourceCommit s = (Ok m, s')) :
  let f := files s in
  map Method (Entries m) ≡ₚ concat (map (fun agg => map method (entries_of f root agg)) aggregateSchemas) /\
  Forall (fun agg => map method (entries_of f stableRoot agg) ⊆ map method (entries_of f root agg)) aggregateSchemas /\
  Forall (classified f root stableRoot mappings) (Entries m) /\
  (checkMethodFacts m = Ok tt <->
     NoDup (map Method (Entries m)) /\ Forall (fun e => Method e <> "" /\ Family e <> "") (Entries m)).
Proof.
  unfold buildManifest in H. destruct (SchemaVersion old <? 2)%Z eqn:Ev; [done|].
  apply D_bind_Ok in H as (types & s1 & Ht & (es & s2 & He & [= <- _])%D_bind_Ok).
  destruct (reads_keep _ _ _ _ (schemaTypeIndex_reads _ _) Ht) as [_ Ef].
  apply (collect_value _ (contributes root stableRoot mappings)) in He as [He _];
    [|intros agg l t t'; by apply aggregate_manifest_value].
  rewrite (Ef Hq) in He. intros f. cbn [Entries].
  assert (Hc : Forall (classified f root stableRoot mappings) (sort_by entry_le (concat es))).
  { rewrite sort_by_perm. apply Forall_concat, Forall_forall. intros l Hl. apply list_elem_of_lookup in Hl as [i Hi].
    destruct (Forall2_lookup_r _ _ _ _ _ He Hi) as (agg & Hagg & _ & _ & Hl). apply list_elem_of_lookup_2 in Hagg.
    eapply Forall_impl; [exact Hl|]. intros e Hcl. by apply Hcl. }
  split; [|split; [|split; [done|]]].
  - rewrite sort_by_perm, concat_map. apply reflexive_eq. f_equal. clear -He. fold f in He.
    induction He as [|agg l aggs ls (Hl & _) _ IH]; [done|]. cbn [map]. by rewrite IH, Hl.
  - apply Forall_forall. intros agg Hagg. apply list_elem_of_lookup in Hagg as [i Hi].
    by destruct (Forall2_lookup_l _ _ _ _ _ He Hi) as (l & _ & _ & Hsub & _).
  - unfold checkMethodFacts. cbn [m_Status SchemaVersion Entries]. rewrite Ev. cbn [guard_err mbind res_bind].
    change (String.eqb "classified-manifest" classifiedManifestStatus) with true. cbn [negb guard_err mbind res_bind].
    rewrite check_entries_spec by (eapply Forall_impl; [exact Hc|]; intros e He'; by destruct (classified_facts _ _ _ _ _ He')).
    split.
    + intros (Hi & Hn & _). split; [done|]. eapply Forall_impl; [exact Hi|]. intros e He'.
      unfold incomplete in He'. cbn [existsb] in He'. reflect_bools. split; by apply String.eqb_neq.
    + intros [Hn Hm]. split_and!; [|done|apply Forall_true; intros e; apply not_elem_of_nil].
      rewrite Forall_forall in Hm, Hc |- *. intros e He'. destruct (Hm e He') as [H1 H2]. specialize (Hc e He').
      destruct (classified_facts _ _ _ _ _ Hc) as (_ & H3 & H4).
      destruct Hc as (ae & _ & _ & _ & _ & _ & _ & _ & _ & H5 & H6).
      unfold incomplete. cbn [existsb]. by rewrite !(proj2 (String.eqb_neq _ _)).
Qed.
End manifest.

(** Encodings for the examples: numbers as they are, one time. *)
Definition sample_manifest : manifestFile :=
  {| AggregateSchemas := []; ClassificationSources := None; Description := ""; Entries := []; Surface := [];
     SchemaVersion := 2; m_Status := "" |}.
Definition sample_coverage : coverageFile :=
  {| c_Description := ""; Fields := []; Methods := []; c_SchemaVersion := 1; c_Status := "";
     Types := [str_map [("schema", "A.json"); ("stability", "experimental"); ("note", "kept")]]; c_ValidStatuses := [] |}.
Definition sample_manifest_texts : ManifestTexts := {|
  float64_text := Ok; encode_any := fun _ => "any"; decode_manifest := fun _ => Ok sample_manifest;
  encode_manifest := fun _ => "manifest"; decode_coverage := fun _ => Ok sample_coverage;
  encode_coverage := fun _ => "coverage"; time := nat; is_zero_time := fun t => Nat.eqb t 0; truncate_second := id;
  format_time := fun t => pretty t; parse_time := fun _ => None; time_now := fun _ => 1%nat |}.

(** Schemas with one method each. *)
Definition sample_aggregates : fs := list_to_map
  [(["base"], Dir); (["base"; "ClientRequest.json"], File "x"); (["base"; "ServerRequest.json"], File "y");
   (["base"; "ServerNotification.json"], File "z"); (["base"; "ClientNotification.json"], File "z");
   (["base"; "Reply.json"], File "z");
   (["stable"], Dir); (["stable"; "ClientRequest.json"], File "x"); (["stable"; "ServerRequest.json"], File "y");
   (["stable"; "ServerNotification.json"], File "z"); (["stable"; "ClientNotification.json"], File "z")].

Definition sample_reply_mappings : gmap string requestMapping := list_to_map
  [("x", {| CommonRS.variant := "X"; responseType := "Reply"; macroName := client_macro |});
   ("y", {| CommonRS.variant := "Y"; responseType := "Reply"; macroName := server_macro |})].

Definition sample_build : res manifestFile * disk :=
  @buildManifest calm sample_texts sample_manifest_texts ["base"] ["stable"] sample_manifest sample_reply_mappings "c0ffee"
    (disk_of sample_aggregates).

Example sample_build_entries :
  map (fun e => (Method e, FacadeTarget e, FacadeStatus e, ResponseSchema e)) (Entries (value_of sample_manifest sample_build.1))
  = [("x", "X().X", "generated", "Reply.json"); ("y", "ServerRequests().Y", "", "Reply.json");
     ("z", "ServerNotifications().", "", ""); ("z", "ClientNotifications().", "", "")].
Proof. vm_compute. reflexivity. Qed.

Lemma sample_build_ok : sample_build = (Ok (value_of sample_manifest sample_build.1), sample_build.2).
Proof. apply runs_ok. vm_compute. reflexivity. Qed.

Lemma buildManifest_classifies_witness :
  Forall (@classified sample_texts sample_aggregates ["base"] ["stable"] sample_reply_mappings)
    (Entries (value_of sample_manifest sample_build.1)).
Proof.
  exact (proj1 (proj2 (proj2 (@buildManifest_classifies calm sample_texts sample_manifest_texts ["base"] ["stable"]
    sample_manifest sample_reply_mappings "c0ffee" (value_of sample_manifest sample_build.1) (disk_of sample_aggregates)
    sample_build.2 calm_quiet sample_build_ok)))).
Defined.
