(* ===== verification/Coverage.v ===== *)
(** The coverage matrix and the metadata of a baseline, and the copy of the
    candidate's schemas: the second half of
    [src/codexsdk/internal/protocolupgrade/manifest.go], and
    [current_facts.go]. *)

From Stdlib Require Import Ascii.
From stdpp Require Import pretty.
From S2P Require Import Prelude GoStrings JsonLex Json Disk Drift Surface Manifest.

Local Open Scope string_scope.
Local Open Scope list_scope.

(** * Facts for the generator *)

Record CoverageType := { ct_Schema : string; ct_Stability : string; ct_Status : string; ct_Type : string }.
Record CoverageField := {
  cf_Field : string; cf_Path : string; cf_Required : bool; cf_Schema : string; cf_Stability : string;
  cf_Status : string; cf_Type : string }.
Record CoverageMatrix := { cm_Fields : list CoverageField; cm_Status : string; cm_Types : list CoverageType }.

(** The facts of the current derivation, apart from the annotations kept from
    the old matrix. *)
Record derivedCoverage := { coverage : coverageFile; facts : CoverageMatrix }.

Definition get_bool (i : item) (key : string) : bool :=
  match i !! key with Some (JSONBool b) => b | _ => false end.
Definition get_object (i : item) (key : string) : item :=
  match i !! key with Some (JSONObj m) => m | _ => ∅ end.

Definition coverageTypeFact (i : item) : CoverageType :=
  {| ct_Schema := get_str i "schema"; ct_Stability := get_str i "stability"; ct_Status := get_str i "status";
     ct_Type := get_str i "type" |}.
Definition coverageFieldFact (i : item) : CoverageField :=
  {| cf_Schema := get_str i "schema"; cf_Stability := get_str i "stability"; cf_Status := get_str i "status";
     cf_Type := get_str i "type"; cf_Field := get_str i "field"; cf_Path := get_str i "path";
     cf_Required := get_bool i "required" |}.

(** An exported identity of the generated package. *)
Record SurfaceEntry := {
  se_Kind : string; se_Name : string; se_Owner : string; se_Signature : string; se_Stability : string }.

(** The generator's view of a manifest. *)
Record ManifestFacts := {
  mf_Entries : list manifestEntry; mf_SchemaVersion : Z; mf_Surface : list SurfaceEntry; mf_Status : string }.

Definition method_fact (e : manifestEntry) : manifestEntry :=
  {| Direction := Direction e; FacadeStatus := FacadeStatus e; FacadeTarget := FacadeTarget e; Family := Family e;
     Kind := Kind e; Method := Method e; ParamsOrPayloadSchema := ParamsOrPayloadSchema e;
     ResponseSchema := ResponseSchema e; ResponseSchemaStatus := ResponseSchemaStatus e;
     ResponseType := ResponseType e; SourceSchema := SourceSchema e; Stability := Stability e;
     SchemaTitle := ""; SourceRef := ∅; SourceVariant := ""; StabilitySource := "" |}.
Definition methodFacts (m : manifestFile) : ManifestFacts :=
  {| mf_SchemaVersion := SchemaVersion m; mf_Status := m_Status m; mf_Entries := map method_fact (Entries m);
     mf_Surface := [] |}.

(** * Default items *)

Definition defaultMethodCoverage (entry : manifestEntry) : item := str_map
  [("direction", Direction entry);
   ("exit_condition", "Regenerate method registry and add handwritten facade coverage only if this upstream method becomes part of the public SDK surface.");
   ("kind", Kind entry); ("method", Method entry); ("owner", "codex-go-sdk");
   ("reason", "Generated protocolv2 method registry coverage for " +:+ Direction entry +:+ " " +:+ Kind entry +:+
              " method; no handwritten facade is claimed until explicitly added.");
   ("revisit_trigger", "protocolv2 generation or upstream schema drift");
   ("source_schema", SourceSchema entry); ("stability", Stability entry); ("status", "supported-generated")].

Definition type_item (schema typ stability : string) : item := str_map
  [("exit_condition", "Regenerate if upstream schema drift changes this generated protocol type.");
   ("owner", "codex-go-sdk"); ("reason", "Generated from the checked-in upstream app-server schema baseline.");
   ("revisit_trigger", "protocolv2 generation or upstream schema drift"); ("schema", schema);
   ("stability", stability); ("status", "supported-generated"); ("type", typ)].

Definition defaultFieldCoverage (schema typ field : string) (required : bool) (stability : string) : item :=
  <["required" := JSONBool required]> (str_map
    [("exit_condition", "Regenerate if upstream schema drift changes " +:+ typ +:+ "." +:+ field +:+ " semantics.");
     ("field", field); ("owner", "codex-go-sdk"); ("path", schema +:+ "#/properties/" +:+ field);
     ("reason", "Generated as a strict typed " +:+ typ +:+ " field.");
     ("revisit_trigger", "protocolv2 generation or upstream schema drift"); ("schema", schema);
     ("stability", stability); ("status", "supported-generated"); ("type", typ)]).

(** The string elements of [required]. *)
Definition requiredNames (data : item) : list string :=
  match data !! "required" with
  | Some (JSONArr l) => omap (fun v => match v with JSONString s => Some s | _ => None end) l
  | _ => []
  end.

(** [typ[key] = derived[key]] for each key. *)
Definition override (keys : list string) (derived base : item) : item :=
  fold_left (fun m key => match derived !! key with Some v => <[key := v]> m | None => <[key := JSONNull]> m end) keys base.

Definition type_keys : list string := ["schema"; "stability"; "status"; "type"].
Definition field_keys : list string := ["field"; "path"; "required"; "schema"; "stability"; "status"; "type"].

Definition bundle_schema (schema : string) : bool :=
  String.eqb schema "codex_app_server_protocol.schemas.json" || String.eqb schema "codex_app_server_protocol.v2.schemas.json".

Definition by_str (key : string) (a b : item) : bool := str_le (get_str a key) (get_str b key).

Section coverage.
Context {Sys : System} {Txt : Texts} {MT : ManifestTexts}.

Definition defaultTypeCoverage (root : path) (schema stability : string) : D item :=
  typ ← typeNameFromSchema (join root schema);
  mret (type_item schema typ stability).

(** The document and the fields of its object. *)
Definition topLevelObjectFields (root : path) (schema stability : string) : D (item * list item) :=
  data ← load_object (join root schema);
  match data !! "type", data !! "properties" with
  | Some (JSONString t), Some (JSONObj properties) =>
    if negb (String.eqb t "object") then mret (data, [])
    else
      let typ := let title := get_str data "title" in if String.eqb title "" then base_name schema else title in
      let required := requiredNames data in
      mret (data, map (fun name => defaultFieldCoverage schema typ name (mem name required) stability)
                    (sorted_keys properties))
  | _, _ => mret (data, [])
  end.

Definition stability_in (stablePaths : list string) (schema : string) : string :=
  if mem schema stablePaths then "stable" else "experimental".

(** The last old item with the value of a key; [or_empty]: also the empty value. *)
Definition old_item (key : string) (or_empty : bool) (old : list item) (value : string) : option item :=
  if String.eqb value "" && negb or_empty then None
  else List.find (fun i => String.eqb (get_str i key) value) (rev old).

Definition merged (keys : list string) (old : option item) (derived : item) : item :=
  match old with Some existing => override keys derived existing | None => derived end.

(** The type item of a schema: the derived one, and with the old annotations. *)
Definition type_coverage (root : path) (stablePaths : list string) (oldTypes : list item) (schema : string)
    : D (item * item) :=
  derived ← defaultTypeCoverage root schema (stability_in stablePaths schema);
  let derived := if bundle_schema schema then <["status" := JSONString "intentionally-unsupported"]> derived else derived in
  mret (derived, merged type_keys (old_item "schema" false oldTypes schema) derived).

(** A stable schema promises no property, and no requiredness, that the
    complete one does not. *)
Definition check_stable (stableData completeData : item) : res unit :=
  let stableProperties := get_object stableData "properties" in
  let completeProperties := get_object completeData "properties" in
  let completeRequired := requiredNames completeData in
  let stableRequired := requiredNames stableData in
  (fix check (names : list string) : res unit :=
     match names with
     | [] => Ok tt
     | name :: names' =>
       match completeProperties !! name with
       | None => Err (SourceIntegrityf "stable field %s#/properties/%s is absent from complete schema")
       | Some _ =>
         if negb (Bool.eqb (mem name completeRequired) (mem name stableRequired))
         then Err (SourceIntegrityf "stable field %s#/properties/%s requiredness differs from complete schema")
         else check names'
       end
     end) (map_to_list stableProperties).*1.

Definition field_coverage (root stableRoot : path) (stablePaths : list string) (oldFields : list item) (schema : string)
    : D (list (item * item)) :=
  '(completeData, generatedFields) ← topLevelObjectFields root schema (stability_in stablePaths schema);
  stableProperties ←
    (if mem schema stablePaths then
       stableData ← load_object (join stableRoot schema);
       _ ← of_res (check_stable stableData completeData);
       mret (get_object stableData "properties")
     else mret ∅);
  mret (map (fun field =>
    let field := match stableProperties !! get_str field "field" with
                 | Some _ => field
                 | None => <["stability" := JSONString "experimental"]> field
                 end in
    (field, merged field_keys (old_item "path" true oldFields (get_str field "path")) field)) generatedFields).

Definition buildCoverage (root stableRoot : path) (old : coverageFile) (manifest : manifestFile) : D derivedCoverage :=
  if negb (c_SchemaVersion old =? 1)%Z then fail (Errorf "coverage matrix schema_version must be 1" [])
  else
    let validStatuses := if nil_list (c_ValidStatuses old) then validCoverageStatuses else c_ValidStatuses old in
    let methods := map defaultMethodCoverage (Entries manifest) in
    schemaPaths ← schemaFiles root;
    stablePaths ← schemaFiles stableRoot;
    _ ← guard (negb (forallb (fun p => mem p schemaPaths) stablePaths))
          (SourceIntegrityf "stable schema %s is absent from complete candidate");
    types ← collect (type_coverage root stablePaths (Types old)) schemaPaths;
    fields ← collect (field_coverage root stableRoot stablePaths (Fields old)) schemaPaths;
    let fields := concat fields in
    mret {| facts := {| cm_Fields := map (fun f => coverageFieldFact f.1) fields; cm_Status := "classified-manifest";
                        cm_Types := map (fun t => coverageTypeFact t.1) types |};
            coverage :=
              {| c_Description := if String.eqb (c_Description old) ""
                   then "Coverage classification for the checked-in Codex app-server protocol baseline."
                   else c_Description old;
                 Fields := sort_by (by_str "path") (map snd fields);
                 Methods := sort_by (by_str "method") methods;
                 c_SchemaVersion := c_SchemaVersion old; c_Status := "classified-manifest";
                 Types := sort_by (by_str "schema") (map snd types);
                 c_ValidStatuses := validStatuses |} |}.

(** * Metadata *)

Definition updateManifestGeneration (p : path) (targetRef targetKind targetSHA : string) : D unit :=
  data ← load_object p;
  match data !! "inputs" with
  | Some (JSONObj inputs) =>
    let inputs := <["source_commit" := JSONString targetSHA]> (<["source_ref_kind" := JSONString targetKind]>
                    (<["source_ref_name" := JSONString targetRef]> inputs)) in
    WriteFile p (encode_any (JSONObj (<["inputs" := JSONObj inputs]> data)))
  | _ => fail (Errorf "manifest generation inputs must be an object" [])
  end.

(** [int(version) == 1] of a float64 as [unmarshal_any] keeps it. *)
Definition truncates_to_one (text : string) : bool := String.eqb text "1" || has_prefix "1." text.

Definition version_one (old : item) : bool :=
  match old !! "schema_version" with Some (JSONNum text) => truncates_to_one text | _ => false end.

(** [time.Now] for a time that is not set. *)
Definition unset_now (t : time) : D time := fun s =>
  (Ok (if is_zero_time t then time_now (clock s) else t), s).

Definition buildMetadata (root : path) (old : item) (targetRef targetKind targetSHA codexVersion : string)
    (generatedAt : time) : D item :=
  if negb (version_one old) then fail (Errorf "baseline metadata schema_version must be 1" [])
  else
    files ← schemaFiles root;
    bundle ← schemaBundleSHA256 root;
    generatedAt ← unset_now generatedAt;
    let generatedAt := truncate_second generatedAt in
    mret (<["aggregate_schemas" := JSONArr (map JSONString aggregateSchemas)]>
         (<["experimental_included" := JSONBool true]> (<["source_dirty" := JSONBool false]>
         (<["schema_file_count" := JSONNum (pretty (length files))]> (<["schema_version" := JSONNum "1"]>
         (str_map
           [("codex_binary", "codex"); ("codex_version", codexVersion); ("generated_at", format_time generatedAt);
            ("generation_command", "codex app-server generate-json-schema --experimental --out internal/protocolschema/appserver/v2");
            ("schema_bundle_sha256", bundle); ("schema_output_layout", "root JSON files plus v1/ and v2/");
            ("source_commit", targetSHA); ("source_license", "Apache-2.0"); ("source_ref_kind", targetKind);
            ("source_ref_name", targetRef); ("source_ref_url", "https://github.com/openai/codex/tree/" +:+ targetSHA);
            ("source_repo", sourceRepo); ("source_schema_command_ref", "codex app-server generate-json-schema");
            ("source_subdir", "codex-rs/app-server-protocol")])))))).

(** * Copying *)

Definition copyFileBytes (src dst : path) : D unit := raw ← ReadFile src; WriteFile dst raw.

Definition copyCandidateSchema (candidate baseline : path) : D unit :=
  current ← schemaFiles baseline;
  _ ← each (fun rel => Remove (join baseline rel)) current;
  files ← schemaFiles candidate;
  each (fun rel =>
    let dst := join baseline rel in
    _ ← MkdirAll (dir dst);
    copyFileBytes (join candidate rel) dst) files.
End coverage.

(** * The persisted matrix holds the current facts *)

Section coverage_facts.
Context {Sys : System} {Txt : Texts} {MT : ManifestTexts}.

Lemma override_lookup keys derived base k :
  k ∈ keys -> is_Some (derived !! k) -> override keys derived base !! k = derived !! k.
Proof.
  intros Hk [v Hv]. unfold override. revert base. induction keys as [|key keys IH]; intros base; [by apply not_elem_of_nil in Hk|].
  simpl. destruct (decide (k ∈ keys)) as [Hin|Hout]; [by apply IH|].
  apply elem_of_cons in Hk as [<-|]; [|done]. rewrite Hv.
  assert (H : forall m : item, m !! k = Some v -> fold_left (fun (m : item) key => match derived !! key with Some v0 => <[key := v0]> m | None => <[key := JSONNull]> m end) keys m !! k = Some v).
  { clear -Hout. induction keys as [|key keys IH]; [done|]. apply not_elem_of_cons in Hout as [Hne Hout].
    intros m Hm. simpl. apply IH; [done|]. by destruct (derived !! key); rewrite lookup_insert_ne. }
  apply H, lookup_insert_eq.
Qed.

Lemma merged_lookup keys old derived k :
  k ∈ keys -> is_Some (derived !! k) -> merged keys old derived !! k = derived !! k.
Proof. destruct old as [base|]; [|done]. apply override_lookup. Qed.

Lemma merged_str keys old derived k : k ∈ keys -> is_Some (derived !! k) -> get_str (merged keys old derived) k = get_str derived k.
Proof. intros Hk Hd. unfold get_str. by rewrite merged_lookup. Qed.
Lemma merged_bool keys old derived k : k ∈ keys -> is_Some (derived !! k) -> get_bool (merged keys old derived) k = get_bool derived k.
Proof. intros Hk Hd. unfold get_bool. by rewrite merged_lookup. Qed.

(** A derived item has every key of its facts. *)
Definition has_keys (keys : list string) (i : item) : Prop := Forall (fun k => is_Some (i !! k)) keys.

Lemma has_keys_lookup keys i k : has_keys keys i -> k ∈ keys -> is_Some (i !! k).
Proof. unfold has_keys. rewrite Forall_forall. auto. Qed.

Lemma has_keys_insert keys i k v : has_keys keys i -> has_keys keys (<[k := v]> i).
Proof.
  intros H. eapply Forall_impl; [exact H|]. intros x Hx. apply lookup_insert_is_Some'. by right.
Qed.

Lemma merged_type_fact old derived : has_keys type_keys derived -> coverageTypeFact (merged type_keys old derived) = coverageTypeFact derived.
Proof.
  intros H. assert (Hk : forall k, k ∈ type_keys -> get_str (merged type_keys old derived) k = get_str derived k)
    by (intros k Hk; apply merged_str; [done | by eapply has_keys_lookup]).
  unfold coverageTypeFact. rewrite !Hk by (apply (bool_decide_unpack _); vm_compute; exact I). done.
Qed.

Lemma merged_field_fact old derived : has_keys field_keys derived -> coverageFieldFact (merged field_keys old derived) = coverageFieldFact derived.
Proof.
  intros H. assert (Hk : forall k, k ∈ field_keys -> get_str (merged field_keys old derived) k = get_str derived k)
    by (intros k Hk; apply merged_str; [done | by eapply has_keys_lookup]).
  unfold coverageFieldFact. rewrite !Hk by (apply (bool_decide_unpack _); vm_compute; exact I).
  rewrite merged_bool; [done | by apply (bool_decide_unpack _); vm_compute |
    eapply has_keys_lookup; [done | by apply (bool_decide_unpack _); vm_compute]].
Qed.

Lemma type_item_keys schema typ stability : has_keys type_keys (type_item schema typ stability).
Proof. repeat constructor; eexists; reflexivity. Qed.

Lemma field_item_keys schema typ field required stability :
  has_keys field_keys (defaultFieldCoverage schema typ field required stability).
Proof. repeat constructor; eexists; reflexivity. Qed.

(** What a loop returns satisfies what each of its steps does. *)
Lemma collect_Forall {A B} (step : A -> D B) (R : A -> B -> Prop) l ys s s' :
  (forall x y s s', step x s = (Ok y, s') -> R x y) -> collect step l s = (Ok ys, s') -> Forall2 R l ys.
Proof.
  intros Hstep. revert ys s s'. induction l as [|x l IH]; intros ys s s'; simpl; [intros [= <- <-]; constructor|].
  intros (y & s1 & Hy%Hstep & (zs & s2 & Hzs%IH & [= <- <-])%D_bind_Ok)%D_bind_Ok. by constructor.
Qed.

Lemma type_coverage_spec root stablePaths old schema t s s' :
  type_coverage root stablePaths old schema s = (Ok t, s') ->
  coverageTypeFact t.2 = coverageTypeFact t.1 /\ get_str t.1 "schema" = schema /\
  get_str t.1 "stability" = stability_in stablePaths schema /\
  get_str t.1 "status" = (if bundle_schema schema then "intentionally-unsupported" else "supported-generated").
Proof.
  intros (d & s1 & (typ & s2 & _ & [= <- <-])%D_bind_Ok & [= <- <-])%D_bind_Ok. cbn [fst snd].
  split; [apply merged_type_fact; destruct (bundle_schema schema); [apply has_keys_insert|]; apply type_item_keys|].
  by destruct (bundle_schema schema).
Qed.

Lemma topLevelObjectFields_keys root schema stability data fields s s' :
  topLevelObjectFields root schema stability s = (Ok (data, fields), s') -> Forall (has_keys field_keys) fields.
Proof.
  intros (d & s1 & _ & H)%D_bind_Ok. repeat case_match; injection H as _ <- _; try constructor.
  apply Forall_map, Forall_true. intros name. apply field_item_keys.
Qed.

Lemma field_coverage_spec root stableRoot stablePaths old schema fs s s' :
  field_coverage root stableRoot stablePaths old schema s = (Ok fs, s') ->
  Forall (fun f => coverageFieldFact f.2 = coverageFieldFact f.1) fs.
Proof.
  intros ([data fields] & s1 & Hf%topLevelObjectFields_keys & (props & s2 & _ & [= <- <-])%D_bind_Ok)%D_bind_Ok.
  apply Forall_map. eapply Forall_impl; [exact Hf|]. intros field Hk. cbn [fst snd].
  apply merged_field_fact. destruct (props !! _); [done | by apply has_keys_insert].
Qed.

(** Whatever an old matrix said, the matrix that is persisted classifies
    every schema file once, and classifies types and fields exactly as the facts
    handed to the generator: the old annotations never override them.  No schema is
    stable that the complete set lacks. *)
Theorem buildCoverage_current (root stableRoot : path) (old : coverageFile) (manifest : manifestFile)
    (d : derivedCoverage) (s s' : disk) (Hq : quiet Sys)
    (H : buildCoverage root stableRoot old manifest s = (Ok d, s')) :
  let stable := schema_names (files s) stableRoot in
  map coverageTypeFact (Types (coverage d)) ≡ₚ cm_Types (facts d) /\
  map coverageFieldFact (Fields (coverage d)) ≡ₚ cm_Fields (facts d) /\
  map ct_Schema (cm_Types (facts d)) = schema_names (files s) root /\
  Forall (fun t => (ct_Stability t = "stable" <-> ct_Schema t ∈ stable) /\
                   (ct_Status t = "intentionally-unsupported" <-> bundle_schema (ct_Schema t) = true)) (cm_Types (facts d)) /\
  stable ⊆ schema_names (files s) root.
Proof.
  unfold buildCoverage in H. destruct (c_SchemaVersion old =? 1)%Z; [|done]. simpl in H.
  apply D_bind_Ok in H as (names & s1 & [-> E1]%schemaFiles_value & H); [|done].
  apply D_bind_Ok in H as (stable & s2 & [-> _]%schemaFiles_value & H); [|done]. rewrite E1 in H.
  apply D_bind_Ok in H as ([] & s3 & [Hsub ->]%D_guard_inv & H).
  apply D_bind_Ok in H as (types & s4 & Ht & H). apply D_bind_Ok in H as (fields & s5 & Hf & [= <- _]).
  apply (collect_Forall _ _ _ _ _ _ (type_coverage_spec _ _ _)) in Ht.
  apply (collect_Forall _ (fun _ fs => Forall (fun f => coverageFieldFact f.2 = coverageFieldFact f.1) fs)) in Hf;
    [|intros schema fs t t'; apply field_coverage_spec].
  intros stable. cbn [coverage Coverage.facts Types Fields cm_Types cm_Fields].
  split; [|split; [|split; [|split]]].
  - rewrite sort_by_perm, map_map. apply reflexive_eq. clear -Ht. induction Ht as [|x t l ts (Hf & _) _ IH]; [done|].
    cbn [map]. by rewrite Hf, IH.
  - rewrite sort_by_perm, map_map. apply reflexive_eq. apply map_ext_Forall.
    apply Forall_concat. clear -Hf. by induction Hf; constructor.
  - rewrite map_map. clear -Ht. induction Ht as [|x t l ts (_ & Hs & _) _ IH]; [done|]. cbn [map]. by rewrite IH, <- Hs.
  - apply Forall_map. clear -Ht. induction Ht as [|x t l ts (_ & Hs & Hst & Hstat) _ IH]; [constructor|]. constructor; [|done].
    cbn [ct_Schema ct_Stability ct_Status coverageTypeFact]. rewrite Hs, Hst, Hstat. split.
    + unfold stability_in. destruct (mem x _) eqn:E; [apply mem_true in E | apply mem_false in E]; naive_solver.
    + destruct (bundle_schema x); naive_solver.
  - apply negb_false_iff, forallb_Forall in Hsub. intros x Hx. rewrite Forall_forall in Hsub.
    apply mem_true. by apply Hsub.
Qed.
End coverage_facts.

(** A stable and an experimental schema, one with an old annotation. *)
Definition sample_schemas : fs := list_to_map
  [(["base"], Dir); (["base"; "A.json"], File "x"); (["base"; "B.json"], File "z");
   (["stable"], Dir); (["stable"; "A.json"], File "z")].

Definition sample_derivation : res derivedCoverage * disk :=
  @buildCoverage calm sample_texts sample_manifest_texts ["base"] ["stable"] sample_coverage sample_manifest (disk_of sample_schemas).

Definition no_coverage : derivedCoverage :=
  {| coverage := sample_coverage; facts := {| cm_Fields := []; cm_Status := ""; cm_Types := [] |} |}.

Example sample_types :
  map (fun t => (get_str t "schema", get_str t "stability", get_str t "note")) (Types (coverage (value_of no_coverage sample_derivation.1)))
  = [("A.json", "stable", "kept"); ("B.json", "experimental", "")].
Proof. vm_compute. reflexivity. Qed.

Lemma sample_derivation_ok : sample_derivation = (Ok (value_of no_coverage sample_derivation.1), sample_derivation.2).
Proof. apply runs_ok. vm_compute. reflexivity. Qed.

Lemma buildCoverage_current_witness :
  map coverageTypeFact (Types (coverage (value_of no_coverage sample_derivation.1))) ≡ₚ
    cm_Types (facts (value_of no_coverage sample_derivation.1)).
Proof.
  exact (proj1 (@buildCoverage_current calm sample_texts sample_manifest_texts ["base"] ["stable"] sample_coverage
    sample_manifest (value_of no_coverage sample_derivation.1) (disk_of sample_schemas) sample_derivation.2 calm_quiet
    sample_derivation_ok)).
Defined.
