(* ===== verification/GeneratedCheck.v ===== *)
(** Whether the generated files of a module are what its baseline generates:
    [src/codexsdk/internal/generatedcheck/check.go].  The generator itself,
    [protocolgen], is a parameter: functions of the disk it reads. *)

From Stdlib Require Import Ascii.
From S2P Require Import Prelude GoStrings Policy JsonLex Json Disk Drift Surface Manifest Coverage.

Local Open Scope string_scope.
Local Open Scope list_scope.

(** * The generator *)

Record ProtocolPackage := {
  MethodRegistry : string; ProtocolTypes : string; ExperimentalMembers : string;
  TypeNames : gset string; MethodConstants : gmap string string }.

Class Generator := {
  ProtocolTypePlan : Type;
  BuildProtocolTypePlan : path -> fs -> res ProtocolTypePlan;
  BuildProtocolTypePlanFromFacts : path -> CoverageMatrix -> ManifestFacts -> fs -> res ProtocolTypePlan;
  LoadManifest : path -> fs -> res ManifestFacts;
  BuildProtocolPackage : ProtocolTypePlan -> ManifestFacts -> path -> fs -> res ProtocolPackage;
  ClassifyExportedPackage : list string -> list string -> res (list SurfaceEntry);
  GenerateExperimentalMembers : ManifestFacts -> res string;
  GenerateSDKSurface : path -> ManifestFacts -> gmap string string -> gset string -> fs -> res string
}.

Definition baselineRel := "internal/protocolschema/appserver/v2".
Definition methodRegistry := "protocolv2/method_registry.gen.go".
Definition protocolTypes := "protocolv2/protocol_types.gen.go".
Definition experimentalMem := "protocolv2/experimental_members.gen.go".
Definition sdkSurface := "sdk_surface.gen.go".

(** [Request]: unset expectations are empty; the root is absolute. *)
Record CheckIdentity := { ExpectedUpstreamCommit : string; ExpectedUpstreamRef : string; ExpectedUpstreamKind : string }.

(** [baselineMetadata] *)
Record metadata := { md_SourceCommit : string; md_SourceRefName : string; md_SourceRefKind : string }.

Class MetadataTexts := { decode_metadata : string -> res metadata }.

Section check.
Context {Sys : System} {Gen : Generator} {Meta : MetadataTexts}.

(** [FilesFromPackage] *)
Definition FilesFromPackage (moduleRoot : path) (manifest : ManifestFacts) (generated : ProtocolPackage)
    : D (gmap string string) :=
  sdk ← look (GenerateSDKSurface moduleRoot manifest (MethodConstants generated) (TypeNames generated));
  mret (list_to_map [(methodRegistry, MethodRegistry generated); (protocolTypes, ProtocolTypes generated);
                     (experimentalMem, ExperimentalMembers generated); (sdkSurface, sdk)]).

Definition generateArtifacts (moduleRoot : path) : D (gmap string string) :=
  let schemaRoot := join moduleRoot baselineRel in
  typePlan ← look (BuildProtocolTypePlan schemaRoot);
  manifest ← look (LoadManifest (join schemaRoot "manifest.json"));
  generated ← look (BuildProtocolPackage typePlan manifest (join moduleRoot "protocolv2"));
  FilesFromPackage moduleRoot manifest generated.

Definition RegeneratedFiles (moduleRoot : path) : D (gmap string string) := generateArtifacts moduleRoot.

Definition artifacts : list string := [methodRegistry; protocolTypes; experimentalMem; sdkSurface].

(** A byte slice missing from a map is empty. *)
Definition bytes_of (files : gmap string string) (name : string) : string := default "" (files !! name).

Definition loadBaselineMetadata (p : path) : D metadata :=
  raw ← ReadFile p;
  m ← wrap_err "decode baseline metadata: %w" (of_res (decode_metadata raw));
  _ ← guard (negb (shaRE (md_SourceCommit m))) (Errorf "baseline source_commit %q is not a full git sha" []);
  _ ← guard (String.eqb (trim_space (md_SourceRefName m)) "") (Errorf "baseline source_ref_name is empty" []);
  _ ← guard (String.eqb (trim_space (md_SourceRefKind m)) "") (Errorf "baseline source_ref_kind is empty" []);
  mret m.

Definition cacheMarkers : list string := [".cache/codexsdk-upstream"; ".cache/openai-codex"].

(** What a text leaks, with [pathLeakRE] as its two literals. *)
Definition leaks_of (rel text : string) : list string :=
  (if contains "/Users/" text || contains "/home/" text then [rel +:+ ": local filesystem path"] else []) ++
  omap (fun marker => if contains marker text then Some (rel +:+ ": " +:+ marker) else None) cacheMarkers.

Definition scanBaselinePathLeaks (root : path) : D (list string) :=
  entries ← WalkDir root;
  leaks ← collect (fun rel => text ← ReadFile (root ++ rel); mret (leaks_of (rel_name rel) text))
    (omap (fun '(rel, n) =>
       match n with
       | File _ => if has_suffix ".json" (List.last (root ++ rel) "") then Some rel else None
       | Dir => None
       end) entries);
  mret (concat leaks).

Definition unexpected (expected actual : string) : bool := negb (String.eqb expected "") && negb (String.eqb actual expected).

(** The names of the files that differ from what is generated. *)
Definition mismatches (root : path) (generated : gmap string string) : D (list string) :=
  l ← collect (fun name =>
    want ← ReadFile (join root name);
    mret (if String.eqb want (bytes_of generated name) then [] else [name])) artifacts;
  mret (concat l).

Definition Check (root : path) (req : CheckIdentity) : D unit :=
  m ← loadBaselineMetadata (join (join root baselineRel) "baseline_metadata.json");
  _ ← guard (unexpected (ExpectedUpstreamCommit req) (md_SourceCommit m)) (Errorf "baseline source_commit=%s, want %s" []);
  _ ← guard (unexpected (ExpectedUpstreamRef req) (md_SourceRefName m)) (Errorf "baseline source_ref_name=%s, want %s" []);
  _ ← guard (unexpected (ExpectedUpstreamKind req) (md_SourceRefKind m)) (Errorf "baseline source_ref_kind=%s, want %s" []);
  leaks ← scanBaselinePathLeaks (join root baselineRel);
  _ ← guard (negb (nil_list leaks)) (Errorf "checked-in protocol baseline contains local or cache paths: %s" []);
  generated ← generateArtifacts root;
  differ ← mismatches root generated;
  guard (negb (nil_list differ)) (Errorf "generated artifacts do not match checked-in outputs: %s" []).

(** [WriteArtifacts] *)
Definition WriteArtifacts (root : path) : D unit :=
  generated ← generateArtifacts root;
  each (fun name => WriteFile (join root name) (bytes_of generated name)) artifacts.
End check.

(** * The first line that differs *)

Definition newline_byte : ascii := byte 10.

Fixpoint first_mismatch (index : nat) (want got : list string) : option (nat * string * string) :=
  match want, got with
  | [], [] => None
  | w :: _, [] => Some (S index, w, "<missing>")
  | [], g :: _ => Some (S index, "<missing>", g)
  | w :: want', g :: got' => if String.eqb w g then first_mismatch (S index) want' got' else Some (S index, w, g)
  end.

Definition firstTextMismatch (want got : string) : option (nat * string * string) :=
  first_mismatch 0 (split_byte newline_byte want) (split_byte newline_byte got).

Lemma split_byte_nonempty c s : split_byte c s <> [].
Proof. induction s as [|x s IH]; simpl; [done|]. destruct (Ascii.eqb x c); [done|]. by destruct (split_byte c s). Qed.

Lemma split_byte_inj c a b : split_byte c a = split_byte c b -> a = b.
Proof.
  pose proof (split_byte_nonempty c) as Hne.
  revert b. induction a as [|x a IH]; intros [|y b]; simpl; try done.
  - destruct (Ascii.eqb y c); [|by destruct (split_byte c b)]. intros [= H]. by destruct (Hne b).
  - destruct (Ascii.eqb x c); [|by destruct (split_byte c a)]. intros [= H]. by destruct (Hne a).
  - specialize (IH b). pose proof (Hne a). pose proof (Hne b).
    destruct (Ascii.eqb_spec x c) as [->|], (Ascii.eqb_spec y c) as [->|], (split_byte c a) as [|u us], (split_byte c b) as [|v vs];
      try done; intros [=]; subst; f_equal; apply IH; congruence.
Qed.

Lemma firstTextMismatch_None want got : firstTextMismatch want got = None <-> want = got.
Proof.
  unfold firstTextMismatch. split.
  - intros H. apply (split_byte_inj newline_byte). revert H. generalize 0%nat, (split_byte newline_byte want), (split_byte newline_byte got).
    intros n l. revert n. induction l as [|w l IH]; intros n [|g l']; simpl; try done.
    destruct (String.eqb_spec w g) as [->|]; [|done]. intros H%IH. by rewrite H.
  - intros ->. generalize 0%nat. induction (split_byte newline_byte got) as [|g l IH]; intros n; simpl; [done|].
    by rewrite String.eqb_refl.
Qed.

(** * What a passing check means *)

Section facts.
Context {Sys : System} {Gen : Generator} {Meta : MetadataTexts}.

(** The files the generator makes of a module's baseline. *)
Definition generates (f : fs) (root : path) (g : gmap string string) : Prop :=
  exists plan manifest package sdk,
    BuildProtocolTypePlan (join root baselineRel) f = Ok plan /\
    LoadManifest (join (join root baselineRel) "manifest.json") f = Ok manifest /\
    BuildProtocolPackage plan manifest (join root "protocolv2") f = Ok package /\
    GenerateSDKSurface root manifest (MethodConstants package) (TypeNames package) f = Ok sdk /\
    g = list_to_map [(methodRegistry, MethodRegistry package); (protocolTypes, ProtocolTypes package);
                     (experimentalMem, ExperimentalMembers package); (sdkSurface, sdk)].

Lemma generateArtifacts_reads Q root : confined Q (generateArtifacts root).
Proof. unfold generateArtifacts, FilesFromPackage. confine. Qed.

Lemma generateArtifacts_value root g s s' : quiet Sys ->
  generateArtifacts root s = (Ok g, s') -> generates (files s) root g /\ files s' = files s.
Proof.
  intros Hq (plan & s1 & [Hp E1]%look_Ok & H)%D_bind_Ok; [|done].
  apply D_bind_Ok in H as (m & s2 & [Hm E2]%look_Ok & H); [|done].
  apply D_bind_Ok in H as (pk & s3 & [Hk E3]%look_Ok & H); [|done].
  apply D_bind_Ok in H as (sdk & s4 & [Hs E4]%look_Ok & [= <- <-]); [|done].
  rewrite E1 in *. rewrite E2 in *. rewrite E3 in *. split; [|done]. by exists plan, m, pk, sdk.
Qed.

Lemma mismatches_value root g l s s' : quiet Sys -> mismatches root g s = (Ok l, s') ->
  l = [] -> Forall (fun name => read_node (files s) (join root name) = Ok (bytes_of g name)) artifacts.
Proof.
  intros Hq (ls & s1 & H & [= <- _])%D_bind_Ok.
  apply (collect_value _ (fun f name d => d = [] -> read_node f (join root name) = Ok (bytes_of g name))) in H as [H _].
  - intros Hnil. apply Forall_forall. intros name Hin. apply list_elem_of_lookup in Hin as [i Hi].
    destruct (Forall2_lookup_l _ _ _ _ _ H Hi) as (d & Hd & Hread). apply Hread.
    apply list_elem_of_lookup_2 in Hd. destruct d as [|x d]; [done|]. exfalso.
    apply (not_elem_of_nil x). rewrite <- Hnil. apply list_elem_of_In, in_concat. exists (x :: d).
    split; [by apply list_elem_of_In | by left].
  - intros name d t t' (want & t1 & [Hr Et]%look_Ok & [= <- <-])%D_bind_Ok; [|done]. split; [|done].
    destruct (String.eqb_spec want (bytes_of g name)) as [->|]; [by intros _ | done].
Qed.

Lemma scan_value root leaks s s' : quiet Sys -> scanBaselinePathLeaks root s = (Ok leaks, s') ->
  files s' = files s /\ (leaks = [] -> forall entries rel data, walk_nodes (files s) root = Ok entries -> (rel, File data) ∈ entries ->
    has_suffix ".json" (List.last (root ++ rel) "") = true -> forall text, read_node (files s) (root ++ rel) = Ok text ->
    leaks_of (rel_name rel) text = []).
Proof.
  intros Hq (entries & s1 & [Hw E1]%look_Ok & (ls & s2 & H & [= <- <-])%D_bind_Ok)%D_bind_Ok; [|done].
  apply (collect_value _ (fun f rel l => exists text, read_node f (root ++ rel) = Ok text /\ l = leaks_of (rel_name rel) text)) in H as [H E2].
  - rewrite E1 in *. split; [done|]. intros Hnil entries' rel data Hw' Hin Hs text Hr. rewrite Hw in Hw'. injection Hw' as <-.
    assert (Hrel : rel ∈ omap (fun '(rel, n) => match n with
       | File _ => if has_suffix ".json" (List.last (root ++ rel) "") then Some rel else None | Dir => None end) entries).
    { apply list_elem_of_omap. exists (rel, File data). split; [done|]. by rewrite Hs. }
    apply list_elem_of_lookup in Hrel as [i Hi]. destruct (Forall2_lookup_l _ _ _ _ _ H Hi) as (l & Hl & text' & Hr' & ->).
    rewrite Hr in Hr'. injection Hr' as <-. apply list_elem_of_lookup_2 in Hl.
    destruct (leaks_of (rel_name rel) text) as [|x l] eqn:E; [done|]. exfalso.
    apply (not_elem_of_nil x). rewrite <- Hnil. apply list_elem_of_In, in_concat. exists (x :: l).
    split; [by apply list_elem_of_In | by left].
  - intros rel l t t' (text & t1 & [Hr Et]%look_Ok & [= <- <-])%D_bind_Ok; [|done]. split; [by exists text | done].
Qed.

(** A check that passes, nothing else changing the disk, found a baseline
    with a full commit, a ref and a kind that agree with what was expected, no
    local or cache path in its JSON files, and the four generated files byte for
    byte what the generator makes of that baseline; it changed nothing. *)
Theorem Check_accepts (root : path) (req : CheckIdentity) (s s' : disk) (Hq : quiet Sys) (H : Check root req s = (Ok tt, s')) :
  let f := files s in
  (exists raw m, read_node f (join (join root baselineRel) "baseline_metadata.json") = Ok raw /\ decode_metadata raw = Ok m /\
     shaRE (md_SourceCommit m) = true /\
     (ExpectedUpstreamCommit req = "" \/ md_SourceCommit m = ExpectedUpstreamCommit req) /\
     (ExpectedUpstreamRef req = "" \/ md_SourceRefName m = ExpectedUpstreamRef req) /\
     (ExpectedUpstreamKind req = "" \/ md_SourceRefKind m = ExpectedUpstreamKind req)) /\
  (forall entries rel data text, walk_nodes f (join root baselineRel) = Ok entries -> (rel, File data) ∈ entries ->
     has_suffix ".json" (List.last (join root baselineRel ++ rel) "") = true ->
     read_node f (join root baselineRel ++ rel) = Ok text -> leaks_of (rel_name rel) text = []) /\
  (exists g, generates f root g /\
     Forall (fun name => read_node f (join root name) = Ok (bytes_of g name)) artifacts).
Proof.
  apply D_bind_Ok in H as (m & s1 & Hm & H).
  assert (Hf : files s1 = files s /\ exists raw, read_node (files s) (join (join root baselineRel) "baseline_metadata.json") = Ok raw /\
    decode_metadata raw = Ok m /\ shaRE (md_SourceCommit m) = true).
  { apply D_bind_Ok in Hm as (raw & t1 & [Hr Et]%look_Ok & Hm); [|done].
    apply D_bind_Ok in Hm as (m' & t2 & [Hd ->]%D_wrap_err_Ok%D_of_res_inv & Hm).
    apply D_bind_Ok in Hm as ([] & t3 & [Hsha%negb_false_iff ->]%D_guard_inv & Hm).
    do 2 apply D_bind_Ok in Hm as ([] & ? & [_ ->]%D_guard_inv & Hm). injection Hm as <- <-. eauto. }
  destruct Hf as [E1 (raw & Hraw & Hd & Hsha)].
  apply D_bind_Ok in H as ([] & ? & [U1 ->]%D_guard_inv & H). apply D_bind_Ok in H as ([] & ? & [U2 ->]%D_guard_inv & H).
  apply D_bind_Ok in H as ([] & ? & [U3 ->]%D_guard_inv & H).
  apply D_bind_Ok in H as (leaks & s2 & [E2 Hl]%scan_value & H); [|done]. rewrite E1 in *.
  apply D_bind_Ok in H as ([] & ? & [Hnl ->]%D_guard_inv & H).
  apply D_bind_Ok in H as (g & s3 & [Hg E3]%generateArtifacts_value & H); [|done]. rewrite E2 in *.
  apply D_bind_Ok in H as (differ & s4 & Hdiff & [Hnd _]%D_guard_inv).
  apply negb_false_iff in Hnl, Hnd. apply mismatches_value in Hdiff; [|done|by destruct differ]. rewrite E3 in Hdiff.
  assert (Hun : forall e a, unexpected e a = false -> e = "" \/ a = e).
  { intros e a. unfold unexpected. destruct (String.eqb_spec e ""), (String.eqb_spec a e); auto; done. }
  split; [|split].
  - exists raw, m. eauto 10.
  - intros entries rel data text Hw Hin Hs Hr. eapply Hl; eauto. by destruct leaks.
  - by exists g.
Qed.
End facts.

(** A generator that makes one text per file, and a module that holds them. *)
Definition sample_package : ProtocolPackage :=
  {| MethodRegistry := "registry"; ProtocolTypes := "types"; ExperimentalMembers := "members"; TypeNames := ∅; MethodConstants := ∅ |}.

Definition sample_generator : Generator := {|
  ProtocolTypePlan := unit;
  BuildProtocolTypePlan := fun _ _ => Ok tt; BuildProtocolTypePlanFromFacts := fun _ _ _ _ => Ok tt;
  LoadManifest := fun _ _ => Ok {| mf_Entries := []; mf_SchemaVersion := 2; mf_Surface := []; mf_Status := "" |};
  BuildProtocolPackage := fun _ _ _ _ => Ok sample_package;
  ClassifyExportedPackage := fun _ _ => Ok []; GenerateExperimentalMembers := fun _ => Ok "members";
  GenerateSDKSurface := fun _ _ _ _ _ => Ok "sdk" |}.

Definition sample_commit := "0123456789abcdef0123456789abcdef01234567".
Definition sample_metadata_texts : MetadataTexts := {|
  decode_metadata := fun _ => Ok {| md_SourceCommit := sample_commit; md_SourceRefName := "rust-v1.2.3"; md_SourceRefKind := "tag" |} |}.

Definition sample_schema_dir : path := ["m"; "internal"; "protocolschema"; "appserver"; "v2"].
Definition sample_module : fs := list_to_map
  ([(["m"], Dir); (["m"; "internal"], Dir); (["m"; "internal"; "protocolschema"], Dir);
    (["m"; "internal"; "protocolschema"; "appserver"], Dir); (sample_schema_dir, Dir);
    (sample_schema_dir ++ ["baseline_metadata.json"], File "meta"); (sample_schema_dir ++ ["A.json"], File "x");
    (["m"; "protocolv2"], Dir); (["m"; "protocolv2"; "method_registry.gen.go"], File "registry");
    (["m"; "protocolv2"; "protocol_types.gen.go"], File "types");
    (["m"; "protocolv2"; "experimental_members.gen.go"], File "members"); (["m"; "sdk_surface.gen.go"], File "sdk")]).

Definition sample_identity : CheckIdentity :=
  {| ExpectedUpstreamCommit := sample_commit; ExpectedUpstreamRef := ""; ExpectedUpstreamKind := "tag" |}.
Definition sample_check : res unit * disk :=
  @Check calm sample_generator sample_metadata_texts ["m"] sample_identity (disk_of sample_module).

Lemma sample_check_ok : sample_check = (Ok tt, sample_check.2).
Proof.
  assert (H : sample_check.1 = Ok tt) by (vm_compute; reflexivity). destruct sample_check as [r s]. simpl in H. by rewrite H.
Qed.

Lemma Check_accepts_witness :
  exists g, @generates sample_generator sample_module ["m"] g /\
    Forall (fun name => read_node sample_module (join ["m"] name) = Ok (bytes_of g name)) artifacts.
Proof.
  exact (proj2 (proj2 (@Check_accepts calm sample_generator sample_metadata_texts ["m"] sample_identity
    (disk_of sample_module) sample_check.2 calm_quiet sample_check_ok))).
Defined.
