(* ===== verification/Upgrade.v ===== *)
(** The upgrade of a baseline: the construction of a candidate in a private
    directory, its plan, its comparison with the accepted files and its
    materialisation.  [apply.go], [plan.go], [exact.go], [materialize.go],
    [check.go], [compatibility.go] and [deriveSurface] of [surface.go], in
    [src/codexsdk/internal/protocolupgrade]. *)

From Stdlib Require Import Ascii.
From S2P Require Import Prelude GoStrings JsonLex Json Disk Drift Surface CommonRS Manifest Coverage GeneratedCheck.

Local Open Scope string_scope.
Local Open Scope list_scope.

(** * Requests and results *)

Section data.
Context {MT : ManifestTexts}.

(** Unset paths are [None]; [Now] is the clock a caller may give. *)
Record ApplyRequest := {
  Baseline : option path; Candidate : option path; StableCandidate : option path; CommonRS : option path;
  CommonRSSourceSHA : string; CodexRepo : option path; Reports : option path; TargetRef : string; TargetKind : string;
  TargetSHA : string; ModuleRoot : option path; Now : option (nat -> time) }.
End data.

Record ApplyResult := {
  ar_Status : string; AddedSchemas : list string; ar_CommonRSSourceSHA : string; SchemaFileCount : nat; MethodCount : nat;
  CoverageTypeCount : nat; CoverageFieldCount : nat; ClassifiedSurfaceCount : nat; GeneratedCompatibilityImpact : string;
  GeneratedReleaseImpact : string; ar_TargetRef : string; ar_TargetSHA : string }.

Definition PlanReady := "ready".
Definition PlanSemanticUnresolved := "semantic_unresolved".

(** [Reason] is the error whose text the code records. *)
Record PlanIssue := { pi_Stage : string; pi_Path : string; Reason : option error }.

Record preparedCandidate {MT : ManifestTexts} := {
  request : ApplyRequest; baseline : gmap string string; prep_files : gmap string string; prep_reports : gmap string string }.

Record PlanResult {MT : ManifestTexts} := {
  pr_Status : string; Preview : option ApplyResult; Issue : option PlanIssue; prepared : option preparedCandidate }.

(** The texts and commands of this component. *)
Class UpgradeTexts := {
  decode_report : string -> res Report;
  encode_applied : Report -> compatibility -> string;
  git_show : path -> string -> res string
}.

Definition VerificationError (format : string) : error := Typed VerificationT [Errorf format []].

(** [errors.As] into an [*IncompatibilityError]: its fields. *)
Fixpoint incompatibility_of (e : error) : option (string * string * option error) :=
  let fix go (l : list error) : option (string * string * option error) :=
    match l with
    | [] => None
    | x :: l' => match incompatibility_of x with Some r => Some r | None => go l' end
    end in
  match e with
  | Typed (IncompatibilityT stage p) wraps => Some (stage, p, head wraps)
  | Typed _ wraps | Errorf _ wraps => go wraps
  | _ => None
  end.

Definition as_unsupported (t : etype) : option string := match t with UnsupportedSchemaT p => Some p | _ => None end.

(** A schema the generator does not support is an incompatibility. *)
Definition classifyUnsupported (stage : string) (err : error) : error :=
  match errors_as as_unsupported err with
  | Some p => Typed (IncompatibilityT stage p) [err]
  | None => err
  end.

Definition defaultBaselineRel := "internal/protocolschema/appserver/v2".
Definition generatedProtocolArtifacts : list string :=
  ["protocolv2/method_registry.gen.go"; "protocolv2/protocol_types.gen.go"; "protocolv2/experimental_members.gen.go";
   "sdk_surface.gen.go"].
Definition exactMetadataFiles : list string :=
  ["baseline_metadata.json"; "manifest_generation.json"; "manifest.json"; "coverage_matrix.json"].

Section upgrade.
Context {Sys : System} {Txt : Texts} {MT : ManifestTexts} {Gen : Generator} {Up : UpgradeTexts}.

(** * The surface *)

Definition set_entries (m : manifestFile) (entries : list manifestEntry) : manifestFile :=
  {| AggregateSchemas := AggregateSchemas m; ClassificationSources := ClassificationSources m;
     Description := Description m; Entries := entries; Surface.Surface := []; SchemaVersion := SchemaVersion m;
     m_Status := m_Status m |}.

Definition set_surface (m : ManifestFacts) (s : list SurfaceEntry) : ManifestFacts :=
  {| mf_Entries := mf_Entries m; mf_SchemaVersion := mf_SchemaVersion m; mf_Surface := s; mf_Status := mf_Status m |}.

Definition generatePackage (schemaRoot : path) (manifest : ManifestFacts) (cov : CoverageMatrix) (handwrittenDir : path)
    : D ProtocolPackage :=
  plan ← look (BuildProtocolTypePlanFromFacts schemaRoot cov manifest);
  look (BuildProtocolPackage plan manifest handwrittenDir).

Definition surface_item (e : SurfaceEntry) : item :=
  let base := str_map [("kind", se_Kind e); ("name", se_Name e); ("signature", se_Signature e); ("stability", se_Stability e)] in
  if String.eqb (se_Owner e) "" then base else <["owner" := JSONString (se_Owner e)]> base.

Definition deriveSurface (stableSchema completeSchema moduleRoot : path) (manifest : manifestFile) (cov : derivedCoverage)
    : D (list item * gmap string string) :=
  let handwrittenDir := join moduleRoot "protocolv2" in
  let stableManifest := set_entries manifest (List.filter (fun e => String.eqb (Stability e) "stable") (Entries manifest)) in
  stableCoverage ← buildCoverage stableSchema stableSchema (coverage cov) stableManifest;
  let stableFacts := methodFacts stableManifest in
  let completeFacts := methodFacts manifest in
  stableSource ← wrap_err "generate stable protocol package: %w"
    (generatePackage stableSchema stableFacts (facts stableCoverage) handwrittenDir);
  completeSource ← wrap_err "generate complete protocol package: %w"
    (generatePackage completeSchema completeFacts (facts cov) handwrittenDir);
  preliminary ← of_res (ClassifyExportedPackage [MethodRegistry stableSource; ProtocolTypes stableSource]
                          [MethodRegistry completeSource; ProtocolTypes completeSource]);
  stableMembers ← of_res (GenerateExperimentalMembers (set_surface stableFacts preliminary));
  completeMembers ← of_res (GenerateExperimentalMembers (set_surface completeFacts preliminary));
  surface ← of_res (ClassifyExportedPackage [MethodRegistry stableSource; ProtocolTypes stableSource; stableMembers]
                      [MethodRegistry completeSource; ProtocolTypes completeSource; completeMembers]);
  let complete := {| MethodRegistry := MethodRegistry completeSource; ProtocolTypes := ProtocolTypes completeSource;
                     ExperimentalMembers := completeMembers; TypeNames := TypeNames completeSource;
                     MethodConstants := MethodConstants completeSource |} in
  files ← FilesFromPackage moduleRoot (set_surface completeFacts surface) complete;
  mret (map surface_item surface, files).

(** * Files *)

(** Names in order, so that a write that fails leaves the later ones. *)
Definition writeCandidateFiles (root : path) (files : gmap string string) : D unit :=
  each (fun name =>
    let p := join root name in
    _ ← MkdirAll (dir p);
    WriteFile p (default "" (files !! name))) (sorted_keys files).

Definition copyTreeFiles (src dst : path) : D unit :=
  entries ← WalkDir src;
  each (fun '(rel, n) =>
    let target := dst ++ rel in
    match n with
    | Dir => MkdirAll target
    | File _ => _ ← MkdirAll (dir target); copyFileBytes (src ++ rel) target
    end) entries.

(** Handwritten Go: regular files that are neither generated nor tests. *)
Definition handwritten (name : string) : bool :=
  String.eqb (path_ext name) ".go" && negb (has_suffix ".gen.go" name) && negb (has_suffix "_test.go" name).

Definition copyHandwrittenProtocolPackage (source destination : path) : D unit :=
  entries ← ReadDir source;
  each (fun '(name, n) =>
    match n with
    | File _ => if handwritten name then copyFileBytes (source ++ [name]) (destination ++ [name]) else mret tt
    | Dir => mret tt
    end) entries.

Definition readCandidateFiles (root : path) : D (gmap string string) :=
  entries ← WalkDir root;
  l ← collect (fun rel => data ← ReadFile (root ++ rel); mret (rel_name rel, data))
        (omap (fun '(rel, n) => match n with File _ => Some rel | Dir => None end) entries);
  mret (list_to_map l).

Definition retired_reports : list string := ["drift_report.json"; MatrixSkeletonName].

(** [os.Remove], where a missing file is as good. *)
Definition remove_if_present (p : path) : D unit :=
  r ← attempt (Remove p);
  match r with
  | Ok _ => mret tt
  | Err e => if is_not_exist e then mret tt else fail e
  end.

(** [filepath.Join(filepath.Dir(candidate), "reports")], unless they are set. *)
Definition reports_dir (reports : option path) (candidate : path) : path :=
  match reports with Some r => r | None => dir candidate ++ ["reports"] end.

(** * Construction *)

Definition generator_detail : string :=
  "codex app-server generate-json-schema --experimental --out internal/protocolschema/appserver/v2".

Definition compare_request (req : ApplyRequest) (b c : path) (codexVersion : string) : CompareRequest :=
  {| cmp_Baseline := Some b; cmp_Candidate := Some c; cmp_SourceCommit := TargetSHA req; cmp_SourceRef := TargetRef req;
     cmp_SourceRefKind := TargetKind req; cmp_CodexVersion := codexVersion; cmp_Generator := "cargo";
     cmp_GeneratorDetail := generator_detail |}.

Definition writeAppliedReports (req : ApplyRequest) (b c : path) (generatedCompatibility : compatibility)
    (codexVersion : string) : D unit :=
  let reports := reports_dir (Reports req) c in
  report ← Compare (compare_request req b c codexVersion);
  matrix ← WriteReports (Some reports) report (slashed c);
  _ ← WriteFile (join reports "drift_report.json") (encode_applied report generatedCompatibility);
  let items l := JSONArr (map JSONObj l) in
  WriteFile (join reports MatrixSkeletonName) (encode_matrix
    {| mu_Status := mu_Status matrix; mu_Source := mu_Source matrix; ValidStatuses := ValidStatuses matrix;
       MethodUpdates := MethodUpdates matrix; TypeUpdates := TypeUpdates matrix; FieldUpdates := FieldUpdates matrix;
       GeneratedCompatibilityUpdates := Some (JSONObj (list_to_map
         [("added", items (added generatedCompatibility)); ("removed", items (removed generatedCompatibility));
          ("reclassified", items (reclassified generatedCompatibility)); ("changed", items (changed generatedCompatibility))])) |}).

(** The codex version of an earlier report on the same commit, or one made of
    the target's name. *)
Definition codex_version (req : ApplyRequest) (reports : path) : D string :=
  raw ← attempt (ReadFile (join reports "drift_summary.json"));
  recorded ←
    match raw with
    | Err _ => mret ""
    | Ok raw =>
      match decode_report raw with
      | Err _ => mret ""
      | Ok existing =>
        let commit := SourceCommit (rep_Target existing) in
        if negb (String.eqb commit "") && negb (String.eqb commit (TargetSHA req))
        then fail (Errorf "candidate source_commit %s does not match target %s" [])
        else mret (CodexVersion (rep_Target existing))
      end
    end;
  mret (if String.eqb recorded "" then "codex-cli " +:+ trim_prefix "rust-v" (TargetRef req) else recorded).

Definition clock_of (req : ApplyRequest) : D time := fun s =>
  (Ok (match Now req with Some now => now (clock s) | None => time_now (clock s) end), s).

(** The time of the metadata: that of the old one when the commit is the same. *)
Definition generated_at (req : ApplyRequest) (oldMetadata : item) (now : time) : time :=
  if String.eqb (get_str oldMetadata "source_commit") (TargetSHA req) then
    let previous := get_str oldMetadata "generated_at" in
    if String.eqb previous "" then now else default now (parse_time previous)
  else now.

Definition classify_errors {A} (stage : string) (m : D A) : D A := fun s =>
  match m s with (Err e, s') => (Err (classifyUnsupported stage e), s') | r => r end.

(** What is derived from the candidate's schemas, once they stand in [b]. *)
Definition derive_in (req : ApplyRequest) (b c stable rs moduleRoot : path) (sourceSHA codexVersion : string)
    (oldMetadata : item) (oldManifest : manifestFile) (oldCoverage : coverageFile) (preflight : Report) : D ApplyResult :=
  now ← clock_of req;
  metadata ← buildMetadata b oldMetadata (TargetRef req) (TargetKind req) (TargetSHA req) codexVersion
               (generated_at req oldMetadata now);
  _ ← WriteFile (join b "baseline_metadata.json") (encode_any (JSONObj metadata));
  _ ← updateManifestGeneration (join b "manifest_generation.json") (TargetRef req) (TargetKind req) (TargetSHA req);
  mappings ← parseRequestMappings rs;
  manifest ← buildManifest b stable oldManifest mappings (TargetSHA req);
  cov ← buildCoverage b stable oldCoverage manifest;
  '(surface, generatedFiles) ← classify_errors "surface" (deriveSurface stable b moduleRoot manifest cov);
  let manifest := updateManifestSurface manifest surface in
  _ ← WriteFile (join b "manifest.json") (encode_manifest manifest);
  _ ← WriteFile (join b "coverage_matrix.json") (encode_coverage (coverage cov));
  let generatedCompatibility := compatibilityReport oldManifest manifest in
  _ ← writeAppliedReports req b c generatedCompatibility codexVersion;
  _ ← writeCandidateFiles moduleRoot generatedFiles;
  files ← schemaFiles b;
  mret {| ar_Status := "ok"; AddedSchemas := fd_Added (rep_FileDiff preflight); ar_CommonRSSourceSHA := sourceSHA;
          SchemaFileCount := length files; MethodCount := length (Entries manifest);
          CoverageTypeCount := length (Types (coverage cov)); CoverageFieldCount := length (Fields (coverage cov));
          ClassifiedSurfaceCount := length (Surface.Surface manifest);
          GeneratedCompatibilityImpact := compatibility_impact generatedCompatibility;
          GeneratedReleaseImpact := release_impact generatedCompatibility; ar_TargetRef := TargetRef req;
          ar_TargetSHA := TargetSHA req |}.

(** What follows the reading of the old baseline, in the directory [b]. *)
Definition construct_in (req : ApplyRequest) (b c stable rs moduleRoot : path) (sourceSHA codexVersion : string)
    (oldMetadata : item) (oldManifest : manifestFile) (oldCoverage : coverageFile) : D ApplyResult :=
  preflight ← Compare (compare_request req b c codexVersion);
  _ ← copyCandidateSchema c b;
  _ ← each (fun name => remove_if_present (join b name)) retired_reports;
  derive_in req b c stable rs moduleRoot sourceSHA codexVersion oldMetadata oldManifest oldCoverage preflight.

(** [constructCandidate]; its caller has set the module root. *)
Definition constructCandidate (req : ApplyRequest) (moduleRoot : path) : D ApplyResult :=
  match Baseline req, Candidate req, StableCandidate req, CommonRS req with
  | Some b, Some c, Some stable, Some rs =>
    if String.eqb (TargetRef req) "" || String.eqb (TargetKind req) "" || String.eqb (TargetSHA req) ""
    then fail (Errorf "target ref, kind, and sha are required" [])
    else
      sourceSHA ← loadCommonRSSourceSHA rs (CommonRSSourceSHA req);
      _ ← verifyCommonRSProvenance git_show rs sourceSHA (TargetSHA req) (CodexRepo req);
      oldMetadata ← load_object (join b "baseline_metadata.json");
      oldManifest ← loadJSON decode_manifest (join b "manifest.json");
      oldCoverage ← loadJSON decode_coverage (join b "coverage_matrix.json");
      codexVersion ← codex_version req (reports_dir (Reports req) c);
      construct_in req b c stable rs moduleRoot sourceSHA codexVersion oldMetadata oldManifest oldCoverage
  | _, _, _, _ => fail (Errorf "baseline, candidate, stable-candidate, and common.rs are required" [])
  end.

(** * Exact verification *)

Definition semanticJSON (p : path) (omitGeneratedAt : bool) : D string :=
  raw ← ReadFile p;
  if negb omitGeneratedAt then of_res (canonicalJSON raw)
  else
    object ← wrap_err "decode %s: %w" (of_res (unmarshal_object raw));
    match object with
    | None => fail (Errorf "%s must contain a JSON object" [])
    | Some m => lexemes ← of_res (MarshalJSON (JSONObj (delete "generated_at" m))); mret (unlex lexemes)
    end.

Definition same_metadata (accepted rebuilt : path) (name : string) : D unit :=
  let omit := String.eqb name "baseline_metadata.json" in
  a ← semanticJSON (join accepted name) omit;
  c ← semanticJSON (join rebuilt name) omit;
  guard (negb (String.eqb a c)) (VerificationError "%s differs from exact upstream reconstruction").

Definition same_artifact (moduleRoot rebuiltModuleRoot : path) (rel : string) : D unit :=
  a ← ReadFile (join moduleRoot rel);
  c ← ReadFile (join rebuiltModuleRoot rel);
  guard (negb (String.eqb a c)) (VerificationError "%s differs from exact upstream reconstruction: accepted sha256=%x rebuilt sha256=%x").

Definition compareExactBaseline (accepted rebuilt moduleRoot rebuiltModuleRoot : path) : D unit :=
  acceptedSchemas ← wrap_err "hash accepted schemas: %w" (schemaHashes accepted);
  rebuiltSchemas ← wrap_err "hash rebuilt schemas: %w" (schemaHashes rebuilt);
  _ ← guard (negb (fd_empty (fileDiff acceptedSchemas rebuiltSchemas))) (VerificationError "schema mismatch: %s");
  _ ← each (same_metadata accepted rebuilt) exactMetadataFiles;
  each (same_artifact moduleRoot rebuiltModuleRoot) generatedProtocolArtifacts.

(** * Plans *)

Definition prepareCandidateWrites (req : ApplyRequest) (root reports : path) (snapshot : gmap string string)
    : D preparedCandidate :=
  files ← readCandidateFiles (join root defaultBaselineRel);
  artifacts ← collect (fun name => data ← ReadFile (join root name); mret (name, data)) generatedProtocolArtifacts;
  let owned : gmap string string :=
    list_to_map (artifacts ++ map (fun '(name, data) => (defaultBaselineRel +:+ "/" +:+ name, data)) (map_to_list files)) in
  reportFiles ← readCandidateFiles reports;
  mret {| request := req; baseline := snapshot; prep_files := owned; prep_reports := reportFiles |}.

(** [requireModuleBaseline], on absolute paths. *)
Definition requireModuleBaseline (moduleRoot b : path) : res unit :=
  guard_err (negb (bool_decide (b = join moduleRoot defaultBaselineRel)))
    (Errorf "apply codegen requires baseline %s, got %s" []).

(** [filepath.Join(baseline, "../../../..")] *)
Definition above (b : path) : path := take (length b - 4) b.

Definition set_planned (req : ApplyRequest) (b moduleRoot reports : path) : ApplyRequest :=
  {| Baseline := Some b; Candidate := Candidate req; StableCandidate := StableCandidate req; CommonRS := CommonRS req;
     CommonRSSourceSHA := CommonRSSourceSHA req; CodexRepo := CodexRepo req; Reports := Some reports;
     TargetRef := TargetRef req; TargetKind := TargetKind req; TargetSHA := TargetSHA req; ModuleRoot := Some moduleRoot;
     Now := Now req |}.
Definition set_module (req : ApplyRequest) (moduleRoot : path) : ApplyRequest :=
  {| Baseline := Baseline req; Candidate := Candidate req; StableCandidate := StableCandidate req; CommonRS := CommonRS req;
     CommonRSSourceSHA := CommonRSSourceSHA req; CodexRepo := CodexRepo req; Reports := Reports req;
     TargetRef := TargetRef req; TargetKind := TargetKind req; TargetSHA := TargetSHA req; ModuleRoot := Some moduleRoot;
     Now := Now req |}.

(** The copy of the accepted module that a plan works on. *)
Definition stage (b moduleRoot tmp : path) : D unit :=
  _ ← wrap_err "copy baseline for plan: %w" (copyTreeFiles b (join tmp defaultBaselineRel));
  _ ← MkdirAll (join tmp "protocolv2");
  _ ← copyHandwrittenProtocolPackage moduleRoot tmp;
  wrap_err "copy handwritten protocol package for plan: %w"
    (copyHandwrittenProtocolPackage (join moduleRoot "protocolv2") (join tmp "protocolv2")).

(** The outcome of a construction that failed. *)
Definition unresolved (verifyExact : bool) (applyErr : error) : res PlanResult :=
  if verifyExact then Err (Errorf "cannot reconstruct exact accepted baseline: %w" [applyErr])
  else match incompatibility_of applyErr with
       | Some (stage, p, reason) =>
         Ok {| pr_Status := PlanSemanticUnresolved; Preview := None;
               Issue := Some {| pi_Stage := stage; pi_Path := p; Reason := reason |}; prepared := None |}
       | None => Err applyErr
       end.

(** The plan in its private directory. *)
Definition plan_in (tmp : path) (req : ApplyRequest) (b c moduleRoot : path) (verifyExact : bool)
    (beforeBaseline beforeCandidate : gmap string string) : D PlanResult :=
  _ ← stage b moduleRoot tmp;
  let planned := set_planned req (join tmp defaultBaselineRel) tmp (join tmp "reports") in
  preview ← attempt (constructCandidate planned tmp);
  afterBaseline ← snapshotHashes b;
  afterCandidate ← snapshotHashes c;
  _ ← of_res (sameSnapshot beforeBaseline afterBaseline);
  _ ← of_res (sameSnapshot beforeCandidate afterCandidate);
  match preview with
  | Err applyErr => of_res (unresolved verifyExact applyErr)
  | Ok preview =>
    _ ← (if verifyExact then wrap_err "exact baseline verification: %w"
                               (compareExactBaseline b (join tmp defaultBaselineRel) moduleRoot tmp)
         else mret tt);
    prep ← prepareCandidateWrites (set_module req moduleRoot) tmp (join tmp "reports") beforeBaseline;
    mret {| pr_Status := PlanReady; Preview := Some preview; Issue := None; prepared := Some prep |}
  end.

Definition planCandidate (req : ApplyRequest) (verifyExact : bool) : D PlanResult :=
  match Baseline req, Candidate req with
  | Some b, Some c =>
    let moduleRoot := default (above b) (ModuleRoot req) in
    _ ← of_res (requireModuleBaseline moduleRoot b);
    beforeBaseline ← wrap_err "snapshot baseline before plan: %w" (snapshotHashes b);
    beforeCandidate ← wrap_err "snapshot candidate before plan: %w" (snapshotHashes c);
    tmp ← MkdirTemp "protocolupgrade-plan-";
    deferred (RemoveAll tmp) (plan_in tmp req b c moduleRoot verifyExact beforeBaseline beforeCandidate)
  | _, _ => fail (Errorf "baseline and candidate are required" [])
  end.

Definition Plan (req : ApplyRequest) : D PlanResult := planCandidate req false.

Definition VerifyExact (req : ApplyRequest) : D PlanResult :=
  match ModuleRoot req with
  | None => fail (Errorf "exact verification requires module root, surface derivation, and generated Go" [])
  | Some _ => planCandidate req true
  end.

(** * Materialisation *)

(** The removal of the schemas a prepared candidate no longer has. *)
Definition remove_stale (p : preparedCandidate) (b : path) (name : string) : D unit :=
  match prep_files p !! (defaultBaselineRel +:+ "/" +:+ name) with
  | Some _ => mret tt
  | None => Remove (join b name)
  end.

Definition remove_retired (p : preparedCandidate) (b : path) (name : string) : D unit :=
  match prep_files p !! (defaultBaselineRel +:+ "/" +:+ name) with
  | Some _ => fail (Errorf "prepared baseline still contains retired report %s" [])
  | None => remove_if_present (join b name)
  end.

(** The paths of a prepared request are set: [planCandidate] required them. *)
Definition materialize (p : preparedCandidate) (b c : path) : D unit :=
  current ← snapshotHashes b;
  _ ← of_res (sameSnapshot (baseline p) current);
  let root := default (above b) (ModuleRoot (request p)) in
  old ← schemaFiles b;
  _ ← each (remove_stale p b) old;
  _ ← each (remove_retired p b) retired_reports;
  _ ← writeCandidateFiles root (prep_files p);
  writeCandidateFiles (reports_dir (Reports (request p)) c) (prep_reports p).

(** [PlanResult.Apply] *)
Definition PlanResult_Apply (p : PlanResult) : D (option ApplyResult) :=
  match String.eqb (pr_Status p) PlanReady, prepared p with
  | true, Some prep =>
    match Baseline (request prep), Candidate (request prep) with
    | Some b, Some c => _ ← materialize prep b c; mret (Preview p)
    | _, _ => fail (Errorf "apply requires a successfully constructed candidate" [])
    end
  | _, _ => fail (Errorf "apply requires a successfully constructed candidate" [])
  end.

Definition Apply (req : ApplyRequest) : D (option ApplyResult) :=
  planned ← Plan req;
  if String.eqb (pr_Status planned) PlanReady then PlanResult_Apply planned
  else fail (Errorf "candidate is not ready: %+v" []).
End upgrade.

(** * Checks *)

(** The overlay's text and the run of [go test -c]: the directory it runs in,
    where it puts what it builds, and the overlay it is given.  Its answer
    comes with the files it built. *)
Class CompileTexts := {
  encode_overlay : gmap path path -> string;
  go_test : path -> path -> option path -> fs -> res string * gmap string string
}.

Record CheckRequest := { chk_Baseline : option path; chk_Candidate : option path }.
Record Artifact := { art_Path : string; Reproducible : bool; Diagnostic : string }.
Record CheckResult := { Clean : bool; chk_FileDiff : FileDiff; Artifacts : list Artifact }.

Definition no_diff : FileDiff := {| fd_Added := []; fd_Changed := []; fd_Removed := [] |}.
Definition no_check : CheckResult := {| Clean := false; chk_FileDiff := no_diff; Artifacts := [] |}.

Definition fileDiffDiagnostic (diff : FileDiff) : string :=
  str_join (String newline "") (map (fun p => "added " +:+ p) (fd_Added diff) ++ map (fun p => "changed " +:+ p) (fd_Changed diff) ++
                    map (fun p => "removed " +:+ p) (fd_Removed diff)).

Definition artifactSummary (artifacts : list Artifact) : string :=
  let parts := omap (fun a => if negb (Reproducible a) && negb (String.eqb (Diagnostic a) "") then Some (Diagnostic a) else None) artifacts in
  if nil_list parts then "one or more artifacts differ" else str_join "; " parts.

Section checks.
Context {Sys : System} {Txt : Texts} {MT : ManifestTexts} {Gen : Generator} {Up : UpgradeTexts} {Cmp : CompileTexts}.

Definition artifact_of (rel want got : string) : Artifact :=
  let match_ := String.eqb want got in
  {| art_Path := rel; Reproducible := match_;
     Diagnostic := if match_ then "" else rel +:+ " mismatch: checked-in sha256=" +:+ sha256_hex want +:+ " generated sha256=" +:+ sha256_hex got |}.

(** The comparison of the generated files; a file that cannot be read ends it
    with those compared so far. *)
Fixpoint check_artifacts (root : path) (generated : gmap string string) (names : list string) : D (list Artifact * option error) :=
  match names with
  | [] => mret ([], None)
  | rel :: names' =>
    want ← attempt (ReadFile (join root rel));
    match want with
    | Err e => mret ([], Some e)
    | Ok want =>
      '(l, e) ← check_artifacts root generated names';
      mret (artifact_of rel want (bytes_of generated rel) :: l, e)
    end
  end.

Definition candidate_diff (b : path) (candidate : option path) : D FileDiff :=
  match candidate with
  | None => mret no_diff
  | Some c =>
    baseHashes ← wrap_err "hash baseline: %w" (schemaHashes b);
    candidateHashes ← wrap_err "hash candidate: %w" (schemaHashes c);
    mret (fileDiff baseHashes candidateHashes)
  end.

(** [Check] of an absolute module root: the result comes with the error. *)
Definition Check (root : path) (req : CheckRequest) : D (CheckResult * option error) :=
  diff ← attempt (candidate_diff (default (join root defaultBaselineRel) (chk_Baseline req)) (chk_Candidate req));
  match diff with
  | Err e => mret (no_check, Some e)
  | Ok diff =>
    if negb (fd_empty diff)
    then mret ({| Clean := false; chk_FileDiff := diff; Artifacts := [] |},
               Some (Errorf ("candidate does not match checked-in baseline:" +:+ String newline "" +:+ fileDiffDiagnostic diff) []))
    else
      generated ← attempt (RegeneratedFiles root);
      match generated with
      | Err e => mret ({| Clean := true; chk_FileDiff := diff; Artifacts := [] |}, Some e)
      | Ok generated =>
        '(arts, failed) ← check_artifacts root generated generatedProtocolArtifacts;
        match failed with
        | Some e => mret ({| Clean := true; chk_FileDiff := diff; Artifacts := arts |}, Some e)
        | None =>
          if forallb Reproducible arts then mret ({| Clean := true; chk_FileDiff := diff; Artifacts := arts |}, None)
          else mret ({| Clean := false; chk_FileDiff := diff; Artifacts := arts |},
                     Some (Errorf ("generated artifacts do not match checked-in outputs: " +:+ artifactSummary arts) []))
        end
      end
  end.

(** * Compilation *)

(** A run of [go], which writes what it builds below [output]. *)
Definition put_files (output : path) (built : gmap string string) (f : fs) : fs :=
  fold_left (fun f '(name, data) => <[output ++ [name] := File data]> f) (map_to_list built) f.

Definition GoTest (dir output : path) (overlay : option path) : D string :=
  syscall untouched (fun _ f =>
    let '(r, built) := go_test dir output overlay f in
    (r, put_files output built f, map (fun '(name, _) => WroteFile (output ++ [name])) (map_to_list built))).

(** The Go files of a candidate, each with the place it replaces. *)
Definition overlay_files (tmp module_ : path) (files : gmap string string) : D (list (path * path)) :=
  collect (fun '(name, data) =>
    let target := join (join tmp "candidate") name in
    _ ← MkdirAll (dir target);
    _ ← WriteFile target data;
    mret (join module_ name, target))
    (List.filter (fun '(name, _) => has_suffix ".go" name) (map_to_list files)).

Definition compile_issue : PlanIssue :=
  {| pi_Stage := "go_compatibility"; pi_Path := "codexsdk"; Reason := Some (Errorf "candidate SDK/test compilation failed: %v%s" []) |}.

Definition compile_in (p : PlanResult) (prep : preparedCandidate) (module_ tmp : path) : D PlanResult :=
  replacements ← overlay_files tmp module_ (prep_files prep);
  let overlayPath := join tmp "overlay.json" in
  _ ← WriteFile overlayPath (encode_overlay (list_to_map replacements));
  output ← attempt (GoTest (dir module_) tmp (Some overlayPath));
  match output with
  | Ok _ => mret p
  | Err _ =>
    accepted ← attempt (GoTest (dir module_) tmp None);
    match accepted with
    | Err _ => fail (Errorf "cannot establish candidate compatibility: candidate build: %v%saccepted build: %v%s" [])
    | Ok _ => mret {| pr_Status := PlanSemanticUnresolved; Preview := None; Issue := Some compile_issue; prepared := None |}
    end
  end.

(** [PlanResult.CheckCompatibility]; a plan sets the module root. *)
Definition CheckCompatibility (p : PlanResult) : D PlanResult :=
  if negb (String.eqb (pr_Status p) PlanReady) then mret p
  else match prepared p with
       | None => fail (Errorf "compatibility check requires a prepared candidate" [])
       | Some prep =>
         tmp ← MkdirTemp "protocolupgrade-compile-";
         deferred (RemoveAll tmp) (compile_in p prep (default [] (ModuleRoot (request prep))) tmp)
       end.

Definition PlanRepository (req : ApplyRequest) : D PlanResult :=
  planned ← Plan req;
  CheckCompatibility planned.
End checks.
