(* ===== verification/Plans.v ===== *)
(** Where a plan of an upgrade writes, and what an accepted plan and its
    application mean: the properties of [Upgrade.v]. *)

From Stdlib Require Import Ascii.
From S2P Require Import Prelude GoStrings JsonLex Json Disk Drift Surface CommonRS Manifest Coverage GeneratedCheck Upgrade.

Local Open Scope string_scope.
Local Open Scope list_scope.

(** * Where a plan writes *)

Section places.
Context {Sys : System} {Txt : Texts} {MT : ManifestTexts} {Gen : Generator} {Up : UpgradeTexts}.

(** A change inside a directory, or the making of one of its parents. *)
Definition inside (tmp : path) (c : change) : Prop :=
  match c with
  | MadeDir q => within tmp q \/ (q <> [] /\ within q tmp)
  | WroteFile q | Removed q => within tmp q
  end.

Lemma within_refl p : within p p.
Proof. exists []. by rewrite app_nil_r. Qed.
Lemma within_app p rel : within p (p ++ rel).
Proof. by exists rel. Qed.
Lemma within_trans p q r : within p q -> within q r -> within p r.
Proof. intros [x ->] [y ->]. exists (x ++ y). by rewrite app_assoc. Qed.
Lemma within_comparable p q r : within p r -> within q r -> within p q \/ within q p.
Proof.
  revert q r. induction p as [|x p IH]; intros [|y q] r [a Ha] [b Hb]; [left; apply within_refl|left; by eexists|right; by eexists|].
  rewrite Ha in Hb. injection Hb as <- Hb. destruct (IH q (p ++ a)) as [[u ->]|[u ->]]; [by exists a | by exists b | left; by exists u | right; by exists u].
Qed.
Lemma within_dir p : within (dir p) p.
Proof.
  destruct p as [|x p] using rev_ind; [apply within_refl|]. unfold dir. rewrite removelast_last. by exists [x].
Qed.
Lemma prefix_within q p : q ∈ prefixes p -> q <> [] /\ within q p.
Proof.
  unfold prefixes. intros (n & -> & Hn)%list_elem_of_fmap. split; [|exists (drop n p); by rewrite take_drop].
  apply elem_of_seq in Hn. destruct n as [|n]; [lia|]. destruct p; [simpl in Hn; lia | done].
Qed.

#[global] Instance within_dec p q : Decision (within p q).
Proof.
  destruct (strip p q) as [rel|] eqn:E.
  - left. exists rel. by apply strip_Some.
  - right. intros H. by apply strip_within in H.
Defined.

(** A name relative to a directory that stays in it. *)
Definition name_ok (name : string) : Prop := forall p, within p (join p name).

Lemma join_elements l p : Forall (fun e => element e = true) l ->
  rev (fold_left (clean_step true) l (rev p)) = p ++ l.
Proof.
  revert p. induction l as [|e l IH]; intros p H; simpl; [by rewrite rev_involutive, app_nil_r|].
  apply Forall_cons in H as [He H]. unfold element in He. reflect_bools.
  replace (clean_step true (rev p) e) with (rev (p ++ [e])).
  - rewrite IH by done. by rewrite <- app_assoc.
  - rewrite rev_app_distr. unfold clean_step. by repeat match goal with H : String.eqb _ _ = false |- _ => rewrite H; clear H end.
Qed.

Lemma join_good p name : Forall (fun e => element e = true) (split_byte "/"%char name) -> join p name = p ++ split_byte "/"%char name.
Proof. apply join_elements. Qed.

Lemma good_name name : forallb element (split_byte "/"%char name) = true -> name_ok name.
Proof. intros H p. apply forallb_Forall in H. rewrite join_good by done. apply within_app. Qed.

Lemma element_no_slash e : element e = true -> index_byte "/"%char e = None.
Proof. unfold element, contains_byte. intros H. reflect_bools. by destruct (index_byte "/"%char e). Qed.

Lemma join_rel_name p rel : Forall (fun e => element e = true) rel -> join p (rel_name rel) = p ++ rel.
Proof.
  intros H. destruct rel as [|e rel].
  { transitivity (rev (rev p)); [reflexivity | by rewrite rev_involutive, app_nil_r]. }
  unfold rel_name. rewrite <- (split_byte_join "/"%char (e :: rel)) at 2; [|done|eapply Forall_impl; [exact H | apply element_no_slash]].
  apply join_good. rewrite split_byte_join; [done | done | eapply Forall_impl; [exact H | apply element_no_slash]].
Qed.

Lemma rel_name_ok rel : Forall (fun e => element e = true) rel -> name_ok (rel_name rel).
Proof. intros H p. rewrite join_rel_name by done. apply within_app. Qed.

Lemma entries_good f root rel n : (rel, n) ∈ entries_below f root -> rel <> [] /\ Forall (fun e => element e = true) rel /\ f !! (root ++ rel) = Some n.
Proof.
  unfold entries_below. rewrite elem_of_sort_by, list_elem_of_omap. intros ([p m] & Hp%elem_of_map_to_list & H).
  destruct (strip root p) as [[|x r]|] eqn:E; [done| |done]. destruct (forallb element (x :: r)) eqn:Eg; [|done].
  injection H as <- <-. apply strip_Some in E as ->. split; [done|]. split; [by apply forallb_Forall | done].
Qed.

Lemma walk_good f root l rel n : walk_nodes f root = Ok l -> (rel, n) ∈ l -> Forall (fun e => element e = true) rel.
Proof.
  unfold walk_nodes. destruct (node_at f root) as [m|]; [|done]. intros [= <-] [H|H]%elem_of_cons.
  - injection H as -> _. constructor.
  - destruct m; [by apply not_elem_of_nil in H | by apply entries_good in H as (_ & ? & _)].
Qed.

Lemma schema_names_ok f root rel : rel ∈ schema_names f root -> name_ok rel.
Proof.
  unfold schema_names. destruct (walk_nodes f root) as [l|] eqn:E; [|by intros ?%not_elem_of_nil].
  rewrite elem_of_sort_strings, list_elem_of_omap. intros ([r n] & Hin & H). apply (walk_good _ _ _ _ _ E) in Hin.
  unfold schema_entry in H. simpl in H. destruct n; [|done]. destruct (_ || _); [done|]. injection H as <-. by apply rel_name_ok.
Qed.

Lemma look_value {A} (g : fs -> res A) a s s' : look g s = (Ok a, s') -> exists f, g f = Ok a.
Proof. intros (c & H & _)%syscall_Ok. injection H as H _ _. eauto. Qed.

Lemma schemaFiles_ok root l s s' : schemaFiles root s = (Ok l, s') -> Forall name_ok l.
Proof.
  intros (entries & s1 & [f Hf]%look_value & [= <- <-])%D_bind_Ok. apply Forall_forall. intros rel Hrel.
  apply (schema_names_ok f root). unfold schema_names. by rewrite Hf.
Qed.

(** ** Writing inside a directory *)

Implicit Types (tmp p b : path).

Lemma mkdir_inside tmp p : within tmp p -> confined (inside tmp) (MkdirAll p).
Proof.
  intros Hp. apply confined_MkdirAll. intros q [Hne Hq]%prefix_within. simpl.
  destruct (within_comparable _ _ _ Hp Hq); auto.
Qed.
Lemma mkdir_dir_inside tmp p : within tmp p -> confined (inside tmp) (MkdirAll (dir p)).
Proof.
  intros Hp. apply confined_MkdirAll. intros q [Hne Hq]%prefix_within. simpl.
  destruct (within_comparable _ _ _ Hp (within_trans _ _ _ Hq (within_dir p))); auto.
Qed.
Lemma write_inside tmp p data : within tmp p -> confined (inside tmp) (WriteFile p data).
Proof. intros Hp. by apply confined_WriteFile. Qed.
Lemma remove_inside tmp p : within tmp p -> confined (inside tmp) (Remove p).
Proof. intros Hp. by apply confined_Remove. Qed.
Lemma remove_if_present_inside tmp p : within tmp p -> confined (inside tmp) (remove_if_present p).
Proof. intros Hp. pose proof (remove_inside tmp p Hp). unfold remove_if_present. confine. Qed.
Lemma copyFileBytes_inside tmp src p : within tmp p -> confined (inside tmp) (copyFileBytes src p).
Proof. intros Hp. pose proof (write_inside tmp p). unfold copyFileBytes, ReadFile. confine. Qed.
End places.

Create HintDb inside.
#[export] Hint Resolve mkdir_inside mkdir_dir_inside write_inside remove_inside remove_if_present_inside copyFileBytes_inside
  confined_ret confined_of_res confined_fail confined_guard confined_look confined_wrap confined_attempt
  within_app within_refl : inside.

Ltac place :=
  repeat first
    [ progress intros
    | solve [eauto 4 with inside confined]
    | apply confined_bind
    | apply confined_wrap
    | apply confined_attempt
    | apply confined_collect
    | match goal with |- confined _ (match ?x with _ => _ end) => destruct x end ].

Section reads.
Context {Sys : System} {Txt : Texts} {MT : ManifestTexts} {Gen : Generator} {Up : UpgradeTexts}.
Context (Q : change -> Prop).

Lemma typeNameFromSchema_reads p : confined Q (typeNameFromSchema p).
Proof. pose proof (load_object_reads Q). unfold typeNameFromSchema. place. Qed.
Lemma type_coverage_reads root stablePaths old schema : confined Q (type_coverage root stablePaths old schema).
Proof. pose proof typeNameFromSchema_reads. unfold type_coverage, defaultTypeCoverage. place. Qed.
Lemma topLevelObjectFields_reads root schema stability : confined Q (topLevelObjectFields root schema stability).
Proof. pose proof (load_object_reads Q). unfold topLevelObjectFields. place. Qed.
Lemma field_coverage_reads root stableRoot stablePaths old schema : confined Q (field_coverage root stableRoot stablePaths old schema).
Proof. pose proof (load_object_reads Q). pose proof topLevelObjectFields_reads. unfold field_coverage. place. Qed.
Lemma buildCoverage_reads root stableRoot old manifest : confined Q (buildCoverage root stableRoot old manifest).
Proof. pose proof type_coverage_reads. pose proof field_coverage_reads. unfold buildCoverage. place. Qed.
Lemma buildMetadata_reads root old a b c d t : confined Q (buildMetadata root old a b c d t).
Proof.
  assert (forall t, confined Q (unset_now t)) by (intros t'; apply confined_same; by intros s r s' [= _ <-]).
  unfold buildMetadata. place.
Qed.
Lemma parseRequestMappings_reads p : confined Q (parseRequestMappings p).
Proof. unfold parseRequestMappings, ReadFile. place. Qed.
Lemma generatePackage_reads a b c d : confined Q (generatePackage a b c d).
Proof. unfold generatePackage. place. Qed.
Lemma deriveSurface_reads a b c m d : confined Q (deriveSurface a b c m d).
Proof. pose proof buildCoverage_reads. pose proof generatePackage_reads. unfold deriveSurface, FilesFromPackage. place. Qed.
Lemma classify_reads {A} stage (m : D A) : confined Q m -> confined Q (classify_errors stage m).
Proof.
  intros Hm s r s'. unfold classify_errors. pose proof (Hm s) as H. destruct (m s) as [[a|e] s1]; intros [= <- <-]; by eapply H.
Qed.
Lemma readCandidateFiles_reads root : confined Q (readCandidateFiles root).
Proof. unfold readCandidateFiles, WalkDir, ReadFile. place. Qed.
Lemma prepareCandidateWrites_reads req root reports snapshot : confined Q (prepareCandidateWrites req root reports snapshot).
Proof. pose proof readCandidateFiles_reads. unfold prepareCandidateWrites, ReadFile. place. Qed.
Lemma semanticJSON_reads p omit : confined Q (semanticJSON p omit).
Proof. unfold semanticJSON, ReadFile. place. Qed.
Lemma compareExactBaseline_reads a r m rm : confined Q (compareExactBaseline a r m rm).
Proof.
  pose proof semanticJSON_reads. assert (forall n, confined Q (same_metadata a r n)) by (intros n; unfold same_metadata; place).
  assert (forall n, confined Q (same_artifact m rm n)) by (intros n; unfold same_artifact, ReadFile; place).
  unfold compareExactBaseline. place; apply confined_each; auto.
Qed.
Lemma codex_version_reads req reports : confined Q (codex_version req reports).
Proof. unfold codex_version, ReadFile. place. Qed.
Lemma loadCommonRSSourceSHA_reads rs sha : confined Q (loadCommonRSSourceSHA rs sha).
Proof. unfold loadCommonRSSourceSHA, ReadFile. place. Qed.
Lemma verifyCommonRSProvenance_reads show rs a b repo : confined Q (verifyCommonRSProvenance show rs a b repo).
Proof. unfold verifyCommonRSProvenance, ReadFile. place. Qed.
Lemma clock_reads req : confined Q (clock_of req).
Proof. apply confined_same. by intros s r s' [= _ <-]. Qed.
End reads.

#[export] Hint Resolve buildCoverage_reads buildMetadata_reads parseRequestMappings_reads deriveSurface_reads classify_reads
  readCandidateFiles_reads prepareCandidateWrites_reads compareExactBaseline_reads codex_version_reads
  loadCommonRSSourceSHA_reads verifyCommonRSProvenance_reads clock_reads loadJSON_reads load_object_reads
  buildManifest_reads : confined.

Section insides.
Context {Sys : System} {Txt : Texts} {MT : ManifestTexts} {Gen : Generator} {Up : UpgradeTexts}.
Implicit Types (tmp p b : path).

Lemma name_within tmp p name : name_ok name -> within tmp p -> within tmp (join p name).
Proof. intros Hn Hp. by eapply within_trans; [exact Hp | apply Hn]. Qed.

Lemma names_ok (l : list string) : forallb (fun name => forallb element (split_byte "/"%char name)) l = true -> Forall name_ok l.
Proof. intros H%forallb_Forall. eapply Forall_impl; [exact H|]. intros name Hn. by apply good_name. Qed.

Definition report_names : list string := ["drift_summary.json"; MatrixSkeletonName; "SUMMARY.md"; "drift_report.json"].

Lemma fixed_names : Forall name_ok (exactMetadataFiles ++ retired_reports ++ artifacts ++ report_names ++
  [defaultBaselineRel; "protocolv2"; "reports"]).
Proof. apply names_ok. vm_compute. reflexivity. Qed.

Lemma fixed_within tmp p name : name ∈ exactMetadataFiles ++ retired_reports ++ artifacts ++ report_names ++
  [defaultBaselineRel; "protocolv2"; "reports"] ->
  within tmp p -> within tmp (join p name).
Proof. intros Hn. apply name_within. pose proof fixed_names as H. rewrite Forall_forall in H. by apply H. Qed.

Ltac fixed := apply fixed_within; [apply (bool_decide_unpack _); vm_compute; exact I | auto with inside].

Lemma copyTreeFiles_inside tmp src dst : within tmp dst -> confined (inside tmp) (copyTreeFiles src dst).
Proof.
  intros Hd. unfold copyTreeFiles. apply confined_bind; [apply confined_look|]. intros l. apply confined_each.
  intros [rel n] _. assert (within tmp (dst ++ rel)) by (eapply within_trans; [exact Hd | apply within_app]).
  destruct n; place.
Qed.

Lemma copyHandwritten_inside tmp src dst : within tmp dst -> confined (inside tmp) (copyHandwrittenProtocolPackage src dst).
Proof.
  intros Hd. unfold copyHandwrittenProtocolPackage. apply confined_bind; [apply confined_look|]. intros l. apply confined_each.
  intros [name n] _. assert (within tmp (dst ++ [name])) by (eapply within_trans; [exact Hd | apply within_app]).
  destruct n; place.
Qed.

Lemma copyCandidateSchema_inside tmp c b : within tmp b -> confined (inside tmp) (copyCandidateSchema c b).
Proof.
  intros Hb. unfold copyCandidateSchema.
  apply (confined_bind_with _ (Forall name_ok)); [apply schemaFiles_reads | intros s l s'; apply schemaFiles_ok|].
  intros current Hcur. apply confined_bind.
  { apply confined_each. intros rel Hrel. rewrite Forall_forall in Hcur. apply remove_inside, name_within; auto. }
  intros _. apply (confined_bind_with _ (Forall name_ok)); [apply schemaFiles_reads | intros s l s'; apply schemaFiles_ok|].
  intros files Hfiles. apply confined_each. intros rel Hrel. rewrite Forall_forall in Hfiles.
  assert (within tmp (join b rel)) by (apply name_within; auto). place.
Qed.

(** A derivation in [b], for the module [root] and with its reports in [d],
    makes no other changes than these. *)
Definition derives (Q : change -> Prop) (b root d : path) : Prop :=
  (forall name, name ∈ exactMetadataFiles -> Q (WroteFile (join b name))) /\
  (forall name, name ∈ artifacts ->
     Q (WroteFile (join root name)) /\ forall q, q ∈ prefixes (dir (join root name)) -> Q (MadeDir q)) /\
  (forall name, name ∈ report_names -> Q (WroteFile (join d name))) /\
  (forall q, q ∈ prefixes d -> Q (MadeDir q)).

(** The files a surface comes with are the four generated ones. *)
Lemma deriveSurface_files a b m mf d s items files s' :
  deriveSurface a b m mf d s = (Ok (items, files), s') -> forall name, is_Some (files !! name) -> name ∈ artifacts.
Proof.
  intros H. do 7 (apply D_bind_Ok in H as (? & ? & _ & H)).
  apply D_bind_Ok in H as (fs & s1 & Hf & [= _ <- _]). apply D_bind_Ok in Hf as (sdk & s2 & _ & [= <- _]).
  intros name [v Hv].
  repeat (apply lookup_insert_Some in Hv as [[<- _]|[_ Hv]]; [apply (bool_decide_unpack _); vm_compute; exact I|]).
  done.
Qed.

Section derivation.
Context (Q : change -> Prop) (b root d : path).
Hypothesis HQ : derives Q b root d.

Ltac listed := apply (bool_decide_unpack _); vm_compute; exact I.

Lemma meta_derives name data : name ∈ exactMetadataFiles -> confined Q (WriteFile (join b name) data).
Proof. intros Hn. apply confined_WriteFile. destruct HQ as [H _]. by apply H. Qed.

Lemma report_derives name data : name ∈ report_names -> confined Q (WriteFile (join d name) data).
Proof. intros Hn. apply confined_WriteFile. destruct HQ as (_ & _ & H & _). by apply H. Qed.

Lemma reports_derives req c gc v : Reports req = Some d -> confined Q (writeAppliedReports req b c gc v).
Proof.
  intros Hr. assert (confined Q (MkdirAll d)) by (apply confined_MkdirAll; apply HQ).
  assert (forall data, confined Q (WriteFile (join d "drift_summary.json") data)) by (intros; apply report_derives; listed).
  assert (forall data, confined Q (WriteFile (join d MatrixSkeletonName) data)) by (intros; apply report_derives; listed).
  assert (forall data, confined Q (WriteFile (join d "SUMMARY.md") data)) by (intros; apply report_derives; listed).
  assert (forall data, confined Q (WriteFile (join d "drift_report.json") data)) by (intros; apply report_derives; listed).
  assert (forall r t, confined Q (WriteReports (Some d) r t)) by (intros r t; unfold WriteReports; place).
  unfold writeAppliedReports. rewrite Hr. cbn [reports_dir]. place.
Qed.

Lemma artifacts_derives files : (forall name, is_Some (files !! name) -> name ∈ artifacts) ->
  confined Q (writeCandidateFiles root files).
Proof.
  intros Hn. unfold writeCandidateFiles. apply confined_each. intros name Hin.
  assert (Ha : name ∈ artifacts).
  { apply Hn. unfold sorted_keys in Hin. rewrite elem_of_sort_strings, list_elem_of_fmap in Hin.
    destruct Hin as ([k v] & -> & Hkv%elem_of_map_to_list). eauto. }
  destruct HQ as (_ & H & _). apply H in Ha as [Hw Hm].
  apply confined_bind; [by apply confined_MkdirAll | intros _; by apply confined_WriteFile].
Qed.

Lemma derive_in_derives req c stable rs sha v md om oc preflight : Reports req = Some d ->
  confined Q (derive_in req b c stable rs root sha v md om oc preflight).
Proof.
  intros Hr. pose proof (fun c gc v => reports_derives req c gc v Hr).
  assert (Hgen : forall a k e, confined Q (updateManifestGeneration (join b "manifest_generation.json") a k e)).
  { intros a k e. assert (forall data, confined Q (WriteFile (join b "manifest_generation.json") data))
      by (intros; apply meta_derives; listed). unfold updateManifestGeneration. place. }
  assert (Hfiles : forall cov m s r s1, classify_errors "surface" (deriveSurface stable b root m cov) s = (Ok r, s1) ->
    confined Q (writeCandidateFiles root r.2)).
  { intros cov m s [items files] s1 Hrun. apply artifacts_derives.
    assert (Hderive : deriveSurface stable b root m cov s = (Ok (items, files), s1))
      by (unfold classify_errors in Hrun; destruct (deriveSurface stable b root m cov s) as [[?|?] ?]; done).
    exact (deriveSurface_files _ _ _ _ _ _ _ _ _ Hderive). }
  unfold derive_in.
  do 7 (apply confined_bind; [first [apply meta_derives; listed | eauto 3 with confined] | intros ?]).
  eapply (confined_bind_with _ (fun r => confined Q (writeCandidateFiles root r.2)));
    [eauto with confined | intros s r s1; apply Hfiles|].
  intros [surface files] Hw. cbn [snd] in Hw.
  do 2 (apply confined_bind; [apply meta_derives; listed | intros ?]).
  apply confined_bind; [done | intros ?]. apply confined_bind; [done | intros ?]. place.
Qed.
End derivation.

Lemma derives_inside tmp b root d : within tmp b -> within tmp root -> within tmp d -> derives (inside tmp) b root d.
Proof.
  intros Hb Hm Hd.
  assert (Hdir : forall p q, within tmp p -> q ∈ prefixes p \/ q ∈ prefixes (dir p) -> inside tmp (MadeDir q)).
  { intros p q Hp Hq. assert (Hw : q <> [] /\ within q p).
    { destruct Hq as [?%prefix_within|[? ?]%prefix_within]; [done|]. split; [done|]. eapply within_trans; [eassumption | apply within_dir]. }
    destruct Hw as [Hne Hw], (within_comparable _ _ _ Hp Hw); simpl; auto. }
  assert (Hin : forall p name l, name ∈ l -> l ⊆ exactMetadataFiles ++ retired_reports ++ artifacts ++ report_names ->
    within tmp p -> within tmp (join p name)).
  { intros p name l Hn Hl Hp. apply fixed_within; [|done]. apply Hl in Hn. rewrite !elem_of_app in *. tauto. }
  split; [|split; [|split]].
  - intros name Hn. eapply Hin; [exact Hn | set_solver | done].
  - intros name Hn. assert (within tmp (join root name)) by (eapply Hin; [exact Hn | set_solver | done]). eauto.
  - intros name Hn. eapply Hin; [exact Hn | set_solver | done].
  - intros q Hq. apply (Hdir d); auto.
Qed.

Lemma retired_inside tmp b : within tmp b ->
  confined (inside tmp) (each (fun name => remove_if_present (join b name)) retired_reports).
Proof.
  intros Hb. apply confined_each. intros name Hn. apply remove_if_present_inside, fixed_within; [|done].
  rewrite !elem_of_app. tauto.
Qed.

Lemma construct_in_inside tmp req b c stable rs moduleRoot sha v md om oc d :
  within tmp b -> within tmp moduleRoot -> Reports req = Some d -> within tmp d ->
  confined (inside tmp) (construct_in req b c stable rs moduleRoot sha v md om oc).
Proof.
  intros Hb Hm Hr Hd. pose proof (copyCandidateSchema_inside tmp c b Hb). pose proof (retired_inside tmp b Hb).
  pose proof (fun report => derive_in_derives _ b moduleRoot d (derives_inside tmp b moduleRoot d Hb Hm Hd) req c stable rs sha v md om oc report Hr).
  unfold construct_in. do 3 (apply confined_bind; [eauto with confined | intros ?]). auto.
Qed.

Lemma constructCandidate_inside tmp req b d moduleRoot :
  Baseline req = Some b -> within tmp b -> within tmp moduleRoot -> Reports req = Some d -> within tmp d ->
  confined (inside tmp) (constructCandidate req moduleRoot).
Proof.
  intros Hb Hin Hm Hr Hd. unfold constructCandidate. rewrite Hb.
  destruct (Candidate req) as [c|]; [|eauto with confined]. destruct (StableCandidate req) as [st|]; [|eauto with confined].
  destruct (CommonRS req) as [rs|]; [|eauto with confined]. destruct (_ || _); [eauto with confined|].
  do 6 (apply confined_bind; [eauto with confined | intros ?]). by eapply construct_in_inside.
Qed.

Lemma stage_inside tmp b moduleRoot : confined (inside tmp) (stage b moduleRoot tmp).
Proof.
  assert (within tmp (join tmp defaultBaselineRel)) by fixed. assert (within tmp (join tmp "protocolv2")) by fixed.
  pose proof copyTreeFiles_inside. pose proof copyHandwritten_inside. unfold stage. place.
Qed.

Lemma plan_in_inside tmp req b c moduleRoot exact_ sb sc :
  confined (inside tmp) (plan_in tmp req b c moduleRoot exact_ sb sc).
Proof.
  assert (Hb : within tmp (join tmp defaultBaselineRel)) by fixed. assert (Hr : within tmp (join tmp "reports")) by fixed.
  pose proof (stage_inside tmp b moduleRoot).
  pose proof (constructCandidate_inside tmp (set_planned req (join tmp defaultBaselineRel) tmp (join tmp "reports")) _ _ tmp
    eq_refl Hb (within_refl tmp) eq_refl Hr).
  unfold plan_in. do 6 (apply confined_bind; [eauto 4 with confined | intros ?]).
  destruct a0 as [preview|e]; [|eauto with confined]. apply confined_bind; [destruct exact_; eauto with confined|]. intros _. place.
Qed.
End insides.


(** ** The names of a prepared candidate *)

Section names.
Context {Sys : System} {Txt : Texts} {MT : ManifestTexts} {Gen : Generator} {Up : UpgradeTexts}.

(** A name that stands for the path [rel] below any directory. *)
Definition placed (name : string) (rel : path) : Prop := forall p, join p name = p ++ rel.

(** Every name has its place, and no two share one. *)
Definition names_placed (files : gmap string string) : Prop :=
  (forall name, is_Some (files !! name) -> exists rel, placed name rel) /\
  (forall n1 n2 rel, is_Some (files !! n1) -> is_Some (files !! n2) -> placed n1 rel -> placed n2 rel -> n1 = n2).

Lemma names_ok_placed files : names_placed files -> forall name, is_Some (files !! name) -> name_ok name.
Proof. intros [H _] name [rel Hr]%H p. rewrite Hr. apply within_app. Qed.

Lemma placed_fun name r1 r2 : placed name r1 -> placed name r2 -> r1 = r2.
Proof. intros H1 H2. exact (eq_trans (eq_sym (H1 [])) (H2 [])). Qed.

Lemma placed_rel_name rel : Forall (fun e => element e = true) rel -> placed (rel_name rel) rel.
Proof. intros H p. by apply join_rel_name. Qed.

Lemma rel_name_inj r1 r2 : Forall (fun e => element e = true) r1 -> Forall (fun e => element e = true) r2 ->
  rel_name r1 = rel_name r2 -> r1 = r2.
Proof. intros H1 H2 E. eapply (placed_fun (rel_name r1)); [by apply placed_rel_name | rewrite E; by apply placed_rel_name]. Qed.

Lemma split_byte_cut c a b : split_byte c (a +:+ String c b) = split_byte c a ++ split_byte c b.
Proof.
  induction a as [|x a IH]; simpl.
  - by rewrite Ascii.eqb_refl.
  - rewrite IH. destruct (Ascii.eqb x c); [done|]. destruct (split_byte c a) eqn:E; [|done].
    by destruct (split_byte_nonempty c a).
Qed.

Lemma join_cut p a b : join p (a +:+ "/" +:+ b) = join (join p a) b.
Proof.
  unfold join. change ("/" +:+ b) with (String "/" b). rewrite split_byte_cut, fold_left_app, rev_involutive. done.
Qed.

Lemma placed_cut a b ra rb : placed a ra -> placed b rb -> placed (a +:+ "/" +:+ b) (ra ++ rb).
Proof. intros Ha Hb p. by rewrite join_cut, Ha, Hb, app_assoc. Qed.

Lemma placed_name name : forallb element (split_byte "/"%char name) = true -> placed name (split_byte "/"%char name).
Proof. intros H%forallb_Forall p. by apply join_good. Qed.

Definition baseline_rel : path := split_byte "/"%char defaultBaselineRel.
Lemma placed_baseline : placed defaultBaselineRel baseline_rel.
Proof. apply placed_name. reflexivity. Qed.

Abbreviation good rel := (Forall (fun e => element e = true) rel).

(** The names of a prepared candidate: the generated files, and files of the
    baseline. *)
Definition owned_name (name : string) : Prop :=
  name ∈ generatedProtocolArtifacts \/ exists rel, good rel /\ name = defaultBaselineRel +:+ "/" +:+ rel_name rel.

Lemma artifact_placed name : name ∈ generatedProtocolArtifacts ->
  placed name (split_byte "/"%char name) /\ head (split_byte "/"%char name) <> Some "internal".
Proof.
  intros H. assert (Hall : Forall (fun name => forallb element (split_byte "/"%char name) = true /\
    head (split_byte "/"%char name) <> Some "internal") generatedProtocolArtifacts) by (repeat constructor; done).
  rewrite Forall_forall in Hall. apply Hall in H as [H1 H2]. split; [by apply placed_name | done].
Qed.

Lemma owned_baseline_placed rel : good rel -> placed (defaultBaselineRel +:+ "/" +:+ rel_name rel) (baseline_rel ++ rel).
Proof. intros H. apply placed_cut; [apply placed_baseline | by apply placed_rel_name]. Qed.

Lemma owned_placed files : (forall name, is_Some (files !! name) -> owned_name name) -> names_placed files.
Proof.
  intros Ho. split.
  - intros name [H%artifact_placed|(rel & Hr & ->)]%Ho; [by eexists; apply H | eexists; by apply owned_baseline_placed].
  - intros n1 n2 rel H1%Ho H2%Ho P1 P2.
    destruct H1 as [[Q1 D1]%artifact_placed|(r1 & G1 & ->)], H2 as [[Q2 D2]%artifact_placed|(r2 & G2 & ->)].
    + apply (split_byte_inj "/"%char). by rewrite <- (placed_fun _ _ _ P1 Q1), <- (placed_fun _ _ _ P2 Q2).
    + destruct D1. by rewrite <- (placed_fun _ _ _ P1 Q1), (placed_fun _ _ _ P2 (owned_baseline_placed _ G2)).
    + destruct D2. by rewrite <- (placed_fun _ _ _ P2 Q2), (placed_fun _ _ _ P1 (owned_baseline_placed _ G1)).
    + assert (E : baseline_rel ++ r1 = baseline_rel ++ r2)
        by (rewrite <- (placed_fun _ _ _ P1 (owned_baseline_placed _ G1)); apply (placed_fun _ _ _ P2), owned_baseline_placed, G2).
      apply app_inv_head in E. by rewrite E.
Qed.

Lemma list_to_map_keys (l : list (string * string)) name : is_Some ((list_to_map l : gmap string string) !! name) -> name ∈ l.*1.
Proof. intros [v Hv%elem_of_list_to_map_2]. apply list_elem_of_fmap. by exists (name, v). Qed.

(** A loop pairs each key with what it reads. *)
Lemma collect_keys {A B} (key : A -> string) (step : A -> D (string * B)) l ys s s' :
  (forall x y s s', step x s = (Ok y, s') -> y.1 = key x) -> collect step l s = (Ok ys, s') -> ys.*1 = map key l.
Proof.
  intros Hs. revert ys s s'. induction l as [|x l IH]; intros ys s s'; simpl; [by intros [= <- _]|].
  intros (y & s1 & Hy%Hs & (zs & s2 & Hz%IH & [= <- _])%D_bind_Ok)%D_bind_Ok. rewrite fmap_cons. cbn [map]. by rewrite Hy, Hz.
Qed.

Definition file_rels (entries : list (path * node)) : list path :=
  omap (fun '(rel, n) => match n with File _ => Some rel | Dir => None end) entries.

Lemma read_names root m s s' : readCandidateFiles root s = (Ok m, s') ->
  forall name, is_Some (m !! name) -> exists rel, good rel /\ name = rel_name rel.
Proof.
  intros (entries & s1 & [f Hf]%look_value & (l & s2 & Hl & [= <- _])%D_bind_Ok)%D_bind_Ok name Hn%list_to_map_keys.
  apply (collect_keys rel_name) in Hl; [|intros x y t t' (d & ? & _ & [= <- _])%D_bind_Ok; done].
  rewrite Hl in Hn. apply list_elem_of_In, in_map_iff in Hn as (rel & <- & Hin). exists rel. split; [|done].
  apply list_elem_of_In, list_elem_of_omap in Hin as ([r [d|]] & Hin & [= ->]). by eapply walk_good.
Qed.

Lemma prepare_value req root reports snapshot prep s s' : prepareCandidateWrites req root reports snapshot s = (Ok prep, s') ->
  request prep = req /\ baseline prep = snapshot /\ (forall name, is_Some (prep_files prep !! name) -> owned_name name) /\
  (forall name, is_Some (prep_reports prep !! name) -> exists rel, good rel /\ name = rel_name rel).
Proof.
  intros (m & s1 & Hm & H)%D_bind_Ok. apply D_bind_Ok in H as (arts & s2 & Ha & H).
  apply D_bind_Ok in H as (reps & s3 & Hr & [= <- _]). pose proof (read_names _ _ _ _ Hm) as Hnames.
  split; [done|]. split; [done|]. split; [|by eapply read_names]. intros name Hn.
  apply list_to_map_keys in Hn. rewrite fmap_app, elem_of_app in Hn. destruct Hn as [Hn|Hn].
  - left. apply (collect_keys (fun name => name)) in Ha; [|intros x y t t' (d & ? & _ & [= <- _])%D_bind_Ok; done].
    by rewrite map_id in Ha; rewrite <- Ha.
  - right. apply list_elem_of_fmap in Hn as ([k v] & -> & Hk). apply list_elem_of_In, in_map_iff in Hk as ([n d] & [= <- <-] & Hk).
    apply list_elem_of_In, elem_of_map_to_list in Hk. destruct (Hnames n) as (rel & Hg & ->); [by exists d|]. by exists rel.
Qed.
End names.

Section compile.
Context {Sys : System} {Txt : Texts} {MT : ManifestTexts} {Gen : Generator} {Up : UpgradeTexts} {Cmp : CompileTexts}.
Implicit Types (tmp p : path).


Lemma put_files_spares tmp output built f : within tmp output -> spares (inside tmp) f (put_files output built f).
Proof.
  intros Ho. unfold put_files. generalize (map_to_list built) as l. intros l. revert f.
  induction l as [|[name data] l IH]; intros f; [apply spares_refl|]. simpl. eapply spares_trans; [|apply IH].
  assert (Hw : inside tmp (WroteFile (output ++ [name]))) by (eapply within_trans; [exact Ho | apply within_app]).
  apply spares_insert; [by eexists|]. right. by eexists.
Qed.

Lemma GoTest_inside tmp d output overlay : within tmp output -> confined (inside tmp) (GoTest d output overlay).
Proof.
  intros Ho. apply confined_syscall; [apply untouched_ok|]. intros n f r f' c. destruct (go_test _ _ _ _) as [r0 built].
  intros [= _ <- <-]. split; [|by apply put_files_spares]. apply Forall_forall. intros ch ([name data] & -> & _)%list_elem_of_fmap.
  eapply within_trans; [exact Ho | apply within_app].
Qed.

Lemma compile_in_inside tmp plan prep m : names_placed (prep_files prep) -> confined (inside tmp) (compile_in plan prep m tmp).
Proof.
  intros Hn. assert (Hc : within tmp (join tmp "candidate")) by (apply good_name; reflexivity).
  assert (Ho : within tmp (join tmp "overlay.json")) by (apply good_name; reflexivity).
  assert (Hfiles : confined (inside tmp) (overlay_files tmp m (prep_files prep))).
  { unfold overlay_files. apply confined_collect_in. intros [name data] Hin.
    assert (within tmp (join (join tmp "candidate") name)).
    { eapply within_trans; [exact Hc|]. apply (names_ok_placed _ Hn). apply list_elem_of_In, filter_In in Hin as [Hin _].
      apply list_elem_of_In, elem_of_map_to_list in Hin. eauto. }
    place. }
  pose proof (fun o => GoTest_inside tmp (dir m) tmp o (within_refl tmp)). unfold compile_in. place.
Qed.
End compile.

(** * What a plan leaves *)

Section plans.
Context {Sys : System} {Txt : Texts} {MT : ManifestTexts} {Gen : Generator} {Up : UpgradeTexts} {Cmp : CompileTexts}.
Abbreviation reads := (confined (fun _ => False)).

(** Every node but the root has its parents in the tree. *)
Definition tree_ok (f : fs) : Prop := forall p q, within q p -> q <> [] -> is_Some (f !! p) -> is_Some (f !! q).

(** A run that works in temporary directories only: all it changes is inside
    fresh directories; in a quiet system it keeps every node that was there, and
    when no call fails it leaves the tree as it found it. *)
Definition scratch (s s' : disk) : Prop :=
  (exists tmps l, journal s' = l ++ journal s /\
     Forall (fun tmp => exists n f pattern, tmp = temp_name n f pattern) tmps /\
     Forall (fun c => Exists (fun tmp => inside tmp c) tmps) l) /\
  (quiet Sys ->
     (forall p n, files s !! p = Some n -> files s' !! p = Some n) /\
     ((forall n, fault n = None) -> tree_ok (files s) -> files s' = files s)).

Lemma scratch_same s s' : journal s' = journal s -> (quiet Sys -> files s' = files s) -> scratch s s'.
Proof.
  intros Hj Hf. split; [by exists [], []|]. intros Hq. by rewrite (Hf Hq).
Qed.

Lemma scratch_trans s1 s2 s3 : scratch s1 s2 -> scratch s2 s3 -> scratch s1 s3.
Proof.
  intros [(t1 & l1 & J1 & T1 & F1) K1] [(t2 & l2 & J2 & T2 & F2) K2]. split.
  - exists (t1 ++ t2), (l2 ++ l1). split; [by rewrite J2, J1, app_assoc|]. split; [by apply Forall_app|].
    apply Forall_app. split; (eapply Forall_impl; [eassumption|]); intros c Hc; apply Exists_app; auto.
  - intros Hq. destruct (K1 Hq) as [A1 B1], (K2 Hq) as [A2 B2]. split; [eauto|]. intros Hf Ht.
    rewrite <- (B1 Hf Ht). apply B2; [done|]. by rewrite (B1 Hf Ht).
Qed.

Lemma scratch_reads {A} (m : D A) s r s' : reads m -> m s = (r, s') -> scratch s s'.
Proof. intros Hm H. destruct (reads_keep _ _ _ _ Hm H). by apply scratch_same. Qed.

Definition scratches {A} (m : D A) : Prop := forall s r s', m s = (r, s') -> scratch s s'.

Lemma scratches_bind_with {A C} (R : A -> Prop) (m : D A) (k : A -> D C) :
  scratches m -> (forall s a s', m s = (Ok a, s') -> R a) -> (forall a, R a -> scratches (k a)) -> scratches (m ≫= k).
Proof.
  intros Hm HR Hk s r s' [(a & s1 & H1 & H2)|(e & H1 & ->)]%D_bind_inv; [|by eapply Hm].
  eapply scratch_trans; [by eapply Hm | eapply Hk; [by eapply HR | done]].
Qed.
Lemma scratches_bind {A C} (m : D A) (k : A -> D C) : scratches m -> (forall a, scratches (k a)) -> scratches (m ≫= k).
Proof. intros Hm Hk. apply (scratches_bind_with (fun _ => True)); auto. Qed.
Lemma scratches_reads {A} (m : D A) : reads m -> scratches m.
Proof. intros Hm s r s'. by apply scratch_reads. Qed.

Lemma MkdirTemp_inv pattern r s s' : MkdirTemp pattern s = (r, s') ->
  match r with
  | Ok tmp => exists f, tmp = temp_name (clock s) f pattern /\ is_dir f (dir tmp) = true /\ journal s' = MadeDir tmp :: journal s /\
                (quiet Sys -> f = files s /\ files s' = <[tmp := Dir]> f)
  | Err _ => journal s' = journal s /\ (quiet Sys -> files s' = files s)
  end.
Proof.
  unfold MkdirTemp, syscall, untouched. destruct (fault (clock s)) as [[e partial]|].
  - intros [= <- <-]. split; [done|]. intros Hq. apply Hq.
  - destruct (is_dir _ _) eqn:Ed; intros [= <- <-]; simpl.
    + eexists. split; [reflexivity|]. split; [done|]. split; [done|]. intros Hq. by rewrite Hq.
    + split; [done|]. intros Hq. apply Hq.
Qed.

Lemma strict_within q tmp : within q tmp -> ~ within tmp q -> within q (dir tmp).
Proof.
  intros [rel ->] Hn. destruct rel as [|x rel] using rev_ind.
  - destruct Hn. rewrite app_nil_r. apply within_refl.
  - rewrite app_assoc. unfold dir. rewrite removelast_last. apply within_app.
Qed.

Lemma is_dir_some f p : is_dir f p = true -> p <> [] -> is_Some (f !! p).
Proof.
  intros H Hp. destruct (f !! p) as [n|] eqn:E; [by exists n|]. exfalso. revert H. unfold is_dir.
  replace (node_at f p) with (@None node); [done|]. rewrite <- E. by destruct p.
Qed.

(** In a quiet system, what a confined run does to the other nodes. *)
Lemma inside_keeps tmp f f' p n : spares (inside tmp) f f' -> ~ within tmp p -> f !! p = Some n -> f' !! p = Some n.
Proof.
  intros [_ B] Hp. apply B. intros [q|q|q] Hin Ha; simpl in *; [by subst | done | by apply Hp; eapply within_trans].
Qed.
Lemma inside_other tmp f f' p : spares (inside tmp) f f' -> ~ within tmp p -> (p = [] \/ ~ within p tmp) -> f' !! p = f !! p.
Proof.
  intros [A _] Hp Hr. apply A. intros [q|q|q] Hin Ht; simpl in *; subst; [done | | by apply Hp; eapply within_trans].
  destruct Hin as [?|[? ?]]; [done|]. destruct Hr; auto.
Qed.

Lemma scratches_temp {A} pattern (body : path -> D A) :
  (forall tmp, confined (inside tmp) (body tmp)) ->
  scratches (tmp ← MkdirTemp pattern; deferred (RemoveAll tmp) (body tmp)).
Proof.
  intros Hbody s r s' [(tmp & s1 & (f & Ht & Hd & J1 & F1)%MkdirTemp_inv & H)|(e & [J1 F1]%MkdirTemp_inv & ->)]%D_bind_inv;
    [|by apply scratch_same].
  assert (Hc : confined (inside tmp) (deferred (RemoveAll tmp) (body tmp)))
    by (apply confined_deferred; [apply confined_RemoveAll, within_refl | done]).
  destruct (Hc _ _ _ H) as [(l & E & F) K]. split.
  - exists [tmp], (l ++ [MadeDir tmp]). split; [by rewrite E, J1, <- app_assoc|]. split; [constructor; [by eexists _, _, _ | constructor]|].
    apply Forall_app. split; [eapply Forall_impl; [exact F | intros c Hin; by constructor]|].
    constructor; [|constructor]. constructor. left. apply within_refl.
  - intros Hq. destruct (F1 Hq) as [-> Es]. specialize (K Hq). rewrite Es in K.
    assert (Hfresh : forall rel, files s !! (tmp ++ rel) = None)
      by (intros rel; rewrite Ht; by destruct (temp_fresh (clock s) (files s) pattern rel)).
    assert (Hout : forall p n, files s !! p = Some n -> ~ within tmp p) by (intros p n Hp [rel ->]; by rewrite Hfresh in Hp).
    assert (Hne : forall p, ~ within tmp p -> (<[tmp := Dir]> (files s) : fs) !! p = files s !! p).
    { intros p Hp. apply lookup_insert_ne. intros <-. apply Hp, within_refl. }
    split.
    + intros p n Hp. specialize (Hout _ _ Hp). eapply inside_keeps; [exact K | done|]. by rewrite <- Hp; apply Hne.
    + intros Hnf Hok. apply deferred_inv in H as (s2 & _ & Hs'). apply map_eq. intros p.
      destruct (decide (within tmp p)) as [[rel ->]|Hp].
      * rewrite Hfresh, Hs'. unfold RemoveAll, syscall. rewrite Hnf. cbn [snd files].
        apply map_lookup_filter_None. right. intros n _. simpl. intros Hs%eq_None_not_Some. apply Hs.
        destruct (strip tmp (tmp ++ rel)) eqn:Es2; [by eexists|]. exfalso. by eapply strip_within; [apply within_app|].
      * destruct (decide (p <> [] /\ within p tmp)) as [[Hp0 Hpt]|Hn].
        -- assert (Hdir : is_Some (files s !! dir tmp)).
           { apply is_dir_some; [done|]. destruct (strict_within _ _ Hpt Hp) as [u ->]. by destruct p. }
           destruct (Hok _ p (strict_within _ _ Hpt Hp) Hp0 Hdir) as [n Hn].
           transitivity (Some n); [|by symmetry].
           eapply inside_keeps; [exact K | done|]. by etransitivity; [apply Hne|].
        -- etransitivity; [|by apply Hne]. eapply inside_other; [exact K | done|].
           destruct (decide (p = [])); [by left | right; tauto].
Qed.

Lemma planCandidate_scratches req exact_ : scratches (planCandidate req exact_).
Proof.
  unfold planCandidate. destruct (Baseline req) as [b|]; [|apply scratches_reads; eauto with confined].
  destruct (Candidate req) as [c|]; [|apply scratches_reads; eauto with confined].
  do 3 (apply scratches_bind; [apply scratches_reads; eauto with confined | intros ?]).
  apply scratches_temp. intros tmp. apply plan_in_inside.
Qed.

(** A ready plan: it is of the request it was made for, and its names have
    their places. *)
Lemma planCandidate_prepared req exact_ s p s' : planCandidate req exact_ s = (Ok p, s') ->
  forall prep, prepared p = Some prep -> names_placed (prep_files prep).
Proof.
  unfold planCandidate. destruct (Baseline req) as [b|]; [|done]. destruct (Candidate req) as [c|]; [|done].
  intros H. do 4 (apply D_bind_Ok in H as (? & ? & _ & H)). apply deferred_inv in H as (s1 & H & _).
  do 6 (apply D_bind_Ok in H as (? & ? & _ & H)).
  match type of H with (match ?x with Ok _ => _ | Err _ => _ end) _ = _ => destruct x as [preview|e] end.
  - apply D_bind_Ok in H as (? & ? & _ & H). apply D_bind_Ok in H as (pr & s2 & Hp & [= <- _]).
    apply prepare_value in Hp as (_ & _ & Ho & _). intros prep [= <-]. by apply owned_placed.
  - unfold unresolved, of_res in H. destruct exact_; [done|].
    destruct (incompatibility_of e) as [[[stage_ p0] reason]|]; [injection H as <- _; done | done].
Qed.

Lemma CheckCompatibility_scratches p : (forall prep, prepared p = Some prep -> names_placed (prep_files prep)) ->
  scratches (CheckCompatibility p).
Proof.
  intros Hp. unfold CheckCompatibility. destruct (negb _); [apply scratches_reads; eauto with confined|].
  destruct (prepared p) as [prep|]; [|apply scratches_reads; eauto with confined].
  apply scratches_temp. intros tmp. apply compile_in_inside. by apply Hp.
Qed.

(** Planning an upgrade, with the compilation of the candidate, and verifying
    one exactly write in fresh temporary directories only, whatever fails on the
    way and whatever else happens to the disk.  Nothing else changing the disk,
    every file and directory that was there stays as it was, and when no system
    call fails nothing is left behind. *)
Theorem plan_is_private (req : ApplyRequest) (m : D PlanResult) (r : res PlanResult) (s s' : disk)
    (Hm : m ∈ [Plan req; VerifyExact req; PlanRepository req]) (H : m s = (r, s')) : scratch s s'.
Proof.
  revert s r s' H. change (scratches m). repeat (apply elem_of_cons in Hm as [->|Hm]).
  - apply planCandidate_scratches.
  - unfold VerifyExact. destruct (ModuleRoot req); [apply planCandidate_scratches | apply scratches_reads; eauto with confined].
  - apply (scratches_bind_with (fun p => forall prep, prepared p = Some prep -> names_placed (prep_files prep))).
    + apply planCandidate_scratches.
    + intros s p s1. apply planCandidate_prepared.
    + apply CheckCompatibility_scratches.
  - by apply not_elem_of_nil in Hm.
Qed.
End plans.

(** * A module, a candidate and their texts *)

Definition upgrade_lex (text : string) : list lexeme :=
  if String.eqb text "meta" || String.eqb text "any" then
    [LBraceO; LStr "schema_version"; LColon; LNum "1"; LComma; LStr "inputs"; LColon; LBraceO; LBraceC; LBraceC]
  else if String.eqb text "manifest" || String.eqb text "coverage" then [LBraceO; LBraceC]
  else sample_lex text.

Definition upgrade_texts : Texts := {|
  lex := upgrade_lex; unlex := sample_unlex; sha256_hex := fun text => "#" +:+ text;
  decode_methods := fun _ => Ok []; decode_variants := fun _ => Ok []; encode_report := fun _ => "report"; encode_matrix := fun _ => "matrix" |}.

Definition sample_upgrade_texts : UpgradeTexts := {|
  decode_report := fun _ => Err (errno "no report"); encode_applied := fun _ _ => "applied"; git_show := fun _ _ => Ok sample_source |}.

(** The overlay of a candidate compiles and builds one test binary. *)
Definition sample_compiler : CompileTexts := {|
  encode_overlay := fun m => pretty (size m); go_test := fun _ _ _ _ => (Ok "", {["codexsdk.test" := "binary"]}) |}.

Definition upgrade_tree : fs := list_to_map
  ([(["tmp"], Dir); (["m"], Dir); (["m"; "internal"], Dir); (["m"; "internal"; "protocolschema"], Dir);
    (["m"; "internal"; "protocolschema"; "appserver"], Dir); (sample_schema_dir, Dir)] ++
   map (fun '(name, text) => (sample_schema_dir ++ [name], File text))
     [("A.json", "x"); ("Old.json", "z"); ("baseline_metadata.json", "meta"); ("manifest_generation.json", "meta");
      ("manifest.json", "manifest"); ("coverage_matrix.json", "coverage"); ("drift_report.json", "old")] ++
   map (fun '(name, text) => (["c"; name], File text)) ([("A.json", "z"); ("New.json", "x")] ++ map (fun name => (name, "z")) aggregateSchemas) ++
   map (fun '(name, text) => (["stable"; name], File text)) (("A.json", "z") :: map (fun name => (name, "z")) aggregateSchemas) ++
   [(["m"; "client.go"], File "package codexsdk"); (["m"; "protocolv2"], Dir); (["m"; "protocolv2"; "method_registry.gen.go"], File "old");
    (["m"; "protocolv2"; "json.go"], File "package protocolv2"); (["c"], Dir); (["stable"], Dir); (["common.rs"], File sample_source)]).

Definition upgrade_request : @ApplyRequest sample_manifest_texts :=
  {| Baseline := Some sample_schema_dir; Candidate := Some ["c"]; StableCandidate := Some ["stable"]; CommonRS := Some ["common.rs"];
     CommonRSSourceSHA := sample_commit; CodexRepo := None; Reports := None; TargetRef := "rust-v1.2.3"; TargetKind := "tag";
     TargetSHA := sample_commit; ModuleRoot := Some ["m"]; Now := None |}.

Definition sample_plan :=
  @PlanRepository calm upgrade_texts sample_manifest_texts sample_generator sample_upgrade_texts sample_compiler upgrade_request
    (disk_of upgrade_tree).

Definition no_plan : @PlanResult sample_manifest_texts := {| pr_Status := ""; Preview := None; Issue := None; prepared := None |}.

Lemma sample_plan_ok : sample_plan = (Ok (value_of no_plan sample_plan.1), sample_plan.2).
Proof. apply runs_ok. vm_compute. reflexivity. Qed.

Example sample_plan_files :
  match prepared (value_of no_plan sample_plan.1) with Some prep => sort_strings (map_to_list (prep_files prep)).*1 | None => [] end =
  sort_strings (["protocolv2/experimental_members.gen.go"; "protocolv2/method_registry.gen.go"; "protocolv2/protocol_types.gen.go"; "sdk_surface.gen.go"] ++
   map (fun name => "internal/protocolschema/appserver/v2/" +:+ name)
     ["A.json"; "New.json"; "ClientRequest.json"; "ServerRequest.json"; "ServerNotification.json"; "ClientNotification.json"; "baseline_metadata.json"; "coverage_matrix.json"; "manifest.json"; "manifest_generation.json"]).
Proof. vm_compute. reflexivity. Qed.

Lemma plan_is_private_witness : @scratch calm (disk_of upgrade_tree) sample_plan.2.
Proof.
  refine (@plan_is_private calm upgrade_texts sample_manifest_texts sample_generator sample_upgrade_texts sample_compiler
    upgrade_request _ _ _ _ _ sample_plan_ok). right. right. left.
Defined.
