(* ===== verification/Applied.v ===== *)
(** What the application of a ready plan makes of the accepted files, and what
    an exact verification says of them. *)

From Stdlib Require Import Ascii.
From S2P Require Import Prelude GoStrings JsonLex Json Disk Drift Surface CommonRS Manifest Coverage GeneratedCheck Upgrade Plans.

Local Open Scope string_scope.
Local Open Scope list_scope.

Section writes.
Context {Sys : System} (Hq : quiet Sys).
Implicit Types (p q : path) (f : fs) (s : disk).

(** * The tree after a run that succeeds *)

(** [f'] is [f] with the files [W] written, and perhaps directories made. *)
Definition wrote (W : gmap path string) (f f' : fs) : Prop :=
  (forall p data, W !! p = Some data -> f' !! p = Some (File data)) /\
  (forall p n, W !! p = None -> f !! p = Some n -> f' !! p = Some n) /\
  (forall p data, f' !! p = Some (File data) -> W !! p = Some data \/ f !! p = Some (File data)).

Lemma wrote_refl f : wrote ∅ f f.
Proof. split; [|split]; [intros p data; by rewrite lookup_empty | done | by right]. Qed.

Lemma wrote_trans W1 W2 f1 f2 f3 : wrote W1 f1 f2 -> wrote W2 f2 f3 -> wrote (W2 ∪ W1) f1 f3.
Proof.
  intros (A1 & B1 & C1) (A2 & B2 & C2). split; [|split].
  - intros p data [H|[Hn H]]%lookup_union_Some_raw; [by apply A2 | apply B2; [done | by apply A1]].
  - intros p n [H2 H1]%lookup_union_None Hf. apply B2; [done|]. by apply B1.
  - intros p data Hp. rewrite lookup_union_Some_raw. destruct (W2 !! p) as [d|] eqn:E2.
    + left. left. rewrite (A2 _ _ E2) in Hp. by injection Hp as ->.
    + destruct (C2 _ _ Hp) as [?|Hp1]; [congruence|]. destruct (C1 _ _ Hp1); auto.
Qed.

Lemma MkdirAll_Ok p s s' : MkdirAll p s = (Ok tt, s') ->
  wrote ∅ (files s) (files s') /\ forall q, q ∈ prefixes p -> files s' !! q = Some Dir.
Proof.
  intros (c & H & _)%syscall_Ok. rewrite Hq in H. destruct (existsb _ _) eqn:E; [done|].
  injection H as H _. rewrite <- H. clear H. set (f := files s) in *.
  assert (Hmade : forall ps f q, made ps f !! q = if decide (q ∈ ps) then Some Dir else f !! q).
  { clear. intros ps. unfold made. induction ps as [|p ps IH]; intros f q; [done|]. cbn [fold_left]. rewrite IH.
    destruct (decide (q ∈ ps)) as [H|H]; [by rewrite decide_True by (by right)|].
    destruct (decide (q = p)) as [->|Hne].
    - rewrite decide_True by (by left). apply lookup_insert_eq.
    - rewrite decide_False by (by intros [?|?]%elem_of_cons). by apply lookup_insert_ne. }
  split; [split; [|split]|].
  - intros q data. by rewrite lookup_empty.
  - intros q n _ Hn. rewrite Hmade. rewrite decide_False; [done|]. intros [Hnone _]%list_elem_of_filter. congruence.
  - intros q data. rewrite Hmade. destruct (decide _); [done | by right].
  - intros q Hin. rewrite Hmade. destruct (decide _) as [|Hn]; [done|].
    destruct (f !! q) as [[d|]|] eqn:Ef; [|done|].
    + exfalso. rewrite <- not_true_iff_false in E. apply E. apply existsb_exists. exists q.
      split; [by apply list_elem_of_In|]. unfold is_file. replace (node_at f q) with (Some (File d)); [done|].
      rewrite <- Ef. apply prefix_within in Hin as [? _]. by destruct q.
    + destruct Hn. by apply list_elem_of_filter.
Qed.

Lemma WriteFile_Ok p data s s' : WriteFile p data s = (Ok tt, s') ->
  wrote {[p := data]} (files s) (files s') /\ is_dir (files s) p = false /\ is_dir (files s) (dir p) = true.
Proof.
  intros (c & H & _)%syscall_Ok. rewrite Hq in H. unfold written in H. destruct (is_dir (files s) p); [done|].
  destruct (is_dir (files s) (dir p)); [|done]. injection H as H _. rewrite <- H. split; [|done]. split; [|split].
  - intros q d [<- <-]%lookup_singleton_Some. apply lookup_insert_eq.
  - intros q n Hn%lookup_singleton_None Hf. rewrite <- Hf. by apply lookup_insert_ne.
  - intros q d Hd. destruct (decide (p = q)) as [<-|Hne].
    + left. apply lookup_singleton_Some. split; [done|].
      assert (E : (<[p := File data]> (files s) : fs) !! p = Some (File data)) by apply lookup_insert_eq.
      assert (E' := eq_trans (eq_sym E) Hd). by injection E'.
    + right. rewrite <- Hd. symmetry. by apply lookup_insert_ne.
Qed.

Lemma Remove_Ok p s s' : Remove p s = (Ok tt, s') -> files s' = delete p (files s).
Proof.
  intros (c & H & _)%syscall_Ok. rewrite Hq in H. destruct (node_at _ _) as [[d|]|]; [by injection H| |done].
  destruct (decide _); by injection H.
Qed.

(** A failing removal removes nothing. *)
Lemma Remove_Err p e s s' : Remove p s = (Err e, s') -> files s' = files s.
Proof.
  unfold Remove, syscall, untouched. rewrite Hq. destruct (fault _) as [[e' partial]|]; [by intros [= _ <-]|].
  destruct (node_at _ _) as [[d|]|]; [done| |by intros [= _ <-]]. destruct (decide _); [done | by intros [= _ <-]].
Qed.

Lemma remove_if_present_Ok p s s' : remove_if_present p s = (Ok tt, s') ->
  files s' = delete p (files s) \/ files s' = files s.
Proof.
  intros (r & s1 & (x & [= ->] & Hx)%D_attempt_inv & H)%D_bind_Ok. destruct x as [[]|e].
  - injection H as <-. left. by apply Remove_Ok.
  - destruct (is_not_exist e); [|done]. injection H as <-. right. by eapply Remove_Err.
Qed.

Lemma copyFileBytes_Ok src dst s s' : copyFileBytes src dst s = (Ok tt, s') ->
  exists data, read_node (files s) src = Ok data /\ wrote {[dst := data]} (files s) (files s').
Proof.
  intros (data & s1 & [Hr E]%look_Ok & [H _]%WriteFile_Ok)%D_bind_Ok; [|done]. exists data. by rewrite E in H.
Qed.

(** ** Loops *)

Section loop.
Context {A : Type} (step : A -> D unit) (at_ : A -> path) (data_of : A -> string -> Prop) (I : fs -> Prop).

(** A loop whose steps each write one file, while what they read from stays. *)
Lemma each_wrote l s s' :
  (forall x s s', x ∈ l -> I (files s) -> step x s = (Ok tt, s') ->
     exists data, data_of x data /\ wrote {[at_ x := data]} (files s) (files s') /\ I (files s')) ->
  I (files s) -> each step l s = (Ok tt, s') ->
  exists W, wrote W (files s) (files s') /\ I (files s') /\
    (forall p data, W !! p = Some data -> exists x, x ∈ l /\ p = at_ x /\ data_of x data) /\
    (forall x, x ∈ l -> is_Some (W !! at_ x)).
Proof.
  revert s. induction l as [|x l IH]; intros s Hs Hi; simpl.
  - intros [= <-]. exists ∅. split; [apply wrote_refl|]. split; [done|]. split; [intros p d; by rewrite lookup_empty|].
    by intros x ?%not_elem_of_nil.
  - intros ([] & s1 & Hx & H)%D_bind_Ok. apply Hs in Hx as (d & Hd & Hw & Hi1); [|by left|done].
    apply IH in H as (W & HW & Hi2 & Hdom & Hall); [|by intros; apply Hs; [right|..]|done].
    exists (W ∪ {[at_ x := d]}). split; [by eapply wrote_trans|]. split; [done|]. split.
    + intros p d' [H|[_ [<- <-]%lookup_singleton_Some]]%lookup_union_Some_raw.
      * apply Hdom in H as (y & Hy & H). exists y. split; [by right | done].
      * exists x. split; [by left | done].
    + intros y [->|Hy]%elem_of_cons; apply lookup_union_is_Some; [right | left; by apply Hall].
      by eexists; apply lookup_singleton_eq.
Qed.
End loop.

(** A loop that removes nodes. *)
Lemma each_removed {A} (step : A -> D unit) (at_ : A -> path) (stale : A -> Prop) l s s' :
  (forall x s s', x ∈ l -> step x s = (Ok tt, s') ->
     (stale x /\ files s' = delete (at_ x) (files s)) \/ (~ stale x /\ files s' = files s)) ->
  each step l s = (Ok tt, s') ->
  forall p, (forall n, files s' !! p = Some n -> files s !! p = Some n /\ forall x, x ∈ l -> stale x -> p <> at_ x) /\
            ((forall x, x ∈ l -> stale x -> p <> at_ x) -> files s' !! p = files s !! p).
Proof.
  revert s. induction l as [|x l IH]; intros s Hs; simpl.
  - intros [= <-] p. split; [|done]. intros n Hn. split; [done|]. by intros x ?%not_elem_of_nil.
  - intros ([] & s1 & Hx & H)%D_bind_Ok p. apply Hs in Hx; [|by left].
    destruct (IH s1 ltac:(by intros; apply Hs; [right|..]) H p) as [IHa IHb]. split.
    + intros n [Hn Hl]%IHa. destruct Hx as [[Hst E]|[Hst E]]; rewrite E in Hn.
      * apply lookup_delete_Some in Hn as [Hne Hn]. split; [done|].
        intros y [->|Hy]%elem_of_cons Hsy; [by intros -> | by apply Hl].
      * split; [done|]. intros y [->|Hy]%elem_of_cons Hsy; [done | by apply Hl].
    + intros Hno. etransitivity; [apply IHb; intros y Hy; apply Hno; by right|].
      destruct Hx as [[Hst E]|[Hst E]]; rewrite E; [|done]. apply lookup_delete_ne.
      intros Heq. by apply (Hno x); [left | |].
Qed.
End writes.

(** * Schema files by their paths *)

Section schemas.
Context {Sys : System} {Txt : Texts}.
Implicit Types (p q b c rel : path) (f : fs).

(** The path, below a baseline, of a schema file. *)
Definition schema_rel (rel : path) : bool :=
  negb (nil_list rel) && forallb element rel && String.eqb (path_ext (List.last rel "")) ".json" &&
  negb (mem (List.last rel "") metadataFiles).

Lemma last_app_ne (p rel : path) : rel <> [] -> List.last (p ++ rel) "" = List.last rel "".
Proof.
  intros H. destruct rel as [|x rel _] using rev_ind; [done|]. rewrite app_assoc. by rewrite !List.last_last.
Qed.

Lemma schema_rel_good rel : schema_rel rel = true -> rel <> [] /\ Forall (fun e => element e = true) rel.
Proof. unfold schema_rel. intros H. reflect_bools. split; [by destruct rel | by apply forallb_Forall]. Qed.

Lemma entries_below_spec f root rel n :
  (rel, n) ∈ entries_below f root <-> rel <> [] /\ Forall (fun e => element e = true) rel /\ f !! (root ++ rel) = Some n.
Proof.
  split; [apply entries_good|]. intros (Hne & Hg & Hf). unfold entries_below.
  rewrite elem_of_sort_by, list_elem_of_omap. exists (root ++ rel, n). split; [by apply elem_of_map_to_list|].
  rewrite (proj2 (strip_Some root (root ++ rel) rel) eq_refl). destruct rel as [|x rel]; [done|].
  by rewrite (proj2 (forallb_Forall _ _) Hg).
Qed.

Lemma schema_entry_below root rel n : rel <> [] -> Forall (fun e => element e = true) rel ->
  schema_entry root (rel, n) = match n with File _ => if schema_rel rel then Some (rel_name rel) else None | Dir => None end.
Proof.
  intros Hne Hg. unfold schema_entry, schema_rel. cbn [fst snd]. rewrite last_app_ne by done.
  destruct n as [d|]; [|done]. rewrite (proj2 (forallb_Forall _ _) Hg).
  destruct rel as [|x rel]; [done|]. cbn [nil_list negb andb].
  destruct (String.eqb _ ".json"), (mem _ metadataFiles); done.
Qed.

Lemma schema_names_spec f root name : is_dir f root = true ->
  name ∈ schema_names f root <-> exists rel d, schema_rel rel = true /\ name = rel_name rel /\ f !! (root ++ rel) = Some (File d).
Proof.
  intros Hd. unfold schema_names, walk_nodes. unfold is_dir in Hd. destruct (node_at f root) as [[d|]|]; [done| |done].
  rewrite elem_of_sort_strings, list_elem_of_omap. split.
  - intros ([rel n] & [H|H]%elem_of_cons & He); [by injection H as -> ->|].
    apply entries_below_spec in H as (Hne & Hg & Hf). rewrite schema_entry_below in He by done.
    destruct n as [d|]; [|done]. destruct (schema_rel rel) eqn:Es; [|done]. injection He as <-. by exists rel, d.
  - intros (rel & d & Hs & -> & Hf). destruct (schema_rel_good _ Hs) as [Hne Hg]. exists (rel, File d). split.
    + right. by apply entries_below_spec.
    + by rewrite schema_entry_below, Hs by done.
Qed.

Definition good_rel rel : Prop := rel <> [] /\ Forall (fun e => element e = true) rel.

(** The schema files below [b] are those below [c], byte for byte. *)
Definition same_schemas f b f' c : Prop :=
  forall rel d, schema_rel rel = true -> f !! (b ++ rel) = Some (File d) <-> f' !! (c ++ rel) = Some (File d).

Lemma node_at_ne f p : p <> [] -> node_at f p = f !! p.
Proof. by destruct p. Qed.

Lemma read_file f p d : p <> [] -> read_node f p = Ok d <-> f !! p = Some (File d).
Proof.
  intros Hp. unfold read_node. rewrite node_at_ne by done. destruct (f !! p) as [[e|]|]; split; congruence.
Qed.

Lemma same_schemas_hash f b f' c : is_dir f b = true -> is_dir f' c = true -> same_schemas f b f' c ->
  forall name, schema_hash f b name = schema_hash f' c name.
Proof.
  intros Hb Hc Hs name. unfold schema_hash.
  assert (Hn : name ∈ schema_names f b <-> name ∈ schema_names f' c).
  { rewrite !schema_names_spec by done. split; intros (rel & d & H & -> & Hf); exists rel, d; (split; [done|]; split; [done|]); by apply (Hs rel d H). }
  destruct (mem name (schema_names f b)) eqn:E1, (mem name (schema_names f' c)) eqn:E2; [| | |done].
  - apply mem_true in E1. apply schema_names_spec in E1 as (rel & d & H & -> & Hf); [|done].
    unfold hash_file. destruct (schema_rel_good _ H) as [Hne Hg]. rewrite !join_rel_name by done.
    rewrite (proj2 (read_file f (b ++ rel) d ltac:(by intros [_ ?]%app_eq_nil)) Hf).
    apply (Hs rel d H) in Hf. by rewrite (proj2 (read_file f' (c ++ rel) d ltac:(by intros [_ ?]%app_eq_nil)) Hf).
  - apply mem_true, Hn, mem_true in E1. congruence.
  - apply mem_true, Hn, mem_true in E2. congruence.
Qed.
End schemas.

(** * The directory a plan works in *)

Section planned.
Context {Sys : System} {Txt : Texts} {MT : ManifestTexts} {Gen : Generator} {Up : UpgradeTexts} (Hq : quiet Sys).
Implicit Types (p q b c rel tmp : path) (f : fs) (s : disk).

(** No directory of one stands in the other. *)
Definition apart p q : Prop := ~ within p q /\ ~ within q p.

(** What is below [root] is the same in two trees. *)
Definition same_below root f f' : Prop := forall p, within root p -> f' !! p = f !! p.

Lemma same_iff {A} (x y z : A) : x = y -> (x = z <-> y = z).
Proof. by intros ->. Qed.

Lemma same_below_trans root f1 f2 f3 : same_below root f1 f2 -> same_below root f2 f3 -> same_below root f1 f3.
Proof. intros H1 H2 p Hp. by rewrite H2, H1. Qed.

Lemma apart_below tmp root p : apart tmp root -> within root p -> ~ within tmp p /\ ~ within p tmp.
Proof.
  intros [H1 H2] Hp. split; intros Hw.
  - by destruct (within_comparable _ _ _ Hw Hp).
  - apply H2. by eapply within_trans.
Qed.

Lemma inside_same_below {A} tmp root (m : D A) s r s' :
  confined (inside tmp) m -> apart tmp root -> m s = (r, s') -> same_below root (files s) (files s').
Proof.
  intros Hm Ha H p Hp. destruct (Hm _ _ _ H) as [_ K]. destruct (apart_below _ _ _ Ha Hp).
  eapply inside_other; [by apply K | done | by right].
Qed.

Lemma keeps_node {A} p (m : D A) s r s' n : confined (fun ch => ~ alters ch p) m -> m s = (r, s') ->
  files s !! p = Some n -> files s' !! p = Some n.
Proof. intros Hm H. destruct (Hm _ _ _ H) as [_ K]. apply (K Hq). tauto. Qed.

Lemma keeps_copy p src dst : dst <> p -> confined (fun ch => ~ alters ch p) (copyFileBytes src dst).
Proof.
  intros Hne. assert (forall data, confined (fun ch => ~ alters ch p) (WriteFile dst data)) by (intros; apply confined_WriteFile; intros E; by apply Hne).
  unfold copyFileBytes, ReadFile. place.
Qed.
Lemma keeps_mkdir p q : confined (fun ch => ~ alters ch p) (MkdirAll q).
Proof. apply confined_MkdirAll. by intros r _ []. Qed.

Lemma keeps_handwritten p src dst : (forall name, dst ++ [name] <> p) ->
  confined (fun ch => ~ alters ch p) (copyHandwrittenProtocolPackage src dst).
Proof.
  intros Hne. unfold copyHandwrittenProtocolPackage, ReadDir. apply confined_bind; [apply confined_look|]. intros l.
  apply confined_each. intros [name n] _. destruct n; [|apply confined_ret].
  destruct (handwritten name); [apply keeps_copy, Hne | apply confined_ret].
Qed.

Lemma join_baseline p : join p defaultBaselineRel = p ++ baseline_rel.
Proof. apply placed_baseline. Qed.

Lemma is_dir_node f p : p <> [] -> is_dir f p = true <-> f !! p = Some Dir.
Proof. intros Hp. unfold is_dir. rewrite node_at_ne by done. destruct (f !! p) as [[d|]|]; split; congruence. Qed.

(** The copied module has its baseline directory. *)
Lemma stage_dir b root tmp s s' : is_dir (files s) b = true -> stage b root tmp s = (Ok tt, s') ->
  files s' !! (tmp ++ baseline_rel) = Some Dir.
Proof.
  intros Hb. unfold stage. rewrite join_baseline. intros ([] & s1 & H1%D_wrap_err_Ok & H)%D_bind_Ok.
  apply (keeps_node _ (_ ← MkdirAll (join tmp "protocolv2"); _ ← copyHandwrittenProtocolPackage root tmp;
    wrap_err "copy handwritten protocol package for plan: %w"
      (copyHandwrittenProtocolPackage (join root "protocolv2") (join tmp "protocolv2"))) s1 (Ok tt) s'); [|done|].
  { assert (Hp : join tmp "protocolv2" = tmp ++ ["protocolv2"]) by by apply (placed_name "protocolv2").
    apply confined_bind; [apply keeps_mkdir|]. intros _. apply confined_bind.
    - apply keeps_handwritten. intros name E. by apply app_inv_head in E.
    - intros _. apply confined_wrap, keeps_handwritten. intros name. rewrite Hp, <- app_assoc. intros E. by apply app_inv_head in E. }
  clear H. revert H1. intros (entries & s2 & [Hw E2]%look_Ok & H1)%D_bind_Ok; [|done].
  unfold walk_nodes in Hw. unfold is_dir in Hb. destruct (node_at (files s) b) as [[d|]|]; [done| |done].
  injection Hw as <-. cbn [each] in H1. rewrite app_nil_r in H1. apply D_bind_Ok in H1 as ([] & s3 & Hmk & H1).
  apply (MkdirAll_Ok Hq) in Hmk as [_ Hmk].
  eapply keeps_node; [|exact H1|].
  - apply confined_each. intros [rel n] (Hne & _ & _)%entries_below_spec. destruct n as [d|]; [|apply keeps_mkdir].
    apply confined_bind; [apply keeps_mkdir|]. intros _. apply keeps_copy. intros E.
    apply Hne, (app_inv_head (tmp ++ baseline_rel)). by rewrite app_nil_r.
  - apply Hmk. unfold prefixes. apply list_elem_of_fmap. exists (length (tmp ++ baseline_rel)).
    split; [by rewrite take_ge|]. apply elem_of_seq. rewrite length_app. cbn. lia.
Qed.

(** ** The candidate's schemas *)

Lemma wrote_empty W f f' f'' : wrote ∅ f f' -> wrote W f' f'' -> wrote W f f''.
Proof. intros H1 H2. pose proof (wrote_trans _ _ _ _ _ H1 H2) as H. by rewrite (right_id_L ∅ (∪)) in H. Qed.

Definition same_files root f f' : Prop := forall p d, within root p -> f' !! p = Some (File d) <-> f !! p = Some (File d).

Lemma wrote_same_files W root f f' : (forall p, within root p -> W !! p = None) -> wrote W f f' -> same_files root f f'.
Proof.
  intros HW (A & B & C) p d Hp. split.
  - intros [H|H]%C; [by rewrite HW in H | done].
  - apply B. by apply HW.
Qed.

Lemma same_files_trans root f1 f2 f3 : same_files root f1 f2 -> same_files root f2 f3 -> same_files root f1 f3.
Proof. intros H1 H2 p d Hp. rewrite (H2 p d Hp). by apply H1. Qed.

(** The removal of the schema files of a directory. *)
Lemma remove_schemas b l s s' : is_dir (files s) b = true -> l = schema_names (files s) b ->
  each (fun name => Remove (join b name)) l s = (Ok tt, s') ->
  (forall rel d, schema_rel rel = true -> files s' !! (b ++ rel) <> Some (File d)) /\
  (forall p, ~ within b p \/ p = b -> files s' !! p = files s !! p).
Proof.
  intros Hb Hl H.
  pose proof (each_removed (fun name => Remove (join b name)) (join b) (fun _ => True) l s s') as R. cbv beta in R.
  specialize (R ltac:(intros x t t' _ Hx; left; split; [done | by apply Remove_Ok]) H).
  assert (Hat : forall x, x ∈ l -> exists rel, schema_rel rel = true /\ x = rel_name rel /\ join b x = b ++ rel).
  { intros x Hx. rewrite Hl in Hx. apply (schema_names_spec _ _ _ Hb) in Hx as (rel & d & Hs & -> & _).
    exists rel. destruct (schema_rel_good _ Hs). by rewrite join_rel_name. }
  split.
  - intros rel d Hs Hf. destruct (schema_rel_good _ Hs) as [Hne Hg]. destruct (R (b ++ rel)) as [Ra _].
    destruct (Ra _ Hf) as [Hf0 Hno]. apply (Hno (rel_name rel)); [|done|by rewrite join_rel_name].
    rewrite Hl. apply schema_names_spec; [done|]. eauto.
  - intros p Hp. destruct (R p) as [_ Rb]. apply Rb. intros x (rel & Hs & _ & ->)%Hat _ ->.
    destruct (schema_rel_good _ Hs) as [Hne _]. destruct Hp as [Hp|Hp]; [apply Hp, within_app|].
    apply Hne, (app_inv_head b). by rewrite app_nil_r.
Qed.

Lemma apart_ne p q : apart p q -> p <> [] /\ q <> [].
Proof. intros [H1 H2]. split; intros ->; [apply H1 | apply H2]; by eexists. Qed.

(** One step of the copy. *)
Lemma copy_step b c name rel f0 s s' : good_rel rel -> name = rel_name rel -> apart b c ->
  same_files c f0 (files s) ->
  (let dst := join b name in _ ← MkdirAll (dir dst); copyFileBytes (join c name) dst) s = (Ok tt, s') ->
  exists data, read_node f0 (join c name) = Ok data /\ wrote {[join b name := data]} (files s) (files s') /\ same_files c f0 (files s').
Proof.
  intros [Hne Hg] -> Ha Hs. cbv zeta. rewrite !join_rel_name by done.
  assert (Hc : c ++ rel <> []) by (by intros [_ ?]%app_eq_nil).
  intros ([] & s1 & [Hmk _]%(MkdirAll_Ok Hq) & (data & Hr & Hw)%(copyFileBytes_Ok Hq))%D_bind_Ok.
  assert (Hs1 : same_files c f0 (files s1)).
  { eapply same_files_trans; [exact Hs|]. apply (wrote_same_files ∅); [intros p _; apply lookup_empty | done]. }
  exists data. split; [|split].
  - apply read_file; [done|]. apply Hs1; [apply within_app|]. by apply read_file.
  - by eapply wrote_empty.
  - eapply same_files_trans; [exact Hs1|]. eapply wrote_same_files; [|exact Hw].
    intros p Hp. apply lookup_singleton_ne. intros <-. destruct Ha as [Ha1 Ha2].
    destruct (within_comparable c b (b ++ rel) Hp (within_app _ _)); auto.
Qed.

(** The schema files of [b] become those of [c]. *)
Lemma copy_schemas b c s s' : apart b c -> is_dir (files s) b = true -> is_dir (files s) c = true ->
  copyCandidateSchema c b s = (Ok tt, s') ->
  same_schemas (files s') b (files s) c /\ is_dir (files s') b = true.
Proof.
  intros Ha Hb Hc H. destruct (apart_ne _ _ Ha) as [Hbn Hcn].
  apply D_bind_Ok in H as (l & s1 & [Hl E1]%schemaFiles_value & H); [|done].
  apply D_bind_Ok in H as ([] & s2 & Hrm & H). rewrite <- E1 in Hb, Hl.
  apply remove_schemas in Hrm as [Hgone Hkeep]; [|done|done].
  apply D_bind_Ok in H as (l2 & s3 & [Hl2 E3]%schemaFiles_value & H); [|done]. rewrite E1 in Hkeep.
  assert (Hcs : same_below c (files s) (files s2)).
  { intros p Hp. apply Hkeep. left. intros Hbp. destruct Ha as [Ha1 Ha2]. by destruct (within_comparable _ _ _ Hp Hbp). }
  assert (Hc2 : is_dir (files s2) c = true).
  { apply is_dir_node; [done|]. rewrite (Hcs c (within_refl c)). by apply is_dir_node. }
  assert (Hat : forall x, x ∈ l2 -> exists rel, schema_rel rel = true /\ good_rel rel /\ x = rel_name rel).
  { intros x Hx. rewrite Hl2 in Hx. apply (schema_names_spec _ _ _ Hc2) in Hx as (rel & d & Hs & -> & _).
    exists rel. split; [done|]. split; [by apply schema_rel_good | done]. }
  apply (each_wrote _ (join b) (fun x data => read_node (files s2) (join c x) = Ok data) (same_files c (files s2))) in H
    as (W & HW & _ & Hdom & Hall).
  - rewrite E3 in HW. destruct HW as (A & B & C). split.
    + intros rel d Hs. destruct (schema_rel_good _ Hs) as [Hne Hg].
      assert (Hcr : c ++ rel <> []) by (by intros [_ ?]%app_eq_nil). split.
      * intros [Hw|Hw]%C; [|by apply Hgone in Hw].
        apply Hdom in Hw as (x & (rel' & _ & [_ Hg'] & ->)%Hat & Heq & Hr). rewrite !join_rel_name in Heq, Hr by done.
        apply app_inv_head in Heq as <-. apply read_file in Hr; [|done]. rewrite <- Hr. symmetry. apply Hcs, within_app.
      * intros Hf. assert (Hf2 : files s2 !! (c ++ rel) = Some (File d)) by (rewrite <- Hf; apply Hcs, within_app).
        apply A. assert (Hin : rel_name rel ∈ l2) by (rewrite Hl2; apply (schema_names_spec _ _ _ Hc2); eauto).
        destruct (Hall _ Hin) as [d' Hd']. rewrite join_rel_name in Hd' by done.
        destruct (Hdom _ _ Hd') as (x & (rel' & _ & [_ Hg'] & ->)%Hat & Heq & Hr). rewrite !join_rel_name in Heq, Hr by done.
        apply app_inv_head in Heq as <-. apply read_file in Hr; [|done].
        assert (E := eq_trans (eq_sym Hf2) Hr). injection E as ->. exact Hd'.
    + apply is_dir_node; [done|]. apply B.
      * destruct (W !! b) as [d|] eqn:E; [|done]. exfalso. apply Hdom in E as (x & (rel & _ & [Hne Hg] & ->)%Hat & Heq & _).
        rewrite join_rel_name in Heq by done. apply Hne, (app_inv_head b). by rewrite app_nil_r.
      * rewrite Hkeep by (by right). rewrite <- E1. by apply is_dir_node.
  - intros x t t' (rel & _ & Hg & ->)%Hat Hi Hx. rewrite <- E3 in Hi. rewrite <- E3. by eapply copy_step.
  - rewrite E3. by intros p d _.
Qed.

(** ** What stays while the rest is derived *)

(** The baseline directory and the paths of its schema files. *)
Definition held b p : Prop := p = b \/ exists rel, schema_rel rel = true /\ p = b ++ rel.
Definition steady b f f' : Prop := forall p, held b p -> f' !! p = f !! p.

Lemma steady_trans b f1 f2 f3 : steady b f1 f2 -> steady b f2 f3 -> steady b f1 f3.
Proof. intros H1 H2 p Hp. by rewrite H2, H1. Qed.

Lemma steady_confined {A} b (m : D A) s r s' : confined (fun ch => forall p, held b p -> ~ touches ch p) m ->
  m s = (r, s') -> steady b (files s) (files s').
Proof. intros Hm H p Hp. destruct (Hm _ _ _ H) as [_ K]. apply (K Hq). intros ch Hc. by apply Hc. Qed.

Lemma metadata_not_held b name : name ∈ metadataFiles -> forallb element (split_byte "/"%char name) = true ->
  List.last (split_byte "/"%char name) "" = name -> ~ held b (join b name).
Proof.
  intros Hm Hg Hlast. rewrite (placed_name name Hg b). intros [H|(rel & Hs & H)].
  - destruct (split_byte_nonempty "/"%char name). apply (app_inv_head b). by rewrite app_nil_r.
  - apply app_inv_head in H as <-. unfold schema_rel in Hs.
    apply mem_true in Hm. by rewrite Hlast, Hm, andb_false_r in Hs.
Qed.

Lemma not_held_beside tmp q x : within q (tmp ++ x) -> head x <> Some "internal" -> ~ held (tmp ++ baseline_rel) q.
Proof.
  intros [y Hy] Hx Hq'. apply Hx.
  assert (exists r, q = (tmp ++ baseline_rel) ++ r) as [r ->] by (destruct Hq' as [->|(rel & _ & ->)]; [exists [] | by eexists]; by rewrite app_nil_r).
  rewrite <- !app_assoc in Hy. apply app_inv_head in Hy as ->. done.
Qed.

Lemma derives_held tmp : derives (fun ch => forall p, held (tmp ++ baseline_rel) p -> ~ touches ch p)
  (tmp ++ baseline_rel) tmp (tmp ++ ["reports"]).
Proof.
  assert (Hmade : forall p q, (exists x, p = tmp ++ x /\ head x <> Some "internal") -> q ∈ prefixes p -> ~ held (tmp ++ baseline_rel) q).
  { intros p q (x & -> & Hx) [_ Hq']%prefix_within. by eapply not_held_beside. }
  assert (Hrep : forall name, name ∈ report_names -> join (tmp ++ ["reports"]) name = tmp ++ "reports" :: split_byte "/"%char name).
  { intros name Hn. pose proof (names_ok report_names eq_refl) as _.
    assert (Hall : Forall (fun name => forallb element (split_byte "/"%char name) = true) report_names) by (repeat constructor).
    rewrite Forall_forall in Hall. rewrite (placed_name name (Hall _ Hn)). by rewrite <- app_assoc. }
  split; [|split; [|split]].
  - intros name Hn p Hp ->. revert Hp.
    assert (Hall : Forall (fun name => name ∈ metadataFiles /\ forallb element (split_byte "/"%char name) = true /\
      List.last (split_byte "/"%char name) "" = name) exactMetadataFiles)
      by (repeat constructor; try done; apply (bool_decide_unpack _); vm_compute; exact I).
    rewrite Forall_forall in Hall. destruct (Hall _ Hn) as (H1 & H2 & H3). by apply metadata_not_held.
  - intros name Hn. destruct (artifact_placed name Hn) as [Hp Hh]. rewrite (Hp tmp). split.
    + intros p Hp' ->. revert Hp'. eapply not_held_beside; [apply within_refl | done].
    + intros q Hin p Hp' ->. revert Hp'. apply prefix_within in Hin as [_ Hin].
      eapply not_held_beside; [|exact Hh]. eapply within_trans; [exact Hin | apply within_dir].
  - intros name Hn p Hp ->. revert Hp. rewrite Hrep by done. eapply not_held_beside; [apply within_refl | done].
  - intros q Hin p Hp ->. revert Hp. apply prefix_within in Hin as [_ Hin]. by eapply not_held_beside.
Qed.

Lemma read_bind {A C} (m : D A) (k : A -> D C) s r s' :
  confined (fun _ => False) m -> (m ≫= k) s = (Ok r, s') -> exists a s1, m s = (Ok a, s1) /\ k a s1 = (Ok r, s') /\ files s1 = files s.
Proof. intros Hm (a & s1 & H1 & H2)%D_bind_Ok. exists a, s1. split; [done|]. split; [done|]. by apply (reads_keep _ _ _ _ Hm H1). Qed.

Lemma retired_steady b s s' : each (fun name => remove_if_present (join b name)) retired_reports s = (Ok tt, s') ->
  steady b (files s) (files s').
Proof.
  assert (Hstep : forall name t t', name ∈ retired_reports -> remove_if_present (join b name) t = (Ok tt, t') -> steady b (files t) (files t')).
  { intros name t t' Hn [E|E]%(remove_if_present_Ok Hq) p Hp; rewrite E; [|done]. apply lookup_delete_ne. intros <-. revert Hp.
    assert (Hall : Forall (fun name => name ∈ metadataFiles /\ forallb element (split_byte "/"%char name) = true /\
      List.last (split_byte "/"%char name) "" = name) retired_reports)
      by (repeat constructor; try done; apply (bool_decide_unpack _); vm_compute; exact I).
    rewrite Forall_forall in Hall. destruct (Hall _ Hn) as (H1 & H2 & H3). by apply metadata_not_held. }
  intros ([] & s1 & H1 & H)%D_bind_Ok. apply D_bind_Ok in H as ([] & s2 & H2 & [= <-]).
  eapply steady_trans; eapply Hstep; try eassumption; [left | right; left].
Qed.

(** A construction that succeeds leaves the candidate's schema files. *)
Lemma construct_schemas req tmp c r s s' :
  Baseline req = Some (tmp ++ baseline_rel) -> Candidate req = Some c -> Reports req = Some (tmp ++ ["reports"]) ->
  apart (tmp ++ baseline_rel) c -> is_dir (files s) (tmp ++ baseline_rel) = true -> is_dir (files s) c = true ->
  constructCandidate req tmp s = (Ok r, s') ->
  same_schemas (files s') (tmp ++ baseline_rel) (files s) c /\ is_dir (files s') (tmp ++ baseline_rel) = true.
Proof.
  intros Hb Hc Hr Ha Hbd Hcd H. unfold constructCandidate in H. rewrite Hb, Hc in H.
  destruct (StableCandidate req) as [stable|]; [|done]. destruct (CommonRS req) as [rs|]; [|done]. destruct (_ || _); [done|].
  do 6 (apply read_bind in H as (? & ? & _ & H & E); [|eauto with confined]; rewrite <- E in Hbd, Hcd; revert E).
  intros E6 E5 E4 E3 E2 E1. unfold construct_in in H.
  apply read_bind in H as (pre & s1 & _ & H & E7); [|eauto with confined]. rewrite <- E7 in Hbd, Hcd.
  apply D_bind_Ok in H as ([] & s2 & Hcopy & H). apply copy_schemas in Hcopy as [Hs Hd]; [|done..].
  apply D_bind_Ok in H as ([] & s3 & Hret%retired_steady & H).
  apply (steady_confined (tmp ++ baseline_rel)) in H; [|apply derive_in_derives with (d := tmp ++ ["reports"]); [apply derives_held | done]].
  pose proof (steady_trans _ _ _ _ Hret H) as Hst. split.
  - intros rel d Hsr. rewrite <- E1, <- E2, <- E3, <- E4, <- E5, <- E6, <- E7. rewrite <- (Hs rel d Hsr).
    by rewrite (Hst (_ ++ rel)) by (right; eauto).
  - apply is_dir_node; [by apply apart_ne in Ha as [? _]|]. rewrite Hst by by left.
    apply is_dir_node; [by apply apart_ne in Ha as [? _] | done].
Qed.

(** ** What is prepared *)

Lemma list_to_map_spec (l : list (string * string)) k v :
  (forall v1 v2, (k, v1) ∈ l -> (k, v2) ∈ l -> v1 = v2) -> (list_to_map l : gmap string string) !! k = Some v <-> (k, v) ∈ l.
Proof.
  intros Hu. split; [apply elem_of_list_to_map_2|]. intros Hin. apply elem_of_list_to_map'; [|done]. intros v' Hv'. by apply Hu.
Qed.

Lemma Forall2_pairs {A} (g : A -> string * string -> Prop) (key : A -> string) (xs : list A) l k v :
  Forall2 g xs l -> (k, v) ∈ l -> exists x, x ∈ xs /\ g x (k, v).
Proof.
  intros H Hin. apply list_elem_of_lookup in Hin as [i Hi]. destruct (Forall2_lookup_r _ _ _ _ _ H Hi) as (x & Hx & Hg).
  exists x. split; [by eapply list_elem_of_lookup_2 | done].
Qed.

Lemma read_files_exact root m s s' : root <> [] -> is_dir (files s) root = true -> readCandidateFiles root s = (Ok m, s') ->
  files s' = files s /\ (forall rel d, good_rel rel -> m !! rel_name rel = Some d <-> files s !! (root ++ rel) = Some (File d)) /\
  (forall name, is_Some (m !! name) -> exists rel, good_rel rel /\ name = rel_name rel).
Proof.
  intros Hne Hd (entries & s1 & [Hw E1]%look_Ok & (l & s2 & Hl & [= <- <-])%D_bind_Ok)%D_bind_Ok; [|done].
  apply (collect_value _ (fun f rel kv => kv.1 = rel_name rel /\ read_node f (root ++ rel) = Ok kv.2)) in Hl as [Hl E2].
  2: { intros rel kv t t' (raw & t1 & [Hr Et]%look_Ok & [= <- <-])%D_bind_Ok; [|done]. done. }
  rewrite E1 in Hl, E2. split; [done|]. split; cycle 1.
  { intros name (v & Hv%elem_of_list_to_map_2). destruct (Forall2_pairs _ rel_name _ _ _ _ Hl Hv) as (r & Hr & Hk & _).
    exists r. split; [|done]. unfold walk_nodes in Hw. unfold is_dir in Hd. destruct (node_at (files s) root) as [[e|]|]; [done| |done].
    injection Hw as <-. apply list_elem_of_omap in Hr as ([r' [e|]] & [Hr|Hr]%elem_of_cons & [= ->]); [by injection Hr|].
    by apply entries_below_spec in Hr as (? & ? & _). }
  intros rel d [Hrn Hg].
  assert (Hin : forall k v, (k, v) ∈ l -> exists r, Forall (fun e => element e = true) r /\ k = rel_name r /\ read_node (files s) (root ++ r) = Ok v).
  { intros k v Hkv. destruct (Forall2_pairs _ rel_name _ _ _ _ Hl Hkv) as (r & Hr & Hk & Hv). exists r. split; [|done].
    apply list_elem_of_omap in Hr as ([r' [e|]] & Hr & [= ->]). by eapply walk_good. }
  assert (Hu : forall v, (rel_name rel, v) ∈ l -> files s !! (root ++ rel) = Some (File v)).
  { intros v (r & Hg' & Hk & Hv)%Hin. apply rel_name_inj in Hk as <-; [|done|done].
    apply read_file; [by intros [_ ?]%app_eq_nil | done]. }
  rewrite list_to_map_spec; [split; [apply Hu|]|].
  - intros Hf. assert (Hrel : rel ∈ file_rels entries).
    { unfold walk_nodes in Hw. unfold is_dir in Hd. destruct (node_at (files s) root) as [[e|]|]; [done| |done].
      injection Hw as <-. apply list_elem_of_omap. exists (rel, File d). split; [|done]. right. by apply entries_below_spec. }
    apply list_elem_of_lookup in Hrel as [i Hi]. destruct (Forall2_lookup_l _ _ _ _ _ Hl Hi) as ([k v] & Hkv & Hk & Hv).
    simpl in Hk, Hv. subst k. apply list_elem_of_lookup_2 in Hkv. pose proof (Hu _ Hkv) as Hf'.
    assert (E := eq_trans (eq_sym Hf) Hf'). by injection E as ->.
  - intros v1 v2 H1%Hu H2%Hu. assert (E := eq_trans (eq_sym H1) H2). by injection E.
Qed.

(** The files of a prepared candidate are those of the tree they were read from. *)
Definition prepared_from f root (files : gmap string string) : Prop :=
  (forall name, name ∈ generatedProtocolArtifacts -> exists data, files !! name = Some data /\ read_node f (join root name) = Ok data) /\
  (forall rel d, good_rel rel -> files !! (defaultBaselineRel +:+ "/" +:+ rel_name rel) = Some d <->
     f !! (root ++ baseline_rel ++ rel) = Some (File d)) /\
  (forall name, is_Some (files !! name) -> name ∈ generatedProtocolArtifacts \/
     exists rel, good_rel rel /\ name = defaultBaselineRel +:+ "/" +:+ rel_name rel).

Lemma prepare_exact req root reports snapshot prep s s' : is_dir (files s) (root ++ baseline_rel) = true ->
  prepareCandidateWrites req root reports snapshot s = (Ok prep, s') -> prepared_from (files s) root (prep_files prep).
Proof.
  intros Hd (m & s1 & Hm & H)%D_bind_Ok. rewrite join_baseline in Hm.
  apply read_files_exact in Hm as (E1 & Hm & Hnames); [|by intros [_ ?]%app_eq_nil|done].
  apply D_bind_Ok in H as (arts & s2 & Ha & H). apply D_bind_Ok in H as (reps & s3 & _ & [= <- _]). cbn [prep_files].
  apply (collect_value _ (fun f name kv => kv.1 = name /\ read_node f (join root name) = Ok kv.2)) in Ha as [Ha _].
  2: { intros name kv t t' (raw & t1 & [Hr Et]%look_Ok & [= <- <-])%D_bind_Ok; [|done]. done. }
  rewrite E1 in Ha.
  assert (Harts : forall k v, (k, v) ∈ arts -> k ∈ generatedProtocolArtifacts /\ read_node (files s) (join root k) = Ok v).
  { intros k v Hkv. destruct (Forall2_pairs _ (fun x => x) _ _ _ _ Ha Hkv) as (n & Hn & Hk & Hv). simpl in Hk, Hv. by subst. }
  assert (Howned : forall k v, (k, v) ∈ map (fun '(name, data) => (defaultBaselineRel +:+ "/" +:+ name, data)) (map_to_list m) ->
    exists name, k = defaultBaselineRel +:+ "/" +:+ name /\ m !! name = Some v).
  { intros k v Hkv. apply list_elem_of_In, in_map_iff in Hkv as ([n d] & [= <- <-] & Hk).
    apply list_elem_of_In, elem_of_map_to_list in Hk. by exists n. }
  assert (Hapart : forall n k, k = defaultBaselineRel +:+ "/" +:+ n -> k ∉ generatedProtocolArtifacts).
  { intros n k -> [_ Hh]%artifact_placed. apply Hh. change ("/" +:+ n) with (String "/"%char n). by rewrite split_byte_cut. }
  assert (Hinj : forall x y, defaultBaselineRel +:+ "/" +:+ x = defaultBaselineRel +:+ "/" +:+ y -> x = y).
  { intros x y E. by injection E. }
  split; [|split].
  - intros name Hn. assert (Hex : exists v, (name, v) ∈ arts).
    { apply list_elem_of_lookup in Hn as [i Hi]. destruct (Forall2_lookup_l _ _ _ _ _ Ha Hi) as ([k v] & Hkv & Hk & _).
      simpl in Hk. subst k. exists v. by apply list_elem_of_lookup_2 in Hkv. }
    destruct Hex as [v Hv]. exists v. split; [|by apply Harts]. apply list_to_map_spec; [|apply elem_of_app; by left].
    assert (Hone : forall v', (name, v') ∈ arts ++ map (fun '(name, data) => (defaultBaselineRel +:+ "/" +:+ name, data)) (map_to_list m) ->
      read_node (files s) (join root name) = Ok v').
    { intros v' [H'|H']%elem_of_app; [by apply Harts|]. apply Howned in H' as (n & Hk & _). by destruct (Hapart _ _ Hk). }
    intros v1 v2 H1%Hone H2%Hone. rewrite H1 in H2. by injection H2.
  - intros rel d Hg. rewrite app_assoc. rewrite <- (Hm rel d Hg).
    assert (Hone : forall v, (defaultBaselineRel +:+ "/" +:+ rel_name rel, v) ∈ arts ++
      map (fun '(name, data) => (defaultBaselineRel +:+ "/" +:+ name, data)) (map_to_list m) -> m !! rel_name rel = Some v).
    { intros v [H'|H']%elem_of_app; [apply Harts in H' as [H' _]; by destruct (Hapart _ _ eq_refl H')|].
      apply Howned in H' as (n & Hk%Hinj & Hv). by rewrite Hk. }
    rewrite list_to_map_spec; [split; [apply Hone|]|].
    + intros Hv. apply elem_of_app. right. apply list_elem_of_In, in_map_iff. exists (rel_name rel, d). split; [done|].
      apply list_elem_of_In. by apply elem_of_map_to_list.
    + intros v1 v2 H1%Hone H2%Hone. rewrite H1 in H2. by injection H2.
  - intros name (v & [Hv|Hv]%elem_of_list_to_map_2%elem_of_app); [left; by eapply Harts|]. right.
    apply Howned in Hv as (n & -> & Hn). destruct (Hnames n) as (rel & Hg & ->); [by eexists|]. by exists rel.
Qed.

(** ** A ready plan *)

(** Temporary directories are not made below [root]. *)
Definition temp_outside root : Prop := forall n f pattern, ~ within root (temp_name n f pattern).

(** What a plan was built from: [f] is the tree when it was, [tmp] the private
    directory. *)
Record built (f : fs) (tmp : path) (s : disk) (b c root : path) (verifyExact : bool) (prep : preparedCandidate) : Prop := {
  built_candidate : same_below c (files s) f;
  built_module : same_below root (files s) f;
  built_dir : is_dir f (tmp ++ baseline_rel) = true;
  built_schemas : same_schemas f (tmp ++ baseline_rel) (files s) c;
  built_files : prepared_from f tmp (prep_files prep);
  built_names : (forall name, is_Some (prep_files prep !! name) -> owned_name name) /\
    (forall name, is_Some (prep_reports prep !! name) -> exists rel, Forall (fun e => element e = true) rel /\ name = rel_name rel);
  built_exact : verifyExact = true -> exists t t',
    compareExactBaseline b (tmp ++ baseline_rel) root tmp t = (Ok tt, t') /\ files t = f }.

Lemma plan_in_value tmp req b c root exact_ sb sc plan prep s s' :
  Candidate req = Some c -> apart tmp c -> apart tmp root -> within root b -> is_dir (files s) b = true -> is_dir (files s) c = true ->
  plan_in tmp req b c root exact_ sb sc s = (Ok plan, s') -> prepared plan = Some prep ->
  pr_Status plan = PlanReady /\ request prep = set_module req root /\ baseline prep = sb /\ exists f, built f tmp s b c root exact_ prep.
Proof.
  intros Hc Htc Htr Hrb Hbd Hcd H Hp. unfold plan_in in H.
  apply D_bind_Ok in H as ([] & s1 & Hstage & H). pose proof (stage_dir b root tmp _ _ Hbd Hstage) as Hdir.
  assert (Hbne : tmp ++ baseline_rel <> []) by (by intros [_ ?]%app_eq_nil).
  pose proof (inside_same_below tmp c _ _ _ _ (stage_inside tmp b root) Htc Hstage) as Sc1.
  pose proof (inside_same_below tmp root _ _ _ _ (stage_inside tmp b root) Htr Hstage) as Sr1.
  apply D_bind_Ok in H as (preview & s2 & (x & [= ->] & Hcon)%D_attempt_inv & H).
  set (planned := set_planned req (join tmp defaultBaselineRel) tmp (join tmp "reports")) in *.
  assert (Hin : confined (inside tmp) (constructCandidate planned tmp)).
  { eapply constructCandidate_inside; [reflexivity| | |reflexivity|]; try apply within_refl;
      (apply fixed_within; [apply (bool_decide_unpack _); vm_compute; exact I | apply within_refl]). }
  pose proof (inside_same_below tmp c _ _ _ _ Hin Htc Hcon) as Sc2.
  pose proof (inside_same_below tmp root _ _ _ _ Hin Htr Hcon) as Sr2.
  do 4 (apply read_bind in H as (? & ? & _ & H & E); [|eauto with confined]; revert E). intros E6 E5 E4 E3.
  destruct x as [preview|e].
  2: { unfold unresolved, of_res in H. destruct exact_; [done|].
       destruct (incompatibility_of e) as [[[? ?] ?]|]; [injection H as <- _; done | done]. }
  apply D_bind_Ok in H as ([] & s7 & Hexact & H). apply D_bind_Ok in H as (prep' & s8 & Hprep & [= <- _]).
  injection Hp as ->. cbn [pr_Status]. split; [done|].
  destruct (prepare_value _ _ _ _ _ _ _ Hprep) as (Hreq & Hbase & Hnames). split; [done|]. split; [done|]. exists (files s2).
  apply (construct_schemas planned tmp c) in Hcon as [Hschemas Hdir2]; [| |done| | | |].
  2: { by rewrite <- join_baseline. }
  2: { change (Some (join tmp "reports") = Some (tmp ++ ["reports"])). by rewrite (placed_name "reports" eq_refl tmp). }
  2: { destruct Htc as [H1 H2]. split; [intros Hw; apply H1; eapply within_trans; [apply within_app | exact Hw]|].
       intros Hw. by destruct (within_comparable _ _ _ Hw (within_app tmp baseline_rel)). }
  2: { by apply is_dir_node. }
  2: { apply is_dir_node; [by apply apart_ne in Htc as [_ ?]|]. rewrite (Sc1 c (within_refl c)).
       by apply is_dir_node; [apply apart_ne in Htc as [_ ?]|]. }
  assert (E7 : files s7 = files s2).
  { rewrite <- E3, <- E4, <- E5, <- E6. destruct exact_; [|by injection Hexact as <-].
    eapply (reads_keep _ _ _ _ (confined_wrap _ _ _ (compareExactBaseline_reads _ _ _ _ _)) Hexact). done. }
  split.
  - by eapply same_below_trans.
  - by eapply same_below_trans.
  - done.
  - intros rel d Hs. rewrite (Hschemas rel d Hs). apply same_iff, Sc1, within_app.
  - rewrite <- E7. eapply prepare_exact; [by rewrite E7 | exact Hprep].
  - done.
  - intros ->. apply D_wrap_err_Ok in Hexact. rewrite join_baseline in Hexact.
    eexists _, _. split; [exact Hexact|]. by rewrite E6, E5, E4, E3.
Qed.

Lemma planCandidate_value req b c exact_ plan prep s s' :
  let root := default (above b) (ModuleRoot req) in
  Baseline req = Some b -> Candidate req = Some c -> temp_outside c -> temp_outside root ->
  is_dir (files s) b = true -> is_dir (files s) c = true ->
  planCandidate req exact_ s = (Ok plan, s') -> prepared plan = Some prep ->
  b = root ++ baseline_rel /\ pr_Status plan = PlanReady /\ request prep = set_module req root /\
  exists f tmp, built f tmp s b c root exact_ prep.
Proof.
  intros root Hb Hc Tc Tr Hbd Hcd H Hp. unfold planCandidate in H. rewrite Hb, Hc in H.
  apply D_bind_Ok in H as ([] & s0 & [Hreq ->]%D_of_res_inv & H). unfold requireModuleBaseline in Hreq.
  destruct (bool_decide _) eqn:E in Hreq; [|done]. apply bool_decide_eq_true in E. rewrite join_baseline in E. fold root in E.
  assert (Hbne : b <> []) by (rewrite E; by intros [_ ?]%app_eq_nil).
  assert (Hcne : c <> []) by (intros ->; apply (Tc 0 ∅ ""); by eexists).
  apply read_bind in H as (sb & s1 & _ & H & E1); [|eauto with confined].
  apply read_bind in H as (sc & s2 & _ & H & E2); [|eauto with confined].
  apply D_bind_Ok in H as (tmp & s3 & (f & Ht & _ & _ & F3)%MkdirTemp_inv & H). destruct (F3 Hq) as [-> E3]. clear F3.
  rewrite E2, E1 in Ht, E3. apply deferred_inv in H as (s4 & H & _).
  assert (Hfresh : forall p n, files s !! p = Some n -> ~ within tmp p).
  { intros q n Hn [rel ->]. rewrite Ht in Hn. destruct (temp_fresh (clock s2) (files s) "protocolupgrade-plan-" rel) as [_ Hno].
    assert (X := eq_trans (eq_sym Hn) Hno). discriminate X. }
  apply (is_dir_node _ _ Hbne) in Hbd. apply (is_dir_node _ _ Hcne) in Hcd.
  assert (Hne : forall q n, files s !! q = Some n -> files s3 !! q = files s !! q).
  { intros q n Hn. rewrite E3. apply lookup_insert_ne. intros ->. by apply (Hfresh q n Hn), within_refl. }
  assert (Hrb : within root b) by (rewrite E; apply within_app).
  apply plan_in_value with (prep := prep) in H as (Hst & Hr & _ & g & Hg); [| |split|split| | | |]; try done.
  - split; [done|]. split; [done|]. split; [done|]. exists g, tmp. destruct Hg as [G1 G2 G3 G4 G5 G6 G7].
    assert (Hins : forall r, temp_outside r -> same_below r (files s) (files s3)).
    { intros r Hr' q Hw. rewrite E3. apply lookup_insert_ne. intros <-. revert Hw. rewrite Ht. apply Hr'. }
    split; [| |done| |done..].
    + by eapply same_below_trans; [apply Hins|].
    + by eapply same_below_trans; [apply Hins|].
    + intros rel d Hs. rewrite (G4 rel d Hs). apply same_iff, (Hins c Tc), within_app.
  - by apply (Hfresh c Dir).
  - rewrite Ht. apply Tc.
  - intros Hw. apply (Hfresh b Dir Hbd). by eapply within_trans.
  - rewrite Ht. apply Tr.
  - apply (is_dir_node _ _ Hbne). by rewrite (Hne _ _ Hbd).
  - apply (is_dir_node _ _ Hcne). by rewrite (Hne _ _ Hcd).
Qed.

Lemma exact_prepared req plan s s' : planCandidate req true s = (Ok plan, s') -> is_Some (prepared plan).
Proof.
  unfold planCandidate. destruct (Baseline req) as [b|]; [|done]. destruct (Candidate req) as [c|]; [|done].
  intros H. do 4 (apply D_bind_Ok in H as (? & ? & _ & H)). apply deferred_inv in H as (s1 & H & _).
  do 6 (apply D_bind_Ok in H as (? & ? & _ & H)).
  match type of H with (match ?x with Ok _ => _ | Err _ => _ end) _ = _ => destruct x as [preview|e] end; [|done].
  apply D_bind_Ok in H as (? & ? & _ & H). apply D_bind_Ok in H as (pr & s2 & _ & [= <- _]). by eexists.
Qed.

(** The text [semanticJSON] makes of a file's bytes. *)
Definition semantic_text (omitGeneratedAt : bool) (raw : string) : res string :=
  if negb omitGeneratedAt then canonicalJSON raw
  else object ← unmarshal_object raw;
       match object with
       | None => Err (Errorf "%s must contain a JSON object" [])
       | Some m => lexemes ← MarshalJSON (JSONObj (delete "generated_at" m)); Ok (unlex lexemes)
       end.

Lemma semanticJSON_value p omit_ t s s' : semanticJSON p omit_ s = (Ok t, s') ->
  exists raw, read_node (files s) p = Ok raw /\ semantic_text omit_ raw = Ok t.
Proof.
  intros (raw & s1 & [Hr E]%look_Ok & H)%D_bind_Ok; [|done]. exists raw. split; [done|]. unfold semantic_text.
  destruct (negb omit_); [by apply D_of_res_inv in H as [-> _]|].
  apply D_bind_Ok in H as (o & s2 & [-> ->]%D_wrap_err_Ok%D_of_res_inv & H). simpl. destruct o as [m|]; [|done].
  by apply D_bind_Ok in H as (l & s3 & [-> ->]%D_of_res_inv & [= <- _]).
Qed.

Lemma each_all {A} (step : A -> D unit) (R : fs -> A -> Prop) l s s' :
  (forall x, x ∈ l -> confined (fun _ => False) (step x)) ->
  (forall x s s', x ∈ l -> step x s = (Ok tt, s') -> R (files s) x) ->
  each step l s = (Ok tt, s') -> Forall (R (files s)) l.
Proof.
  revert s. induction l as [|x l IH]; intros s Hr Hs; [constructor|]. intros ([] & s1 & Hx & H)%D_bind_Ok.
  constructor; [by eapply Hs; [left|]|].
  assert (E : files s1 = files s) by (eapply (reads_keep _ _ _ _ (Hr x ltac:(by left)) Hx); done). rewrite <- E.
  apply IH; [intros y Hy; apply Hr; by right | intros y t t' Hy; apply Hs; by right | done].
Qed.

Definition same_json accepted rebuilt f name : Prop :=
  exists a r text, read_node f (join accepted name) = Ok a /\ read_node f (join rebuilt name) = Ok r /\
    semantic_text (String.eqb name "baseline_metadata.json") a = Ok text /\
    semantic_text (String.eqb name "baseline_metadata.json") r = Ok text.
Definition same_bytes root rebuiltRoot f name : Prop :=
  exists data, read_node f (join root name) = Ok data /\ read_node f (join rebuiltRoot name) = Ok data.

(** What an exact comparison compares. *)
Definition exactly f accepted rebuilt root rebuiltRoot : Prop :=
  (forall name, schema_hash f accepted name = schema_hash f rebuilt name) /\
  Forall (same_json accepted rebuilt f) exactMetadataFiles /\
  Forall (same_bytes root rebuiltRoot f) generatedProtocolArtifacts.

Lemma compareExact_value accepted rebuilt root rebuiltRoot s s' :
  compareExactBaseline accepted rebuilt root rebuiltRoot s = (Ok tt, s') -> exactly (files s) accepted rebuilt root rebuiltRoot.
Proof.
  intros (ah & s1 & [Ha E1]%D_wrap_err_Ok%schemaHashes_value & H)%D_bind_Ok; [|done].
  apply D_bind_Ok in H as (rh & s2 & [Hr E2]%D_wrap_err_Ok%schemaHashes_value & H); [|done].
  apply D_bind_Ok in H as ([] & s3 & [Hd ->]%D_guard_inv & H). apply negb_false_iff, fileDiff_empty in Hd.
  rewrite E1 in Hr, E2. split; [intros name; by rewrite <- Ha, <- Hr, Hd|].
  apply D_bind_Ok in H as ([] & s4 & Hmeta & Harts). pose proof (semanticJSON_reads (fun _ => False)) as Hsem.
  assert (Hmr : forall name, confined (fun _ => False) (same_metadata accepted rebuilt name)) by (intros; unfold same_metadata; place).
  assert (E4 : files s4 = files s2) by (eapply (reads_keep _ _ _ _ (confined_each _ _ _ (fun x _ => Hmr x)) Hmeta); done).
  rewrite <- E2. split.
  - apply (each_all _ (same_json accepted rebuilt)) in Hmeta; [done|by intros|]. intros name t t' _ (a & t1 & Hsa & H)%D_bind_Ok.
    assert (Et : files t1 = files t) by (eapply (reads_keep _ _ _ _ (Hsem _ _) Hsa); done).
    apply D_bind_Ok in H as (r & t2 & Hsr & [Heq _]%D_guard_inv). apply negb_false_iff, String.eqb_eq in Heq as <-.
    apply semanticJSON_value in Hsa as (x & Hx & Hxa), Hsr as (y & Hy & Hya). rewrite Et in Hy. by exists x, y, a.
  - rewrite <- E4. apply (each_all _ (same_bytes root rebuiltRoot)) in Harts; [done| |].
    + intros name _. unfold same_artifact, ReadFile. place.
    + intros name t t' _ (a & t1 & [Hsa Et]%look_Ok & H)%D_bind_Ok; [|done].
      apply D_bind_Ok in H as (r & t2 & [Hsr _]%look_Ok & [Heq _]%D_guard_inv); [|done].
      apply negb_false_iff, String.eqb_eq in Heq as <-. rewrite Et in Hsr. by exists a.
Qed.

Lemma same_below_read root f f' p data : p <> [] -> same_below root f f' -> within root p -> read_node f' p = Ok data -> read_node f p = Ok data.
Proof. intros Hp Hs Hw H. apply read_file; [done|]. apply read_file in H; [|done]. rewrite <- H. symmetry. by apply Hs. Qed.

Lemma same_below_schemas root f f' : is_dir f root = true -> root <> [] -> same_below root f f' ->
  forall name, schema_hash f' root name = schema_hash f root name.
Proof.
  intros Hd Hne Hs. apply same_schemas_hash; [|done|].
  - apply is_dir_node; [done|]. rewrite (Hs root (within_refl root)). by apply is_dir_node.
  - intros rel d _. apply same_iff, Hs, within_app.
Qed.

(** C39: An exact verification that succeeds, nothing else changing the disk,
    rebuilt the upgrade from the candidate and found the accepted module equal to
    it: the accepted schemas have the candidate's canonical texts, the generated
    Go files are the rebuilt ones byte for byte, and the metadata, manifest and
    coverage files say the same JSON, the time of generation apart. *)
Theorem VerifyExact_accepts (req : ApplyRequest) (b c root : path) (plan : PlanResult) (s s' : disk)
    (Hb : Baseline req = Some b) (Hc : Candidate req = Some c) (Hroot : ModuleRoot req = Some root)
    (Tc : temp_outside c) (Tr : temp_outside root) (Hbd : is_dir (files s) b = true) (Hcd : is_dir (files s) c = true)
    (H : VerifyExact req s = (Ok plan, s')) :
  (forall name, schema_hash (files s) b name = schema_hash (files s) c name) /\
  exists prep, prepared plan = Some prep /\ pr_Status plan = PlanReady /\
    Forall (fun name => exists data, prep_files prep !! name = Some data /\ read_node (files s) (join root name) = Ok data)
      generatedProtocolArtifacts /\
    Forall (fun name => exists accepted rebuilt text,
        read_node (files s) (join b name) = Ok accepted /\
        prep_files prep !! (defaultBaselineRel +:+ "/" +:+ name) = Some rebuilt /\
        semantic_text (String.eqb name "baseline_metadata.json") accepted = Ok text /\
        semantic_text (String.eqb name "baseline_metadata.json") rebuilt = Ok text) exactMetadataFiles.
Proof.
  unfold VerifyExact in H. rewrite Hroot in H. destruct (exact_prepared _ _ _ _ H) as [prep Hp].
  pose proof (planCandidate_value req b c true plan prep s s') as V. cbv zeta in V. rewrite Hroot in V. change (default (above b) (Some root)) with root in V.
  destruct (V Hb Hc Tc Tr Hbd Hcd H Hp) as (Eb & Hst & _ & f & tmp & [G1 G2 G3 G4 (Fa & Fb & _) G6 G7]).
  destruct (G7 eq_refl) as (t & t' & (Hh & Hj & Ha)%compareExact_value & Et). rewrite Et in Hh, Hj, Ha.
  assert (Hbne : b <> []) by (rewrite Eb; by intros [_ ?]%app_eq_nil).
  assert (Hbb : same_below b (files s) f) by (intros p Hw; apply G2; rewrite Eb in Hw; eapply within_trans; [apply within_app | exact Hw]).
  split.
  - intros name. rewrite <- (same_below_schemas b (files s) f Hbd Hbne Hbb), Hh.
    apply same_schemas_hash; done.
  - exists prep. split; [done|]. split; [done|]. split; apply Forall_forall; intros name Hn.
    + rewrite Forall_forall in Ha. destruct (Ha _ Hn) as (data & Hr & Hr'). destruct (Fa _ Hn) as (data' & Hd & Hr'').
      assert (data' = data) as -> by congruence. exists data. split; [done|].
      destruct (artifact_placed name Hn) as [Hpl _]. rewrite (Hpl root) in Hr |- *. eapply same_below_read; [|exact G2|apply within_app|exact Hr].
      intros [_ ?]%app_eq_nil. by apply (split_byte_nonempty "/"%char name).
    + rewrite Forall_forall in Hj. destruct (Hj _ Hn) as (a & r & text & H1 & H2 & H3 & H4). exists a, r, text.
      assert (Hg : good_rel (split_byte "/"%char name) /\ rel_name (split_byte "/"%char name) = name /\
        forallb element (split_byte "/"%char name) = true).
      { assert (Hall : Forall (fun name => forallb element (split_byte "/"%char name) = true /\ rel_name (split_byte "/"%char name) = name)
          exactMetadataFiles) by (repeat constructor).
        rewrite Forall_forall in Hall. destruct (Hall _ Hn) as [E1 E2]. split; [|done]. split; [apply split_byte_nonempty | by apply forallb_Forall]. }
      destruct Hg as (Hg & Hrel & Hel). rewrite (placed_name name Hel) in H1, H2 |- *. split; [|split; [|done]].
      * eapply same_below_read; [|exact Hbb|apply within_app|exact H1]. by intros [? _]%app_eq_nil.
      * rewrite <- Hrel. apply (Fb _ _ Hg). rewrite app_assoc. apply read_file; [|done]. intros [_ E]%app_eq_nil.
        by apply (split_byte_nonempty "/"%char name).
Qed.

(** ** Materialisation *)

Lemma elem_of_sorted_keys (files : gmap string string) name : name ∈ sorted_keys files <-> is_Some (files !! name).
Proof.
  unfold sorted_keys. rewrite elem_of_sort_strings, list_elem_of_fmap. split.
  - intros ([k v] & -> & Hkv%elem_of_map_to_list). by exists v.
  - intros [v Hv]. exists (name, v). split; [done | by apply elem_of_map_to_list].
Qed.

Lemma write_files root files0 s s' : names_placed files0 -> writeCandidateFiles root files0 s = (Ok tt, s') ->
  exists W, wrote W (files s) (files s') /\ forall p d, W !! p = Some d <-> exists name, files0 !! name = Some d /\ p = join root name.
Proof.
  intros [Hpl Hinj] H.
  apply (each_wrote _ (join root) (fun name d => files0 !! name = Some d) (fun _ => True)) in H as (W & HW & _ & Hdom & Hall); [| |done].
  - exists W. split; [done|]. intros p d. split.
    + intros (x & _ & -> & Hd)%Hdom. by exists x.
    + intros (name & Hn & ->). destruct (Hall name) as [d' Hd']; [apply elem_of_sorted_keys; by exists d|].
      rewrite Hd'. destruct (Hdom _ _ Hd') as (x & _ & Heq & Hx).
      destruct (Hpl name ltac:(by exists d)) as [r1 P1], (Hpl x ltac:(by exists d')) as [r2 P2].
      rewrite (P1 root), (P2 root) in Heq. apply app_inv_head in Heq as <-.
      assert (name = x) as -> by (eapply Hinj; eauto). congruence.
  - intros name t t' Hn%elem_of_sorted_keys _ ([] & t1 & [Hmk _]%(MkdirAll_Ok Hq) & [Hw _]%(WriteFile_Ok Hq))%D_bind_Ok.
    destruct Hn as [d Hd]. exists d. split; [done|]. split; [|done]. rewrite Hd in Hw. by eapply wrote_empty.
Qed.

Lemma retired_removed prep b s s' : each (remove_retired prep b) retired_reports s = (Ok tt, s') -> steady b (files s) (files s').
Proof.
  intros H. apply (retired_steady b s s'). revert H. generalize retired_reports. intros l. revert s.
  induction l as [|x l IH]; intros s; simpl; [done|]. intros ([] & s1 & Hx & H)%D_bind_Ok. unfold remove_retired in Hx.
  destruct (prep_files prep !! _); [done|]. unfold mbind, D_bind. rewrite Hx. by apply IH.
Qed.

Lemma stale_removed prep b s s' l : is_dir (files s) b = true -> l = schema_names (files s) b ->
  each (remove_stale prep b) l s = (Ok tt, s') ->
  files s' !! b = files s !! b /\
  forall rel d, schema_rel rel = true -> files s' !! (b ++ rel) = Some (File d) ->
    is_Some (prep_files prep !! (defaultBaselineRel +:+ "/" +:+ rel_name rel)).
Proof.
  intros Hb Hl H. pose proof (each_removed (remove_stale prep b) (join b)
    (fun x => prep_files prep !! (defaultBaselineRel +:+ "/" +:+ x) = None) l s s') as R.
  assert (Hstep : forall x t t', x ∈ l -> remove_stale prep b x t = (Ok tt, t') ->
    (prep_files prep !! (defaultBaselineRel +:+ "/" +:+ x) = None /\ files t' = delete (join b x) (files t)) \/
    (prep_files prep !! (defaultBaselineRel +:+ "/" +:+ x) <> None /\ files t' = files t)).
  { intros x t t' _. unfold remove_stale. destruct (prep_files prep !! _) as [v|]; intros Hx; [right | left; split; [done | by apply Remove_Ok]].
    by injection Hx as <-. }
  specialize (R Hstep H).
  assert (Hat : forall x, x ∈ l -> exists rel, good_rel rel /\ join b x = b ++ rel).
  { intros x Hx. rewrite Hl in Hx. apply (schema_names_spec _ _ _ Hb) in Hx as (rel & d & Hs & -> & _).
    exists rel. split; [by apply schema_rel_good|]. apply join_rel_name. by apply schema_rel_good. }
  split.
  - destruct (R b) as [_ Rb]. apply Rb. intros x (rel & [Hne _] & ->)%Hat _ E. apply Hne, (app_inv_head b). by rewrite app_nil_r.
  - intros rel d Hs Hf. destruct (R (b ++ rel)) as [Ra _]. destruct (Ra _ Hf) as [Hf0 Hno].
    destruct (prep_files prep !! _) as [v|] eqn:E; [by exists v|]. exfalso. destruct (schema_rel_good _ Hs) as [Hne Hg].
    apply (Hno (rel_name rel)); [|done|by rewrite join_rel_name]. rewrite Hl. apply (schema_names_spec _ _ _ Hb). eauto.
Qed.

(** The reports stand apart from the baseline and below no generated artifact;
    they may be elsewhere in the module. *)
Definition reports_clear (reports root : path) : Prop :=
  apart reports (root ++ baseline_rel) /\ forall name, name ∈ generatedProtocolArtifacts -> ~ within reports (join root name).

(** A prepared candidate that is applied: its files, and no other schema file,
    stand in the module. *)
Lemma materialize_value prep b c root s s' :
  let reports := reports_dir (Reports (request prep)) c in
  default (above b) (ModuleRoot (request prep)) = root -> b = root ++ baseline_rel -> is_dir (files s) b = true -> reports_clear reports root ->
  (forall name, is_Some (prep_files prep !! name) -> name ∈ generatedProtocolArtifacts \/
     exists rel, good_rel rel /\ name = defaultBaselineRel +:+ "/" +:+ rel_name rel) ->
  (forall name, is_Some (prep_reports prep !! name) -> exists rel, Forall (fun e => element e = true) rel /\ name = rel_name rel) ->
  materialize prep b c s = (Ok tt, s') ->
  (forall rel d, schema_rel rel = true -> files s' !! (b ++ rel) = Some (File d) <->
     prep_files prep !! (defaultBaselineRel +:+ "/" +:+ rel_name rel) = Some d) /\
  (forall name d, prep_files prep !! name = Some d -> files s' !! join root name = Some (File d)) /\
  (forall name d, prep_reports prep !! name = Some d -> files s' !! join reports name = Some (File d)).
Proof.
  intros reports Hroot Hb Hbd Ha Hnames Hreps H. unfold materialize in H.
  apply read_bind in H as (cur & s1 & _ & H & E1); [|eauto with confined].
  apply read_bind in H as ([] & s2 & _ & H & E2); [|eauto with confined].
  apply D_bind_Ok in H as (old & s3 & [Hold E3]%schemaFiles_value & H); [|done]. rewrite <- E1, <- E2 in Hbd.
  apply D_bind_Ok in H as ([] & s4 & Hst & H). rewrite E2, E1 in *. rewrite <- E3 in Hold, Hbd.
  apply stale_removed in Hst as [Hdir Hstale]; [|done|done].
  apply D_bind_Ok in H as ([] & s5 & Hret%retired_removed & H). rewrite Hroot in H.
  apply D_bind_Ok in H as ([] & s6 & (W1 & HW1 & Hdom1)%write_files & (W2 & HW2 & Hdom2)%write_files).
  2: { split; [|].
       - intros name (rel & Hg & ->)%Hreps. exists rel. by apply placed_rel_name.
       - intros n1 n2 rel (r1 & G1 & ->)%Hreps (r2 & G2 & ->)%Hreps P1 P2.
         by rewrite (placed_fun _ _ _ (placed_rel_name r1 G1) P1), (placed_fun _ _ _ (placed_rel_name r2 G2) P2). }
  2: { apply owned_placed. intros name [Hn|(rel & [_ Hg] & ->)]%Hnames; [by left | right; by exists rel]. }
  destruct HW1 as (A1 & B1 & C1), HW2 as (A2 & B2 & C2).
  assert (Hout : forall p d, W2 !! p = Some d -> within reports p).
  { intros p d (name & Hn & ->)%Hdom2. destruct (Hreps name ltac:(by exists d)) as (rel & Hg & ->). rewrite join_rel_name by done.
    apply within_app. }
  assert (Hno : forall rel, W2 !! (b ++ rel) = None).
  { intros rel. destruct (W2 !! (b ++ rel)) as [d|] eqn:E; [|done]. apply Hout in E. destruct Ha as [[Ha1 Ha2] _]. rewrite <- Hb in Ha1, Ha2.
    destruct (within_comparable _ _ _ (within_app b rel) E); [by destruct Ha2 | by destruct Ha1]. }
  assert (Hart : forall name, name ∈ generatedProtocolArtifacts -> W2 !! join root name = None).
  { intros name Hn. destruct (W2 !! join root name) as [d|] eqn:E; [|done]. apply Hout in E. by destruct (proj2 Ha name Hn). }
  assert (Hplace : forall rel d, good_rel rel -> W1 !! (b ++ rel) = Some d <->
    prep_files prep !! (defaultBaselineRel +:+ "/" +:+ rel_name rel) = Some d).
  { intros rel d [Hne Hg]. rewrite Hdom1. split.
    - intros (name & Hn & Heq). destruct (Hnames name ltac:(by exists d)) as [[Hp Hh]%artifact_placed|(r & [_ Hg'] & ->)].
      + rewrite Hb, (Hp root), <- app_assoc in Heq. apply app_inv_head in Heq. by rewrite <- Heq in Hh.
      + rewrite Hb, (owned_baseline_placed r Hg' root), <- app_assoc in Heq. apply app_inv_head, app_inv_head in Heq. by rewrite Heq.
    - intros Hn. eexists. split; [exact Hn|]. by rewrite (owned_baseline_placed rel Hg root), Hb, <- app_assoc. }
  split; [|split].
  - intros rel d Hs. pose proof (schema_rel_good _ Hs) as Hg. rewrite <- (Hplace rel d Hg). split.
    + intros [Hf|Hf]%C2; [by rewrite Hno in Hf|]. destruct (C1 _ _ Hf) as [?|Hf5]; [done|].
      assert (Hf4 : files s4 !! (b ++ rel) = Some (File d)) by (rewrite <- Hf5; symmetry; apply Hret; right; eauto).
      destruct (Hstale rel d Hs Hf4) as [v Hv]. apply (Hplace rel v Hg) in Hv.
      assert (E := eq_trans (eq_sym (A1 _ _ Hv)) Hf). by injection E as <-.
    + intros Hw. apply B2; [apply Hno | by apply A1].
  - intros name d Hn. apply B2.
    + destruct (Hnames name ltac:(by exists d)) as [Hg|(r & [_ Hg'] & ->)]; [by apply Hart|].
      rewrite (owned_baseline_placed r Hg' root), app_assoc, <- Hb. apply Hno.
    + apply A1, Hdom1. by exists name.
  - intros name d Hn. apply A2, Hdom2. by exists name.
Qed.
End planned.

Section applied.
Context {Sys : System} {Txt : Texts} {MT : ManifestTexts} {Gen : Generator} {Up : UpgradeTexts} {Cmp : CompileTexts}.

(** C38: An upgrade that succeeds, nothing else changing the disk, came of a ready
    plan and leaves the module with the candidate's schema files, byte for byte
    and no other, with every file the plan prepared, and with its reports.  The
    candidate is what it was when the plan read it.  The reports are anywhere but
    in the schema directory, around it or above a generated artifact, as in a sync
    whose reports are below [.cache] of the module; scratch directories are made
    outside the candidate and the module. *)
Theorem Apply_exact (Hq : quiet Sys) (req : ApplyRequest) (b c root reports : path) (preview : option ApplyResult) (s s' : disk)
    (Hb : Baseline req = Some b) (Hc : Candidate req = Some c) (Hroot : default (above b) (ModuleRoot req) = root)
    (Hrep : reports_dir (Reports req) c = reports) (Ha : reports_clear reports root)
    (Tc : temp_outside c) (Tr : temp_outside root) (Hbd : is_dir (files s) b = true) (Hcd : is_dir (files s) c = true)
    (H : Apply req s = (Ok preview, s')) :
  same_schemas (files s') b (files s) c /\
  exists plan prep s1, Plan req s = (Ok plan, s1) /\ pr_Status plan = PlanReady /\ prepared plan = Some prep /\
    preview = Preview plan /\
    (forall name data, prep_files prep !! name = Some data -> files s' !! join root name = Some (File data)) /\
    (forall name data, prep_reports prep !! name = Some data -> files s' !! join reports name = Some (File data)).
Proof.
  apply D_bind_Ok in H as (plan & s1 & Hplan & H). destruct (String.eqb (pr_Status plan) PlanReady) eqn:Est; [|done].
  unfold PlanResult_Apply in H. rewrite Est in H. destruct (prepared plan) as [prep|] eqn:Hp; [|done].
  pose proof (planCandidate_value Hq req b c false plan prep s s1) as V. cbv zeta in V. rewrite Hroot in V.
  destruct (V Hb Hc Tc Tr Hbd Hcd Hplan Hp)
    as (Eb & Hst & Hreq & f & tmp & [G1 G2 G3 G4 (Fa & Fb & Fc) [G6 G6'] G7]).
  rewrite Hreq in H. cbn [Baseline Candidate set_module] in H. rewrite Hb, Hc in H.
  apply D_bind_Ok in H as ([] & s2 & Hmat & [= <- <-]).
  assert (Hbd1 : is_dir (files s1) b = true).
  { assert (Hbne : b <> []) by (rewrite Eb; by intros [_ ?]%app_eq_nil).
    apply (is_dir_node _ _ Hbne). destruct (planCandidate_scratches _ _ _ _ _ Hplan) as [_ K]. destruct (K Hq) as [Kk _].
    apply Kk. by apply (is_dir_node _ _ Hbne). }
  pose proof (materialize_value Hq prep b c root s1 s2) as M. cbv zeta in M. rewrite Hreq in M.
  change (Reports (set_module req root)) with (Reports req) in M. rewrite Hrep in M.
  destruct (M eq_refl Eb Hbd1 Ha Fc G6' Hmat) as (M1 & M2 & M3). split.
  - intros rel d Hs. rewrite (M1 rel d Hs), (Fb rel d (schema_rel_good _ Hs)), app_assoc. by apply G4.
  - exists plan, prep, s1. done.
Qed.
End applied.

(** * Witnesses *)

Lemma calm_outside root : head root <> Some "tmp" -> root <> [] -> @temp_outside calm root.
Proof. intros H Hne n f pattern [rel Hw]. destruct root as [|x root]; [done|]. injection Hw as <- _. done. Qed.

(** The request of a sync: its reports are in the module. *)
Definition sync_reports : path := ["m"; ".cache"; "codexsdk-upstream-1"; "reports"].
Definition sync_request : @ApplyRequest sample_manifest_texts :=
  {| Baseline := Some sample_schema_dir; Candidate := Some ["c"]; StableCandidate := Some ["stable"]; CommonRS := Some ["common.rs"];
     CommonRSSourceSHA := sample_commit; CodexRepo := None; Reports := Some sync_reports; TargetRef := "rust-v1.2.3"; TargetKind := "tag";
     TargetSHA := sample_commit; ModuleRoot := Some ["m"]; Now := None |}.

Definition sample_apply :=
  @Apply calm upgrade_texts sample_manifest_texts sample_generator sample_upgrade_texts sync_request (disk_of upgrade_tree).

Lemma sample_apply_ok : sample_apply = (Ok (value_of None sample_apply.1), sample_apply.2).
Proof. apply runs_ok. vm_compute. reflexivity. Qed.

Lemma Apply_exact_witness :
  same_schemas (files sample_apply.2) sample_schema_dir upgrade_tree ["c"] /\
  files sample_apply.2 !! (sample_schema_dir ++ ["New.json"]) = Some (File "x").
Proof.
  assert (Hs : same_schemas (files sample_apply.2) sample_schema_dir upgrade_tree ["c"]).
  { refine (proj1 (@Apply_exact calm upgrade_texts sample_manifest_texts sample_generator sample_upgrade_texts calm_quiet
      sync_request sample_schema_dir ["c"] ["m"] sync_reports _ (disk_of upgrade_tree) sample_apply.2
      eq_refl eq_refl eq_refl eq_refl _ _ _ _ _ sample_apply_ok)).
    - split; [split; intros [rel Hw]; discriminate Hw|]. intros name Hn [rel Hw].
      repeat (apply elem_of_cons in Hn as [->|Hn]; [vm_compute in Hw; discriminate Hw|]). by apply not_elem_of_nil in Hn.
    - apply calm_outside; discriminate.
    - apply calm_outside; discriminate.
    - vm_compute. reflexivity.
    - vm_compute. reflexivity. }
  split; [exact Hs|]. apply (Hs ["New.json"] "x"); vm_compute; reflexivity.
Defined.

(** A module that was upgraded to the candidate. *)
Definition exact_tree : fs := list_to_map
  ([(["tmp"], Dir); (["m"], Dir); (["m"; "internal"], Dir); (["m"; "internal"; "protocolschema"], Dir);
    (["m"; "internal"; "protocolschema"; "appserver"], Dir); (sample_schema_dir, Dir)] ++
   map (fun '(name, text) => (sample_schema_dir ++ [name], File text))
     ([("A.json", "y"); ("baseline_metadata.json", "meta"); ("manifest_generation.json", "meta");
       ("manifest.json", "manifest"); ("coverage_matrix.json", "coverage")] ++ map (fun name => (name, "z")) aggregateSchemas) ++
   map (fun '(name, text) => (["c"; name], File text)) (("A.json", "x") :: map (fun name => (name, "z")) aggregateSchemas) ++
   map (fun '(name, text) => (["stable"; name], File text)) (("A.json", "z") :: map (fun name => (name, "z")) aggregateSchemas) ++
   [(["m"; "client.go"], File "package codexsdk"); (["m"; "protocolv2"], Dir);
    (["m"; "protocolv2"; "method_registry.gen.go"], File "registry"); (["m"; "protocolv2"; "protocol_types.gen.go"], File "types");
    (["m"; "protocolv2"; "experimental_members.gen.go"], File "members"); (["m"; "sdk_surface.gen.go"], File "sdk");
    (["c"], Dir); (["stable"], Dir); (["common.rs"], File sample_source)]).

Definition sample_verify :=
  @VerifyExact calm upgrade_texts sample_manifest_texts sample_generator sample_upgrade_texts upgrade_request (disk_of exact_tree).

Lemma sample_verify_ok : sample_verify = (Ok (value_of no_plan sample_verify.1), sample_verify.2).
Proof. apply runs_ok. vm_compute. reflexivity. Qed.

Lemma VerifyExact_accepts_witness :
  @schema_hash upgrade_texts exact_tree sample_schema_dir "A.json" = @schema_hash upgrade_texts exact_tree ["c"] "A.json" /\
  is_Some (@schema_hash upgrade_texts exact_tree ["c"] "A.json").
Proof.
  split; [|vm_compute; eexists; reflexivity].
  refine (proj1 (@VerifyExact_accepts calm upgrade_texts sample_manifest_texts sample_generator sample_upgrade_texts calm_quiet
    upgrade_request sample_schema_dir ["c"] ["m"] _ (disk_of exact_tree) sample_verify.2
    eq_refl eq_refl eq_refl _ _ _ _ sample_verify_ok) "A.json").
  - apply calm_outside; discriminate.
  - apply calm_outside; discriminate.
  - vm_compute. reflexivity.
  - vm_compute. reflexivity.
Defined.
