(* ===== verification/Goal.v ===== *)
(** What every part of the goal flow rests on: the trusted binding of a goal, the
    readings of its remote heads, the checks that its draft is still the bound
    one, and the classification of a moved main.  [goal_publication.go] (binding
    and current authority), [goal_rebinding.go], [goal_completed_ci.go],
    [goal_active_base.go], [goal_integration_guard.go] and [app_token_error.go]
    of [src/codexsdk/internal/protocolsync].

    The host - clocks, contexts, files and git in a clean environment - is the
    class [Host] over the boundary of the flows. *)

From Stdlib Require Import Ascii.
From stdpp Require Import pretty.
From S2P Require Import Prelude GoStrings Policy Scope Resolve PublicationText Checks Boundary Inspection.

Local Open Scope string_scope.
Local Open Scope list_scope.

(** * Data *)

(** Times are seconds; the zero [time.Time] is [None]. *)
Record GoalPublicationRequest := {
  RepoRoot : string; gp_Repository : string; gp_Remote : string; gp_BaseBranch : string; gp_Branch : string;
  gp_BaseSHA : string; ExpectedHead : string; CandidateDir : string; SnapshotDigest : string; StateDir : string;
  Deadline : option Z; gp_Number : Z; VerificationBaseSHA : string; gp_AppBotID : Z; gp_Target : Target;
  has_API : bool; has_token : bool }.

Record goalDraftPR := { draft_pr : publicationPR; Draft : bool }.

(** What [os.Lstat] and [os.Stat] tell of a path. *)
Inductive finfo := NoFile | FileError (e : error) | FileInfo (regular is_directory : bool) (perm bytes : Z).

(** No permission for anybody but the owner. *)
Definition private (perm : Z) : bool := (Z.land perm 0x3f =? 0)%Z.

(** The context of a call, and the one of a readback that outlives it. *)
Inductive ctx := CallCtx | ReadCtx.

(** The host: [file_info] is [os.Lstat], [dir_info] is [os.Stat], [root_info] is
    [os.Lstat] of a name inside an opened root; the decoders are [json.Unmarshal]
    into the structs of the calls; [Abs] resolves against a working
    directory that nobody changes; [sha256] is the digest in hexadecimal. *)
Class Host (W : Type) {B : Boundary W} := {
  perform : hostcall -> W -> res string * W;
  file_info : string -> W -> finfo;
  dir_info : string -> W -> finfo;
  root_info : string -> string -> W -> finfo;
  EvalSymlinks : string -> W -> res string;
  Abs : string -> res string;
  sha256 : string -> string;
  now : W -> Z;
  ctx_err : ctx -> W -> option error;
  decode_draft : Raw -> res goalDraftPR;
  decode_drafts : Raw -> res (list goalDraftPR);
  decode_ready : Raw -> res (goalDraftPR * string);
  decode_open : Raw -> res (option (list publicationPR));
  decode_ref : Raw -> res (string * string * string);
  decode_repository : Raw -> res (string * string);
  decode_file : Raw -> res (string * string)
}.

(** * Errors *)

(** [errors.As] into a pointer: the first error of the type. *)
Fixpoint find_typed (p : etype -> bool) (e : error) : option error :=
  let fix go (l : list error) : option error :=
    match l with [] => None | x :: l' => match find_typed p x with Some r => Some r | None => go l' end end in
  match e with
  | Sentinel _ | Foreign _ => None
  | Errorf _ l => go l
  | Typed t l => if p t then Some e else go l
  end.

Definition is_publication (t : etype) : bool := match t with GoalPublicationT _ _ _ => true | _ => false end.
Definition is_token (t : etype) : bool := match t with AppTokenT _ _ => true | _ => false end.
Definition as_exit (t : etype) : option Z := match t with ExitT code => Some code | _ => None end.

Definition option_list {A} (o : option A) : list A := match o with Some a => [a] | None => [] end.

(** A [GoalPublicationError]: its token or its cause is what it wraps. *)
Definition safeGoalPublicationError (stage : string) (err : error) : error :=
  match find_typed is_publication err with
  | Some publication => publication
  | None =>
    let token := find_typed is_token err in
    let exit := default 0%Z (errors_as as_exit err) in
    match token with
    | Some t => Typed (GoalPublicationT "token" "token_unavailable" exit) [t]
    | None => Typed (GoalPublicationT stage (if String.eqb stage "token" then "token_unavailable" else "git_failed") exit) []
    end
  end.

Definition goalPublicationOutcomeError (stage category : string) (cause : option error) : error :=
  Typed (GoalPublicationT stage category 0)
    (option_list (cause ≫= λ e, find_typed is_publication (safeGoalPublicationError "push" e))).

(** ** Texts of a closed vocabulary *)

Definition AppTokenSigningFailed := 1%Z.
Definition AppTokenRequestInvalid := 2%Z.
Definition AppTokenTransportFailed := 3%Z.
Definition AppTokenHTTPRejected := 4%Z.
Definition AppTokenResponseMalformed := 5%Z.
Definition AppTokenMissing := 6%Z.
Definition AppTokenExpiryInsufficient := 7%Z.

Definition token_category (failure : Z) : string :=
  if (failure =? AppTokenSigningFailed)%Z then "signing_failed"
  else if (failure =? AppTokenRequestInvalid)%Z then "request_invalid"
  else if (failure =? AppTokenTransportFailed)%Z then "transport_failed"
  else if (failure =? AppTokenHTTPRejected)%Z then "http_rejected"
  else if (failure =? AppTokenResponseMalformed)%Z then "response_malformed"
  else if (failure =? AppTokenMissing)%Z then "token_missing"
  else if (failure =? AppTokenExpiryInsufficient)%Z then "expiry_insufficient"
  else "unknown".

Definition AppTokenError_Error (failure status : Z) : string :=
  if (100 <=? status)%Z && (status <=? 599)%Z
  then "App token preparation failed: " +:+ token_category failure +:+ " (HTTP " +:+ pretty status +:+ ")"
  else "App token preparation failed: " +:+ token_category failure.

Definition closed (known : list string) (fallback name : string) : string := if mem name known then name else fallback.

Fixpoint GoalPublicationError_Error (e : error) : string :=
  match e with
  | Typed (GoalPublicationT stage category exit) wraps =>
    "publication " +:+ closed ["token"; "push"; "git"; "readback"] "unknown" stage +:+ ": " +:+
    closed ["token_unavailable"; "git_failed"; "unknown"; "unconfirmed"; "head_changed"] "operation_failed" category +:+
    (if (0 <? exit)%Z then " (exit " +:+ pretty exit +:+ ")" else "") +:+
    match wraps with
    | Typed (AppTokenT failure status) _ :: _ => ": " +:+ AppTokenError_Error failure status
    | cause :: _ => "; " +:+ GoalPublicationError_Error cause
    | [] => ""
    end
  | _ => ""
  end.

(** * The binding *)

(** [^[A-Za-z0-9_.-]+/[A-Za-z0-9_.-]+$] *)
Definition repository_part (s : string) : bool :=
  negb (String.eqb s "") && all_bytes (fun c => is_name_byte c) s.
Definition goalRepositoryPattern (s : string) : bool :=
  match split_byte "/"%char s with [a; b] => repository_part a && repository_part b | _ => false end.

Definition goalRemote (r : GoalPublicationRequest) : string := if String.eqb (gp_Remote r) "" then "origin" else gp_Remote r.

Definition goalVerificationBase (r : GoalPublicationRequest) : string :=
  if String.eqb (VerificationBaseSHA r) "" then gp_BaseSHA r else VerificationBaseSHA r.

Definition incomplete_binding (r : GoalPublicationRequest) : bool :=
  negb (has_API r) || String.eqb (RepoRoot r) "" || (gp_Number r <=? 0)%Z || (gp_AppBotID r <=? 0)%Z ||
  negb (goalRepositoryPattern (gp_Repository r)) || negb (shaRE (gp_BaseSHA r)) || negb (shaRE (ExpectedHead r)) ||
  negb (shaRE (PeeledCommitSHA (gp_Target r))) ||
  (negb (String.eqb (VerificationBaseSHA r) "") && negb (shaRE (VerificationBaseSHA r))).

Definition bad_ref (ref : string) : bool :=
  String.eqb ref "" || has_prefix "-" ref || contains_byte (byte 13) ref || contains_byte (byte 10) ref.

(** [try! x := m else result; k]: an error of [m] is returned with [result]. *)
Declare Scope goal_scope.
Delimit Scope goal_scope with goal.

Section goal.
Context {W : Type} {B : Boundary W} {H : Host W}.

Definition replace_err {A} (e : error) (m : P (B := B) A) : P A := fun s =>
  match m s with Some (Err _, s') => Some (Err e, s') | r => r end.
Definition map_err {A} (f : error -> error) (m : P (B := B) A) : P A := fun s =>
  match m s with Some (Err e, s') => Some (Err (f e), s') | r => r end.

Definition host (call : hostcall) : P (B := B) string := fun s =>
  let '(out, w) := perform call (world s) in
  Some (out, {| world := w; log := Performed call out :: log s |}).

Definition new_error (message : string) : error := Errorf message [].

(** Go on with the error of a step that may fail, as a value of the result. *)
Definition caught {A X} (m : P (B := B) A) (result : X) (k : A -> P (B := B) (X * option error)) : P (X * option error) := fun s =>
  match m s with
  | Some (Ok a, s') => k a s'
  | Some (Err e, s') => Some (Ok (result, Some e), s')
  | None => None
  end.

(** A deferred call: it runs however the rest ends. *)
Definition finally {A} (m : P (B := B) A) (cleanup : P (B := B) unit) : P A := fun s =>
  match m s with
  | Some (r, s') => match cleanup s' with Some (_, s'') => Some (r, s'') | None => None end
  | None => None
  end.

(** Run the cleanup when the rest fails. *)
Definition on_error {A} (cleanup : P (B := B) unit) (m : P (B := B) A) : P A := fun s =>
  match m s with
  | Some (Err e, s') => match cleanup s' with Some (_, s'') => Some (Err e, s'') | None => None end
  | r => r
  end.

Definition remove_all (path : string) : P (B := B) unit := _ ← host (RemoveAll path); mret tt.

(** The error of an ended context. *)
Definition ended (c : ctx) : P (B := B) unit := fun s =>
  Some (match ctx_err c (world s) with Some e => Err e | None => Ok tt end, s).

Definition gitNULIn (root : string) (args : list string) : P (B := B) (list string) := gitNUL ("-C" :: root :: args).

(** [AssertClean], in a directory other than the one of the flow. *)
Definition AssertCleanIn (root : string) : P (B := B) unit :=
  tracked ← gitNULIn root tracked_args;
  untracked ← gitNULIn root untracked_args;
  of_res (Scope.AssertClean (Scope.ChangedPaths (Ok tracked) (Ok untracked))).

(** [git -c core.hooksPath=/dev/null -c core.fsmonitor=false -C root args]; the
    error keeps its category only. *)
Definition fixed_args (root : string) : list string :=
  ["-c"; "core.hooksPath=/dev/null"; "-c"; "core.fsmonitor=false"; "-C"; root].
Definition goalGit (root : string) (args : list string) : P (B := B) string :=
  out ← map_err (safeGoalPublicationError "git") (run (fixed_args root ++ args) "");
  mret (trim_space out).

(** The same, in an environment without configuration and credentials. *)
Definition goalArtifactGit (root : string) (args : list string) : P (B := B) string :=
  out ← map_err (safeGoalPublicationError "git") (host (ArtifactGit (fixed_args root ++ args)));
  mret (trim_space out).

Definition check_ref (ref : string) : P (B := B) unit :=
  _ ← guard (bad_ref ref) (new_error "invalid bound branch");
  _ ← replace_err (new_error "invalid bound branch") (run ["check-ref-format"; "refs/heads/" +:+ ref] "");
  mret tt.

Definition goalBinding (r : GoalPublicationRequest) : P (B := B) unit :=
  _ ← guard (incomplete_binding r) (new_error "incomplete trusted goal publication binding");
  _ ← check_ref (gp_Branch r);
  _ ← check_ref (gp_BaseBranch r);
  _ ← guard (negb (has_prefix "codex/sync-upstream-" (gp_Branch r))) (new_error "goal branch is outside the fixed sync namespace");
  _ ← guard (String.eqb (gp_Branch r) (gp_BaseBranch r)) (new_error "goal branch must differ from base");
  guard (has_prefix "-" (goalRemote r)) (new_error "invalid bound remote").

Definition goalRemoteHead (r : GoalPublicationRequest) (branch : string) : P (B := B) string :=
  out ← wrap_err "bound remote ref cannot be confirmed: %w"
          (goalGit (RepoRoot r) ["ls-remote"; goalRemote r; "refs/heads/" +:+ branch]);
  match str_fields out with
  | [sha; ref] => if String.eqb ref ("refs/heads/" +:+ branch) && shaRE sha then mret sha
                  else fail (new_error "bound remote ref cannot be confirmed")
  | _ => fail (new_error "bound remote ref cannot be confirmed")
  end.

(** A flow under a context: an ended context is the error, before and after. *)
Definition under {A} (c : ctx) (m : P (B := B) A) : P A := fun s =>
  match ctx_err c (world s) with
  | Some e => Some (Err e, s)
  | None =>
    match m s with
    | Some (r, s') => Some (match ctx_err c (world s') with Some e => Err e | None => r end, s')
    | None => None
    end
  end.

Definition actor_request (repository : string) : PendingRequest :=
  {| ReadChecks := false; RepairPending := false; Repository := repository; BaseBranch := ""; BaseSHA := ""; Remote := "";
     AppBotID := 0; req_Target := {| RefName := ""; RefKind := ""; TagSHA := ""; PeeledCommitSHA := ""; TargetExplicit := false |} |}.

Definition draft_differs (r : GoalPublicationRequest) (pr : goalDraftPR) : bool :=
  let p := draft_pr pr in
  negb (pr_Number p =? gp_Number r)%Z || negb (String.eqb (pr_State p) "open") || negb (Draft pr) ||
  match MergedAt p with Some _ => true | None => false end || negb (String.eqb (Ref (pr_Head p)) (gp_Branch r)) ||
  negb (String.eqb (FullName (pr_Head p)) (gp_Repository r)) || negb (String.eqb (Ref (pr_Base p)) (gp_BaseBranch r)) ||
  negb (String.eqb (FullName (pr_Base p)) (gp_Repository r)).

(** The bound actor made the last push of the branch. *)
Definition head_actor (repository branch head : string) (bot : Z) : P (B := B) unit :=
  actor ← publicationHeadActor (actor_request repository) branch head;
  of_res (verifyAppActor actor bot).

Definition target_differs (target bound : Target) : bool :=
  negb (String.eqb (RefName target) (RefName bound)) || negb (String.eqb (RefKind target) (RefKind bound)) ||
  negb (String.eqb (PeeledCommitSHA target) (PeeledCommitSHA bound)).

(** The upstream ref still names the bound target. *)
Definition target_current (bound : Target) (message : string) : P (B := B) unit :=
  target ← replace_err (new_error message)
             (resolve {| res_Remote := ""; res_UpstreamRef := RefName bound; res_LatestStable := false |});
  guard (target_differs target bound) (new_error message).

Definition goalCurrentAuthority (c : ctx) (r : GoalPublicationRequest) (head : string) (requireMain : bool) : P (B := B) unit :=
  under c (
    pr ← replace_err (new_error "cannot read bound draft PR") (get decode_draft (pull_path (gp_Repository r) (gp_Number r)));
    _ ← guard (draft_differs r pr) (new_error "draft PR identity changed");
    _ ← replace_err (new_error "draft PR creator differs from bound actor") (of_res (verifyAppActor (User (draft_pr pr)) (gp_AppBotID r)));
    _ ← replace_err (new_error "draft PR head actor cannot be confirmed")
          (head_actor (gp_Repository r) (gp_Branch r) head (gp_AppBotID r));
    _ ← (if requireMain then
           base ← wrap_err "main cannot be confirmed: %w" (goalRemoteHead r (gp_BaseBranch r));
           guard (negb (String.eqb base (goalVerificationBase r))) (new_error "main moved from verified accepted base")
         else mret tt);
    actual ← wrap_err "draft branch cannot be confirmed: %w" (goalRemoteHead r (gp_Branch r));
    _ ← guard (negb (String.eqb actual head)) (new_error "draft branch moved from bound head");
    target_current (gp_Target r) "upstream target changed").

Definition goalCurrent (c : ctx) (r : GoalPublicationRequest) (head : string) : P (B := B) unit :=
  goalCurrentAuthority c r head true.

(** [ValidateGoalBinding] *)
Definition ValidateGoalBinding (r : GoalPublicationRequest) : P (B := B) unit :=
  _ ← goalBinding r; goalCurrent CallCtx r (ExpectedHead r).
End goal.

Notation "'try!' x := m 'else' result ; k" := (caught m result (fun x => k))
  (at level 20, x name, m at level 100, result at level 100, k at level 200, right associativity) : goal_scope.

(** The subcommand of git, after its options. *)
Fixpoint git_command (args : list string) : string :=
  match args with
  | flag :: rest =>
    if String.eqb flag "-c" || String.eqb flag "-C" then match rest with _ :: rest' => git_command rest' | [] => "" end else flag
  | [] => ""
  end.

(** * Reasoning about steps of a flow *)

Section along.
Context {W : Type} {B : Boundary W} {H : Host W}.
Context (R : flow (B := B) -> flow (B := B) -> Prop) `{!PreOrder R}.

(** However [m] ends, it leads along [R]. *)
Definition along {A} (m : P (B := B) A) : Prop := forall s r s', m s = Some (r, s') -> R s s'.

Lemma along_still {A} (m : P (B := B) A) : (forall s r s', m s = Some (r, s') -> s' = s) -> along m.
Proof. intros Hm s r s' ->%Hm. done. Qed.
Lemma along_of_res {A} (x : res A) : along (of_res x).
Proof. apply along_still. by intros s r s' [= <- <-]. Qed.
Lemma along_ret {A} (a : A) : along (mret a).
Proof. apply (along_of_res (Ok a)). Qed.
Lemma along_fail {A} e : along (fail (A := A) e).
Proof. apply along_of_res. Qed.
Lemma along_guard bad e : along (guard bad e).
Proof. apply along_of_res. Qed.
Lemma along_peek {A} (f : W -> A) : along (peek f).
Proof. apply along_still. by intros s r s' [= <- <-]. Qed.
Lemma along_world {A} (f : W -> res A) : along (fun s => of_res (f (world s)) s).
Proof. apply along_still. by intros s r s' [= <- <-]. Qed.
Lemma along_ended c : along (ended c).
Proof. apply along_still. by intros s r s' [= <- <-]. Qed.

(** The rest of a step may rely on how the step went. *)
Lemma along_bind_run {A C} (m : P (B := B) A) (f : A -> P (B := B) C) :
  along m -> (forall a s s', m s = Some (Ok a, s') -> along (f a)) -> along (m ≫= f).
Proof.
  intros Hm Hf s r s' [(a & s1 & H1 & H2)|(e & H1 & ->)]%P_bind_inv; [|by eapply Hm].
  etransitivity; [by eapply Hm|]. by eapply Hf.
Qed.
Lemma along_bind {A C} (m : P (B := B) A) (f : A -> P (B := B) C) : along m -> (forall a, along (f a)) -> along (m ≫= f).
Proof. intros Hm Hf. by apply along_bind_run. Qed.
Lemma along_caught_run {A X} (m : P (B := B) A) (x : X) k :
  along m -> (forall a s s', m s = Some (Ok a, s') -> along (k a)) -> along (caught m x k).
Proof.
  intros Hm Hk s r s'. unfold caught. destruct (m s) as [[[a|e] s1]|] eqn:E; [|intros [= <- <-]; by eapply Hm | done].
  intros H2. etransitivity; [by eapply Hm|]. by eapply Hk.
Qed.
Lemma along_caught {A X} (m : P (B := B) A) (x : X) k : along m -> (forall a, along (k a)) -> along (caught m x k).
Proof. intros Hm Hk. by apply along_caught_run. Qed.
Lemma along_wrap {A} format (m : P (B := B) A) : along m -> along (wrap_err format m).
Proof. intros Hm s r s'. unfold wrap_err. destruct (m s) as [[[a|e] s1]|] eqn:E; intros [= <- <-]; by eapply Hm. Qed.
Lemma along_map {A} f (m : P (B := B) A) : along m -> along (map_err f m).
Proof. intros Hm s r s'. unfold map_err. destruct (m s) as [[[a|e] s1]|] eqn:E; intros [= <- <-]; by eapply Hm. Qed.
Lemma along_replace {A} e (m : P (B := B) A) : along m -> along (replace_err e m).
Proof. intros Hm s r s'. unfold replace_err. destruct (m s) as [[[a|x] s1]|] eqn:E; intros [= <- <-]; by eapply Hm. Qed.
Lemma along_attempt {A} (m : P (B := B) A) : along m -> along (attempt m).
Proof. intros Hm s r s' (x & _ & E)%attempt_inv. by eapply Hm. Qed.
Lemma along_under {A} c (m : P (B := B) A) : along m -> along (under c m).
Proof.
  intros Hm s r s'. unfold under. destruct (ctx_err c (world s)); [by intros [= <- <-]|].
  destruct (m s) as [[x s1]|] eqn:E; intros [= <- <-]. by eapply Hm.
Qed.
Lemma along_finally {A} (m : P (B := B) A) cleanup : along m -> along cleanup -> along (finally m cleanup).
Proof.
  intros Hm Hc s r s'. unfold finally. destruct (m s) as [[x s1]|] eqn:E1; [|done].
  destruct (cleanup s1) as [[y s2]|] eqn:E2; intros [= <- <-]. etransitivity; [by eapply Hm | by eapply Hc].
Qed.
Lemma along_on_error {A} (m : P (B := B) A) cleanup : along m -> along cleanup -> along (on_error cleanup m).
Proof.
  intros Hm Hc s r s'. unfold on_error. destruct (m s) as [[[a|e] s1]|] eqn:E1; [intros [= <- <-]; by eapply Hm| |done].
  destruct (cleanup s1) as [[y s2]|] eqn:E2; intros [= <- <-]. etransitivity; [by eapply Hm | by eapply Hc].
Qed.
Lemma along_host call : (forall s, R s {| world := (perform call (world s)).2;
    log := Performed call (perform call (world s)).1 :: log s |}) -> along (host call).
Proof. intros Hc s r s'. unfold host. specialize (Hc s). destruct (perform call (world s)). by intros [= <- <-]. Qed.
End along.
