(* ===== verification/GoalSnapshot.v ===== *)
(** The frozen copy of a candidate and its digest: [goalSnapshot] and
    [goalWithin] of [goal_verify.go]
    ([src/codexsdk/internal/protocolsync]). *)

From Stdlib Require Import Ascii.
From S2P Require Import Prelude GoStrings Policy Scope Resolve PublicationText Checks Boundary Inspection Goal.

Local Open Scope string_scope.
Local Open Scope list_scope.

(** * Paths *)

(** [filepath.Rel] does not leave [root]. *)
Definition goalWithin (root path : string) : bool :=
  match path_rel root path with
  | Some rel => negb (String.eqb rel "..") && negb (has_prefix "../" rel)
  | None => false
  end.

(** A listed name that is not a plain path below the root. *)
Definition unsafe_name (name : string) : bool :=
  has_prefix "/" name || negb (String.eqb (path_clean name) name) || String.eqb name ".." || has_prefix "../" name.

Definition git_metadata (name : string) : bool := mem ".git" (split_byte "/"%char name).

(** [strings.TrimSuffix] *)
Definition trim_suffix (suffix s : string) : string :=
  if has_suffix suffix s then str_take (String.length s - String.length suffix) s else s.

(** The names of a listing, sorted, the empty ones and the repeated ones left out. *)
Definition snapshot_names (listing : string) : list string :=
  dedup [] (filter (fun n => n <> "") (sort_strings (split_byte (byte 0) (trim_suffix nul listing)))).

(** [%o] *)
Fixpoint octal_digits (fuel : nat) (n : Z) (acc : string) : string :=
  match fuel with
  | O => acc
  | S fuel =>
    let acc := String (ascii_of_nat (48 + Z.to_nat (n mod 8))) acc in
    if (n <? 8)%Z then acc else octal_digits fuel (n / 8)%Z acc
  end.
Definition octal (n : Z) : string := octal_digits 22 n "".

(** What the digest of a candidate covers of one file: its name, whether it may
    be executed, and the digest of its bytes. *)
Definition snapshot_line (name : string) (perm : Z) (digest : string) : string :=
  name +:+ nul +:+ octal (Z.land perm 0x49) +:+ nul +:+ digest +:+ String (byte 10) "".

Section snapshot.
Context {W : Type} {B : Boundary W} {H : Host W}.

(** One file: [None] for a listed file that is gone. *)
Definition snapshot_file (root destination name : string) : P (B := B) (option string) :=
  _ ← guard (unsafe_name name) (new_error "unsafe candidate path");
  _ ← guard (git_metadata name) (new_error "candidate contains git metadata path");
  info ← peek (root_info root name);
  match info with
  | NoFile => mret None
  | FileError e => fail e
  | FileInfo regular _ perm _ =>
    _ ← guard (negb regular) (Errorf "candidate path is not a regular file: %s" []);
    let path := path_join root name in
    let traverses := new_error "candidate path traverses symlink" in
    real ← replace_err traverses (fun s => of_res (EvalSymlinks path (world s)) s);
    _ ← guard (negb (String.eqb real path)) traverses;
    _ ← host (Open path);
    let to := path_join destination name in
    _ ← (if String.eqb destination "" then mret "" else host (MkdirAll (path_dir to)));
    digest ← host (CopyFile path (if String.eqb destination "" then "" else to) perm);
    mret (Some (snapshot_line name perm digest))
  end.

Fixpoint snapshot_files (root destination : string) (names : list string) : P (B := B) string :=
  match names with
  | [] => mret ""
  | name :: rest =>
    line ← snapshot_file root destination name;
    lines ← snapshot_files root destination rest;
    mret (default "" line +:+ lines)
  end.

Definition listing_args (root : string) : list string :=
  ["-c"; "core.fsmonitor=false"; "-C"; root; "ls-files"; "-z"; "--cached"; "--others"; "--exclude-standard"].

(** The digest of the candidate as it is; the files are copied below
    [destination] when there is one. *)
Definition read_snapshot (root destination : string) : P (B := B) string :=
  _ ← host (Open root);
  listing ← replace_err (new_error "cannot enumerate candidate files") (run (listing_args root) "");
  lines ← snapshot_files root destination (snapshot_names listing);
  mret (sha256 lines).

Definition commit_snapshot (destination : string) : P (B := B) unit :=
  let git args := replace_err (new_error "cannot initialize verification snapshot")
        (host (ArtifactGit (["-c"; "commit.gpgsign=false"; "-c"; "core.hooksPath=/dev/null"; "-C"; destination] ++ args))) in
  _ ← git ["init"; "--quiet"];
  _ ← git ["add"; "-A"];
  _ ← git ["-c"; "user.name=verification snapshot"; "-c"; "user.email=verification@localhost";
           "-c"; "core.hooksPath=/dev/null"; "commit"; "--quiet"; "--allow-empty"; "-m"; "frozen verification candidate"];
  mret tt.

Definition goalSnapshot (root destination : string) : P (B := B) string :=
  digest ← read_snapshot root destination;
  if String.eqb destination "" then mret digest else
  _ ← commit_snapshot destination;
  let changed := new_error "candidate changed while snapshotting" in
  after ← replace_err changed (read_snapshot root "");
  _ ← guard (negb (String.eqb after digest)) changed;
  mret digest.
End snapshot.

(** * Joined paths *)

Lemma str_join_last sep l x : exists d, str_join sep (l ++ [x]) = d +:+ x.
Proof.
  induction l as [|y [|z l] (d & IH)]; [by exists "" | by exists (y +:+ sep); rewrite str_app_assoc |].
  exists (y +:+ sep +:+ d). change (y +:+ (sep +:+ str_join sep ((z :: l) ++ [x])) = (y +:+ (sep +:+ d)) +:+ x).
  by rewrite IH, !str_app_assoc.
Qed.

Lemma split_byte_snoc c s t : index_byte c t = None -> exists y l, split_byte c (s +:+ String c t) = (y :: l) ++ [t].
Proof.
  intros Ht. induction s as [|a s (y & l & IH)].
  - exists "", []. rewrite app_Empty. cbn. by rewrite Ascii.eqb_refl, split_byte_no_sep.
  - rewrite app_String. cbn [split_byte]. rewrite IH.
    destruct (Ascii.eqb a c); [by exists "", (y :: l) | by exists (String a y), l].
Qed.

(** A plain name stays the last element of a joined path. *)
Definition plain (name : string) : Prop := index_byte "/"%char name = None /\ name ∉ [""; "."; ".."].

Lemma clean_plain rooted acc name : plain name -> clean_step rooted acc name = name :: acc.
Proof.
  intros [_ Hn]. unfold clean_step. destruct (String.eqb_spec name ""), (String.eqb_spec name "."), (String.eqb_spec name ".."); set_solver.
Qed.

Lemma path_join_last q name : plain name -> exists d, path_join q name = d +:+ name.
Proof.
  intros Hn. pose proof Hn as [Hs Hp]. assert (name <> "") as Hne by set_solver.
  assert (forall p l, split_byte "/" p = l ++ [name] -> p <> "" -> exists d, path_clean p = d +:+ name) as Hclean.
  { intros p l Hl He. unfold path_clean. apply String.eqb_neq in He. rewrite He, Hl, fold_left_app. cbn [fold_left].
    rewrite clean_plain by done. cbn [rev]. destruct (str_join_last "/" (rev (fold_left (clean_step (has_prefix "/" p)) l [])) name) as (d & ->).
    destruct (has_prefix "/" p); [by exists ("/" +:+ d); rewrite str_app_assoc|].
    destruct (String.eqb_spec (d +:+ name) "") as [E|]; [|by exists d].
    destruct d; [done|]. by rewrite app_String in E. }
  unfold path_join. destruct (decide (q = "")) as [->|Hq].
  - rewrite filter_cons_False, filter_cons_True, filter_nil by tauto. apply (Hclean name []); [by rewrite split_byte_no_sep | done].
  - rewrite filter_cons_True, filter_cons_True, filter_nil by done.
    destruct (split_byte_snoc "/" q name Hs) as (y & l & E). eapply Hclean; [exact E|]. by destruct q.
Qed.

(** * What a snapshot touches *)

(** A name below the root: its elements are plain, and none is git's. *)
Definition below_root (name : string) : Prop :=
  name = "." \/ Forall (fun e => e ∉ [""; "."; ".."; ".git"]) (split_byte "/" name).

Lemma split_byte_parts c s : Forall (fun e => index_byte c e = None) (split_byte c s).
Proof.
  induction s as [|a s IH]; [by repeat constructor|]. cbn [split_byte]. destruct (Ascii.eqb a c) eqn:E; [by constructor|].
  destruct (split_byte c s) as [|w ws]; [constructor; [|done]; cbn; by rewrite E|].
  apply Forall_cons in IH as [Hw IH]. constructor; [|done]. cbn. by rewrite E, Hw.
Qed.

(** The stack of [path.Clean]: plain elements on top of the leading dots. *)
Definition cleaned (acc : list string) : Prop :=
  exists m n, acc = m ++ replicate n ".." /\ Forall (fun e => index_byte "/"%char e = None /\ e ∉ [""; "."; ".."]) m.

Lemma clean_step_cleaned acc e : index_byte "/"%char e = None -> cleaned acc -> cleaned (clean_step false acc e).
Proof.
  intros He (m & n & -> & Hm). unfold clean_step.
  destruct (String.eqb_spec e ""); [by exists m, n|]. destruct (String.eqb_spec e "."); [by exists m, n|]. cbn [orb].
  destruct (String.eqb_spec e "..").
  - destruct m as [|x m]; cbn [app].
    + destruct n as [|n]; cbn; [by exists [], 1|]. by exists [], (S (S n)).
    + apply Forall_cons in Hm as [[? Hx] Hm]. destruct (String.eqb_spec x ".."); [set_solver|]. by exists m, n.
  - exists (e :: m), n. split; [done|]. constructor; [|done]. split; [done | set_solver].
Qed.

Lemma fold_cleaned l acc : Forall (fun e => index_byte "/"%char e = None) l -> cleaned acc -> cleaned (fold_left (clean_step false) l acc).
Proof. intros Hl. revert acc. induction Hl as [|e l He _ IH]; intros acc Ha; [done|]. cbn. apply IH. by apply clean_step_cleaned. Qed.

Lemma safe_name_below name : unsafe_name name = false -> git_metadata name = false -> below_root name.
Proof.
  unfold unsafe_name, git_metadata. rewrite !orb_false_iff, negb_false_iff, String.eqb_eq. intros [[[Hr Hc] Hd] Hp] Hg.
  unfold path_clean in Hc. destruct (String.eqb_spec name "") as [->|Hne]; [done|]. rewrite Hr in Hc.
  destruct (fold_cleaned (split_byte "/" name) [] (split_byte_parts _ _)) as (m & n & Hs & Hm); [by exists [], 0|].
  rewrite Hs in Hc. destruct (String.eqb_spec (str_join "/" (rev (m ++ replicate n ".."))) "") as [|Hb]; [by left|]. right.
  destruct n as [|n].
  - cbn [replicate] in Hc, Hb. rewrite app_nil_r in Hc, Hb.
    assert (split_byte "/" (str_join "/" (rev m)) = rev m) as E.
    { apply split_byte_join; [intros E; by rewrite E in Hb|]. apply Forall_rev. by eapply Forall_impl; [exact Hm | intros e [? _]]. }
    rewrite <- Hc in Hg |- *. rewrite E in Hg |- *. apply Forall_rev. rewrite Forall_forall in Hm |- *. intros e He.
    destruct (Hm e He) as [_ Hn]. assert (e <> ".git"); [|set_solver]. intros ->.
    assert (mem ".git" (rev m) = true) as Hx; [|congruence]. apply mem_true. apply list_elem_of_In, in_rev. rewrite rev_involutive.
    by apply list_elem_of_In.
  - exfalso. rewrite replicate_S_end, app_assoc, rev_app_distr in Hc. cbn [rev app] in Hc.
    destruct (rev (m ++ replicate n "..")) as [|x l] eqn:E.
    + cbn in Hc. rewrite <- Hc in Hd. done.
    + change (".." +:+ ("/" +:+ str_join "/" (x :: l)) = name) in Hc. rewrite <- Hc in Hp. done.
Qed.

Section inside.
Context {W : Type} {B : Boundary W} {H : Host W}.

(** Files are read below the root and written below the destination, both under
    the same name; git only lists the root and works in the destination. *)
Definition inside (root destination : string) (e : event (B := B)) : Prop :=
  match e with
  | Ran args _ => args = listing_args root
  | Performed (Open p) _ => p = root \/ exists name, below_root name /\ p = path_join root name
  | Performed (MkdirAll d) _ => destination <> "" /\ exists name, below_root name /\ d = path_dir (path_join destination name)
  | Performed (CopyFile from to _) _ => exists name, below_root name /\ from = path_join root name /\
      to = (if String.eqb destination "" then "" else path_join destination name)
  | Performed (ArtifactGit args) _ => destination <> "" /\ exists rest, args = ["-c"; "commit.gpgsign=false"; "-c"; "core.hooksPath=/dev/null"; "-C"; destination] ++ rest
  | _ => False
  end.

Lemma emits_host Q call : (forall x, Q (Performed call x)) -> emits Q (host (B := B) call).
Proof.
  intros HQ s r s'. unfold host. destruct (perform call (world s)) as [x w]. intros [= <- <-]. exists [Performed call x].
  by split; [|constructor].
Qed.
Lemma emits_replace {A} Q e (m : P (B := B) A) : emits Q m -> emits Q (replace_err e m).
Proof. intros Hm s r s'. unfold replace_err. destruct (m s) as [[[a|x] s1]|] eqn:E; intros [= <- <-]; by eapply Hm. Qed.

Lemma emits_guard_bind {C} Q bad e (f : unit -> P (B := B) C) : (bad = false -> emits Q (f tt)) -> emits Q (guard bad e ≫= f).
Proof.
  intros Hf s r s'. destruct bad; [intros [= _ <-]; by exists []|]. intros H1. by eapply Hf.
Qed.

Lemma snapshot_file_inside root destination name : emits (inside root destination) (snapshot_file root destination name).
Proof.
  unfold snapshot_file. apply emits_guard_bind. intros Hu. apply emits_guard_bind. intros Hg.
  pose proof (safe_name_below name Hu Hg) as Hb. apply emits_bind; [apply emits_peek|]. intros [|e|regular is_directory perm bytes]; [emitted..|].
  apply emits_bind; [emitted|]. intros _. apply emits_bind; [apply emits_replace, emits_silent; by intros s r s' [= <- <-]|].
  intros real. apply emits_bind; [emitted|]. intros _.
  apply emits_bind; [apply emits_host; intros x; cbn; eauto|]. intros _. apply emits_bind.
  - destruct (String.eqb_spec destination ""); [emitted|]. apply emits_host. intros x. cbn. eauto.
  - intros _. apply emits_bind; [|emitted]. apply emits_host. intros x. cbn. exists name. done.
Qed.

Lemma snapshot_files_inside root destination names : emits (inside root destination) (snapshot_files root destination names).
Proof. pose proof snapshot_file_inside. induction names; cbn [snapshot_files]; emitted; apply snapshot_file_inside. Qed.

Lemma read_snapshot_inside root destination : emits (inside root destination) (read_snapshot root destination).
Proof.
  unfold read_snapshot. apply emits_bind; [apply emits_host; intros x; by left|]. intros _.
  apply emits_bind; [by apply emits_replace, emits_run|]. intros listing.
  apply emits_bind; [apply snapshot_files_inside | emitted].
Qed.

Lemma commit_snapshot_inside root destination : destination <> "" -> emits (inside root destination) (commit_snapshot destination).
Proof.
  intros Hd. unfold commit_snapshot. cbv zeta.
  repeat (apply emits_bind; [apply emits_replace, emits_host; intros x; cbn; eauto|intros _]). emitted.
Qed.

(** A snapshot of a candidate stays inside it: every file it reads is a listed name below the root whose elements are plain and none of which is git's own, it is copied under the same name below the destination or only hashed, and git itself lists the root and works in the destination. *)
Theorem goalSnapshot_inside root destination s r s' (E : goalSnapshot root destination s = Some (r, s')) :
  exists l, log s' = l ++ log s /\ Forall (fun e => inside root destination e \/ inside root "" e) l.
Proof.
  revert s r s' E. unfold goalSnapshot. apply emits_bind.
  - eapply emits_weaken; [|apply read_snapshot_inside]. by left.
  - intros digest. destruct (String.eqb_spec destination "") as [->|Hd]; [emitted|]. apply emits_bind.
    + eapply emits_weaken; [|by apply commit_snapshot_inside]. by left.
    + intros _. cbv zeta. apply emits_bind; [|emitted]. apply emits_replace.
      eapply emits_weaken; [|apply read_snapshot_inside]. by right.
Qed.
End inside.

