(* ===== verification/Rebinding.v ===== *)
(** Main may move while a goal works on its fixed target: which moves keep the
    goal, and what every part of the goal flow demands of the current main.
    [goal_rebinding.go], [goal_completed_ci.go], [goal_active_base.go] and
    [goal_integration_guard.go] of [src/codexsdk/internal/protocolsync]. *)

From S2P Require Import Prelude GoStrings Policy Scope Resolve PublicationText Checks Boundary Inspection Goal.

Local Open Scope string_scope.
Local Open Scope list_scope.
Local Open Scope goal_scope.

(** * The classification of a moved main *)

Definition GoalRebindingRun := "run".
Definition GoalRebindingAlreadyAccepted := "already_accepted".
Definition GoalRebindingSuperseded := "superseded".
Definition GoalRebindingBlocked := "blocked".

Record GoalRebindingRequest := {
  OriginalBaseSHA : string; CurrentBaseSHA : string;
  OriginalBaseline : BaselineIdentity; CurrentBaseline : BaselineIdentity; rb_Target : BaselineIdentity }.

Record GoalRebindingDecision := { rb_Decision : string; rb_Reason : string }.

Definition blocked (reason : string) : GoalRebindingDecision := {| rb_Decision := GoalRebindingBlocked; rb_Reason := reason |}.

Fixpoint first_some {X A} (f : X -> option A) (l : list X) : option A :=
  match l with [] => None | x :: l' => match f x with Some a => Some a | None => first_some f l' end end.

(** Why an identity cannot be rebound. *)
Definition unstable (identity : BaselineIdentity) : option string :=
  if negb (shaRE (SourceCommit identity)) || negb (String.eqb (SourceRefKind identity) KindStableTag)
  then Some "rebinding requires complete stable-track identities"
  else match parseRustTag (SourceRefName identity) with
       | Some _ => None
       | None => Some "rebinding requires stable rust-vX.Y.Z tags"
       end.

Definition conflict (ab : BaselineIdentity * BaselineIdentity) : option string :=
  let '(a, b) := ab in
  if String.eqb (SourceRefName a) (SourceRefName b) && negb (String.eqb (SourceCommit a) (SourceCommit b))
  then Some "stable tag name matches but peeled commit changed"
  else if String.eqb (SourceCommit a) (SourceCommit b) && negb (String.eqb (SourceRefName a) (SourceRefName b))
  then Some "upstream commit has conflicting stable tag identities"
  else None.

(** [a] and every later identity, for each [a]. *)
Fixpoint pairs {A} (l : list A) : list (A * A) :=
  match l with [] => [] | a :: l' => map (pair a) l' ++ pairs l' end.

(** The existing policy; a rebinding never authorizes a downgrade. *)
Definition policy (base target : BaselineIdentity) : PolicyDecision :=
  EvaluatePolicy {| Baseline := base; TargetRef := SourceRefName target; TargetKind := SourceRefKind target;
                    TargetSHA := SourceCommit target; req_TargetExplicit := false; req_Mode := ""; AllowDowngrade := false |}.

Definition blocks (d : PolicyDecision) : bool := String.eqb (Decision d) DecisionBlock.

Definition identities (req : GoalRebindingRequest) : list BaselineIdentity :=
  [OriginalBaseline req; CurrentBaseline req; rb_Target req].

Definition EvaluateGoalRebinding (req : GoalRebindingRequest) : GoalRebindingDecision :=
  if negb (shaRE (OriginalBaseSHA req)) || negb (shaRE (CurrentBaseSHA req))
  then blocked "exact original and current repository commits are required"
  else match first_some unstable (identities req) with
  | Some reason => blocked reason
  | None =>
  if String.eqb (OriginalBaseSHA req) (CurrentBaseSHA req) && negb (bool_decide (OriginalBaseline req = CurrentBaseline req))
  then blocked "one repository commit has conflicting baseline identities"
  else match first_some conflict (pairs (identities req)) with
  | Some reason => blocked reason
  | None =>
  if blocks (policy (OriginalBaseline req) (CurrentBaseline req))
  then blocked ("current main baseline: " +:+ Reason (policy (OriginalBaseline req) (CurrentBaseline req)))
  else if blocks (policy (OriginalBaseline req) (rb_Target req))
  then blocked ("fixed target: " +:+ Reason (policy (OriginalBaseline req) (rb_Target req)))
  else if bool_decide (CurrentBaseline req = rb_Target req)
  then {| rb_Decision := GoalRebindingAlreadyAccepted;
          rb_Reason := "current main already contains the exact fixed upstream target" |}
  else if String.eqb (Decision (policy (CurrentBaseline req) (rb_Target req))) DecisionAllow
  then {| rb_Decision := GoalRebindingRun;
          rb_Reason := "fixed target advances current main; preserve original and current baseline contracts" |}
  else {| rb_Decision := GoalRebindingSuperseded; rb_Reason := "current main contains a newer stable upstream target" |}
  end end.

(** * Reading main *)

Section rebinding.
Context {W : Type} {B : Boundary W} {H : Host W}.

(** [gitBaselineIdentity], in a repository other than the one of the flow. *)
Definition gitBaselineIdentityIn (root head : string) : P (B := B) BaselineIdentity :=
  raw ← gitOutput ["-C"; root; "show"; head +:+ ":" +:+ metadata_path]; of_res (decodeBaselineIdentity raw).

Definition ResolveGoalRebinding (root originalBaseSHA currentBaseSHA : string) (target : BaselineIdentity)
    : P (B := B) GoalRebindingDecision :=
  _ ← guard (negb (shaRE originalBaseSHA) || negb (shaRE currentBaseSHA)) (new_error "rebinding requires exact repository commits");
  original ← wrap_err "original accepted baseline: %w" (gitBaselineIdentityIn root originalBaseSHA);
  current ← wrap_err "current accepted baseline: %w" (gitBaselineIdentityIn root currentBaseSHA);
  mret (EvaluateGoalRebinding {| OriginalBaseSHA := originalBaseSHA; CurrentBaseSHA := currentBaseSHA;
                                 OriginalBaseline := original; CurrentBaseline := current; rb_Target := target |}).

Definition source_of (target : Target) : BaselineIdentity :=
  {| SourceCommit := PeeledCommitSHA target; SourceRefName := RefName target; SourceRefKind := RefKind target |}.

(** Go on only when the moved main keeps the goal. *)
Definition must_run (message root original current : string) (target : BaselineIdentity) : P (B := B) unit :=
  decision ← attempt (ResolveGoalRebinding root original current target);
  match decision with
  | Ok d => guard (negb (String.eqb (rb_Decision d) GoalRebindingRun)) (new_error (message +:+ rb_Reason d))
  | Err _ => fail (new_error message)
  end.

Definition goalGit_ (message root : string) (args : list string) : P (B := B) unit :=
  _ ← replace_err (new_error message) (goalGit root args); mret tt.

Definition is_ancestor (message root ancestor descendant : string) : P (B := B) unit :=
  goalGit_ message root ["merge-base"; "--is-ancestor"; ancestor; descendant].

Definition fetch_main (message : string) (r : GoalPublicationRequest) (current : string) : P (B := B) unit :=
  goalGit_ message (RepoRoot r) ["fetch"; "--no-tags"; "--no-write-fetch-head"; goalRemote r; current].

(** [goalMainForHandoff]: main may only have advanced. *)
Definition goalMainForHandoff (r : GoalPublicationRequest) : P (B := B) string :=
  current ← goalRemoteHead r (gp_BaseBranch r);
  let previous := goalVerificationBase r in
  if String.eqb current previous then mret current else
  _ ← fetch_main "current handoff main unavailable" r current;
  _ ← is_ancestor "main no longer descends from verified accepted base" (RepoRoot r) previous current;
  _ ← must_run "main baseline blocks fixed-target handoff: " (RepoRoot r) (gp_BaseSHA r) current (source_of (gp_Target r));
  mret current.

Definition with_verification_base (base : string) (r : GoalPublicationRequest) : GoalPublicationRequest := {|
  RepoRoot := RepoRoot r; gp_Repository := gp_Repository r; gp_Remote := gp_Remote r; gp_BaseBranch := gp_BaseBranch r;
  gp_Branch := gp_Branch r; gp_BaseSHA := gp_BaseSHA r; ExpectedHead := ExpectedHead r; CandidateDir := CandidateDir r;
  SnapshotDigest := SnapshotDigest r; StateDir := StateDir r; Deadline := Deadline r; gp_Number := gp_Number r;
  VerificationBaseSHA := base; gp_AppBotID := gp_AppBotID r; gp_Target := gp_Target r; has_API := has_API r;
  has_token := has_token r |}.

Definition completed_guard (r : GoalPublicationRequest) (head : string) : P (B := B) unit :=
  current ← goalMainForHandoff r;
  goalCurrent CallCtx (with_verification_base current r) head.

Definition no_observation : Observation := {|
  Checks.Head := ""; obs_State := NoState; obs_Checks := []; WorkflowRunID := 0; WorkflowAttempt := 0; WorkflowState := NoState |}.

Definition observeCompletedGoalCI (r : GoalPublicationRequest) (head : string) : P (B := B) (Observation * option error) :=
  try! _ := completed_guard r head else no_observation;
  try! observation := observe (gp_Repository r) head else no_observation;
  try! _ := completed_guard r head else observation;
  try! _ := ended CallCtx else observation;
  mret (observation, None).

(** ** One verification attempt on the current main *)

Record GoalVerifyRequest := {
  gv_RepoRoot : string; gv_DiagnosticDir : string; gv_Gate : string; gv_TrustedCacheRoot : string;
  gv_BaseRoot : string; gv_CandidateDir : string; gv_OriginalBaseRoot : string }.

Definition rebase_local (root : string) (l : GoalVerifyRequest) : GoalVerifyRequest := {|
  gv_RepoRoot := gv_RepoRoot l; gv_DiagnosticDir := gv_DiagnosticDir l; gv_Gate := gv_Gate l;
  gv_TrustedCacheRoot := gv_TrustedCacheRoot l; gv_BaseRoot := root; gv_CandidateDir := gv_CandidateDir l;
  gv_OriginalBaseRoot := if String.eqb (gv_OriginalBaseRoot l) "" then gv_BaseRoot l else gv_OriginalBaseRoot l |}.

Definition checkout_main (r : GoalPublicationRequest) (current root : string) : P (B := B) unit :=
  _ ← goalGit (RepoRoot r) ["clone"; "--no-hardlinks"; "--no-local"; "--no-checkout"; RepoRoot r; root];
  remote ← (if String.eqb (goalRemote r) "origin" then goalGit (RepoRoot r) ["remote"; "get-url"; "origin"]
            else mret (goalRemote r));
  _ ← goalGit root ["fetch"; "--no-tags"; "--no-write-fetch-head"; remote; current];
  _ ← goalGit root ["checkout"; "--detach"; current];
  mret tt.

(** [refreshGoalBase]: the two requests of the attempt, and the directory that
    its cleanup removes. *)
Definition refreshGoalBase (local : GoalVerifyRequest) (binding : GoalPublicationRequest)
    : P (B := B) (GoalVerifyRequest * GoalPublicationRequest * option string) :=
  current ← replace_err (new_error "current accepted main unavailable") (goalRemoteHead binding (gp_BaseBranch binding));
  _ ← guard (String.eqb current (gp_BaseSHA binding) && negb (String.eqb (goalVerificationBase binding) (gp_BaseSHA binding)))
        (new_error "main rolled back from previously verified base");
  if String.eqb current (gp_BaseSHA binding) then mret (local, with_verification_base current binding, None) else
  _ ← fetch_main "cannot fetch exact current accepted main" binding current;
  _ ← must_run "current main cannot preserve fixed goal target: " (RepoRoot binding) (gp_BaseSHA binding) current
        (source_of (gp_Target binding));
  _ ← is_ancestor "current main does not descend from previously verified accepted base" (RepoRoot binding)
        (goalVerificationBase binding) current;
  work ← host (MkdirTemp "goal-current-base-");
  let root := path_join work "accepted" in
  _ ← on_error (remove_all work) (checkout_main binding current root);
  mret (rebase_local root local, with_verification_base current binding, Some work).

(** ** The fast-forward of a completed handoff *)

Definition ValidateGoalIntegrationHandoff (root original verified current head : string) (target : Target) : P (B := B) unit :=
  _ ← guard (negb (shaRE head) || negb (shaRE original) || negb (shaRE current) || negb (shaRE verified))
        (new_error "exact B/M/H handoff identities required");
  _ ← is_ancestor "verified baseline does not descend from original" root original verified;
  _ ← guard (negb (String.eqb current verified))
        (new_error "main advanced beyond verified contracts; convergence verification required");
  _ ← is_ancestor "handoff candidate does not contain accepted baseline" root original head;
  _ ← is_ancestor "handoff candidate does not contain accepted baseline" root current head;
  _ ← is_ancestor "main no longer descends from verified baseline" root verified current;
  let differs := new_error "candidate baseline differs from fixed handoff target" in
  identity ← replace_err differs (gitBaselineIdentityIn root head);
  _ ← guard (negb (bool_decide (identity = source_of target))) differs;
  _ ← must_run "fixed-target integration blocked: " root original current identity;
  let moved := new_error "upstream handoff target moved" in
  selected ← replace_err moved (resolve {| res_Remote := ""; res_UpstreamRef := RefName target; res_LatestStable := false |});
  _ ← guard (negb (String.eqb (RefKind selected) (RefKind target)) ||
             negb (String.eqb (PeeledCommitSHA selected) (PeeledCommitSHA target))) moved;
  ended CallCtx.
End rebinding.

(** * What the classification means *)

#[export] Instance version_lt_dec : RelDecision version_lt.
Proof. intros [[a0 a1] a2] [[b0 b1] b2]. unfold version_lt. apply _. Defined.

(** A stable tag of version [v], named and at a commit. *)
Definition stable (identity : BaselineIdentity) (v : version) : Prop :=
  shaRE (SourceCommit identity) = true /\ SourceRefKind identity = KindStableTag /\
  parseRustTag (SourceRefName identity) = Some v.

(** Tags and commits name each other. *)
Definition agree (a b : BaselineIdentity) : Prop := SourceRefName a = SourceRefName b <-> SourceCommit a = SourceCommit b.

(** The goal survives the move of main: everything is an exact stable tag, main
    did not go back, and the target is still ahead of it. *)
Record keeps_goal (req : GoalRebindingRequest) (original current target : version) : Prop := {
  keeps_commits : shaRE (OriginalBaseSHA req) = true /\ shaRE (CurrentBaseSHA req) = true;
  keeps_original : stable (OriginalBaseline req) original;
  keeps_current : stable (CurrentBaseline req) current;
  keeps_target : stable (rb_Target req) target;
  keeps_agreement : agree (OriginalBaseline req) (CurrentBaseline req) /\ agree (OriginalBaseline req) (rb_Target req) /\
                    agree (CurrentBaseline req) (rb_Target req);
  keeps_baseline : OriginalBaseSHA req = CurrentBaseSHA req -> OriginalBaseline req = CurrentBaseline req;
  keeps_forward : OriginalBaseline req = CurrentBaseline req \/ version_lt original current;
  keeps_ahead : version_lt current target }.

Lemma unstable_None identity : unstable identity = None <-> exists v, stable identity v.
Proof.
  unfold unstable, stable. destruct (shaRE (SourceCommit identity)); simpl; [|naive_solver].
  destruct (String.eqb_spec (SourceRefKind identity) KindStableTag); simpl; [|naive_solver].
  destruct (parseRustTag (SourceRefName identity)); naive_solver.
Qed.

Lemma conflict_None a b : conflict (a, b) = None <-> agree a b.
Proof.
  unfold conflict, agree. destruct (String.eqb_spec (SourceRefName a) (SourceRefName b)),
    (String.eqb_spec (SourceCommit a) (SourceCommit b)); simpl; naive_solver.
Qed.

Lemma first_some_None {X A} (f : X -> option A) l : first_some f l = None <-> forall x, x ∈ l -> f x = None.
Proof.
  induction l as [|x l IH]; cbn [first_some]; [set_solver|].
  destruct (f x) eqn:E; [|set_solver]. split; [done|]. intros H. rewrite (H x) in E by set_solver. done.
Qed.

Lemma stable_same a b va vb : stable a va -> stable b vb -> agree a b -> SourceCommit a = SourceCommit b -> a = b.
Proof. intros (_ & Ka & _) (_ & Kb & _) H E. destruct a, b; simpl in *. destruct H. f_equal; auto; congruence. Qed.

Lemma stable_complete a v : stable a v -> complete_identity a = true.
Proof.
  intros (Hs & Hk & Hv). unfold complete_identity. rewrite Hs, Hk. simpl.
  destruct (String.eqb_spec (SourceRefName a) ""); [|done]. by rewrite e in Hv.
Qed.

(** The policy between stable tags: the same commit, a newer one, or a block. *)
Lemma policy_stable a b va vb : stable a va -> stable b vb ->
  (Decision (policy a b) = DecisionAllow <-> SourceCommit a <> SourceCommit b /\ version_lt va vb) /\
  (blocks (policy a b) = true <-> SourceCommit a <> SourceCommit b /\ ~ version_lt va vb).
Proof.
  intros Ha (Hs & Hk & Hv). pose proof (stable_complete a va Ha) as Hc. destruct Ha as (_ & Hka & Hva).
  unfold policy, EvaluatePolicy. cbn [Baseline TargetKind TargetSHA TargetRef AllowDowngrade]. rewrite Hc, Hk, Hs.
  change (validKinds KindStableTag) with true. cbn [negb orb].
  destruct (String.eqb_spec (SourceCommit a) (SourceCommit b)); [split; (split; [done | naive_solver])|].
  change (String.eqb KindStableTag KindStableTag) with true. cbv iota. rewrite Hv, Hka.
  change (String.eqb KindStableTag KindStableTag) with true. cbv iota. rewrite Hva.
  destruct (compareVersion_spec vb va) as (Hgt & _ & _).
  destruct (0 <? compareVersion vb va)%Z; cbn [andb].
  - split; [naive_solver|]. split; [done|]. naive_solver.
  - assert (~ version_lt va vb) as Hn by (intros ?%Hgt; done).
    destruct (compareVersion vb va =? 0)%Z; (split; [split; [done | naive_solver] | naive_solver]).
Qed.

(** A policy that does not block is no step, or a step forward. *)
Lemma blocks_stable a b va vb : stable a va -> stable b vb -> agree a b ->
  (blocks (policy a b) = true <-> ~ (a = b \/ version_lt va vb)).
Proof.
  intros Ha Hb Hab. rewrite (proj2 (policy_stable _ _ va vb Ha Hb)). split.
  - intros [N1 N2] [->|L]; [done | by destruct N2].
  - intros N. split; [intros E; destruct N; left; by eapply stable_same | intros L; destruct N; by right].
Qed.

(** The versions are those of the three tags. *)
Lemma keeps_goal_versions req vo vc vt :
  stable (OriginalBaseline req) vo -> stable (CurrentBaseline req) vc -> stable (rb_Target req) vt ->
  (exists original current target, keeps_goal req original current target) <-> keeps_goal req vo vc vt.
Proof.
  intros (? & ? & Eo) (? & ? & Ec) (? & ? & Et). split; [|eauto]. intros (a & b & c & [K1 K2 K3 K4 K5 K6 K7 K8]).
  unfold stable in K2, K3, K4. destruct_and!. by simplify_eq; constructor.
Qed.

Lemma keeps_goal_stable req i : (exists original current target, keeps_goal req original current target) ->
  i ∈ identities req -> exists v, stable i v.
Proof. intros (vo & vc & vt & []) Hi. unfold identities in Hi. set_solver. Qed.

Lemma keeps_goal_agree req vo vc vt a b : keeps_goal req vo vc vt -> (a, b) ∈ pairs (identities req) -> agree a b.
Proof. intros [? ? ? ? (? & ? & ?) ? ? ?] Hi. unfold identities, pairs in Hi. set_solver. Qed.

(** Main may move while a goal is at work: the flow goes on with the fixed target exactly when both commits are exact, the three upstream identities are exact stable tags that name each other's commits consistently, main's baseline is the original one or a newer version, and the target is newer than main - a goal is never rebound into a downgrade. *)
Theorem EvaluateGoalRebinding_run_iff (req : GoalRebindingRequest) :
  rb_Decision (EvaluateGoalRebinding req) = GoalRebindingRun <-> exists original current target, keeps_goal req original current target.
Proof.
  unfold EvaluateGoalRebinding.
  destruct (shaRE (OriginalBaseSHA req)) eqn:S1, (shaRE (CurrentBaseSHA req)) eqn:S2; cbn [negb orb];
    try (split; [done | intros (? & ? & ? & [[] ? ? ? ? ? ? ?]); congruence]).
  destruct (first_some unstable (identities req)) eqn:Eu.
  { split; [done|]. intros K. rewrite (proj2 (first_some_None _ _)) in Eu; [done|].
    intros i Hi. by apply unstable_None, (keeps_goal_stable req). }
  pose proof (proj1 (first_some_None unstable (identities req)) Eu) as Hu. unfold identities in Hu. clear Eu.
  destruct (proj1 (unstable_None _) (Hu (OriginalBaseline req) ltac:(set_solver))) as (vo & Ho).
  destruct (proj1 (unstable_None _) (Hu (CurrentBaseline req) ltac:(set_solver))) as (vc & Hc).
  destruct (proj1 (unstable_None _) (Hu (rb_Target req) ltac:(set_solver))) as (vt & Ht).
  rewrite (keeps_goal_versions req vo vc vt Ho Hc Ht).
  destruct (String.eqb (OriginalBaseSHA req) _ && _) eqn:Eb.
  { split; [done|]. intros [? ? ? ? ? K ? ?]. apply andb_true_iff in Eb as [Es%String.eqb_eq En].
    by rewrite bool_decide_eq_true_2 in En by auto. }
  destruct (first_some conflict (pairs (identities req))) eqn:Ef.
  { split; [done|]. intros K. rewrite (proj2 (first_some_None _ _)) in Ef; [done|].
    intros [a b] Hab. by eapply conflict_None, keeps_goal_agree. }
  assert (forall a b, (a, b) ∈ pairs (identities req) -> agree a b) as Ha.
  { intros a b Hab. by apply conflict_None, (proj1 (first_some_None _ _) Ef). }
  unfold identities, pairs in Ha. simpl in Ha.
  assert (A1 := Ha (OriginalBaseline req) (CurrentBaseline req) ltac:(set_solver)).
  assert (A2 := Ha (OriginalBaseline req) (rb_Target req) ltac:(set_solver)).
  assert (A3 := Ha (CurrentBaseline req) (rb_Target req) ltac:(set_solver)). clear Ha Hu Ef.
  destruct (blocks (policy (OriginalBaseline req) (CurrentBaseline req))) eqn:E1.
  { split; [done|]. intros [? ? ? ? ? ? K ?]. by apply (blocks_stable _ _ vo vc Ho Hc A1) in E1. }
  destruct (blocks (policy (OriginalBaseline req) (rb_Target req))) eqn:E2.
  { split; [done|]. intros [? ? ? ? ? ? K L]. apply (blocks_stable _ _ vo vt Ho Ht A2) in E2. destruct E2. right.
    destruct K as [E|K]; [|by trans vc]. rewrite E in Ho. destruct Ho as (_ & _ & Ho), Hc as (_ & _ & Hc). congruence. }
  destruct (bool_decide_reflect (CurrentBaseline req = rb_Target req)) as [Ect|Nct].
  { split; [done|]. intros [? ? ? ? ? ? ? L]. rewrite Ect in Hc. destruct Hc as (_ & _ & Hc), Ht as (_ & _ & Ht).
    simplify_eq. by apply (irreflexivity version_lt vc) in L. }
  destruct (policy_stable _ _ vc vt Hc Ht) as [B3 _].
  destruct (String.eqb_spec (Decision (policy (CurrentBaseline req) (rb_Target req))) DecisionAllow) as [Ea|Na].
  - split; [intros _|done]. apply B3 in Ea as [_ L]. constructor; try done.
    + intros E. rewrite E, String.eqb_refl in Eb. by destruct (bool_decide_reflect (OriginalBaseline req = CurrentBaseline req)).
    + destruct (decide (OriginalBaseline req = CurrentBaseline req \/ version_lt vo vc)) as [K|N]; [done|].
      apply (blocks_stable _ _ vo vc Ho Hc A1) in N. congruence.
  - split; [done|]. intros [? ? ? ? ? ? ? L]. destruct Na. apply B3. split; [|done]. intros E. destruct Nct. by eapply stable_same.
Qed.
