(* ===== verification/GoalPublication.v ===== *)
(** Publishing a verified candidate on the draft of a goal: the intent that is
    retained before the one push, its reconciliation, and the append.
    [goal_publication_intent.go], [goal_publication.go] and
    [prepareExactRefHook] of [auto_forward_effect.go]
    ([src/codexsdk/internal/protocolsync]). *)

From Stdlib Require Import Ascii.
From S2P Require Import Prelude GoStrings Policy Scope Resolve PublicationText Checks Boundary Inspection Goal GoalSnapshot Rebinding.

Local Open Scope string_scope.
Local Open Scope list_scope.
Local Open Scope goal_scope.

(** * Data *)

Record GoalPublicationIntent := {
  in_Version : Z; in_Repository : string; in_Number : Z; in_Branch : string; in_BaseBranch : string; in_BaseSHA : string;
  in_VerificationBaseSHA : string; in_AppBotID : Z; in_Target : Target; in_PreviousHead : string; IntendedHead : string;
  in_SnapshotDigest : string; SnapshotCommit : string; SnapshotTree : string; BundleDigest : string; in_Deadline : option Z }.

Inductive GoalPublicationEffect := NoEffect | GoalPublicationUnconfirmed | GoalPublicationObserved.

Record GoalPublication := {
  gpub_Number : Z; Head : string; PreviousHead : string; gpub_SnapshotDigest : string; gpub_ChangedPaths : list string;
  Intent : option GoalPublicationIntent; EffectState : GoalPublicationEffect }.

Definition no_publication : GoalPublication := {|
  gpub_Number := 0; Head := ""; PreviousHead := ""; gpub_SnapshotDigest := ""; gpub_ChangedPaths := [];
  Intent := None; EffectState := NoEffect |}.

Definition goalIntentResult (intent : GoalPublicationIntent) : GoalPublication := {|
  gpub_Number := in_Number intent; Head := ""; PreviousHead := in_PreviousHead intent;
  gpub_SnapshotDigest := in_SnapshotDigest intent; gpub_ChangedPaths := []; Intent := Some intent;
  EffectState := GoalPublicationUnconfirmed |}.

Definition with_paths (paths : list string) (p : GoalPublication) : GoalPublication := {|
  gpub_Number := gpub_Number p; Head := Head p; PreviousHead := PreviousHead p; gpub_SnapshotDigest := gpub_SnapshotDigest p;
  gpub_ChangedPaths := paths; Intent := Intent p; EffectState := EffectState p |}.

Definition observed_at (head : string) (p : GoalPublication) : GoalPublication := {|
  gpub_Number := gpub_Number p; Head := head; PreviousHead := PreviousHead p; gpub_SnapshotDigest := gpub_SnapshotDigest p;
  gpub_ChangedPaths := gpub_ChangedPaths p; Intent := Intent p; EffectState := GoalPublicationObserved |}.

Definition goalIntentName := "publication-intent.json".
Definition goalBundleName := "candidate.bundle".

#[export] Instance Target_eq_dec : EqDecision Target.
Proof. solve_decision. Defined.
#[export] Instance GoalPublicationEffect_eq_dec : EqDecision GoalPublicationEffect.
Proof. solve_decision. Defined.

(** The JSON text of an intent: [json.MarshalIndent], and the strict decoder
    that refuses unknown fields and trailing text. *)
Class IntentCodec := {
  encode_intent : GoalPublicationIntent -> res string;
  decode_intent : string -> option GoalPublicationIntent
}.

(** * Checks of a retained intent *)

(** 32 bytes in lower-case hexadecimal. *)
Definition goalDigest (value : string) : bool := (String.length value =? 64)%nat && all_bytes Policy.is_hex value.

Definition same_deadline (a b : option Z) : bool := bool_decide (a = b).

Definition differs_from_binding (r : GoalPublicationRequest) (i : GoalPublicationIntent) : bool :=
  negb (in_Version i =? 1)%Z || negb (String.eqb (in_Repository i) (gp_Repository r)) || negb (in_Number i =? gp_Number r)%Z ||
  negb (String.eqb (in_Branch i) (gp_Branch r)) || negb (String.eqb (in_BaseBranch i) (gp_BaseBranch r)) ||
  negb (String.eqb (in_BaseSHA i) (gp_BaseSHA r)) || negb (in_AppBotID i =? gp_AppBotID r)%Z ||
  negb (bool_decide (in_Target i = gp_Target r)) || negb (same_deadline (in_Deadline i) (Deadline r)) ||
  (negb (String.eqb (ExpectedHead r) (in_PreviousHead i)) && negb (String.eqb (ExpectedHead r) (IntendedHead i))).

Definition incomplete_intent (i : GoalPublicationIntent) : bool :=
  negb (shaRE (in_VerificationBaseSHA i)) || negb (shaRE (in_PreviousHead i)) || negb (shaRE (IntendedHead i)) ||
  negb (shaRE (SnapshotCommit i)) || negb (shaRE (SnapshotTree i)) || negb (goalDigest (in_SnapshotDigest i)) ||
  negb (goalDigest (BundleDigest i)) || String.eqb (in_PreviousHead i) (IntendedHead i) ||
  match in_Deadline i with None => true | Some _ => false end.

(** A regular file of its owner alone, of at most [limit] bytes. *)
Definition owned_file (limit : option Z) (info : finfo) : bool :=
  match info with
  | FileInfo regular _ perm bytes =>
    regular && private perm && match limit with Some n => (bytes <=? n)%Z | None => true end
  | _ => false
  end.

Definition is_not_exist (e : error) : bool := errors_is "file does not exist" e.

Section publication.
Context {W : Type} {B : Boundary W} {H : Host W} {C : IntentCodec}.

(** * The state directory *)

Definition outside_candidate (candidate : res string) (state : string) : bool :=
  match candidate with Ok c => negb (goalWithin c state) | Err _ => false end.

Definition goalPublicationState (r : GoalPublicationRequest) (create : bool) : P (B := B) string :=
  let outside := new_error "publication state must be outside the candidate" in
  _ ← guard (String.eqb (StateDir r) "" || match Deadline r with None => true | Some _ => false end)
        (new_error "publication requires host state and the original deadline");
  state ← replace_err (new_error "publication state path unavailable") (of_res (Abs (StateDir r)));
  _ ← guard (negb (String.eqb (CandidateDir r) "") && negb (outside_candidate (Abs (CandidateDir r)) state)) outside;
  _ ← (if create then replace_err (new_error "cannot create host publication state") (host (MkdirAll state)) else mret "");
  real ← peek (EvalSymlinks state);
  let absent := match real with Err e => is_not_exist e && negb create | Ok _ => false end in
  if absent then mret state else
  _ ← guard (match real with Ok p => negb (String.eqb p state) | Err _ => true end)
        (new_error "publication state must be a real host-owned directory");
  info ← peek (dir_info state);
  _ ← guard (match info with FileInfo _ is_directory perm _ => negb is_directory || negb (private perm) | _ => true end)
        (new_error "publication state directory must be private");
  candidate ← peek (EvalSymlinks (CandidateDir r));
  _ ← guard (negb (String.eqb (CandidateDir r) "") && negb (outside_candidate candidate state)) outside;
  mret state.

(** * Reading the retained intent *)

(** The source named by a commit is the bound target. *)
Definition bound_identity (message root head : string) (target : Target) : P (B := B) unit :=
  let e := new_error message in
  identity ← replace_err e (gitBaselineIdentityIn root head);
  guard (negb (bool_decide (identity = source_of target))) e.

(** The retained snapshot holds exactly what the intent says, seen in a
    repository that only fetched it. *)
Definition check_bundle (r : GoalPublicationRequest) (i : GoalPublicationIntent) (bundle work : string) : P (B := B) unit :=
  _ ← goalArtifactGit work ["init"; "--quiet"];
  _ ← replace_err (new_error "retained publication bundle incomplete") (goalArtifactGit work ["bundle"; "verify"; bundle]);
  let refs := new_error "retained publication bundle has unexpected refs" in
  heads ← replace_err refs (goalArtifactGit work ["bundle"; "list-heads"; bundle]);
  _ ← guard (negb (String.eqb heads (SnapshotCommit i +:+ " HEAD"))) refs;
  _ ← replace_err (new_error "cannot read retained publication snapshot") (goalArtifactGit work ["fetch"; "--no-tags"; bundle; "HEAD"]);
  tree ← attempt (goalArtifactGit work ["rev-parse"; "FETCH_HEAD^{tree}"]);
  parents ← attempt (goalArtifactGit work ["show"; "-s"; "--format=%P"; "FETCH_HEAD"]);
  _ ← guard (match tree, parents with
             | Ok t, Ok p => negb (String.eqb t (SnapshotTree i)) || negb (String.eqb p "")
             | _, _ => true
             end) (new_error "retained publication snapshot is not the exact minimal tree");
  _ ← replace_err (new_error "cannot inspect retained publication snapshot")
        (goalArtifactGit work ["checkout"; "--quiet"; "--detach"; "FETCH_HEAD"]);
  let bytes := new_error "retained publication snapshot does not match verified bytes" in
  digest ← replace_err bytes (goalSnapshot work "");
  _ ← guard (negb (String.eqb digest (in_SnapshotDigest i))) bytes;
  bound_identity "retained publication source differs from bound target" work "HEAD" (gp_Target r).

(** The checks of a decoded intent: the binding, and the snapshot it names. *)
Definition check_decoded (r : GoalPublicationRequest) (state : string) (i : GoalPublicationIntent) : P (B := B) unit :=
  _ ← guard (differs_from_binding r i) (new_error "publication intent differs from immutable goal binding");
  _ ← guard (incomplete_intent i) (new_error "publication intent incomplete");
  let bundle := path_join state goalBundleName in
  info ← peek (file_info bundle);
  _ ← guard (negb (owned_file None info)) (new_error "retained publication snapshot missing or unsafe");
  let changed := new_error "retained publication snapshot digest changed" in
  digest ← replace_err changed (host (Digest bundle));
  _ ← guard (negb (String.eqb digest (BundleDigest i))) changed;
  work ← replace_err (new_error "cannot validate retained publication snapshot") (host (MkdirTemp "goal-intent-check-"));
  finally (check_bundle r i bundle work) (remove_all work).

Definition check_intent (r : GoalPublicationRequest) (state : string) : P (B := B) GoalPublicationIntent :=
  data ← replace_err (new_error "publication intent unreadable") (host (ReadText (path_join state goalIntentName)));
  i ← (match decode_intent data with Some i => mret i | None => fail (new_error "publication intent incomplete") end);
  _ ← check_decoded r state i;
  mret i.

Definition readGoalPublicationIntent (r : GoalPublicationRequest) : P (B := B) (option GoalPublicationIntent) :=
  state ← goalPublicationState r false;
  info ← peek (file_info (path_join state goalIntentName));
  match info with
  | NoFile =>
    bundle ← peek (file_info (path_join state goalBundleName));
    match bundle with
    | NoFile => mret None
    | _ => fail (new_error "publication intent missing for retained snapshot")
    end
  | _ =>
    _ ← guard (negb (owned_file (Some (64 * 1024)%Z) info)) (new_error "publication intent unavailable or unsafe");
    i ← check_intent r state; mret (Some i)
  end.

(** * Writing the intent *)

Definition intent_of (r : GoalPublicationRequest) (head commit tree digest : string) : GoalPublicationIntent := {|
  in_Version := 1; in_Repository := gp_Repository r; in_Number := gp_Number r; in_Branch := gp_Branch r;
  in_BaseBranch := gp_BaseBranch r; in_BaseSHA := gp_BaseSHA r; in_VerificationBaseSHA := goalVerificationBase r;
  in_AppBotID := gp_AppBotID r; in_Target := gp_Target r; in_PreviousHead := ExpectedHead r; IntendedHead := head;
  in_SnapshotDigest := SnapshotDigest r; SnapshotCommit := commit; SnapshotTree := tree; BundleDigest := digest;
  in_Deadline := Deadline r |}.

(** The deadline is after this moment. *)
Definition in_time (r : GoalPublicationRequest) (moment : Z) : bool :=
  match Deadline r with Some d => (moment <? d)%Z | None => false end.

Definition host_ (message : string) (call : hostcall) : P (B := B) string := replace_err (new_error message) (host call).
Definition remove_file (path : string) : P (B := B) unit := _ ← host (RemoveFile path); mret tt.

(** The intent replaces its predecessor in one rename, and is on disk then. *)
Definition install_intent (state tmp data : string) : P (B := B) unit :=
  _ ← host_ "cannot sync publication intent" (WriteSynced tmp (data +:+ String (byte 10) ""));
  _ ← host_ "cannot retain publication intent" (Rename tmp (path_join state goalIntentName));
  _ ← host_ "cannot sync publication state" (SyncDir state);
  mret tt.

Definition retain_snapshot (r : GoalPublicationRequest) (state snapshot head tree commit bundle : string) : P (B := B) GoalPublicationIntent :=
  _ ← goalArtifactGit snapshot ["bundle"; "create"; bundle; "HEAD"];
  _ ← host_ "cannot protect publication snapshot" (Chmod bundle);
  _ ← host_ "cannot sync publication snapshot" (SyncFile bundle);
  digest ← host_ "cannot hash publication snapshot" (Digest bundle);
  let intent := intent_of r head commit tree digest in
  data ← replace_err (new_error "cannot encode publication intent") (of_res (encode_intent intent));
  _ ← host_ "cannot retain publication snapshot" (Rename bundle (path_join state goalBundleName));
  tmp ← host_ "cannot retain publication intent" (CreateTemp state ".publication-intent-*.json");
  _ ← finally (install_intent state tmp data) (remove_file tmp);
  mret intent.

Definition writeGoalPublicationIntent (r : GoalPublicationRequest) (snapshot head tree : string) : P (B := B) GoalPublicationIntent :=
  state ← goalPublicationState r true;
  moment ← peek now;
  _ ← guard (negb (in_time r moment)) (new_error "publication deadline expired");
  commit ← goalArtifactGit snapshot ["rev-parse"; "HEAD"];
  bundle ← host_ "cannot retain publication snapshot" (CreateTemp state ".candidate-*.bundle");
  finally (retain_snapshot r state snapshot head tree commit bundle) (remove_file bundle).

(** * Observing a retained intent *)

(** The intended head has the tree and the parent that were recorded before the effect. *)
Definition check_commit (r : GoalPublicationRequest) (i : GoalPublicationIntent) : P (B := B) unit :=
  tree ← attempt (goalGit (RepoRoot r) ["rev-parse"; IntendedHead i +:+ "^{tree}"]);
  parents ← attempt (goalGit (RepoRoot r) ["show"; "-s"; "--format=%P"; IntendedHead i]);
  guard (match tree, parents with
         | Ok t, Ok p => negb (String.eqb t (SnapshotTree i)) || negb (String.eqb p (in_PreviousHead i))
         | _, _ => true
         end) (new_error "retained publication commit differs from intended tree or parent").

Definition observe_intent (r : GoalPublicationRequest) (moment : Z) (i : GoalPublicationIntent) : P (B := B) unit :=
  _ ← guard (negb (in_time r moment)) (new_error "publication deadline expired; retained intent is not renewed");
  actual ← wrap_err "publication outcome unknown; retained intent cannot be replayed: %w" (goalRemoteHead r (gp_Branch r));
  _ ← guard (negb (String.eqb actual (IntendedHead i)))
        (new_error (if String.eqb actual (in_PreviousHead i)
                    then "publication outcome unresolved at previous head; retained intent cannot be replayed"
                    else "publication branch has a foreign head; retained intent cannot be adopted"));
  _ ← wrap_err "retained publication commit unavailable: %w"
        (goalGit (RepoRoot r) ["fetch"; "--no-tags"; "--no-write-fetch-head"; goalRemote r; "refs/heads/" +:+ gp_Branch r]);
  _ ← check_commit r i;
  goalCurrentAuthority CallCtx r (IntendedHead i) false.

Definition reconcileGoalPublication (r : GoalPublicationRequest) (moment : Z) : P (B := B) (GoalPublication * option error) :=
  try! _ := goalBinding r else no_publication;
  try! intent := readGoalPublicationIntent r else no_publication;
  match intent with
  | None => mret (no_publication, None)
  | Some i =>
    try! _ := observe_intent r moment i else goalIntentResult i;
    mret (observed_at (IntendedHead i) (goalIntentResult i), None)
  end.

Definition ReconcileGoalPublication (r : GoalPublicationRequest) : P (B := B) (GoalPublication * option error) := fun s =>
  reconcileGoalPublication r (now (world s)) s.
(** * The push *)

Definition newline : string := String (byte 10) "".
Definition lines (l : list string) : string := foldr (fun line rest => line +:+ newline +:+ rest) "" l.

Definition dq : string := String (byte 34) "".

(** The text of a word inside single quotes of the shell. *)
Definition quoted (s : string) : string := replace_all s "'" ("'" +:+ dq +:+ "'" +:+ dq +:+ "'").

(** One test of a line of the hook's input; [expected] goes between single quotes. *)
Definition tested (name expected : string) : string :=
  "  test " +:+ dq +:+ "$" +:+ name +:+ dq +:+ " = '" +:+ expected +:+ "'".

Definition hook_body (head previous branch : string) : string := lines [
  "#!/bin/sh"; "set -eu"; "count=0";
  "while read -r local_ref local_oid remote_ref remote_oid; do";
  tested "local_ref" head; tested "local_oid" head;
  tested "remote_ref" (quoted ("refs/heads/" +:+ branch)); tested "remote_oid" previous;
  "  count=$((count + 1))";
  "done";
  "test " +:+ dq +:+ "$count" +:+ dq +:+ " -eq 1"].

Definition prepareExactRefHook (head previous branch : string) : P (B := B) string :=
  let required := new_error "exact ref proof required" in
  _ ← guard (negb (shaRE head) || negb (shaRE previous) || String.eqb branch "") required;
  _ ← replace_err required (run ["check-ref-format"; "refs/heads/" +:+ branch] "");
  dir ← host (MkdirTemp "exact-ref-proof-");
  _ ← on_error (remove_all dir) (host (WriteText (path_join dir "pre-push") (hook_body head previous branch)));
  mret dir.

(** A push that is ready: its arguments, its token, and the directory of its hook. *)
Record prepared := { p_args : list string; p_token : option string; p_hooks : string }.

Definition release_token (r : GoalPublicationRequest) : P (B := B) unit :=
  if has_token r then (_ ← attempt (host ReleaseToken); mret tt) else mret tt.

Definition cleanup (r : GoalPublicationRequest) (hooks : string) : P (B := B) unit :=
  _ ← release_token r; remove_all hooks.

Definition missing_token : error := Typed (AppTokenT AppTokenMissing 0) [].

Definition take_token (r : GoalPublicationRequest) : P (B := B) (option string) :=
  if has_token r then
    token ← host PublicationToken;
    _ ← guard (String.eqb token "") missing_token;
    mret (Some token)
  else mret None.

Definition goal_push_args (r : GoalPublicationRequest) (head hooks : string) : list string :=
  ["-c"; "core.hooksPath=" +:+ hooks; "-c"; "core.fsmonitor=false"] ++
  (if has_token r then ["-c"; "credential.helper="; "-c"; "credential.helper=!gh auth git-credential"] else []) ++
  ["-C"; RepoRoot r; "push"; "--porcelain"; goalRemote r; head +:+ ":refs/heads/" +:+ gp_Branch r].

Definition prepareGoalDraftPush (r : GoalPublicationRequest) (head : string) : P (B := B) prepared :=
  hooks ← map_err (safeGoalPublicationError "push") (prepareExactRefHook head (ExpectedHead r) (gp_Branch r));
  token ← on_error (cleanup r hooks) (map_err (safeGoalPublicationError "token") (take_token r));
  mret {| p_args := goal_push_args r head hooks; p_token := token; p_hooks := hooks |}.

Definition execute (p : prepared) : P (B := B) unit :=
  _ ← map_err (safeGoalPublicationError "push") (host (PushGit (p_args p) (p_token p))); mret tt.

(** [pushGoalDraft] *)
Definition pushGoalDraft (r : GoalPublicationRequest) (head : string) : P (B := B) unit :=
  p ← prepareGoalDraftPush r head; finally (execute p) (cleanup r (p_hooks p)).

(** * The append *)

(** What the frozen candidate is: the bound head as it is, or a new commit on it. *)
Inductive candidate := Unchanged (paths : list string) | Commit (head tree : string) (paths : list string).

Definition same_snapshot (r : GoalPublicationRequest) (message destination : string) : P (B := B) unit :=
  digest ← replace_err (new_error message) (goalSnapshot (CandidateDir r) destination);
  guard (negb (String.eqb digest (SnapshotDigest r))) (new_error message).

Definition goal_commit_args (r : GoalPublicationRequest) (tree : string) : list string :=
  ["-c"; "user.name=Protocol goal controller"; "-c"; "user.email=protocol-goal@localhost"; "commit-tree"; tree;
   "-p"; ExpectedHead r; "-m"; "Append verified protocol goal candidate"].

Definition freeze (r : GoalPublicationRequest) (snapshot : string) : P (B := B) candidate :=
  _ ← same_snapshot r "verified snapshot digest changed" snapshot;
  _ ← goalGit (RepoRoot r) ["fetch"; "--no-tags"; "--no-write-fetch-head"; snapshot; "HEAD"];
  tree ← goalGit snapshot ["rev-parse"; "HEAD^{tree}"];
  _ ← is_ancestor "bound prior head does not descend from base" (RepoRoot r) (gp_BaseSHA r) (ExpectedHead r);
  paths ← replace_err (new_error "cannot inspect candidate changes")
            (gitNULIn (RepoRoot r) ["diff"; "--name-only"; "--no-renames"; "-z"; gp_BaseSHA r; tree; "--"]);
  _ ← bound_identity "candidate source identity differs from bound target" (RepoRoot r) tree (gp_Target r);
  oldTree ← goalGit (RepoRoot r) ["rev-parse"; ExpectedHead r +:+ "^{tree}"];
  if String.eqb oldTree tree then (_ ← goalCurrent CallCtx r (ExpectedHead r); mret (Unchanged paths)) else
  _ ← same_snapshot r "snapshot changed before publication" "";
  head ← goalGit (RepoRoot r) (goal_commit_args r tree);
  _ ← goalCurrent CallCtx r (ExpectedHead r);
  mret (Commit head tree paths).

Definition unchanged_publication (r : GoalPublicationRequest) (paths : list string) (intent : option GoalPublicationIntent) : GoalPublication := {|
  gpub_Number := gp_Number r; Head := ExpectedHead r; PreviousHead := ExpectedHead r; gpub_SnapshotDigest := SnapshotDigest r;
  gpub_ChangedPaths := paths; Intent := intent; EffectState := GoalPublicationObserved |}.

(** What the remote says after the push, whatever the push said; the readback
    runs even when the call was cancelled. *)
Definition confirm_push (r : GoalPublicationRequest) (result : GoalPublication) (head : string) (pushErr : option error)
    : P (B := B) (GoalPublication * option error) :=
  actual ← attempt (goalRemoteHead r (gp_Branch r));
  match actual with
  | Err readErr => mret (result, Some (goalPublicationOutcomeError "readback" "unknown" (errors_join [pushErr; Some readErr])))
  | Ok actual =>
    if negb (String.eqb actual head) then
      mret (result, Some (match pushErr with
                          | Some e => goalPublicationOutcomeError "readback" "unconfirmed" (Some e)
                          | None => goalPublicationOutcomeError "readback" "head_changed" None
                          end))
    else
      try! _ := goalCurrentAuthority ReadCtx r head false else result;
      try! _ := goalCurrent ReadCtx r head else observed_at head result;
      mret (observed_at head result, None)
  end.

Definition err_of {A} (x : res A) : option error := match x with Ok _ => None | Err e => Some e end.

Definition push_recorded (r : GoalPublicationRequest) (snapshot head tree : string) (paths : list string) (p : prepared)
    : P (B := B) (GoalPublication * option error) :=
  try! intent := writeGoalPublicationIntent r snapshot head tree else no_publication;
  pushed ← attempt (map_err (safeGoalPublicationError "push") (execute p));
  confirm_push r (with_paths paths (goalIntentResult intent)) head (err_of pushed).

Definition publish_from (r : GoalPublicationRequest) (prior : GoalPublication) (work : string)
    : P (B := B) (GoalPublication * option error) :=
  let snapshot := path_join work "candidate" in
  try! c := freeze r snapshot else no_publication;
  match c with
  | Unchanged paths => mret (unchanged_publication r paths (Intent prior), None)
  | Commit head tree paths =>
    try! p := prepareGoalDraftPush r head else no_publication;
    finally (push_recorded r snapshot head tree paths p) (cleanup r (p_hooks p))
  end.

(** An earlier intent was observed at a head the request does not expect. *)
Definition adopts (r : GoalPublicationRequest) (prior : GoalPublication) : bool :=
  match Intent prior with Some _ => negb (String.eqb (ExpectedHead r) (Head prior)) | None => false end.

Definition append_new (r : GoalPublicationRequest) (prior : GoalPublication) : P (B := B) (GoalPublication * option error) :=
  try! _ := goalCurrent CallCtx r (ExpectedHead r) else no_publication;
  try! _ := replace_err (new_error "verified snapshot is not clean") (AssertCleanIn (CandidateDir r)) else no_publication;
  try! work := host_ "cannot freeze publication snapshot" (MkdirTemp "goal-publication-") else no_publication;
  finally (publish_from r prior work) (remove_all work).

Definition AppendGoalDraft (r : GoalPublicationRequest) : P (B := B) (GoalPublication * option error) :=
  try! _ := goalBinding r else no_publication;
  '(prior, err) ← ReconcileGoalPublication r;
  match err with
  | Some e => mret (prior, Some e)
  | None => if adopts r prior then mret (prior, None) else append_new r prior
  end.
End publication.
