(* ===== verification/Desk.v ===== *)
(** A small host and repository that the goal flows run on: one draft, its
    branch, the required checks, and the state directory.  The witnesses of the
    goal flow evaluate on it. *)

From Stdlib Require Import Ascii.
From S2P Require Import Prelude GoStrings Policy Scope Resolve PublicationText Checks Boundary Inspection Goal GoalSnapshot Rebinding GoalPublication.

Local Open Scope string_scope.
Local Open Scope list_scope.

Record desk := { desk_main : string; desk_head : string; desk_draft : bool; desk_intent : option string; desk_written : string }.

Definition desk_old := sha_of "1".
Definition desk_new := sha_of "2".
Definition desk_number : Z := 3.
Definition desk_branch := hub_branch_name +:+ "-goal-0123456789abcdef".
Definition desk_ref := "refs/heads/" +:+ desk_branch.
Definition desk_url := "https://github.com/o/r/pull/3".

(** The trees: the new commit holds the candidate. *)
Definition desk_tree (rev : string) : string :=
  if has_prefix desk_new rev || has_prefix "HEAD" rev || has_prefix "FETCH_HEAD" rev then sha_of "5" else sha_of "4".
Definition desk_parent (rev : string) : string :=
  if String.eqb rev desk_new then desk_old else if String.eqb rev desk_old then hub_base else "".

Definition set_head (head : string) (w : desk) : desk := {|
  desk_main := desk_main w; desk_head := head; desk_draft := desk_draft w; desk_intent := desk_intent w; desk_written := desk_written w |}.

Definition set_main (head : string) (w : desk) : desk := {|
  desk_main := head; desk_head := desk_head w; desk_draft := desk_draft w; desk_intent := desk_intent w; desk_written := desk_written w |}.

(** The place of a commit on the one line of history. *)
Definition desk_rank (sha : string) : nat := if String.eqb sha desk_new then 2 else if String.eqb sha desk_old then 1 else 0.

(** What a refspec moves. *)
Definition desk_push (refspec : string) (w : desk) : desk :=
  if has_suffix ":refs/heads/main" refspec then set_main (str_take 40 refspec) w
  else set_head (if has_prefix ":" refspec then "" else str_take 40 refspec) w.

Definition desk_git (args : list string) (_ : string) (w : desk) : res string * desk :=
  let cmd := git_command args in
  let last := List.last args "" in
  let out :=
    if String.eqb cmd "ls-remote" then
      (let head := if String.eqb last "refs/heads/main" then desk_main w else desk_head w in
       if String.eqb head "" then "" else branch_line head last)
    else if String.eqb cmd "rev-parse" then
      (if contains "^{tree}" last then desk_tree last else if String.eqb last "HEAD" then sha_of "7" else last)
    else if String.eqb cmd "commit-tree" then (if has_prefix "Prepare" last then desk_old else desk_new)
    else if String.eqb cmd "show" then (if has_arg "--format=%P" args then desk_parent last else if contains hub_base last || contains (sha_of "7") last then "old" else "new")
    else if String.eqb cmd "bundle" && has_arg "list-heads" args then sha_of "7" +:+ " HEAD"
    else if String.eqb cmd "ls-files" && has_arg "--cached" args then "main.go" +:+ nul
    else "" in
  (if String.eqb cmd "merge-base" && (desk_rank last <? desk_rank (List.nth (length args - 2) args ""))%nat
   then Err (Typed (ExitT 1) []) else Ok out, if String.eqb cmd "push" then desk_push last w else w).

Definition desk_call (call : hostcall) (w : desk) : res string * desk :=
  match call with
  | ArtifactGit args => ((desk_git args "" w).1, w)
  | PushGit args _ => (Ok "", desk_push (List.last args "") w)
  | PublicationToken => (Ok "token", w)
  | Download _ => (Ok "archive", w)
  | MkdirTemp _ => (Ok "/tmp/work", w)
  | MkdirTempIn dir pattern => (Ok (path_join dir (pattern +:+ "1")), w)
  | CreateTemp _ _ => (Ok "/state/tmp", w)
  | Digest _ => (Ok (sha_of "6" +:+ str_take 24 (sha_of "6")), w)
  | ReadText path =>
    (if negb (contains "publication-intent" path) then Ok ""
     else match desk_intent w with Some text => Ok text | None => Err (Sentinel "file does not exist") end, w)
  | WriteSynced _ data => (Ok "", {| desk_main := desk_main w; desk_head := desk_head w; desk_draft := desk_draft w; desk_intent := desk_intent w; desk_written := data |})
  | Rename _ to =>
    (Ok "", if String.eqb to "/state/publication-intent.json"
            then {| desk_main := desk_main w; desk_head := desk_head w; desk_draft := desk_draft w; desk_intent := Some (desk_written w); desk_written := desk_written w |}
            else w)
  | CopyFile _ _ _ => (Ok (sha_of "8"), w)
  | _ => (Ok "", w)
  end.

Inductive desk_raw :=
| DeskPull (draft merged : bool) | DeskPulls (drafts : list bool) | DeskActivity (head : string) | DeskChecks (head : string)
| DeskWorkflows (head : string) | DeskRef (branch head : string) | DeskFile | DeskRepository | DeskDone.

Definition desk_request (method path : string) (_ : option (gmap string string)) (w : desk) : res desk_raw * desk :=
  if String.eqb method "GET" then
    (Ok (if contains "activity" path then DeskActivity (desk_head w)
         else if contains "check-runs" path then DeskChecks (desk_head w)
         else if contains "workflows" path then DeskWorkflows (desk_head w)
         else if has_suffix "/git/ref/heads/main" path then DeskRef "main" (desk_main w)
         else if contains "/git/ref/" path then DeskRef desk_branch (desk_head w)
         else if contains "contents" path then DeskFile
         else if contains "state=open" path then DeskPulls []
         else if contains "state=all" path then DeskPulls (if String.eqb (desk_head w) "" then [] else [desk_draft w])
         else if contains "/pulls/" path then DeskPull (desk_draft w) (negb (desk_rank (desk_main w) =? 0)%nat)
         else DeskRepository), w)
  else (Ok DeskDone, {| desk_main := desk_main w; desk_head := desk_head w; desk_draft := has_suffix "/pulls" path; desk_intent := desk_intent w; desk_written := desk_written w |}).

Definition desk_pr (merged : bool) : publicationPR :=
  {| pr_Number := desk_number; pr_URL := desk_url; pr_State := "open"; pr_Body := ""; pr_Title := ""; MergedAt := if merged then Some "2026-01-01T00:00:00Z" else None;
     User := hub_bot; pr_Head := {| Ref := desk_branch; ref_SHA := ""; FullName := "o/r" |};
     pr_Base := {| Ref := "main"; ref_SHA := hub_base; FullName := "o/r" |}; MergeSHA := "" |}.
Definition desk_draft_pr (draft merged : bool) : goalDraftPR := {| draft_pr := desk_pr merged; Draft := draft |}.

Definition desk_run (head : string) (id : nat) (name : string) : Run :=
  {| ID := Z.of_nat id + 1; run_Name := name; HeadSHA := head; run_Status := "completed"; run_Conclusion := "success";
     App_Slug := "github-actions" |}.

#[export] Instance desk_boundary : Boundary desk := {|
  Raw := desk_raw; exec_git := desk_git; Request := desk_request;
  LSRemote _ _ _ := Ok (branch_line hub_target "refs/tags/rust-v1.2.0");
  Lstat _ _ := LRegular;
  append_output _ w := (None, w);
  decode_prs raw := match raw with DeskPulls [] => Ok [] | _ => Err not_json end; decode_pr _ := Err not_json;
  decode_activities raw := match raw with
    | DeskActivity head => Ok [{| act_Ref := desk_ref; After := head; Actor := hub_bot |}]
    | _ => Err not_json end;
  decode_checks raw := match raw with
    | DeskChecks head => Ok (Z.of_nat (length RequiredNames), imap (desk_run head) RequiredNames)
    | _ => Err not_json end;
  decode_workflows raw := match raw with
    | DeskWorkflows head => Ok (1%Z, [{| StartedAt := 10; w_ID := 7; w_HeadSHA := head; Attempt := 1;
                                         w_Status := "completed"; w_Conclusion := "success" |}])
    | _ => Err not_json end;
  decode_metadata raw := Ok (if String.eqb raw "old" then hub_old else hub_identity) |}.

#[export] Instance desk_host : Host desk := {|
  perform := desk_call;
  file_info path w := if contains "publication-intent" path || contains "bundle" path then
      match desk_intent w with Some _ => FileInfo true false 0x180 100 | None => NoFile end
    else FileInfo true false 0x180 100;
  dir_info _ _ := FileInfo false true 0x1c0 0;
  root_info _ _ _ := FileInfo true false 0x1a4 10;
  EvalSymlinks path _ := Ok path;
  Abs path := Ok path;
  sha256 _ := sha_of "6" +:+ str_take 24 (sha_of "6");
  now _ := 100%Z;
  ctx_err _ _ := None;
  decode_draft raw := match raw with DeskPull draft merged => Ok (desk_draft_pr draft merged) | _ => Err not_json end;
  decode_drafts raw := match raw with DeskPulls drafts => Ok (map (fun draft => desk_draft_pr draft false) drafts) | _ => Err not_json end;
  decode_ready raw := match raw with DeskPull draft merged => Ok (desk_draft_pr draft merged, "node") | _ => Err not_json end;
  decode_open _ := Ok (Some []);
  decode_ref raw := match raw with DeskRef branch head => Ok ("refs/heads/" +:+ branch, "commit", head) | _ => Err not_json end;
  decode_repository _ := Ok ("o/r", "main");
  decode_file _ := Ok ("base64", "bmV3") |}.

Definition desk_target : Target := {|
  RefName := "rust-v1.2.0"; RefKind := "stable_rust_tag"; TagSHA := hub_target; PeeledCommitSHA := hub_target; TargetExplicit := true |}.

(** The binding of the goal at [head]. *)
Definition desk_goal (head : string) : GoalPublicationRequest := {|
  RepoRoot := "/repo"; gp_Repository := "o/r"; gp_Remote := ""; gp_BaseBranch := "main"; gp_Branch := desk_branch;
  gp_BaseSHA := hub_base; ExpectedHead := head; CandidateDir := "/candidate";
  SnapshotDigest := sha_of "6" +:+ str_take 24 (sha_of "6"); StateDir := "/state";
  Deadline := Some 200%Z; gp_Number := desk_number; VerificationBaseSHA := ""; gp_AppBotID := 7; gp_Target := desk_target;
  has_API := true; has_token := true |}.

Definition start_desk (w : desk) : flow (B := desk_boundary) := {| world := w; log := [] |}.
Definition empty_desk : desk := {| desk_main := hub_base; desk_head := desk_old; desk_draft := true; desk_intent := None; desk_written := "" |}.

(** A text of an intent that keeps the heads, the commits and the digests; the
    rest is that of [desk_goal]. *)
Definition desk_intent_of (texts : list string) : option GoalPublicationIntent :=
  match texts with
  | [previous; intended; commit; tree; digest; verified] => Some {|
      in_Version := 1; in_Repository := "o/r"; in_Number := desk_number; in_Branch := desk_branch; in_BaseBranch := "main";
      in_BaseSHA := hub_base; in_VerificationBaseSHA := verified; in_AppBotID := 7; in_Target := desk_target;
      in_PreviousHead := previous; IntendedHead := intended; in_SnapshotDigest := SnapshotDigest (desk_goal "");
      SnapshotCommit := commit; SnapshotTree := tree; BundleDigest := digest; in_Deadline := Some 200%Z |}
  | _ => None
  end.

#[export] Instance GoalPublicationIntent_eq_dec : EqDecision GoalPublicationIntent.
Proof. solve_decision. Defined.

Definition desk_decode (text : string) : option GoalPublicationIntent :=
  if has_suffix (String (byte 10) "") text then desk_intent_of (split_byte " "%char (str_take (String.length text - 1) text)) else None.

Definition desk_encode (i : GoalPublicationIntent) : res string :=
  let text := str_join " " [in_PreviousHead i; IntendedHead i; SnapshotCommit i; SnapshotTree i; BundleDigest i; in_VerificationBaseSHA i] in
  if bool_decide (desk_decode (text +:+ String (byte 10) "") = Some i) then Ok text else Err not_json.

#[export] Instance desk_codec : IntentCodec := {| encode_intent := desk_encode; decode_intent := desk_decode |}.

Lemma desk_codec_ok i data : desk_encode i = Ok data -> desk_decode (data +:+ String (byte 10) "") = Some i.
Proof. unfold desk_encode. case_bool_decide as E; [|done]. by intros [= <-]. Qed.

(** A publication on the desk, from the outset. *)
Definition desk_appended := AppendGoalDraft (H := desk_host) (desk_goal desk_old) (start_desk empty_desk).
Definition desk_after : flow (B := desk_boundary) := match desk_appended with Some (_, s) => s | None => start_desk empty_desk end.
Lemma desk_appends : exists p, desk_appended = Some (Ok (p, None), desk_after).
Proof. vm_compute. eexists. reflexivity. Qed.


(** A snapshot on the desk: one file, copied below the destination. *)
Definition desk_snapshot := goalSnapshot (H := desk_host) "/candidate" "/tmp/work/candidate" (start_desk empty_desk).
Definition desk_copied : flow (B := desk_boundary) := match desk_snapshot with Some (_, s) => s | None => start_desk empty_desk end.
Lemma desk_snapshots : exists digest, desk_snapshot = Some (Ok digest, desk_copied).
Proof. vm_compute. eexists. reflexivity. Qed.

Lemma goalSnapshot_inside_witness : length (log desk_copied) = 12 /\ exists l, log desk_copied = l ++ [] /\
  Forall (fun e => inside "/candidate" "/tmp/work/candidate" e \/ inside "/candidate" "" e) l.
Proof.
  split; [vm_compute; reflexivity|]. destruct desk_snapshots as (digest & E).
  exact (goalSnapshot_inside (H := desk_host) "/candidate" "/tmp/work/candidate" (start_desk empty_desk) (Ok digest) desk_copied E).
Defined.
