(* ===== verification/GoalIntents.v ===== *)
(** What a run of the append may do: it changes the remote at most once, by the
    push of the head whose intent it just retained, and over any number of runs
    the retained intents form one chain and no push is replayed.

    A run is decomposed into steps along a relation [R] of quiet steps ([Quiet]):
    the first theorem takes for [R] "no effect outside the host", the second adds
    "the retained intent stays". *)

From Stdlib Require Import Ascii.
From S2P Require Import Prelude GoStrings Policy Scope Resolve PublicationText Checks Boundary Inspection Goal GoalSnapshot Rebinding GoalPublication Desk.

Local Open Scope string_scope.
Local Open Scope list_scope.
Local Open Scope goal_scope.

(** * What a run may do to the remote and to the retained intent *)

(** The steps that change the remote repository or the pull request, and the
    commands that may do anything. *)
Definition effect {W} {B : Boundary W} (e : event (B := B)) : bool :=
  match e with
  | Ran args _ | Performed (ArtifactGit args) _ | Performed (ArtifactGitIn args _) _ => String.eqb (git_command args) "push"
  | Asked method _ _ _ => negb (String.eqb method "GET")
  | Performed (PushGit _ _) _ | Performed (Execute _ _) _ => true
  | _ => false
  end.

(** A call that changes neither the remote nor a file that is not [fresh], but
    for the retained snapshot. *)
Definition harmless (fresh : string -> Prop) (call : hostcall) : Prop :=
  match call with
  | PushGit _ _ | Execute _ _ => False
  | ArtifactGit args | ArtifactGitIn args _ => git_command args <> "push"
  | RemoveFile q | RemoveAll q | Chmod q | SyncFile q | WriteText q _ | WriteSynced q _ => fresh q
  | CopyFile _ q _ => q = "" \/ fresh q
  | Rename q b => fresh q /\ exists state, b = path_join state goalBundleName
  | _ => True
  end.

(** Steps along [R] neither change the remote nor the retained intent. *)
Class Quiet {W} {B : Boundary W} {H : Host W} (fresh : string -> Prop) (R : flow (B := B) -> flow (B := B) -> Prop) := {
  quiet_order : PreOrder R;
  quiet_log s s' : R s s' -> log s ⊆ log s';
  quiet_run args input : git_command args <> "push" -> along R (run args input);
  quiet_get path : along R (request "GET" path None);
  quiet_resolve req : along R (resolve req);
  quiet_host call : harmless fresh call -> along R (host call);
  fresh_file dir pattern s q s' : host (CreateTemp dir pattern) s = Some (Ok q, s') -> fresh q;
  fresh_dir pattern s q s' : host (MkdirTemp pattern) s = Some (Ok q, s') -> fresh q;
  fresh_below q name : fresh q -> fresh (path_join q name)
}.

Create HintDb quieting.
#[export] Hint Resolve along_of_res along_ret along_fail along_guard along_peek along_world along_ended quiet_run quiet_get quiet_resolve
  quiet_host : quieting.
#[export] Hint Extern 1 (git_command _ <> _) => discriminate : quieting.
#[export] Hint Extern 1 (harmless _ _) => first [exact I | cbn [harmless]; eauto with quieting; discriminate] : quieting.

(** Show that a flow stays quiet, from its structure; [step] is tried first where
    the freshness of a temporary path is needed. *)
Ltac quieted_by step :=
  repeat first
    [ progress intros
    | solve [eauto 4 with quieting]
    | step ()
    | lazymatch goal with
      | |- along _ (mbind _ _) => apply along_bind
      | |- along _ (caught _ _ _) => apply along_caught
      | |- along _ (wrap_err _ _) => apply along_wrap
      | |- along _ (map_err _ _) => apply along_map
      | |- along _ (replace_err _ _) => apply along_replace
      | |- along _ (attempt _) => apply along_attempt
      | |- along _ (under _ _) => apply along_under
      | |- along _ (finally _ _) => apply along_finally
      | |- along _ (on_error _ _) => apply along_on_error
      | |- along _ (match ?x with _ => _ end) => destruct x
      | |- along _ (if ?x then _ else _) => destruct x
      end
    | progress cbv [goalGit goalArtifactGit goalGit_ is_ancestor host_ gitOutput gitNUL gitNULIn get remove_all remove_file] ];
  try done.
Ltac quieted := quieted_by ltac:(fun _ => fail).

(** The observation of the checks only reads the API. *)
Lemma quiet_observe {W} {B : Boundary W} {H : Host W} fresh R {Q : Quiet fresh R} repository head :
  along R (observe repository head).
Proof.
  pose proof quiet_order. intros s x s' [= Ho].
  pose proof (Observe_reads (fun path => ask "GET" path None) decode_checks decode_workflows repository head s) as Hr.
  rewrite Ho in Hr. simpl in Hr. clear Ho. induction Hr as [|s1 s2 s3 (path & ->) _ IH]; [done|].
  etransitivity; [|exact IH]. eapply (quiet_get path). exact (f_equal Some (surjective_pairing _)).
Qed.
#[export] Hint Resolve quiet_observe : quieting.

Section quiet.
Context {W : Type} {B : Boundary W} {H : Host W} {C : IntentCodec}.
Context (fresh : string -> Prop) (R : flow (B := B) -> flow (B := B) -> Prop) {Q : Quiet fresh R}.
Implicit Types (r : GoalPublicationRequest).
#[local] Instance order : PreOrder R := quiet_order.
#[local] Hint Resolve order : quieting.
#[local] Hint Extern 2 (fresh (path_join _ _)) => apply fresh_below : quieting.

Lemma check_ref_quiet ref : along R (check_ref ref).
Proof. unfold check_ref. quieted. Qed.
Lemma goalBinding_quiet r : along R (goalBinding r).
Proof. unfold goalBinding. pose proof check_ref_quiet. quieted. Qed.
Lemma goalRemoteHead_quiet r branch : along R (goalRemoteHead r branch).
Proof. unfold goalRemoteHead. quieted. Qed.
Lemma goalCurrentAuthority_quiet c r head main : along R (goalCurrentAuthority c r head main).
Proof.
  unfold goalCurrentAuthority, head_actor, publicationHeadActor, target_current. pose proof goalRemoteHead_quiet. quieted.
Qed.
Lemma goalCurrent_quiet c r head : along R (goalCurrent c r head).
Proof. apply goalCurrentAuthority_quiet. Qed.

(** ** Snapshots *)

Lemma snapshot_file_quiet root destination name : destination = "" \/ fresh destination -> along R (snapshot_file root destination name).
Proof.
  intros Hd. unfold snapshot_file.
  assert (harmless fresh (CopyFile (path_join root name) (if String.eqb destination "" then "" else path_join destination name) 0)) as Hc.
  { cbn [harmless]. destruct (String.eqb_spec destination ""); [by left|]. right. destruct Hd; [done|]. by apply fresh_below. }
  quieted; by apply quiet_host.
Qed.
Lemma snapshot_files_quiet root destination names :
  destination = "" \/ fresh destination -> along R (snapshot_files root destination names).
Proof. intros Hd. pose proof snapshot_file_quiet. induction names; cbn [snapshot_files]; quieted. Qed.
Lemma read_snapshot_quiet root destination : destination = "" \/ fresh destination -> along R (read_snapshot root destination).
Proof. intros Hd. unfold read_snapshot. pose proof snapshot_files_quiet. quieted. Qed.
Lemma goalSnapshot_quiet root destination : destination = "" \/ fresh destination -> along R (goalSnapshot root destination).
Proof. intros Hd. unfold goalSnapshot, commit_snapshot. pose proof read_snapshot_quiet. quieted. Qed.

(** ** The retained intent *)

Lemma bound_identity_quiet message root head target : along R (bound_identity message root head target).
Proof. unfold bound_identity, gitBaselineIdentityIn. quieted. Qed.
Lemma goalPublicationState_quiet r create : along R (goalPublicationState r create).
Proof. unfold goalPublicationState. quieted. Qed.
Lemma remove_all_quiet d : fresh d -> along R (remove_all d).
Proof. unfold remove_all. quieted. Qed.

(** What follows a temporary directory knows that nobody else uses it. *)
Lemma along_dir {A} pattern e (f : string -> P (B := B) A) : (forall d, fresh d -> along R (f d)) ->
  along R (replace_err e (host (MkdirTemp pattern)) ≫= f).
Proof.
  intros Hf. apply along_bind_run; [apply _ | quieted |]. intros d s s' Hd. apply Hf.
  unfold replace_err in Hd. destruct (host _ s) as [[[q|x] s1]|] eqn:E; [|done..]. injection Hd as -> ->. by eapply fresh_dir.
Qed.

Lemma check_bundle_quiet r i bundle work : fresh work -> along R (check_bundle r i bundle work).
Proof.
  intros Hw. unfold check_bundle. pose proof bound_identity_quiet. pose proof (goalSnapshot_quiet work "" (or_introl eq_refl)). quieted.
Qed.
Lemma check_decoded_quiet r state i : along R (check_decoded r state i).
Proof.
  unfold check_decoded. pose proof check_bundle_quiet. pose proof remove_all_quiet.
  quieted_by ltac:(fun _ => apply along_dir).
Qed.
Lemma check_intent_quiet r state : along R (check_intent r state).
Proof. unfold check_intent. pose proof check_decoded_quiet. quieted. Qed.
Lemma readGoalPublicationIntent_quiet r : along R (readGoalPublicationIntent r).
Proof. unfold readGoalPublicationIntent. pose proof goalPublicationState_quiet. pose proof check_intent_quiet. quieted. Qed.
Lemma observe_intent_quiet r moment i : along R (observe_intent r moment i).
Proof.
  unfold observe_intent, check_commit. pose proof goalRemoteHead_quiet. pose proof goalCurrentAuthority_quiet. quieted.
Qed.
Lemma ReconcileGoalPublication_quiet r : along R (ReconcileGoalPublication r).
Proof.
  intros s x s'. unfold ReconcileGoalPublication. revert s x s'.
  assert (forall moment, along R (reconcileGoalPublication r moment)) as Hm; [|intros s; apply Hm].
  intros moment. unfold reconcileGoalPublication. pose proof goalBinding_quiet. pose proof readGoalPublicationIntent_quiet.
  pose proof observe_intent_quiet. quieted.
Qed.

(** ** Around the push *)

Lemma freeze_quiet r snapshot : fresh snapshot -> along R (freeze r snapshot).
Proof.
  intros Hs. unfold freeze, same_snapshot. pose proof goalSnapshot_quiet. pose proof bound_identity_quiet.
  pose proof goalCurrent_quiet. quieted.
Qed.
Lemma confirm_push_quiet r result head pushErr : along R (confirm_push r result head pushErr).
Proof.
  unfold confirm_push. pose proof goalRemoteHead_quiet. pose proof goalCurrentAuthority_quiet. pose proof goalCurrent_quiet. quieted.
Qed.
Lemma cleanup_quiet r hooks : fresh hooks -> along R (cleanup r hooks).
Proof. intros Hh. unfold cleanup, release_token. pose proof remove_all_quiet. quieted. Qed.
End quiet.

(** * The shape of a run *)

Section shape.
Context {W : Type} {B : Boundary W} {H : Host W} {C : IntentCodec}.
Context (fresh : string -> Prop) (R : flow (B := B) -> flow (B := B) -> Prop) {Q : Quiet fresh R}.
Implicit Types (r : GoalPublicationRequest) (s : flow (B := B)).
#[local] Instance order' : PreOrder R := quiet_order.
#[local] Hint Resolve order' : quieting.

(** The directory of the intent was synced, among quiet steps. *)
Definition synced (state : string) s s' : Prop := exists v s1 s2,
  R s s1 /\ host (SyncDir state) s1 = Some (Ok v, s2) /\ R s2 s'.
Lemma synced_after state s s1 s' : synced state s s1 -> R s1 s' -> synced state s s'.
Proof. intros (v & s2 & s3 & ? & ? & ?) Hq. exists v, s2, s3. split; [done|]. split; [done|]. by etransitivity. Qed.

(** The intent is written to a temporary file, and the file renamed over the
    retained intent; [renamed] is how the rename ended. *)
Record installing (state data : string) s s2 (renamed : res string) : Prop := {
  installing_run : exists tmp v s0 s1, R s s0 /\ fresh tmp /\
    host (WriteSynced tmp (data +:+ String (byte 10) "")) s0 = Some (Ok v, s1) /\
    host (Rename tmp (path_join state goalIntentName)) s1 = Some (renamed, s2) }.

Lemma host_total call s : exists x, host call s = Some (x, {| world := (perform call (world s)).2;
  log := Performed call x :: log s |}).
Proof. unfold host. destruct (perform call (world s)) as [x w] eqn:E. by exists x. Qed.

Lemma host_quiet call s x s' : host call s = Some (x, s') -> harmless fresh call -> R s s'.
Proof. intros E Hc. by eapply (quiet_host (Quiet := Q)). Qed.

Lemma host__inv message call s x s' : host_ message call s = Some (x, s') ->
  exists y, host call s = Some (y, s') /\ (forall v, x = Ok v -> y = Ok v) /\ (forall e, x = Err e -> exists e', y = Err e').
Proof.
  unfold host_, replace_err. destruct (host call s) as [[[v|e] s1]|]; [| |done]; intros [= <- <-];
    eexists; (split; [reflexivity | split; [by intros ? [= ->] | intros ? He; try discriminate He; eauto]]).
Qed.

Lemma install_shape state tmp data s x s' : fresh tmp -> install_intent state tmp data s = Some (x, s') ->
  (R s s' /\ exists e, x = Err e) \/ exists y s2, installing state data s s2 y /\ R s2 s' /\
    (x = Ok tt -> exists u, y = Ok u /\ synced state s2 s').
Proof.
  intros Hf [(a & s1 & H1 & H2)|(e & H1 & ->)]%P_bind_inv; apply host__inv in H1 as (y1 & H1 & Hok & Herr).
  - right. specialize (Hok _ eq_refl) as ->.
    apply P_bind_inv in H2 as [(b & s2 & H2 & H3)|(e & H2 & ->)]; apply host__inv in H2 as (y2 & H2 & Hok2 & Herr2).
    + specialize (Hok2 _ eq_refl) as ->. exists (Ok b), s2. split; [by constructor; exists tmp, a, s, s1|].
      apply P_bind_inv in H3 as [(c & s3 & H3 & [= <- <-])|(e & H3 & ->)]; apply host__inv in H3 as (y3 & H3 & Hok3 & _).
      * split; [by eapply host_quiet|]. intros _. specialize (Hok3 _ eq_refl) as ->. exists b. split; [done|].
        by exists c, s2, s3.
      * split; [by eapply host_quiet | done].
    + exists y2, s'. split; [by constructor; exists tmp, a, s, s1|]. done.
  - left. split; [|eauto]. by eapply host_quiet.
Qed.

Lemma finally_inv {A} (m : P (B := B) A) c s x s' : finally m c s = Some (x, s') ->
  exists s1 y, m s = Some (x, s1) /\ c s1 = Some (y, s').
Proof. unfold finally. destruct (m s) as [[z s1]|]; [|done]. destruct (c s1) as [[y s2]|] eqn:E; [|done]. intros [= <- <-]. eauto. Qed.

Lemma caught_inv {A X} (m : P (B := B) A) (x : X) k s y s' : caught m x k s = Some (y, s') ->
  (exists a s1, m s = Some (Ok a, s1) /\ k a s1 = Some (y, s')) \/ (exists e, m s = Some (Err e, s') /\ y = Ok (x, Some e)).
Proof. unfold caught. destruct (m s) as [[[a|e] s1]|]; [eauto 6 | intros [= <- <-]; eauto | done]. Qed.

Lemma quiet_trans s1 s2 s3 : R s1 s2 -> R s2 s3 -> R s1 s3.
Proof. apply transitivity. Qed.

Lemma installing_after state data s0 s s2 y : R s0 s -> installing state data s s2 y -> installing state data s0 s2 y.
Proof. intros H0 [(tmp & v & s1 & s3 & H1 & ?)]. constructor. exists tmp, v, s1, s3. split; [by etransitivity | done]. Qed.

Lemma run_quiet {A} (m : P (B := B) A) s x s' : along R m -> m s = Some (x, s') -> R s s'.
Proof. intros Hm. apply Hm. Qed.

Lemma goalPublicationState_abs r create s state s' : goalPublicationState r create s = Some (Ok state, s') -> Abs (StateDir r) = Ok state.
Proof.
  intros (a & s1 & _ & H1)%P_bind_Ok. apply P_bind_Ok in H1 as (b & s2 & H2 & H1).
  assert (Abs (StateDir r) = Ok b) as Hb.
  { unfold replace_err, of_res in H2. destruct (Abs (StateDir r)); [|done]. by injection H2 as ->. }
  repeat (apply P_bind_Ok in H1 as (? & ? & _ & H1)).
  destruct (match _ with Ok _ => false | Err e => _ end); [by injection H1 as <- _|].
  repeat (apply P_bind_Ok in H1 as (? & ? & _ & H1)). by injection H1 as <- _.
Qed.

(** How the write of an intent ended: nothing but quiet steps, or an attempt to
    install it, which a success has synced. *)
Definition attempted r (head state : string) s s' (x : res GoalPublicationIntent) : Prop :=
  (R s s' /\ exists e, x = Err e) \/
  exists commit tree digest data y s2, encode_intent (intent_of r head commit tree digest) = Ok data /\
    installing state data s s2 y /\ R s2 s' /\
    (forall i, x = Ok i -> i = intent_of r head commit tree digest /\
      exists u, y = Ok u /\ synced state s2 s').

Lemma attempted_before r head state s0 s s' x : R s0 s -> attempted r head state s s' x -> attempted r head state s0 s' x.
Proof.
  intros H0 [[H1 H2]|(commit & tree & digest & data & y & s2 & H1 & H2 & H3)]; [left; split; [by etransitivity | done] | right].
  exists commit, tree, digest, data, y, s2. split; [done|]. split; [by eapply installing_after | done].
Qed.

Lemma attempted_after r head state s s1 s' x : attempted r head state s s1 x -> R s1 s' -> attempted r head state s s' x.
Proof.
  intros [[H1 H2]|(commit & tree & digest & data & y & s2 & H1 & H2 & H3 & H4)] H0; [left; split; [by etransitivity | done] | right].
  exists commit, tree, digest, data, y, s2. split; [done|]. split; [done|]. split; [by etransitivity|].
  intros i Hi. destruct (H4 i Hi) as (-> & u & -> & Hs). split; [done|]. exists u. split; [done|]. by eapply synced_after.
Qed.

(** A quiet step first, and the rest after it. *)
Lemma attempted_bind {A} r head state (m : P (B := B) A) k s x s' :
  along R m -> (m ≫= k) s = Some (x, s') ->
  (forall a s1, m s = Some (Ok a, s1) -> k a s1 = Some (x, s') -> attempted r head state s1 s' x) -> attempted r head state s s' x.
Proof.
  intros Hm [(a & s1 & H1 & H2)|(e & H1 & ->)]%P_bind_inv Hk; [|left; eauto].
  eapply attempted_before; [by eapply Hm | by apply (Hk a)].
Qed.

Ltac quiet_step Hr :=
  eapply attempted_bind; [| exact Hr |]; [quieted | clear Hr; intros ? ? ? Hr; cbv zeta in Hr].

Lemma replace_err_Ok {A} e (m : P (B := B) A) a s s' : replace_err e m s = Some (Ok a, s') -> m s = Some (Ok a, s').
Proof. unfold replace_err. by destruct (m s) as [[[]]|]. Qed.

Lemma retain_shape r state snapshot head tree commit bundle s x s' : fresh bundle ->
  retain_snapshot r state snapshot head tree commit bundle s = Some (x, s') -> attempted r head state s s' x.
Proof.
  intros Hf Hr. unfold retain_snapshot in Hr. do 4 quiet_step Hr. rename a2 into digest.
  quiet_step Hr. rename a2 into data. apply replace_err_Ok in H4. injection H4 as Hd _.
  quiet_step Hr. quiet_step Hr. rename a3 into tmp. apply host__inv in H5 as (y & H5 & Hy & _).
  rewrite (Hy _ eq_refl) in H5. apply fresh_file in H5 as Ht.
  assert (along R (remove_file tmp)) as Hrm by quieted.
  apply P_bind_inv in Hr as [(u & s7 & Hr & [= <- <-])|(e & Hr & ->)]; apply finally_inv in Hr as (s8 & z & Hi & Hc);
    apply Hrm in Hc; apply (install_shape state tmp data) in Hi as [[Hq (e' & He)]|(y' & s9 & Hi & Hq & Hok)]; try done.
  - right. exists commit, tree, digest, data, y', s9. split; [done|]. split; [done|]. split; [by etransitivity|].
    intros i [= <-]. split; [done|]. destruct u. destruct (Hok eq_refl) as (u & Hu & Hs). exists u. split; [done|].
    by eapply synced_after.
  - left. split; [by etransitivity | eauto].
  - right. exists commit, tree, digest, data, y', s9. split; [done|]. split; [done|]. split; [by etransitivity | done].
Qed.

Lemma writeGoalPublicationIntent_shape r snapshot head tree s x s' :
  writeGoalPublicationIntent r snapshot head tree s = Some (x, s') ->
  (R s s' /\ exists e, x = Err e) \/ exists state, Abs (StateDir r) = Ok state /\ attempted r head state s s' x.
Proof.
  intros [(state & s1 & H1 & H2)|(e & H1 & ->)]%P_bind_inv; [right | left; split; [by eapply goalPublicationState_quiet | eauto]].
  exists state. split; [by eapply goalPublicationState_abs|].
  eapply attempted_before; [by eapply goalPublicationState_quiet|].
  do 3 quiet_step H2. quiet_step H2. rename a2 into bundle. apply host__inv in H5 as (y & H5 & Hy & _).
  rewrite (Hy _ eq_refl) in H5. apply fresh_file in H5 as Ht.
  assert (along R (remove_file bundle)) as Hrm by quieted.
  apply finally_inv in H2 as (s6 & z & Hi & Hc). apply Hrm in Hc.
  eapply attempted_after; [by eapply retain_shape | done].
Qed.

(** The one push of a run. *)
Definition pushed r (head : string) s s' : Prop := exists hooks token out s1 s2,
  R s s1 /\ host (PushGit (goal_push_args r head hooks) token) s1 = Some (out, s2) /\ R s2 s'.

(** A run asks for nothing, or replaces the retained intent and stops, or pushes
    the head of the intent it replaced it with. *)
Inductive shaped r s s' : Prop :=
| shaped_quiet : R s s' -> shaped r s s'
| shaped_intent head state commit tree digest data y s2 :
    Abs (StateDir r) = Ok state -> encode_intent (intent_of r head commit tree digest) = Ok data ->
    installing state data s s2 y -> R s2 s' -> shaped r s s'
| shaped_push head state commit tree digest data v s2 s3 :
    Abs (StateDir r) = Ok state -> encode_intent (intent_of r head commit tree digest) = Ok data ->
    installing state data s s2 (Ok v) -> synced state s2 s3 ->
    pushed r head s3 s' -> shaped r s s'.

Lemma shaped_before r s0 s s' : R s0 s -> shaped r s s' -> shaped r s0 s'.
Proof.
  intros H0 []; [apply shaped_quiet; by etransitivity | eapply shaped_intent | eapply shaped_push]; eauto using installing_after.
Qed.

Lemma shaped_after r s s1 s' : shaped r s s1 -> R s1 s' -> shaped r s s'.
Proof.
  intros [Hq|head state commit tree digest data y s2 Ha Hd Hi Hq|head state commit tree digest data v s2 s3 Ha Hd Hi Hs Hp] H0;
    [apply shaped_quiet; by etransitivity | eapply shaped_intent; eauto using quiet_trans | eapply shaped_push; eauto].
  destruct Hp as (hooks & token & out & s5 & s6 & H6 & H7 & H8). exists hooks, token, out, s5, s6.
  split; [done|]. split; [done|]. by etransitivity.
Qed.

Lemma execute_inv p s x s' : execute p s = Some (x, s') -> exists out, host (PushGit (p_args p) (p_token p)) s = Some (out, s').
Proof.
  intros [(a & s1 & H1 & [= <- <-])|(e & H1 & ->)]%P_bind_inv; revert H1; unfold map_err;
    destruct (host _ s) as [[[v|e'] s2]|]; try done; intros [= <- <-]; eauto.
Qed.

Lemma push_recorded_shape r snapshot head tree paths hooks token s x s' :
  push_recorded r snapshot head tree paths {| p_args := goal_push_args r head hooks; p_token := token; p_hooks := hooks |} s = Some (x, s') ->
  shaped r s s'.
Proof.
  intros [(i & s1 & H1 & H2)|(e & H1 & ->)]%caught_inv; apply writeGoalPublicationIntent_shape in H1 as [[Hq (e' & He)]|(state & Ha & Hw)];
    try (by apply shaped_quiet).
  - destruct Hw as [[Hq (e' & He)]|(commit & tree' & digest & data & y & s2 & Hd & Hi & Hq & Hok)]; [done|].
    destruct (Hok i eq_refl) as (-> & u & -> & Hs).
    apply P_bind_inv in H2 as [(pushErr & s3 & H2 & H3)|(e & H2 & ->)]; apply attempt_inv in H2 as (out & Hout & H2); [|done].
    assert (exists out', host (PushGit (goal_push_args r head hooks) token) s1 = Some (out', s3)) as (out' & Hp).
    { unfold map_err in H2. destruct (execute _ s1) as [[[w|e] s4]|] eqn:E; [| |done]; injection H2 as <- <-; by eapply execute_inv in E. }
    eapply shaped_push; eauto. exists hooks, token, out', s1, s3.
    split; [done|]. split; [done|]. by eapply confirm_push_quiet.
  - destruct Hw as [[Hq _]|(commit & tree' & digest & data & y & s2 & Hd & Hi & Hq & _)]; [by apply shaped_quiet|].
    by eapply shaped_intent.
Qed.

Lemma prepareExactRefHook_quiet head previous branch : along R (prepareExactRefHook head previous branch).
Proof.
  unfold prepareExactRefHook. pose proof (fresh_below (Quiet := Q)). pose proof (remove_all_quiet fresh R).
  apply along_bind; [apply _ | quieted |]. intros _. apply along_bind; [apply _ | quieted |]. intros _.
  apply along_bind_run; [apply _ | quieted |]. intros d s s' Hd%fresh_dir. quieted.
Qed.

Lemma prepareExactRefHook_fresh head previous branch s d s' : prepareExactRefHook head previous branch s = Some (Ok d, s') -> fresh d.
Proof.
  intros (_ & s1 & _ & H1)%P_bind_Ok. apply P_bind_Ok in H1 as (_ & s2 & _ & H1). apply P_bind_Ok in H1 as (d' & s3 & Hd%fresh_dir & H1).
  apply P_bind_Ok in H1 as (_ & s4 & _ & H1). by injection H1 as <- _.
Qed.

Lemma prepareGoalDraftPush_shape r head s x s' : prepareGoalDraftPush r head s = Some (x, s') ->
  R s s' /\ (forall p, x = Ok p -> fresh (p_hooks p) /\ p_args p = goal_push_args r head (p_hooks p)).
Proof.
  assert (along R (map_err (safeGoalPublicationError "push") (prepareExactRefHook head (ExpectedHead r) (gp_Branch r)))) as Hq1.
  { pose proof prepareExactRefHook_quiet. quieted. }
  intros [(hooks & s1 & H1 & H2)|(e & H1 & ->)]%P_bind_inv.
  - assert (fresh hooks) as Hf.
    { unfold map_err in H1. destruct (prepareExactRefHook _ _ _ s) as [[[d|e] s2]|] eqn:E; [| |done]; [|done].
      injection H1 as -> _. by eapply prepareExactRefHook_fresh. }
    apply Hq1 in H1.
    assert (along R (on_error (cleanup r hooks) (map_err (safeGoalPublicationError "token") (take_token r)))) as Hq2.
    { pose proof (cleanup_quiet fresh R). unfold take_token. quieted. }
    apply P_bind_inv in H2 as [(token & s2 & H2 & [= <- <-])|(e & H2 & ->)]; apply Hq2 in H2.
    + split; [by etransitivity|]. by intros p [= <-].
    + split; [by etransitivity | done].
  - split; [by eapply Hq1 | done].
Qed.

Lemma publish_from_shape r prior work s x s' : fresh work -> publish_from r prior work s = Some (x, s') -> shaped r s s'.
Proof.
  intros Hf. unfold publish_from. cbv zeta. pose proof (fresh_below work "candidate" Hf) as Hs.
  assert (along R (freeze r (path_join work "candidate"))) as Hz by (by apply (freeze_quiet fresh)).
  intros [(c & s1 & H1%Hz & H2)|(e & H1%Hz & _)]%caught_inv; [|by apply shaped_quiet].
  eapply shaped_before; [exact H1|]. destruct c as [paths|head tree paths]; [injection H2 as _ <-; by apply shaped_quiet|].
  apply caught_inv in H2 as [(p & s2 & H2 & H3)|(e & H2 & _)]; apply prepareGoalDraftPush_shape in H2 as [Hq Hp]; [|by apply shaped_quiet].
  eapply shaped_before; [exact Hq|]. destruct (Hp p eq_refl) as [Hh Hargs].
  apply finally_inv in H3 as (s3 & y & H3 & Hc). apply (cleanup_quiet fresh R) in Hc; [|done].
  eapply shaped_after; [|exact Hc]. destruct p as [args token hooks]. simpl in Hh, Hargs. subst args. by eapply push_recorded_shape.
Qed.

(** The remote was read, and its branch was at [head]. *)
Definition head_read (L : list (event (B := B))) r (branch head : string) : Prop := exists out,
  Ran (fixed_args (RepoRoot r) ++ ["ls-remote"; goalRemote r; "refs/heads/" +:+ branch]) (Ok out) ∈ L /\
  str_fields (trim_space out) = [head; "refs/heads/" +:+ branch].

Lemma goalGit_log root args out s s' : goalGit root args s = Some (Ok out, s') ->
  exists raw, out = trim_space raw /\ Ran (fixed_args root ++ args) (Ok raw) ∈ log s'.
Proof.
  intros (raw & s1 & H1 & [= <- <-])%P_bind_Ok. exists raw. split; [done|]. unfold map_err, run in H1.
  destruct (exec_git _ _ _) as [[o|e] w]; [|done]. injection H1 as <- <-. by left.
Qed.

Lemma goalRemoteHead_read r branch head s s' : goalRemoteHead r branch s = Some (Ok head, s') -> head_read (log s') r branch head.
Proof.
  intros (out & s1 & H1 & H2)%P_bind_Ok. apply wrap_err_Ok, goalGit_log in H1 as (raw & -> & Hl).
  destruct (str_fields (trim_space raw)) as [|sha [|ref [|]]] eqn:E; try done.
  destruct (String.eqb_spec ref ("refs/heads/" +:+ branch)) as [->|]; [|done]. destruct (shaRE sha); [|done].
  injection H2 as <- <-. by exists raw.
Qed.

(** Nothing was retained, or the retained intent is the expected head of the
    request, and the remote branch is there. *)
Definition unretained r s s' : Prop := exists state s0, Abs (StateDir r) = Ok state /\ R s s0 /\
  file_info (path_join state goalIntentName) (world s0) = NoFile /\ R s0 s'.
Definition resolved r s s' : Prop := exists state s0 s1 data i, Abs (StateDir r) = Ok state /\ R s s0 /\
  host (ReadText (path_join state goalIntentName)) s0 = Some (Ok data, s1) /\ R s1 s' /\
  decode_intent data = Some i /\ differs_from_binding r i = false /\ IntendedHead i = ExpectedHead r /\ head_read (log s') r (gp_Branch r) (IntendedHead i).

Lemma check_intent_inv r state i s s' : check_intent r state s = Some (Ok i, s') -> exists data s1,
  host (ReadText (path_join state goalIntentName)) s = Some (Ok data, s1) /\ R s1 s' /\ decode_intent data = Some i /\
  differs_from_binding r i = false.
Proof.
  intros (data & s1 & H1%replace_err_Ok & H2)%P_bind_Ok. exists data, s1. split; [done|].
  apply P_bind_Ok in H2 as (i' & s2 & H2 & H3). destruct (decode_intent data) as [j|]; [|done]. injection H2 as <- <-.
  apply P_bind_Ok in H3 as (u & s3 & H3 & [= <- <-]). split; [by eapply (check_decoded_quiet fresh R)|]. split; [done|].
  apply P_bind_Ok in H3 as ([] & s2 & [H3 _]%guard_inv & _). done.
Qed.

Lemma readGoalPublicationIntent_inv r o s s' : readGoalPublicationIntent r s = Some (Ok o, s') ->
  match o with
  | None => unretained r s s'
  | Some i => exists state s0 s1 data, Abs (StateDir r) = Ok state /\ R s s0 /\
      host (ReadText (path_join state goalIntentName)) s0 = Some (Ok data, s1) /\ R s1 s' /\ decode_intent data = Some i /\
      differs_from_binding r i = false
  end.
Proof.
  intros (state & s1 & H1 & H2)%P_bind_Ok. apply goalPublicationState_abs in H1 as Ha. apply (goalPublicationState_quiet fresh R) in H1.
  apply P_bind_Ok in H2 as (info & s2 & [= <- <-] & H2).
  destruct (file_info _ (world s1)) eqn:Ef.
  { apply P_bind_Ok in H2 as (b & s2 & [= <- <-] & H2). destruct (file_info (path_join state goalBundleName) (world s1)); [|done..].
    injection H2 as <- <-. by exists state, s1. }
  all: apply P_bind_Ok in H2 as (u & s2 & [_ ->]%of_res_inv & H2);
    apply P_bind_Ok in H2 as (i & s3 & (data & s4 & H2 & H3 & H4 & H5)%check_intent_inv & [= <- <-]);
    by exists state, s1, s4, data.
Qed.

Lemma ReconcileGoalPublication_inv r prior s s' :
  ReconcileGoalPublication r s = Some (Ok (prior, None), s') -> adopts r prior = false -> unretained r s s' \/ resolved r s s'.
Proof.
  unfold ReconcileGoalPublication, reconcileGoalPublication. generalize (now (world s)) as moment. intros moment.
  intros [(u & s1 & H1%(goalBinding_quiet fresh R) & H2)|(e & _ & [=])]%caught_inv Had.
  apply caught_inv in H2 as [(o & s2 & H2 & H3)|(e & _ & [=])]. apply readGoalPublicationIntent_inv in H2.
  destruct o as [i|]; [right|left].
  - apply caught_inv in H3 as [(v & s3 & H3 & [= <- <-])|(e & _ & [=])]. cbn in Had.
    apply negb_false_iff, String.eqb_eq in Had.
    destruct H2 as (state & s4 & s5 & data & Ha & Hq & Hr & Hq2 & Hd & Hb). exists state, s4, s5, data, i.
    assert (R s2 s3) as Hq3 by (by eapply (observe_intent_quiet fresh R)).
    split; [done|]. split; [by etransitivity|]. split; [done|]. split; [by etransitivity|]. split; [done|]. split; [done|]. split; [done|].
    apply P_bind_Ok in H3 as (u1 & s6 & H6%of_res_inv & H3). apply P_bind_Ok in H3 as (actual & s7 & H7%wrap_err_Ok & H3).
    apply goalRemoteHead_read in H7 as (out & Hl & Hf). apply P_bind_Ok in H3 as (u2 & s8 & H8 & H3).
    destruct u2. apply guard_inv in H8 as [H8%negb_false_iff%String.eqb_eq ->]. subst actual. exists out. split; [|done].
    assert (R s7 s3) as Hq4; [|by apply (quiet_log _ _ Hq4)].
    eapply run_quiet; [|exact H3]. pose proof (goalCurrentAuthority_quiet fresh R). unfold check_commit. quieted.
  - injection H3 as _ <-. destruct H2 as (state & s3 & Ha & Hq & Hf & Hq2). exists state, s3. split; [done|].
    split; [by etransitivity | done].
Qed.

Lemma unretained_quiet r s s' : unretained r s s' -> R s s'.
Proof. intros (state & s0 & _ & H1 & _ & H2). by etransitivity. Qed.
Lemma resolved_quiet r s s' : resolved r s s' -> R s s'.
Proof.
  intros (state & s0 & s1 & data & i & _ & H1 & H2 & H3 & _). etransitivity; [exact H1|]. etransitivity; [|exact H3].
  by eapply host_quiet.
Qed.

(** Every run of the append. *)
Lemma AppendGoalDraft_shape r s x s' : AppendGoalDraft r s = Some (x, s') ->
  R s s' \/ exists s1, (unretained r s s1 \/ resolved r s s1) /\ shaped r s1 s'.
Proof.
  intros [(u & s1 & H1%(goalBinding_quiet fresh R) & H2)|(e & H1%(goalBinding_quiet fresh R) & _)]%caught_inv; [|by left].
  apply P_bind_inv in H2 as [([prior err] & s2 & H2 & H3)|(e & H2%(ReconcileGoalPublication_quiet fresh R) & _)]; [|left; by etransitivity].
  assert (R s1 s2) as Hq by (by eapply (ReconcileGoalPublication_quiet fresh R)).
  destruct err as [e|]; [injection H3 as _ <-; left; by etransitivity|].
  destruct (adopts r prior) eqn:Ha; [injection H3 as _ <-; left; by etransitivity|].
  right. exists s2. split.
  - apply ReconcileGoalPublication_inv in H2 as [(state & s3 & ? & ? & ?)|(state & s3 & s4 & data & i & ? & ? & ?)]; [left|right|done].
    + exists state, s3. split; [done|]. split; [by etransitivity | done].
    + exists state, s3, s4, data, i. split; [done|]. split; [by etransitivity | done].
  - unfold append_new in H3. apply caught_inv in H3 as [(v & s3 & H3%(goalCurrent_quiet fresh R) & H4)|(e & H3%(goalCurrent_quiet fresh R) & _)];
      [|by apply shaped_quiet]. eapply shaped_before; [exact H3|].
    assert (along R (replace_err (new_error "verified snapshot is not clean") (AssertCleanIn (CandidateDir r)))) as Hc.
    { unfold AssertCleanIn. quieted. }
    apply caught_inv in H4 as [(w & s4 & H4%Hc & H5)|(e & H4%Hc & _)]; [|by apply shaped_quiet]. eapply shaped_before; [exact H4|].
    apply caught_inv in H5 as [(work & s5 & H5 & H6)|(e & H5 & _)]; apply host__inv in H5 as (y & H5 & Hy & _);
      apply (host_quiet (MkdirTemp _)) in H5 as Hq5; try exact I; [|by apply shaped_quiet].
    eapply shaped_before; [exact Hq5|]. rewrite (Hy _ eq_refl) in H5. apply fresh_dir in H5.
    apply finally_inv in H6 as (s6 & z & H6 & H7). apply (remove_all_quiet fresh R) in H7; [|done].
    eapply shaped_after; [|exact H7]. by eapply publish_from_shape.
Qed.
End shape.

(** * One run *)

Section run.
Context {W : Type} {B : Boundary W} {H : Host W} {C : IntentCodec}.
Implicit Types (r : GoalPublicationRequest) (s : flow (B := B)).

(** Steps that change nothing outside the host. *)
Definition no_effect s s' : Prop := exists l, log s' = l ++ log s /\ Forall (fun e => effect e = false) l.

#[export] Instance no_effect_order : PreOrder no_effect.
Proof.
  split; [intros s; by exists []|]. intros s1 s2 s3 (l1 & E1 & F1) (l2 & E2 & F2). exists (l2 ++ l1).
  rewrite E2, E1, app_assoc. split; [done | by apply Forall_app].
Qed.

Lemma emits_no_effect {A} (m : P (B := B) A) : emits (fun e => effect e = false) m -> along no_effect m.
Proof. intros Hm s x s' E. by eapply Hm. Qed.

#[export] Instance no_effect_quiet : Quiet (fun _ => True) no_effect.
Proof.
  split; try done.
  - apply _.
  - intros s s' (l & -> & _). set_solver.
  - intros args input Hc. apply emits_no_effect, emits_run. intros out. simpl. by apply String.eqb_neq.
  - intros path. by apply emits_no_effect, emits_request.
  - intros req. by apply emits_no_effect, emits_resolve.
  - intros call Hc. apply along_host. intros s. eexists [_]. split; [done|]. constructor; [|constructor].
    destruct call; try done; simpl in *; by apply String.eqb_neq.
Qed.

Lemma host_log call s x s' : host call s = Some (x, s') -> log s' = Performed call x :: log s.
Proof. unfold host. destruct (perform call (world s)). by intros [= <- <-]. Qed.

Lemma installing_log state data s s2 y : installing (fun _ => True) no_effect state data s s2 y ->
  exists tmp u l, log s2 = Performed (Rename tmp (path_join state goalIntentName)) y ::
      Performed (WriteSynced tmp (data +:+ String (byte 10) "")) (Ok u) :: l ++ log s /\ Forall (fun e => effect e = false) l.
Proof.
  intros [(tmp & u & s0 & s1 & (l & E0 & F0) & _ & H1%host_log & H2%host_log)]. exists tmp, u, l. by rewrite H2, H1, E0.
Qed.

(** The intent [i] was written, put in place and synced, in that order, and the
    rest had no effect outside the host. *)
Definition recorded (l : list (event (B := B))) r (i : GoalPublicationIntent) : Prop :=
  exists state data tmp u v w l1 l2 l3, Abs (StateDir r) = Ok state /\ encode_intent i = Ok data /\
    l = l1 ++ Performed (SyncDir state) (Ok w) :: l2 ++
        Performed (Rename tmp (path_join state goalIntentName)) (Ok v) ::
        Performed (WriteSynced tmp (data +:+ String (byte 10) "")) (Ok u) :: l3 /\
    Forall (fun e => effect e = false) l.

(** One run of the append changes the remote at most once, by the one push of a new head on the bound branch, and only after the intent of exactly that head - with the expected head as its parent - was written, renamed into place and synced; a failed push is not tried again, and nothing else has an effect outside the host. *)
Theorem AppendGoalDraft_push_recorded r s x s' (E : AppendGoalDraft r s = Some (x, s')) :
  exists l, log s' = l ++ log s /\
    (Forall (fun e => effect e = false) l \/
     exists after before head hooks token out i, l = after ++ Performed (PushGit (goal_push_args r head hooks) token) out :: before /\
       Forall (fun e => effect e = false) after /\ recorded before r i /\
       IntendedHead i = head /\ in_PreviousHead i = ExpectedHead r).
Proof.
  apply (AppendGoalDraft_shape (fun _ => True) no_effect) in E as [(l & El & Fl)|(s1 & Hs & E)]; [by exists l; eauto|].
  assert (no_effect s s1) as H0 by (destruct Hs as [Hs|Hs];
    [exact (unretained_quiet (fun _ => True) no_effect r s s1 Hs) | exact (resolved_quiet (fun _ => True) no_effect r s s1 Hs)]).
  apply (shaped_before (fun _ => True) no_effect r s s1 s' H0) in E. clear s1 H0 Hs.
  destruct E as [(l & El & Fl)|head state commit tree digest data y s2 _ _ Hi Hq|head state commit tree digest data v s2 s3 Ha Hd Hi Hs Hp].
  - exists l. eauto.
  - apply installing_log in Hi as (tmp & u & l & El & Fl). destruct Hq as (l2 & E2 & F2).
    exists (l2 ++ Performed (Rename tmp (path_join state goalIntentName)) y ::
      Performed (WriteSynced tmp (data +:+ String (byte 10) "")) (Ok u) :: l).
    split; [by rewrite E2, El, <- app_assoc|]. left. apply Forall_app. split; [done|]. by repeat constructor.
  - apply installing_log in Hi as (tmp & u & l & El & Fl). destruct Hs as (w & s4 & s5 & (l4 & E4 & F4) & Hh%host_log & (l5 & E5 & F5)).
    destruct Hp as (hooks & token & out & s6 & s7 & (l6 & E6 & F6) & Hp%host_log & (l7 & E7 & F7)).
    exists (l7 ++ Performed (PushGit (goal_push_args r head hooks) token) out :: l6 ++ l5 ++ Performed (SyncDir state) (Ok w) :: l4 ++
      Performed (Rename tmp (path_join state goalIntentName)) (Ok v) :: Performed (WriteSynced tmp (data +:+ String (byte 10) "")) (Ok u) :: l).
    split; [rewrite E7, Hp, E6, E5, Hh, E4, El; repeat (rewrite <- app_assoc; cbn [app]); done|]. right.
    eexists l7, _, head, hooks, token, out, (intent_of r head commit tree digest). split; [reflexivity|]. split; [done|].
    split; [|done]. exists state, data, tmp, u, v, w, (l6 ++ l5), l4, l. split; [done|]. split; [done|].
    split; [by rewrite <- app_assoc|]. repeat (apply Forall_app; split; [done|]).
    constructor; [done|]. apply Forall_app. split; [done|]. by repeat constructor.
Qed.
End run.

(** The run on the desk makes one push, after three steps of its intent. *)
Example desk_pushes : length (List.filter effect (log desk_after)) = 1.
Proof. vm_compute. reflexivity. Qed.

Lemma AppendGoalDraft_push_recorded_witness :
  exists l, log desk_after = l ++ [] /\
    (Forall (fun e => effect e = false) l \/
     exists after before head hooks token out i,
       l = after ++ Performed (PushGit (goal_push_args (desk_goal desk_old) head hooks) token) out :: before /\
       Forall (fun e => effect e = false) after /\ recorded before (desk_goal desk_old) i /\
       IntendedHead i = head /\ in_PreviousHead i = desk_old).
Proof.
  destruct desk_appends as (p & E). exact (AppendGoalDraft_push_recorded (desk_goal desk_old) (start_desk empty_desk) _ desk_after E).
Defined.

(** * Runs after runs *)

(** A host that keeps the retained intent: only a rename onto its path changes
    it, to what the renamed file holds or, when it fails, not at all; a missing
    file means there is none, and a read returns it.  Temporary paths are
    nobody else's. *)
Class HonestStore {W} {B : Boundary W} {H : Host W} {C : IntentCodec} (state : string) := {
  stored : W -> option string;
  temporary : string -> Prop;
  stored_git args input w : stored (exec_git args input w).2 = stored w;
  stored_api method path body w : stored (Request method path body w).2 = stored w;
  stored_call call w : harmless temporary call -> stored (perform call w).2 = stored w;
  stored_push args token w : stored (perform (PushGit args token) w).2 = stored w;
  stored_absent w : file_info (path_join state goalIntentName) w = NoFile -> stored w = None;
  stored_read w data w' : perform (ReadText (path_join state goalIntentName)) w = (Ok data, w') -> stored w = Some data;
  stored_replaced tmp data w u w1 v w2 : perform (WriteSynced tmp data) w = (Ok u, w1) ->
    perform (Rename tmp (path_join state goalIntentName)) w1 = (Ok v, w2) -> stored w2 = Some data;
  stored_kept tmp w e w' : perform (Rename tmp (path_join state goalIntentName)) w = (Err e, w') -> stored w' = stored w;
  temporary_file dir pattern w q w' : perform (CreateTemp dir pattern) w = (Ok q, w') -> temporary q;
  temporary_dir pattern w q w' : perform (MkdirTemp pattern) w = (Ok q, w') -> temporary q;
  temporary_below q name : temporary q -> temporary (path_join q name);
  stored_codec i data : encode_intent i = Ok data -> decode_intent (data +:+ String (byte 10) "") = Some i
}.

Section runs.
Context {W : Type} {B : Boundary W} {H : Host W} {C : IntentCodec} (state : string) {HS : HonestStore state}.
Implicit Types (r : GoalPublicationRequest) (s : flow (B := B)).

Definition keeping s s' : Prop := no_effect s s' /\ stored (world s') = stored (world s).

#[local] Instance keeping_order : PreOrder keeping.
Proof.
  split; [intros s; split; [reflexivity | done]|]. intros s1 s2 s3 [H1 E1] [H2 E2]. split; [by etransitivity | congruence].
Qed.

Lemma along_keeping {A} (m : P (B := B) A) : along no_effect m ->
  (forall s x s', m s = Some (x, s') -> stored (world s') = stored (world s)) -> along keeping m.
Proof. intros Hm Hk s x s' E. split; [by eapply Hm | by eapply Hk]. Qed.

#[export] Instance keeping_quiet : Quiet temporary keeping.
Proof.
  split.
  - apply _.
  - intros s s' [Hq _]. by apply (quiet_log (Quiet := no_effect_quiet)).
  - intros args input Hc. apply along_keeping; [by apply (quiet_run (Quiet := no_effect_quiet))|]. intros s x s'. unfold run.
    pose proof (stored_git args input (world s)) as E. destruct (exec_git args input (world s)). by intros [= <- <-].
  - intros path. apply along_keeping; [by apply (quiet_get (Quiet := no_effect_quiet))|]. intros s x s'. unfold request, ask.
    pose proof (stored_api "GET" path None (world s)) as E. destruct (Request _ _ _ (world s)). by intros [= <- <-].
  - intros req. apply along_keeping; [by apply (quiet_resolve (Quiet := no_effect_quiet))|]. by intros s x s' [= <- <-].
  - intros call Hc. apply along_keeping.
    + apply (quiet_host (Quiet := no_effect_quiet)). destruct call; naive_solver.
    + intros s x s'. unfold host. pose proof (stored_call call (world s) Hc) as E. destruct (perform call (world s)). by intros [= <- <-].
  - intros dir pattern s q s'. unfold host. destruct (perform _ _) eqn:E. intros [= -> <-]. by eapply temporary_file.
  - intros pattern s q s'. unfold host. destruct (perform _ _) eqn:E. intros [= -> <-]. by eapply temporary_dir.
  - apply temporary_below.
Qed.

Lemma along_host_world call s x s' : host call s = Some (x, s') -> perform call (world s) = (x, world s').
Proof. unfold host. destruct (perform call (world s)) eqn:E. by intros [= <- <-]. Qed.

(** The retained intent is the one that was written. *)
Definition retains (i : GoalPublicationIntent) s : Prop := exists data, encode_intent i = Ok data /\
  stored (world s) = Some (data +:+ String (byte 10) "").

Lemma installing_stored data s s2 y : installing temporary keeping state data s s2 y ->
  match y with
  | Ok _ => stored (world s2) = Some (data +:+ String (byte 10) "")
  | Err _ => stored (world s2) = stored (world s)
  end.
Proof.
  intros [(tmp & u & s0 & s1 & [_ E0] & Ht & H1%along_host_world & H2%along_host_world)]. destruct y as [v|e].
  - by eapply stored_replaced.
  - rewrite (stored_kept _ _ _ _ H2), <- E0. pose proof (stored_call (WriteSynced tmp (data +:+ String (byte 10) "")) (world s0) Ht) as E.
    by rewrite H1 in E.
Qed.

(** Any number of runs of the append by anybody who keeps this state directory,
    while everybody else may change the world but not the retained intent. *)
Inductive runs s0 : flow (B := B) -> Prop :=
| runs_none : runs s0 s0
| runs_append r x s s' : runs s0 s -> Abs (StateDir r) = Ok state -> AppendGoalDraft r s = Some (x, s') -> runs s0 s'
| runs_others s w : runs s0 s -> stored w = stored (world s) -> runs s0 {| world := w; log := log s |}.

(** [i] continues [j]: the same draft, on top of the head [j] intended, which the
    remote was seen at. *)
Definition continues (L : list (event (B := B))) (i j : GoalPublicationIntent) : Prop :=
  in_PreviousHead i = IntendedHead j /\ in_Branch i = in_Branch j /\ in_Repository i = in_Repository j /\
  in_Number i = in_Number j /\ in_Target i = in_Target j /\ exists r, head_read L r (in_Branch j) (IntendedHead j).

Fixpoint chained L (chain : list GoalPublicationIntent) : Prop :=
  match chain with
  | i :: (j :: _) as rest => continues L i j /\ chained L rest
  | _ => True
  end.

(** What a push publishes. *)
Definition push_of (e : event (B := B)) : option string :=
  match e with Performed (PushGit args _) _ => Some (List.last args "") | _ => None end.
Definition published (i : GoalPublicationIntent) : string := IntendedHead i +:+ ":refs/heads/" +:+ in_Branch i.

Definition latest (chain : list GoalPublicationIntent) s : Prop :=
  match chain with [] => stored (world s) = None | i :: _ => retains i s end.

Lemma latest_same chain s s' : stored (world s') = stored (world s) -> latest chain s -> latest chain s'.
Proof.
  intros E. destruct chain as [|i chain]; cbn; [congruence|]. intros (data & Hd & Es). exists data. split; [done | congruence].
Qed.

Lemma chained_mono L L' chain : L ⊆ L' -> chained L chain -> chained L' chain.
Proof.
  intros HL. induction chain as [|i [|j chain] IH]; [done..|]. intros [(? & ? & ? & ? & ? & r & out & Ho & Hf) Hc].
  split; [|by apply IH]. repeat (split; [done|]). exists r, out. split; [by apply HL | done].
Qed.

(** The pushes of a stretch of the log, newest first. *)
Definition adds (ps : list string) s s' : Prop := exists l, log s' = l ++ log s /\ omap push_of l = ps.

Lemma adds_trans ps qs s1 s2 s3 : adds ps s1 s2 -> adds qs s2 s3 -> adds (qs ++ ps) s1 s3.
Proof. intros (l1 & E1 & <-) (l2 & E2 & <-). exists (l2 ++ l1). rewrite E2, E1, app_assoc, omap_app. done. Qed.

Lemma no_effect_adds s s' : no_effect s s' -> adds [] s s'.
Proof.
  intros (l & El & Fl). exists l. split; [done|]. clear El. induction Fl as [|e l He _ IH]; [done|].
  cbn. destruct e as [| | | | |[] ]; done.
Qed.

Lemma host_adds call x s s' : host call s = Some (x, s') -> adds (option_list (push_of (Performed call x))) s s'.
Proof. intros E%host_log. exists [Performed call x]. split; [done|]. by destruct call. Qed.

Lemma push_args_last r head hooks : List.last (goal_push_args r head hooks) "" = head +:+ ":refs/heads/" +:+ gp_Branch r.
Proof. unfold goal_push_args. by destruct (has_token r). Qed.

Lemma installing_adds data s s2 y : installing temporary keeping state data s s2 y -> adds [] s s2.
Proof.
  intros [(tmp & u & s0 & s1 & [Hq _] & _ & H1%host_adds & H2%host_adds)].
  apply (adds_trans [] [] s s1); [apply (adds_trans [] [] s s0); [by apply no_effect_adds | done] | done].
Qed.

(** What a run adds to the chain of intents and to the pushes. *)
Definition extends r s s' : Prop :=
  (stored (world s') = stored (world s) /\ adds [] s s') \/
  exists head commit tree digest ps, let i := intent_of r head commit tree digest in
    retains i s' /\ adds ps s s' /\ (ps = [] \/ ps = [published i]).

Lemma keeping_extends r s s' : keeping s s' -> extends r s s'.
Proof. intros [Hq E]. left. split; [done | by apply no_effect_adds]. Qed.

Lemma synced_keeping s s' : synced keeping state s s' -> keeping s s'.
Proof.
  intros (v & s1 & s2 & H1 & H2 & H3). etransitivity; [exact H1|]. etransitivity; [|exact H3].
  by apply (host_quiet temporary keeping (SyncDir state) s1 (Ok v)).
Qed.

Lemma shaped_extends r s s' : Abs (StateDir r) = Ok state -> shaped temporary keeping r s s' -> extends r s s'.
Proof.
  intros Ha [Hq|head st commit tree digest data y s2 Ha' Hd Hi [Hq Es]|head st commit tree digest data v s2 s3 Ha' Hd Hi Hs Hp];
    [by apply keeping_extends | |]; rewrite Ha in Ha'; injection Ha' as <-;
    pose proof (installing_stored _ _ _ _ Hi) as Est; pose proof (installing_adds _ _ _ _ Hi) as Ad.
  - assert (adds [] s s') as Had by (apply (adds_trans [] [] s s2); [done | by apply no_effect_adds]).
    destruct y as [v|e]; [right | left; split; [congruence | done]].
    exists head, commit, tree, digest, []. split; [exists data; split; [done | congruence]|]. split; [done | by left].
  - right. apply synced_keeping in Hs as [Hq Es]. destruct Hp as (hooks & token & out & s4 & s5 & [Hq1 E1] & Hp & [Hq2 E2]).
    exists head, commit, tree, digest, [published (intent_of r head commit tree digest)].
    assert (stored (world s5) = stored (world s4)) as E3.
    { apply along_host_world in Hp. pose proof (stored_push (goal_push_args r head hooks) token (world s4)) as E. by rewrite Hp in E. }
    split; [exists data; split; [done | congruence]|]. split; [|by right].
    apply host_adds in Hp. cbn [push_of] in Hp. rewrite push_args_last in Hp.
    apply no_effect_adds in Hq, Hq1, Hq2. exact (adds_trans _ _ _ _ _ (adds_trans _ _ _ _ _ (adds_trans _ _ _ _ _ (adds_trans _ _ _ _ _ Ad Hq) Hq1) Hp) Hq2).
Qed.

(** The intent that is retained when a run goes on is the one the request continues. *)
Lemma resolved_continues r s s1 j head commit tree digest : Abs (StateDir r) = Ok state ->
  unretained keeping r s s1 \/ resolved keeping r s s1 -> retains j s ->
  continues (log s1) (intent_of r head commit tree digest) j.
Proof.
  intros Ha [(st & s0 & Ha' & [_ E0] & Hf & _)|(st & s0 & s2 & data & i & Ha' & [_ E0] & Hr & _ & Hd & Hb & Hh & Hread)] (dj & Hj & Ej);
    rewrite Ha in Ha'; injection Ha' as <-.
  - apply stored_absent in Hf. congruence.
  - apply along_host_world, stored_read in Hr. assert (data = dj +:+ String (byte 10) "") as -> by congruence.
    rewrite (stored_codec _ _ Hj) in Hd. injection Hd as <-. unfold differs_from_binding in Hb. rewrite !orb_false_iff in Hb.
    destruct_and!. reflect_bools.
    repeat match goal with E : String.eqb _ _ = true |- _ => apply String.eqb_eq in E | E : Z.eqb _ _ = true |- _ => apply Z.eqb_eq in E end.
    unfold continues, intent_of. cbn. repeat (split; [congruence|]). exists r. congruence.
Qed.

Lemma unretained_keeping r s s1 : unretained keeping r s s1 \/ resolved keeping r s s1 -> keeping s s1.
Proof.
  intros [Hr|Hr]; [exact (unretained_quiet temporary keeping r s s1 Hr) | exact (resolved_quiet temporary keeping r s s1 Hr)].
Qed.

(** A run leaves the intents and the pushes as they are, or adds an intent that
    continues the retained one, and at most the push of its head. *)
Lemma AppendGoalDraft_extends r s x s' : Abs (StateDir r) = Ok state -> AppendGoalDraft r s = Some (x, s') ->
  (stored (world s') = stored (world s) /\ adds [] s s') \/
  exists i ps, retains i s' /\ adds ps s s' /\ (ps = [] \/ ps = [published i]) /\
    (forall j, retains j s -> continues (log s') i j).
Proof.
  intros Ha [[Hq E]|(s1 & Hres & Hsh)]%(AppendGoalDraft_shape temporary keeping); [left; split; [done | by apply no_effect_adds]|].
  pose proof (unretained_keeping r s s1 Hres) as [Hq E].
  apply shaped_extends in Hsh as [[E' Had]|(head & commit & tree & digest & ps & Hr & Had & Hps)]; [| |done].
  - left. split; [congruence|]. by apply (adds_trans [] [] s s1); [apply no_effect_adds|].
  - right. exists (intent_of r head commit tree digest), ps. split; [done|]. split; [|split; [done|]].
    + rewrite <- (app_nil_r ps). apply (adds_trans [] ps s s1); [by apply no_effect_adds | done].
    + intros j Hj. pose proof (resolved_continues r s s1 j head commit tree digest Ha Hres Hj) as Hc.
      destruct Hc as (? & ? & ? & ? & ? & r' & out & Ho & Hf). repeat (split; [done|]). exists r', out. split; [|done].
      destruct Had as (l & -> & _). set_solver.
Qed.

(** C19: Whoever keeps the state directory of a goal never replays a push: over any number of runs of the append, with anything happening to the world in between, the retained intents form one chain - each with the head the previous one intended as its parent, for the same draft, and only after the remote branch was seen at that head - and the pushes are, in order, heads of distinct intents of that chain. *)
Theorem runs_never_replay s0 s (E0 : stored (world s0) = None) (E : runs s0 s) :
  exists chain l, log s = l ++ log s0 /\ chained (log s) chain /\ latest chain s /\
    sublist (omap push_of l) (map published chain).
Proof.
  induction E as [|r x s s' _ (chain & l & El & Hc & Hl & Hp) Ha E|s w _ (chain & l & El & Hc & Hl & Hp) Ew].
  - exists [], []. done.
  - apply AppendGoalDraft_extends in E as [[Es (k & Ek & Ep)]|(i & ps & Hr & (k & Ek & Ep) & Hps & Hcont)]; [| |done].
    + exists chain, (k ++ l). split; [by rewrite Ek, El, app_assoc|]. split; [eapply chained_mono; [|exact Hc]; rewrite Ek; set_solver|].
      split; [by eapply latest_same|]. by rewrite omap_app, Ep.
    + exists (i :: chain), (k ++ l). split; [by rewrite Ek, El, app_assoc|]. split; [|split; [done|]].
      * destruct chain as [|j chain]; [done|]. split; [by apply Hcont|]. eapply chained_mono; [|exact Hc]. rewrite Ek. set_solver.
      * rewrite omap_app, Ep. destruct Hps as [->| ->]; [by apply sublist_cons | by apply sublist_skip].
  - exists chain, l. split; [done|]. split; [done|]. split; [|done].
    by eapply latest_same.
Qed.
End runs.

(** ** The desk keeps its intent *)

Lemma desk_bundle_name st : path_join st goalBundleName <> path_join "/state" goalIntentName.
Proof.
  destruct (path_join_last st goalBundleName) as (d & ->); [split; [reflexivity | set_solver]|]. intros E.
  pose proof (has_suffix_app d goalBundleName) as Hs. rewrite E in Hs. vm_compute in Hs. done.
Qed.

#[export] Instance desk_store : HonestStore (H := desk_host) "/state".
Proof.
  refine {| stored := desk_intent; temporary := fun _ => True |}; try done.
  - intros args input w. cbn. destruct (String.eqb _ _); [|done]. unfold desk_push. by destruct (has_suffix _ _).
  - intros method path body w. cbn. unfold desk_request. by destruct (String.eqb method "GET").
  - intros [] w Hc; try done. cbn. destruct Hc as [_ (st & ->)].
    destruct (String.eqb_spec (path_join st goalBundleName) "/state/publication-intent.json") as [E|]; [|done].
    by destruct (desk_bundle_name st).
  - intros args token w. cbn. unfold desk_push. by destruct (has_suffix _ _).
  - intros w. cbn. by destruct (desk_intent w).
  - intros w data w'. cbn. destruct (desk_intent w); [by intros [= -> _] | done].
  - intros tmp data w u w1 v w2 [= _ <-] [= _ <-]. done.
  - apply desk_codec_ok.
Defined.

(** Two runs: the second one finds the intent of the first, and adopts its head. *)
Definition desk_again := AppendGoalDraft (H := desk_host) (desk_goal desk_old) desk_after.
Example desk_adopts : match desk_again with
  | Some (Ok (p, None), s) => GoalPublication.Head p = desk_new /\ length (List.filter effect (log s)) = 1
  | _ => False end.
Proof. vm_compute. done. Qed.

Lemma runs_never_replay_witness : exists chain l, log desk_after = l ++ [] /\ chained (log desk_after) chain /\
  latest (H := desk_host) "/state" chain desk_after /\ sublist (omap push_of l) (map published chain).
Proof.
  destruct desk_appends as (p & E).
  refine (runs_never_replay (H := desk_host) "/state" (start_desk empty_desk) desk_after eq_refl _).
  eapply (runs_append "/state" _ (desk_goal desk_old)); [apply runs_none | reflexivity | exact E].
Defined.

