(* ===== verification/GoalDiagnostics.v ===== *)
(** The diagnostics of a verification: records in a bounded file with every
    configured secret redacted, and the output of commands cut into records.  No
    cut splits a secret when the secrets have no brackets, end where runes end,
    and overlap in the output only with one inside the other; the last example
    splits one of two that overlap otherwise.  [goalDiagnostics] and [goalOutput]
    of [goal_verify.go] ([src/codexsdk/internal/protocolsync]).

    The environment is a list of entries; [json.Marshal] is a parameter. *)

From Stdlib Require Import Ascii.
From S2P Require Import Prelude GoStrings Policy Scope Resolve PublicationText Checks Boundary Inspection Goal.

Local Open Scope string_scope.
Local Open Scope list_scope.

(** * Records *)

Definition goalDiagnosticLimit : Z := 16 * 1024 * 1024.

(** What a record holds: what [scrub] looks into, and the rest by its JSON. *)
Inductive dvalue :=
| DString (s : string) | DStrings (l : list string) | DList (l : list dvalue) | DMap (l : list (string * dvalue))
| DOther (json : string).

Record goalDiagnostics := { d_file : string; d_bytes : Z; d_err : option error; secrets : list string; keep : nat }.

Definition failed (e : error) (d : goalDiagnostics) : goalDiagnostics := {|
  d_file := d_file d; d_bytes := d_bytes d; d_err := Some e; secrets := secrets d; keep := keep d |}.
Definition wrote (n : Z) (d : goalDiagnostics) : goalDiagnostics := {|
  d_file := d_file d; d_bytes := d_bytes d + n; d_err := d_err d; secrets := secrets d; keep := keep d |}.

(** [strings.Cut(entry, "=")] *)
Definition cut_entry (entry : string) : string * string :=
  match index_byte "="%char entry with Some i => (str_take i entry, str_drop (S i) entry) | None => (entry, "") end.

Definition is_secret (entry : string) : bool :=
  let '(name, value) := cut_entry entry in
  (8 <=? String.length value)%nat &&
  (contains "KEY" name || contains "TOKEN" name || contains "SECRET" name || String.eqb name "CODEX_RESPONSES_API_ENDPOINT").

(** The longest first; equal lengths come in the order of the environment. *)
Definition longer (a b : string) : bool := (String.length b <=? String.length a)%nat.

Definition utf8_max := 4.
Definition configured_secrets (environ : list string) : list string :=
  sort_by longer (map (fun e => (cut_entry e).2) (List.filter is_secret environ)).
Definition kept (l : list string) : nat := foldr (fun s n => Nat.max (String.length s) n) utf8_max l.

Definition redact (l : list string) (s : string) : string := fold_left (fun s secret => replace_all s secret "[redacted]") l s.

Fixpoint scrub (l : list string) (v : dvalue) : dvalue :=
  match v with
  | DString s => DString (redact l s)
  | DStrings x => DStrings (map (redact l) x)
  | DList x => DList (map (scrub l) x)
  | DMap x => DMap (map (fun kv => (redact l kv.1, scrub l kv.2)) x)
  | DOther _ => v
  end.

(** * The output of a command *)

(** Whether a byte starts a rune: not [10xxxxxx]. *)
Definition rune_start (c : ascii) : bool := let n := nat_of_ascii c in negb ((128 <=? n)%nat && (n <? 192)%nat).

(** [strings.Index]; [None] is -1. *)
Fixpoint index (sub s : string) : option nat :=
  if has_prefix sub s then Some O else match s with EmptyString => None | String _ s' => S <$> index sub s' end.

(** The occurrences of a secret from left to right, none inside another: the
    first that crosses [n] moves it to its start. *)
Fixpoint avoid (fuel : nat) (secret s : string) (start n : nat) : nat :=
  match fuel with
  | O => n
  | S fuel =>
    match index secret (str_drop start s) with
    | None => n
    | Some at_ =>
      let at_ := start + at_ in
      let n := if (at_ <? n)%nat && (n <? at_ + String.length secret)%nat then at_ else n in
      avoid fuel secret s (at_ + String.length secret) n
    end
  end.

Fixpoint back_to_rune (s : string) (n : nat) : nat :=
  match n with
  | O => O
  | S m => match String.get n s with
           | Some c => if rune_start c then n else back_to_rune s m
           | None => n
           end
  end.

(** How much of the pending text goes into a record now. *)
Definition cut_at (l : list string) (keep : nat) (final : bool) (tail : string) : nat :=
  if final then String.length tail
  else
    let n := String.length tail - keep in
    if (n =? 0)%nat then O
    else back_to_rune tail (fold_left (fun n secret => avoid (S (String.length tail)) secret tail 0 n) l n).

(** [flush]: the text of the record, and what is left. *)
Definition flush (l : list string) (keep : nat) (final : bool) (tail : string) : option string * string :=
  let n := cut_at l keep final tail in
  if (0 <? n)%nat then (Some (str_take n tail), str_drop n tail) else (None, tail).

(** The texts recorded for the writes of a command, the last flush included. *)
Fixpoint recorded_output (l : list string) (keep : nat) (tail : string) (writes : list string) : list string :=
  match writes with
  | [] => option_list (flush l keep true tail).1
  | p :: writes =>
    let '(piece, tail) := flush l keep false (tail +:+ p) in
    option_list piece ++ recorded_output l keep tail writes
  end.

(** [json.Marshal], and a stream of JSON values: the length and the value of each
    record, up to one that cannot be decoded. *)
Class DiagnosticsCodec := {
  marshal : dvalue -> res string;
  records_of : string -> list (option (Z * option dvalue))
}.

Section diagnostics.
Context {W : Type} {B : Boundary W} {H : Host W} {C : DiagnosticsCodec}.

Definition diagnostics_of (file : string) (environ : list string) : goalDiagnostics := {|
  d_file := file; d_bytes := 0; d_err := None; secrets := configured_secrets environ;
  keep := kept (configured_secrets environ) |}.

Definition newGoalDiagnostics (environ : list string) (dir : string) : P (B := B) goalDiagnostics :=
  file ← host (CreateTemp dir "verification-*.jsonl");
  let d := diagnostics_of file environ in
  if negb (String.eqb (redact (secrets d) file) file)
  then (_ ← attempt (host (Close file)); _ ← attempt (host (RemoveFile file)); fail (new_error "diagnostic path contains configured secret"))
  else mret d.

(** [record]: after an error nothing is written any more, and the count of bytes
    is not used. *)
Definition record (kind gate : string) (value : list (string * dvalue)) (d : goalDiagnostics) : P (B := B) goalDiagnostics :=
  match d_err d with
  | Some _ => mret d
  | None =>
    match marshal (scrub (secrets d) (DMap (value ++ [("kind", DString kind); ("gate", DString gate)]))) with
    | Err e => mret (failed e d)
    | Ok text =>
      let line := text +:+ String (byte 10) "" in
      let size := Z.of_nat (String.length line) in
      if (goalDiagnosticLimit <? d_bytes d + size)%Z
      then mret (failed (new_error "16 MiB diagnostic limit exceeded; evidence incomplete") d)
      else
        out ← attempt (host (AppendText (d_file d) line));
        mret (match out with Ok _ => wrote size d | Err e => failed e d end)
    end
  end.

Definition record_output (gate text : string) (d : goalDiagnostics) : P (B := B) goalDiagnostics :=
  record "output" gate [("trust", DString "untrusted_command_output"); ("output", DString text)] d.
End diagnostics.

(** * Occurrences of secrets *)

Definition texts (l : list string) : string := foldr String.append "" l.

(** [x] occurs in [s] at position [i]. *)
Definition occ (x s : string) (i : nat) : Prop := has_prefix x (str_drop i s) = true.

(** No occurrence of [x] in [s] goes through position [n]. *)
Definition uncrossed (x s : string) (n : nat) : Prop := forall i, occ x s i -> ~ (i < n < i + String.length x).

(** After an occurrence the text goes on with a rune: so it is when the secret
    and the text are whole runes. *)
Definition followed (x s : string) : Prop :=
  forall i c, occ x s i -> String.get (i + String.length x) s = Some c -> rune_start c = true.

(** An occurrence of a secret that begins inside another one ends there too. *)
Definition nested (l : list string) (s : string) : Prop :=
  forall x y i j, x ∈ l -> y ∈ l -> occ x s i -> occ y s j -> i < j < i + String.length x ->
    j + String.length y <= i + String.length x.

(** A secret that no part of the marker [[redacted]] can begin or end. *)
Definition lacks (c : ascii) (s : string) : Prop := contains_byte c s = false.
Definition bracketless (x : string) : Prop := lacks "["%char x /\ lacks "]"%char x.

Lemma str_drop_length n s : String.length (str_drop n s) = String.length s - n.
Proof. revert s. induction n as [|n IH]; intros [|c s]; cbn; [lia..|]. apply IH. Qed.

Lemma str_drop_add a b s : str_drop (a + b) s = str_drop b (str_drop a s).
Proof. revert s. induction a as [|a IH]; intros s; [done|]. destruct s; [by destruct b | apply IH]. Qed.

Lemma cut_app s u n : n <= String.length s -> str_take n (s +:+ u) = str_take n s /\ str_drop n (s +:+ u) = str_drop n s +:+ u.
Proof.
  revert s. induction n as [|n IH]; intros [|c s] Hl; try done; [by cbn in Hl; lia|].
  cbn in Hl. rewrite app_String. cbn [str_take str_drop]. destruct (IH s ltac:(lia)) as [-> ->]. done.
Qed.

Lemma take_drop n s : str_take n s +:+ str_drop n s = s.
Proof. revert s. induction n as [|n IH]; intros [|c s]; try done. cbn. by rewrite app_String, IH. Qed.

Lemma taken_length n s : n <= String.length s -> String.length (str_take n s) = n.
Proof. intros Hn. pose proof (f_equal String.length (take_drop n s)) as E. rewrite str_length_app, str_drop_length in E. lia. Qed.

Lemma has_prefix_length p s : has_prefix p s = true -> String.length p <= String.length s.
Proof. intros (q & ->)%has_prefix_spec. rewrite str_length_app. lia. Qed.

Lemma has_prefix_weaken p s u : has_prefix p s = true -> has_prefix p (s +:+ u) = true.
Proof. intros (q & ->)%has_prefix_spec. apply has_prefix_spec. exists (q +:+ u). by rewrite str_app_assoc. Qed.

(** A prefix of two parts ends in the first or goes on in the second. *)
Lemma has_prefix_split p s u : has_prefix p (s +:+ u) = true ->
  has_prefix p s = true \/ exists v, v <> "" /\ p = s +:+ v /\ has_prefix v u = true.
Proof.
  revert p. induction s as [|c s IH]; intros [|a p]; try (by left).
  - right. exists (String a p). done.
  - rewrite app_String. cbn [has_prefix]. intros [->%Ascii.eqb_eq [H|(v & Hv & -> & H)]%IH]%andb_true_iff.
    + left. by rewrite Ascii.eqb_refl.
    + right. by exists v.
Qed.

Section occurrence.
Context (x : string) (Hne : x <> "").

Lemma occ_end s i : occ x s i -> i + String.length x <= String.length s.
Proof.
  intros H%has_prefix_length. rewrite str_drop_length in H. assert (0 < String.length x) by (destruct x; [done | cbn; lia]). lia.
Qed.

Lemma occ_drop s k i : occ x (str_drop k s) i <-> occ x s (k + i).
Proof. unfold occ. by rewrite str_drop_add. Qed.

Lemma occ_app s u i : occ x s i -> occ x (s +:+ u) i.
Proof. intros H. pose proof (occ_end _ _ H). unfold occ. rewrite (proj2 (cut_app s u i ltac:(lia))). by apply has_prefix_weaken. Qed.

(** One that ends in the first part is in it. *)
Lemma occ_in s u i : i + String.length x <= String.length s -> occ x (s +:+ u) i -> occ x s i.
Proof.
  intros Hl. unfold occ. rewrite (proj2 (cut_app s u i ltac:(lia))).
  intros [H|(v & Hv & E & _)]%has_prefix_split; [done|]. exfalso.
  apply (f_equal String.length) in E. rewrite str_length_app, str_drop_length in E.
  destruct v; [done | cbn in E; lia].
Qed.

Lemma index_spec s : match index x s with
  | Some a => occ x s a /\ forall m, m < a -> ~ occ x s m
  | None => forall m, ~ occ x s m
  end.
Proof.
  unfold occ. induction s as [|c s IH]; cbn [index].
  - destruct (has_prefix x "") eqn:E; [by destruct x|]. intros [|m]; cbn; by rewrite E.
  - destruct (has_prefix x (String c s)) eqn:E; [split; [done | lia]|]. destruct (index x s) as [a|]; cbn.
    + destruct IH as [H1 H2]. split; [done|]. intros [|m] Hm; cbn; [by rewrite E|]. apply H2. lia.
    + intros [|m]; cbn; [by rewrite E | apply IH].
Qed.

Lemma get_drop n s m : String.get m (str_drop n s) = String.get (n + m) s.
Proof. revert s. induction n as [|n IH]; intros [|a s]; try done. apply IH. Qed.

Lemma get_app s u m c : String.get m s = Some c -> String.get m (s +:+ u) = Some c.
Proof. revert m. induction s as [|a s IH]; intros [|m]; try done. rewrite app_String. apply IH. Qed.

Lemma followed_drop n s : followed x s -> followed x (str_drop n s).
Proof. intros Hf i c Ho%occ_drop Hg. apply (Hf _ c Ho). by rewrite <- Nat.add_assoc, <- get_drop. Qed.

Lemma followed_app s u : followed x (s +:+ u) -> followed x s.
Proof. intros Hf i c Ho Hg. apply (Hf i c); [by apply occ_app | by apply get_app]. Qed.
End occurrence.

Definition secrets_of (l : list string) : Prop := Forall (fun x => x <> "") l.

Lemma nested_drop l n s : nested l s -> nested l (str_drop n s).
Proof. intros Hn x y i j Hx Hy Hi%occ_drop Hj%occ_drop Hc. pose proof (Hn x y _ _ Hx Hy Hi Hj ltac:(lia)). lia. Qed.

Lemma nested_app l s u : secrets_of l -> nested l (s +:+ u) -> nested l s.
Proof.
  intros Hl Hn x y i j Hx Hy Hi Hj. apply (Hn x y i j Hx Hy); apply occ_app; try done; by eapply (proj1 (Forall_forall _ _) Hl).
Qed.

(** * The cut between two records *)

Lemma avoid_past x fuel s start n : n <= start -> avoid fuel x s start n = n.
Proof.
  revert start. induction fuel as [|fuel IH]; intros start Hn; [done|]. cbn [avoid]. destruct (index _ _) as [a|]; [|done].
  rewrite (proj2 (Nat.ltb_ge (start + a) n)) by lia. cbn [andb]. apply IH. lia.
Qed.

(** [avoid] keeps the cut, or moves it to the start of the occurrence it is in. *)
Lemma avoid_spec x fuel s start n : x <> "" -> nested [x] s -> String.length s < fuel + start ->
  (forall i, occ x s i -> i < start -> ~ (i < n < i + String.length x)) ->
  let m := avoid fuel x s start n in
  uncrossed x s m /\ (m = n \/ occ x s m /\ m < n < m + String.length x).
Proof.
  intros Hne Hx. assert (forall i j, occ x s i -> occ x s j -> i < j < i + String.length x -> False) as Hsp.
  { intros i j Hi Hj Hc. pose proof (Hx x x i j ltac:(left) ltac:(left) Hi Hj Hc). lia. }
  assert (0 < String.length x) as Hpos by (destruct x; [done | cbn; lia]).
  revert start n. induction fuel as [|fuel IH]; intros start n Hf H0; cbn [avoid].
  { split; [|by left]. intros i Hi. apply H0; [done|]. pose proof (occ_end x Hne s i Hi). lia. }
  pose proof (index_spec x Hne (str_drop start s)) as Hi. destruct (index x (str_drop start s)) as [a|].
  2: { split; [|by left]. intros i Ho. destruct (Nat.lt_ge_cases i start); [by apply H0|].
       exfalso. apply (Hi (i - start)). apply occ_drop. by replace (start + (i - start)) with i by lia. }
  destruct Hi as [Ho%occ_drop Hno]. destruct (decide (start + a < n < start + a + String.length x)) as [Hc|Hc].
  - rewrite (proj2 (Nat.ltb_lt _ _) (proj1 Hc)), (proj2 (Nat.ltb_lt _ _) (proj2 Hc)). cbn [andb].
    rewrite avoid_past by lia. split; [|right; split; [done | lia]]. intros i Hi Hi'. by apply (Hsp i (start + a)).
  - replace ((start + a <? n)%nat && (n <? start + a + String.length x)%nat) with false
      by (symmetry; apply andb_false_iff; rewrite !Nat.ltb_ge; lia).
    apply IH; [pose proof (occ_end x Hne s _ Ho); lia|]. intros i Hi Hl. destruct (Nat.lt_ge_cases i start); [by apply H0|].
    destruct (Nat.lt_trichotomy i (start + a)) as [?|[->|?]]; [|done|].
    + exfalso. apply (Hno (i - start)); [lia|]. apply occ_drop. by replace (start + (i - start)) with i by lia.
    + exfalso. apply (Hsp (start + a) i); [done..|lia].
Qed.

(** Moving the cut for one secret moves it into no other one. *)
Lemma avoid_keeps x y s m n : nested [y; x] s -> uncrossed y s n ->
  m = n \/ occ x s m /\ m < n < m + String.length x -> uncrossed y s m.
Proof.
  intros Hn Hy [->|[Ho Hm]]; [done|]. intros i Hi Hc. apply (Hy i Hi).
  pose proof (Hn y x i m ltac:(left) ltac:(right; left) Hi Ho Hc). lia.
Qed.

Lemma nested_sub l k s : nested l s -> (forall x, x ∈ k -> x ∈ l) -> nested k s.
Proof. intros Hn Hk x y i j Hx Hy. apply Hn; by apply Hk. Qed.

Lemma avoid_all l s n : secrets_of l -> nested l s ->
  let m := fold_left (fun n x => avoid (S (String.length s)) x s 0 n) l n in
  Forall (fun x => uncrossed x s m) l /\ m <= n.
Proof.
  intros Hl Hn. cbn zeta. enough (forall done rest n, l = done ++ rest -> Forall (fun x => uncrossed x s n) done ->
    let m := fold_left (fun n x => avoid (S (String.length s)) x s 0 n) rest n in Forall (fun x => uncrossed x s m) l /\ m <= n) as H
    by (by apply (H [] l n)).
  clear n. intros dl rest. revert dl. induction rest as [|x rest IH]; intros dl n E Hd; cbn [fold_left].
  { rewrite app_nil_r in E. by subst dl. }
  assert (x ∈ l) as Hx by (rewrite E; apply elem_of_app; right; left).
  destruct (avoid_spec x (S (String.length s)) s 0 n) as [Hu Hm]; [by eapply (proj1 (Forall_forall _ _) Hl)| |lia|lia|].
  { apply (nested_sub l); [done|]. intros y Hy%list_elem_of_singleton. by subst y. }
  destruct (IH (dl ++ [x]) (avoid (S (String.length s)) x s 0 n)) as [Ha Hle]; [by rewrite <- app_assoc| |split; [done | lia]].
  apply Forall_app. split; [|by apply Forall_singleton]. apply Forall_forall. intros y Hy.
  apply (avoid_keeps x y s _ n); [| by eapply (proj1 (Forall_forall _ _) Hd) | done].
  apply (nested_sub l); [done|]. intros z [->|[->|?%not_elem_of_nil]%elem_of_cons]%elem_of_cons; [|done|done].
  rewrite E. apply elem_of_app. by left.
Qed.

Lemma back_uncrossed l s n : Forall (fun x => followed x s) l -> Forall (fun x => uncrossed x s n) l ->
  Forall (fun x => uncrossed x s (back_to_rune s n)) l /\ back_to_rune s n <= n.
Proof.
  intros Hf. induction n as [|n IH]; intros Hu; [done|]. cbn [back_to_rune].
  destruct (String.get (S n) s) as [c|] eqn:Eg; [|done]. destruct (rune_start c) eqn:Er; [done|].
  destruct IH as [H1 H2]; [|split; [done | lia]]. rewrite Forall_forall in Hf, Hu |- *. intros x Hx i Ho Hc.
  pose proof (Hu x Hx i Ho). assert (i + String.length x = S n) as E by lia. rewrite <- E in Eg.
  rewrite (Hf x Hx i c Ho Eg) in Er. done.
Qed.

Lemma cut_uncrossed l keep s : secrets_of l -> nested l s -> Forall (fun x => followed x s) l ->
  let n := cut_at l keep false s in Forall (fun x => uncrossed x s n) l /\ n <= String.length s - keep.
Proof.
  intros Hl Hn Hf. unfold cut_at. destruct (Nat.eqb_spec (String.length s - keep) 0) as [E|].
  { split; [|lia]. apply Forall_forall. intros x _ i _. lia. }
  destruct (avoid_all l s (String.length s - keep) Hl Hn) as [Ha Hle].
  destruct (back_uncrossed l s _ Hf Ha) as [Hb Hlb]. split; [done | lia].
Qed.

(** * Redacting two parts *)

(** [x] begins in the first part and ends in the second. *)
Definition crosses (x a b : string) : Prop :=
  exists p u v q, u <> "" /\ v <> "" /\ x = u +:+ v /\ a = p +:+ u /\ b = v +:+ q.

Lemma uncrossed_crosses x s n : n <= String.length s -> uncrossed x s n -> ~ crosses x (str_take n s) (str_drop n s).
Proof.
  intros Hn Hu (p & u & v & q & Hune & Hvne & -> & Ha & Hb). apply (Hu (String.length p)).
  - unfold occ. rewrite <- (take_drop n s), Ha, Hb, str_app_assoc, str_drop_app, <- str_app_assoc. apply has_prefix_app.
  - pose proof (taken_length n s Hn) as E. rewrite Ha, str_length_app in E. rewrite str_length_app.
    destruct u, v; try done. cbn in *. lia.
Qed.

Lemma replace_split x new a b skip : x <> "" -> skip <= String.length a -> ~ crosses x a b ->
  replace_from skip x new (a +:+ b) = replace_from skip x new a +:+ replace_from 0 x new b.
Proof.
  intros Hne. revert skip. induction a as [|c a IH]; intros skip Hs Hc.
  { cbn in Hs. replace skip with 0 by lia. done. }
  assert (~ crosses x a b) as Hc'.
  { intros (p & u & v & q & Hu & Hv & -> & -> & ->). apply Hc. exists (String c p), u, v, q. by rewrite app_String. }
  rewrite app_String. cbn in Hs. destruct skip as [|k]; cbn [replace_from]; [|apply IH; [lia | done]].
  destruct (has_prefix x (String c a)) eqn:E.
  - pose proof (has_prefix_length _ _ E) as Hl. pose proof (has_prefix_weaken _ _ b E) as E2. rewrite app_String in E2.
    rewrite E2, IH by (done || (cbn in Hl; lia)). by rewrite str_app_assoc.
  - assert (has_prefix x (String c (a +:+ b)) = false) as ->; [|rewrite IH by (try done; lia); by rewrite app_String].
    apply not_true_iff_false. rewrite <- app_String. intros [H|(v & Hv & -> & Hb)]%has_prefix_split; [congruence|].
    apply has_prefix_spec in Hb as (q & ->). apply Hc. exists "", (String c a), v, q. done.
Qed.

Lemma lacks_cons c a s : lacks c (String a s) <-> a <> c /\ lacks c s.
Proof.
  unfold lacks, contains_byte. cbn [index_byte]. destruct (Ascii.eqb_spec a c) as [->|]; [naive_solver|].
  destruct (index_byte c s); cbn; naive_solver.
Qed.

Lemma lacks_app c s t : lacks c (s +:+ t) <-> lacks c s /\ lacks c t.
Proof.
  induction s as [|a s IH]; [rewrite app_Empty; unfold lacks at 2; naive_solver|]. rewrite app_String, !lacks_cons, IH. tauto.
Qed.

Section marked.
Context (x : string).
Notation marked := (fun skip t => replace_from skip x "[redacted]" t).

(** Without the marker's end nothing was replaced. *)
Lemma marked_none t : lacks "]"%char (marked 0 t) -> marked 0 t = t.
Proof.
  induction t as [|c t IH]; [done|]. cbn [replace_from]. destruct (has_prefix x (String c t)).
  - intros [H _]%lacks_app. done.
  - intros [_ H]%lacks_cons. by rewrite IH.
Qed.

Lemma app_end a b p u : lacks "]"%char u -> a +:+ String "]"%char b = p +:+ u -> exists p', b = p' +:+ u.
Proof.
  intros Hu. revert p. induction a as [|c a IH]; intros p E.
  - rewrite app_Empty in E. destruct p as [|d p].
    + rewrite app_Empty in E. subst u. apply lacks_cons in Hu as [Hu _]. done.
    + rewrite app_String in E. injection E as _ ->. by exists p.
  - rewrite app_String in E. destruct p as [|d p].
    + rewrite app_Empty in E. subst u. apply lacks_cons in Hu as [_ [_ Hu]%lacks_app]. apply lacks_cons in Hu as [Hu _]. done.
    + rewrite app_String in E. injection E as _ E. by apply (IH p).
Qed.

(** A suffix that has no end of a marker is one of the text. *)
Lemma marked_suffix t skip p u : lacks "]"%char u -> marked skip t = p +:+ u -> exists p', t = p' +:+ u.
Proof.
  intros Hu. revert skip p. induction t as [|c t IH]; intros skip p E.
  { cbn in E. by exists p. }
  assert (forall t', (exists p', t' = p' +:+ u) -> exists p', String c t' = p' +:+ u) as Hcons.
  { intros t' (p' & ->). exists (String c p'). by rewrite app_String. }
  destruct skip as [|k]; cbn [replace_from] in E; [|eapply Hcons, IH, E].
  destruct (has_prefix x (String c t)).
  - apply (app_end "[redacted") in E as (p' & E); [|done]. eapply Hcons, IH, E.
  - destruct p as [|d p].
    + rewrite app_Empty in E. subst u. exists "". rewrite app_Empty. pose proof Hu as [_ H]%lacks_cons.
      by rewrite marked_none.
    + rewrite app_String in E. injection E as _ E. eapply Hcons, IH, E.
Qed.

(** A prefix that has no begin of a marker is one of the text. *)
Lemma marked_prefix t v : lacks "["%char v -> has_prefix v (marked 0 t) = true -> has_prefix v t = true.
Proof.
  revert v. induction t as [|c t IH]; intros v Hv H; [done|]. destruct v as [|a v]; [done|].
  apply lacks_cons in Hv as [Ha Hv]. cbn [replace_from] in H. destruct (has_prefix x (String c t)).
  - rewrite app_String in H. cbn [has_prefix] in H. apply andb_true_iff in H as [->%Ascii.eqb_eq _]. done.
  - cbn [has_prefix] in H |- *. apply andb_true_iff in H as [-> H]. by apply IH.
Qed.

Lemma marked_crosses y a b : bracketless y -> crosses y (marked 0 a) (marked 0 b) -> crosses y a b.
Proof.
  intros [Hb He] (p & u & v & q & Hu & Hv & -> & Ea & Eb).
  apply lacks_app in Hb as [_ Hb], He as [He _]. apply marked_suffix in Ea as (p' & ->); [|done].
  assert (has_prefix v b = true) as (q' & ->)%has_prefix_spec; [|by exists p', u, v, q'].
  apply marked_prefix; [done|]. rewrite Eb. apply has_prefix_app.
Qed.
End marked.

Lemma redact_split l a b : secrets_of l -> Forall bracketless l -> Forall (fun x => ~ crosses x a b) l ->
  redact l (a +:+ b) = redact l a +:+ redact l b.
Proof.
  unfold redact, replace_all. revert a b. induction l as [|x l IH]; intros a b Hl Hb Hc; [done|]. cbn [fold_left].
  apply Forall_cons in Hl as [Hx Hl], Hb as [_ Hb], Hc as [Hc Hcs].
  rewrite replace_split by (done || lia). apply IH; [done..|].
  rewrite Forall_forall in Hb, Hcs |- *. intros y Hy Hcr%marked_crosses; [by eapply Hcs | by apply Hb].
Qed.

(** * What the records of a command hold together *)

Lemma flush_texts l keep final tail : texts (option_list (flush l keep final tail).1) +:+ (flush l keep final tail).2 = tail.
Proof.
  unfold flush. destruct (0 <? _)%nat; cbn; [|done]. rewrite str_app_nil_r.
  generalize (cut_at l keep final tail) as n. clear. intros n. revert tail. induction n as [|n IH]; intros [|c s]; try done.
  cbn [str_take str_drop]. by rewrite app_String, IH.
Qed.

Lemma str_take_all s : str_take (String.length s) s = s.
Proof. pose proof (str_take_app s "") as E. by rewrite str_app_nil_r in E. Qed.

Lemma flush_final l keep tail : option_list (flush l keep true tail).1 = if String.eqb tail "" then [] else [tail].
Proof.
  unfold flush, cut_at. destruct tail as [|c tail]; [done|]. rewrite str_take_all. done.
Qed.

(** Nothing of the output is lost, whatever the secrets and the writes. *)
Lemma recorded_texts l keep writes tail : texts (recorded_output l keep tail writes) = tail +:+ texts writes.
Proof.
  revert tail. induction writes as [|p writes IH]; intros tail; cbn [recorded_output].
  - change (texts []) with "". rewrite flush_final, str_app_nil_r.
    destruct (String.eqb_spec tail "") as [->|]; [done|]. cbn. apply str_app_nil_r.
  - pose proof (flush_texts l keep false (tail +:+ p)) as E. destruct (flush l keep false (tail +:+ p)) as [piece rest]. cbn in E.
    change (texts (p :: writes)) with (p +:+ texts writes). rewrite <- str_app_assoc, <- E, str_app_assoc, <- IH.
    clear. destruct piece; cbn; [by rewrite str_app_nil_r | done].
Qed.

Lemma redact_empty l : secrets_of l -> redact l "" = "".
Proof. unfold redact. induction l as [|x l IH]; [done|]. intros [_ Hl]%Forall_cons. by apply IH. Qed.

Lemma texts_app (l k : list string) : texts (l ++ k)%list = texts l +:+ texts k.
Proof. induction l as [|s l IH]; [done|]. cbn [app texts foldr]. unfold texts in IH. rewrite IH. apply eq_sym, str_app_assoc. Qed.

Lemma texts_option o : texts (option_list o) = default "" o.
Proof. destruct o; [apply str_app_nil_r | done]. Qed.

Lemma kept_max l x : x ∈ l -> String.length x <= kept l.
Proof. unfold kept. induction 1 as [x l|x y l _ IH]; cbn [foldr]; lia. Qed.

(** Secrets and a text for which the cuts are clean. *)
Definition clean (l : list string) (s : string) : Prop := Forall (fun x => followed x s) l /\ nested l s.

Lemma clean_drop l n s : clean l s -> clean l (str_drop n s).
Proof. intros [Hf Hn]. split; [|by apply nested_drop]. eapply Forall_impl; [apply Hf|]. intros x. apply followed_drop. Qed.

Lemma clean_app l s u : secrets_of l -> clean l (s +:+ u) -> clean l s.
Proof.
  intros Hl [Hf Hn]. split; [|by eapply nested_app]. unfold secrets_of in Hl. rewrite Forall_forall in Hl, Hf |- *. intros x Hx.
  apply (followed_app x (Hl x Hx) s u). by apply Hf.
Qed.

(** A record and what is still pending are redacted on their own. *)
Lemma redact_flush l tail u : secrets_of l -> Forall bracketless l -> clean l (tail +:+ u) ->
  let '(piece, rest) := flush l (kept l) false tail in
  redact l (tail +:+ u) = texts (map (redact l) (option_list piece)) +:+ redact l (rest +:+ u).
Proof.
  intros Hl Hb Hc. destruct (clean_app _ _ _ Hl Hc) as [Hf Hn]. unfold flush.
  destruct (cut_uncrossed l (kept l) tail Hl Hn Hf) as [Hu Hle]. set (n := cut_at l (kept l) false tail) in *.
  destruct (Nat.ltb_spec 0 n) as [Hpos|]; [|done]. cbn [option_list map texts foldr]. rewrite str_app_nil_r.
  destruct (cut_app tail u n ltac:(lia)) as [E1 E2]. rewrite <- E1, <- E2, <- redact_split; [by rewrite take_drop | done..|].
  apply Forall_forall. intros x Hx. apply uncrossed_crosses; [rewrite str_length_app; lia|]. intros i Ho Hi.
  unfold secrets_of in Hl. rewrite Forall_forall in Hl, Hu. apply (Hu x Hx i); [|done]. pose proof (kept_max l x Hx). apply occ_in in Ho; [done | lia].
Qed.

Lemma redact_records l tail writes : secrets_of l -> Forall bracketless l -> clean l (tail +:+ texts writes) ->
  texts (map (redact l) (recorded_output l (kept l) tail writes)) = redact l (tail +:+ texts writes).
Proof.
  intros Hl Hb. revert tail. induction writes as [|p writes IH]; intros tail Hc; cbn [recorded_output].
  - change (texts []) with "". rewrite flush_final, str_app_nil_r.
    destruct (String.eqb_spec tail "") as [->|]; [by rewrite redact_empty | apply str_app_nil_r].
  - change (texts (p :: writes)) with (p +:+ texts writes) in *. rewrite <- str_app_assoc in Hc |- *.
    pose proof (redact_flush l (tail +:+ p) (texts writes) Hl Hb Hc) as E.
    pose proof (flush_texts l (kept l) false (tail +:+ p)) as Et.
    destruct (flush l (kept l) false (tail +:+ p)) as [piece rest]. cbn [fst snd] in Et.
    rewrite map_app, texts_app, E. f_equal. apply IH. rewrite texts_option in Et.
    apply (clean_drop _ (String.length (default "" piece))) in Hc. by rewrite <- Et, str_app_assoc, str_drop_app in Hc.
Qed.

Lemma configured_nonempty environ : secrets_of (configured_secrets environ).
Proof.
  unfold configured_secrets, secrets_of. rewrite sort_by_perm. apply Forall_fmap, Forall_forall.
  intros e [_ He]%list_elem_of_In%filter_In. unfold is_secret in He. cbn. destruct (cut_entry e) as [name value].
  apply andb_true_iff in He as [He%Nat.leb_le _]. cbn. destruct value; [cbn in He; lia | done].
Qed.


(** Two tokens, one inside the other, and a key, written in pieces that split
    them and a rune. *)
Definition sample_environ : list string :=
  ["HOME=/root"; "API_TOKEN=0123456789abcdef"; "SHORT_TOKEN=89abcdef"; "SIGNING_KEY=key-of-the-goal"].
Definition sample_writes : list string :=
  ["first line" +:+ String (byte 10) ""; "token=01234567"; "89abcd"; "ef and key-of"; "-the-goal, more text ";
   String (byte 195) ""; String (byte 169) " end 89ab"; "cdef"].

Definition follows (x s : string) : bool :=
  forallb (fun i => implb (has_prefix x (str_drop i s))
    (match String.get (i + String.length x) s with Some c => rune_start c | None => true end)) (seq 0 (S (String.length s))).

Definition nests (l : list string) (s : string) : bool :=
  let at_ x := List.filter (fun i => has_prefix x (str_drop i s)) (seq 0 (S (String.length s))) in
  forallb (fun x => forallb (fun y => forallb (fun i => forallb (fun j =>
    implb ((i <? j)%nat && (j <? i + String.length x)%nat) (j + String.length y <=? i + String.length x)%nat) (at_ y)) (at_ x)) l) l.

Lemma occ_seq x s i : x <> "" -> occ x s i -> In i (seq 0 (S (String.length s))).
Proof. intros Hne Ho. apply in_seq. pose proof (occ_end x Hne s i Ho). lia. Qed.

Lemma follows_spec x s : x <> "" -> follows x s = true -> followed x s.
Proof.
  intros Hne Hc i c Ho Hg. unfold follows in Hc. rewrite forallb_forall in Hc. specialize (Hc i (occ_seq x s i Hne Ho)).
  unfold occ in Ho. by rewrite Ho, Hg in Hc.
Qed.

Lemma nests_spec l s : secrets_of l -> nests l s = true -> nested l s.
Proof.
  intros Hl Hc x y i j Hx Hy Hi Hj [H1 H2]. unfold nests in Hc. unfold secrets_of in Hl. rewrite Forall_forall in Hl.
  repeat (setoid_rewrite forallb_forall in Hc).
  assert (forall z k, z ∈ l -> occ z s k -> In k (List.filter (fun i => has_prefix z (str_drop i s)) (seq 0 (S (String.length s))))) as Hat.
  { intros z k Hz Hk. apply filter_In. split; [apply (occ_seq z); [by apply Hl | done] | done]. }
  specialize (Hc x ltac:(by apply list_elem_of_In) y ltac:(by apply list_elem_of_In) i ltac:(by apply Hat) j ltac:(by apply Hat)).
  rewrite (proj2 (Nat.ltb_lt _ _) H1), (proj2 (Nat.ltb_lt _ _) H2) in Hc. by apply Nat.leb_le.
Qed.

Example sample_records :
  let l := configured_secrets sample_environ in
  map (redact l) (recorded_output l (kept l) "" sample_writes) =
  ["first lin"; "e" +:+ String (byte 10) "toke"; "n="; "[redacted] and "; "[redacted], more "; "text";
   " " +:+ String (byte 195) (String (byte 169) " end [redacted]")].
Proof. vm_compute. reflexivity. Qed.


(** With secrets that overlap in the text the records can show more than the
    redacted whole: a cut before the second one splits the first. *)
Example overlapping_secrets :
  recorded_output ["secretone-xyz"; "xyz-two!"] 13 "" ["secretone-xyz-two!"; "012345678"] = ["secretone-"; "xyz-two!012345678"].
Proof. vm_compute. reflexivity. Qed.
