(* ===== verification/GoalProgress.v ===== *)
(** What a goal shows in the log of its workflow: [goal_progress.go]
    ([src/codexsdk/internal/protocolsync]).  A log is the list of its lines,
    newest first; [None] is a nil [GoalProgress] or a nil writer. *)

From Stdlib Require Import Ascii.
From stdpp Require Import pretty.
From S2P Require Import Prelude GoStrings Policy Scope Resolve PublicationText Checks Boundary Inspection Goal.

Local Open Scope string_scope.
Local Open Scope list_scope.

Record GoalProgress := { Output : option (list string); Actions : bool; grouped : bool }.

Definition put (text : string) (p : GoalProgress) : GoalProgress := {|
  Output := cons text <$> Output p; Actions := Actions p; grouped := grouped p |}.
Definition set_grouped (b : bool) (p : GoalProgress) : GoalProgress := {| Output := Output p; Actions := Actions p; grouped := b |}.

(** [strings.NewReplacer] of single bytes. *)
Fixpoint replace_bytes (f : ascii -> option string) (s : string) : string :=
  match s with
  | EmptyString => EmptyString
  | String c s' => match f c with Some t => t +:+ replace_bytes f s' | None => String c (replace_bytes f s') end
  end.

Definition blank (c : ascii) : option string := if Ascii.eqb c (byte 13) || Ascii.eqb c (byte 10) then Some " " else None.
Definition command_escape (c : ascii) : option string :=
  if Ascii.eqb c "%"%char then Some "%25" else if Ascii.eqb c (byte 13) then Some "%0D"
  else if Ascii.eqb c (byte 10) then Some "%0A" else None.
Definition goalCommandText (s : string) : string := replace_bytes command_escape s.

Definition has_output (p : GoalProgress) : bool := match Output p with Some _ => true | None => false end.

Definition line (message : string) (p : GoalProgress) : GoalProgress :=
  if has_output p then put ("goal: " +:+ replace_bytes blank message) p else p.

Definition end_ (p : GoalProgress) : GoalProgress :=
  if grouped p then set_grouped false (put "::endgroup::" p) else p.

Definition group (name : string) (p : GoalProgress) : GoalProgress :=
  let p := end_ p in
  if Actions p && has_output p then set_grouped true (put ("::group::" +:+ goalCommandText name) p) else line name p.

(** [Failure] *)
Definition report_failure (message : string) (p : GoalProgress) : GoalProgress :=
  let p := end_ p in
  if Actions p && has_output p then put ("::error title=Upstream goal incomplete::" +:+ goalCommandText message) p
  else line message p.

Definition goalCheckState (s : State) : string := match s with NoState => "unavailable" | _ => state_text s end.

(** The first check of a name. *)
Definition check_progress (checks : list Check_) (name : string) : string :=
  match List.find (fun c => String.eqb (check_Name c) name) checks with
  | Some c => "; " +:+ name +:+ ": " +:+ goalCheckState (check_State c)
  | None => ""
  end.

Definition goalCIProgress (repository : string) (o : Observation) : string :=
  if negb (goalRepositoryPattern repository) || negb (shaRE (Head o)) then "CI observation unavailable" else
  "CI for " +:+ Head o +:+ ": " +:+ goalCheckState (obs_State o) +:+
  (if (0 <? WorkflowRunID o)%Z
   then "; https://github.com/" +:+ repository +:+ "/actions/runs/" +:+ pretty (WorkflowRunID o) +:+ " (attempt " +:+ pretty (WorkflowAttempt o) +:+ ")"
   else "") +:+
  "; workflow: " +:+ goalCheckState (WorkflowState o) +:+
  foldr (fun name rest => check_progress (obs_Checks o) name +:+ rest) "" RequiredNames.

(** * What can appear in the log *)

Inductive call := CLine (message : string) | CGroup (name : string) | CEnd | CFailure (message : string).
Definition apply_call (p : GoalProgress) (c : call) : GoalProgress :=
  match c with CLine m => line m p | CGroup n => group n p | CEnd => end_ p | CFailure m => report_failure m p end.

Definition one_line (s : string) : bool := all_bytes (fun c => negb (Ascii.eqb c (byte 13)) && negb (Ascii.eqb c (byte 10))) s.

(** The lines of a log, oldest last: the controller's own commands frame them,
    and [open] is whether a group is open after them. *)
Inductive framed : bool -> list string -> Prop :=
| framed_nil : framed false []
| framed_line open text l : framed open l -> one_line text = true -> framed open (("goal: " +:+ text) :: l)
| framed_error text l : framed false l -> one_line text = true -> framed false (("::error title=Upstream goal incomplete::" +:+ text) :: l)
| framed_group name l : framed false l -> one_line name = true -> framed true (("::group::" +:+ name) :: l)
| framed_end l : framed true l -> framed false ("::endgroup::" :: l).

Lemma all_bytes_app f s t : all_bytes f (s +:+ t) = all_bytes f s && all_bytes f t.
Proof. induction s as [|c s IH]; [done|]. rewrite app_String. cbn. by rewrite IH, andb_assoc. Qed.

Lemma replace_bytes_line f s : (forall c, match f c with Some t => one_line t = true | None => c <> byte 13 /\ c <> byte 10 end) ->
  one_line (replace_bytes f s) = true.
Proof.
  intros Hf. induction s as [|c s IH]; [done|]. cbn [replace_bytes]. specialize (Hf c). destruct (f c) as [t|].
  - unfold one_line in *. by rewrite all_bytes_app, Hf, IH.
  - unfold one_line in *. cbn. rewrite IH, andb_true_r. destruct Hf. by apply andb_true_iff; split; apply negb_true_iff, Ascii.eqb_neq.
Qed.

Lemma blank_line s : one_line (replace_bytes blank s) = true.
Proof.
  apply replace_bytes_line. intros c. unfold blank. destruct (Ascii.eqb_spec c (byte 13)), (Ascii.eqb_spec c (byte 10)); done.
Qed.
Lemma command_line s : one_line (goalCommandText s) = true.
Proof.
  apply replace_bytes_line. intros c. unfold command_escape. destruct (Ascii.eqb_spec c "%"%char); [done|].
  destruct (Ascii.eqb_spec c (byte 13)), (Ascii.eqb_spec c (byte 10)); done.
Qed.

(** Nothing that is shown can forge a workflow command: over any calls with any texts, every line of the log is one line, and is a message of the controller, its error, or a bracket of a group around messages, the groups opened and closed one after another. *)
Theorem progress_framed (actions : bool) (calls : list call) :
  match Output (fold_left apply_call calls {| Output := Some []; Actions := actions; grouped := false |}) with
  | Some l => framed (grouped (fold_left apply_call calls {| Output := Some []; Actions := actions; grouped := false |})) l
  | None => False
  end.
Proof.
  assert (forall p, match Output p with Some l => framed (grouped p) l | None => False end ->
    match Output (fold_left apply_call calls p) with Some l => framed (grouped (fold_left apply_call calls p)) l | None => False end) as Hp;
    [|by apply Hp; constructor].
  induction calls as [|c calls IH]; intros p Hp; [done|]. cbn [fold_left]. apply IH.
  destruct p as [[l|] a g]; [|done]. cbn in Hp.
  destruct c as [m|n| |m], g, a; cbn; try done; repeat first [done | apply blank_line | apply command_line | constructor].
Qed.
