(* ===== verification/GoalFlow.v ===== *)
(** A native goal and its one fixed tool: [goal_flow.go] and [ObserveGoalCI] of
    [goal_publication.go] ([src/codexsdk/internal/protocolsync]).

    As in the code the operations of the tool are a record; [upstream_operations]
    are the ones of [RunUpstreamGoal].  The native runtime is a tree: it stops,
    or changes the world as it likes, or calls the tool and goes on with the
    answer.  What is shown in the log of the workflow ([GoalProgress]) is left
    out here. *)

From Stdlib Require Import Ascii.
From stdpp Require Import pretty.
From S2P Require Import Prelude GoStrings Policy Scope Resolve PublicationText Checks Boundary Inspection Goal GoalSnapshot Rebinding GoalPublication GoalDiagnostics GoalProgress.

Local Open Scope string_scope.
Local Open Scope list_scope.
Local Open Scope goal_scope.

(** * Data *)

Record GoalVerifyResult := {
  vr_DiagnosticPath : string; vr_SnapshotDigest : string; vr_SnapshotRoot : string; vr_Scope : string; vr_Head : string;
  cleanupRoot : string; vr_Gates : list string }.

Record GoalFlowResult := {
  ThreadID : string; fr_Head : string; fr_SnapshotDigest : string; DiagnosticPath : string; NativeStatus : string;
  PublicationIntentHead : string; fr_VerificationBaseSHA : string; fr_ChangedPaths : list string; fr_Checks : Observation;
  Stage : string; fr_Failure : string }.

Record GoalResult := { gr_ThreadID : string; gr_Status : string }.

Record GoalFlowRequest := { Objective : string; Local_ : GoalVerifyRequest; Publication : GoalPublicationRequest }.

Definition no_flow_result : GoalFlowResult := {|
  ThreadID := ""; fr_Head := ""; fr_SnapshotDigest := ""; DiagnosticPath := ""; NativeStatus := ""; PublicationIntentHead := "";
  fr_VerificationBaseSHA := ""; fr_ChangedPaths := []; fr_Checks := no_observation; Stage := ""; fr_Failure := "" |}.

(** What the tool keeps from call to call. *)
Record tool_state := { accepted : bool; binding : GoalPublicationRequest; flow_result : GoalFlowResult }.

Section updates.
Implicit Types (t : tool_state) (r : GoalFlowResult).
Definition upd_result (f : GoalFlowResult -> GoalFlowResult) t : tool_state :=
  {| accepted := accepted t; binding := binding t; flow_result := f (flow_result t) |}.
Definition set_accepted (b : bool) t : tool_state := {| accepted := b; binding := binding t; flow_result := flow_result t |}.
Definition set_binding (b : GoalPublicationRequest) t : tool_state := {| accepted := accepted t; binding := b; flow_result := flow_result t |}.

Definition r_stage (name : string) r := {| ThreadID := ThreadID r; fr_Head := fr_Head r; fr_SnapshotDigest := fr_SnapshotDigest r;
  DiagnosticPath := DiagnosticPath r; NativeStatus := NativeStatus r; PublicationIntentHead := PublicationIntentHead r;
  fr_VerificationBaseSHA := fr_VerificationBaseSHA r; fr_ChangedPaths := fr_ChangedPaths r; fr_Checks := fr_Checks r;
  Stage := name; fr_Failure := fr_Failure r |}.
Definition r_failure (text : string) r := {| ThreadID := ThreadID r; fr_Head := fr_Head r; fr_SnapshotDigest := fr_SnapshotDigest r;
  DiagnosticPath := DiagnosticPath r; NativeStatus := NativeStatus r; PublicationIntentHead := PublicationIntentHead r;
  fr_VerificationBaseSHA := fr_VerificationBaseSHA r; fr_ChangedPaths := fr_ChangedPaths r; fr_Checks := fr_Checks r;
  Stage := Stage r; fr_Failure := text |}.
Definition r_path (path : string) r := {| ThreadID := ThreadID r; fr_Head := fr_Head r; fr_SnapshotDigest := fr_SnapshotDigest r;
  DiagnosticPath := path; NativeStatus := NativeStatus r; PublicationIntentHead := PublicationIntentHead r;
  fr_VerificationBaseSHA := fr_VerificationBaseSHA r; fr_ChangedPaths := fr_ChangedPaths r; fr_Checks := fr_Checks r;
  Stage := Stage r; fr_Failure := fr_Failure r |}.
Definition r_intent (intent : option GoalPublicationIntent) r := {| ThreadID := ThreadID r; fr_Head := fr_Head r;
  fr_SnapshotDigest := fr_SnapshotDigest r; DiagnosticPath := DiagnosticPath r; NativeStatus := NativeStatus r;
  PublicationIntentHead := match intent with Some i => IntendedHead i | None => PublicationIntentHead r end;
  fr_VerificationBaseSHA := fr_VerificationBaseSHA r; fr_ChangedPaths := fr_ChangedPaths r; fr_Checks := fr_Checks r;
  Stage := Stage r; fr_Failure := fr_Failure r |}.
Definition r_published (head digest : string) (paths : list string) r := {| ThreadID := ThreadID r; fr_Head := head;
  fr_SnapshotDigest := digest; DiagnosticPath := DiagnosticPath r; NativeStatus := NativeStatus r;
  PublicationIntentHead := PublicationIntentHead r; fr_VerificationBaseSHA := fr_VerificationBaseSHA r; fr_ChangedPaths := paths;
  fr_Checks := fr_Checks r; Stage := Stage r; fr_Failure := fr_Failure r |}.
Definition r_checks (o : Observation) r := {| ThreadID := ThreadID r; fr_Head := fr_Head r; fr_SnapshotDigest := fr_SnapshotDigest r;
  DiagnosticPath := DiagnosticPath r; NativeStatus := NativeStatus r; PublicationIntentHead := PublicationIntentHead r;
  fr_VerificationBaseSHA := fr_VerificationBaseSHA r; fr_ChangedPaths := fr_ChangedPaths r; fr_Checks := o;
  Stage := Stage r; fr_Failure := fr_Failure r |}.
Definition r_base (base : string) r := {| ThreadID := ThreadID r; fr_Head := fr_Head r; fr_SnapshotDigest := fr_SnapshotDigest r;
  DiagnosticPath := DiagnosticPath r; NativeStatus := NativeStatus r; PublicationIntentHead := PublicationIntentHead r;
  fr_VerificationBaseSHA := base; fr_ChangedPaths := fr_ChangedPaths r; fr_Checks := fr_Checks r;
  Stage := Stage r; fr_Failure := fr_Failure r |}.
Definition r_native (native : GoalResult) r := {| ThreadID := gr_ThreadID native; fr_Head := fr_Head r;
  fr_SnapshotDigest := fr_SnapshotDigest r; DiagnosticPath := DiagnosticPath r; NativeStatus := gr_Status native;
  PublicationIntentHead := PublicationIntentHead r; fr_VerificationBaseSHA := fr_VerificationBaseSHA r;
  fr_ChangedPaths := fr_ChangedPaths r; fr_Checks := fr_Checks r; Stage := Stage r; fr_Failure := fr_Failure r |}.
End updates.

(** The binding with another expected head, and with a candidate. *)
Definition with_head (head : string) (r : GoalPublicationRequest) : GoalPublicationRequest := {|
  RepoRoot := RepoRoot r; gp_Repository := gp_Repository r; gp_Remote := gp_Remote r; gp_BaseBranch := gp_BaseBranch r;
  gp_Branch := gp_Branch r; gp_BaseSHA := gp_BaseSHA r; ExpectedHead := head; CandidateDir := CandidateDir r;
  SnapshotDigest := SnapshotDigest r; StateDir := StateDir r; Deadline := Deadline r; gp_Number := gp_Number r;
  VerificationBaseSHA := VerificationBaseSHA r; gp_AppBotID := gp_AppBotID r; gp_Target := gp_Target r; has_API := has_API r;
  has_token := has_token r |}.
Definition with_candidate (root digest : string) (r : GoalPublicationRequest) : GoalPublicationRequest := {|
  RepoRoot := RepoRoot r; gp_Repository := gp_Repository r; gp_Remote := gp_Remote r; gp_BaseBranch := gp_BaseBranch r;
  gp_Branch := gp_Branch r; gp_BaseSHA := gp_BaseSHA r; ExpectedHead := ExpectedHead r; CandidateDir := root;
  SnapshotDigest := digest; StateDir := StateDir r; Deadline := Deadline r; gp_Number := gp_Number r;
  VerificationBaseSHA := VerificationBaseSHA r; gp_AppBotID := gp_AppBotID r; gp_Target := gp_Target r; has_API := has_API r;
  has_token := has_token r |}.

(** [Error] of an error, and the JSON of the structs that a record holds as they
    are; [scrub] does not look into them. *)
Class FlowCodec := {
  Error : error -> string;
  intent_json : option GoalPublicationIntent -> string;
  observation_json : Observation -> string
}.

Section flow.
Context {W : Type} {B : Boundary W} {H : Host W} {C : IntentCodec} {D : DiagnosticsCodec} {F : FlowCodec}.

(** * Observing CI *)

Definition settled (s : State) : bool := match s with Succeeded | Failed | Cancelled => true | _ => false end.

Definition out_of_polls : error := new_error "more polls than the bound of the model".

(** The loop; [polls] bounds it. *)
Fixpoint poll (polls : nat) (r : GoalPublicationRequest) (head : string) (interval : Z) (last : Observation)
    : P (B := B) (Observation * option error) :=
  match polls with
  | O => mret (last, Some out_of_polls)
  | S polls =>
    try! _ := goalCurrent CallCtx r head else last;
    try! next := replace_err (new_error "exact-head CI observation unavailable") (observe (gp_Repository r) head) else last;
    try! _ := goalCurrent CallCtx r head else next;
    if settled (obs_State next) then mret (next, None) else
    _ ← attempt (host (Sleep interval));
    try! _ := ended CallCtx else next;
    poll polls r head interval next
  end.

Definition ObserveGoalCI (polls : nat) (bounded : bool) (r : GoalPublicationRequest) (head : string) (interval : Z)
    : P (B := B) (Observation * option error) :=
  try! _ := guard (negb bounded) (new_error "CI observation requires a deadline") else no_observation;
  try! _ := goalBinding r else no_observation;
  try! _ := guard (negb (shaRE head)) (new_error "exact CI head required") else no_observation;
  poll polls r head (if (interval <=? 0)%Z then 5%Z else interval) no_observation.

(** * The tool *)

Record goalFlowOperations := {
  reconcile : option (GoalPublicationRequest -> P (B := B) (GoalPublication * option error));
  finalObserve : option (GoalPublicationRequest -> string -> P (B := B) (Observation * option error));
  refresh : option (GoalVerifyRequest -> GoalPublicationRequest -> P (B := B) (GoalVerifyRequest * GoalPublicationRequest * P (B := B) unit));
  local : GoalVerifyRequest -> P (B := B) (GoalVerifyResult * option error);
  publish : GoalPublicationRequest -> P (B := B) (GoalPublication * option error);
  op_observe : GoalPublicationRequest -> string -> P (B := B) (Observation * option error);
  diagnostics : GoalPublicationRequest -> Observation -> goalDiagnostics -> P (B := B) (goalDiagnostics * option error) }.

(** Text of an error in a record. *)
Definition goalError (e : option error) : dvalue := DString (match e with Some e => Error e | None => "" end).
Definition effect_state (e : GoalPublicationEffect) : dvalue :=
  DOther (match e with NoEffect => "" | GoalPublicationUnconfirmed => "unconfirmed" | GoalPublicationObserved => "observed" end).
Definition flag (b : bool) : dvalue := DOther (if b then "true" else "false").

(** [appendGoalDiagnosticFile]: each record keeps the label of its source. *)
Fixpoint append_records (source : string) (total : Z) (records : list (option (Z * option dvalue))) (log : goalDiagnostics)
    : P (B := B) (goalDiagnostics * option error) :=
  match records with
  | [] => mret (log, None)
  | None :: _ => mret (log, Some (new_error "diagnostic JSONL is incomplete"))
  | Some (size, value) :: rest =>
    let total := (total + size)%Z in
    if (goalDiagnosticLimit <? total)%Z then mret (log, Some (new_error "diagnostic JSONL exceeds bound")) else
    match value with
    | None => mret (log, Some (new_error "invalid diagnostic record"))
    | Some v =>
      log ← record "diagnostic_record" "" [("source", DString source); ("record", v)] log;
      match d_err log with
      | Some _ => mret (log, Some (new_error "combined diagnostics exceed bound"))
      | None => append_records source total rest log
      end
    end
  end.

(** [io.LimitReader] of one byte more than the limit. *)
Definition limited (text : string) : string :=
  if (goalDiagnosticLimit + 1 <? Z.of_nat (String.length text))%Z then str_take (Z.to_nat (goalDiagnosticLimit + 1)) text else text.

Definition appendGoalDiagnosticFile (log : goalDiagnostics) (path source : string) : P (B := B) (goalDiagnostics * option error) :=
  text ← attempt (host (ReadText path));
  match text with
  | Err _ => mret (log, Some (new_error "diagnostic file unavailable"))
  | Ok text => append_records source 0 (records_of (limited text)) log
  end.

Definition close_log (incomplete : string) (log : goalDiagnostics) : P (B := B) string :=
  closed ← attempt (host (Close (d_file log)));
  _ ← guard (match d_err log, closed with None, Ok _ => false | _, _ => true end) (new_error incomplete);
  mret (d_file log).

(** A log of one record. *)
Definition write_log (environ : list string) (dir kind incomplete : string) (fields : list (string * dvalue)) : P (B := B) string :=
  log ← newGoalDiagnostics environ dir;
  log ← record kind "" fields log;
  close_log incomplete log.

(** What a call of the tool answers, with the state after it. *)
Definition answer : Type := tool_state * (string * option error).
Definition reply (t : tool_state) (path : string) (e : option error) : P (B := B) answer := mret (t, (path, e)).

Section tool.
Context (op : goalFlowOperations) (environ : list string) (req : GoalFlowRequest).

Definition diagnostic_dir : string := gv_DiagnosticDir (Local_ req).

(** The last record of a call, and its answer. *)
Definition finish (t : tool_state) (log : goalDiagnostics) (digest : string) (failure : option error) : P (B := B) answer :=
  log ← record "goal_verification_result" "" [("complete", flag (match d_err log with None => true | Some _ => false end)); ("passed", flag (match failure with None => true | Some _ => false end));
          ("head", DString (fr_Head (flow_result t))); ("snapshot_sha256", DString digest); ("error", goalError failure)] log;
  path ← attempt (close_log "goal verification diagnostics incomplete" log);
  match path with Ok path => reply t path failure | Err e => reply t "" (Some e) end.

Definition failing (text : string) (t : tool_state) : tool_state := upd_result (r_failure text) t.
Definition staged (name : string) (t : tool_state) : tool_state := upd_result (r_stage name) t.

(** The goal may have other tools: checks are never bound to later edits. *)
Definition accept_unchanged (t : tool_state) (log : goalDiagnostics) (digest : string) : P (B := B) answer :=
  after ← attempt (goalSnapshot (gv_RepoRoot (Local_ req)) "");
  match after with
  | Ok d =>
    if String.eqb d digest then
      '(t, (path, e)) ← finish t log digest None;
      match e with
      | None => reply (upd_result (r_base (goalVerificationBase (binding t))) (set_accepted true t)) path None
      | Some _ => reply t path e
      end
    else finish (failing "Candidate changed during CI verification" t) log digest (Some (new_error "candidate changed during CI verification"))
  | Err _ => finish (failing "Candidate changed during CI verification" t) log digest (Some (new_error "candidate changed during CI verification"))
  end.

Definition observe_published (t : tool_state) (log : goalDiagnostics) (digest head : string) (candidate : GoalPublicationRequest)
    : P (B := B) answer :=
  let t := staged "CI observation" t in
  '(observation, e) ← op_observe op candidate head;
  let t := upd_result (r_checks observation) t in
  log ← record "ci_observation" "" [("observation", DOther (observation_json observation))] log;
  '(log, de) ← (if (0 <? WorkflowRunID observation)%Z then diagnostics op candidate observation log else mret (log, None));
  match de, e with
  | Some de, _ => finish (failing "CI diagnostics unavailable or incomplete" t) log digest (Some de)
  | None, Some e => finish t log digest (Some e)
  | None, None =>
    if bool_decide (obs_State observation = Succeeded) then accept_unchanged t log digest
    else finish (failing ("Exact-head CI has not passed: " +:+ goalCheckState (obs_State observation)) t) log digest
           (Some (new_error "exact-head CI has not passed"))
  end.

(** An observed push is kept even when the rest of the publication failed. *)
Definition confirmed_push (published : GoalPublication) (t : tool_state) (digest : string) : bool :=
  bool_decide (EffectState published = GoalPublicationObserved) && negb (String.eqb (GoalPublication.Head published) "") &&
  String.eqb (PreviousHead published) (ExpectedHead (binding t)) && String.eqb (gpub_SnapshotDigest published) digest.

Definition keep_push (published : GoalPublication) (t : tool_state) (digest : string) : tool_state :=
  let t := upd_result (r_intent (Intent published)) t in
  if confirmed_push published t digest
  then upd_result (r_published (GoalPublication.Head published) (gpub_SnapshotDigest published) (gpub_ChangedPaths published))
         (set_binding (with_head (GoalPublication.Head published) (binding t)) t)
  else t.

Definition publish_verified (t : tool_state) (log : goalDiagnostics) (l : GoalVerifyResult) : P (B := B) answer :=
  let digest := vr_SnapshotDigest l in
  let candidate := with_candidate (vr_SnapshotRoot l) digest (binding t) in
  let t := staged "Draft publication" t in
  '(published, e) ← publish op candidate;
  let t := keep_push published t digest in
  match e with
  | Some e =>
    log ← record "publication" "" [("passed", flag false); ("effect_state", effect_state (EffectState published));
             ("intent", DOther (intent_json (Intent published))); ("error", goalError (Some e))] log;
    finish (failing "Draft publication could not be confirmed; inspect retained publication diagnostics" t) log digest (Some e)
  | None =>
    let head := GoalPublication.Head published in
    let t := set_binding (with_head head (binding t)) t in
    let t := upd_result (r_published head digest (fr_ChangedPaths (flow_result t))) t in
    log ← record "publication" "" [("head", DString head); ("number", DOther (pretty (gpub_Number published))); ("snapshot_sha256", DString digest);
            ("changed_paths", DStrings (gpub_ChangedPaths published))] log;
    observe_published t log digest head (with_head head candidate)
  end.

Definition verified (t : tool_state) (l : GoalVerifyResult) : P (B := B) answer :=
  log ← attempt (newGoalDiagnostics environ diagnostic_dir);
  match log with
  | Err _ => reply t "" (Some (new_error "cannot create full goal diagnostic file"))
  | Ok log =>
    let t := upd_result (r_path (d_file log)) t in
    '(log, e) ← appendGoalDiagnosticFile log (vr_DiagnosticPath l) "local_checker";
    match e with
    | Some e => finish t log (vr_SnapshotDigest l) (Some e)
    | None => publish_verified t log l
    end
  end.

(** [GoalVerifyResult.Close], deferred: a failure takes the acceptance back. *)
Definition close_verified (l : GoalVerifyResult) (m : P (B := B) answer) : P (B := B) answer :=
  '(t, (path, e)) ← m;
  if String.eqb (cleanupRoot l) "" then reply t path e else
  closed ← attempt (host (RemoveAll (cleanupRoot l)));
  match closed with
  | Ok _ => reply t path e
  | Err _ => reply (set_accepted false t) path (Some (new_error "verification snapshot cleanup failed"))
  end.

Definition verify_and_publish (t : tool_state) (request : GoalVerifyRequest) : P (B := B) answer :=
  '(l, e) ← local op request;
  close_verified l
    (let t := upd_result (r_path (vr_DiagnosticPath l)) t in
     match e with Some e => reply t (vr_DiagnosticPath l) (Some e) | None => verified t l end).

Definition refreshed (t : tool_state) : P (B := B) answer :=
  match refresh op with
  | None => verify_and_publish t (Local_ req)
  | Some f =>
    fresh ← attempt (f (Local_ req) (binding t));
    match fresh with
    | Err e =>
      let t := failing "Current main cannot be rebound to the fixed goal target" t in
      path ← attempt (write_log environ diagnostic_dir "accepted_base" "accepted-base diagnostics incomplete"
               [("passed", flag false); ("error", goalError (Some e))]);
      match path with Ok path => reply t path (Some e) | Err le => reply t "" (Some le) end
    | Ok (request, b, cleanup) => finally (verify_and_publish (set_binding b t) request) cleanup
    end
  end.

(** A completed write is discovered before another one is spent. *)
Definition adopt_observed (observed : GoalPublication) (t : tool_state) : tool_state :=
  let t := upd_result (r_intent (Intent observed)) t in
  if bool_decide (EffectState observed = GoalPublicationObserved) && negb (String.eqb (GoalPublication.Head observed) "")
  then upd_result (r_published (GoalPublication.Head observed) (gpub_SnapshotDigest observed) (fr_ChangedPaths (flow_result t)))
         (set_binding (with_head (GoalPublication.Head observed) (binding t)) t)
  else t.

Definition reconciled (t : tool_state) : P (B := B) answer :=
  match reconcile op with
  | None => refreshed t
  | Some f =>
    '(observed, e) ← f (binding t);
    let t := adopt_observed observed t in
    match e with
    | None => refreshed t
    | Some e =>
      let t := failing "Publication outcome unresolved; no write was replayed" (staged "Publication reconciliation" t) in
      path ← attempt (write_log environ diagnostic_dir "publication_reconciliation" "publication reconciliation diagnostics incomplete"
               [("passed", flag false); ("effect_state", effect_state (EffectState observed)); ("intent", DOther (intent_json (Intent observed)));
                ("error", goalError (Some e))]);
      match path with
      | Ok path => reply (upd_result (r_path path) t) path (Some e)
      | Err le => reply t "" (Some le)
      end
    end
  end.

(** The fixed tool of the goal. *)
Definition tool (t : tool_state) : P (B := B) answer :=
  '(t, (path, e)) ← reconciled (staged "Local verification" (failing "" (set_accepted false t)));
  match e with
  | Some _ => reply (if String.eqb (fr_Failure (flow_result t)) ""
                     then failing (Stage (flow_result t) +:+ " failed; inspect retained verification diagnostics") t else t) path e
  | None => reply t path None
  end.

(** * The native goal *)

Inductive native :=
| Stops (result : GoalResult) (err : option error)
| Works (edit : W -> W) (next : native)
| Calls (next : string * option error -> native).

Fixpoint run_native (n : native) (t : tool_state) : P (B := B) (tool_state * (GoalResult * option error)) :=
  match n with
  | Stops result err => mret (t, (result, err))
  | Works edit next => fun s => run_native next t {| world := edit (world s); log := log s |}
  | Calls next => '(t, a) ← tool t; run_native (next a) t
  end.

Definition complete := "complete".

Definition accept_final (t : tool_state) : P (B := B) (GoalFlowResult * option error) :=
  let r := r_stage "Final acceptance" (flow_result t) in
  let changed := new_error "candidate changed after accepted verification" in
  digest ← attempt (goalSnapshot (gv_RepoRoot (Local_ req)) "");
  if match digest with Ok d => negb (String.eqb d (fr_SnapshotDigest r)) | Err _ => true end
  then mret (r_failure "Candidate changed after accepted verification" r, Some changed) else
  '(observation, e) ← match finalObserve op with Some f => f (binding t) (fr_Head r) | None => op_observe op (binding t) (fr_Head r) end;
  let r := r_checks observation r in
  match e with
  | None => if bool_decide (obs_State observation = Succeeded) then mret (r, None)
            else mret (r_failure "Final exact-head CI observation is not successful" r,
                       Some (new_error "final exact-head CI observation is not successful"))
  | Some _ => mret (r_failure "Final exact-head CI observation is not successful" r,
                    Some (new_error "final exact-head CI observation is not successful"))
  end.

(** Why the native goal stopped: the deadline, a cancellation, or itself. *)
Definition stop_text (ended : option error) : string :=
  match ended with
  | Some e => if errors_is "context deadline exceeded" e then "Native goal reached its execution deadline"
              else if errors_is "context canceled" e then "Native goal was cancelled"
              else "Native goal stopped; inspect native status and the last verification diagnostics"
  | None => "Native goal stopped; inspect native status and the last verification diagnostics"
  end.

Definition runUpstreamGoal (bounded : bool) (n : native) : P (B := B) (GoalFlowResult * option error) :=
  try! _ := guard (negb bounded) (new_error "native goal requires a finite deadline") else no_flow_result;
  try! _ := guard (String.eqb diagnostic_dir "") (new_error "native goal requires its fixed diagnostic directory") else no_flow_result;
  try! _ := guard (String.eqb (Objective req) "" || negb (String.eqb (gv_Gate (Local_ req)) "") && negb (String.eqb (gv_Gate (Local_ req)) "local"))
         (new_error "native goal requires full local verification and a fixed objective") else no_flow_result;
  try! _ := goalBinding (Publication req) else no_flow_result;
  '(t, (result, err)) ← run_native n (staged "Native goal" {| accepted := false; binding := Publication req; flow_result := no_flow_result |});
  let r := r_native result (flow_result t) in
  match err with
  | Some e =>
    ended ← peek (ctx_err CallCtx);
    mret (r_failure (stop_text ended) r, Some e)
  | None =>
    if negb (accepted t) || negb (String.eqb (gr_Status result) complete) then
      mret (if String.eqb (fr_Failure r) "" then r_failure "Native goal ended without exact-candidate acceptance" r else r,
            Some (new_error "native goal completed without exact-candidate acceptance"))
    else accept_final {| accepted := true; binding := binding t; flow_result := r |}
  end.
End tool.

(** The operations of [RunUpstreamGoal]; the local verification and the CI
    diagnostics run commands and are given. *)
Definition upstream_operations (polls : nat)
    (verify : GoalVerifyRequest -> P (B := B) (GoalVerifyResult * option error))
    (collect : GoalPublicationRequest -> Observation -> goalDiagnostics -> P (B := B) (goalDiagnostics * option error)) : goalFlowOperations := {|
  reconcile := Some ReconcileGoalPublication;
  finalObserve := Some observeCompletedGoalCI;
  refresh := Some (fun l b => '(l, b, dir) ← refreshGoalBase l b;
               mret (l, b, match dir with Some d => remove_all d | None => mret tt end));
  local := verify;
  publish := AppendGoalDraft;
  op_observe := fun r head => ObserveGoalCI polls true r head 30;
  diagnostics := collect |}.
End flow.

