(* ===== verification/GoalAcceptance.v ===== *)
(** What the acceptance of a native goal rests on.  The tool accepts only after
    its own call verified a snapshot, published that snapshot, saw the required
    checks of the published head succeed and found the candidate unchanged; the
    flow accepts only when the last call accepted, and checks both again after
    the native goal has ended.

    Runs are ordered by their log, which only grows ([after]). *)

From Stdlib Require Import Ascii.
From S2P Require Import Prelude GoStrings Policy Scope Resolve PublicationText Checks Boundary Inspection Goal GoalSnapshot Rebinding GoalPublication Desk GoalIntents GoalDiagnostics GoalProgress GoalFlow.

Local Open Scope string_scope.
Local Open Scope list_scope.
Local Open Scope goal_scope.

(** * The log only grows *)

Section after.
Context {W : Type} {B : Boundary W} {H : Host W}.

(** The log of the second state extends that of the first. *)
Definition after (s s' : flow (B := B)) : Prop := log s `suffix_of` log s'.

#[export] Instance after_order : PreOrder after.
Proof. split; unfold after; [intros s; done | intros s1 s2 s3; apply (transitivity (R := suffix))]. Qed.

Lemma after_emits {A} Q (m : P (B := B) A) : emits Q m -> along after m.
Proof. intros Hm s r s' (l & E & _)%Hm. by exists l. Qed.
Lemma after_host call : along after (host (B := B) call).
Proof. by apply (after_emits (fun _ => True)), emits_host. Qed.

#[export] Instance after_quiet : Quiet (fun _ => True) after.
Proof.
  split.
  7-9: done.
  - apply after_order.
  - intros s s' (l & E) e He. rewrite E. set_solver.
  - intros args input _. by apply (after_emits (fun _ => True)), emits_run.
  - intros path. by apply (after_emits (fun _ => True)), emits_request.
  - intros req. by apply (after_emits (fun _ => True)), emits_resolve.
  - intros call _. apply after_host.
Qed.

Lemma goalSnapshot_after root destination : along after (goalSnapshot root destination).
Proof. exact (goalSnapshot_quiet (fun _ => True) after root destination (or_intror I)). Qed.
Lemma goalBinding_after r : along after (goalBinding r).
Proof. exact (goalBinding_quiet (fun _ => True) after r). Qed.
End after.
#[export] Hint Resolve after_order after_host goalSnapshot_after goalBinding_after : quieting.

(** A caught step of a run that ends without an error went well. *)
Lemma caught_Ok {W} {B : Boundary W} {A X} (m : P (B := B) A) (x : X) k s y s' : caught m x k s = Some (Ok (y, None), s') ->
  exists a s1, m s = Some (Ok a, s1) /\ k a s1 = Some (Ok (y, None), s').
Proof. intros [(a & s1 & ? & ?)|(e & _ & [=])]%caught_inv. by exists a, s1. Qed.
Lemma caught_guard {W} {B : Boundary W} {X} bad e (x : X) k s y s' :
  caught (guard (B := B) bad e) x k s = Some (Ok (y, None), s') -> k tt s = Some (Ok (y, None), s').
Proof. by intros ([] & s1 & [_ ->]%guard_inv & ?)%caught_Ok. Qed.

(** * The evidence of one call *)

Section acceptance.
Context {W : Type} {B : Boundary W} {H : Host W} {C : IntentCodec} {D : DiagnosticsCodec} {F : FlowCodec}.
Context (op : goalFlowOperations) (environ : list string) (req : GoalFlowRequest).
Implicit Types (t : tool_state) (s : flow (B := B)).

Abbreviation root := (gv_RepoRoot (Local_ req)).

(** The operations only extend the log. *)
Record orderly : Prop := {
  reconcile_after f r : reconcile op = Some f -> along after (f r);
  refresh_after f l b : refresh op = Some f -> along after (f l b);
  clean_after f l b s l' b' c s' : refresh op = Some f -> f l b s = Some (Ok (l', b', c), s') -> along after c;
  local_after r : along after (local op r);
  publish_after r : along after (publish op r);
  observe_after r head : along after (op_observe op r head);
  diagnostics_after r o log : along after (diagnostics op r o log) }.

Definition unchanged (digest : string) s s' : Prop := exists s1 s2,
  after s s1 /\ goalSnapshot root "" s1 = Some (Ok digest, s2) /\ after s2 s'.

Definition observed (c : GoalPublicationRequest) (head digest : string) s s' : Prop := exists o s1 s2,
  after s s1 /\ op_observe op c head s1 = Some (Ok (o, None), s2) /\ obs_State o = Succeeded /\ unchanged digest s2 s'.

Definition published (snapshot digest head : string) s s' : Prop := exists c p s1 s2,
  after s s1 /\ CandidateDir c = snapshot /\ SnapshotDigest c = digest /\
  publish op c s1 = Some (Ok (p, None), s2) /\ GoalPublication.Head p = head /\
  observed (with_head head c) head digest s2 s'.

(** A snapshot was verified, published as [head], its checks succeeded, and the
    candidate was still the snapshot, in this order. *)
Definition verified_candidate (head digest : string) s s' : Prop := exists r l s1 s2,
  after s s1 /\ local op r s1 = Some (Ok (l, None), s2) /\ vr_SnapshotDigest l = digest /\
  published (vr_SnapshotRoot l) digest head s2 s'.

Lemma unchanged_later digest s s1 s2 : unchanged digest s s1 -> after s1 s2 -> unchanged digest s s2.
Proof. intros (a & b & ? & ? & ?) Ha. exists a, b. split_and!; [done..|]. by etransitivity. Qed.
Lemma observed_later c head digest s s1 s2 : observed c head digest s s1 -> after s1 s2 -> observed c head digest s s2.
Proof. intros (o & a & b & ? & ? & ? & Hu) Ha. exists o, a, b. split_and!; [done..|]. by eapply unchanged_later. Qed.
Lemma published_later snapshot digest head s s1 s2 :
  published snapshot digest head s s1 -> after s1 s2 -> published snapshot digest head s s2.
Proof. intros (c & p & a & b & ? & ? & ? & ? & ? & Ho) Ha. exists c, p, a, b. split_and!; [done..|]. by eapply observed_later. Qed.
Lemma verified_later head digest s s1 s2 : verified_candidate head digest s s1 -> after s1 s2 -> verified_candidate head digest s s2.
Proof. intros (r & l & a & b & ? & ? & ? & Hp) Ha. exists r, l, a, b. split_and!; [done..|]. by eapply published_later. Qed.
Lemma verified_sooner head digest s0 s s1 : after s0 s -> verified_candidate head digest s s1 -> verified_candidate head digest s0 s1.
Proof. intros Ha (r & l & a & b & ? & ?). exists r, l, a, b. split; [by etransitivity | done]. Qed.

Section orderly.
Context (Hop : orderly).

(** ** The tool only extends the log *)

Lemma record_after kind gate value log : along after (record kind gate value log).
Proof. unfold record. quieted. Qed.
Lemma newGoalDiagnostics_after env dir : along after (newGoalDiagnostics env dir).
Proof. unfold newGoalDiagnostics. quieted. Qed.
Lemma close_log_after text log : along after (close_log text log).
Proof. unfold close_log. quieted. Qed.
Lemma append_records_after source total records log : along after (append_records source total records log).
Proof.
  pose proof record_after. revert total log. induction records as [|[[]|]]; intros; cbn [append_records]; quieted.
Qed.
Lemma appendGoalDiagnosticFile_after log path source : along after (appendGoalDiagnosticFile log path source).
Proof. unfold appendGoalDiagnosticFile. pose proof append_records_after. quieted. Qed.
Lemma write_log_after env dir kind text fields : along after (write_log env dir kind text fields).
Proof.
  unfold write_log. pose proof record_after. pose proof newGoalDiagnostics_after. pose proof close_log_after. quieted.
Qed.
Lemma finish_after t log digest failure : along after (finish t log digest failure).
Proof. unfold finish, reply. pose proof record_after. pose proof close_log_after. quieted. Qed.

Lemma accept_unchanged_after t log digest : along after (accept_unchanged req t log digest).
Proof. unfold accept_unchanged, reply. pose proof finish_after. quieted. Qed.
Lemma observe_published_after t log digest head c : along after (observe_published op req t log digest head c).
Proof.
  unfold observe_published. destruct Hop. pose proof finish_after. pose proof accept_unchanged_after.
  pose proof record_after. quieted.
Qed.
Lemma publish_verified_after t log l : along after (publish_verified op req t log l).
Proof.
  unfold publish_verified. destruct Hop. pose proof finish_after. pose proof observe_published_after.
  pose proof record_after. quieted.
Qed.
Lemma verified_after t l : along after (verified op environ req t l).
Proof.
  unfold verified, reply. pose proof finish_after. pose proof publish_verified_after.
  pose proof newGoalDiagnostics_after. pose proof appendGoalDiagnosticFile_after. quieted.
Qed.
Lemma close_verified_after l m : along after m -> along after (close_verified l m).
Proof. intros Hm. unfold close_verified, reply. quieted. Qed.
Lemma verify_and_publish_after t r : along after (verify_and_publish op environ req t r).
Proof.
  unfold verify_and_publish, reply. destruct Hop. pose proof verified_after.
  quieted_by ltac:(fun _ => apply close_verified_after).
Qed.

(** ** What a call accepts on *)

(** The candidate the tool is at. *)
Definition same_candidate t t' : Prop :=
  binding t' = binding t /\ fr_Head (flow_result t') = fr_Head (flow_result t) /\
  fr_SnapshotDigest (flow_result t') = fr_SnapshotDigest (flow_result t).

Lemma finish_inv t log digest failure s t' a s' : finish t log digest failure s = Some (Ok (t', a), s') -> t' = t.
Proof. unfold finish, reply. intros Hr. undo. destruct x; undo; done. Qed.

(** A call that was not accepted before is not by what [finish] does. *)
Lemma finish_rejects t log digest failure s t' a s' :
  finish t log digest failure s = Some (Ok (t', a), s') -> accepted t = false -> accepted t' = true -> False.
Proof. intros ->%finish_inv. congruence. Qed.

Lemma accept_unchanged_inv t log digest s t' a s' : accept_unchanged req t log digest s = Some (Ok (t', a), s') ->
  accepted t = false -> accepted t' = true -> unchanged digest s s' /\ same_candidate t t'.
Proof.
  unfold accept_unchanged, reply. intros Hr Hf Ht. pstep Hr. apply attempt_inv in H0 as (d & [= ->] & Hs).
  destruct d as [d|e]; [destruct (String.eqb_spec d digest) as [->|]|]; [|by exfalso; eapply finish_rejects..].
  pstep Hr. destruct a0 as [t1 [path [e|]]]; pose proof (finish_inv _ _ _ _ _ _ _ _ H0) as ->; undo; [congruence|].
  split; [|done]. exists s, s0. split_and!; [done..|]. by eapply finish_after.
Qed.

Lemma observe_published_inv t log digest head c s t' a s' :
  observe_published op req t log digest head c s = Some (Ok (t', a), s') ->
  accepted t = false -> accepted t' = true -> observed c head digest s s' /\ same_candidate t t'.
Proof.
  unfold observe_published. intros Hr Hf Ht. pstep Hr. destruct a0 as [o e]. cbv zeta in Hr. pstep Hr. pstep Hr.
  destruct a1 as [log' de].
  assert (after s0 s2) as Hl.
  { transitivity s1; [by eapply record_after|]. destruct (0 <? _)%Z; [by eapply (diagnostics_after Hop) | by undo]. }
  destruct de, e as [e|]; [by exfalso; eapply finish_rejects..|]. case_bool_decide as Hs; [|by exfalso; eapply finish_rejects].
  apply accept_unchanged_inv in Hr as [(a1 & a2 & ? & ? & ?) Hc]; [|done..]. split; [|done].
  exists o, s, s0. split_and!; [done..|]. exists a1, a2. split_and!; [by etransitivity | done..].
Qed.

Lemma publish_verified_inv t log l s t' a s' : publish_verified op req t log l s = Some (Ok (t', a), s') ->
  accepted t = false -> accepted t' = true ->
  published (vr_SnapshotRoot l) (vr_SnapshotDigest l) (fr_Head (flow_result t')) s s' /\
  fr_SnapshotDigest (flow_result t') = vr_SnapshotDigest l /\ ExpectedHead (binding t') = fr_Head (flow_result t').
Proof.
  unfold publish_verified. intros Hr Hf Ht. cbv zeta in Hr. pstep Hr. destruct a0 as [p e].
  assert (accepted (keep_push p (staged "Draft publication" t) (vr_SnapshotDigest l)) = false) as Hk.
  { unfold keep_push. cbv zeta. by destruct (confirmed_push _ _ _). }
  destruct e as [e|]; pstep Hr; [by exfalso; eapply finish_rejects|].
  apply observe_published_inv in Hr as [Ho (Hb & Hh & Hd)]; [|done..]. rewrite Hh, Hd, Hb. split_and!; [|done..].
  eexists _, p, s, s0. split_and!; [done | | | exact H0 | done |]; [done..|].
  destruct Ho as (o & b1 & b2 & ? & ?). exists o, b1, b2. split; [|done].
  transitivity s1; [by eapply record_after | done].
Qed.

Lemma verified_inv t l s t' a s' : verified op environ req t l s = Some (Ok (t', a), s') ->
  accepted t = false -> accepted t' = true ->
  published (vr_SnapshotRoot l) (vr_SnapshotDigest l) (fr_Head (flow_result t')) s s' /\
  fr_SnapshotDigest (flow_result t') = vr_SnapshotDigest l /\ ExpectedHead (binding t') = fr_Head (flow_result t').
Proof.
  unfold verified, reply. intros Hr Hf Ht. pstep Hr. apply attempt_inv in H0 as (log & [= ->] & Hn).
  destruct log as [log|e]; [|undo; congruence]. cbv zeta in Hr. pstep Hr. destruct a0 as [log' [e|]];
    [by exfalso; eapply finish_rejects|].
  apply publish_verified_inv in Hr as [(c & p & b1 & b2 & Ha & Hp) Hd]; [|done..]. split; [|done].
  exists c, p, b1, b2. split; [|done]. transitivity s0; [by eapply newGoalDiagnostics_after|].
  transitivity s1; [by eapply appendGoalDiagnosticFile_after | done].
Qed.

(** What holds when the state accepts. *)
Definition evidence t s s' : Prop :=
  accepted t = true -> verified_candidate (fr_Head (flow_result t)) (fr_SnapshotDigest (flow_result t)) s s' /\
  ExpectedHead (binding t) = fr_Head (flow_result t).

Lemma evidence_later t s s1 s2 : evidence t s s1 -> after s1 s2 -> evidence t s s2.
Proof. intros He Ha [Hv ?]%He. split; [|done]. by eapply verified_later. Qed.
Lemma evidence_sooner t s0 s s1 : after s0 s -> evidence t s s1 -> evidence t s0 s1.
Proof. intros Ha He [Hv ?]%He. split; [|done]. by eapply verified_sooner. Qed.

(** Closing the snapshot can only take the acceptance back. *)
Lemma close_verified_inv l m s t a s' : close_verified l m s = Some (Ok (t, a), s') -> accepted t = true ->
  exists a1 s1, m s = Some (Ok (t, a1), s1) /\ after s1 s'.
Proof.
  unfold close_verified, reply. intros Hr Ht. pstep Hr. destruct a0 as [t1 [path e]].
  destruct (String.eqb _ _); [undo; by eexists _, _|]. pstep Hr. apply attempt_inv in H1 as (x & [= ->] & Hc).
  destruct x; undo; [|done]. eexists _, _. split; [done|]. by eapply after_host.
Qed.

Lemma verify_and_publish_inv t r s t' a s' : verify_and_publish op environ req t r s = Some (Ok (t', a), s') ->
  accepted t = false -> evidence t' s s'.
Proof.
  unfold verify_and_publish. intros Hr Hf Ht. pstep Hr. destruct a0 as [l e]. cbv zeta in Hr.
  apply close_verified_inv in Hr as (a1 & s1 & Hr & Ha); [|done]. destruct e; [unfold reply in Hr; undo; simpl in Ht; congruence|].
  apply verified_inv in Hr as (Hp & Hd & Hb); [|done..]. split; [|done].
  exists r, l, s, s0. rewrite Hd. split_and!; [done..|]. by eapply published_later.
Qed.

Lemma refreshed_inv t s t' a s' : refreshed op environ req t s = Some (Ok (t', a), s') -> accepted t = false -> evidence t' s s'.
Proof.
  unfold refreshed. intros Hr Hf. destruct (refresh op) as [f|] eqn:Ef; [|by eapply verify_and_publish_inv].
  pstep Hr. apply attempt_inv in H0 as (x & [= ->] & Hx). pose proof (refresh_after Hop _ _ _ Ef _ _ _ Hx).
  destruct x as [[[l b] cleanup]|e].
  - unfold finally in Hr. destruct (verify_and_publish _ _ _ _ _ s0) as [[x s1]|] eqn:Ev; [|done].
    destruct (cleanup s1) as [[u s2]|] eqn:Ec; [|done]. injection Hr as -> ->.
    eapply evidence_sooner; [done|]. eapply evidence_later; [by eapply verify_and_publish_inv|].
    by eapply (clean_after Hop).
  - cbv zeta in Hr. unfold reply in Hr. pstep Hr. destruct a0; undo; intros Ht; simpl in Ht; congruence.
Qed.

Lemma reconciled_inv t s t' a s' : reconciled op environ req t s = Some (Ok (t', a), s') -> accepted t = false -> evidence t' s s'.
Proof.
  unfold reconciled. intros Hr Hf. destruct (reconcile op) as [f|] eqn:Ef; [|by eapply refreshed_inv].
  pstep Hr. destruct a0 as [o e]. cbv zeta in Hr.
  assert (accepted (adopt_observed o t) = false) as Ha.
  { unfold adopt_observed. cbv zeta. by destruct (bool_decide _ && _). }
  destruct e as [e|].
  - unfold reply in Hr. pstep Hr. destruct a0; undo; intros Ht; simpl in Ht; congruence.
  - eapply evidence_sooner; [by eapply (reconcile_after Hop)|]. by eapply refreshed_inv.
Qed.

Lemma tool_inv t s t' a s' : tool op environ req t s = Some (Ok (t', a), s') -> evidence t' s s'.
Proof.
  unfold tool, reply. intros Hr. pstep Hr. destruct a0 as [t1 [path e]]. apply reconciled_inv in H0; [|done].
  destruct e as [e|]; undo; [|done]. revert H0. unfold evidence. by destruct (String.eqb _ _).
Qed.

(** ** The native goal *)

Lemma refreshed_after t : along after (refreshed op environ req t).
Proof.
  unfold refreshed, reply. destruct (refresh op) as [f|] eqn:Ef; [|apply verify_and_publish_after].
  pose proof write_log_after. apply along_bind_run; [apply _ | |].
  - apply along_attempt, (refresh_after Hop _ _ _ Ef).
  - intros x s1 s2 (y & [= ->] & Hx)%attempt_inv. destruct y as [[[l b] cleanup]|e]; [|quieted].
    apply along_finally; [apply _ | apply verify_and_publish_after | by eapply (clean_after Hop)].
Qed.
Lemma reconciled_after t : along after (reconciled op environ req t).
Proof.
  unfold reconciled, reply. destruct (reconcile op) as [f|] eqn:Ef; [|apply refreshed_after].
  pose proof write_log_after. pose proof refreshed_after. apply along_bind; [apply _ | by apply (reconcile_after Hop)|].
  quieted.
Qed.
Lemma tool_after t : along after (tool op environ req t).
Proof. unfold tool, reply. pose proof reconciled_after. quieted. Qed.

(** However the native goal uses the tool, an acceptance that stands at its end
    rests on its last call. *)
Lemma run_native_inv n t s0 s t' a s' : run_native op environ req n t s = Some (Ok (t', a), s') ->
  after s0 s -> evidence t s0 s -> after s0 s' /\ evidence t' s0 s'.
Proof.
  revert t s. induction n as [result err|edit next IH|next IH]; intros t s Hr Ha He; cbn [run_native] in Hr.
  - by undo.
  - by eapply IH.
  - pstep Hr. destruct a0 as [t1 answer]. assert (after s s1) as Ha1 by by eapply tool_after.
    eapply IH; [done | by etransitivity |]. eapply evidence_sooner; [done|]. by eapply tool_inv.
Qed.

Lemma accept_final_inv t s result s' : accept_final op req t s = Some (Ok (result, None), s') ->
  NativeStatus result = NativeStatus (flow_result t) /\ fr_Head result = fr_Head (flow_result t) /\
  fr_SnapshotDigest result = fr_SnapshotDigest (flow_result t) /\
  exists s1 s2, goalSnapshot root "" s = Some (Ok (fr_SnapshotDigest result), s1) /\
    match finalObserve op with Some f => f (binding t) (fr_Head result) | None => op_observe op (binding t) (fr_Head result) end s1
      = Some (Ok (fr_Checks result, None), s2) /\ obs_State (fr_Checks result) = Succeeded.
Proof.
  unfold accept_final. intros Hr. pstep Hr. apply attempt_inv in H0 as (d & [= ->] & Hs).
  destruct d as [d|e]; [|by undo]. destruct (String.eqb_spec d (fr_SnapshotDigest (r_stage "Final acceptance" (flow_result t)))) as [->|];
    [|by undo]. cbn [negb] in Hr. pstep Hr. destruct a as [o [e|]]; [by undo|]. case_bool_decide; [|by undo].
  apply ret_inv in Hr as [[= ->] ->].
  split_and!; [done..|]. by exists s0, s1.
Qed.
End orderly.
End acceptance.


(** * The flow *)

Section flow.
Context {W : Type} {B : Boundary W} {H : Host W} {C : IntentCodec} {D : DiagnosticsCodec} {F : FlowCodec}.
Context (op : goalFlowOperations) (environ : list string) (req : GoalFlowRequest).

Abbreviation candidate_root := (gv_RepoRoot (Local_ req)).

(** C15: A goal succeeds only when its native run ended complete and its last call of the fixed tool accepted: a snapshot was verified, that snapshot was published at the head that is returned, the required checks of exactly that head succeeded and the candidate was still that snapshot, in this order; and after the native run has ended the candidate is the same snapshot again and the checks of the same head succeed once more. *)
Theorem accepted_goal_verified bounded n s result s' (Hop : orderly op)
  (Hr : runUpstreamGoal op environ req bounded n s = Some (Ok (result, None), s')) :
  NativeStatus result = "complete" /\ exists b s1 s2 s3,
    verified_candidate op req (fr_Head result) (fr_SnapshotDigest result) s s1 /\
    goalSnapshot candidate_root "" s1 = Some (Ok (fr_SnapshotDigest result), s2) /\
    ExpectedHead b = fr_Head result /\
    match finalObserve op with Some f => f b (fr_Head result) | None => op_observe op b (fr_Head result) end s2
      = Some (Ok (fr_Checks result, None), s3) /\
    obs_State (fr_Checks result) = Succeeded.
Proof.
  unfold runUpstreamGoal in Hr. do 3 (apply caught_guard in Hr). apply caught_Ok in Hr as (u & s0 & Hb%goalBinding_after & Hr).
  pstep Hr. destruct a as [t [native [e|]]]; [by undo|].
  apply (run_native_inv op environ req Hop n _ s) in H0 as [_ He]; [|done..]. cbv zeta in Hr.
  destruct (accepted t) eqn:Ha; [|by undo]. destruct (String.eqb_spec (gr_Status native) complete) as [Hc|]; [|by undo].
  cbn [negb orb] in Hr. apply accept_final_inv in Hr as (En & Eh & Ed & s3 & s4 & H1 & H2 & H4).
  rewrite En, Eh, Ed in *. split; [done|]. destruct (He Ha) as [Hv Hx]. by exists (binding t), s1, s3, s4.
Qed.
End flow.

(** * The operations of the program *)

Section upstream.
Context {W : Type} {B : Boundary W} {H : Host W} {C : IntentCodec} {D : DiagnosticsCodec} {F : FlowCodec}.
Context (verify : GoalVerifyRequest -> P (B := B) (GoalVerifyResult * option error)).
Context (collect : GoalPublicationRequest -> Observation -> goalDiagnostics -> P (B := B) (goalDiagnostics * option error)).
Context (Hverify : forall r, along after (verify r)) (Hcollect : forall r o log, along after (collect r o log)).
Implicit Types (r : GoalPublicationRequest).

Lemma goalCurrent_after c r head : along after (goalCurrent c r head).
Proof. exact (goalCurrent_quiet (fun _ => True) after c r head). Qed.
Lemma observe_after_log repository head : along after (observe repository head).
Proof. exact (quiet_observe (fun _ => True) after repository head). Qed.
Lemma run_after args input : along after (run (B := B) args input).
Proof. by apply (after_emits (fun _ => True)), emits_run. Qed.
#[local] Hint Resolve goalCurrent_after observe_after_log run_after : quieting.

Lemma goalGit_after root args : along after (goalGit root args).
Proof. unfold goalGit. quieted. Qed.
Lemma goalRemoteHead_after r branch : along after (goalRemoteHead r branch).
Proof. exact (goalRemoteHead_quiet (fun _ => True) after r branch). Qed.
#[local] Hint Resolve goalGit_after goalRemoteHead_after : quieting.

Lemma poll_after polls r head interval last : along after (poll polls r head interval last).
Proof. revert last. induction polls; intros last; cbn [poll]; quieted. Qed.
Lemma ObserveGoalCI_after polls bounded r head interval : along after (ObserveGoalCI polls bounded r head interval).
Proof. unfold ObserveGoalCI. pose proof poll_after. quieted. Qed.
Lemma must_run_after message root original current target : along after (must_run message root original current target).
Proof. unfold must_run, ResolveGoalRebinding, gitBaselineIdentityIn. quieted. Qed.
#[local] Hint Resolve must_run_after : quieting.
Lemma observeCompletedGoalCI_after r head : along after (observeCompletedGoalCI r head).
Proof. unfold observeCompletedGoalCI, completed_guard, goalMainForHandoff, fetch_main, is_ancestor, goalGit_. quieted. Qed.
Lemma refreshGoalBase_after l b : along after (refreshGoalBase l b).
Proof. unfold refreshGoalBase, fetch_main, is_ancestor, goalGit_, checkout_main, remove_all. quieted. Qed.
Lemma ReconcileGoalPublication_after r : along after (ReconcileGoalPublication r).
Proof. exact (ReconcileGoalPublication_quiet (fun _ => True) after r). Qed.
Lemma writeGoalPublicationIntent_after r snapshot head tree : along after (writeGoalPublicationIntent r snapshot head tree).
Proof.
  unfold writeGoalPublicationIntent, retain_snapshot, install_intent, remove_file, host_.
  pose proof (goalPublicationState_quiet (fun _ => True) after). quieted.
Qed.
Lemma publish_from_after r prior work : along after (publish_from r prior work).
Proof.
  unfold publish_from, push_recorded, prepareGoalDraftPush, prepareExactRefHook, take_token, execute, remove_all.
  pose proof writeGoalPublicationIntent_after.
  assert (forall snapshot, along after (freeze r snapshot)) by (intros; exact (freeze_quiet (fun _ => True) after r _ I)).
  assert (forall hooks, along after (cleanup r hooks)) by (intros; exact (cleanup_quiet (fun _ => True) after r _ I)).
  pose proof (confirm_push_quiet (fun _ => True) after). quieted.
Qed.
Lemma AppendGoalDraft_after r : along after (AppendGoalDraft r).
Proof.
  unfold AppendGoalDraft, append_new, AssertCleanIn, gitNULIn, host_, remove_all.
  pose proof publish_from_after. pose proof ReconcileGoalPublication_after. quieted.
Qed.

(** The operations of [RunUpstreamGoal] only extend the log. *)
Lemma upstream_orderly polls : orderly (upstream_operations polls verify collect).
Proof.
  assert (forall dir, along after (remove_all (B := B) dir)) as Hd by (intros; unfold remove_all; quieted).
  split; cbn; [intros f r [= <-] | intros f l b [= <-] | intros f l b s l' b' c s' [= <-] | done | | |done].
  - apply ReconcileGoalPublication_after.
  - pose proof (refreshGoalBase_after l b). quieted.
  - intros Hr. pstep Hr. destruct a as [[l1 b1] dir]. cbn in Hr. destruct dir; injection Hr as _ _ <- _; quieted.
  - apply AppendGoalDraft_after.
  - intros. apply ObserveGoalCI_after.
Qed.
End upstream.

(** * A goal on the desk *)

#[export] Instance desk_diagnostics : DiagnosticsCodec := {| marshal _ := Ok "{}"; records_of _ := [] |}.
#[export] Instance desk_flow_codec : FlowCodec := {| Error _ := "error"; intent_json _ := "{}"; observation_json _ := "{}" |}.

Definition desk_local : GoalVerifyRequest := {|
  gv_RepoRoot := "/repo"; gv_DiagnosticDir := "/diagnostics"; gv_Gate := "local"; gv_TrustedCacheRoot := ""; gv_BaseRoot := "/base";
  gv_CandidateDir := ""; gv_OriginalBaseRoot := "" |}.
Definition desk_verify (_ : GoalVerifyRequest) : P (B := desk_boundary) (GoalVerifyResult * option error) :=
  mret ({| vr_DiagnosticPath := "/diagnostics/local.jsonl"; vr_SnapshotDigest := SnapshotDigest (desk_goal ""); vr_SnapshotRoot := "/candidate";
           vr_Scope := "local"; vr_Head := desk_old; cleanupRoot := "/tmp/snapshot"; vr_Gates := [] |}, None).
Definition desk_operations : goalFlowOperations :=
  upstream_operations 1 desk_verify (fun _ _ log => mret (log, None)).
Definition desk_flow : GoalFlowRequest := {| Objective := "upgrade"; Local_ := desk_local; Publication := desk_goal desk_old |}.

(** The native goal verifies once and stops. *)
Definition desk_native : native (W := desk) := Calls (fun _ => Stops {| gr_ThreadID := "thread"; gr_Status := "complete" |} None).
Definition desk_run_goal := runUpstreamGoal desk_operations [] desk_flow true desk_native (start_desk empty_desk).
Definition desk_result : GoalFlowResult := match desk_run_goal with Some (Ok (r, _), _) => r | _ => no_flow_result end.
Definition desk_ended : flow (B := desk_boundary) := match desk_run_goal with Some (_, s) => s | None => start_desk empty_desk end.
Lemma desk_goal_runs : desk_run_goal = Some (Ok (desk_result, None), desk_ended).
Proof. vm_compute. reflexivity. Qed.

Lemma desk_orderly : orderly desk_operations.
Proof. apply upstream_orderly; intros; unfold desk_verify; quieted. Qed.

Lemma accepted_goal_verified_witness : fr_Head desk_result = desk_new /\
  exists s1, verified_candidate desk_operations desk_flow desk_new (fr_SnapshotDigest desk_result) (start_desk empty_desk) s1.
Proof.
  split; [vm_compute; reflexivity|].
  destruct (accepted_goal_verified desk_operations [] desk_flow true desk_native (start_desk empty_desk) desk_result desk_ended
              desk_orderly desk_goal_runs) as (_ & b & s1 & s2 & s3 & Hv & _).
  exists s1. assert (fr_Head desk_result = desk_new) as E by (vm_compute; reflexivity). rewrite <- E. exact Hv.
Defined.
