(* ===== verification/GoalHandoff.v ===== *)
(** The handoff of a completed goal, and the one Ready mutation of its draft:
    [goal_handoff.go] ([src/codexsdk/internal/protocolsync]). *)

From Stdlib Require Import Ascii.
From stdpp Require Import pretty.
From S2P Require Import Prelude GoStrings Policy Scope Resolve PublicationText Checks Boundary Inspection Goal GoalSnapshot Rebinding GoalPublication Desk GoalIntents GoalDiagnostics GoalProgress GoalFlow GoalAcceptance.

Local Open Scope string_scope.
Local Open Scope list_scope.
Local Open Scope goal_scope.

(** * [base64.StdEncoding] *)

(** The value of a character of the alphabet. *)
Definition base64_value (c : ascii) : option Z :=
  let n := Z.of_nat (nat_of_ascii c) in
  if (65 <=? n)%Z && (n <=? 90)%Z then Some (n - 65)%Z
  else if (97 <=? n)%Z && (n <=? 122)%Z then Some (n - 71)%Z
  else if (48 <=? n)%Z && (n <=? 57)%Z then Some (n + 4)%Z
  else if (n =? 43)%Z then Some 62%Z else if (n =? 47)%Z then Some 63%Z else None.

Definition octet (n : Z) : ascii := ascii_of_nat (Z.to_nat (Z.land n 255)).
Definition padding (c : ascii) : bool := Ascii.eqb c "="%char.
Definition is_newline (c : ascii) : bool := Ascii.eqb c (byte 10) || Ascii.eqb c (byte 13).

(** Four characters are three bytes; a padded group is the last one. *)
Fixpoint base64_groups (l : list ascii) : option string :=
  match l with
  | [] => Some ""
  | a :: b :: c :: d :: rest =>
    x ← base64_value a; y ← base64_value b;
    let first := octet (Z.lor (Z.shiftl x 2) (Z.shiftr y 4)) in
    if padding c then
      match rest with [] => if padding d then Some (String first "") else None | _ => None end
    else
      z ← base64_value c;
      let second := octet (Z.lor (Z.shiftl y 4) (Z.shiftr z 2)) in
      if padding d then match rest with [] => Some (String first (String second "")) | _ => None end
      else w ← base64_value d;
           let third := octet (Z.lor (Z.shiftl z 6) w) in
           tail ← base64_groups rest;
           Some (String first (String second (String third tail)))
  | _ => None
  end.

(** [DecodeString]: newlines are ignored. *)
Definition DecodeString (s : string) : option string :=
  base64_groups (List.filter (fun c => negb (is_newline c)) (String.list_ascii_of_string s)).

Example decode_padded : DecodeString ("bm" +:+ newline +:+ "V3Zg==") = Some "newf".
Proof. reflexivity. Qed.
Example decode_short : (DecodeString "bmV3Z", DecodeString "bm=3", DecodeString "bmU=bmV3", DecodeString "*mV3") = (None, None, None, None).
Proof. reflexivity. Qed.

(** * Data *)

Record GoalHandoff := {
  gh_VerificationBase : string; gh_Repository : string; gh_Number : Z; gh_Head : string; OriginalBase : string; gh_Branch : string;
  gh_AppBotID : Z; TargetRef : string; TargetKind : string; TargetSHA : string; gh_Deadline : option Z }.

Definition no_handoff : GoalHandoff := {|
  gh_VerificationBase := ""; gh_Repository := ""; gh_Number := 0; gh_Head := ""; OriginalBase := ""; gh_Branch := "";
  gh_AppBotID := 0; TargetRef := ""; TargetKind := ""; TargetSHA := ""; gh_Deadline := None |}.

(** [deadline.After(moment)] *)
Definition ahead (deadline : option Z) (moment : Z) : bool := match deadline with Some d => (moment <? d)%Z | None => false end.

(** Every check is a success, none is repeated; the names that were seen. *)
Fixpoint distinct_successes (seen : list string) (checks : list Check_) : option (list string) :=
  match checks with
  | [] => Some seen
  | c :: checks =>
    if mem (check_Name c) seen || negb (bool_decide (check_State c = Succeeded)) || (RunID c <=? 0)%Z ||
       negb (String.eqb (check_Conclusion c) "success")
    then None else distinct_successes (check_Name c :: seen) checks
  end.

Definition goalSuccessfulChecks (o : Observation) (head : string) : bool :=
  if negb (String.eqb (Checks.Head o) head) || negb (bool_decide (obs_State o = Succeeded)) ||
     negb (bool_decide (WorkflowState o = Succeeded)) || (WorkflowRunID o <=? 0)%Z || (WorkflowAttempt o <=? 0)%Z then false else
  if negb (length (obs_Checks o) =? length RequiredNames)%nat then false else
  match distinct_successes [] (obs_Checks o) with
  | Some seen => forallb (fun name => mem name seen) RequiredNames
  | None => false
  end.

Section handoff.
Context {W : Type} {B : Boundary W} {H : Host W}.

(** * The handoff *)

Definition final_acceptance := "Final acceptance".

Definition not_completed (result : GoalFlowResult) : bool :=
  negb (String.eqb (NativeStatus result) complete) || negb (String.eqb (fr_Failure result) "") ||
  negb (String.eqb (Stage result) final_acceptance) || negb (shaRE (GoalFlow.fr_Head result)) ||
  String.eqb (fr_SnapshotDigest result) "" || negb (goalSuccessfulChecks (GoalFlow.fr_Checks result) (GoalFlow.fr_Head result)).

Definition handoff_of (binding : GoalPublicationRequest) (result : GoalFlowResult) (verified : string) (deadline : option Z) : GoalHandoff := {|
  gh_VerificationBase := verified; gh_Repository := gp_Repository binding; gh_Number := gp_Number binding;
  gh_Head := GoalFlow.fr_Head result; OriginalBase := gp_BaseSHA binding; gh_Branch := gp_Branch binding; gh_AppBotID := gp_AppBotID binding;
  TargetRef := RefName (gp_Target binding); TargetKind := RefKind (gp_Target binding);
  TargetSHA := PeeledCommitSHA (gp_Target binding); gh_Deadline := deadline |}.

Definition CompletedGoalHandoff (binding : GoalPublicationRequest) (result : GoalFlowResult) (deadline : option Z)
    : P (B := B) GoalHandoff :=
  let incomplete := new_error "goal has no completed exact-head handoff" in
  _ ← replace_err incomplete (goalBinding binding);
  moment ← peek now;
  _ ← guard (not_completed result || negb (ahead deadline moment)) incomplete;
  let seed := new_error "goal handoff is an empty seed or different target" in
  identity ← replace_err seed (gitBaselineIdentityIn (RepoRoot binding) (GoalFlow.fr_Head result));
  _ ← guard (negb (bool_decide (identity = source_of (gp_Target binding)))) seed;
  baseTree ← attempt (goalGit (RepoRoot binding) ["rev-parse"; gp_BaseSHA binding +:+ "^{tree}"]);
  headTree ← attempt (goalGit (RepoRoot binding) ["rev-parse"; GoalFlow.fr_Head result +:+ "^{tree}"]);
  _ ← guard (match baseTree, headTree with Ok a, Ok b => String.eqb a b | _, _ => true end)
        (new_error "goal handoff has no change from original base");
  let verified := if String.eqb (fr_VerificationBaseSHA result) "" then gp_BaseSHA binding else fr_VerificationBaseSHA result in
  _ ← guard (negb (shaRE verified)) (new_error "verified baseline identity unavailable");
  mret (handoff_of binding result verified deadline).

(** * The draft of a handoff *)

Record goalReadyPR := { ready_draft : goalDraftPR; NodeID : string }.

Definition ready_pr (raw : Raw) : res goalReadyPR := '(pr, node) ← decode_ready raw; Ok {| ready_draft := pr; NodeID := node |}.

Definition pull_url (repository : string) (number : Z) : string := "https://github.com/" +:+ repository +:+ "/pull/" +:+ pretty number.

Definition identity_changed (r : GoalPublicationRequest) (p : publicationPR) : bool :=
  negb (pr_Number p =? gp_Number r)%Z || negb (String.eqb (pr_State p) "open") ||
  match MergedAt p with Some _ => true | None => false end || negb (String.eqb (Ref (pr_Head p)) (gp_Branch r)) ||
  negb (String.eqb (FullName (pr_Head p)) (gp_Repository r)) || negb (String.eqb (Ref (pr_Base p)) (gp_BaseBranch r)) ||
  negb (String.eqb (FullName (pr_Base p)) (gp_Repository r)) || negb (String.eqb (pr_URL p) (pull_url (gp_Repository r) (gp_Number r))) ||
  match verifyAppActor (User p) (gp_AppBotID r) with Ok _ => false | Err _ => true end.

Definition baseline_path (repository head : string) : string :=
  "repos/" +:+ repository +:+ "/contents/codexsdk/internal/protocolschema/appserver/v2/baseline_metadata.json?ref=" +:+ head.

(** The baseline that GitHub holds at the head is the target. *)
Definition baseline_current (r : GoalPublicationRequest) (head : string) : P (B := B) unit :=
  let unavailable := new_error "handoff baseline unavailable" in
  file ← replace_err unavailable (get decode_file (baseline_path (gp_Repository r) head));
  _ ← guard (negb (String.eqb (fst file) "base64")) unavailable;
  data ← (match DecodeString (snd file) with Some d => mret d | None => fail (new_error "handoff baseline malformed") end);
  let differs := new_error "handoff is an empty seed or different target" in
  baseline ← replace_err differs (of_res (decodeBaselineIdentity data));
  guard (negb (bool_decide (baseline = source_of (gp_Target r)))) differs.

Definition goalHandoffCurrent (r : GoalPublicationRequest) : P (B := B) goalReadyPR :=
  _ ← goalMainForHandoff r;
  _ ← ended CallCtx;
  pr ← replace_err (new_error "cannot read handoff PR") (get ready_pr (pull_path (gp_Repository r) (gp_Number r)));
  _ ← guard (identity_changed r (draft_pr (ready_draft pr))) (new_error "handoff PR identity changed");
  let moved := new_error "handoff remote head changed" in
  head ← replace_err moved (goalRemoteHead r (gp_Branch r));
  _ ← guard (negb (String.eqb head (ExpectedHead r))) moved;
  _ ← replace_err (new_error "handoff head actor changed") (head_actor (gp_Repository r) (gp_Branch r) head (gp_AppBotID r));
  _ ← target_current (gp_Target r) "handoff target changed";
  _ ← baseline_current r head;
  _ ← ended CallCtx;
  mret pr.

(** * Ready *)

Definition ready_request (root : string) (h : GoalHandoff) : GoalPublicationRequest := {|
  RepoRoot := root; gp_Repository := gh_Repository h; gp_Remote := ""; gp_BaseBranch := "main"; gp_Branch := gh_Branch h;
  gp_BaseSHA := OriginalBase h; ExpectedHead := gh_Head h; CandidateDir := ""; SnapshotDigest := ""; StateDir := "";
  Deadline := None; gp_Number := gh_Number h; VerificationBaseSHA := gh_VerificationBase h; gp_AppBotID := gh_AppBotID h;
  gp_Target := {| RefName := TargetRef h; RefKind := TargetKind h; TagSHA := ""; PeeledCommitSHA := TargetSHA h; TargetExplicit := false |};
  has_API := true; has_token := false |}.

Definition ready_query :=
  "mutation($id:ID!){markPullRequestReadyForReview(input:{pullRequestId:$id}){pullRequest{id isDraft}}}".

(** The body, its nested object flattened. *)
Definition ready_body (node : string) : gmap string string := <["query" := ready_query]> {["variables.id" := node]}.

(** The checks of exactly the head succeed now. *)
Definition checks_succeed (message : string) (h : GoalHandoff) : P (B := B) unit :=
  checks ← replace_err (new_error message) (observe (gh_Repository h) (gh_Head h));
  guard (negb (goalSuccessfulChecks checks (gh_Head h))) (new_error message).

(** The context of the call ends at the deadline of the handoff. *)
Definition ReadyGoal (root : string) (h : GoalHandoff) : P (B := B) unit :=
  _ ← guard (negb (shaRE (gh_VerificationBase h))) (new_error "verified baseline handoff identity missing");
  moment ← peek now;
  _ ← guard (negb (ahead (gh_Deadline h) moment)) (new_error "goal handoff deadline expired");
  let r := ready_request root h in
  _ ← goalBinding r;
  _ ← goalHandoffCurrent r;
  _ ← checks_succeed "handoff exact-head checks unavailable or unsuccessful" h;
  pr ← goalHandoffCurrent r;
  if negb (Draft (ready_draft pr)) then mret tt else
  _ ← guard (String.eqb (NodeID pr) "") (new_error "goal PR node identity missing");
  _ ← attempt (request "POST" "graphql" (Some (ready_body (NodeID pr))));
  let unconfirmed := new_error "Ready outcome unconfirmed; reconcile the same handoff" in
  actual ← replace_err unconfirmed (goalHandoffCurrent r);
  _ ← guard (Draft (ready_draft actual)) unconfirmed;
  _ ← checks_succeed "Ready head no longer has successful checks" h;
  _ ← goalHandoffCurrent r;
  mret tt.
End handoff.

(** * One mutation, between fresh validations *)

(** The checks that count are the required ones, each once, each a success. *)
Lemma distinct_successes_spec checks seen : match distinct_successes seen checks with
  | Some names => names = rev (map check_Name checks) ++ seen /\ (NoDup seen -> NoDup names) /\
      Forall (fun c => check_State c = Succeeded /\ (0 < RunID c)%Z /\ check_Conclusion c = "success") checks
  | None => True
  end.
Proof.
  revert seen. induction checks as [|c checks IH]; intros seen; cbn [distinct_successes]; [split_and!; [done..|constructor]|].
  destruct (mem (check_Name c) seen || _ || _ || _) eqn:E; [done|].
  apply orb_false_iff in E as [[[Hm Hs]%orb_false_iff Hr]%orb_false_iff Hc].
  specialize (IH (check_Name c :: seen)). destruct (distinct_successes _ _) as [names|]; [|done].
  destruct IH as (-> & Hn & Hf). cbn. rewrite <- app_assoc. split_and!; [done | |].
  - intros Hseen. apply Hn. constructor; [by apply bool_decide_eq_false in Hm | done].
  - constructor; [|done]. apply negb_false_iff in Hs, Hc. apply bool_decide_eq_true in Hs. apply String.eqb_eq in Hc.
    split_and!; [done | lia | done].
Qed.

Lemma goalSuccessfulChecks_spec o head : goalSuccessfulChecks o head = true ->
  Checks.Head o = head /\ obs_State o = Succeeded /\ WorkflowState o = Succeeded /\ map check_Name (obs_Checks o) ≡ₚ RequiredNames /\
  Forall (fun c => check_State c = Succeeded /\ (0 < RunID c)%Z /\ check_Conclusion c = "success") (obs_Checks o).
Proof.
  unfold goalSuccessfulChecks. destruct (_ || _ || _ || _ || _) eqn:E; [done|].
  apply orb_false_iff in E as [[[[Hh Hs]%orb_false_iff Hw]%orb_false_iff _]%orb_false_iff _].
  apply negb_false_iff in Hh, Hs, Hw. apply String.eqb_eq in Hh. apply bool_decide_eq_true in Hs, Hw.
  destruct (length _ =? _)%nat eqn:El; [|done]. apply Nat.eqb_eq in El. cbn [negb].
  pose proof (distinct_successes_spec (obs_Checks o) []) as Hd. destruct (distinct_successes [] _) as [seen|]; [|done].
  destruct Hd as (-> & Hn & Hf). rewrite app_nil_r in *. intros Hall. split_and!; [done..| |done].
  rewrite <- Permutation_rev in Hn. symmetry. apply submseteq_length_Permutation; [|by rewrite length_map, El].
  apply NoDup_submseteq; [apply (bool_decide_eq_true_1 _); reflexivity|]. intros x Hx.
  rewrite forallb_forall in Hall. assert (In x RequiredNames) as Hi by by apply list_elem_of_In.
  apply Hall, bool_decide_eq_true in Hi. by rewrite <- Permutation_rev in Hi.
Qed.

Section quiet.
Context {W : Type} {B : Boundary W} {H : Host W}.
Context (fresh : string -> Prop) (R : flow (B := B) -> flow (B := B) -> Prop) {Q : Quiet fresh R}.
#[local] Instance order_h : PreOrder R := quiet_order.
#[local] Hint Resolve order_h : quieting.
Implicit Types (r : GoalPublicationRequest).

Lemma goalMainForHandoff_quiet r : along R (goalMainForHandoff r).
Proof.
  pose proof (goalRemoteHead_quiet fresh R r).
  unfold goalMainForHandoff, fetch_main, is_ancestor, goalGit_, goalGit, must_run, ResolveGoalRebinding, gitBaselineIdentityIn. quieted.
Qed.
Lemma goalHandoffCurrent_quiet r : along R (goalHandoffCurrent r).
Proof.
  pose proof (goalRemoteHead_quiet fresh R r). pose proof goalMainForHandoff_quiet.
  unfold goalHandoffCurrent, head_actor, publicationHeadActor, target_current, baseline_current. quieted.
Qed.
Lemma checks_succeed_quiet message h : along R (checks_succeed message h).
Proof. unfold checks_succeed. pose proof (quiet_observe fresh R). quieted. Qed.
End quiet.

(** A step of a run that made no change since [s]: it fails, and the run ends
    there, or the run goes on. *)
Lemma bind_from {W} {B : Boundary W} {A C} (m : P (B := B) A) (f : A -> P (B := B) C) (s s1 : flow (B := B)) x s' :
  no_effect s s1 -> along no_effect m -> (m ≫= f) s1 = Some (x, s') ->
  (no_effect s s' /\ exists e, x = Err e) \/ exists a s2, m s1 = Some (Ok a, s2) /\ no_effect s s2 /\ f a s2 = Some (x, s').
Proof.
  intros Hs Hm [(a & s2 & H1 & H2)|(e & H1 & ->)]%P_bind_inv; apply Hm in H1 as Hq.
  - right. exists a, s2. split_and!; [done | by etransitivity | done].
  - left. split; [by etransitivity | eauto].
Qed.

Tactic Notation "from" ident(Hs) ident(Hr) :=
  apply (bind_from _ _ _ _ _ _ Hs) in Hr; [|by quieted]; clear Hs; destruct Hr as [(Hs & ? & ->)|(? & ? & ? & Hs & Hr)].

Section ready.
Context {W : Type} {B : Boundary W} {H : Host W}.
Implicit Types (r : GoalPublicationRequest) (s : flow (B := B)).
#[local] Hint Resolve no_effect_order : quieting.

Lemma goalHandoffCurrent_still r : along no_effect (goalHandoffCurrent r).
Proof. exact (goalHandoffCurrent_quiet (fun _ => True) no_effect r). Qed.
Lemma checks_succeed_still message h : along no_effect (checks_succeed message h).
Proof. exact (checks_succeed_quiet (fun _ => True) no_effect message h). Qed.

(** The handoff is current, its checks succeed, and it is current again. *)
Definition validated r s (pr : goalReadyPR) s' : Prop := exists first checks s1 s2,
  goalHandoffCurrent r s = Some (Ok first, s1) /\
  observe (gp_Repository r) (ExpectedHead r) s1 = Some (Ok checks, s2) /\ goalSuccessfulChecks checks (ExpectedHead r) = true /\
  goalHandoffCurrent r s2 = Some (Ok pr, s').

Lemma validated_still r s pr s' : validated r s pr s' -> no_effect s s'.
Proof.
  intros (first & checks & s1 & s2 & H1%goalHandoffCurrent_still & H2 & _ & H3%goalHandoffCurrent_still).
  apply (quiet_observe (fun _ => True) no_effect) in H2. by do 2 (etransitivity; [done|]).
Qed.

Lemma checks_succeed_inv message root h s s' : checks_succeed message h s = Some (Ok tt, s') ->
  exists checks, observe (gp_Repository (ready_request root h)) (ExpectedHead (ready_request root h)) s = Some (Ok checks, s') /\
    goalSuccessfulChecks checks (gh_Head h) = true.
Proof.
  unfold checks_succeed. intros Hr. pstep Hr. apply replace_err_Ok in H0. apply guard_inv in Hr as [Hg ->].
  apply negb_false_iff in Hg. eauto.
Qed.

(** C22: Marking a draft ready is one mutation between fresh validations: a run makes no change at all, or exactly one - the Ready mutation of the draft it read - right after the handoff was found current, the required checks of exactly its head succeeded and it was found current again; and the run succeeds only when the draft was found ready in that way, before or after the mutation, so that a lost response is never replayed and a success is never assumed. *)
Theorem ReadyGoal_one_mutation root h s x s' (r := ready_request root h)
  (Hr : ReadyGoal root h s = Some (x, s')) :
  (no_effect s s' /\ (x = Ok tt -> exists pr s1, no_effect s s1 /\ validated r s1 pr s' /\ Draft (ready_draft pr) = false)) \/
  exists pr answer s1 s2 s3, no_effect s s1 /\ validated r s1 pr s2 /\ Draft (ready_draft pr) = true /\ NodeID pr <> "" /\
    request "POST" "graphql" (Some (ready_body (NodeID pr))) s2 = Some (answer, s3) /\ no_effect s3 s' /\
    (x = Ok tt -> exists actual checks last s4 s5, goalHandoffCurrent r s3 = Some (Ok actual, s4) /\
       Draft (ready_draft actual) = false /\ observe (gp_Repository r) (ExpectedHead r) s4 = Some (Ok checks, s5) /\
       goalSuccessfulChecks checks (ExpectedHead r) = true /\ goalHandoffCurrent r s5 = Some (Ok last, s')).
Proof.
  unfold ReadyGoal in Hr. fold r in Hr. pose proof goalHandoffCurrent_still as Hcur. pose proof checks_succeed_still as Hck.
  assert (no_effect s s) as Q by done.
  assert (forall r, along no_effect (goalBinding r)) as Hb by (intros; exact (goalBinding_quiet (fun _ => True) no_effect _)).
  do 4 (from Q Hr; [by left; split|cbv zeta in Hr]). pose proof Q as Q0.
  from Q Hr; [by left; split|]. from Q Hr; [by left; split|]. from Q Hr; [by left; split|]. clear H0 H1 H2 H3.
  destruct x10. apply checks_succeed_inv with (root := root) in H5 as (checks & Ho & Hs).
  assert (validated r x7 x12 x13) as Hv by by exists x8, checks, x9, x11. clear dependent x8 x9 x11 checks.
  destruct (Draft (ready_draft x12)) eqn:Hd; cbn [negb] in Hr; [|left; injection Hr as <- <-; split; [done|]; by exists x12, x7].
  destruct (String.eqb_spec (NodeID x12) "") as [|Hn]; [left; injection Hr as <- <-; by split|].
  apply P_bind_inv in Hr as [([] & s2 & [_ ->]%guard_inv & Hr)|(e & [=] & _)].
  apply P_bind_inv in Hr as [(a & s3 & (answer & [= ->] & Ha)%attempt_inv & Hr)|(e & (y & [=] & _)%attempt_inv & _)].
  right. exists x12, answer, x7, x13, s3. do 5 (split; [done|]). clear Q0 Q Hv Hd Hn Ha. assert (no_effect s3 s3) as Q by done.
  cbv zeta in Hr. from Q Hr; [by split|]. from Q Hr; [by split|]. from Q Hr; [by split|]. from Q Hr; [by split|].
  injection Hr as <- <-. split; [done|]. intros _. destruct x10, x14. apply guard_inv in H1 as [Hd ->].
  apply replace_err_Ok in H0. apply checks_succeed_inv with (root := root) in H2 as (checks & Ho & Hs).
  by exists x8, checks, x16, x9, x15.
Qed.
End ready.

(** * The desk: the draft of a published candidate becomes ready *)

Definition desk_handoff : GoalHandoff := {|
  gh_VerificationBase := hub_base; gh_Repository := "o/r"; gh_Number := desk_number; gh_Head := desk_new; OriginalBase := hub_base;
  gh_Branch := desk_branch; gh_AppBotID := 7; TargetRef := "rust-v1.2.0"; TargetKind := "stable_rust_tag"; TargetSHA := hub_target;
  gh_Deadline := Some 200%Z |}.
Definition desk_published := start_desk (set_head desk_new empty_desk).
Definition desk_ready := ReadyGoal (H := desk_host) "/repo" desk_handoff desk_published.
Definition desk_made_ready : flow (B := desk_boundary) := match desk_ready with Some (_, s) => s | None => desk_published end.
Lemma desk_readies : desk_ready = Some (Ok tt, desk_made_ready).
Proof. vm_compute. reflexivity. Qed.

Lemma ReadyGoal_one_mutation_witness : desk_draft (world desk_made_ready) = false /\ exists s3 : flow (B := desk_boundary), no_effect s3 desk_made_ready.
Proof.
  split; [vm_compute; reflexivity|].
  destruct (ReadyGoal_one_mutation (H := desk_host) "/repo" desk_handoff desk_published (Ok tt) desk_made_ready desk_readies)
    as [[Hq _]|(pr & answer & s1 & s2 & s3 & _ & _ & _ & _ & _ & Hq & _)]; eauto.
Defined.
