(* ===== verification/NativeForward.v ===== *)
(** The integration of a candidate into main over git and GitHub: the operations
    that [Forward.AutoForward] converges with.  [auto_forward_native.go],
    [auto_forward_control.go] and the main hook of [auto_forward_effect.go]
    ([src/codexsdk/internal/protocolsync]).

    The controller is a mutable struct: its methods are state passing over the
    struct and the flow ([M]).  The callbacks of the request (token, review,
    verification and repair) are given. *)

From Stdlib Require Import Ascii.
From stdpp Require Import pretty.
From S2P Require Import Prelude GoStrings Policy Scope Resolve PublicationText Checks Forward Boundary Inspection Goal GoalSnapshot Rebinding GoalPublication Desk GoalIntents GoalDiagnostics GoalProgress GoalFlow GoalAcceptance GoalHandoff.

Local Open Scope string_scope.
Local Open Scope list_scope.
Local Open Scope goal_scope.

(** * Data *)

Record ForwardRequest := {
  fq_RepoRoot : string; fq_Repository : string; fq_BaseBranch : string; fq_ExpectedHead : string; fq_OriginalBase : string;
  fq_VerificationBase : string; fq_Number : Z; fq_RebasedHead : bool; fq_Target : Target; PublicationAppBotID : Z;
  IntegrationAppBotID : Z; fq_has_API : bool; has_Token : bool; has_Review : bool }.

(** [proofs] are the keys that are true. *)
Record NativeForward := {
  semanticFailures : gmap string error; proofs : gset string; nf_branch : string; lastMain : string; writers : gmap string Z }.

Definition set_branch (b : string) (n : NativeForward) : NativeForward := {|
  semanticFailures := semanticFailures n; proofs := proofs n; nf_branch := b; lastMain := lastMain n; writers := writers n |}.
Definition set_lastMain (m : string) (n : NativeForward) : NativeForward := {|
  semanticFailures := semanticFailures n; proofs := proofs n; nf_branch := nf_branch n; lastMain := m; writers := writers n |}.
Definition add_proof (key : string) (n : NativeForward) : NativeForward := {|
  semanticFailures := semanticFailures n; proofs := {[key]} ∪ proofs n; nf_branch := nf_branch n; lastMain := lastMain n;
  writers := writers n |}.
Definition add_failure (key : string) (e : error) (n : NativeForward) : NativeForward := {|
  semanticFailures := <[key := e]> (semanticFailures n); proofs := proofs n; nf_branch := nf_branch n; lastMain := lastMain n;
  writers := writers n |}.
Definition add_writer (head : string) (bot : Z) (n : NativeForward) : NativeForward := {|
  semanticFailures := semanticFailures n; proofs := proofs n; nf_branch := nf_branch n; lastMain := lastMain n;
  writers := <[head := bot]> (writers n) |}.

Definition key_of (main head : string) : string := main +:+ ":" +:+ head.

(** The proposal upgrades to a fixed upstream target. *)
Definition fixed_target (r : ForwardRequest) : bool := negb (String.eqb (PeeledCommitSHA (fq_Target r)) "").

Definition bad_integration (r : ForwardRequest) : bool :=
  negb (fq_has_API r) || negb (has_Review r) || negb (has_Token r) || negb (goalRepositoryPattern (fq_Repository r)) ||
  (fq_Number r <=? 0)%Z || negb (String.eqb (fq_BaseBranch r) "main") || negb (shaRE (fq_ExpectedHead r)) ||
  String.eqb (fq_RepoRoot r) "".
Definition any_target (r : ForwardRequest) : bool :=
  fixed_target r || negb (String.eqb (RefName (fq_Target r)) "") || negb (String.eqb (RefKind (fq_Target r)) "").
Definition bad_target (r : ForwardRequest) : bool :=
  negb (shaRE (fq_VerificationBase r)) || negb (shaRE (fq_OriginalBase r)) || negb (shaRE (PeeledCommitSHA (fq_Target r))) ||
  String.eqb (RefName (fq_Target r)) "" || String.eqb (RefKind (fq_Target r)) "" ||
  (PublicationAppBotID r <=? 0)%Z || (IntegrationAppBotID r <=? 0)%Z.
Definition bad_baseline (r : ForwardRequest) : bool :=
  (negb (String.eqb (fq_OriginalBase r) "") || negb (String.eqb (fq_VerificationBase r) "")) &&
  (negb (shaRE (fq_OriginalBase r)) || negb (shaRE (fq_VerificationBase r))).

Definition NewNativeForward (r : ForwardRequest) : res NativeForward :=
  if bad_integration r then Err (Errorf "incomplete trusted integration binding" []) else
  if any_target r && bad_target r then Err (Errorf "incomplete fixed target or App actor binding" []) else
  if negb (any_target r) && bad_baseline r then Err (Errorf "incomplete immutable baseline binding" []) else
  let writer := if fq_RebasedHead r then IntegrationAppBotID r else PublicationAppBotID r in
  Ok {| semanticFailures := ∅; proofs := {[key_of (fq_VerificationBase r) (fq_ExpectedHead r)]}; nf_branch := "";
        lastMain := fq_VerificationBase r; writers := {[fq_ExpectedHead r := writer]} |}.

(** * Paths of a candidate *)

Definition runtime_path (p : string) : bool := has_prefix "llmkit/" p || has_prefix "llmcaller/" p.

(** [auto_forward_generic.go] *)
Definition ForwardRuntimeImplementationPath (p : string) : bool :=
  runtime_path p && negb (contains "/testdata/" p) && has_suffix ".go" p && negb (has_suffix "_test.go" p).

Definition generic_path (p : string) : bool :=
  String.eqb p "" || ForwardRuntimeImplementationPath p ||
  (has_suffix "_test.go" p && negb (contains "/testdata/" p) && runtime_path p) ||
  (has_suffix ".go" p && mem (path_dir p) ["codexsdk"; "codexsdk/protocolv2"; "codexsdk/internal/wirejson"]) ||
  String.eqb p "README.md" || (has_prefix "docs/" p && has_suffix ".md" p).

Definition local_args (root : string) : list string :=
  ["-c"; "core.hooksPath=/dev/null"; "-c"; "core.fsmonitor=false"; "-c"; "core.attributesFile=/dev/null"; "-c"; "credential.helper=";
   "-c"; "commit.gpgsign=false"; "-c"; "tag.gpgsign=false"; "-c"; "submodule.recurse=false"; "-C"; root].

Section git.
Context {W : Type} {B : Boundary W} {H : Host W}.

(** [forwardLocalGitCommand(...).Output()]: git without configuration, hooks and credentials. *)
Definition local_output (root : string) (args : list string) : P (B := B) string := host (ArtifactGit (local_args root ++ args)).

Definition forwardLocalGit (root : string) (args : list string) : P (B := B) string :=
  out ← replace_err (new_error "isolated mechanical Git operation failed") (local_output root args);
  mret (trim_space out).

Definition changed_between (root main head : string) : P (B := B) (list string) :=
  names ← local_output root ["diff"; "--name-only"; "--no-renames"; "-z"; main; head; "--"];
  mret (split_byte (byte 0) names).

(** [validateForwardControls], its paths read from git. *)
Definition validate_controls (root main head : string) : P (B := B) unit :=
  names ← attempt (local_output root ["diff"; "--name-only"; "--no-renames"; "-z"; main; head; "--"]);
  of_res (Scope.validateForwardControls names).

Definition validateGenericForwardScope (root main head : string) : P (B := B) unit :=
  names ← changed_between root main head;
  guard (negb (forallb generic_path names))
    (new_error "generic reconciliation changes paths outside native runtime scope; reviewed manual reconciliation required").

(** [n.remote]: the head of a branch, or nothing. *)
Definition remote_ref (root branch : string) : P (B := B) string :=
  out ← goalGit root ["ls-remote"; "origin"; "refs/heads/" +:+ branch];
  if String.eqb out "" then mret "" else
  match str_fields out with
  | [sha; ref] => if String.eqb ref ("refs/heads/" +:+ branch) && shaRE sha then mret sha else fail (new_error "ambiguous native ref")
  | _ => fail (new_error "ambiguous native ref")
  end.

(** Exit status 1 is the answer no. *)
Definition exit_one (e : error) : bool :=
  match find_typed (fun t => match as_exit t with Some _ => true | None => false end) e with
  | Some (Typed t _) => bool_decide (as_exit t = Some 1%Z)
  | _ => false
  end.

Definition Ancestor (root a b : string) : P (B := B) bool :=
  _ ← guard (negb (shaRE a) || negb (shaRE b)) (new_error "invalid ancestry commit");
  answer ← attempt (run ["-C"; root; "merge-base"; "--is-ancestor"; a; b] "");
  match answer with
  | Ok _ => mret true
  | Err e => if exit_one e then mret false else fail (new_error "ancestry observation unavailable")
  end.

Definition exact_checkout_steps (root destination sha : string) : list (string * list string) :=
  [(root, ["clone"; "--no-hardlinks"; "--no-local"; "--no-checkout"; root; destination]);
   (destination, ["fetch"; "--no-tags"; "--no-write-fetch-head"; root; sha]);
   (destination, ["remote"; "remove"; "origin"]);
   (destination, ["checkout"; "--detach"; sha])].

Fixpoint run_steps (steps : list (string * list string)) : P (B := B) unit :=
  match steps with
  | [] => mret tt
  | (root, args) :: steps => _ ← forwardLocalGit root args; run_steps steps
  end.

Definition status_args : list string := ["status"; "--porcelain"; "--untracked-files=all"; "--ignore-submodules=all"].

(** Clean, with nothing untracked. *)
Definition require_clean (root message : string) : P (B := B) unit :=
  status ← replace_err (new_error message) (forwardLocalGit root status_args);
  guard (negb (String.eqb status "")) (new_error message).

Definition PrepareForwardCheckout (root destination sha : string) : P (B := B) unit :=
  _ ← guard (negb (shaRE sha) || negb (has_prefix "/" root) || negb (has_prefix "/" destination))
        (new_error "isolated checkout requires exact commit and absolute paths");
  _ ← run_steps (exact_checkout_steps root destination sha);
  let differs := new_error "isolated checkout does not match exact commit" in
  actual ← replace_err differs (forwardLocalGit destination ["rev-parse"; "HEAD"]);
  _ ← guard (negb (String.eqb actual sha)) differs;
  require_clean destination "isolated exact checkout is not clean".

Definition unmerged : list string := ["diff"; "--name-only"; "--diff-filter=U"].

Definition rebase_args (main fork : string) : list string :=
  ["-c"; "user.name=Auto-forward controller"; "-c"; "user.email=auto-forward@localhost"; "rebase"; "--no-autostash"; "--no-update-refs";
   "--no-autosquash"; "--no-rebase-merges"; "--reapply-cherry-picks"; "--empty=keep"; "--onto"; main; fork].

(** After a conflict the whole delta of the proposal is put on main for the
    repair; this never ends well. *)
Definition materialize_delta (candidate main head fork : string) : P (B := B) unit :=
  conflicts ← attempt (forwardLocalGit candidate unmerged);
  _ ← guard (match conflicts with Ok c => String.eqb c "" | Err _ => true end)
        (new_error "mechanical rebase failed without a repairable conflict");
  patch ← replace_err (new_error "complete proposal delta is unavailable")
            (local_output candidate ["diff"; "--binary"; "--full-index"; "--no-ext-diff"; "--no-textconv"; fork; head; "--"]);
  _ ← forwardLocalGit candidate ["rebase"; "--abort"];
  _ ← forwardLocalGit candidate ["checkout"; "--detach"; main];
  applied ← attempt (host (ArtifactGitIn (local_args candidate ++ ["apply"; "--3way"; "--index"; "--whitespace=nowarn"]) patch));
  match applied with
  | Ok _ => fail ErrForwardConflict
  | Err _ =>
    conflicts ← attempt (forwardLocalGit candidate unmerged);
    _ ← guard (match conflicts with Ok c => String.eqb c "" | Err _ => true end)
          (new_error "complete proposal delta could not be materialized for repair");
    fail ErrForwardConflict
  end.

Definition prepareForwardRebase (root candidate main head : string) : P (B := B) unit :=
  _ ← guard (negb (shaRE main) || negb (shaRE head)) (new_error "mechanical rebase requires exact main and candidate commits");
  _ ← PrepareForwardCheckout root candidate head;
  _ ← forwardLocalGit candidate ["fetch"; "--no-tags"; "--no-write-fetch-head"; root; main];
  fork ← forwardLocalGit candidate ["merge-base"; main; head];
  let nonlinear := new_error "non-linear candidate history requires explicit repair" in
  merges ← replace_err nonlinear (forwardLocalGit candidate ["rev-list"; "--merges"; fork +:+ ".." +:+ head]);
  _ ← guard (negb (String.eqb merges "")) nonlinear;
  rebased ← attempt (forwardLocalGit candidate (rebase_args main fork));
  match rebased with Ok _ => mret tt | Err _ => materialize_delta candidate main head fork end.
End git.

(** * The controller *)

Section native.
Context {W : Type} {B : Boundary W} {H : Host W}.
Context (r : ForwardRequest).
(** [Token]: the token, and its release; whether it may change workflows. *)
Context (Token : bool -> P (B := B) (string * P (B := B) unit)) (ReviewCandidate : P (B := B) unit).
Context (VerifyCandidate : option (string -> string -> P (B := B) unit)).
Context (RepairCandidate : option (string -> string -> string -> P (B := B) (GoalVerifyResult * option error))).

Abbreviation root := (fq_RepoRoot r).
Definition state : Type := NativeForward * flow (B := B).
Definition M (A : Type) : Type := state -> res A * state.

#[export] Instance M_ret : MRet M := fun A a st => (Ok a, st).
#[export] Instance M_bind : MBind M := fun A C f m st =>
  match m st with (Ok a, st') => f a st' | (Err e, st') => (Err e, st') end.

(** A flow, in which no bound of a model is met. *)
Definition out_of_model : error := new_error "bound of the model".
Definition lift {A} (m : P (B := B) A) : M A := fun st =>
  match m (snd st) with Some (x, s) => (x, (fst st, s)) | None => (Err out_of_model, st) end.
Definition this {A} (f : NativeForward -> A) : M A := fun st => (Ok (f (fst st)), st).
Definition update (f : NativeForward -> NativeForward) : M unit := fun st => (Ok tt, (f (fst st), snd st)).
Definition caughtM {A} (m : M A) : M (res A) := fun st => let '(x, st') := m st in (Ok x, st').
Definition finallyM {A} (m : M A) (cleanup : P (B := B) unit) : M A := fun st =>
  let '(x, st') := m st in (x, snd (lift cleanup st')).

Definition read_ctx (c : ctx_kind) : ctx := match c with Original => CallCtx | Readback => ReadCtx end.

Definition integration_identity_changed (pr : publicationPR) : bool :=
  negb (pr_Number pr =? fq_Number r)%Z || negb (String.eqb (Ref (pr_Base pr)) (fq_BaseBranch r)) ||
  negb (String.eqb (FullName (pr_Head pr)) (fq_Repository r)) || negb (String.eqb (FullName (pr_Base pr)) (fq_Repository r)) ||
  String.eqb (Ref (pr_Head pr)) (fq_BaseBranch r) || String.eqb (Ref (pr_Head pr)) "".

(** The branch is one that a goal on this target allocated. *)
Definition allocated (branch : string) : bool :=
  match syncBranchName (RefName (fq_Target r)) (PeeledCommitSHA (fq_Target r)) (fq_OriginalBase r) with
  | Some name => let prefix := name +:+ "-goal-" in
    has_prefix prefix branch && (String.length (trim_prefix prefix branch) =? 16)%nat
  | None => false
  end.

Definition fixed_branch (branch : string) (pr : goalDraftPR) : P (B := B) unit :=
  guard (fixed_target r && (negb (allocated branch) ||
          match verifyAppActor (User (draft_pr pr)) (PublicationAppBotID r) with Ok _ => false | Err _ => true end))
    (new_error "native goal allocation or creator differs from handoff").

(** Main only advances from what was seen before. *)
Definition monotonic (last main : string) : P (B := B) unit :=
  if String.eqb last "" || String.eqb last main then mret tt else
  _ ← goalGit root ["fetch"; "--no-tags"; "origin"; last];
  let reset := new_error "main reset or diverged from previously observed accepted baseline" in
  contained ← replace_err reset (Ancestor root last main);
  guard (negb contained) reset.

Definition forward_state (branch head main : string) (pr : goalDraftPR) : ForwardState :=
  let merged := match MergedAt (draft_pr pr) with Some _ => true | None => false end in
  {| fs_Head := head; fs_Main := main; fs_Branch := branch;
     Forward.Ready := String.eqb (pr_State (draft_pr pr)) "open" && negb (Draft pr) && negb merged; Merged := merged |}.

Definition Read (c : ctx_kind) (expected : string) : M ForwardState :=
  _ ← lift (ended (read_ctx c));
  pr ← lift (replace_err (new_error "cannot read integration PR") (get decode_draft (pull_path (fq_Repository r) (fq_Number r))));
  _ ← lift (guard (integration_identity_changed (draft_pr pr)) (new_error "integration PR identity changed"));
  let branch := Ref (pr_Head (draft_pr pr)) in
  _ ← lift (goalGit root ["check-ref-format"; "refs/heads/" +:+ branch]);
  known ← this nf_branch;
  _ ← lift (guard (negb (String.eqb known "") && negb (String.eqb known branch)) (new_error "PR branch changed"));
  _ ← update (set_branch branch);
  _ ← lift (fixed_branch branch pr);
  let unknown := new_error "current main cannot be confirmed" in
  main ← lift (replace_err unknown (remote_ref root (fq_BaseBranch r)));
  _ ← lift (guard (negb (shaRE main)) unknown);
  head ← lift (remote_ref root branch);
  _ ← lift (goalGit root (["fetch"; "--no-tags"; "origin"; main] ++ (if String.eqb head "" then [] else [head])));
  last ← this lastMain;
  _ ← lift (monotonic last main);
  _ ← update (set_lastMain main);
  bot ← this (fun n => default 0%Z (writers n !! expected));
  _ ← lift (if String.eqb head expected && fixed_target r
            then replace_err (new_error "current native branch writer is not the bound publication/integration App")
                   (head_actor (fq_Repository r) branch expected bot)
            else mret tt);
  mret (forward_state branch head main pr).

(** Linear, and for a fixed target still wanted. *)
Definition Policy (main head : string) : P (B := B) string :=
  let merged := new_error "candidate contains merge commits; linear integration required" in
  merges ← replace_err merged (goalGit root ["rev-list"; "--merges"; main +:+ ".." +:+ head]);
  _ ← guard (negb (String.eqb merges "")) merged;
  if negb (fixed_target r) then mret "run" else
  _ ← goalGit root ["fetch"; "--no-tags"; "origin"; fq_OriginalBase r];
  let lost := new_error "current main does not retain original accepted base" in
  retained ← replace_err lost (Ancestor root (fq_OriginalBase r) main);
  _ ← guard (negb retained) lost;
  _ ← target_current (fq_Target r) "fixed upstream target moved or is unavailable";
  let differs := new_error "candidate does not retain exact target identity" in
  identity ← replace_err differs (gitBaselineIdentityIn root head);
  _ ← guard (negb (bool_decide (identity = source_of (fq_Target r)))) differs;
  decision ← ResolveGoalRebinding root (fq_OriginalBase r) main (source_of (fq_Target r));
  mret (rb_Decision decision).

(** [Verify]: a proof counts for exactly this main and head, and so does a
    completed failure. *)
Definition prove (main head key : string) : M unit :=
  failure ← this (fun n => semanticFailures n !! key);
  match failure, VerifyCandidate with
  | Some e, _ => lift (fail e)
  | None, None => lift (fail (new_error "immutable current-main verification unavailable"))
  | None, Some verify =>
    proof ← caughtM (lift (verify main head));
    match proof with
    | Err e =>
      live ← lift (peek (fun w => match ctx_err CallCtx w with None => true | Some _ => false end));
      _ ← (if errors_is "local candidate verification failed" e && live then update (add_failure key e) else mret tt);
      lift (fail e)
    | Ok _ => _ ← lift (ended CallCtx); update (add_proof key)
    end
  end.

Definition Verify (main head : string) : M unit :=
  let key := key_of main head in
  proved ← this (fun n => bool_decide (key ∈ proofs n));
  if negb (fixed_target r) && String.eqb main (fq_VerificationBase r) && String.eqb head (fq_ExpectedHead r) && proved then mret tt else
  _ ← lift (if fixed_target r then mret tt else validateGenericForwardScope root main head);
  _ ← lift (validate_controls root main head);
  if proved then mret tt else prove main head key.

(** ** Rebasing *)

(** The candidate of a finished repair, as a commit on main. *)
Definition reconstruct (main : string) (verified : GoalVerifyResult) : P (B := B) string :=
  let snapshot := vr_SnapshotRoot verified in
  _ ← ended CallCtx;
  _ ← require_clean snapshot "repair snapshot changed";
  let changed := new_error "repair snapshot digest changed" in
  digest ← replace_err changed (goalSnapshot snapshot "");
  _ ← guard (negb (String.eqb digest (vr_SnapshotDigest verified))) changed;
  _ ← forwardLocalGit root ["fetch"; "--no-tags"; "--no-write-fetch-head"; snapshot; "HEAD"];
  tree ← forwardLocalGit snapshot ["rev-parse"; "HEAD^{tree}"];
  next ← forwardLocalGit root ["-c"; "user.name=Auto-forward controller"; "-c"; "user.email=auto-forward@localhost"; "commit-tree"; tree;
                               "-p"; main; "-m"; "Reconstruct locally verified integration repair"];
  _ ← validate_controls root main next;
  mret next.

Definition close_repair (verified : GoalVerifyResult) : P (B := B) unit :=
  if String.eqb (cleanupRoot verified) "" then mret tt else remove_all (cleanupRoot verified).

Definition repair (candidate main head : string) (cause : error) : M string :=
  _ ← lift (ended CallCtx);
  match RepairCandidate with
  | Some f =>
    if negb (fixed_target r) then lift (fail cause) else
    '(verified, e) ← lift (f candidate main head);
    next ← finallyM (lift (match e with Some e => fail e | None => reconstruct main verified end)) (close_repair verified);
    _ ← update (add_proof (key_of main next));
    mret next
  | None => lift (fail cause)
  end.

(** The mechanical rebase, proved against main. *)
Definition mechanical (candidate main head : string) : M (res string) :=
  rebased ← caughtM (lift (prepareForwardRebase root candidate main head));
  match rebased with
  | Ok _ =>
    next ← lift (forwardLocalGit candidate ["rev-parse"; "HEAD"]);
    _ ← lift (forwardLocalGit root ["fetch"; "--no-tags"; "--no-write-fetch-head"; candidate; next]);
    proof ← caughtM (Verify main next);
    match proof with
    | Ok _ => mret (Ok next)
    | Err e => if errors_is "local candidate verification failed" e then mret (Err e) else lift (fail e)
    end
  | Err e => if errors_is "mechanical rebase conflicts; bounded fresh repair required" e then mret (Err e) else lift (fail e)
  end.

Definition Rebase (main head : string) : M string :=
  dir ← lift (host (MkdirTemp "auto-forward-rebase-"));
  finallyM
    (let candidate := path_join dir "candidate" in
     _ ← lift (guard (negb (fixed_target r) && (negb (shaRE (fq_OriginalBase r)) || negb (shaRE (fq_VerificationBase r))))
           (new_error "mechanical reconciliation requires immutable baseline bindings"));
     next ← mechanical candidate main head;
     match next with Ok next => mret next | Err cause => repair candidate main head cause end)
    (remove_all dir).

(** ** Writing *)

Definition write_args (hooks : string) (args : list string) : list string :=
  ["-c"; "core.hooksPath=" +:+ hooks; "-c"; "core.fsmonitor=false"; "-c"; "credential.helper="; "-c";
   "credential.helper=!gh auth git-credential"; "-C"; root] ++ args.

Definition token_failure (e : error) : error :=
  match find_typed is_token e with
  | Some failure => Errorf "integration %w" [failure]
  | None => new_error "integration App token preparation failed"
  end.

Definition push_with (hooks : string) (args : list string) (workflows : bool) : P (B := B) unit :=
  '(token, release) ← map_err token_failure (Token workflows);
  finally
    (_ ← replace_err (new_error "integration Git effect rejected; observe refs and check installed App permissions")
           (host (PushGit (write_args hooks args) (Some token))); mret tt)
    release.

(** [write]; a push to main runs under the hook that binds it to its proof. *)
Definition write (args : list string) (workflows : bool) (mainProof : option (string * string)) : P (B := B) unit :=
  match mainProof with
  | None => push_with "/dev/null" args workflows
  | Some (head, main) =>
    hooks ← prepareExactRefHook head main "main";
    finally (push_with hooks args workflows) (remove_all hooks)
  end.

Definition needsWorkflows (a b : string) : P (B := B) bool :=
  out ← goalGit root ["diff"; "--name-only"; a; b; "--"; ".github/workflows"]; mret (negb (String.eqb out "")).

Definition lease_args (branch old new : string) : list string :=
  ["push"; "--porcelain"; "--force-with-lease=refs/heads/" +:+ branch +:+ ":" +:+ old; "origin"; new +:+ ":refs/heads/" +:+ branch].
Definition main_args (head : string) : list string := ["push"; "--porcelain"; "origin"; head +:+ ":refs/heads/" +:+ fq_BaseBranch r].

(** The branch and main are still where they were observed. *)
Definition unmoved (message head main : string) : M unit :=
  current ← Read Original head;
  lift (guard (negb (Forward.Ready current) || negb (String.eqb (fs_Head current) head) || negb (String.eqb (fs_Main current) main))
          (new_error message)).

Definition run_policy (message main head : string) : M unit :=
  decision ← lift (Policy main head);
  lift (guard (negb (String.eqb decision "run")) (new_error message)).

Definition Publish (old next main : string) : M unit :=
  _ ← unmoved "candidate/main moved before branch lease" old main;
  _ ← Verify main next;
  _ ← run_policy "fixed target superseded before publication" main next;
  workflows ← lift (needsWorkflows old next);
  _ ← update (add_writer next (IntegrationAppBotID r));
  branch ← this nf_branch;
  lift (write (lease_args branch old next) workflows None).

Definition Checks (head : string) : M Observation :=
  _ ← lift (ended CallCtx); lift (observe (fq_Repository r) head).

Definition successful (head : string) : M unit :=
  checks ← Checks head;
  lift (guard (negb (String.eqb (Checks.Head checks) head) || negb (bool_decide (obs_State checks = Succeeded)))
          (new_error "four exact-head checks required immediately before main write")).

Definition linear_on (main head : string) : P (B := B) unit :=
  let changed := new_error "main fast-forward precondition changed" in
  linear ← replace_err changed (Ancestor root main head);
  guard (negb linear) changed.

Definition Forward (head main : string) : M unit :=
  _ ← unmoved "candidate/main changed at integration boundary" head main;
  _ ← lift (linear_on main head);
  _ ← Verify main head;
  _ ← lift ReviewCandidate;
  _ ← successful head;
  _ ← run_policy "target no longer eligible before main write" main head;
  lift (write (main_args head) false (Some (head, main))).

(** ** Cleaning up *)

Definition open_pulls_path (branch : string) : string :=
  "repos/" +:+ fq_Repository r +:+ "/pulls?state=open&head=" +:+
  QueryEscape (hd "" (split_byte "/"%char (fq_Repository r)) +:+ ":" +:+ branch) +:+ "&per_page=100".

Definition delete_args (branch head : string) : list string :=
  ["push"; "--porcelain"; "--force-with-lease=refs/heads/" +:+ branch +:+ ":" +:+ head; "origin"; ":refs/heads/" +:+ branch].

(** A deletion is leased too, and read back. *)
Definition delete_branch (branch head : string) : P (B := B) unit :=
  let used := new_error "open PRs still use branch or cannot be ruled out; branch retained" in
  prs ← replace_err used (get decode_prs (open_pulls_path branch));
  _ ← guard (negb (length prs =? 0)%nat) used;
  pushed ← attempt (write (delete_args branch head) false None);
  actual ← replace_err (new_error "branch deletion outcome unknown") (remote_ref root branch);
  if String.eqb actual "" then mret tt else
  match pushed with Err e => fail e | Ok _ => fail (new_error "integrated branch deletion not confirmed") end.

(** The loop; [polls] bounds it. *)
Fixpoint Cleanup (polls : nat) (head : string) : M unit :=
  match polls with
  | O => lift (fail out_of_model)
  | S polls =>
    current ← Read Original head;
    let lost := new_error "main no longer contains candidate; branch retained" in
    contained ← lift (replace_err lost (Ancestor root head (fs_Main current)));
    _ ← lift (guard (negb contained) lost);
    if Merged current then
      if String.eqb (fs_Head current) "" then mret tt else
      _ ← lift (guard (negb (String.eqb (fs_Head current) head)) (new_error "integrated branch changed; preserved external edit"));
      branch ← this nf_branch;
      lift (delete_branch branch head)
    else
      _ ← lift (guard (negb (Forward.Ready current)) (new_error "GitHub has not confirmed merged PR; branch retained"));
      _ ← lift (attempt (host (Sleep 5)));
      _ ← lift (replace_err (new_error "deadline while waiting for GitHub merged observation; branch retained") (ended CallCtx));
      Cleanup polls head
  end.

Definition RebasedHead (n : NativeForward) (head : string) : bool :=
  let bot := default 0%Z (writers n !! head) in (0 <? bot)%Z && (bot =? IntegrationAppBotID r)%Z.

(** ** The operations of [AutoForward] *)

Definition err_only {A} (m : M A) : state -> option error * state := fun st =>
  let '(x, st') := m st in (match x with Ok _ => None | Err e => Some e end, st').
Definition observed_checks (m : M Observation) : state -> (Observation * option error) * state := fun st =>
  let '(x, st') := m st in (match x with Ok o => (o, None) | Err e => (no_observation, Some e) end, st').

Definition native_operations (polls : nat) : ForwardOperations (W := state) := {|
  op_Read := Read;
  op_Ancestor _ a b := lift (Ancestor root a b);
  op_Policy main head := lift (Policy main head);
  op_Rebase := Rebase;
  op_Publish old next main := err_only (Publish old next main);
  op_Checks head := observed_checks (Checks head);
  op_Review := err_only (lift ReviewCandidate);
  op_Verify main head := err_only (Verify main head);
  op_Forward head main := err_only (Forward head main);
  op_Cleanup head := err_only (Cleanup polls head) |}.

(** The select of the loop between the end of the context and its timer. *)
Definition native_wait (interval : Z) : state -> option error * state :=
  err_only (_ ← lift (attempt (host (Sleep interval))); lift (ended CallCtx)).
Definition native_ctx (st : state) : option error := ctx_err CallCtx (world (snd st)).
End native.
