(* ===== verification/Integration.v ===== *)
(** What integrating a candidate does to the remote: the loop of [Forward] over
    the operations of [NativeForward].  Every effect of a run belongs to one call
    of the loop, is the one push that call may make, and comes after everything
    that the loop and the call demand. *)

From Stdlib Require Import Ascii.
From S2P Require Import Prelude GoStrings Policy Scope Resolve PublicationText Checks Forward Boundary Inspection Goal GoalSnapshot Rebinding GoalPublication Desk GoalIntents GoalDiagnostics GoalProgress GoalFlow GoalAcceptance GoalHandoff NativeForward.

Local Open Scope string_scope.
Local Open Scope list_scope.
Local Open Scope goal_scope.

(** * Steps without effects *)

Section quiet.
Context {W : Type} {B : Boundary W} {H : Host W}.
Context (fresh : string -> Prop) (R : flow (B := B) -> flow (B := B) -> Prop) {Q : Quiet fresh R}.
#[local] Instance order_n : PreOrder R := quiet_order.
#[local] Hint Resolve order_n : quieting.
#[local] Hint Extern 2 (fresh (path_join _ _)) => apply fresh_below : quieting.

Lemma local_output_quiet root args : git_command args <> "push" -> along R (local_output root args).
Proof. intros Ha. apply quiet_host. exact Ha. Qed.
Lemma forwardLocalGit_quiet root args : git_command args <> "push" -> along R (forwardLocalGit root args).
Proof. intros Ha. unfold forwardLocalGit. pose proof (local_output_quiet root args Ha). quieted. Qed.
#[local] Hint Resolve local_output_quiet forwardLocalGit_quiet : quieting.

Lemma changed_between_quiet root main head : along R (changed_between root main head).
Proof. unfold changed_between. quieted. Qed.
Lemma validate_controls_quiet root main head : along R (validate_controls root main head).
Proof. unfold validate_controls. quieted. Qed.
Lemma validateGenericForwardScope_quiet root main head : along R (validateGenericForwardScope root main head).
Proof. unfold validateGenericForwardScope. pose proof changed_between_quiet. quieted. Qed.
Lemma remote_ref_quiet root branch : along R (remote_ref root branch).
Proof. unfold remote_ref. quieted. Qed.
Lemma Ancestor_quiet root a b : along R (Ancestor root a b).
Proof. unfold Ancestor. quieted. Qed.
Lemma run_steps_quiet steps : Forall (fun step => git_command step.2 <> "push") steps -> along R (run_steps steps).
Proof. induction 1 as [|[root args] steps Ha _ IH]; cbn [run_steps]; quieted. Qed.
Lemma require_clean_quiet root message : along R (require_clean root message).
Proof. unfold require_clean, status_args. quieted. Qed.
Lemma PrepareForwardCheckout_quiet root destination sha : along R (PrepareForwardCheckout root destination sha).
Proof.
  unfold PrepareForwardCheckout. pose proof require_clean_quiet.
  assert (along R (run_steps (exact_checkout_steps root destination sha))) by by apply run_steps_quiet; repeat constructor.
  quieted.
Qed.
Lemma prepareForwardRebase_quiet root candidate main head : along R (prepareForwardRebase root candidate main head).
Proof.
  unfold prepareForwardRebase, materialize_delta, unmerged, rebase_args. pose proof PrepareForwardCheckout_quiet. quieted.
Qed.
End quiet.

Create HintDb stilling.

Section still.
Context {W : Type} {B : Boundary W} {H : Host W}.
Abbreviation N := (M (W := W)).

(** A step of the controller without effects. *)
Definition still {A} (m : N A) : Prop := forall st, no_effect (snd st) (snd (snd (m st))).

Lemma still_lift {A} (m : P (B := B) A) : along no_effect m -> still (lift m).
Proof. intros Hm st. unfold lift. destruct (m (snd st)) as [[x s]|] eqn:E; cbn; [by eapply Hm | done]. Qed.
Lemma still_guard bad e : still (lift (guard (B := B) bad e)).
Proof. apply still_lift, along_guard. apply _. Qed.
Lemma still_this {A} (f : NativeForward -> A) : still (this f).
Proof. by intros st. Qed.
Lemma still_update f : still (update f).
Proof. by intros st. Qed.
Lemma still_ret {A} (a : A) : still (mret a).
Proof. by intros st. Qed.
Lemma still_bind {A C} (m : N A) (f : A -> N C) : still m -> (forall a, still (f a)) -> still (m ≫= f).
Proof.
  intros Hm Hf st. specialize (Hm st). unfold mbind, M_bind. destruct (m st) as [[a|e] st1]; [|done].
  etransitivity; [exact Hm | apply Hf].
Qed.
Lemma still_caught {A} (m : N A) : still m -> still (caughtM m).
Proof. intros Hm st. specialize (Hm st). unfold caughtM. by destruct (m st). Qed.
Lemma still_finally {A} (m : N A) cleanup : still m -> along no_effect cleanup -> still (finallyM m cleanup).
Proof.
  intros Hm Hc st. specialize (Hm st). unfold finallyM. destruct (m st) as [x st1]. cbn.
  etransitivity; [exact Hm | by apply still_lift].
Qed.
End still.
#[export] Hint Resolve still_this still_update still_ret : stilling.

(** From the structure of a step of the controller to that of its flows. *)
Ltac stilled :=
  repeat first
    [ progress intros
    | solve [eauto 3 with stilling]
    | lazymatch goal with
      | |- still (mbind _ _) => apply still_bind
      | |- still (caughtM _) => apply still_caught
      | |- still (finallyM _ _) => apply still_finally
      | |- still (lift _) => apply still_lift
      | |- still (match ?x with _ => _ end) => destruct x
      | |- still (if ?x then _ else _) => destruct x
      end ].

Section native.
Context {W : Type} {B : Boundary W} {H : Host W}.
Context (r : ForwardRequest).
Context (Token : bool -> P (B := B) (string * P (B := B) unit)) (ReviewCandidate : P (B := B) unit).
Context (VerifyCandidate : option (string -> string -> P (B := B) unit)).
Context (RepairCandidate : option (string -> string -> string -> P (B := B) (GoalVerifyResult * option error))).

Abbreviation root := (fq_RepoRoot r).
Abbreviation Verify := (Verify r VerifyCandidate).
Abbreviation Rebase := (Rebase r VerifyCandidate RepairCandidate).
Abbreviation Publish := (Publish r Token VerifyCandidate).
Abbreviation Forward := (NativeForward.Forward r Token ReviewCandidate VerifyCandidate).
Abbreviation Cleanup := (Cleanup r Token).

(** The callbacks of the request have no effects on the repository. *)
Record callbacks_still : Prop := {
  token_still workflows : along no_effect (Token workflows);
  release_still workflows s token release s' :
    Token workflows s = Some (Ok (token, release), s') -> along no_effect release;
  review_still : along no_effect ReviewCandidate;
  verify_still f main head : VerifyCandidate = Some f -> along no_effect (f main head);
  repair_still f candidate main head : RepairCandidate = Some f -> along no_effect (f candidate main head) }.
Context (Hcalls : callbacks_still).

#[local] Hint Resolve no_effect_order : quieting.
Abbreviation T := (fun _ : string => True).

Lemma goalGit_still dir args : git_command args <> "push" -> along no_effect (goalGit dir args).
Proof. intros Ha. unfold goalGit. apply along_bind; [apply _ | apply along_map, quiet_run, Ha | intros; apply along_ret]. apply _. Qed.
Lemma Ancestor_still a b : along no_effect (Ancestor root a b).
Proof. exact (Ancestor_quiet T no_effect root a b). Qed.
Lemma remote_ref_still branch : along no_effect (remote_ref root branch).
Proof. exact (remote_ref_quiet T no_effect root branch). Qed.
Lemma observe_still repository head : along no_effect (observe repository head).
Proof. exact (quiet_observe T no_effect repository head). Qed.
#[local] Hint Resolve goalGit_still Ancestor_still remote_ref_still observe_still : quieting.
Lemma get_still {A} (decode : Raw -> res A) path : along no_effect (get decode path).
Proof. apply along_bind; [apply _ | apply (quiet_get (Quiet := no_effect_quiet)) | intros; apply along_of_res; apply _]. Qed.
Lemma target_current_still target message : along no_effect (target_current target message).
Proof.
  unfold target_current. apply along_bind; [apply _ | apply along_replace, (quiet_resolve (Quiet := no_effect_quiet)) |].
  intros. apply along_guard. apply _.
Qed.
#[local] Hint Resolve get_still target_current_still : quieting.

Lemma Read_still c expected : still (Read r c expected).
Proof.
  unfold Read, monotonic, fixed_branch, head_actor, publicationHeadActor. stilled; quieted.
Qed.
Lemma gitBaselineIdentityIn_still head : along no_effect (gitBaselineIdentityIn root head).
Proof.
  unfold gitBaselineIdentityIn, gitOutput. apply along_bind; [apply _ | by apply along_wrap, (quiet_run (Quiet := no_effect_quiet)) |].
  intros. apply along_of_res. apply _.
Qed.
#[local] Hint Resolve gitBaselineIdentityIn_still : quieting.
Lemma ResolveGoalRebinding_still original current target : along no_effect (ResolveGoalRebinding root original current target).
Proof. unfold ResolveGoalRebinding. quieted. Qed.
#[local] Hint Resolve ResolveGoalRebinding_still : quieting.
Lemma Policy_still main head : along no_effect (Policy r main head).
Proof. unfold Policy. quieted. Qed.
Lemma Verify_still main head : still (Verify main head).
Proof.
  unfold NativeForward.Verify, prove.
  pose proof (validateGenericForwardScope_quiet T no_effect root main head).
  pose proof (validate_controls_quiet T no_effect root main head).
  destruct VerifyCandidate as [f|] eqn:Ef; [pose proof (verify_still Hcalls f main head Ef)|]; stilled; quieted.
Qed.
Lemma remove_all_still dir : along no_effect (remove_all dir).
Proof. exact (remove_all_quiet T no_effect dir I). Qed.
#[local] Hint Resolve remove_all_still : quieting.
Lemma forwardLocalGit_still dir args : git_command args <> "push" -> along no_effect (forwardLocalGit dir args).
Proof. exact (forwardLocalGit_quiet T no_effect dir args). Qed.
Lemma snapshot_still dir : along no_effect (goalSnapshot dir "").
Proof. exact (goalSnapshot_quiet T no_effect dir "" (or_introl eq_refl)). Qed.
#[local] Hint Resolve forwardLocalGit_still snapshot_still : quieting.

Lemma reconstruct_still main verified : along no_effect (reconstruct r main verified).
Proof.
  unfold reconstruct. pose proof (fun next => validate_controls_quiet T no_effect root main next).
  pose proof (require_clean_quiet T no_effect). quieted.
Qed.
Lemma repair_step_still candidate main head cause : still (repair r RepairCandidate candidate main head cause).
Proof.
  unfold repair, close_repair. pose proof reconstruct_still.
  destruct RepairCandidate as [f|] eqn:Ef; [pose proof (fun c m h => repair_still Hcalls f c m h Ef)|]; stilled; quieted.
Qed.
Lemma Rebase_still main head : still (Rebase main head).
Proof.
  unfold NativeForward.Rebase, mechanical. pose proof repair_step_still. pose proof Verify_still.
  pose proof (prepareForwardRebase_quiet T no_effect). 
  pose proof (quiet_host (Quiet := no_effect_quiet) (MkdirTemp "auto-forward-rebase-") I). stilled; quieted.
Qed.

(** * The branch *)

(** A branch that a call may push or delete: not main, and on a fixed target one
    that a goal on this target allocated. *)
Definition own_branch (branch : string) : Prop :=
  branch <> fq_BaseBranch r /\ branch <> "" /\ (fixed_target r = true -> allocated r branch = true).

(** The branch, once known, stays. *)
Definition same_branch (st st' : state) : Prop := nf_branch (fst st) <> "" -> nf_branch (fst st') = nf_branch (fst st).

#[local] Instance same_branch_order : PreOrder same_branch.
Proof.
  split; [by intros st|]. intros st1 st2 st3 H1 H2 Hb. specialize (H1 Hb). rewrite <- H1. apply H2. by rewrite H1.
Qed.

Definition branched {A} (m : M A) : Prop := forall st, same_branch st (snd (m st)).

Lemma branched_lift {A} (m : P (B := B) A) : branched (lift m).
Proof. intros st _. unfold lift. by destruct (m (snd st)) as [[x s]|]. Qed.
Lemma branched_this {A} (f : NativeForward -> A) : branched (this f).
Proof. by intros st. Qed.
Lemma branched_update f : (forall n, nf_branch (f n) = nf_branch n) -> branched (update f).
Proof. intros Hf st _. apply Hf. Qed.
Lemma branched_ret {A} (a : A) : branched (mret a).
Proof. by intros st. Qed.
Lemma branched_bind {A C} (m : M A) (f : A -> M C) : branched m -> (forall a, branched (f a)) -> branched (m ≫= f).
Proof.
  intros Hm Hf st. specialize (Hm st). unfold mbind, M_bind. destruct (m st) as [[a|e] st1]; [|done].
  etransitivity; [exact Hm | apply Hf].
Qed.
Lemma branched_caught {A} (m : M A) : branched m -> branched (caughtM m).
Proof. intros Hm st. specialize (Hm st). unfold caughtM. by destruct (m st). Qed.
Lemma branched_finally {A} (m : M A) cleanup : branched m -> branched (finallyM m cleanup).
Proof.
  intros Hm st. specialize (Hm st). unfold finallyM. destruct (m st) as [x st1]. cbn.
  etransitivity; [exact Hm | apply branched_lift].
Qed.
#[local] Hint Resolve branched_lift branched_this branched_ret : stilling.
#[local] Hint Extern 1 (branched (update _)) => apply branched_update; reflexivity : stilling.

Ltac branching :=
  repeat first
    [ progress intros
    | solve [eauto 3 with stilling]
    | lazymatch goal with
      | |- branched (mbind _ _) => apply branched_bind
      | |- branched (caughtM _) => apply branched_caught
      | |- branched (finallyM _ _) => apply branched_finally
      | |- branched (match ?x with _ => _ end) => destruct x
      | |- branched (if ?x then _ else _) => destruct x
      end ].

Lemma Verify_branched main head : branched (Verify main head).
Proof. unfold NativeForward.Verify, prove. branching. Qed.
Lemma run_policy_branched message main head : branched (run_policy r message main head).
Proof. unfold run_policy. branching. Qed.
Lemma Rebase_branched main head : branched (Rebase main head).
Proof. unfold NativeForward.Rebase, mechanical, repair. pose proof Verify_branched. branching. Qed.
Lemma Checks_branched head : branched (NativeForward.Checks r head).
Proof. unfold NativeForward.Checks. branching. Qed.
Lemma successful_branched head : branched (successful r head).
Proof. unfold successful. pose proof Checks_branched. branching. Qed.

Lemma M_bind_Ok {A C} (m : M A) (f : A -> M C) st x st' : (m ≫= f) st = (Ok x, st') ->
  exists a st1, m st = (Ok a, st1) /\ f a st1 = (Ok x, st').
Proof. unfold mbind, M_bind. destruct (m st) as [[a|e] st1]; [eauto | done]. Qed.

Lemma learn_branched {A} branch e (k : M A) : branched k ->
  branched (known ← this nf_branch; _ ← lift (guard (negb (String.eqb known "") && negb (String.eqb known branch)) e);
            _ ← update (set_branch branch); k).
Proof.
  intros Hk st Hb. unfold mbind, M_bind, this, update, lift, guard. destruct (_ && _) eqn:Eg; [done|]. cbn.
  apply andb_false_iff in Eg as [E|E]; apply negb_false_iff, String.eqb_eq in E; [done|].
  specialize (Hk (set_branch branch (fst st), snd st)). cbn in *. rewrite Hk; cbn; congruence.
Qed.
Lemma Read_branched c expected : branched (Read r c expected).
Proof.
  unfold Read. do 4 (apply branched_bind; [branching | intros; cbv zeta]). apply learn_branched. branching.
Qed.

Lemma lift_Ok {A} (m : P (B := B) A) st a st' : lift m st = (Ok a, st') -> m (snd st) = Some (Ok a, snd st') /\ fst st' = fst st.
Proof. unfold lift. destruct (m (snd st)) as [[x s]|]; by intros [= -> <-]. Qed.

(** A read that succeeds knows the branch of the pull request, and it is the
    proposal's own. *)
Lemma Read_own c expected (st st1 : state) current : Read r c expected st = (Ok current, st1) -> own_branch (nf_branch (fst st1)).
Proof.
  unfold Read. intros Hr. do 2 (apply M_bind_Ok in Hr as (? & ? & _ & Hr)).
  apply M_bind_Ok in Hr as ([] & ? & [Hg _]%lift_Ok & Hr). apply guard_inv in Hg as [Hg _]. cbv zeta in Hr.
  apply M_bind_Ok in Hr as (? & ? & _ & Hr). apply M_bind_Ok in Hr as (? & ? & _ & Hr). apply M_bind_Ok in Hr as (? & ? & _ & Hr).
  apply M_bind_Ok in Hr as (? & st2 & [= _ <-] & Hr). apply M_bind_Ok in Hr as ([] & st3 & [Hf E3]%lift_Ok & Hr).
  apply guard_inv in Hf as [Hf _]. match type of Hr with ?m _ = _ => assert (branched m) as Hm by branching end.
  unfold integration_identity_changed in Hg. repeat apply orb_false_iff in Hg as [Hg ?].
  match goal with H1 : String.eqb (Ref (pr_Head _)) "" = false, H2 : String.eqb (Ref (pr_Head _)) (fq_BaseBranch r) = false |- _ =>
    apply String.eqb_neq in H1, H2; rename H1 into Hne, H2 into Hbase end.
  specialize (Hm st3). rewrite Hr in Hm. unfold same_branch in Hm. rewrite E3 in Hm. cbn in Hm. rewrite (Hm Hne).
  split_and!; [done..|]. intros Hfix. rewrite Hfix in Hf. by apply orb_false_iff in Hf as [?%negb_false_iff _].
Qed.

Lemma branched_run {A} (m : M A) st x st1 : branched m -> m st = (x, st1) -> same_branch st st1.
Proof. intros Hm E. specialize (Hm st). by rewrite E in Hm. Qed.
Lemma unmoved_branched message head main : branched (unmoved r message head main).
Proof. unfold unmoved. pose proof Read_branched. branching. Qed.
Lemma Publish_branched old next main : branched (Publish old next main).
Proof. unfold NativeForward.Publish. pose proof unmoved_branched. pose proof Verify_branched. pose proof run_policy_branched. branching. Qed.
Lemma Forward_branched head main : branched (Forward head main).
Proof.
  unfold NativeForward.Forward. pose proof unmoved_branched. pose proof Verify_branched. pose proof run_policy_branched.
  pose proof successful_branched. branching.
Qed.
Lemma Cleanup_branched polls head : branched (Cleanup polls head).
Proof. pose proof Read_branched. induction polls as [|polls IH]; cbn [NativeForward.Cleanup]; branching. Qed.

(** * Effects *)

Definition effects (s : flow (B := B)) : list event := List.filter effect (log s).

Lemma no_effect_effects s s' : no_effect s s' -> effects s' = effects s.
Proof.
  intros (l & E & Hl). unfold effects. rewrite E. clear E. induction Hl as [|e l He _ IH]; [done|]. cbn. by rewrite He.
Qed.

(** No effect, or one push with arguments in [P]. *)
Definition at_most (P : list string -> Prop) s s' : Prop :=
  effects s' = effects s \/
  exists args token out, P args /\ effects s' = Performed (PushGit args (Some token)) out :: effects s.

Lemma at_most_none P s s' : no_effect s s' -> at_most P s s'.
Proof. intros Hq%no_effect_effects. by left. Qed.
Lemma at_most_before P s s1 s' : no_effect s s1 -> at_most P s1 s' -> at_most P s s'.
Proof. intros Hq%no_effect_effects. unfold at_most. by rewrite Hq. Qed.
Lemma at_most_after P s s1 s' : at_most P s s1 -> no_effect s1 s' -> at_most P s s'.
Proof. intros Ha Hq%no_effect_effects. unfold at_most. by rewrite Hq. Qed.
Lemma at_most_weaken (P Q : list string -> Prop) s s' : (forall a, P a -> Q a) -> at_most P s s' -> at_most Q s s'.
Proof. intros Hpq [E|(args & token & out & ? & E)]; [by left | right; exists args, token, out; auto]. Qed.

Abbreviation written args := (fun a => exists hooks, a = write_args r hooks args).

(** A push that was tried with these hooks: where it was, and what followed. *)
Definition tried (hooks : string) (args : list string) (s s' : flow (B := B)) : Prop := exists token out s1 s2,
  no_effect s s1 /\ host (PushGit (write_args r hooks args) (Some token)) s1 = Some (out, s2) /\ no_effect s2 s'.

Lemma tried_before hooks args s s1 s' : no_effect s s1 -> tried hooks args s1 s' -> tried hooks args s s'.
Proof. intros Hq (t & o & s2 & s3 & ? & ?). exists t, o, s2, s3. split; [by etransitivity | done]. Qed.
Lemma tried_after hooks args s s1 s' : tried hooks args s s1 -> no_effect s1 s' -> tried hooks args s s'.
Proof. intros (t & o & s2 & s3 & ? & ? & ?) Hq. exists t, o, s2, s3. split_and!; [done..|]. by etransitivity. Qed.
Lemma tried_at_most hooks args s s' : tried hooks args s s' -> at_most (written args) s s'.
Proof.
  intros (t & o & s1 & s2 & H1 & E%host_log & H2). apply no_effect_effects in H1, H2. right. exists (write_args r hooks args), t, o.
  split; [by exists hooks|]. rewrite H2, <- H1. unfold effects. by rewrite E.
Qed.

Lemma push_with_tried hooks args workflows s x s' : push_with r Token hooks args workflows s = Some (x, s') ->
  no_effect s s' \/ tried hooks args s s'.
Proof.
  unfold push_with. intros [([token release] & s1 & H1 & H2)|(e & H1 & ->)]%P_bind_inv.
  - unfold map_err in H1. destruct (Token workflows s) as [[[[t rel]|e] s2]|] eqn:Et; [|done..]. injection H1 as -> -> ->.
    apply (token_still Hcalls) in Et as Hq. unfold finally in H2.
    destruct ((_ ← replace_err _ _; mret tt) s1) as [[y s3]|] eqn:E3; [|done].
    destruct (release s3) as [[z s4]|] eqn:E4; [|done]. injection H2 as <- <-.
    apply (release_still Hcalls _ _ _ _ _ Et) in E4. right. exists token.
    apply P_bind_inv in E3 as [(v & s5 & E5 & [= _ <-])|(e & E5 & _)]; unfold replace_err in E5;
      destruct (host _ s1) as [[[w|e'] s6]|] eqn:E6; try done; injection E5 as <- <-; by eexists _, s1, _.
  - left. unfold map_err in H1. destruct (Token workflows s) as [[[[t rel]|e'] s2]|] eqn:Et; [done| |done].
    injection H1 as _ <-. by eapply (token_still Hcalls).
Qed.
Lemma prepareExactRefHook_still head previous branch : along no_effect (prepareExactRefHook head previous branch).
Proof.
  unfold prepareExactRefHook. pose proof (fun call => quiet_host (Quiet := no_effect_quiet (B := B)) call).
  pose proof (fun args => quiet_run (Quiet := no_effect_quiet (B := B)) args "").
  quieted; first [by apply H0 | by apply H1].
Qed.
(** A push to main is tried under the hook that was just written for it. *)
Definition tried_bound (head main : string) (args : list string) (s s' : flow (B := B)) : Prop := exists hooks s1,
  prepareExactRefHook head main "main" s = Some (Ok hooks, s1) /\ tried hooks args s1 s'.

Lemma write_bound args workflows head main s x s' : write r Token args workflows (Some (head, main)) s = Some (x, s') ->
  no_effect s s' \/ tried_bound head main args s s'.
Proof.
  unfold write. intros [(hooks & s1 & H1 & H2)|(e & H1%prepareExactRefHook_still & _)]%P_bind_inv; [|by left].
  apply prepareExactRefHook_still in H1 as Hq1. unfold finally in H2.
  destruct (push_with _ _ _ _ _ s1) as [[y s2]|] eqn:E2; [|done].
  destruct (remove_all hooks s2) as [[z s3]|] eqn:E3; [|done]. injection H2 as <- <-.
  apply remove_all_still in E3. apply push_with_tried in E2 as [Hq|Ht].
  - left. by do 2 (etransitivity; [done|]).
  - right. exists hooks, s1. split; [done|]. by eapply tried_after.
Qed.
Lemma tried_bound_at_most head main args s s' : tried_bound head main args s s' -> at_most (written args) s s'.
Proof. intros (hooks & s1 & H1%prepareExactRefHook_still & H2%tried_at_most). by eapply at_most_before. Qed.

(** ** Steps of the controller *)

Lemma bindM_from {A C} (m : M A) (f : A -> M C) s0 (st : state) x st' : no_effect s0 (snd st) -> still m -> (m ≫= f) st = (x, st') ->
  (no_effect s0 (snd st') /\ exists e, x = Err e) \/
  exists a st1, m st = (Ok a, st1) /\ no_effect s0 (snd st1) /\ f a st1 = (x, st').
Proof.
  intros Hq Hm. specialize (Hm st). unfold mbind, M_bind. destruct (m st) as [[a|e] st1]; cbn in Hm.
  - intros Hf. right. exists a, st1. split_and!; [done | by etransitivity | done].
  - intros [= <- <-]. left. split; [by etransitivity | eauto].
Qed.
Lemma lift_fst {A} (m : P (B := B) A) st x st' : lift m st = (x, st') -> fst st' = fst st.
Proof. unfold lift. destruct (m (snd st)) as [[y s]|]; by intros [= _ <-]. Qed.
Lemma lift_cases {A} (m : P (B := B) A) st x st' : lift m st = (x, st') -> st' = st \/ m (snd st) = Some (x, snd st').
Proof. unfold lift. destruct (m (snd st)) as [[y s]|]; intros [= <- <-]; [by right | by left]. Qed.

(** ** Main *)

(** What a push of main to [head] rests on, up to the moment before it: the
    branch and main were read, unmoved and ready; main is an ancestor; the
    candidate is proved against main; the review passed; its checks succeed; and
    the target is still wanted. *)
Definition proved_main (head main : string) (st : state) (s6 : flow (B := B)) : Prop := exists current checks st1 s2 st3 s4 s5,
  Read r Original head st = (Ok current, st1) /\
  Forward.Ready current = true /\ fs_Head current = head /\ fs_Main current = main /\
  Ancestor root main head (snd st1) = Some (Ok true, s2) /\
  Verify main head (fst st1, s2) = (Ok tt, st3) /\
  ReviewCandidate (snd st3) = Some (Ok tt, s4) /\
  observe (fq_Repository r) head s4 = Some (Ok checks, s5) /\ Checks.Head checks = head /\ obs_State checks = Succeeded /\
  Policy r main head s5 = Some (Ok "run", s6).

Lemma proved_main_still head main st s : proved_main head main st s -> no_effect (snd st) s.
Proof.
  intros (current & checks & st1 & s2 & st3 & s4 & s5 & H1 & _ & _ & _ & H2%Ancestor_still & H3 & H4%(review_still Hcalls) &
    H5%observe_still & _ & _ & H6%Policy_still).
  pose proof (Read_still Original head st) as Q1. rewrite H1 in Q1. pose proof (Verify_still main head (fst st1, s2)) as Q3.
  rewrite H3 in Q3. cbn in *. transitivity (snd st1); [done|]. transitivity s2; [done|]. transitivity (snd st3); [done|].
  transitivity s4; [done|]. by transitivity s5.
Qed.

Lemma unmoved_still message head main : still (unmoved r message head main).
Proof. unfold unmoved. pose proof Read_still. stilled. quieted. Qed.
Lemma run_policy_still message main head : still (run_policy r message main head).
Proof. unfold run_policy. pose proof Policy_still. stilled; quieted. Qed.
Lemma Checks_still head : still (NativeForward.Checks r head).
Proof. unfold NativeForward.Checks. stilled; quieted. Qed.
Lemma successful_still head : still (successful r head).
Proof. unfold successful. pose proof Checks_still. stilled. quieted. Qed.
Lemma linear_on_still main head : along no_effect (linear_on r main head).
Proof. unfold linear_on. quieted. Qed.

Lemma unmoved_Ok message head main st st1 : unmoved r message head main st = (Ok tt, st1) -> exists current,
  Read r Original head st = (Ok current, st1) /\ Forward.Ready current = true /\ fs_Head current = head /\ fs_Main current = main.
Proof.
  unfold unmoved, mbind, M_bind. destruct (Read _ _ _ st) as [[current|e] st2]; [|done].
  intros [[Hg Es]%guard_inv E1]%lift_Ok. exists current. destruct st1, st2. cbn in *. subst.
  apply orb_false_iff in Hg as [[Hr Hh]%orb_false_iff Hm]. apply negb_false_iff in Hr, Hh, Hm.
  by apply String.eqb_eq in Hh, Hm.
Qed.

Lemma linear_on_Ok main head (st st1 : state) : lift (linear_on r main head) st = (Ok tt, st1) ->
  Ancestor root main head (snd st) = Some (Ok true, snd st1) /\ fst st1 = fst st.
Proof.
  intros [Hl E]%lift_Ok. split; [|done]. unfold linear_on in Hl. pstep Hl. apply replace_err_Ok in H0.
  apply guard_inv in Hl as [Hg Es]. apply negb_false_iff in Hg. by subst.
Qed.
Lemma successful_Ok head (st st1 : state) : successful r head st = (Ok tt, st1) -> exists checks,
  observe (fq_Repository r) head (snd st) = Some (Ok checks, snd st1) /\ fst st1 = fst st /\
  Checks.Head checks = head /\ obs_State checks = Succeeded.
Proof.
  unfold successful, mbind, M_bind. destruct (NativeForward.Checks r head st) as [[checks|e] st2] eqn:Ec; [|done].
  intros [[Hg Es]%guard_inv E1]%lift_Ok. unfold NativeForward.Checks, mbind, M_bind in Ec.
  destruct (lift (ended CallCtx) st) as [[[]|e] st3] eqn:E3; [|done].
  apply lift_Ok in E3 as [E3 F3], Ec as [Ec Fc].
  assert (snd st3 = snd st) as Hs by (unfold ended in E3; destruct (ctx_err _ _); by injection E3).
  exists checks. rewrite Hs in Ec. apply orb_false_iff in Hg as [Hh Hw]. apply negb_false_iff in Hh, Hw.
  apply String.eqb_eq in Hh. apply bool_decide_eq_true in Hw. split_and!; [congruence..].
Qed.
Lemma run_policy_Ok message main head (st st1 : state) : run_policy r message main head st = (Ok tt, st1) ->
  Policy r main head (snd st) = Some (Ok "run", snd st1) /\ fst st1 = fst st.
Proof.
  unfold run_policy, mbind, M_bind. destruct (lift (Policy _ _ _) st) as [[decision|e] st2] eqn:E; [|done].
  apply lift_Ok in E as [E F]. intros [[Hg Es]%guard_inv E1]%lift_Ok. apply negb_false_iff, String.eqb_eq in Hg. subst.
  split; congruence.
Qed.

Lemma Forward_shape head main (st : state) x st' (Hr : Forward head main st = (x, st')) :
  no_effect (snd st) (snd st') \/
  exists s, proved_main head main st s /\ tried_bound head main (main_args r head) s (snd st').
Proof.
  unfold NativeForward.Forward in Hr. assert (no_effect (snd st) (snd st)) as Q by done.
  pose proof (unmoved_still "candidate/main changed at integration boundary" head main) as S1.
  pose proof (still_lift _ (linear_on_still main head)) as S2. pose proof (Verify_still main head) as S3.
  pose proof (still_lift _ (review_still Hcalls)) as S4. pose proof (successful_still head) as S5.
  pose proof (run_policy_still "target no longer eligible before main write" main head) as S6.
  apply (bindM_from _ _ _ _ _ _ Q S1) in Hr as [[? _]|([] & st1 & H1 & Q1 & Hr)]; [by left|].
  apply (bindM_from _ _ _ _ _ _ Q1 S2) in Hr as [[? _]|([] & st2 & H2 & Q2 & Hr)]; [by left|].
  apply (bindM_from _ _ _ _ _ _ Q2 S3) in Hr as [[? _]|([] & st3 & H3 & Q3 & Hr)]; [by left|].
  apply (bindM_from _ _ _ _ _ _ Q3 S4) in Hr as [[? _]|([] & st4 & H4 & Q4 & Hr)]; [by left|].
  apply (bindM_from _ _ _ _ _ _ Q4 S5) in Hr as [[? _]|([] & st5 & H5 & Q5 & Hr)]; [by left|].
  apply (bindM_from _ _ _ _ _ _ Q5 S6) in Hr as [[? _]|([] & st6 & H6 & Q6 & Hr)]; [by left|].
  apply lift_cases in Hr as [->|Hw]; [by left|]. apply write_bound in Hw as [Hq|Ht]; [left; by transitivity (snd st6)|].
  right. exists (snd st6). split; [|done]. apply unmoved_Ok in H1 as (current & ? & ? & ? & ?).
  apply linear_on_Ok in H2 as [? E2]. apply lift_Ok in H4 as [? E4]. apply successful_Ok in H5 as (checks & ? & E5 & ? & ?).
  apply run_policy_Ok in H6 as [? E6]. exists current, checks, st1, (snd st2), st3, (snd st4), (snd st5).
  rewrite <- E2, <- surjective_pairing. by split_and!.
Qed.

Lemma Forward_at_most head main st x st' : Forward head main st = (x, st') ->
  at_most (written (main_args r head)) (snd st) (snd st').
Proof.
  intros [Hq|(s & Hp & Ht)]%Forward_shape; [by apply at_most_none|]. apply tried_bound_at_most in Ht.
  eapply at_most_before; [by eapply proved_main_still | exact Ht].
Qed.

(** ** The branch *)

(** A push of the proposal's own branch [b], with the arguments [args b]. *)
Definition on_branch (b : string) (args : string -> list string) (a : list string) : Prop :=
  own_branch b /\ exists hooks, a = write_args r hooks (args b).

Lemma Publish_at_most old next main (st : state) x st' (Hr : Publish old next main st = (x, st')) :
  at_most (on_branch (nf_branch (fst st')) (fun b => lease_args b old next)) (snd st) (snd st').
Proof.
  unfold NativeForward.Publish in Hr. assert (no_effect (snd st) (snd st)) as Q by done.
  pose proof (unmoved_still "candidate/main moved before branch lease" old main) as S1.
  pose proof (Verify_still main next) as S2.
  pose proof (run_policy_still "fixed target superseded before publication" main next) as S3.
  assert (still (W := W) (lift (needsWorkflows r old next))) as S4 by (apply still_lift; unfold needsWorkflows; quieted).
  apply (bindM_from _ _ _ _ _ _ Q S1) in Hr as [[? _]|([] & st1 & H1 & Q1 & Hr)]; [by apply at_most_none|].
  apply unmoved_Ok in H1 as (current & Hown%Read_own & _).
  apply (bindM_from _ _ _ _ _ _ Q1 S2) in Hr as [[? _]|([] & st2 & H2 & Q2 & Hr)]; [by apply at_most_none|].
  apply (bindM_from _ _ _ _ _ _ Q2 S3) in Hr as [[? _]|([] & st3 & H3 & Q3 & Hr)]; [by apply at_most_none|].
  apply (bindM_from _ _ _ _ _ _ Q3 S4) in Hr as [[? _]|(wf & st4 & H4 & Q4 & Hr)]; [by apply at_most_none|].
  apply (bindM_from _ _ _ _ _ _ Q4 (still_update _)) in Hr as [[? _]|([] & st5 & [= <-] & Q5 & Hr)]; [by apply at_most_none|].
  apply (bindM_from _ _ _ _ _ _ Q5 (still_this _)) in Hr as [[? _]|(branch & st6 & [= <- <-] & Q6 & Hr)]; [by apply at_most_none|].
  assert (nf_branch (fst st4) = nf_branch (fst st1)) as Eb.
  { apply branched_run in H2; [|apply Verify_branched]. apply branched_run in H3; [|apply run_policy_branched].
    apply branched_run in H4; [|apply branched_lift]. destruct Hown as (_ & Hne & _). specialize (H2 Hne).
    unfold same_branch in H3, H4. rewrite H2 in H3. specialize (H3 Hne). rewrite H3 in H4. by apply H4. }
  assert (nf_branch (fst st') = nf_branch (fst st4)) as Ef by (apply lift_fst in Hr; by rewrite Hr).
  apply (at_most_before _ _ _ _ Q6). rewrite Ef, Eb. cbn in Hr. rewrite Eb in Hr.
  apply lift_cases in Hr as [->|[Hq|Ht]%push_with_tried]; [by apply at_most_none.. | apply tried_at_most in Ht].
  eapply at_most_weaken; [|exact Ht]. by intros a ?.
Qed.

Lemma delete_branch_at_most branch head s x s' (Hr : delete_branch r Token branch head s = Some (x, s')) :
  at_most (written (delete_args branch head)) s s'.
Proof.
  unfold delete_branch in Hr. cbv zeta in Hr. assert (no_effect s s) as Q by done.
  from Q Hr; [by apply at_most_none|]. from Q Hr; [by apply at_most_none|]. apply (at_most_before _ _ _ _ Q). clear Q H0 H1.
  apply P_bind_inv in Hr as [(pushed & s1 & (y & [= ->] & Hp)%attempt_inv & Hr)|(e & (y & [=] & _)%attempt_inv & _)].
  assert (no_effect s1 s') as Q.
  { assert (no_effect s1 s1) as Q by done. from Q Hr; [done|]. destruct (String.eqb _ ""); [by injection Hr as _ <-|].
    destruct y; by injection Hr as _ <-. }
  apply push_with_tried in Hp as [Hq|Ht]; [by apply at_most_none; etransitivity|].
  eapply at_most_after; [by eapply tried_at_most | done].
Qed.

Lemma Cleanup_at_most polls head (st : state) x st' : Cleanup polls head st = (x, st') ->
  at_most (on_branch (nf_branch (fst st')) (fun b => delete_args b head)) (snd st) (snd st').
Proof.
  revert st. induction polls as [|polls IH]; intros st Hr; cbn [NativeForward.Cleanup] in Hr.
  { injection Hr as <- <-. by apply at_most_none. }
  assert (no_effect (snd st) (snd st)) as Q by done.
  apply (bindM_from _ _ _ _ _ _ Q (Read_still _ _)) in Hr as [[? _]|(current & st1 & Hown%Read_own & Q1 & Hr)]; [by apply at_most_none|].
  cbv zeta in Hr.
  assert (still (W := W) (lift (replace_err (new_error "main no longer contains candidate; branch retained") (Ancestor root head (fs_Main current)))))
    as S2 by (apply still_lift; quieted).
  apply (bindM_from _ _ _ _ _ _ Q1 S2) in Hr as [[? _]|(contained & st2 & E2%lift_fst & Q2 & Hr)]; [by apply at_most_none|].
  apply (bindM_from _ _ _ _ _ _ Q2 (still_guard _ _)) in Hr as [[? _]|([] & st3 & E3%lift_fst & Q3 & Hr)]; [by apply at_most_none|].
  destruct (Merged current).
  - destruct (String.eqb _ ""); [injection Hr as <- <-; by apply at_most_none|].
    apply (bindM_from _ _ _ _ _ _ Q3 (still_guard _ _)) in Hr as [[? _]|([] & st4 & E4%lift_fst & Q4 & Hr)]; [by apply at_most_none|].
    apply (bindM_from _ _ _ _ _ _ Q4 (still_this _)) in Hr as [[? _]|(branch & st5 & [= <- <-] & Q5 & Hr)]; [by apply at_most_none|].
    apply lift_fst in Hr as Ef. apply (at_most_before _ _ _ _ Q5). rewrite Ef, E4, E3, E2. cbn in Hr. rewrite E4, E3, E2 in Hr.
    apply lift_cases in Hr as [->|Hd%delete_branch_at_most]; [by apply at_most_none|].
    eapply at_most_weaken; [|exact Hd]. by intros a ?.
  - apply (bindM_from _ _ _ _ _ _ Q3 (still_guard _ _)) in Hr as [[? _]|([] & st4 & _ & Q4 & Hr)]; [by apply at_most_none|].
    assert (still (W := W) (lift (attempt (host (Sleep 5))))) as S5.
    { apply still_lift, along_attempt, (quiet_host (Quiet := no_effect_quiet)). exact I. }
    apply (bindM_from _ _ _ _ _ _ Q4 S5) in Hr as [[? _]|(slept & st5 & _ & Q5 & Hr)]; [by apply at_most_none|].
    assert (still (W := W) (lift (replace_err (new_error "deadline while waiting for GitHub merged observation; branch retained")
              (ended CallCtx)))) as S6 by (apply still_lift; quieted).
    apply (bindM_from _ _ _ _ _ _ Q5 S6) in Hr as [[? _]|([] & st6 & _ & Q6 & Hr)]; [by apply at_most_none|].
    apply (at_most_before _ _ (snd st6)); [done | by apply IH].
Qed.

(** * The loop *)

Definition pushes_in (P : list string -> Prop) (l : list (event (B := B))) : Prop :=
  l = [] \/ exists args token out, P args /\ l = [Performed (PushGit args (Some token)) out].

(** The effects that a call of the loop may have, on the branch [b]. *)
Definition allowed (b : string) (e : Forward.event) (l : list (event (B := B))) : Prop :=
  match e with
  | EForward h m _ => pushes_in (written (main_args r h)) l
  | EPublish old next m _ => pushes_in (on_branch b (fun b => lease_args b old next)) l
  | ECleanup h _ => pushes_in (on_branch b (fun b => delete_args b h)) l
  | _ => l = []
  end.

Lemma pushes_weaken (P P' : list string -> Prop) l : (forall a, P a -> P' a) -> pushes_in P l -> pushes_in P' l.
Proof. intros Hp [->|(args & token & out & ? & ->)]; [by left | right; exists args, token, out; auto]. Qed.
Lemma allowed_later b b' e l : (b <> "" -> b' = b) -> allowed b e l -> allowed b' e l.
Proof.
  intros Hb. assert (forall args a, on_branch b args a -> on_branch b' args a) as Hw.
  { intros args a [Ho Ha]. rewrite (Hb (proj1 (proj2 Ho))). by split. }
  destruct e; try done; apply pushes_weaken, Hw.
Qed.

(** Calls and effects go together. *)
Definition attributed (st st' : state * list Forward.event) : Prop := same_branch (fst st) (fst st') /\ exists calls ls,
  snd st' = calls ++ snd st /\ effects (snd (fst st')) = concat ls ++ effects (snd (fst st)) /\
  Forall2 (allowed (nf_branch (fst (fst st')))) calls ls.

#[local] Instance attributed_order : PreOrder attributed.
Proof.
  split; [intros st; split; [done|]; exists [], []; split_and!; [done..|constructor]|].
  intros st1 st2 st3 (B1 & c1 & l1 & E1 & F1 & A1) (B2 & c2 & l2 & E2 & F2 & A2). split; [by etransitivity|].
  exists (c2 ++ c1), (l2 ++ l1).
  rewrite E2, E1, F2, F1, concat_app, !app_assoc. split_and!; [done..|]. apply Forall2_app; [done|].
  eapply Forall2_impl; [exact A1|]. intros e l. by apply allowed_later.
Qed.

(** A call of the loop that keeps the branch and has allowed effects. *)
Definition accounted {A} (f : state -> A * state) (ev : A -> Forward.event) (st : state) : Prop := forall a st', f st = (a, st') ->
  same_branch st st' /\ exists l, allowed (nf_branch (fst st')) (ev a) l /\ effects (snd st') = l ++ effects (snd st).

Lemma logged_attributed {A} (f : state -> A * state) ev st : accounted f ev (fst st) -> attributed st (logged f ev st).2.
Proof.
  unfold logged. destruct (f (fst st)) as [a st'] eqn:E. intros Hf. destruct (Hf _ _ E) as (Hb & l & Hl & He).
  split; [done|]. exists [ev a], [l]. cbn. rewrite app_nil_r. split_and!; [done..|]. by repeat constructor.
Qed.

Lemma still_call {A} (m : M A) ev st : still m -> branched m -> (forall b x, allowed b (ev x) []) -> accounted m ev st.
Proof.
  intros Hm Hb Ha x st' E. specialize (Hm st). rewrite E in Hm. split; [by eapply branched_run|]. exists []. split; [done|].
  by apply no_effect_effects.
Qed.
Lemma err_only_inv {A} (m : M A) st e st' : err_only m st = (e, st') -> exists x, m st = (x, st').
Proof. unfold err_only. destruct (m st) as [x st1]. intros [= _ <-]. by eexists. Qed.
Lemma err_only_still {A} (m : M A) ev st : still m -> branched m -> (forall b x, allowed b (ev x) []) -> accounted (err_only m) ev st.
Proof.
  intros Hm Hb Ha e st' (x & E)%err_only_inv. exact (still_call m (fun _ => ev e) st Hm Hb (fun b _ => Ha b e) x st' E).
Qed.
Lemma push_call {A} (m : M A) ev P st : branched m ->
  (forall x st', m st = (x, st') -> at_most (P (nf_branch (fst st'))) (snd st) (snd st')) ->
  (forall b x l, pushes_in (P b) l -> allowed b (ev x) l) -> accounted (err_only m) ev st.
Proof.
  intros Hb Hm Ha e st' (x & E)%err_only_inv. split; [by eapply branched_run|].
  destruct (Hm _ _ E) as [Eq|(args & token & out & Hp & Eq)]; [exists []; split; [apply Ha; by left | done]|].
  eexists [_]. split; [|exact Eq]. apply Ha. right. by exists args, token, out.
Qed.

Context (polls : nat) (interval : Z).
Abbreviation ops := (native_operations r Token ReviewCandidate VerifyCandidate RepairCandidate polls).

Lemma native_carried : carried (native_wait interval) ops attributed.
Proof.
  constructor; [intros s|intros c h s|intros c a b s|intros m h s|intros m h s|intros o n m s|intros h s|intros s|intros m h s|intros h m s|intros h s];
    try apply logged_attributed.
  - destruct (native_wait interval (fst s)) as [e st'] eqn:E. split; [|exists [], []; split_and!; [done| |constructor]];
      apply err_only_inv in E as (x & E).
    + eapply branched_run; [|exact E]. branching.
    + assert (still (W := W) (_ ← lift (attempt (host (Sleep interval))); lift (ended CallCtx))) as Hs.
      { apply still_bind; [|intros; apply still_lift, along_ended; apply _]. apply still_lift, along_attempt.
        by apply (quiet_host (Quiet := no_effect_quiet)). }
      specialize (Hs (fst s)). rewrite E in Hs. by apply no_effect_effects.
  - by apply still_call; [apply Read_still | apply Read_branched|].
  - by apply still_call; [apply still_lift, Ancestor_still | apply branched_lift|].
  - by apply still_call; [apply still_lift, Policy_still | apply branched_lift|].
  - by apply still_call; [apply Rebase_still | apply Rebase_branched|].
  - apply push_call with (P := fun b => on_branch b (fun b => lease_args b o n)); [apply Publish_branched | apply Publish_at_most | done].
  - intros [o e] st'. cbn [op_Checks native_operations]. unfold observed_checks.
    destruct (NativeForward.Checks r h (fst s)) as [x st1] eqn:E. intros Hq. assert (st1 = st') as -> by congruence.
    by apply (still_call (NativeForward.Checks r h) (fun _ => EChecks h o e) (fst s) (Checks_still h) (Checks_branched h)) in E.
  - by apply err_only_still; [apply still_lift, (review_still Hcalls) | apply branched_lift|].
  - by apply err_only_still; [apply Verify_still | apply Verify_branched|].
  - apply push_call with (P := fun _ => written (main_args r h)); [apply Forward_branched | apply Forward_at_most | done].
  - apply push_call with (P := fun b => on_branch b (fun b => delete_args b h)); [apply Cleanup_branched | apply Cleanup_at_most | done].
Qed.

(** C20: Integrating a candidate, whatever the world answers: every effect of
    the run on the repository belongs to one call of the loop and is the one push
    that call may make - a plain fast-forward of main to the integrated head, a
    lease of the branch from the head that was read to the rebased one, or the
    leased deletion of the branch; all on one branch, which is not main and, on a
    fixed target, is one that a goal on this target allocated. And the calls are
    guarded: main only moves to a head that was just read, wanted, linear, proved
    and accepted by its checks around a review, the branch only to a candidate
    proved against main, and the branch is only deleted when main contains it.
    The token, review, verification and repair callbacks have no effects on the
    repository of their own. *)
Theorem integration_effects n bounded expected st out st' events
  (Hr : AutoForward native_ctx (native_wait interval) ops n bounded expected st = (out, (st', events))) :
  guarded events /\ exists branch pushes, effects (snd st') = concat pushes ++ effects (snd st) /\
    Forall2 (allowed branch) events pushes.
Proof.
  unfold AutoForward in Hr. destruct (_ || _).
  { injection Hr as _ <- <-. split; [done|]. exists "", []. by split; [|constructor]. }
  pose proof (loop_carried native_ctx _ _ attributed native_carried n (initial_result expected) (st, [])) as Hc.
  rewrite Hr in Hc. destruct Hc as (_ & calls & ls & E & He & Ha). cbn in E, He. rewrite app_nil_r in E. subst calls.
  apply (loop_ok _ _ _ expected) in Hr as [Hg _]; [|done | by left]. split; [done|]. by eexists _, ls.
Qed.

(** C21: A push of main is proved: however an integration call ends, it changed nothing, or it tried exactly one push - the plain fast-forward of main to its head, under a hook bound to that head and that main - after it had read branch and main unmoved and ready, the head descends from main, the candidate is proved against exactly this main, the review passed, the required checks of exactly this head succeed, and the policy still wants it, in this order. The callbacks have no effects on the repository of their own. *)
Theorem Forward_proved head main (st : state) x st' (Hr : Forward head main st = (x, st')) :
  no_effect (snd st) (snd st') \/
  exists s, proved_main head main st s /\ tried_bound head main (main_args r head) s (snd st').
Proof. exact (Forward_shape head main st x st' Hr). Qed.
End native.

(** * The desk: a ready candidate is integrated *)

Definition desk_forward : ForwardRequest := {|
  fq_RepoRoot := "/repo"; fq_Repository := "o/r"; fq_BaseBranch := "main"; fq_ExpectedHead := desk_new; fq_OriginalBase := hub_base;
  fq_VerificationBase := hub_base; fq_Number := desk_number; fq_RebasedHead := false; fq_Target := desk_target;
  PublicationAppBotID := 7; IntegrationAppBotID := 9; fq_has_API := true; has_Token := true; has_Review := true |}.
Definition desk_token (_ : bool) : P (B := desk_boundary) (string * P (B := desk_boundary) unit) := mret ("token", mret tt).
Definition desk_review : P (B := desk_boundary) unit := mret tt.
Definition desk_controller : NativeForward.NativeForward :=
  match NewNativeForward desk_forward with Ok n => n | Err _ => {| semanticFailures := ∅; proofs := ∅; nf_branch := ""; lastMain := ""; writers := ∅ |} end.
Definition desk_ready_to_merge : desk := {|
  desk_main := hub_base; desk_head := desk_new; desk_draft := false; desk_intent := None; desk_written := "" |}.
Definition desk_start : state := (desk_controller, start_desk desk_ready_to_merge).

Lemma desk_callbacks : callbacks_still (B := desk_boundary) desk_token desk_review None None.
Proof.
  split; try done.
  - intros b s x s' [= _ <-]. done.
  - intros b s t rel s' [= _ <- _] s1 x s2 [= _ <-]. done.
  - intros s x s' [= _ <-]. done.
Qed.

Definition desk_integration := AutoForward native_ctx (native_wait 5)
  (native_operations desk_forward desk_token desk_review None None 3) 5 true desk_new desk_start.
Definition desk_integrated : state := fst (snd desk_integration).
Definition desk_calls : list Forward.event := snd (snd desk_integration).

(** The candidate is in main and its branch is gone, after two pushes. *)
Example desk_integrates :
  (option_map (fun '(result, _) => fr_Status result) (fst desk_integration), desk_main (world (snd desk_integrated)),
   desk_head (world (snd desk_integrated)), length (effects (snd desk_integrated))) = (Some "integrated", desk_new, "", 2).
Proof. vm_compute. reflexivity. Qed.

Lemma triple_eta {A C D} (x : A * (C * D)) : x = (fst x, (fst (snd x), snd (snd x))).
Proof. by destruct x as [? [? ?]]. Qed.
Lemma desk_integration_runs : AutoForward native_ctx (native_wait 5)
  (native_operations desk_forward desk_token desk_review None None 3) 5 true desk_new desk_start =
  (fst desk_integration, (desk_integrated, desk_calls)).
Proof. exact (triple_eta desk_integration). Qed.

Lemma integration_effects_witness : length (effects (snd desk_integrated)) = 2 /\
  guarded desk_calls /\ exists branch pushes, effects (snd desk_integrated) = concat pushes ++ [] /\
    Forall2 (allowed desk_forward branch) desk_calls pushes.
Proof.
  split; [vm_compute; reflexivity|].
  exact (integration_effects desk_forward desk_token desk_review None None desk_callbacks 3 5 5 true desk_new desk_start
           (fst desk_integration) desk_integrated desk_calls desk_integration_runs).
Defined.

Definition desk_forwarded := NativeForward.Forward desk_forward desk_token desk_review None desk_new hub_base desk_start.
Lemma desk_forwards : NativeForward.Forward desk_forward desk_token desk_review None desk_new hub_base desk_start =
  (fst desk_forwarded, snd desk_forwarded).
Proof. exact (surjective_pairing desk_forwarded). Qed.
Lemma Forward_proved_witness : desk_main (world (snd (snd desk_forwarded))) = desk_new /\
  (no_effect (snd desk_start) (snd (snd desk_forwarded)) \/
   exists s, proved_main desk_forward desk_review None desk_new hub_base desk_start s /\
     tried_bound desk_forward desk_new hub_base (main_args desk_forward desk_new) s (snd (snd desk_forwarded))).
Proof.
  split; [vm_compute; reflexivity|].
  exact (Forward_proved desk_forward desk_token desk_review None None desk_callbacks desk_new hub_base desk_start
           (fst desk_forwarded) (snd desk_forwarded) desk_forwards).
Defined.
