(* ===== verification/GoalPrepare.v ===== *)
(** Preparing the draft of a goal: a content-empty seed commit on a fresh branch
    and the one pull request for it, or the reconciliation of an earlier
    preparation.  [goal_prepare.go] ([src/codexsdk/internal/protocolsync]).

    The eight random bytes of a branch name are an argument. *)

From Stdlib Require Import Ascii.
From stdpp Require Import pretty.
From S2P Require Import Prelude GoStrings Policy Scope Resolve PublicationText Checks Boundary Inspection Goal GoalSnapshot Rebinding GoalPublication Desk GoalIntents GoalHandoff.

Local Open Scope string_scope.
Local Open Scope list_scope.
Local Open Scope goal_scope.

(** * Data *)

Record GoalPreparedDraft := { gd_Binding : GoalPublicationRequest; gd_URL : string }.

(** [hex.EncodeToString] *)
Definition hex_lower (n : nat) : ascii := ascii_of_nat (if (n <? 10)%nat then 48 + n else 87 + n).
Fixpoint hex_encode (s : string) : string :=
  match s with
  | EmptyString => EmptyString
  | String c s => String (hex_lower (nat_of_ascii c / 16)) (String (hex_lower (nat_of_ascii c mod 16)) (hex_encode s))
  end.

(** [hex.DecodeString] takes the text: an even number of digits of either case. *)
Definition any_hex (c : ascii) : bool :=
  Policy.is_hex c || let n := nat_of_ascii c in (65 <=? n)%nat && (n <=? 70)%nat.
Definition hex_decodes (s : string) : bool := Nat.even (String.length s) && all_bytes any_hex s.

Definition with_allocation (branch head : string) (r : GoalPublicationRequest) : GoalPublicationRequest := {|
  RepoRoot := RepoRoot r; gp_Repository := gp_Repository r; gp_Remote := gp_Remote r; gp_BaseBranch := gp_BaseBranch r;
  gp_Branch := branch; gp_BaseSHA := gp_BaseSHA r; ExpectedHead := head; CandidateDir := CandidateDir r;
  SnapshotDigest := SnapshotDigest r; StateDir := StateDir r; Deadline := Deadline r; gp_Number := gp_Number r;
  VerificationBaseSHA := VerificationBaseSHA r; gp_AppBotID := gp_AppBotID r; gp_Target := gp_Target r; has_API := has_API r;
  has_token := has_token r |}.
Definition with_number (number : Z) (r : GoalPublicationRequest) : GoalPublicationRequest := {|
  RepoRoot := RepoRoot r; gp_Repository := gp_Repository r; gp_Remote := gp_Remote r; gp_BaseBranch := gp_BaseBranch r;
  gp_Branch := gp_Branch r; gp_BaseSHA := gp_BaseSHA r; ExpectedHead := ExpectedHead r; CandidateDir := CandidateDir r;
  SnapshotDigest := SnapshotDigest r; StateDir := StateDir r; Deadline := Deadline r; gp_Number := number;
  VerificationBaseSHA := VerificationBaseSHA r; gp_AppBotID := gp_AppBotID r; gp_Target := gp_Target r; has_API := has_API r;
  has_token := has_token r |}.

Definition incomplete_preparation (r : GoalPublicationRequest) : bool :=
  negb (has_API r) || String.eqb (RepoRoot r) "" || negb (goalRepositoryPattern (gp_Repository r)) || (gp_AppBotID r <=? 0)%Z ||
  negb (String.eqb (gp_BaseBranch r) "main") || negb (shaRE (gp_BaseSHA r)) || negb (shaRE (PeeledCommitSHA (gp_Target r))).

Definition seed_args (r : GoalPublicationRequest) (branch tree : string) : list string :=
  ["-c"; "user.name=Protocol goal controller"; "-c"; "user.email=protocol-goal@localhost"; "commit-tree"; tree;
   "-p"; gp_BaseSHA r; "-m"; "Prepare draft goal " +:+ branch].

Definition seed_push_args (r : GoalPublicationRequest) : list string :=
  ["push"; "--porcelain"; goalRemote r; ExpectedHead r +:+ ":refs/heads/" +:+ gp_Branch r].

Definition branch_pulls_path (r : GoalPublicationRequest) (page : nat) : string :=
  "repos/" +:+ gp_Repository r +:+ "/pulls?state=all&head=" +:+
  QueryEscape (hd "" (split_byte "/"%char (gp_Repository r)) +:+ ":" +:+ gp_Branch r) +:+ "&per_page=100&page=" +:+ pretty page.

(** A listed pull request of another branch or repository. *)
Definition foreign_draft (r : GoalPublicationRequest) (pr : goalDraftPR) : bool :=
  negb (String.eqb (Ref (pr_Head (draft_pr pr))) (gp_Branch r)) ||
  negb (String.eqb (FullName (pr_Head (draft_pr pr))) (gp_Repository r)).

(** The body of the one creation. *)
Definition draft_body (r : GoalPublicationRequest) : gmap string string := list_to_map [
  ("head", gp_Branch r); ("base", gp_BaseBranch r); ("title", "Draft protocol goal: " +:+ RefName (gp_Target r));
  ("body", "Trusted empty seed for a bounded protocol goal. No implementation or verification result is included. Remain draft; no automatic merge.");
  ("draft", "true")].

Section prepare.
Context {W : Type} {B : Boundary W} {H : Host W}.

(** * Readings *)

Definition repository_current (r : GoalPublicationRequest) : P (B := B) unit :=
  let e := new_error "goal repository/default branch cannot be confirmed" in
  repo ← replace_err e (get decode_repository ("repos/" +:+ gp_Repository r));
  guard (negb (String.eqb (fst repo) (gp_Repository r)) || negb (String.eqb (snd repo) (gp_BaseBranch r))) e.

Definition goalPrepareFresh (r : GoalPublicationRequest) : P (B := B) unit :=
  _ ← ended CallCtx;
  _ ← repository_current r;
  let moved := new_error "main moved before goal preparation" in
  base ← replace_err moved (goalRemoteHead r (gp_BaseBranch r));
  _ ← guard (negb (String.eqb base (gp_BaseSHA r))) moved;
  _ ← target_current (gp_Target r) "upstream target moved before goal preparation";
  ended CallCtx.

(** The head of the branch on the remote; empty for no branch. *)
Definition goalPrepareRemote (r : GoalPublicationRequest) : P (B := B) string :=
  out ← goalGit (RepoRoot r) ["ls-remote"; goalRemote r; "refs/heads/" +:+ gp_Branch r];
  if String.eqb out "" then mret "" else
  match str_fields out with
  | [sha; ref] => if String.eqb ref ("refs/heads/" +:+ gp_Branch r) && shaRE sha then mret sha
                  else fail (new_error "goal branch readback is ambiguous")
  | _ => fail (new_error "goal branch readback is ambiguous")
  end.

Fixpoint prepared_prs (pages : nat) (r : GoalPublicationRequest) (page : nat) (all : list goalDraftPR) : P (B := B) (list goalDraftPR) :=
  match pages with
  | O => fail (new_error "goal PR listing exceeds bounded reconciliation")
  | S pages =>
    batch ← replace_err (new_error "cannot reconcile goal PR") (get decode_drafts (branch_pulls_path r page));
    _ ← guard (existsb (foreign_draft r) batch) (new_error "goal PR listing does not match bound branch");
    if (length batch <? 100)%nat then mret (all ++ batch) else prepared_prs pages r (S page) (all ++ batch)
  end.
Definition goalPreparePRs (r : GoalPublicationRequest) : P (B := B) (list goalDraftPR) := prepared_prs 20 r 1 [].

(** * The stages *)

Definition goal_prefix (r : GoalPublicationRequest) : option string :=
  (fun b => b +:+ "-goal-") <$> syncBranchName (RefName (gp_Target r)) (PeeledCommitSHA (gp_Target r)) (gp_BaseSHA r).

(** A new branch name and its seed commit: the tree of the base, on the base. *)
Definition allocate (random : res string) (r : GoalPublicationRequest) : P (B := B) GoalPublicationRequest :=
  if negb (String.eqb (gp_Branch r) "") then mret r else
  _ ← guard (negb (gp_Number r =? 0)%Z || negb (String.eqb (ExpectedHead r) "")) (new_error "partial preparation binding");
  bytes ← replace_err (new_error "cannot allocate goal branch") (of_res random);
  prefix ← of_option (goal_prefix r);
  let branch := prefix +:+ hex_encode bytes in
  tree ← goalGit (RepoRoot r) ["rev-parse"; gp_BaseSHA r +:+ "^{tree}"];
  head ← goalGit (RepoRoot r) (seed_args r branch tree);
  mret (with_allocation branch head r).

(** The branch is an allocation of this goal, and its head an empty seed on the base. *)
Definition check_seed (r : GoalPublicationRequest) : P (B := B) unit :=
  _ ← goalBinding (if (gp_Number r =? 0)%Z then with_number 1 r else r);
  prefix ← of_option (goal_prefix r);
  let suffix := trim_prefix prefix (gp_Branch r) in
  _ ← guard (String.eqb suffix (gp_Branch r) || negb (String.length suffix =? 16)%nat)
        (new_error "preparation branch is not a retained goal allocation");
  _ ← guard (negb (hex_decodes suffix)) (new_error "invalid goal allocation");
  let single := new_error "goal seed is not a single child of bound base" in
  parents ← replace_err single (goalGit (RepoRoot r) ["show"; "-s"; "--format=%P"; ExpectedHead r]);
  _ ← guard (negb (String.eqb parents (gp_BaseSHA r))) single;
  tree ← goalGit (RepoRoot r) ["rev-parse"; ExpectedHead r +:+ "^{tree}"];
  let changed := new_error "goal seed contains file changes" in
  baseTree ← replace_err changed (goalGit (RepoRoot r) ["rev-parse"; gp_BaseSHA r +:+ "^{tree}"]);
  guard (negb (String.eqb tree baseTree)) changed.

Definition existing_drafts (r : GoalPublicationRequest) : P (B := B) (list goalDraftPR) :=
  existing ← goalPreparePRs r;
  _ ← guard (1 <? length existing)%nat (new_error "goal branch has ambiguous PR history");
  mret existing.

Definition none_retained (r : GoalPublicationRequest) (existing : list goalDraftPR) : bool :=
  (length existing =? 0)%nat && (gp_Number r =? 0)%Z.

(** The seed is on the remote, pushed once if it was not; the readback decides. *)
Definition push_seed (r : GoalPublicationRequest) (existing : list goalDraftPR) : P (B := B) unit :=
  remote ← goalPrepareRemote r;
  if String.eqb remote "" then
    _ ← guard (negb (none_retained r existing)) (new_error "retained goal branch disappeared");
    _ ← goalPrepareFresh r;
    _ ← attempt (goalGit (RepoRoot r) (seed_push_args r));
    let unconfirmed := new_error "goal seed push outcome unconfirmed; retain binding" in
    actual ← replace_err unconfirmed (goalPrepareRemote r);
    guard (negb (String.eqb actual (ExpectedHead r))) unconfirmed
  else guard (negb (String.eqb remote (ExpectedHead r))) (new_error "goal branch moved; preparation stopped").

(** The pull requests of the branch, one created if there was none. *)
Definition create_draft (r : GoalPublicationRequest) (existing : list goalDraftPR) : P (B := B) (list goalDraftPR) :=
  _ ← goalPrepareFresh r;
  _ ← replace_err (new_error "goal seed push actor cannot be confirmed")
        (head_actor (gp_Repository r) (gp_Branch r) (ExpectedHead r) (gp_AppBotID r));
  match existing with
  | [] =>
    _ ← guard (negb (gp_Number r =? 0)%Z) (new_error "retained PR disappeared");
    _ ← attempt (request "POST" ("repos/" +:+ gp_Repository r +:+ "/pulls") (Some (draft_body r)));
    replace_err (new_error "goal PR creation outcome unknown; retain binding") (goalPreparePRs r)
  | _ => mret existing
  end.

Definition unique_draft (r : GoalPublicationRequest) (existing : list goalDraftPR) : P (B := B) goalDraftPR :=
  match existing with
  | [pr] => _ ← guard (negb (gp_Number r =? 0)%Z && negb (gp_Number r =? pr_Number (draft_pr pr))%Z) (new_error "goal PR number changed"); mret pr
  | _ => fail (new_error "goal PR creation is not uniquely confirmed; retain binding")
  end.

Definition confirm_draft (r : GoalPublicationRequest) (pr : goalDraftPR) : P (B := B) (GoalPreparedDraft * option error) :=
  let r := with_number (pr_Number (draft_pr pr)) r in
  let result := {| gd_Binding := r; gd_URL := "" |} in
  try! _ := goalCurrent CallCtx r (ExpectedHead r) else result;
  try! _ := guard (negb (String.eqb (pr_URL (draft_pr pr)) (pull_url (gp_Repository r) (gp_Number r))))
              (new_error "goal PR URL does not match native identity") else result;
  mret ({| gd_Binding := r; gd_URL := pr_URL (draft_pr pr) |}, None).

Definition prepare_bound (r : GoalPublicationRequest) : P (B := B) (GoalPreparedDraft * option error) :=
  let result := {| gd_Binding := r; gd_URL := "" |} in
  try! _ := check_seed r else result;
  try! existing := existing_drafts r else result;
  try! _ := push_seed r existing else result;
  try! existing := create_draft r existing else result;
  try! pr := unique_draft r existing else result;
  confirm_draft r pr.

Definition PrepareGoalDraft (random : res string) (r : GoalPublicationRequest) : P (B := B) (GoalPreparedDraft * option error) :=
  let result := {| gd_Binding := r; gd_URL := "" |} in
  try! _ := guard (incomplete_preparation r) (new_error "incomplete trusted goal preparation binding") else result;
  try! _ := goalPrepareFresh r else result;
  try! r := allocate random r else result;
  prepare_bound r.
End prepare.

(** * What a preparation may do *)

Section quiet.
Context {W : Type} {B : Boundary W} {H : Host W}.
Context (fresh : string -> Prop) (R : flow (B := B) -> flow (B := B) -> Prop) {Q : Quiet fresh R}.
#[local] Instance order_p : PreOrder R := quiet_order.
#[local] Hint Resolve order_p : quieting.
Implicit Types (r : GoalPublicationRequest).

Lemma goalPrepareFresh_quiet r : along R (goalPrepareFresh r).
Proof.
  pose proof (goalRemoteHead_quiet fresh R r). unfold goalPrepareFresh, repository_current, target_current. quieted.
Qed.
Lemma head_actor_quiet repository branch head bot : along R (head_actor repository branch head bot).
Proof. unfold head_actor, publicationHeadActor. quieted. Qed.
Lemma goalPrepareRemote_quiet r : along R (goalPrepareRemote r).
Proof. unfold goalPrepareRemote. quieted. Qed.
Lemma prepared_prs_quiet pages r page all : along R (prepared_prs pages r page all).
Proof. revert page all. induction pages as [|pages IH]; intros; cbn [prepared_prs]; quieted. Qed.
Lemma goalPreparePRs_quiet r : along R (goalPreparePRs r).
Proof. apply prepared_prs_quiet. Qed.
Lemma along_option {A} (o : option A) : along R (of_option (B := B) o).
Proof. apply along_still; [apply _|]. by intros s x s' (a & _ & _ & ->)%of_option_Ok. Qed.
Lemma allocate_quiet random r : along R (allocate random r).
Proof. unfold allocate. pose proof @along_option. quieted. Qed.
Lemma check_seed_quiet r : along R (check_seed r).
Proof. unfold check_seed. pose proof @along_option. pose proof (goalBinding_quiet fresh R). quieted. Qed.
Lemma existing_drafts_quiet r : along R (existing_drafts r).
Proof. unfold existing_drafts. pose proof goalPreparePRs_quiet. quieted. Qed.
Lemma unique_draft_quiet r existing : along R (unique_draft r existing).
Proof. unfold unique_draft. quieted. Qed.
Lemma confirm_draft_quiet r pr : along R (confirm_draft r pr).
Proof. unfold confirm_draft. pose proof (goalCurrent_quiet fresh R). quieted. Qed.
End quiet.

(** A caught step of a run that made no change since [s]. *)
Lemma caught_from {W} {B : Boundary W} {A X} (m : P (B := B) A) (x : X) k (s s1 : flow (B := B)) y s' :
  no_effect s s1 -> along no_effect m -> caught m x k s1 = Some (y, s') ->
  (no_effect s s' /\ exists e, y = Ok (x, Some e)) \/ exists a s2, m s1 = Some (Ok a, s2) /\ no_effect s s2 /\ k a s2 = Some (y, s').
Proof.
  intros Hs Hm [(a & s2 & H1 & H2)|(e & H1 & ->)]%caught_inv; apply Hm in H1 as Hq.
  - right. exists a, s2. split_and!; [done | by etransitivity | done].
  - left. split; [by etransitivity | eauto].
Qed.

Section effects.
Context {W : Type} {B : Boundary W} {H : Host W}.
Implicit Types (r : GoalPublicationRequest) (s : flow (B := B)).
#[local] Hint Resolve no_effect_order : quieting.

(** The one push of the seed: the branch was read absent and everything current,
    and the draft it is for is a new one. *)
Definition seed_pushed r s s' : Prop := exists s1 s2 s3 x s4,
  no_effect s s1 /\ goalPrepareRemote r s1 = Some (Ok "", s2) /\ gp_Number r = 0%Z /\
  goalPrepareFresh r s2 = Some (Ok tt, s3) /\ goalGit (RepoRoot r) (seed_push_args r) s3 = Some (x, s4) /\ no_effect s4 s'.

(** The one creation: there was no pull request of the branch, and the last push
    of exactly the seed was the bound actor's. *)
Definition draft_created r s s' : Prop := exists s1 s2 s3 x s4,
  no_effect s s1 /\ goalPrepareFresh r s1 = Some (Ok tt, s2) /\ gp_Number r = 0%Z /\
  head_actor (gp_Repository r) (gp_Branch r) (ExpectedHead r) (gp_AppBotID r) s2 = Some (Ok tt, s3) /\
  request "POST" ("repos/" +:+ gp_Repository r +:+ "/pulls") (Some (draft_body r)) s3 = Some (x, s4) /\ no_effect s4 s'.

(** How the pushing stage of a run ends. *)
Lemma push_seed_shape r existing s x s' : push_seed r existing s = Some (x, s') -> no_effect s s' \/ seed_pushed r s s'.
Proof.
  unfold push_seed. pose proof (goalPrepareRemote_quiet (fun _ => True) no_effect r) as Hrem.
  pose proof (goalPrepareFresh_quiet (fun _ => True) no_effect r) as Hfr. intros Hr. assert (no_effect s s) as Q by done.
  from Q Hr; [by left|]. destruct (String.eqb_spec x0 "") as [->|]; [|left; apply of_res_inv in Hr as [_ ->]; done].
  pose proof Q as Q1. from Q Hr; [by left|]. destruct x0. apply guard_inv in H1 as [Hn ->]. from Q Hr; [by left|].
  apply P_bind_inv in Hr as [(a & s4 & (y & [= ->] & Hp)%attempt_inv & Hr)|(e & (y & [=] & _)%attempt_inv & _)].
  right. unfold none_retained in Hn. apply negb_false_iff, andb_true_iff in Hn as [_ Hz%Z.eqb_eq].
  exists s, x1, x2, y, s4. destruct x0. split_and!; [done..|]. clear Q Q1. assert (no_effect s4 s4) as Q by done.
  cbv zeta in Hr. from Q Hr; [done|]. apply of_res_inv in Hr as [_ ->]. done.
Qed.

Lemma create_draft_shape r existing s x s' : create_draft r existing s = Some (x, s') -> no_effect s s' \/ draft_created r s s'.
Proof.
  unfold create_draft. pose proof (goalPreparePRs_quiet (fun _ => True) no_effect r) as Hprs.
  pose proof (goalPrepareFresh_quiet (fun _ => True) no_effect r) as Hfr.
  pose proof (head_actor_quiet (fun _ => True) no_effect (gp_Repository r) (gp_Branch r) (ExpectedHead r) (gp_AppBotID r)) as Ha.
  intros Hr. assert (no_effect s s) as Q by done.
  from Q Hr; [by left|]. from Q Hr; [by left|]. destruct existing; [|left; injection Hr as _ ->; done].
  from Q Hr; [by left|]. destruct x4. apply guard_inv in H2 as [Hz%negb_false_iff%Z.eqb_eq ->].
  apply P_bind_inv in Hr as [(a & s4 & (y & [= ->] & Hp)%attempt_inv & Hr)|(e & (y & [=] & _)%attempt_inv & _)].
  right. apply replace_err_Ok in H1. destruct x0, x2. exists s, x1, x3, y, s4. split_and!; [done..|].
  revert Hr. by apply along_replace.
Qed.

(** A binding that names its branch is kept as it is. *)
Lemma allocate_retains random r s r' s' : allocate random r s = Some (Ok r', s') -> gp_Branch r <> "" -> r' = r.
Proof. unfold allocate. destruct (String.eqb_spec (gp_Branch r) ""); [done|]. intros [= <- <-]. done. Qed.

Lemma with_number_self r : with_number (gp_Number r) r = r.
Proof. by destruct r. Qed.

Lemma confirm_draft_inv r pr s out err s' : confirm_draft r pr s = Some (Ok (out, err), s') ->
  (exists n, gd_Binding out = with_number n r) /\
  (err = None -> goalCurrent CallCtx (gd_Binding out) (ExpectedHead r) s = Some (Ok tt, s')).
Proof.
  unfold confirm_draft. cbv zeta. intros [([] & s1 & H1 & H2)|(e & H1 & [= -> ->])]%caught_inv; [|split; [by eexists | done]].
  apply caught_inv in H2 as [([] & s2 & [_ ->]%guard_inv & [= <- <- <-])|(e & H2 & [= -> ->])];
    [split; [by eexists | done]|].
  split; [by eexists | done].
Qed.

(** The state a bound preparation ends in, and what it did. *)
Definition prepares r s (out : GoalPreparedDraft) (err : option error) s' : Prop := exists s1,
  (no_effect s s1 \/ seed_pushed r s s1) /\ (no_effect s1 s' \/ draft_created r s1 s') /\
  (exists n, gd_Binding out = with_number n r) /\
  (err = None -> exists s2, goalCurrent CallCtx (gd_Binding out) (ExpectedHead r) s2 = Some (Ok tt, s')).

Lemma prepares_early r s s' err : no_effect s s' \/ seed_pushed r s s' -> err <> None ->
  prepares r s {| gd_Binding := r; gd_URL := "" |} err s'.
Proof.
  intros Hs He. exists s'. split_and!; [done | by left | | by intros ->]. exists (gp_Number r). by rewrite with_number_self.
Qed.

Lemma seed_pushed_later r s s1 s2 : no_effect s s1 \/ seed_pushed r s s1 -> no_effect s1 s2 -> no_effect s s2 \/ seed_pushed r s s2.
Proof.
  intros [Hs|(a & b & c & x & d & ? & ? & ? & ? & ? & ?)] Hq; [left; by etransitivity | right].
  exists a, b, c, x, d. split_and!; [done..|]. by etransitivity.
Qed.
Lemma draft_created_later r s s1 s2 : no_effect s s1 \/ draft_created r s s1 -> no_effect s1 s2 -> no_effect s s2 \/ draft_created r s s2.
Proof.
  intros [Hs|(a & b & c & x & d & ? & ? & ? & ? & ? & ?)] Hq; [left; by etransitivity | right].
  exists a, b, c, x, d. split_and!; [done..|]. by etransitivity.
Qed.
Lemma seed_pushed_sooner r s0 s s1 : no_effect s0 s -> no_effect s s1 \/ seed_pushed r s s1 -> no_effect s0 s1 \/ seed_pushed r s0 s1.
Proof.
  intros H0 [Hs|(a & b & c & x & d & ? & ?)]; [left; by etransitivity | right].
  exists a, b, c, x, d. split; [by etransitivity | done].
Qed.

Lemma prepare_bound_shape r s out err s' : prepare_bound r s = Some (Ok (out, err), s') -> prepares r s out err s'.
Proof.
  unfold prepare_bound. cbv zeta. pose proof (check_seed_quiet (fun _ => True) no_effect r) as Hc.
  pose proof (existing_drafts_quiet (fun _ => True) no_effect r) as He. intros Hr. assert (no_effect s s) as Q by done.
  apply (caught_from _ _ _ _ _ _ _ Q) in Hr as [(? & e & [= -> ->])|(a & s1 & _ & Q1 & Hr)]; [by apply prepares_early; [left|] | |done].
  apply (caught_from _ _ _ _ _ _ _ Q1) in Hr as [(? & e & [= -> ->])|(existing & s2 & _ & Q2 & Hr)]; [by apply prepares_early; [left|] | |done].
  apply caught_inv in Hr as [(b & s3 & Hp & Hr)|(e & Hp & [= -> ->])]; apply push_seed_shape, (seed_pushed_sooner _ _ _ _ Q2) in Hp;
    [|by apply prepares_early].
  apply caught_inv in Hr as [(drafts & s4 & Hd & Hr)|(e & Hd & [= -> ->])]; apply create_draft_shape in Hd.
  2: { exists s3. split_and!; [done..| |done]. exists (gp_Number r). by rewrite with_number_self. }
  apply caught_inv in Hr as [(pr & s5 & Hu & Hr)|(e & Hu & [= -> ->])];
    apply (unique_draft_quiet (fun _ => True) no_effect) in Hu as Hu'; pose proof (draft_created_later _ _ _ _ Hd Hu') as Hd'.
  2: { exists s3. split_and!; [done..| |done]. exists (gp_Number r). by rewrite with_number_self. }
  pose proof (confirm_draft_quiet (fun _ => True) no_effect r pr _ _ _ Hr) as Hq. apply confirm_draft_inv in Hr as [Hn Hcur].
  exists s3. split_and!; [done | by eapply draft_created_later | done | intros E; exists s5; by apply Hcur].
Qed.

(** C24: Preparing a draft spends at most one push and at most one pull request, whatever the surroundings answer: the push is of the one seed of the binding, to a branch that was read absent, with everything current and no pull request retained; the creation comes after it, with everything current again and the last push of the branch known to be the bound actor's and of exactly the seed; a binding that names its branch is never replaced by another; and success means that the draft was found to be the bound one at the end. *)
Theorem PrepareGoalDraft_once random r0 s out err s' (E : PrepareGoalDraft random r0 s = Some (Ok (out, err), s')) :
  exists r, (gp_Branch r0 <> "" -> r = r0) /\ prepares r s out err s'.
Proof.
  unfold PrepareGoalDraft in E. cbv zeta in E. assert (no_effect s s) as Q by done.
  apply (caught_from _ _ _ _ _ _ _ Q) in E as [(? & e & [= -> ->])|(a & s1 & _ & Q1 & E)]; [exists r0; split; [done|]; by apply prepares_early; [left|] | |quieted].
  apply (caught_from _ _ _ _ _ _ _ Q1) in E as [(? & e & [= -> ->])|(b & s2 & _ & Q2 & E)];
    [exists r0; split; [done|]; by apply prepares_early; [left|] | |exact (goalPrepareFresh_quiet (fun _ => True) no_effect r0)].
  apply (caught_from _ _ _ _ _ _ _ Q2) in E as [(? & e & [= -> ->])|(r & s3 & Ha & Q3 & E)];
    [exists r0; split; [done|]; by apply prepares_early; [left|] | |exact (allocate_quiet (fun _ => True) no_effect random r0)].
  exists r. split; [by eapply allocate_retains|]. apply prepare_bound_shape in E as (s4 & Hp & Hrest). exists s4. split; [|done].
  exact (seed_pushed_sooner r _ _ _ Q3 Hp).
Qed.
End effects.

(** * The desk: a fresh draft is prepared *)

Definition desk_unprepared : GoalPublicationRequest := with_number 0 (with_allocation "" "" (desk_goal "")).
Definition desk_random : string := foldr (fun n s => String (ascii_of_nat n) s) "" [1; 35; 69; 103; 137; 171; 205; 239].
Definition desk_prepare := PrepareGoalDraft (H := desk_host) (Ok desk_random) desk_unprepared (start_desk (set_head "" empty_desk)).
Definition desk_draft_of : GoalPreparedDraft := match desk_prepare with Some (Ok (out, _), _) => out | _ => {| gd_Binding := desk_unprepared; gd_URL := "" |} end.
Definition desk_prepared : flow (B := desk_boundary) := match desk_prepare with Some (_, s) => s | None => start_desk empty_desk end.
Lemma desk_prepares : desk_prepare = Some (Ok (desk_draft_of, None), desk_prepared).
Proof. vm_compute. reflexivity. Qed.

(** One push and one creation, and the branch is the allocated one. *)
Example desk_prepared_effects : length (List.filter effect (log desk_prepared)) = 2 /\ gp_Branch (gd_Binding desk_draft_of) = desk_branch.
Proof. vm_compute. done. Qed.

Lemma PrepareGoalDraft_once_witness : gd_URL desk_draft_of = desk_url /\
  exists r, prepares (H := desk_host) r (start_desk (set_head "" empty_desk)) desk_draft_of None desk_prepared.
Proof.
  split; [vm_compute; reflexivity|].
  destruct (PrepareGoalDraft_once (H := desk_host) (Ok desk_random) desk_unprepared _ desk_draft_of None desk_prepared desk_prepares) as (r & _ & Hp).
  by exists r.
Defined.
