(* ===== verification/GoalPreflight.v ===== *)
(** What is known before a goal starts: the target, the policy, and whether a
    goal is already open.  [goal_preflight.go]
    ([src/codexsdk/internal/protocolsync]), with the branch names that the
    preparation of a goal allocates. *)

From Stdlib Require Import Ascii.
From stdpp Require Import pretty.
From S2P Require Import Prelude GoStrings Policy Scope Resolve PublicationText Checks Boundary Inspection Goal GoalSnapshot Rebinding GoalPublication Desk GoalIntents GoalDiagnostics GoalProgress GoalFlow GoalAcceptance GoalHandoff GoalPrepare.

Local Open Scope string_scope.
Local Open Scope list_scope.
Local Open Scope goal_scope.

(** * Branches of native goals *)

Definition sync_prefix := "codex/sync-upstream-".

(** [-SHA-base-SHA-goal-ALLOCATION], 53 bytes. *)
Definition native_tail (t : string) : bool :=
  String.eqb (str_take 1 t) "-" && all_bytes Policy.is_hex (str_take 12 (str_drop 1 t)) &&
  String.eqb (str_take 6 (str_drop 13 t)) "-base-" && all_bytes Policy.is_hex (str_take 12 (str_drop 19 t)) &&
  String.eqb (str_take 6 (str_drop 31 t)) "-goal-" && all_bytes Policy.is_hex (str_drop 37 t).

(** [^codex/sync-upstream-[A-Za-z0-9._-]{1,64}-[0-9a-f]{12}-base-[0-9a-f]{12}-goal-[0-9a-f]{16}$];
    the end of the name has a fixed length. *)
Definition nativeGoalBranch (s : string) : bool :=
  let rest := str_drop 20 s in
  let n := (String.length rest - 53)%nat in
  has_prefix sync_prefix s && (54 <=? String.length rest)%nat && (n <=? 64)%nat &&
  all_bytes is_name_byte (str_take n rest) && native_tail (str_drop n rest).

(** * The preflight *)

Record GoalPreflightRequest := {
  pf_RepoRoot : string; pf_Repository : string; pf_BaseBranch : string; pf_BaseSHA : string; pf_UpstreamRef : string;
  pf_AppBotID : Z; pf_has_API : bool }.

Record GoalPreflightResult := {
  pf_Outcome : string; pf_Reason : string; pf_Target : Target; ExistingPRURL : string; ExistingPRNumber : Z;
  ExistingHead : string; ExistingBranch : string }.

Definition no_upstream : Target := {| RefName := ""; RefKind := ""; TagSHA := ""; PeeledCommitSHA := ""; TargetExplicit := false |}.
Definition preflight_of (outcome reason : string) (target : Target) : GoalPreflightResult := {|
  pf_Outcome := outcome; pf_Reason := reason; pf_Target := target; ExistingPRURL := ""; ExistingPRNumber := 0;
  ExistingHead := ""; ExistingBranch := "" |}.

Definition pf_blocked := "blocked".
Definition pf_skip := "skip".
Definition needs_recovery := "needs_recovery".
Definition pf_run := "run".

Definition recovery_reason := "existing trusted native goal PR blocks a new goal; inspect its prior run and use explicit authenticated recovery, never scheduled resume or deadline renewal".

Definition incomplete_preflight (r : GoalPreflightRequest) : bool :=
  String.eqb (pf_RepoRoot r) "" || negb (goalRepositoryPattern (pf_Repository r)) || negb (String.eqb (pf_BaseBranch r) "main") ||
  negb (shaRE (pf_BaseSHA r)) || (pf_AppBotID r <=? 0)%Z || negb (pf_has_API r).

Definition open_page_path (r : GoalPreflightRequest) (page : nat) : string :=
  "repos/" +:+ pf_Repository r +:+ "/pulls?state=open&base=" +:+ QueryEscape (pf_BaseBranch r) +:+ "&per_page=100&page=" +:+ pretty page.

Definition ref_path (repository branch : string) : string := "repos/" +:+ repository +:+ "/git/ref/heads/" +:+ branch.

(** The identity of an open pull request, but for its number being new. *)
Definition malformed_open (r : GoalPreflightRequest) (pr : publicationPR) : bool :=
  (pr_Number pr <=? 0)%Z || negb (String.eqb (pr_State pr) "open") || match MergedAt pr with Some _ => true | None => false end ||
  negb (String.eqb (Ref (pr_Base pr)) (pf_BaseBranch r)) || negb (String.eqb (FullName (pr_Base pr)) (pf_Repository r)) ||
  negb (shaRE (ref_SHA (pr_Base pr))) || String.eqb (Ref (pr_Head pr)) "" || String.eqb (FullName (pr_Head pr)) "" ||
  negb (shaRE (ref_SHA (pr_Head pr))) || (user_ID (User pr) <=? 0)%Z || String.eqb (user_Type (User pr)) "" ||
  negb (String.eqb (pr_URL pr) (pull_url (pf_Repository r) (pr_Number pr))).

Definition is_sync (pr : publicationPR) : bool := has_prefix "codex/sync-upstream" (Ref (pr_Head pr)).

Section preflight.
Context {W : Type} {B : Boundary W} {H : Host W} {F : FlowCodec}.

Definition untrusted_open (r : GoalPreflightRequest) (pr : publicationPR) : bool :=
  negb (nativeGoalBranch (Ref (pr_Head pr))) || negb (String.eqb (FullName (pr_Head pr)) (pf_Repository r)) ||
  match verifyAppActor (User pr) (pf_AppBotID r) with Ok _ => false | Err _ => true end.

(** The numbers seen so far, and the open goal among them. *)
Definition scan : Type := list Z * option publicationPR.

Definition coordinate_open (r : GoalPreflightRequest) (st : scan) (pr : publicationPR) : res scan :=
  let '(seen, candidate) := st in
  if malformed_open r pr || mem (pr_Number pr) seen then Err (new_error "malformed or changing open PR identity") else
  let seen := pr_Number pr :: seen in
  if negb (is_sync pr) then Ok (seen, candidate)
  else if untrusted_open r pr then Err (new_error "untrusted or unsupported open sync PR identity")
  else match candidate with
       | Some _ => Err (new_error "multiple open native goal PRs are ambiguous")
       | None => Ok (seen, Some pr)
       end.

Fixpoint inspect_batch (r : GoalPreflightRequest) (batch : list publicationPR) (st : scan) : res scan :=
  match batch with
  | [] => Ok st
  | pr :: batch => st ← coordinate_open r st pr; inspect_batch r batch st
  end.

Fixpoint open_goals (pages : nat) (r : GoalPreflightRequest) (page : nat) (st : scan) : P (B := B) (option publicationPR) :=
  match pages with
  | O => fail (new_error "open PR listing exceeds bounded preflight")
  | S pages =>
    _ ← ended CallCtx;
    listing ← replace_err (new_error "cannot list open preflight PRs") (get decode_open (open_page_path r page));
    batch ← (match listing with Some batch => mret batch | None => fail (new_error "malformed open PR listing") end);
    _ ← guard (100 <? length batch)%nat (new_error "malformed open PR listing");
    st ← of_res (inspect_batch r batch st);
    if (length batch <? 100)%nat then mret (snd st) else open_goals pages r (S page) st
  end.

(** The head of the branch of an open goal, pushed last by the bound actor. *)
Definition open_head (r : GoalPreflightRequest) (pr : publicationPR) : P (B := B) string :=
  let unconfirmed := new_error "cannot confirm native goal branch head" in
  let branch := Ref (pr_Head pr) in
  ref ← replace_err unconfirmed (get decode_ref (ref_path (pf_Repository r) branch));
  let '(name, kind, sha) := ref in
  _ ← guard (negb (String.eqb name ("refs/heads/" +:+ branch)) || negb (String.eqb kind "commit") || negb (shaRE sha)) unconfirmed;
  _ ← replace_err (new_error "cannot confirm native goal head actor") (head_actor (pf_Repository r) branch sha (pf_AppBotID r));
  mret sha.

Definition preflight_policy (r : GoalPreflightRequest) (baseline : BaselineIdentity) (target : Target) : PolicyDecision :=
  EvaluatePolicy {| Baseline := baseline; Policy.TargetRef := RefName target; Policy.TargetKind := RefKind target; Policy.TargetSHA := PeeledCommitSHA target;
                    req_TargetExplicit := TargetExplicit target; req_Mode := ""; AllowDowngrade := false |}.

Definition preflight (r : GoalPreflightRequest) : P (B := B) (GoalPreflightResult * option error) :=
  let result := preflight_of pf_blocked "" no_upstream in
  try! _ := guard (incomplete_preflight r) (new_error "incomplete goal preflight binding") else result;
  let differs := new_error "preflight checkout differs from accepted base" in
  try! head := replace_err differs (goalGit (pf_RepoRoot r) ["rev-parse"; "HEAD"]) else result;
  try! _ := guard (negb (String.eqb head (pf_BaseSHA r))) differs else result;
  try! baseline := replace_err (new_error "cannot read accepted baseline identity") (gitBaselineIdentityIn (pf_RepoRoot r) (pf_BaseSHA r)) else result;
  try! target := replace_err (new_error "cannot resolve preflight upstream target")
                   (resolve {| res_Remote := ""; res_UpstreamRef := pf_UpstreamRef r; res_LatestStable := false |}) else result;
  let result := preflight_of pf_blocked "" target in
  let policy := preflight_policy r baseline target in
  try! _ := guard (String.eqb (Decision policy) DecisionBlock) (new_error (Reason policy)) else result;
  if String.eqb (Decision policy) DecisionSkip then mret (preflight_of pf_skip (Reason policy) target, None) else
  try! candidate := open_goals 20 r 1 ([], None) else result;
  match candidate with
  | None => mret (preflight_of pf_run (Reason policy) target, None)
  | Some pr =>
    try! sha := open_head r pr else result;
    mret ({| pf_Outcome := needs_recovery; pf_Reason := recovery_reason; pf_Target := target; ExistingPRURL := pr_URL pr;
             ExistingPRNumber := pr_Number pr; ExistingHead := sha; ExistingBranch := Ref (pr_Head pr) |}, None)
  end.

Definition refused (e : error) (p : GoalPreflightResult) : GoalPreflightResult := {|
  pf_Outcome := pf_blocked; pf_Reason := Error e; pf_Target := pf_Target p; ExistingPRURL := ExistingPRURL p;
  ExistingPRNumber := ExistingPRNumber p; ExistingHead := ExistingHead p; ExistingBranch := ExistingBranch p |}.

(** The deferred end: an ended context is the error. *)
Definition GoalPreflight (r : GoalPreflightRequest) : P (B := B) (GoalPreflightResult * option error) :=
  '(result, err) ← preflight r;
  over ← peek (ctx_err CallCtx);
  let err := match over with Some e => Some e | None => err end in
  mret (match err with Some e => refused e result | None => result end, err).
End preflight.

(** * Allocated branches are native *)

Lemma str_take_exact n s t : String.length s = n -> str_take n (s +:+ t) = s.
Proof. intros <-. apply str_take_app. Qed.
Lemma str_drop_exact n m s t : String.length s = n -> str_drop (n + m) (s +:+ t) = str_drop m t.
Proof. intros <-. apply str_drop_app_ge. Qed.
Lemma str_drop_0 s : str_drop 0 s = s.
Proof. done. Qed.
Lemma str_drop_past k n s t : String.length s = k -> (k <= n)%nat -> str_drop n (s +:+ t) = str_drop (n - k) t.
Proof. intros <- Hn. rewrite <- (str_drop_app_ge s t). f_equal. lia. Qed.
Lemma str_take_len n s : (n <= String.length s)%nat -> String.length (str_take n s) = n.
Proof. revert s. induction n as [|n IH]; intros [|c s]; cbn; [lia..|]. intros Hn. rewrite IH; lia. Qed.
Lemma all_bytes_take f n s : all_bytes f s = true -> all_bytes f (str_take n s) = true.
Proof. revert s. induction n as [|n IH]; intros [|c s]; cbn; try done. intros [Hc Hs]%andb_true_iff. by rewrite Hc, IH. Qed.
Lemma all_bytes_drop f n s : all_bytes f s = true -> all_bytes f (str_drop n s) = true.
Proof. revert s. induction n as [|n IH]; intros [|c s]; cbn; try done. intros [_ Hs]%andb_true_iff. by apply IH. Qed.
Lemma all_bytes_impl (f g : ascii -> bool) s : (forall c, f c = true -> g c = true) -> all_bytes f s = true -> all_bytes g s = true.
Proof. intros Hfg. induction s as [|c s IH]; [done|]. cbn. intros [Hc Hs]%andb_true_iff. by rewrite (Hfg _ Hc), IH. Qed.

(** The names the pattern accepts. *)
Lemma native_branch_of name sha base allocation :
  (1 <= String.length name <= 64)%nat -> all_bytes is_name_byte name = true ->
  String.length sha = 12 -> all_bytes Policy.is_hex sha = true -> String.length base = 12 -> all_bytes Policy.is_hex base = true ->
  String.length allocation = 16 -> all_bytes Policy.is_hex allocation = true ->
  nativeGoalBranch (sync_prefix +:+ name +:+ "-" +:+ sha +:+ "-base-" +:+ base +:+ "-goal-" +:+ allocation) = true.
Proof.
  intros Hn Hnb Hs Hsb Hb Hbb Ha Hab. unfold nativeGoalBranch. cbv zeta. rewrite has_prefix_app.
  set (tail := "-" +:+ sha +:+ "-base-" +:+ base +:+ "-goal-" +:+ allocation).
  rewrite (str_drop_exact 20 0 sync_prefix) by done. rewrite str_drop_0.
  assert (String.length tail = 53) as Ht by (unfold tail; rewrite !str_length_app, Hs, Hb, Ha; reflexivity).
  rewrite str_length_app, Ht. replace (String.length name + 53 - 53)%nat with (String.length name) by lia.
  rewrite str_take_app, str_drop_app, Hnb. rewrite !andb_true_iff, !Nat.leb_le. split_and!; [done | lia..| done |].
  unfold native_tail, tail.
  rewrite !(str_drop_past 1 _ "-") by (done || lia). cbn [Nat.sub]. rewrite !str_drop_0.
  rewrite (str_take_exact 1 "-"), (str_take_exact 12 sha) by done.
  rewrite !(str_drop_past 12 _ sha) by (done || lia). cbn [Nat.sub]. rewrite !str_drop_0. rewrite (str_take_exact 6 "-base-") by done.
  rewrite !(str_drop_past 6 _ "-base-") by (done || lia). cbn [Nat.sub]. rewrite !str_drop_0. rewrite (str_take_exact 12 base) by done.
  rewrite !(str_drop_past 12 _ base) by (done || lia). cbn [Nat.sub]. rewrite !str_drop_0. rewrite (str_take_exact 6 "-goal-") by done.
  rewrite !(str_drop_past 6 _ "-goal-") by (done || lia). cbn [Nat.sub]. rewrite !str_drop_0.
  by rewrite Hsb, Hbb, Hab.
Qed.

Lemma replace_runs_name inside s : all_bytes is_name_byte (replace_runs inside s) = true.
Proof.
  revert inside. induction s as [|c s IH]; intros inside; [done|]. cbn [replace_runs]. destruct (is_name_byte c) eqn:E.
  - cbn. by rewrite E, IH.
  - destruct inside; [apply IH|]. cbn. by rewrite IH.
Qed.

Lemma hex_lower_hex n : (n < 16)%nat -> Policy.is_hex (hex_lower n) = true.
Proof. intros Hn. do 16 (destruct n as [|n]; [reflexivity|]). lia. Qed.

Lemma hex_encode_hex s : all_bytes Policy.is_hex (hex_encode s) = true /\ String.length (hex_encode s) = (2 * String.length s)%nat.
Proof.
  induction s as [|c s [IH El]]; [done|]. pose proof (nat_ascii_bounded c) as Hc. split.
  - cbn [hex_encode all_bytes]. rewrite !hex_lower_hex, IH; [done | apply Nat.mod_upper_bound; lia |].
    apply Nat.Div0.div_lt_upper_bound. lia.
  - cbn [hex_encode String.length]. rewrite El. lia.
Qed.

Lemma is_hex_name c : Policy.is_hex c = true -> is_name_byte c = true.
Proof.
  unfold Policy.is_hex, is_name_byte. intros E. rewrite !orb_true_iff in *. left. left. left.
  destruct E as [E|E]; [right; exact E|]. left. right. rewrite !andb_true_iff, !Nat.leb_le in *. lia.
Qed.

Lemma slice_to_shape n s t : slice_to n s = Some t ->
  String.length t = n /\ (forall f, all_bytes f s = true -> all_bytes f t = true).
Proof.
  unfold slice_to. destruct (Nat.leb_spec n (String.length s)); [|done]. intros [= <-].
  split; [by apply str_take_len | intros f; apply all_bytes_take].
Qed.

Lemma trim_left_name f g s : all_bytes g s = true -> all_bytes g (trim_left_bytes f s) = true.
Proof. induction s as [|c s IH]; [done|]. cbn. intros [Hc Hs]%andb_true_iff. destruct (f c); [by apply IH|]. cbn. by rewrite Hc, Hs. Qed.
Lemma trim_right_name f g s : all_bytes g s = true -> all_bytes g (trim_right_bytes f s) = true.
Proof.
  induction s as [|c s IH]; [done|]. cbn [trim_right_bytes]. intros [Hc Hs]%andb_true_iff.
  destruct (all_bytes f (String c s)); [done|]. cbn. by rewrite Hc, IH.
Qed.

(** The branch that a goal allocates for exact commits is one that the preflight
    and the recovery recognise. *)
Lemma allocated_native ref target base branch bytes : shaRE target = true -> shaRE base = true ->
  syncBranchName ref target base = Some branch -> String.length bytes = 8 ->
  nativeGoalBranch (branch +:+ "-goal-" +:+ hex_encode bytes) = true.
Proof.
  intros [_ Ht]%andb_true_iff [_ Hb]%andb_true_iff Hs Hl. unfold syncBranchName in Hs.
  destruct (slice_to 12 target) as [sha|] eqn:Es; [|done]. destruct (slice_to 12 base) as [b|] eqn:Eb; [|done]. cbv beta iota zeta delta [mbind option_bind] in Hs.
  apply slice_to_shape in Es as [Ls Hsha], Eb as [Lb Hb']. apply (inj Some) in Hs as <-. destruct (hex_encode_hex bytes) as [Hh Lh].
  apply Hsha in Ht. apply Hb' in Hb. clear Hsha Hb'.
  set (trimmed := trim_bytes _ _). assert (all_bytes is_name_byte trimmed = true) as Hn
    by apply trim_right_name, trim_left_name, replace_runs_name. clearbody trimmed.
  set (name := if String.eqb trimmed "" then sha else trimmed).
  assert (all_bytes is_name_byte name = true /\ (1 <= String.length name)%nat) as [Hname Lname].
  { unfold name. destruct (String.eqb_spec trimmed ""); [split; [by eapply all_bytes_impl, Ht; apply is_hex_name | lia]|].
    split; [done|]. destruct trimmed; [done | cbn; lia]. }
  clearbody name. rewrite !str_app_assoc. apply native_branch_of; try done; [| |by rewrite Lh, Hl].
  - destruct (Nat.ltb_spec 64 (String.length name)); [rewrite str_take_len by lia; lia | lia].
  - destruct (Nat.ltb_spec 64 (String.length name)); [by apply all_bytes_take | done].
Qed.

(** * What the listing says *)

Section listing.
Context {W : Type} {B : Boundary W} {H : Host W} {F : FlowCodec}.
Implicit Types (r : GoalPreflightRequest) (s : flow (B := B)).

(** Well-formed pull requests, none twice; the goals among them are the candidate. *)
Definition scanned r (known : list Z) (candidate : option publicationPR) (prs : list publicationPR) (st : scan) : Prop :=
  Forall (fun pr => malformed_open r pr = false) prs /\ fst st = rev (map pr_Number prs) ++ known /\
  (NoDup known -> NoDup (fst st)) /\ option_list (snd st) = option_list candidate ++ List.filter is_sync prs /\
  Forall (fun pr => is_sync pr = true -> untrusted_open r pr = false) prs.

Lemma inspect_batch_spec r batch known candidate st :
  inspect_batch r batch (known, candidate) = Ok st -> scanned r known candidate batch st.
Proof.
  revert known candidate. induction batch as [|pr batch IH]; intros known candidate.
  - cbn. intros [= <-]. split_and!; try done. cbn. by rewrite app_nil_r.
  - cbn [inspect_batch]. intros ([known' candidate'] & Hi & Hb)%bind_Ok. apply IH in Hb as (Hf & Hk & Hn & Hc & Hu). clear IH.
    unfold coordinate_open in Hi. destruct (malformed_open r pr) eqn:Em; [done|]. destruct (mem (pr_Number pr) known) eqn:Ek; [done|].
    apply mem_false in Ek. cbn [orb] in Hi.
    assert (known' = pr_Number pr :: known) as ->.
    { destruct (negb (is_sync pr)); [by injection Hi|]. destruct (untrusted_open r pr); [done|]. destruct candidate; [done|]. by injection Hi. }
    assert (Forall (fun pr => malformed_open r pr = false) (pr :: batch) /\ fst st = rev (map pr_Number (pr :: batch)) ++ known /\
      (NoDup known -> NoDup (fst st))) as Hfirst.
    { split_and!; [by constructor | by rewrite Hk; cbn; rewrite <- app_assoc |]. intros Hnd. apply Hn. by constructor. }
    destruct Hfirst as (? & ? & ?). destruct (is_sync pr) eqn:Es; cbn [negb] in Hi.
    + destruct (untrusted_open r pr) eqn:Eu; [done|]. destruct candidate; [done|]. injection Hi as <-.
      split_and!; [done..| |by constructor]. rewrite Hc. cbn [List.filter]. by rewrite Es.
    + injection Hi as <-. split_and!; [done..| |constructor; [congruence | done]]. rewrite Hc. cbn [List.filter]. by rewrite Es.
Qed.

(** A page of the open pull requests was read. *)
Definition page_read (L : list (event (B := B))) r (page : nat) (batch : list publicationPR) : Prop := exists raw,
  Asked "GET" (open_page_path r page) None (Ok raw) ∈ L /\ decode_open raw = Ok (Some batch).

(** The pages of a listing, all full but the last. *)
Fixpoint complete_listing (L : list (event (B := B))) r (page : nat) (pages : list (list publicationPR)) : Prop :=
  match pages with
  | [] => False
  | batch :: rest => page_read L r page batch /\
    match rest with [] => (length batch < 100)%nat | _ => length batch = 100 /\ complete_listing L r (S page) rest end
  end.

Lemma complete_listing_mono L L' r page pages : L ⊆ L' -> complete_listing L r page pages -> complete_listing L' r page pages.
Proof.
  intros HL. revert page. induction pages as [|batch rest IH]; intros page; [done|]. cbn [complete_listing].
  intros [(raw & Ha & Hd) Hr]. split; [exists raw; split; [by apply HL | done]|]. destruct rest; [done|]. destruct Hr. split; [done|]. by apply IH.
Qed.

Lemma inspected_app r known candidate l1 st1 l2 st2 : scanned r known candidate l1 st1 ->
  scanned r (fst st1) (snd st1) l2 st2 -> scanned r known candidate (l1 ++ l2) st2.
Proof.
  unfold scanned. intros (F1 & K1 & N1 & C1 & U1) (F2 & K2 & N2 & C2 & U2). split_and!.
  - by apply Forall_app.
  - by rewrite K2, K1, map_app, rev_app_distr, app_assoc.
  - auto.
  - by rewrite C2, C1, List.filter_app, app_assoc.
  - by apply Forall_app.
Qed.

Section quiet.
Context (fresh : string -> Prop) (R : flow (B := B) -> flow (B := B) -> Prop) {Q : Quiet fresh R}.
#[local] Instance order_f : PreOrder R := quiet_order.
#[local] Hint Resolve order_f : quieting.

Lemma open_goals_quiet pages r page st : along R (open_goals pages r page st).
Proof. revert page st. induction pages as [|pages IH]; intros; cbn [open_goals]; quieted. Qed.
Lemma open_head_quiet r pr : along R (open_head r pr).
Proof. unfold open_head. pose proof (head_actor_quiet fresh R). quieted. Qed.
Lemma preflight_quiet r : along R (preflight r).
Proof. unfold preflight, gitBaselineIdentityIn. pose proof open_goals_quiet. pose proof open_head_quiet. quieted. Qed.
Lemma GoalPreflight_quiet r : along R (GoalPreflight r).
Proof. unfold GoalPreflight. pose proof preflight_quiet. quieted. Qed.
End quiet.

Lemma open_goals_read pages r page st prs s found s' : scanned r [] None prs st ->
  open_goals pages r page st s = Some (Ok found, s') ->
  exists read seen, complete_listing (log s') r page read /\ scanned r [] None (prs ++ concat read) (seen, found).
Proof.
  revert page st prs s. induction pages as [|pages IH]; intros page [known candidate] prs s Hi Hr; [done|].
  cbn [open_goals] in Hr. pstep Hr. pstep Hr. apply replace_err_Ok, get_inv in H1 as (raw & Elog & Hd).
  destruct a0 as [batch|]; [|done]. pstep Hr. apply ret_inv in H1 as [-> ->].
  pstep Hr. destruct a0. apply guard_inv in H1 as [Hmax%Nat.ltb_ge ->]. pstep Hr. apply of_res_inv in H1 as [Hb ->].
  assert (scanned r [] None (prs ++ batch) a0) as Hi' by (eapply inspected_app; [exact Hi | by apply inspect_batch_spec]).
  assert (page_read (log s1) r page batch) as Hp by (exists raw; split; [rewrite Elog; apply list_elem_of_here | done]).
  destruct (Nat.ltb_spec (length batch) 100) as [Hl|Hl].
  - apply ret_inv in Hr as [-> ->]. exists [batch], (fst a0). cbn [concat complete_listing]. rewrite app_nil_r. by destruct a0.
  - pose proof (open_goals_quiet (fun _ => True) no_effect pages r (S page) a0 _ _ _ Hr) as Hq.
    apply (quiet_log (Quiet := no_effect_quiet)) in Hq. eapply IH in Hr as (read & seen & Hc & Hs); [|exact Hi'].
    exists (batch :: read), seen. rewrite <- app_assoc in Hs. split; [|done]. cbn [complete_listing].
    split; [destruct Hp as (raw' & Ha & ?); exists raw'; split; [by apply Hq | done]|].
    destruct read; [done|]. split; [lia | done].
Qed.

(** What the listing decides. *)
Definition coordinates r (pages : list (list publicationPR)) (result : GoalPreflightResult) : Prop :=
  Forall (fun pr => malformed_open r pr = false) (concat pages) /\ NoDup (map pr_Number (concat pages)) /\
  match List.filter is_sync (concat pages) with
  | [] => pf_Outcome result = pf_run
  | [pr] => pf_Outcome result = needs_recovery /\ untrusted_open r pr = false /\ ExistingPRNumber result = pr_Number pr /\
      ExistingBranch result = Ref (pr_Head pr)
  | _ => False
  end.

Lemma inspected_coordinates r pages seen found : scanned r [] None (concat pages) (seen, found) ->
  Forall (fun pr => malformed_open r pr = false) (concat pages) /\ NoDup (map pr_Number (concat pages)) /\
  List.filter is_sync (concat pages) = option_list found /\ (forall pr, found = Some pr -> untrusted_open r pr = false).
Proof.
  intros (Hf & Hk & Hn & Hc & Hu). cbn in Hk, Hn, Hc. rewrite app_nil_r in Hk. split_and!; [done | | by symmetry |].
  - rewrite (Permutation_rev (map pr_Number _)), <- Hk. apply Hn. constructor.
  - intros pr ->. assert (In pr (List.filter is_sync (concat pages))) as [Hin Hs]%filter_In by by rewrite <- Hc; left.
    rewrite Forall_forall in Hu. apply Hu; [by apply list_elem_of_In | done].
Qed.

(** C25: The preflight only reads, and its answer is what the open pull requests say: unless the policy skips the target, a success rests on a complete listing - every page but the last full, every pull request well-formed and none twice - in which no pull request is of a sync branch when a new goal may run, and exactly one is when a recovery is needed, that one being a native goal of the bound actor in this repository. *)
Theorem GoalPreflight_coordinates r s result err s' (E : GoalPreflight r s = Some (Ok (result, err), s')) :
  no_effect s s' /\ (err <> None -> pf_Outcome result = pf_blocked) /\
  (err = None -> pf_Outcome result = pf_skip \/ exists pages, complete_listing (log s') r 1 pages /\ coordinates r pages result).
Proof.
  split; [by eapply (GoalPreflight_quiet (fun _ => True) no_effect)|]. unfold GoalPreflight in E. pstep E. destruct a as [result' err'].
  pstep E. assert (s1 = s0) as -> by (unfold peek in H1; by injection H1). injection E as <- Ee ->.
  destruct a as [over|]; [subst err; split; [done | discriminate]|]. rewrite Ee. split; [by destruct err|]. intros ->. subst err'.
  unfold preflight in H0. cbv zeta in H0.
  do 6 (apply caught_Ok in H0 as (? & ? & _ & H0)). destruct (String.eqb _ DecisionSkip).
  { injection H0 as <- _. by left. }
  right. apply caught_Ok in H0 as (found & s2 & Ho & H0).
  apply (open_goals_read 20 r 1 ([], None) []) in Ho as (pages & seen & Hc & Hi);
    [|split_and!; [constructor | done | constructor | done | constructor]].
  apply inspected_coordinates in Hi as (Hf & Hn & Hs & Hu). exists pages. unfold coordinates. rewrite Hs.
  destruct found as [pr|].
  - apply caught_Ok in H0 as (sha & s3 & Hh & [= <- <-]). cbn [option_list]. split; [|split_and!; try done; by apply Hu].
    eapply complete_listing_mono; [|exact Hc].
    exact (quiet_log (Quiet := no_effect_quiet) _ _ (open_head_quiet (fun _ => True) no_effect r pr _ _ _ Hh)).
  - injection H0 as <- <-. done.
Qed.
End listing.

(** * The desk *)

Definition desk_preflight_request : GoalPreflightRequest := {|
  pf_RepoRoot := "/repo"; pf_Repository := "o/r"; pf_BaseBranch := "main"; pf_BaseSHA := sha_of "7"; pf_UpstreamRef := "rust-v1.2.0";
  pf_AppBotID := 7; pf_has_API := true |}.
Definition desk_preflight := GoalPreflight (H := desk_host) desk_preflight_request (start_desk empty_desk).
Definition desk_preflight_result : GoalPreflightResult := match desk_preflight with Some (Ok (p, _), _) => p | _ => preflight_of pf_blocked "" no_upstream end.
Definition desk_looked : flow (B := desk_boundary) := match desk_preflight with Some (_, s) => s | None => start_desk empty_desk end.
Lemma desk_preflights : desk_preflight = Some (Ok (desk_preflight_result, None), desk_looked).
Proof. vm_compute. reflexivity. Qed.

Lemma GoalPreflight_coordinates_witness : pf_Outcome desk_preflight_result = pf_run /\
  no_effect (start_desk empty_desk) desk_looked.
Proof.
  split; [vm_compute; reflexivity|].
  destruct (GoalPreflight_coordinates (H := desk_host) desk_preflight_request (start_desk empty_desk) desk_preflight_result None
              desk_looked desk_preflights) as [Hq _]. exact Hq.
Defined.
