(* ===== verification/GoalRecovery.v ===== *)
(** Recovering the draft of a goal whose run has ended: what an earlier run left
    is data until the run, its artifact and every live identity are checked.
    [goal_recovery.go] ([src/codexsdk/internal/protocolsync]).

    [archive/zip] and [json.Unmarshal] are the class [RecoveryCodec]: a member of
    an archive comes with what reading it to its end gives.  The two entries that
    [goalRecoveryCurrent] ranges over come in any order: the order is an
    argument. *)

From Stdlib Require Import Ascii.
From stdpp Require Import pretty.
From S2P Require Import Prelude GoStrings Policy Scope Resolve PublicationText Checks Boundary Inspection Goal GoalSnapshot Rebinding GoalPublication Desk GoalIntents GoalDiagnostics GoalProgress GoalFlow GoalAcceptance GoalHandoff GoalPrepare GoalPreflight.

Local Open Scope string_scope.
Local Open Scope list_scope.
Local Open Scope goal_scope.

(** * Data *)

Record GoalRecoveryBinding := {
  rb_Schema : Z; rb_Repository : string; rb_RunID : Z; rb_RunAttempt : Z; rb_ControllerSHA : string; rb_Base : string;
  rb_Branch : string; rb_Number : Z; rb_Head : string; rb_AppBotID : Z; rb_TargetRef : string; rb_TargetKind : string;
  rb_TargetSHA : string; rb_Deadline : option Z; rb_URL : string; rb_Confirmed : bool }.

Record GoalRecoveryRequest := {
  rq_RepoRoot : string; rq_OutputDir : string; rq_Repository : string; rq_CurrentBaseSHA : string; rq_ExpectedHead : string;
  rq_Number : Z; rq_AppBotID : Z; PriorRunID : Z; AuthorizeNewBoundedExecution : bool; NewExecutionDeadline : option Z;
  RegenerateEmptySeed : bool; rq_has_API : bool }.

Record GoalRecoveryResult := {
  AdoptedEvidenceDir : string; rr_Outcome : string; rr_Reason : string; rr_Binding : GoalRecoveryBinding; rr_Target : Target;
  Classification : string; rr_ExpectedHead : string; rr_CandidateDir : string; BindingFile : string; rr_PriorRunID : Z;
  ArtifactID : Z; PriorDeadline : option Z; ExecutionDeadline : option Z }.

Definition no_binding : GoalRecoveryBinding := {|
  rb_Schema := 0; rb_Repository := ""; rb_RunID := 0; rb_RunAttempt := 0; rb_ControllerSHA := ""; rb_Base := ""; rb_Branch := "";
  rb_Number := 0; rb_Head := ""; rb_AppBotID := 0; rb_TargetRef := ""; rb_TargetKind := ""; rb_TargetSHA := ""; rb_Deadline := None;
  rb_URL := ""; rb_Confirmed := false |}.

Definition recovery_started (r : GoalRecoveryRequest) : GoalRecoveryResult := {|
  AdoptedEvidenceDir := ""; rr_Outcome := "blocked"; rr_Reason := ""; rr_Binding := no_binding; rr_Target := no_upstream;
  Classification := ""; rr_ExpectedHead := rq_ExpectedHead r; rr_CandidateDir := ""; BindingFile := ""; rr_PriorRunID := PriorRunID r;
  ArtifactID := 0; PriorDeadline := None; ExecutionDeadline := None |}.

Section updates.
Implicit Types (r : GoalRecoveryResult).
Definition rr_artifact (id : Z) r := {| AdoptedEvidenceDir := AdoptedEvidenceDir r; rr_Outcome := rr_Outcome r; rr_Reason := rr_Reason r;
  rr_Binding := rr_Binding r; rr_Target := rr_Target r; Classification := Classification r; rr_ExpectedHead := rr_ExpectedHead r;
  rr_CandidateDir := rr_CandidateDir r; BindingFile := BindingFile r; rr_PriorRunID := rr_PriorRunID r; ArtifactID := id;
  PriorDeadline := PriorDeadline r; ExecutionDeadline := ExecutionDeadline r |}.
Definition rr_bound (b : GoalRecoveryBinding) (t : Target) r := {| AdoptedEvidenceDir := AdoptedEvidenceDir r; rr_Outcome := rr_Outcome r;
  rr_Reason := rr_Reason r; rr_Binding := b; rr_Target := t; Classification := Classification r; rr_ExpectedHead := rr_ExpectedHead r;
  rr_CandidateDir := rr_CandidateDir r; BindingFile := BindingFile r; rr_PriorRunID := rr_PriorRunID r; ArtifactID := ArtifactID r;
  PriorDeadline := rb_Deadline b; ExecutionDeadline := ExecutionDeadline r |}.
Definition rr_class (c : string) r := {| AdoptedEvidenceDir := AdoptedEvidenceDir r; rr_Outcome := rr_Outcome r; rr_Reason := rr_Reason r;
  rr_Binding := rr_Binding r; rr_Target := rr_Target r; Classification := c; rr_ExpectedHead := rr_ExpectedHead r;
  rr_CandidateDir := rr_CandidateDir r; BindingFile := BindingFile r; rr_PriorRunID := rr_PriorRunID r; ArtifactID := ArtifactID r;
  PriorDeadline := PriorDeadline r; ExecutionDeadline := ExecutionDeadline r |}.
Definition rr_deadline (d : option Z) r := {| AdoptedEvidenceDir := AdoptedEvidenceDir r; rr_Outcome := rr_Outcome r; rr_Reason := rr_Reason r;
  rr_Binding := rr_Binding r; rr_Target := rr_Target r; Classification := Classification r; rr_ExpectedHead := rr_ExpectedHead r;
  rr_CandidateDir := rr_CandidateDir r; BindingFile := BindingFile r; rr_PriorRunID := rr_PriorRunID r; ArtifactID := ArtifactID r;
  PriorDeadline := PriorDeadline r; ExecutionDeadline := d |}.
Definition rr_adopted (dir : string) r := {| AdoptedEvidenceDir := dir; rr_Outcome := rr_Outcome r; rr_Reason := rr_Reason r;
  rr_Binding := rr_Binding r; rr_Target := rr_Target r; Classification := Classification r; rr_ExpectedHead := rr_ExpectedHead r;
  rr_CandidateDir := rr_CandidateDir r; BindingFile := BindingFile r; rr_PriorRunID := rr_PriorRunID r; ArtifactID := ArtifactID r;
  PriorDeadline := PriorDeadline r; ExecutionDeadline := ExecutionDeadline r |}.
Definition rr_ended (outcome reason candidate file : string) r := {| AdoptedEvidenceDir := AdoptedEvidenceDir r; rr_Outcome := outcome;
  rr_Reason := reason; rr_Binding := rr_Binding r; rr_Target := rr_Target r; Classification := Classification r;
  rr_ExpectedHead := rr_ExpectedHead r; rr_CandidateDir := candidate; BindingFile := file; rr_PriorRunID := rr_PriorRunID r;
  ArtifactID := ArtifactID r; PriorDeadline := PriorDeadline r; ExecutionDeadline := ExecutionDeadline r |}.
End updates.

Record goalRecoveryRun := {
  rn_ID : Z; rn_Attempt : Z; rn_WorkflowID : Z; rn_Path : string; rn_Event : string; rn_Status : string; rn_Conclusion : string;
  rn_HeadBranch : string; rn_HeadSHA : string; rn_Repository : string; rn_HeadRepository : string }.
Record goalRecoveryArtifact := {
  ar_ID : Z; ar_Name : string; ar_Expired : bool; ar_Size : Z; ar_Digest : string; ar_RunID : Z; ar_HeadSHA : string;
  ar_HeadBranch : string }.

#[export] Instance goalRecoveryRun_eq_dec : EqDecision goalRecoveryRun.
Proof. solve_decision. Defined.
#[export] Instance goalRecoveryArtifact_eq_dec : EqDecision goalRecoveryArtifact.
Proof. solve_decision. Defined.

(** A member of an archive; [zm_Data] is its text, read to the end.  A receipt is
    the intended head and the deadline of an intent. *)
Record zip_member := { zm_Name : string; zm_symlink : bool; zm_regular : bool; zm_Size : Z; zm_Data : res string }.

(** What a retained result says of its run: its stage, head and intent. *)
Record retained_result := { pv_Stage : string; pv_Head : string; pv_PublicationIntentHead : string }.

Class RecoveryCodec {W} {B : Boundary W} := {
  decode_run : Raw -> res goalRecoveryRun;
  decode_workflow : Raw -> res (Z * string);
  decode_artifacts : Raw -> res (Z * list goalRecoveryArtifact);
  zip_members : string -> res (list zip_member);
  decode_binding : string -> option GoalRecoveryBinding;
  decode_source : string -> option Target;
  decode_result : string -> option retained_result;
  decode_receipt : string -> option (string * option Z);
  encode_binding : GoalRecoveryBinding -> res string
}.

(** * The archive *)

Definition goalRecoveryWorkflow := ".github/workflows/codexsdk-upstream-protocol-sync.yml".
Definition goalRecoveryArchiveLimit : Z := 128 * 1024 * 1024.

Definition publication_dir := "goal-publication/".
Definition adopted_dir := "goal-adopted-publication/".

Definition wanted_members : list string :=
  ["goal-binding.json"; "goal-source.json"; "goal-result.json"; publication_dir +:+ goalIntentName; publication_dir +:+ goalBundleName;
   adopted_dir +:+ goalIntentName; adopted_dir +:+ goalBundleName].

Definition unsafe_member (seen : list string) (m : zip_member) : bool :=
  let name := zm_Name m in
  String.eqb name "" || negb (String.eqb (path_clean name) (trim_suffix "/" name)) || has_prefix "/" name ||
  contains_byte "\"%char name || has_prefix "../" name || zm_symlink m || mem name seen.

Definition member_limit (name : string) : Z := if has_suffix ".bundle" name then goalRecoveryArchiveLimit else 1024 * 1024.

Definition read_member (m : zip_member) : res string :=
  let limit := member_limit (zm_Name m) in
  if negb (zm_regular m) || (limit <? zm_Size m)%Z then Err (new_error "invalid recovery evidence member") else
  match zm_Data m with
  | Ok data => if (limit <? Z.of_nat (String.length data))%Z then Err (new_error "recovery evidence incomplete") else Ok data
  | Err _ => Err (new_error "recovery evidence incomplete")
  end.

Fixpoint read_members (members : list zip_member) (seen : list string) (total : Z) (files : gmap string string)
    : res (gmap string string) :=
  match members with
  | [] => Ok files
  | m :: rest =>
    if unsafe_member seen m then Err (new_error "unsafe or duplicate recovery archive member") else
    if (2 * goalRecoveryArchiveLimit <? zm_Size m)%Z then Err (new_error "expanded recovery archive member exceeds bound") else
    let total := (total + zm_Size m)%Z in
    if (2 * goalRecoveryArchiveLimit <? total)%Z then Err (new_error "expanded recovery archive exceeds bound") else
    let seen := zm_Name m :: seen in
    if negb (mem (zm_Name m) wanted_members) then read_members rest seen total files
    else data ← read_member m; read_members rest seen total (<[zm_Name m := data]> files)
  end.

(** * Bindings *)

Definition incomplete_recovery (r : GoalRecoveryRequest) : bool :=
  negb (rq_has_API r) || String.eqb (rq_RepoRoot r) "" || String.eqb (rq_OutputDir r) "" || negb (goalRepositoryPattern (rq_Repository r)) ||
  negb (shaRE (rq_CurrentBaseSHA r)) || negb (shaRE (rq_ExpectedHead r)) || (rq_Number r <=? 0)%Z || (rq_AppBotID r <=? 0)%Z ||
  (PriorRunID r <=? 0)%Z.

Definition untrusted_run (r : GoalRecoveryRequest) (run : goalRecoveryRun) : bool :=
  negb (rn_ID run =? PriorRunID r)%Z || (rn_Attempt run <=? 0)%Z || (rn_WorkflowID run <=? 0)%Z ||
  negb (String.eqb (rn_Path run) goalRecoveryWorkflow) || negb (String.eqb (rn_HeadBranch run) "main") || negb (shaRE (rn_HeadSHA run)) ||
  negb (String.eqb (rn_Repository run) (rq_Repository r)) || negb (String.eqb (rn_HeadRepository run) (rq_Repository r)) ||
  (negb (String.eqb (rn_Event run) "workflow_dispatch") && negb (String.eqb (rn_Event run) "schedule")).

Definition unfinished_run (run : goalRecoveryRun) : bool :=
  negb (String.eqb (rn_Status run) "completed") || negb (mem (rn_Conclusion run) ["failure"; "cancelled"; "timed_out"]).

Definition artifact_name (run : goalRecoveryRun) : string := "protocol-native-goal-" +:+ pretty (rn_Attempt run).

Definition unusable_artifact (run : goalRecoveryRun) (a : goalRecoveryArtifact) : bool :=
  (ar_ID a <=? 0)%Z || ar_Expired a || (ar_Size a <=? 0)%Z || (goalRecoveryArchiveLimit <? ar_Size a)%Z ||
  negb (ar_RunID a =? rn_ID run)%Z || negb (String.eqb (ar_HeadSHA a) (rn_HeadSHA run)) ||
  negb (String.eqb (ar_HeadBranch a) (rn_HeadBranch run)) || negb (has_prefix "sha256:" (ar_Digest a)) ||
  negb (goalDigest (trim_prefix "sha256:" (ar_Digest a))).

Definition recovered_target (b : GoalRecoveryBinding) : Target := {|
  RefName := rb_TargetRef b; RefKind := rb_TargetKind b; TagSHA := ""; PeeledCommitSHA := rb_TargetSHA b; TargetExplicit := false |}.

Definition foreign_binding (r : GoalRecoveryRequest) (run : goalRecoveryRun) (b : GoalRecoveryBinding) : bool :=
  negb (rb_Schema b =? 1)%Z || negb (String.eqb (rb_Repository b) (rq_Repository r)) || negb (rb_RunID b =? rn_ID run)%Z ||
  negb (rb_RunAttempt b =? rn_Attempt run)%Z || negb (String.eqb (rb_ControllerSHA b) (rn_HeadSHA run)) ||
  negb (rb_Number b =? rq_Number r)%Z || negb (rb_AppBotID b =? rq_AppBotID r)%Z || negb (rb_Confirmed b) ||
  negb (String.eqb (rb_URL b) (pull_url (rq_Repository r) (rq_Number r))) || negb (shaRE (rb_Base b)) || negb (shaRE (rb_Head b)) ||
  negb (nativeGoalBranch (rb_Branch b)) || negb (shaRE (rb_TargetSHA b)) || String.eqb (rb_TargetRef b) "" ||
  String.eqb (rb_TargetKind b) "" || match rb_Deadline b with None => true | Some _ => false end.

Definition recovery_publication (r : GoalRecoveryRequest) (b : GoalRecoveryBinding) (state : string) (deadline : option Z)
    : GoalPublicationRequest := {|
  RepoRoot := rq_RepoRoot r; gp_Repository := rq_Repository r; gp_Remote := ""; gp_BaseBranch := "main"; gp_Branch := rb_Branch b;
  gp_BaseSHA := rb_Base b; ExpectedHead := rq_ExpectedHead r; CandidateDir := ""; SnapshotDigest := ""; StateDir := state;
  Deadline := deadline; gp_Number := rq_Number r; VerificationBaseSHA := rq_CurrentBaseSHA r; gp_AppBotID := rq_AppBotID r;
  gp_Target := recovered_target b; has_API := true; has_token := false |}.

Definition changed_draft (r : GoalRecoveryRequest) (b : GoalRecoveryBinding) (pr : goalDraftPR) : bool :=
  let p := draft_pr pr in
  negb (pr_Number p =? rq_Number r)%Z || negb (String.eqb (pr_State p) "open") || negb (Draft pr) ||
  match MergedAt p with Some _ => true | None => false end || negb (String.eqb (FullName (pr_Head p)) (rq_Repository r)) ||
  negb (String.eqb (FullName (pr_Base p)) (rq_Repository r)) || negb (String.eqb (Ref (pr_Head p)) (rb_Branch b)) ||
  negb (String.eqb (Ref (pr_Base p)) "main") || negb (String.eqb (pr_URL p) (pull_url (rq_Repository r) (rq_Number r))) ||
  match verifyAppActor (User p) (rq_AppBotID r) with Ok _ => false | Err _ => true end.

(** Later than a moment; the zero time is not. *)
Definition is_after (deadline : option Z) (moment : Z) : bool := match deadline with Some d => (moment <? d)%Z | None => false end.

(** The deadline of the new execution: the original one, or an explicitly
    authorized one at most six hours away. *)
Definition execution_deadline (r : GoalRecoveryRequest) (b : GoalRecoveryBinding) (moment : Z) : option Z * option error :=
  if AuthorizeNewBoundedExecution r then
    if negb (is_after (NewExecutionDeadline r) moment) || is_after (NewExecutionDeadline r) (moment + 21600)
    then (rb_Deadline b, Some (new_error "explicit new execution requires a future deadline no more than six hours away"))
    else (NewExecutionDeadline r, None)
  else
    match NewExecutionDeadline r with
    | Some _ => (rb_Deadline b, Some (new_error "new deadline requires explicit new bounded execution authorization"))
    | None => if is_after (rb_Deadline b) moment then (rb_Deadline b, None)
              else (rb_Deadline b, Some (new_error "original attempt deadline expired; explicit new bounded execution authorization is required"))
    end.

Definition has_file (files : gmap string string) (name : string) : bool :=
  match files !! name with Some _ => true | None => false end.

(** An active publication is never replaced by adopted evidence. *)
Definition uses_adopted (files : gmap string string) : bool :=
  negb (has_file files (publication_dir +:+ goalIntentName)) && negb (has_file files (publication_dir +:+ goalBundleName)) &&
  (has_file files (adopted_dir +:+ goalIntentName) || has_file files (adopted_dir +:+ goalBundleName)).

Definition lost_intent (files : gmap string string) (previous : retained_result) : bool :=
  negb (String.eqb (pv_PublicationIntentHead previous) "") &&
  (negb (shaRE (pv_PublicationIntentHead previous)) || negb (has_file files (publication_dir +:+ goalIntentName)) ||
   negb (has_file files (publication_dir +:+ goalBundleName))).

Section recovery.
Context {W : Type} {B : Boundary W} {H : Host W} {C : IntentCodec} {F : FlowCodec} {K : RecoveryCodec (B := B)}.

Definition readGoalRecoveryArchive (data : string) : res (gmap string string) :=
  match zip_members data with
  | Ok members => if (256 <? length members)%nat then Err (new_error "invalid or oversized recovery archive") else read_members members [] 0 ∅
  | Err _ => Err (new_error "invalid or oversized recovery archive")
  end.

(** * Observations *)

Definition prior_artifact (run : goalRecoveryRun) (artifacts : list goalRecoveryArtifact) : res goalRecoveryArtifact :=
  let unusable := Err (new_error "prior artifact is missing, ambiguous, expired or lacks authenticated provenance") in
  match List.filter (fun a => String.eqb (ar_Name a) (artifact_name run)) artifacts with
  | [a] => if unusable_artifact run a then unusable else Ok a
  | _ => unusable
  end.

Definition actions_path (r : GoalRecoveryRequest) (rest : string) : string := "repos/" +:+ rq_Repository r +:+ "/actions/" +:+ rest.

Definition goalRecoveryProvenance (r : GoalRecoveryRequest) : P (B := B) (goalRecoveryRun * goalRecoveryArtifact) :=
  run ← replace_err (new_error "prior workflow run unavailable")
          (get decode_run (actions_path r ("runs/" +:+ pretty (PriorRunID r))));
  _ ← guard (untrusted_run r run) (new_error "prior run is not the trusted main upstream workflow");
  _ ← guard (unfinished_run run) (new_error "prior workflow must be terminal and unsuccessful before explicit recovery");
  let unauthenticated := new_error "prior workflow identity cannot be authenticated" in
  workflow ← replace_err unauthenticated (get decode_workflow (actions_path r "workflows/codexsdk-upstream-protocol-sync.yml"));
  _ ← guard (negb (fst workflow =? rn_WorkflowID run)%Z || negb (String.eqb (snd workflow) goalRecoveryWorkflow)) unauthenticated;
  let bounded := new_error "prior artifact listing unavailable or exceeds bounded recovery" in
  listing ← replace_err bounded (get decode_artifacts (actions_path r ("runs/" +:+ pretty (rn_ID run) +:+ "/artifacts?per_page=100")));
  _ ← guard (negb (fst listing =? Z.of_nat (length (snd listing)))%Z || (100 <? fst listing)%Z) bounded;
  a ← of_res (prior_artifact run (snd listing));
  mret (run, a).

(** A ref of the repository is at a commit. *)
Definition ref_at (r : GoalRecoveryRequest) (branch expected : string) : P (B := B) unit :=
  let changed := new_error "recovery current main or exact PR head changed" in
  ref ← replace_err changed (get decode_ref (ref_path (rq_Repository r) branch));
  let '(name, kind, sha) := ref in
  guard (negb (String.eqb name ("refs/heads/" +:+ branch)) || negb (String.eqb kind "commit") || negb (String.eqb sha expected)) changed.

Definition refs_current (main_first : bool) (r : GoalRecoveryRequest) (b : GoalRecoveryBinding) : P (B := B) unit :=
  if main_first then (_ ← ref_at r "main" (rq_CurrentBaseSHA r); ref_at r (rb_Branch b) (rq_ExpectedHead r))
  else (_ ← ref_at r (rb_Branch b) (rq_ExpectedHead r); ref_at r "main" (rq_CurrentBaseSHA r)).

Definition goalRecoveryCurrent (main_first : bool) (r : GoalRecoveryRequest) (b : GoalRecoveryBinding) : P (B := B) unit :=
  let repository := new_error "recovery repository/default branch identity changed" in
  repo ← replace_err repository (get decode_repository ("repos/" +:+ rq_Repository r));
  _ ← guard (negb (String.eqb (fst repo) (rq_Repository r)) || negb (String.eqb (snd repo) "main")) repository;
  let changed := new_error "recovery Draft PR identity or creator changed" in
  pr ← replace_err changed (get decode_draft (pull_path (rq_Repository r) (rq_Number r)));
  _ ← guard (changed_draft r b pr) changed;
  _ ← refs_current main_first r b;
  _ ← replace_err (new_error "recovery head actor cannot be confirmed")
        (head_actor (rq_Repository r) (rb_Branch b) (rq_ExpectedHead r) (rq_AppBotID r));
  _ ← target_current (recovered_target b) "fixed recovery upstream target changed";
  ended CallCtx.

Definition download_error : error := new_error "authenticated recovery artifact download failed".
Definition downloadGoalRecoveryArtifact (r : GoalRecoveryRequest) (id : Z) : P (B := B) string :=
  data ← replace_err download_error (host (Download (actions_path r ("artifacts/" +:+ pretty id +:+ "/zip"))));
  _ ← guard (goalRecoveryArchiveLimit <? Z.of_nat (String.length data))%Z download_error;
  mret data.

(** The bytes are the ones the artifact was recorded with. *)
Definition authentic (a : goalRecoveryArtifact) (data : string) : bool :=
  negb (String.eqb data "") && (Z.of_nat (String.length data) <=? goalRecoveryArchiveLimit)%Z &&
  (Z.of_nat (String.length data) =? ar_Size a)%Z && String.eqb ("sha256:" +:+ sha256 data) (ar_Digest a).

(** * The output directory and the graph of commits *)

Definition goalRecoveryOutput (output controller : string) : P (B := B) string :=
  abs ← of_res (Abs output);
  root ← of_res (Abs controller);
  _ ← guard (goalWithin root abs || goalWithin abs root) (new_error "recovery output must be separate from the accepted checkout");
  real ← peek (EvalSymlinks (path_dir abs));
  _ ← guard (match real with Ok p => negb (String.eqb p (path_dir abs)) | Err _ => true end)
        (new_error "recovery output parent is missing or traverses a symlink");
  _ ← replace_err (new_error "recovery output must be a new isolated directory") (host (Mkdir abs));
  mret abs.

Definition fetch_args (from sha : string) : list string := ["fetch"; "--no-tags"; "--no-write-fetch-head"; from; sha].

(** The heads may still be only on the remote; the accepted commits may not. *)
Definition import_commit (r : GoalRecoveryRequest) (b : GoalRecoveryBinding) (graph sha : string) : P (B := B) unit :=
  local ← attempt (goalArtifactGit graph (fetch_args (rq_RepoRoot r) sha));
  match local with
  | Ok _ => mret tt
  | Err _ =>
    _ ← guard (negb (String.eqb sha (rq_ExpectedHead r)) && negb (String.eqb sha (rb_Head b)))
          (new_error "original/current accepted commit unavailable");
    let canonical := new_error "exact recovery head unavailable from canonical origin" in
    remote ← replace_err canonical (goalGit (rq_RepoRoot r) ["remote"; "get-url"; "origin"]);
    let url := "https://github.com/" +:+ rq_Repository r in
    _ ← guard (negb (String.eqb remote (url +:+ ".git")) && negb (String.eqb remote url)) canonical;
    _ ← replace_err (new_error "exact recovery head unavailable") (goalGit graph (fetch_args remote sha));
    mret tt
  end.

Fixpoint each_of {X} (f : X -> P (B := B) unit) (l : list X) : P (B := B) unit :=
  match l with [] => mret tt | x :: l => _ ← f x; each_of f l end.

Definition descends (graph : string) (e : error) (pair : string * string) : P (B := B) unit :=
  _ ← replace_err e (goalArtifactGit graph ["merge-base"; "--is-ancestor"; fst pair; snd pair]); mret tt.

Definition goalRecoveryEmptySeed (root base head : string) : P (B := B) bool :=
  parents ← attempt (goalArtifactGit root ["show"; "-s"; "--format=%P"; head]);
  match parents with
  | Ok p =>
    if negb (String.eqb p base) then mret false else
    a ← attempt (goalArtifactGit root ["rev-parse"; base +:+ "^{tree}"]);
    match a with
    | Ok a => b ← attempt (goalArtifactGit root ["rev-parse"; head +:+ "^{tree}"]);
              mret (match b with Ok b => String.eqb a b | Err _ => false end)
    | Err _ => mret false
    end
  | Err _ => mret false
  end.

Definition retained_ancestry (r : GoalRecoveryRequest) (b : GoalRecoveryBinding) : list (string * string) :=
  [(rb_Base b, rb_ControllerSHA b); (rb_ControllerSHA b, rq_CurrentBaseSHA r); (rb_Base b, rb_Head b); (rb_Head b, rq_ExpectedHead r)].

Definition check_ancestry (r : GoalRecoveryRequest) (b : GoalRecoveryBinding) (graph : string) : P (B := B) unit :=
  _ ← descends graph (new_error "current main no longer descends from original accepted base") (rb_Base b, rq_CurrentBaseSHA r);
  each_of (descends graph (new_error "recovery would discard a retained controller or bound head ancestry obligation")) (retained_ancestry r b).

Definition check_linear (r : GoalRecoveryRequest) (b : GoalRecoveryBinding) (graph : string) : P (B := B) unit :=
  let merged := new_error "retained PR history does not support existing linear fast-forward integration" in
  merges ← replace_err merged (goalArtifactGit graph ["rev-list"; "--min-parents=2"; rq_CurrentBaseSHA r +:+ ".." +:+ rq_ExpectedHead r]);
  _ ← guard (negb (String.eqb merges "")) merged;
  must_run "fixed target is not admissible on current main: " graph (rb_Base b) (rq_CurrentBaseSHA r) (source_of (recovered_target b)).

(** * The retained evidence *)

Definition write_members (files : gmap string string) (prefix state : string) : P (B := B) unit :=
  each_of (fun name => match files !! (prefix +:+ name) with
                    | Some content => _ ← host (WriteText (path_join state name) content); mret tt
                    | None => mret tt
                    end) [goalIntentName; goalBundleName].

(** The deadline that the retained intent was written under. *)
Definition intent_deadline (r : GoalRecoveryRequest) (b : GoalRecoveryBinding) (files : gmap string string) (prefix : string)
    : P (B := B) (option Z) :=
  if uses_adopted files then
    let foreign := new_error "adopted source is not the current authenticated launch head" in
    match decode_receipt (default "" (files !! (prefix +:+ goalIntentName))) with
    | Some (head, deadline) =>
      _ ← guard (negb (String.eqb head (rb_Head b)) || negb (String.eqb (rb_Head b) (rq_ExpectedHead r)) ||
                 match deadline with None => true | Some _ => false end) foreign;
      mret deadline
    | None => fail foreign
    end
  else mret (rb_Deadline b).

Definition differs_from_result (previous : retained_result) (intent : option GoalPublicationIntent) : bool :=
  negb (String.eqb (pv_PublicationIntentHead previous) "") &&
  match intent with Some i => negb (String.eqb (IntendedHead i) (pv_PublicationIntentHead previous)) | None => true end.

(** * The candidate *)

Definition checkout_fetched (output candidate from ref : string) : P (B := B) unit :=
  _ ← goalArtifactGit output ["init"; "--quiet"; candidate];
  _ ← goalArtifactGit candidate ["fetch"; "--no-tags"; from; ref];
  _ ← goalArtifactGit candidate ["checkout"; "--quiet"; "--detach"; "FETCH_HEAD"];
  mret tt.

(** Nothing was published: the empty seed may be generated again, when the
    operator says so. *)
Definition seed_candidate (r : GoalRecoveryRequest) (b : GoalRecoveryBinding) (previous : retained_result) (seed : bool)
    (graph output candidate : string) : P (B := B) unit :=
  _ ← guard (negb seed || negb (String.eqb (rq_ExpectedHead r) (rb_Head b)) || negb (String.eqb (pv_Head previous) ""))
        (new_error "candidate publication has no complete retained source and intent; cannot regenerate it as an empty seed");
  _ ← guard (negb (RegenerateEmptySeed r))
        (new_error "empty seed requires explicit regeneration authorization; no candidate or private native thread can be resumed");
  checkout_fetched output candidate graph (rq_ExpectedHead r).

(** The head is exactly the commit that was retained before its push. *)
Definition exact_publication (r : GoalRecoveryRequest) (i : GoalPublicationIntent) (graph : string) : P (B := B) unit :=
  tree ← attempt (goalArtifactGit graph ["rev-parse"; rq_ExpectedHead r +:+ "^{tree}"]);
  parents ← attempt (goalArtifactGit graph ["show"; "-s"; "--format=%P"; rq_ExpectedHead r]);
  guard (match tree, parents with
         | Ok t, Ok p => negb (String.eqb t (SnapshotTree i)) || negb (String.eqb p (in_PreviousHead i))
         | _, _ => true
         end) (new_error "observed candidate is not the exact retained single-parent publication").

Definition retained_bytes (i : GoalPublicationIntent) (candidate : string) : P (B := B) unit :=
  let differs := new_error "materialized recovery candidate differs from retained verified bytes" in
  digest ← replace_err differs (goalSnapshot candidate "");
  guard (negb (String.eqb digest (in_SnapshotDigest i))) differs.

Definition retained_candidate (r : GoalRecoveryRequest) (b : GoalRecoveryBinding) (previous : retained_result)
    (i : GoalPublicationIntent) (graph output state candidate : string) : P (B := B) unit :=
  _ ← replace_err (new_error "historically verified accepted baseline unavailable")
        (goalArtifactGit graph (fetch_args (rq_RepoRoot r) (in_VerificationBaseSHA i)));
  _ ← each_of (descends graph (new_error "recovery would discard historically verified accepted baseline obligations"))
        [(rb_Base b, in_VerificationBaseSHA i); (in_VerificationBaseSHA i, rq_CurrentBaseSHA r)];
  _ ← guard (negb (String.eqb (rq_ExpectedHead r) (IntendedHead i)))
        (new_error "retained push is unresolved at its previous or a foreign head; recovery never retries that write");
  _ ← exact_publication r i graph;
  _ ← guard (negb (String.eqb (pv_Head previous) "") && negb (String.eqb (pv_Head previous) (rq_ExpectedHead r)))
        (new_error "retained result and publication intent disagree about observed head");
  _ ← checkout_fetched output candidate (path_join state goalBundleName) "HEAD";
  retained_bytes i candidate.

(** * Admission *)

Definition answer_r : Type := GoalRecoveryResult * option error.

Section admission.
Context (first second : bool) (r : GoalRecoveryRequest).

Definition admitted_reason := "same Draft PR admitted for a fresh native goal; original obligations and fresh verification remain required".

(** The run and every identity once more, after the candidate is there. *)
Definition admit_candidate (moment started : Z) (b : GoalRecoveryBinding) (run : goalRecoveryRun) (artifact : goalRecoveryArtifact)
    (output candidate : string) (result : GoalRecoveryResult) : P (B := B) answer_r :=
  let changed := new_error "prior execution identity changed during recovery admission" in
  try! again := replace_err changed (goalRecoveryProvenance r) else result;
  try! _ := guard (negb (bool_decide (again = (run, artifact)))) changed else result;
  try! _ := goalRecoveryCurrent second r b else result;
  try! current := peek now else result;
  try! _ := guard (negb (is_after (ExecutionDeadline result) (moment + (current - started))))
              (new_error "authorized execution deadline expired during recovery admission") else result;
  let file := path_join output "recovered-binding.json" in
  try! data := of_res (encode_binding b) else result;
  try! _ := host (WriteText file (data +:+ String (byte 10) "")) else result;
  mret (rr_ended "admitted" admitted_reason candidate file result, None).

Definition state_name (files : gmap string string) : string := if uses_adopted files then "goal-adopted-publication" else "goal-publication".

Definition recover_candidate (moment started : Z) (b : GoalRecoveryBinding) (run : goalRecoveryRun) (artifact : goalRecoveryArtifact)
    (files : gmap string string) (previous : retained_result) (seed : bool) (output graph : string) (result : GoalRecoveryResult)
    : P (B := B) answer_r :=
  try! _ := guard (lost_intent files previous)
              (new_error "retained result records a publication intent whose complete active evidence is unavailable") else result;
  let state := path_join output (state_name files) in
  let prefix := state_name files +:+ "/" in
  try! _ := host (Mkdir state) else result;
  try! _ := write_members files prefix state else result;
  try! deadline := intent_deadline r b files prefix else result;
  try! intent := readGoalPublicationIntent (recovery_publication r b state deadline) else result;
  try! _ := guard (differs_from_result previous intent)
              (new_error "active publication intent differs from the retained result intent head") else result;
  let candidate := path_join output "candidate" in
  match intent with
  | None =>
    try! _ := seed_candidate r b previous seed graph output candidate else result;
    admit_candidate moment started b run artifact output candidate (rr_class "regenerate_empty_seed" result)
  | Some i =>
    try! _ := retained_candidate r b previous i graph output state candidate else result;
    admit_candidate moment started b run artifact output candidate (rr_adopted state (rr_class "retained_candidate" result))
  end.

Definition graph_commits (b : GoalRecoveryBinding) : list string :=
  [rb_Base b; rb_ControllerSHA b; rq_CurrentBaseSHA r; rb_Head b; rq_ExpectedHead r].

Definition recover_in (moment started : Z) (b : GoalRecoveryBinding) (run : goalRecoveryRun) (artifact : goalRecoveryArtifact)
    (files : gmap string string) (previous : retained_result) (output : string) (result : GoalRecoveryResult) : P (B := B) answer_r :=
  let graph := path_join output "graph" in
  try! _ := goalArtifactGit output ["init"; "--quiet"; graph] else result;
  try! _ := each_of (import_commit r b graph) (graph_commits b) else result;
  try! seed := goalRecoveryEmptySeed graph (rb_Base b) (rq_ExpectedHead r) else result;
  let class := if seed then "empty_seed" else "candidate" in
  let result := rr_class class result in
  try! _ := check_ancestry r b graph else result;
  try! _ := descends graph (new_error "current main is not an ancestor of the retained PR head; requires separately authorized exact-lease rewrite or replacement, not automatic append recovery")
              (rq_CurrentBaseSHA r, rq_ExpectedHead r) else rr_class ("divergent_" +:+ class) result;
  try! _ := check_linear r b graph else result;
  let '(deadline, late) := execution_deadline r b moment in
  let result := rr_deadline deadline result in
  try! _ := (match late with Some e => fail e | None => mret tt end) else result;
  recover_candidate moment started b run artifact files previous seed output graph result.

(** The output directory stays only when the recovery is admitted. *)
Definition unless_kept (output : string) (m : P (B := B) answer_r) : P (B := B) answer_r :=
  '(result, err) ← m;
  match err with
  | None => mret (result, None)
  | Some e => _ ← attempt (host (RemoveAll output)); mret (result, Some e)
  end.

Definition recover_bound (moment started : Z) (run : goalRecoveryRun) (artifact : goalRecoveryArtifact) (files : gmap string string)
    (b : GoalRecoveryBinding) (source : Target) (previous : retained_result) (result : GoalRecoveryResult) : P (B := B) answer_r :=
  let target := recovered_target b in
  let result := rr_bound b target result in
  try! _ := guard (foreign_binding r run b) (new_error "retained launch binding lacks authenticated original identity or deadline") else result;
  try! _ := guard (target_differs source target) (new_error "retained source differs from fixed target") else result;
  try! prefix := of_option (syncBranchName (rb_TargetRef b) (rb_TargetSHA b) (rb_Base b)) else result;
  try! _ := guard (negb (has_prefix (prefix +:+ "-goal-") (rb_Branch b)))
              (new_error "retained branch allocation differs from original base or fixed target") else result;
  try! _ := goalRecoveryCurrent first r b else result;
  try! output := goalRecoveryOutput (rq_OutputDir r) (rq_RepoRoot r) else result;
  unless_kept output (recover_in moment started b run artifact files previous output result).

Definition clean_controller : P (B := B) unit :=
  let unclean := new_error "recovery controller must be the clean accepted current main checkout" in
  head ← replace_err unclean (goalGit (rq_RepoRoot r) ["rev-parse"; "HEAD"]);
  _ ← guard (negb (String.eqb head (rq_CurrentBaseSHA r))) unclean;
  replace_err unclean (AssertCleanIn (rq_RepoRoot r)).

(** The three records that every recovery needs. *)
Definition retained_records (files : gmap string string) : option (GoalRecoveryBinding * Target * retained_result) :=
  let text name := default "" (files !! name) in
  match decode_binding (text "goal-binding.json"), decode_source (text "goal-source.json"), decode_result (text "goal-result.json") with
  | Some b, Some t, Some p => if String.eqb (pv_Stage p) "" then None else Some (b, t, p)
  | _, _, _ => None
  end.

Definition recover (moment started : Z) : P (B := B) answer_r :=
  let result := recovery_started r in
  try! _ := guard (incomplete_recovery r)
              (new_error "explicit repository, current main, prior run, PR, expected head and App actor are required") else result;
  try! _ := clean_controller else result;
  try! prior := goalRecoveryProvenance r else result;
  let '(run, artifact) := prior in
  let result := rr_artifact (ar_ID artifact) result in
  try! data := downloadGoalRecoveryArtifact r (ar_ID artifact) else result;
  try! _ := guard (negb (authentic artifact data)) (new_error "retained artifact size or authenticated digest mismatch") else result;
  try! files := of_res (readGoalRecoveryArchive data) else result;
  match retained_records files with
  | None => mret (result, Some (new_error "required retained binding, source or result is missing or malformed"))
  | Some (b, source, previous) => recover_bound moment started run artifact files b source previous result
  end.

(** The deferred end: an ended context is the error, and an error blocks. *)
Definition RecoverGoalDraft : P (B := B) answer_r :=
  moment ← peek now;
  started ← peek now;
  '(result, err) ← recover moment started;
  over ← peek (ctx_err CallCtx);
  let err := match over with Some e => Some e | None => err end in
  mret (match err with Some e => rr_ended "blocked" (Error e) (rr_CandidateDir result) (BindingFile result) result | None => result end, err).
End admission.
End recovery.

(** * A recovery only observes *)

Section quiet.
Context {W : Type} {B : Boundary W} {H : Host W} {C : IntentCodec} {F : FlowCodec} {K : RecoveryCodec (B := B)}.
Context (R : flow (B := B) -> flow (B := B) -> Prop) {Q : Quiet (fun _ => True) R}.
#[local] Instance order_y : PreOrder R := quiet_order.
#[local] Hint Resolve order_y : quieting.
Implicit Types (r : GoalRecoveryRequest) (b : GoalRecoveryBinding).

Lemma each_quiet {X} (f : X -> P (B := B) unit) l : (forall x, along R (f x)) -> along R (each_of f l).
Proof. intros Hf. induction l; cbn [each_of]; quieted. Qed.
Lemma goalRecoveryProvenance_quiet r : along R (goalRecoveryProvenance r).
Proof. unfold goalRecoveryProvenance. quieted. Qed.
Lemma ref_at_quiet r branch expected : along R (ref_at r branch expected).
Proof. unfold ref_at. quieted. Qed.
Lemma goalRecoveryCurrent_quiet first r b : along R (goalRecoveryCurrent first r b).
Proof.
  unfold goalRecoveryCurrent, refs_current, target_current. pose proof ref_at_quiet.
  pose proof (head_actor_quiet (fun _ => True) R). quieted.
Qed.
Lemma download_quiet r id : along R (downloadGoalRecoveryArtifact r id).
Proof. unfold downloadGoalRecoveryArtifact. quieted. Qed.
Lemma goalRecoveryOutput_quiet output controller : along R (goalRecoveryOutput output controller).
Proof. unfold goalRecoveryOutput. quieted. Qed.
Lemma import_commit_quiet r b graph sha : along R (import_commit r b graph sha).
Proof. unfold import_commit. quieted. Qed.
Lemma goalRecoveryEmptySeed_quiet root base head : along R (goalRecoveryEmptySeed root base head).
Proof. unfold goalRecoveryEmptySeed. quieted. Qed.
Lemma descends_quiet graph e pair : along R (descends graph e pair).
Proof. unfold descends. quieted. Qed.
Lemma check_ancestry_quiet r b graph : along R (check_ancestry r b graph).
Proof. unfold check_ancestry. pose proof descends_quiet. quieted_by ltac:(fun _ => apply each_quiet). Qed.
Lemma check_linear_quiet r b graph : along R (check_linear r b graph).
Proof. unfold check_linear, must_run, ResolveGoalRebinding, gitBaselineIdentityIn. quieted. Qed.
Lemma write_members_quiet files prefix state : along R (write_members files prefix state).
Proof. unfold write_members. quieted_by ltac:(fun _ => apply each_quiet). Qed.
Lemma intent_deadline_quiet r b files prefix : along R (intent_deadline r b files prefix).
Proof. unfold intent_deadline. quieted. Qed.
Lemma checkout_fetched_quiet output candidate from ref : along R (checkout_fetched output candidate from ref).
Proof. unfold checkout_fetched. quieted. Qed.
Lemma seed_candidate_quiet r b previous seed graph output candidate : along R (seed_candidate r b previous seed graph output candidate).
Proof. unfold seed_candidate. pose proof checkout_fetched_quiet. quieted. Qed.
Lemma retained_candidate_quiet r b previous i graph output state candidate :
  along R (retained_candidate r b previous i graph output state candidate).
Proof.
  unfold retained_candidate, exact_publication, retained_bytes. pose proof checkout_fetched_quiet. pose proof descends_quiet.
  pose proof (goalSnapshot_quiet (fun _ => True) R candidate "" (or_introl eq_refl)).
  quieted_by ltac:(fun _ => apply each_quiet).
Qed.
Lemma admit_candidate_quiet second r moment started b run artifact output candidate result :
  along R (admit_candidate second r moment started b run artifact output candidate result).
Proof. unfold admit_candidate. pose proof goalRecoveryProvenance_quiet. pose proof goalRecoveryCurrent_quiet. quieted. Qed.
Lemma recover_candidate_quiet second r moment started b run artifact files previous seed output graph result :
  along R (recover_candidate second r moment started b run artifact files previous seed output graph result).
Proof.
  unfold recover_candidate. pose proof write_members_quiet. pose proof intent_deadline_quiet.
  pose proof (readGoalPublicationIntent_quiet (fun _ => True) R). pose proof seed_candidate_quiet. pose proof retained_candidate_quiet.
  pose proof admit_candidate_quiet. quieted.
Qed.
Lemma recover_in_quiet second r moment started b run artifact files previous output result :
  along R (recover_in second r moment started b run artifact files previous output result).
Proof.
  unfold recover_in. pose proof import_commit_quiet. pose proof goalRecoveryEmptySeed_quiet. pose proof check_ancestry_quiet.
  pose proof descends_quiet. pose proof check_linear_quiet. pose proof recover_candidate_quiet.
  quieted_by ltac:(fun _ => apply each_quiet).
Qed.
Lemma unless_kept_quiet output m : along R m -> along R (unless_kept output m).
Proof. intros Hm. unfold unless_kept. quieted. Qed.
Lemma recover_bound_quiet first second r moment started run artifact files b source previous result :
  along R (recover_bound first second r moment started run artifact files b source previous result).
Proof.
  unfold recover_bound. pose proof goalRecoveryCurrent_quiet. pose proof goalRecoveryOutput_quiet. pose proof recover_in_quiet.
  pose proof (@along_option _ _ _ (fun _ => True) R _).
  quieted_by ltac:(fun _ => apply unless_kept_quiet).
Qed.
Lemma recover_quiet first second r moment started : along R (recover first second r moment started).
Proof.
  unfold recover, clean_controller, AssertCleanIn. pose proof goalRecoveryProvenance_quiet. pose proof download_quiet.
  pose proof recover_bound_quiet. quieted.
Qed.
Lemma RecoverGoalDraft_quiet first second r : along R (RecoverGoalDraft first second r).
Proof. unfold RecoverGoalDraft. pose proof recover_quiet. quieted. Qed.
End quiet.

(** * What an admission rests on *)

Section admits.
Context {W : Type} {B : Boundary W} {H : Host W} {C : IntentCodec} {F : FlowCodec} {K : RecoveryCodec (B := B)}.
Implicit Types (r : GoalRecoveryRequest) (b : GoalRecoveryBinding) (s : flow (B := B)).
#[local] Hint Resolve no_effect_order : quieting.

Definition still_host call := quiet_host (Quiet := no_effect_quiet) call.
Definition still_run args input := quiet_run (Quiet := no_effect_quiet) args input.
Definition still_get path := quiet_get (Quiet := no_effect_quiet) path.
Definition still_resolve req := quiet_resolve (Quiet := no_effect_quiet) req.
#[local] Hint Resolve still_host still_run still_get still_resolve : quieting.

(** A step went well in a stretch without effects. *)
Definition happened {A} (m : P (B := B) A) (a : A) s s' : Prop := exists s1 s2,
  no_effect s s1 /\ m s1 = Some (Ok a, s2) /\ no_effect s2 s'.

Lemma happened_now {A} (m : P (B := B) A) a s s' : m s = Some (Ok a, s') -> happened m a s s'.
Proof. intros Hm. by exists s, s'. Qed.
Lemma happened_within {A} (m : P (B := B) A) a s0 s s1 s' : no_effect s0 s -> no_effect s1 s' -> happened m a s s1 -> happened m a s0 s'.
Proof. intros H0 H1 (t1 & t2 & ? & ? & ?). exists t1, t2. split_and!; [by etransitivity | done | by etransitivity]. Qed.
Lemma happened_still {A} (m : P (B := B) A) a s s' : along no_effect m -> happened m a s s' -> no_effect s s'.
Proof. intros Hm (s1 & s2 & ? & E%Hm & ?). by do 2 (etransitivity; [done|]). Qed.
Lemma happened_replaced {A} e (m : P (B := B) A) a s s' : happened (replace_err e m) a s s' -> happened m a s s'.
Proof. intros (s1 & s2 & ? & E%replace_err_Ok & ?). by exists s1, s2. Qed.

(** Each step that a run without an error took, and the run from there. *)
Lemma went {A X} (m : P (B := B) A) (x : X) k s0 s y s' : no_effect s0 s -> along no_effect m -> (forall a, along no_effect (k a)) ->
  caught m x k s = Some (Ok (y, None), s') ->
  exists a s1, happened m a s0 s' /\ no_effect s0 s1 /\ k a s1 = Some (Ok (y, None), s').
Proof.
  intros H0 Hm Hk (a & s1 & E & E')%caught_Ok. exists a, s1. split_and!; [|etransitivity; [done | by eapply Hm] | done].
  exists s, s1. split_and!; [done..|]. by eapply Hk.
Qed.
Lemma went_guard {X} bad e (x : X) k s y s' : caught (guard (B := B) bad e) x k s = Some (Ok (y, None), s') ->
  bad = false /\ k tt s = Some (Ok (y, None), s').
Proof. by intros ([] & s1 & [-> ->]%guard_inv & ?)%caught_Ok. Qed.
Lemma went_peek {A X} (f : W -> A) (x : X) k s y s' : caught (peek (B := B) f) x k s = Some (Ok (y, None), s') ->
  k (f (world s)) s = Some (Ok (y, None), s').
Proof. done. Qed.

Tactic Notation "takes" ident(Q) ident(E) ident(Hm) :=
  apply (went _ _ _ _ _ _ _ Q) in E; [|by quieted|by quieted]; let Q' := fresh in destruct E as (? & ? & Hm & Q' & E); clear Q; rename Q' into Q.

(** The commits of the retained launch and the current main are on one line up to
    the expected head, and the target still advances main. *)
Record kept_history r b (graph : string) s s' : Prop := {
  hist_ancestry : happened (check_ancestry r b graph) tt s s';
  hist_head : exists e, happened (descends graph e (rq_CurrentBaseSHA r, rq_ExpectedHead r)) tt s s';
  hist_linear : happened (check_linear r b graph) tt s s' }.

(** The run, its artifact and the live identities, seen in a stretch. *)
Definition identified (order : bool) r b run artifact s s' : Prop :=
  happened (goalRecoveryProvenance r) (run, artifact) s s' /\ happened (goalRecoveryCurrent order r b) tt s s'.

Lemma admit_candidate_inv second r moment started b run artifact output candidate result s y s' :
  admit_candidate second r moment started b run artifact output candidate result s = Some (Ok (y, None), s') ->
  identified second r b run artifact s s' /\ y = rr_ended "admitted" admitted_reason candidate (path_join output "recovered-binding.json") result.
Proof.
  unfold admit_candidate. cbv zeta. intros E. assert (no_effect s s) as Q by done.
  pose proof (goalRecoveryProvenance_quiet no_effect). pose proof (goalRecoveryCurrent_quiet no_effect).
  takes Q E Hp. apply happened_replaced in Hp. apply went_guard in E as [->%negb_false_iff%bool_decide_eq_true E].
  takes Q E Hc. destruct x. apply went_peek in E. apply went_guard in E as [_ E]. takes Q E Hd. takes Q E Hw.
  injection E as <- <-. split; [by split | done].
Qed.

(** What a candidate that was recovered rests on. *)
Definition sourced r b (files : gmap string string) (previous : retained_result) (seed : bool) (output graph : string) s s' : Prop :=
  lost_intent files previous = false /\ exists deadline intent,
    happened (intent_deadline r b files (state_name files +:+ "/")) deadline s s' /\
    happened (readGoalPublicationIntent (recovery_publication r b (path_join output (state_name files)) deadline)) intent s s' /\
    differs_from_result previous intent = false /\
    match intent with
    | None => seed = true /\ RegenerateEmptySeed r = true /\ rq_ExpectedHead r = rb_Head b /\ pv_Head previous = ""
    | Some i => rq_ExpectedHead r = IntendedHead i /\ happened (exact_publication r i graph) tt s s' /\
        happened (retained_bytes i (path_join output "candidate")) tt s s'
    end.

Lemma bind_went {A X} (m : P (B := B) A) (f : A -> P (B := B) X) s0 s x s' : no_effect s0 s -> along no_effect m -> (forall a, along no_effect (f a)) ->
  (m ≫= f) s = Some (Ok x, s') -> exists a s1, happened m a s0 s' /\ no_effect s0 s1 /\ f a s1 = Some (Ok x, s').
Proof.
  intros H0 Hm Hf (a & s1 & E & E')%P_bind_Ok. exists a, s1. split_and!; [|etransitivity; [done | by eapply Hm] | done].
  exists s, s1. split_and!; [done..|]. by eapply Hf.
Qed.

Ltac unit_of Hm := match type of Hm with happened _ ?u _ _ => destruct u end.

Tactic Notation "binds" ident(Q) ident(E) ident(Hm) :=
  apply (bind_went _ _ _ _ _ _ Q) in E; [|by quieted|by quieted]; let Q' := fresh in destruct E as (? & ? & Hm & Q' & E); clear Q; rename Q' into Q.

Lemma seed_candidate_inv r b previous seed graph output candidate s s' :
  seed_candidate r b previous seed graph output candidate s = Some (Ok tt, s') ->
  seed = true /\ RegenerateEmptySeed r = true /\ rq_ExpectedHead r = rb_Head b /\ pv_Head previous = "".
Proof.
  unfold seed_candidate. intros E. pstep E. destruct a. apply guard_inv in H0 as [Hg ->]. pstep E. destruct a. apply guard_inv in H0 as [Ha ->].
  rewrite !orb_false_iff, !negb_false_iff in *. destruct Hg as [[? ?%String.eqb_eq] ?%String.eqb_eq]. done.
Qed.

Lemma retained_candidate_inv r b previous i graph output state candidate s s' :
  retained_candidate r b previous i graph output state candidate s = Some (Ok tt, s') ->
  rq_ExpectedHead r = IntendedHead i /\ happened (exact_publication r i graph) tt s s' /\ happened (retained_bytes i candidate) tt s s'.
Proof.
  unfold retained_candidate. intros E. assert (no_effect s s) as Q by done.
  assert (forall i candidate, along no_effect (retained_bytes i candidate)) as Hsame.
  { intros. unfold retained_bytes. pose proof (goalSnapshot_quiet (fun _ => True) no_effect candidate0 "" (or_introl eq_refl)). quieted. }
  assert (forall r i graph, along no_effect (exact_publication r i graph)) as Hexact by (intros; unfold exact_publication; quieted).
  pose proof (checkout_fetched_quiet no_effect) as Hck.
  assert (forall graph e l, along no_effect (each_of (descends graph e) l)) as Hd
    by (intros; apply (each_quiet no_effect); intros; apply (descends_quiet no_effect)).
  binds Q E H1. binds Q E H2. apply P_bind_Ok in E as ([] & s1 & [Hh%negb_false_iff%String.eqb_eq ->]%guard_inv & E).
  binds Q E Hx. binds Q E H3. binds Q E H4. unit_of Hx. pose proof (Hsame _ _ _ _ _ E). split_and!; [done..|].
  eexists _, _. split_and!; [exact Q | exact E | done].
Qed.

Lemma recover_candidate_inv second r moment started b run artifact files previous seed output graph result s y s' :
  recover_candidate second r moment started b run artifact files previous seed output graph result s = Some (Ok (y, None), s') ->
  exists s1, no_effect s s1 /\ sourced r b files previous seed output graph s s' /\ identified second r b run artifact s1 s' /\
    rr_Outcome y = "admitted" /\ ExecutionDeadline y = ExecutionDeadline result.
Proof.
  unfold recover_candidate. cbv zeta. intros E. assert (no_effect s s) as Q by done.
  pose proof (write_members_quiet no_effect). pose proof (intent_deadline_quiet no_effect).
  pose proof (readGoalPublicationIntent_quiet (fun _ => True) no_effect). pose proof (seed_candidate_quiet no_effect).
  pose proof (retained_candidate_quiet no_effect). pose proof (admit_candidate_quiet no_effect).
  apply went_guard in E as [Hl E]. takes Q E Hm. takes Q E Hw. takes Q E Hdl. takes Q E Hi. apply went_guard in E as [Hdiff E].
  match type of Hi with happened _ ?o _ _ => destruct o as [i|] end; takes Q E Hc; unit_of Hc;
    destruct Hc as (t1 & t2 & Ht1 & Hc & Ht2); eexists; (split; [exact Q|]);
    apply admit_candidate_inv in E as [Hid ->]; (split; [split; [done|]; eexists _, _; (split; [exact Hdl|]; split; [exact Hi|]; split; [done|])|by split]).
  - apply retained_candidate_inv in Hc as (Hh & Hx & Hs). split_and!; [done | exact (happened_within _ _ _ _ _ _ Ht1 Ht2 Hx) | exact (happened_within _ _ _ _ _ _ Ht1 Ht2 Hs)].
  - by apply seed_candidate_inv in Hc.
Qed.

(** What was checked in the directory of the recovery, given its binding. *)
Record materialized second r moment b run artifact files previous output y s s' (seed : bool) sm : Prop := {
  mat_history : kept_history r b (path_join output "graph") s s';
  mat_seed : happened (goalRecoveryEmptySeed (path_join output "graph") (rb_Base b) (rq_ExpectedHead r)) seed s s';
  mat_deadline : execution_deadline r b moment = (ExecutionDeadline y, None);
  mat_source : sourced r b files previous seed output (path_join output "graph") s s';
  mat_still : no_effect s sm;
  mat_again : identified second r b run artifact sm s';
  mat_outcome : rr_Outcome y = "admitted" }.

Lemma sourced_sooner r b files previous seed output graph s0 s s' : no_effect s0 s ->
  sourced r b files previous seed output graph s s' -> sourced r b files previous seed output graph s0 s'.
Proof.
  intros H0 [Hl (deadline & intent & H1 & H2 & Hd & Hi)]. split; [done|]. assert (no_effect s' s') as H3 by done.
  exists deadline, intent. split_and!; [exact (happened_within _ _ _ _ _ _ H0 H3 H1) | exact (happened_within _ _ _ _ _ _ H0 H3 H2) | done |].
  destruct intent as [i|]; [|done]. destruct Hi as (Hh & Hx & Hs).
  split_and!; [done | exact (happened_within _ _ _ _ _ _ H0 H3 Hx) | exact (happened_within _ _ _ _ _ _ H0 H3 Hs)].
Qed.

Lemma recover_in_inv second r moment started b run artifact files previous output result s y s' :
  recover_in second r moment started b run artifact files previous output result s = Some (Ok (y, None), s') ->
  exists seed sm, materialized second r moment b run artifact files previous output y s s' seed sm.
Proof.
  unfold recover_in. cbv zeta. intros E. assert (no_effect s s) as Q by done.
  pose proof (goalRecoveryEmptySeed_quiet no_effect). pose proof (check_ancestry_quiet no_effect).
  pose proof (descends_quiet no_effect). pose proof (check_linear_quiet no_effect). pose proof (recover_candidate_quiet no_effect).
  assert (forall r b graph l, along no_effect (each_of (import_commit r b graph) l)) as Hd
    by (intros; apply (each_quiet no_effect); intros; apply (import_commit_quiet no_effect)).
  takes Q E Hinit. takes Q E Himport. takes Q E Hseed. takes Q E Ha. unit_of Ha. takes Q E Hh. unit_of Hh. takes Q E Hl. unit_of Hl.
  destruct (execution_deadline r b moment) as [deadline late] eqn:Ed. destruct late; [by apply caught_Ok in E as (? & ? & ? & _)|].
  takes Q E Hn. match type of Hseed with happened _ ?x _ _ => exists x end.
  apply recover_candidate_inv in E as (sm & Hsm & Hsrc & Hid & Ho & Hdl). exists sm.
  split; try done; [|by rewrite Hdl | by eapply sourced_sooner | by etransitivity].
  split; try done. by eexists.
Qed.

Lemma materialized_sooner second r moment b run artifact files previous output y s0 s s' seed sm : no_effect s0 s ->
  materialized second r moment b run artifact files previous output y s s' seed sm ->
  materialized second r moment b run artifact files previous output y s0 s' seed sm.
Proof.
  intros H0 [[H1 (e & H2) H3] H4 H5 H6 H7 H8 H9]. assert (no_effect s' s') as Hs by done. split; try done.
  - split; [exact (happened_within _ _ _ _ _ _ H0 Hs H1) | exists e; exact (happened_within _ _ _ _ _ _ H0 Hs H2) |
      exact (happened_within _ _ _ _ _ _ H0 Hs H3)].
  - exact (happened_within _ _ _ _ _ _ H0 Hs H4).
  - by eapply sourced_sooner.
  - by etransitivity.
Qed.

(** The binding is the one of the request and of the run. *)
Definition bound_to first r run b (source : Target) s s' : Prop :=
  foreign_binding r run b = false /\ target_differs source (recovered_target b) = false /\
  happened (goalRecoveryCurrent first r b) tt s s'.

Lemma unless_kept_inv output m s y s' : unless_kept output m s = Some (Ok (y, None), s') -> m s = Some (Ok (y, None), s').
Proof. unfold unless_kept. intros E. pstep E. destruct a as [z [e|]]; [pstep E; discriminate E | by injection E as <- <-]. Qed.

Lemma recover_bound_inv first second r moment started run artifact files b source previous result s y s' :
  recover_bound first second r moment started run artifact files b source previous result s = Some (Ok (y, None), s') ->
  bound_to first r run b source s s' /\ exists output seed sm, materialized second r moment b run artifact files previous output y s s' seed sm.
Proof.
  unfold recover_bound. cbv zeta. intros E. assert (no_effect s s) as Q by done.
  pose proof (goalRecoveryCurrent_quiet no_effect). pose proof (goalRecoveryOutput_quiet no_effect).
  pose proof (@along_option _ _ _ (fun _ => True) no_effect _).
  assert (forall moment started b run artifact files previous output result,
    along no_effect (unless_kept output (recover_in second r moment started b run artifact files previous output result))) as Hk
    by (intros; apply (unless_kept_quiet no_effect), (recover_in_quiet no_effect)).
  apply went_guard in E as [Hf E]. apply went_guard in E as [Ht E]. takes Q E Hp. apply went_guard in E as [_ E].
  takes Q E Hc. unit_of Hc. takes Q E Ho. apply unless_kept_inv, recover_in_inv in E as (seed & sm & Hm).
  split; [done|]. eexists _, seed, sm. by eapply materialized_sooner.
Qed.

(** Everything that the first part of a recovery established. *)
Record admission first second r moment y s s' run artifact data files b source previous output seed sm : Prop := {
  adm_run : happened (goalRecoveryProvenance r) (run, artifact) s s';
  adm_download : happened (downloadGoalRecoveryArtifact r (ar_ID artifact)) data s s';
  adm_authentic : authentic artifact data = true;
  adm_archive : readGoalRecoveryArchive data = Ok files;
  adm_records : retained_records files = Some (b, source, previous);
  adm_binding : bound_to first r run b source s s';
  adm_candidate : materialized second r moment b run artifact files previous output y s s' seed sm }.

Lemma recover_inv first second r moment started s y s' :
  recover first second r moment started s = Some (Ok (y, None), s') ->
  exists run artifact data files b source previous output seed sm,
    admission first second r moment y s s' run artifact data files b source previous output seed sm.
Proof.
  unfold recover. cbv zeta. intros E. assert (no_effect s s) as Q by done.
  pose proof (goalRecoveryProvenance_quiet no_effect). pose proof (download_quiet no_effect). pose proof (recover_bound_quiet no_effect).
  assert (forall r, along no_effect (clean_controller r)) as Hcc by (intros; unfold clean_controller, AssertCleanIn; quieted).
  apply went_guard in E as [_ E]. takes Q E Hcl.
  apply (went _ _ _ _ _ _ _ Q) in E as ([run artifact] & s1 & Hp & Q1 & E); [|by quieted|by intros [] ; quieted]. clear Q.
  takes Q1 E Hd. apply went_guard in E as [Ha%negb_false_iff E].
  apply caught_Ok in E as (files & s2 & [Hr ->]%of_res_inv & E).
  destruct (retained_records files) as [[[b source] previous]|] eqn:Erec; [|discriminate E].
  apply recover_bound_inv in E as [(Hf & Ht & Hc) (output & seed & sm & Hm)].
  match type of Hd with happened _ ?data _ _ => exists run, artifact, data, files, b, source, previous, output, seed, sm end.
  assert (no_effect s' s') as Hs by done.
  split; try done; [split_and!; [done..|]; exact (happened_within _ _ _ _ _ _ Q1 Hs Hc) | by eapply materialized_sooner].
Qed.

(** C23: A recovery only observes, and admits only what it can still authenticate: the run is one of the trusted workflow on main that ended without success, its one artifact has the recorded size and digest, the binding inside is that of the request and of the run, and the draft, main, the branch, its last actor and the target are as bound; the commits of the launch and the current main lie on one line up to the expected head; the deadline is the original one unless the operator authorized another within six hours; the candidate is either the exact retained publication at the expected head, with its verified bytes, or an empty seed that the operator wants again - never a push that is tried again; and after the candidate is there, the same run, artifact and identities are found once more. *)
Theorem RecoverGoalDraft_admits first second r s result err s' (E : RecoverGoalDraft first second r s = Some (Ok (result, err), s')) :
  no_effect s s' /\ (err <> None -> rr_Outcome result = "blocked") /\
  (err = None -> rr_Outcome result = "admitted" /\ exists run artifact data files b source previous output seed sm,
     admission first second r (now (world s)) result s s' run artifact data files b source previous output seed sm).
Proof.
  split; [by eapply (RecoverGoalDraft_quiet no_effect)|]. unfold RecoverGoalDraft in E.
  apply P_bind_Ok in E as (moment & s1 & [= <- <-] & E). apply P_bind_Ok in E as (started & s1 & [= <- <-] & E).
  apply P_bind_Ok in E as ([result' err'] & s1 & Hr & E). apply P_bind_Ok in E as (over & s2 & [= <- <-] & E).
  injection E as <- Ee ->. destruct (ctx_err CallCtx (world s')) as [over|]; [subst err; split; [done | discriminate]|].
  rewrite Ee. split; [by destruct err|]. intros ->. subst err'. apply recover_inv in Hr as Ha.
  split; [|done]. destruct Ha as (? & ? & ? & ? & ? & ? & ? & ? & ? & ? & Ha). apply Ha.
Qed.
End admits.

(** * The desk: the seed of an expired goal is generated again *)

Definition desk_run_record : goalRecoveryRun := {|
  rn_ID := 5; rn_Attempt := 1; rn_WorkflowID := 9; rn_Path := goalRecoveryWorkflow; rn_Event := "schedule"; rn_Status := "completed";
  rn_Conclusion := "timed_out"; rn_HeadBranch := "main"; rn_HeadSHA := hub_base; rn_Repository := "o/r"; rn_HeadRepository := "o/r" |}.
Definition desk_archive := "archive".
Definition desk_artifact : goalRecoveryArtifact := {|
  ar_ID := 11; ar_Name := "protocol-native-goal-1"; ar_Expired := false; ar_Size := 7;
  ar_Digest := "sha256:" +:+ SnapshotDigest (desk_goal ""); ar_RunID := 5; ar_HeadSHA := hub_base; ar_HeadBranch := "main" |}.
Definition desk_binding : GoalRecoveryBinding := {|
  rb_Schema := 1; rb_Repository := "o/r"; rb_RunID := 5; rb_RunAttempt := 1; rb_ControllerSHA := hub_base; rb_Base := hub_base;
  rb_Branch := desk_branch; rb_Number := desk_number; rb_Head := desk_old; rb_AppBotID := 7; rb_TargetRef := "rust-v1.2.0";
  rb_TargetKind := "stable_rust_tag"; rb_TargetSHA := hub_target; rb_Deadline := Some 200%Z; rb_URL := desk_url; rb_Confirmed := true |}.
Definition desk_member (name : string) : zip_member := {|
  zm_Name := name; zm_symlink := false; zm_regular := true; zm_Size := 10; zm_Data := Ok name |}.

#[export] Instance desk_recovery_codec : RecoveryCodec (B := desk_boundary) := {|
  decode_run _ := Ok desk_run_record; decode_workflow _ := Ok (9%Z, goalRecoveryWorkflow);
  decode_artifacts _ := Ok (1%Z, [desk_artifact]);
  zip_members data := if String.eqb data desk_archive then Ok (map desk_member ["goal-binding.json"; "goal-source.json"; "goal-result.json"])
                      else Err not_json;
  decode_binding text := if String.eqb text "goal-binding.json" then Some desk_binding else None;
  decode_source text := if String.eqb text "goal-source.json" then Some desk_target else None;
  decode_result text := if String.eqb text "goal-result.json" then Some {| pv_Stage := "Native goal"; pv_Head := ""; pv_PublicationIntentHead := "" |} else None;
  decode_receipt _ := None;
  encode_binding _ := Ok "{}" |}.

Definition desk_recovery_request : GoalRecoveryRequest := {|
  rq_RepoRoot := "/repo"; rq_OutputDir := "/out/recovery"; rq_Repository := "o/r"; rq_CurrentBaseSHA := sha_of "7";
  rq_ExpectedHead := desk_old; rq_Number := desk_number; rq_AppBotID := 7; PriorRunID := 5; AuthorizeNewBoundedExecution := false;
  NewExecutionDeadline := None; RegenerateEmptySeed := true; rq_has_API := true |}.

Definition desk_before := start_desk (set_main (sha_of "7") empty_desk).
Definition desk_recovery := RecoverGoalDraft (H := desk_host) true false desk_recovery_request desk_before.
Definition desk_recovered : GoalRecoveryResult := match desk_recovery with Some (Ok (p, _), _) => p | _ => recovery_started desk_recovery_request end.
Definition desk_observed : flow (B := desk_boundary) := match desk_recovery with Some (_, s) => s | None => desk_before end.
Lemma desk_recovers : desk_recovery = Some (Ok (desk_recovered, None), desk_observed).
Proof. vm_compute. reflexivity. Qed.

Lemma RecoverGoalDraft_admits_witness : Classification desk_recovered = "regenerate_empty_seed" /\
  rr_Outcome desk_recovered = "admitted" /\ no_effect desk_before desk_observed.
Proof.
  destruct (RecoverGoalDraft_admits (H := desk_host) true false desk_recovery_request desk_before desk_recovered None desk_observed
              desk_recovers) as (Hq & _ & Ha).
  split; [vm_compute; reflexivity|]. destruct (Ha eq_refl) as [Ho _]. split; [exact Ho | exact Hq].
Defined.
