(* ===== verification/Lockfile.v ===== *)
(** The lock file of a checked-out source, with the versions of its workspace:
    [lockfile.go] ([src/codexsdk/internal/protocolsync]).

    The TOML package and [json.Unmarshal] are the class [CargoCodec]; the numbers,
    booleans and dates of TOML, which the code never looks at, are the type [L].
    What is decoded is fresh, so the updates in place of the code are those of
    the one table that it encodes at the end. *)

From Stdlib Require Import Ascii.
From stdpp Require Import gmap strings.
From S2P Require Import Prelude GoStrings.

Local Open Scope string_scope.
Local Open Scope list_scope.

(** * Data *)

Inductive toml (L : Type) :=
  | TString (s : string) | TLeaf (l : L) | TArray (l : list (toml L)) | TTable (t : gmap string (toml L)).
Arguments TString {L} _.
Arguments TLeaf {L} _.
Arguments TArray {L} _.
Arguments TTable {L} _.

Record cargo_package := {
  cp_ID : string; cp_Name : string; cp_Version : string; cp_Source : option string; ManifestPath : string }.
Record cargo_metadata := { Members : list string; cp_Packages : list cargo_package }.

Class CargoCodec (L : Type) := {
  decode_metadata : string -> res cargo_metadata;
  toml_Unmarshal : string -> res (gmap string (toml L));
  toml_Marshal : gmap string (toml L) -> res string
}.

(** [filepath.IsLocal] *)
Definition IsLocal (p : string) : bool :=
  let c := path_clean p in
  negb (has_prefix "/" p) && negb (String.eqb p "") && negb (String.eqb c "..") && negb (has_prefix "../" c).

Definition below (root p : string) : bool := match path_rel root p with Some rel => IsLocal rel | None => false end.

(** [m[k]] of a map of strings *)
Definition entry (m : gmap string string) (k : string) : string := default "" (m !! k).

Definition wrapped {A} (format : string) (r : res A) : res A := match r with Ok a => Ok a | Err e => Err (Errorf format [e]) end.

Lemma wrapped_Ok {A} format (r : res A) a : wrapped format r = Ok a -> r = Ok a.
Proof. by destruct r. Qed.

(** * The workspace *)

Definition bad_member (root : string) (versions : gmap string string) (p : cargo_package) : bool :=
  negb (below root (ManifestPath p)) || match cp_Source p with Some _ => true | None => false end ||
  String.eqb (cp_Name p) "" || String.eqb (cp_Version p) "" || negb (String.eqb (entry versions (cp_Name p)) "").

Fixpoint member_versions (root : string) (packages : list cargo_package) (members : gset string) (versions : gmap string string)
    : res (gset string * gmap string string) :=
  match packages with
  | [] => Ok (members, versions)
  | p :: rest =>
    if negb (bool_decide (cp_ID p ∈ members)) then member_versions root rest members versions
    else if bad_member root versions p then Err (Errorf "invalid local workspace identity %q" [])
    else member_versions root rest (members ∖ {[cp_ID p]}) (<[cp_Name p := cp_Version p]> versions)
  end.

Definition workspace (root : string) (m : cargo_metadata) : res (gmap string string) :=
  '(missing, versions) ← member_versions root (cp_Packages m) (list_to_set (Members m)) ∅;
  _ ← guard_err (negb (bool_decide (missing = ∅)) || bool_decide (versions = ∅)) (Errorf "incomplete Cargo workspace metadata" []);
  Ok versions.

(** * The lock file *)

Section lock.
Context {L : Type}.
Notation table := (gmap string (toml L)).

Definition text (p : table) (k : string) : option string := match p !! k with Some (TString s) => Some s | _ => None end.
Definition external (p : table) : bool := match p !! "source" with Some _ => true | None => false end.
Definition identity (name version : string) : string := name +:+ " " +:+ version.

(** The local names found so far, and the identities that change. *)
Definition selection : Type := gset string * gmap string string.

Definition select (versions : gmap string string) (st : selection) (value : toml L) : res (selection * table) :=
  let '(found, replacements) := st in
  match value with
  | TTable p =>
    let name := default "" (text p "name") in
    match text p "version" with
    | None => Err (Errorf "invalid locked package identity" [])
    | Some version =>
      let current := entry versions name in
      if String.eqb name "" then Err (Errorf "invalid locked package identity" []) else
      if external p || String.eqb current "" then Ok (st, p) else
      if bool_decide (name ∈ found) then Err (Errorf "ambiguous local locked package %q" []) else
      let found := {[name]} ∪ found in
      if String.eqb version current then Ok ((found, replacements), p)
      else Ok ((found, <[identity name version := identity name current]> replacements), <["version" := TString current]> p)
    end
  | _ => Err (Errorf "invalid Cargo.lock package" [])
  end.

Fixpoint select_all (versions : gmap string string) (st : selection) (values : list (toml L)) : res (selection * list table) :=
  match values with
  | [] => Ok (st, [])
  | value :: rest =>
    '(st, p) ← select versions st value;
    '(st, ps) ← select_all versions st rest;
    Ok (st, p :: ps)
  end.

Definition relabel (replacements : gmap string string) (dep : toml L) : res (toml L) :=
  match dep with
  | TString ref => Ok (TString (default ref (replacements !! ref)))
  | _ => Err (Errorf "invalid locked dependency reference" [])
  end.

Fixpoint relabel_all (replacements : gmap string string) (deps : list (toml L)) : res (list (toml L)) :=
  match deps with
  | [] => Ok []
  | dep :: rest => d ← relabel replacements dep; ds ← relabel_all replacements rest; Ok (d :: ds)
  end.

(** An external package that the change would confuse with a local one. *)
Definition collides (versions replacements : gmap string string) (p : table) : bool :=
  let name := default "" (text p "name") in
  let version := default "" (text p "version") in
  external p && (match replacements !! identity name version with Some _ => true | None => false end ||
                 String.eqb (entry versions name) version).

Definition relink (versions replacements : gmap string string) (p : table) : res table :=
  _ ← guard_err (collides versions replacements p) (Errorf "ambiguous external/workspace locked identity %q" []);
  match p !! "dependencies" with
  | Some (TArray deps) => ds ← relabel_all replacements deps; Ok (<["dependencies" := TArray ds]> p)
  | _ => Ok p
  end.

Fixpoint relink_all (versions replacements : gmap string string) (ps : list table) : res (list table) :=
  match ps with
  | [] => Ok []
  | p :: rest => q ← relink versions replacements p; qs ← relink_all versions replacements rest; Ok (q :: qs)
  end.

Context {C : CargoCodec L}.

Definition package_array (lock : table) : res (list (toml L)) :=
  match lock !! "package" with Some (TArray l) => Ok l | _ => Err (Errorf "Cargo.lock has no package array" []) end.

Definition prepareLockfile (original metadata root : string) : res string :=
  m ← wrapped "read workspace metadata: %w" (decode_metadata metadata);
  versions ← workspace root m;
  lock ← wrapped "parse upstream Cargo.lock: %w" (toml_Unmarshal original);
  packages ← package_array lock;
  '((found, replacements), ps) ← select_all versions (∅, ∅) packages;
  _ ← guard_err (negb (bool_decide (dom versions ⊆ found))) (Errorf "workspace package %q missing from Cargo.lock" []);
  if bool_decide (replacements = ∅) then Ok original else
  qs ← relink_all versions replacements ps;
  wrapped "encode prepared Cargo.lock: %w" (toml_Marshal (<["package" := TArray (map TTable qs)]> lock)).
End lock.

(** * What a projection is

    A package is local when the workspace has its name and it has no source. *)

Section projection.
Context {L : Type}.
Notation table := (gmap string (toml L)).
Implicit Types (p q : table) (ps qs : list table) (versions : gmap string string).

Definition local versions p : option (string * string * string) :=
  name ← text p "name"; version ← text p "version";
  if external p || String.eqb (entry versions name) "" then None else Some (name, version, entry versions name).

Definition identity_of p : option string := name ← text p "name"; version ← text p "version"; Some (identity name version).

(** The three forms of a reference to a package: its name, its name and version,
    and these with its source. *)
Definition refers p (ref : string) : Prop :=
  match text p "name", text p "version" with
  | Some name, Some version =>
    ref = name \/ ref = identity name version \/
    match text p "source" with Some source => ref = identity name (version +:+ " (" +:+ source +:+ ")") | None => False end
  | _, _ => False
  end.

(** The [j]th package is one that a reference names. *)
Definition designates ps (ref : string) (j : nat) : Prop := exists p, ps !! j = Some p /\ refers p ref.

(** A reference that named some packages names the same ones afterwards. *)
Definition same_link ps qs (d d' : toml L) : Prop :=
  match d, d' with
  | TString r, TString r' => (exists k, designates ps r k) -> forall j, designates ps r j <-> designates qs r' j
  | _, _ => d = d'
  end.

Definition dependencies p : list (toml L) := match p !! "dependencies" with Some (TArray deps) => deps | _ => [] end.

(** Names and versions without a space, as Cargo's are. *)
Definition plain p : Prop := forall k s, k = "name" \/ k = "version" -> text p k = Some s -> contains_byte " "%char s = false.
Definition plain_versions versions : Prop := forall name version, versions !! name = Some version -> contains_byte " "%char version = false.

(** A reference is as it was, or is the identity of a local package that moved,
    and becomes its new one. *)
Definition reference_projected versions ps (d d' : toml L) : Prop := d' = d \/ exists p name v w,
  p ∈ ps /\ local versions p = Some (name, v, w) /\ v <> w /\ d = TString (identity name v) /\ d' = TString (identity name w).

(** Package by package: a local one has the version of the workspace, everything
    else but the references is as it was. *)
Definition package_projected versions ps p q : Prop :=
  delete "version" (delete "dependencies" q) = delete "version" (delete "dependencies" p) /\
  q !! "version" = match local versions p with Some (_, _, version) => Some (TString version) | None => p !! "version" end /\
  match p !! "dependencies" with
  | Some (TArray deps) => exists deps', q !! "dependencies" = Some (TArray deps') /\ Forall2 (reference_projected versions ps) deps deps'
  | other => q !! "dependencies" = other
  end.

Record projected versions ps qs : Prop := {
  pro_packages : Forall2 (package_projected versions ps) ps qs;
  pro_members : forall name version, versions !! name = Some version ->
    exists j p v, ps !! j = Some p /\ local versions p = Some (name, v, version) /\
      forall i q w u, ps !! i = Some q -> local versions q = Some (name, w, u) -> i = j;
  pro_links : Forall plain ps -> plain_versions versions ->
    Forall2 (fun p q => Forall2 (same_link ps qs) (dependencies p) (dependencies q)) ps qs }.

(** The versions are those of packages of the workspace. *)
Definition workspace_of (root : string) (m : cargo_metadata) versions : Prop :=
  versions <> ∅ /\
  (forall name version, versions !! name = Some version -> name <> "" /\ version <> "" /\ exists c, c ∈ cp_Packages m /\ cp_ID c ∈ Members m /\
     cp_Source c = None /\ below root (ManifestPath c) = true /\ cp_Name c = name /\ cp_Version c = version) /\
  (forall id, id ∈ Members m -> exists c, c ∈ cp_Packages m /\ cp_ID c = id /\ versions !! cp_Name c = Some (cp_Version c)).

Definition member_of (root : string) (packages : list cargo_package) (members : gset string) name version : Prop := exists c,
  c ∈ packages /\ cp_ID c ∈ members /\ cp_Source c = None /\ below root (ManifestPath c) = true /\ cp_Name c = name /\ cp_Version c = version.

Lemma member_versions_spec root packages members versions missing versions' :
  member_versions root packages members versions = Ok (missing, versions') ->
  (forall name version, versions !! name = Some version -> version <> "" -> versions' !! name = Some version) /\
  (forall name version, versions' !! name = Some version -> versions !! name = Some version \/
     (name <> "" /\ version <> "" /\ member_of root packages members name version)) /\
  (forall id, id ∈ members -> id ∉ missing -> exists c, c ∈ packages /\ cp_ID c = id /\ versions' !! cp_Name c = Some (cp_Version c)).
Proof.
  revert members versions. induction packages as [|p packages IH]; cbn [member_versions]; intros members versions E.
  { injection E as <- <-. split_and!; [done | by left | done]. }
  destruct (bool_decide (cp_ID p ∈ members)) eqn:Hin; cbn [negb] in E.
  2: { apply IH in E as (H1 & H2 & H3). apply bool_decide_eq_false in Hin. split_and!; [done| |].
       - intros name version [?|(? & ? & q & ? & ?)]%H2; [by left | right; split_and!; [done..|]; exists q; split; [by right|done]].
       - intros id Hid Hm. destruct (H3 id Hid Hm) as (q & ? & ?). exists q. split; [by right|done]. }
  apply bool_decide_eq_true in Hin. destruct (bad_member root versions p) eqn:Hbad; [discriminate|].
  unfold bad_member in Hbad. apply orb_false_iff in Hbad as [[[[Hb%negb_false_iff Hs]%orb_false_iff Hn%String.eqb_neq]%orb_false_iff
    Hv%String.eqb_neq]%orb_false_iff He%negb_false_iff%String.eqb_eq].
  apply IH in E as (H1 & H2 & H3). split_and!.
  - intros name version Hl Hne. apply H1; [|done]. destruct (decide (cp_Name p = name)) as [<-|?]; [|by rewrite lookup_insert_ne].
    unfold entry in He. rewrite Hl in He. by destruct Hne.
  - intros name version [Hl|(? & ? & q & ? & Hq & ?)]%H2.
    + destruct (decide (cp_Name p = name)) as [<-|?]; [|left; by rewrite lookup_insert_ne in Hl].
      rewrite lookup_insert_eq in Hl. injection Hl as <-. right. split_and!; [done..|]. exists p.
      split_and!; [by left | done | by destruct (cp_Source p) | done..].
    + right. split_and!; [done..|]. exists q. split; [by right|]. split; [set_solver | done].
  - intros id Hid Hm. destruct (decide (cp_ID p = id)) as [<-|Hne].
    + exists p. split_and!; [by left | done |]. apply H1; [by rewrite lookup_insert_eq | done].
    + destruct (H3 id) as (q & ? & ?); [set_solver | done|]. exists q. split; [by right|done].
Qed.

Lemma workspace_spec root m versions : workspace root m = Ok versions -> workspace_of root m versions.
Proof.
  unfold workspace. intros ([missing versions'] & E & E')%bind_Ok. apply bind_Ok in E' as ([] & Hg%guard_err_Ok & [= ->]).
  apply orb_false_iff in Hg as [Hm%negb_false_iff%bool_decide_eq_true Hv%bool_decide_eq_false]. subst missing.
  apply member_versions_spec in E as (_ & H2 & H3). split_and!; [done| |].
  - intros name version [?|(? & ? & p & ? & Hin%elem_of_list_to_set & ? & ? & ? & ?)]%H2; [done|].
    split_and!; [done..|]. exists p. by split_and!.
  - intros id Hid. apply H3; [by apply elem_of_list_to_set | set_solver].
Qed.

(** * The two passes *)

Definition named p : Prop := exists name version, text p "name" = Some name /\ name <> "" /\ text p "version" = Some version.

Definition replacement versions p : option (string * string) :=
  '(name, v, w) ← local versions p; if String.eqb v w then None else Some (identity name v, identity name w).
Definition moved versions p : table :=
  match local versions p with Some (_, v, w) => if String.eqb v w then p else <["version" := TString w]> p | None => p end.
Definition note versions (m : gmap string string) p : gmap string string :=
  match replacement versions p with Some (r, r') => <[r := r']> m | None => m end.
Definition local_name versions p : option string := (fun x => fst (fst x)) <$> local versions p.

Lemma select_spec versions found repl value found' repl' q : select versions (found, repl) value = Ok ((found', repl'), q) ->
  exists p, value = TTable p /\ named p /\ q = moved versions p /\ repl' = note versions repl p /\
    match local_name versions p with Some name => name ∉ found /\ found' = {[name]} ∪ found | None => found' = found end.
Proof.
  unfold select. destruct value as [| | |p]; try discriminate. destruct (text p "version") as [v|] eqn:Hv; [|discriminate].
  destruct (text p "name") as [n|] eqn:Hn; cbn [from_option id]; [|discriminate].
  destruct (String.eqb_spec n "") as [|Hne]; [discriminate|]. intros E. exists p. split; [done|]. split; [by exists n, v|].
  unfold moved, note, replacement, local_name, local. rewrite Hn, Hv. cbn [mbind option_bind].
  destruct (external p || String.eqb (entry versions n) ""); [by injection E as <- <- <-|].
  destruct (bool_decide (n ∈ found)) eqn:Hf; [discriminate|]. apply bool_decide_eq_false in Hf. cbn.
  destruct (String.eqb_spec v (entry versions n)); injection E as <- <- <-; done.
Qed.
Lemma select_all_spec versions values found repl found' repl' qs :
  select_all versions (found, repl) values = Ok ((found', repl'), qs) -> exists ps,
    values = map TTable ps /\ Forall named ps /\ qs = map (moved versions) ps /\ repl' = fold_left (note versions) ps repl /\
    NoDup (omap (local_name versions) ps) /\ (forall name, name ∈ found' <-> name ∈ found \/ name ∈ omap (local_name versions) ps) /\
    (forall name, name ∈ found -> name ∉ omap (local_name versions) ps).
Proof.
  revert found repl qs. induction values as [|value values IH]; cbn [select_all]; intros found repl qs E.
  { injection E as <- <- <-. exists []. cbn. split_and!; [done.. | constructor | set_solver | set_solver]. }
  apply bind_Ok in E as ([[found1 repl1] q] & Es & E). apply bind_Ok in E as ([[found2 repl2] qs'] & Er & [= <- <- <-]).
  apply select_spec in Es as (p & -> & Hp & -> & -> & Hf). apply IH in Er as (ps & -> & Hps & -> & -> & Hnd & Hin & Hout).
  exists (p :: ps). cbn. destruct (local_name versions p) as [name|] eqn:Hl; cbn.
  - destruct Hf as [Hnew ->]. split_and!; [done | by constructor | done | done | | |].
    + constructor; [apply Hout; set_solver | done].
    + intros x. rewrite Hin. set_solver.
    + intros x Hx [->|Hx']%elem_of_cons; [done|]. apply (Hout x); set_solver.
  - subst found1. split_and!; [done | by constructor | done | done | done | done | done].
Qed.

(** The later of two packages with one name is refused, so a local name is that of one package. *)
Lemma local_name_unique versions ps i j p q name : NoDup (omap (local_name versions) ps) ->
  ps !! i = Some p -> ps !! j = Some q -> local_name versions p = Some name -> local_name versions q = Some name -> i = j.
Proof.
  revert i j. induction ps as [|x ps IH]; intros i j Hnd Hi Hj Hp Hq; [done|]. cbn in Hnd.
  assert (forall k y, ps !! k = Some y -> local_name versions y = Some name -> name ∈ omap (local_name versions) ps) as Hmem.
  { intros k y Hk Hy. apply list_elem_of_omap. exists y. split; [by eapply list_elem_of_lookup_2 | done]. }
  destruct i as [|i], j as [|j]; cbn in Hi, Hj; [done| | |].
  - injection Hi as ->. rewrite Hp in Hnd. apply NoDup_cons in Hnd as [Hn _]. by destruct Hn; eapply Hmem.
  - injection Hj as ->. rewrite Hq in Hnd. apply NoDup_cons in Hnd as [Hn _]. by destruct Hn; eapply Hmem.
  - f_equal. eapply IH; try done. destruct (local_name versions x); [by apply NoDup_cons in Hnd as [_ ?] | done].
Qed.

Lemma contains_byte_cons c a s : contains_byte c (String a s) = false -> a <> c /\ contains_byte c s = false.
Proof.
  unfold contains_byte. cbn [index_byte]. destruct (Ascii.eqb_spec a c); [done|]. by destruct (index_byte c s).
Qed.

Lemma identity_inj n n' v v' : contains_byte " "%char n = false -> contains_byte " "%char n' = false ->
  identity n v = identity n' v' -> n = n' /\ v = v'.
Proof.
  unfold identity. revert n'. induction n as [|a n IH]; intros [|a' n'] Hn Hn' E; cbn in E.
  - by injection E.
  - injection E as <- _. discriminate Hn'.
  - injection E as -> _. discriminate Hn.
  - injection E as -> E. apply contains_byte_cons in Hn as [_ Hn], Hn' as [_ Hn']. by destruct (IH n' Hn Hn' E) as [-> ->].
Qed.

Lemma contains_byte_app c a b : contains_byte c (a +:+ String c b) = true.
Proof.
  unfold contains_byte. induction a as [|x a IH].
  - change ("" +:+ String c b) with (String c b). simpl. by rewrite Ascii.eqb_refl.
  - change (String x a +:+ String c b) with (String x (a +:+ String c b)). cbn [index_byte].
    destruct (Ascii.eqb x c); [done|]. by destruct (index_byte c _).
Qed.
Lemma identity_spaced n v : contains_byte " "%char (identity n v) = true.
Proof. apply contains_byte_app. Qed.
Lemma sourced_spaced v s : contains_byte " "%char (v +:+ " (" +:+ s) = true.
Proof. apply (contains_byte_app " "%char v). Qed.

(** * What the passes did *)

Lemma local_Some versions p name v w : local versions p = Some (name, v, w) ->
  text p "name" = Some name /\ text p "version" = Some v /\ external p = false /\ w = entry versions name /\ w <> "".
Proof.
  unfold local. destruct (text p "name") as [n|]; [|done]. cbn. destruct (text p "version") as [u|]; [|done]. cbn.
  destruct (external p); [done|]. cbn. destruct (String.eqb_spec (entry versions n) ""); [done|]. by intros [= <- <- <-].
Qed.

Lemma replacement_inv versions p r r' : replacement versions p = Some (r, r') -> exists name v w,
  local versions p = Some (name, v, w) /\ v <> w /\ r = identity name v /\ r' = identity name w.
Proof.
  unfold replacement. destruct (local versions p) as [[[n v] w]|]; [|done]. cbn. destruct (String.eqb_spec v w); [done|].
  intros [= <- <-]. by exists n, v, w.
Qed.

Lemma notes_lookup versions ps m r r' : fold_left (note versions) ps m !! r = Some r' ->
  m !! r = Some r' \/ exists p, p ∈ ps /\ replacement versions p = Some (r, r').
Proof.
  revert m. induction ps as [|p ps IH]; cbn [fold_left]; intros m; [by left|]. intros [H|(q & ? & ?)]%IH; [|right; exists q; split; [by right|done]].
  unfold note in H. destruct (replacement versions p) as [[x y]|] eqn:Hr; [|by left].
  destruct (decide (x = r)) as [->|?]; [|left; by rewrite lookup_insert_ne in H].
  rewrite lookup_insert_eq in H. injection H as ->. right. exists p. split; [by left|done].
Qed.

Lemma notes_kept versions ps m r : is_Some (m !! r) -> is_Some (fold_left (note versions) ps m !! r).
Proof.
  revert m. induction ps as [|p ps IH]; cbn [fold_left]; intros m Hm; [done|]. apply IH. unfold note.
  destruct (replacement versions p) as [[x y]|]; [|done]. by apply lookup_insert_is_Some'; right.
Qed.

Lemma notes_defined versions ps m p r r' : p ∈ ps -> replacement versions p = Some (r, r') -> is_Some (fold_left (note versions) ps m !! r).
Proof.
  revert m. induction ps as [|x ps IH]; intros m Hp Hr; [set_solver|]. cbn [fold_left]. apply elem_of_cons in Hp as [<-|Hp]; [|by apply IH].
  apply notes_kept. unfold note. rewrite Hr. rewrite lookup_insert_eq. by eexists.
Qed.

Definition renamed (repl : gmap string string) (d : toml L) : toml L :=
  match d with TString r => TString (default r (repl !! r)) | _ => d end.
Definition relinked (repl : gmap string string) p : table :=
  match p !! "dependencies" with Some (TArray deps) => <["dependencies" := TArray (map (renamed repl) deps)]> p | _ => p end.

Lemma relabel_all_spec repl deps ds : relabel_all repl deps = Ok ds -> ds = map (renamed repl) deps.
Proof.
  revert ds. induction deps as [|d deps IH]; cbn [relabel_all]; intros ds E; [by injection E as <-|].
  apply bind_Ok in E as (x & Ex & E). apply bind_Ok in E as (xs & Exs%IH & [= <-]). cbn. f_equal; [|done].
  destruct d; try discriminate Ex. by injection Ex as <-.
Qed.

Lemma relink_all_spec versions repl ps qs : relink_all versions repl ps = Ok qs ->
  qs = map (relinked repl) ps /\ forall p, p ∈ ps -> collides versions repl p = false.
Proof.
  revert qs. induction ps as [|p ps IH]; cbn [relink_all]; intros qs E; [injection E as <-; split; [done | set_solver]|].
  apply bind_Ok in E as (q & Eq & E). apply bind_Ok in E as (rest & [-> Hc]%IH & [= <-]).
  unfold relink in Eq. apply bind_Ok in Eq as ([] & Hg%guard_err_Ok & Eq). split.
  - cbn. f_equal. unfold relinked. destruct (p !! "dependencies") as [[| |deps|]|]; try by injection Eq as <-.
    apply bind_Ok in Eq as (ds & ->%relabel_all_spec & [= <-]). done.
  - intros x [->|?]%elem_of_cons; [done | by apply Hc].
Qed.

Lemma renamed_nothing deps : map (renamed ∅) deps = deps.
Proof. induction deps as [|d deps IH]; cbn; [done|]. rewrite IH. f_equal. destruct d; cbn; [|done..]. by rewrite lookup_empty. Qed.

Lemma relinked_nothing p : relinked ∅ p = p.
Proof.
  unfold relinked. destruct (p !! "dependencies") as [[| |deps|]|] eqn:E; try done. rewrite renamed_nothing. by apply insert_id.
Qed.

Lemma moved_nothing versions p : replacement versions p = None -> moved versions p = p.
Proof.
  unfold replacement, moved. destruct (local versions p) as [[[n v] w]|]; [|done]. cbn. by destruct (String.eqb v w).
Qed.

Lemma text_moved versions p k : k <> "version" -> moved versions p !! k = p !! k.
Proof.
  intros. unfold moved. destruct (local versions p) as [[[n v] w]|]; [|done]. destruct (String.eqb v w); [done|]. by rewrite lookup_insert_ne.
Qed.

Lemma relinked_other repl p k : k <> "dependencies" -> relinked repl p !! k = p !! k.
Proof. intros. unfold relinked. destruct (p !! "dependencies") as [[| |deps|]|]; try done. by rewrite lookup_insert_ne. Qed.

Lemma version_moved versions p : moved versions p !! "version" =
  match local versions p with Some (_, _, w) => Some (TString w) | None => p !! "version" end.
Proof.
  unfold moved. destruct (local versions p) as [[[n v] w]|] eqn:Hl; [|done]. destruct (String.eqb_spec v w) as [<-|?]; [|by rewrite lookup_insert_eq].
  apply local_Some in Hl as (_ & Hv & _). unfold text in Hv. destruct (p !! "version") as [[]|]; try done. by injection Hv as <-.
Qed.

Lemma dependencies_relinked versions repl p : dependencies (relinked repl (moved versions p)) = map (renamed repl) (dependencies p).
Proof.
  unfold relinked, dependencies. rewrite text_moved by done.
  destruct (p !! "dependencies") as [[| |deps|]|] eqn:E; rewrite ?lookup_insert_eq, ?text_moved, ?E by done; done.
Qed.

(** * References keep their packages *)

Section links.
Context versions ps (repl : gmap string string).
Hypothesis (Hnamed : Forall named ps) (Hunique : NoDup (omap (local_name versions) ps)).
Hypothesis (Hrepl : repl = fold_left (note versions) ps ∅).
Hypothesis (Hapart : repl <> ∅ -> forall p, p ∈ ps -> collides versions repl (moved versions p) = false).

Definition final p : table := relinked repl (moved versions p).

Lemma external_not_local p : external p = true -> local versions p = None.
Proof. unfold local. destruct (text p "name"), (text p "version"); cbn; [|done..]. by intros ->. Qed.

Lemma local_of p name v : text p "name" = Some name -> text p "version" = Some v -> external p = false -> entry versions name <> "" ->
  local versions p = Some (name, v, entry versions name).
Proof. unfold local. intros -> -> -> ?. cbn. by destruct (String.eqb_spec (entry versions name) ""). Qed.

Lemma apart p name v : repl <> ∅ -> p ∈ ps -> text p "name" = Some name -> text p "version" = Some v -> external p = true ->
  repl !! identity name v = None /\ entry versions name <> v.
Proof.
  intros Hne Hp Hn Hv He. specialize (Hapart Hne p Hp). unfold moved in Hapart. rewrite external_not_local in Hapart by done.
  unfold collides in Hapart. rewrite He, Hn, Hv in Hapart. cbn in Hapart.
  apply orb_false_iff in Hapart as [Hr Hv'%String.eqb_neq]. by destruct (repl !! identity name v).
Qed.

Lemma final_other p k : k <> "version" -> k <> "dependencies" -> text (final p) k = text p k.
Proof. intros. unfold text, final. by rewrite relinked_other, text_moved. Qed.
Lemma final_version p : text (final p) "version" =
  match local versions p with Some (_, _, w) => Some w | None => text p "version" end.
Proof. unfold text, final. rewrite relinked_other, version_moved by done. by destruct (local versions p) as [[[n v] w]|]. Qed.

Lemma replaced r r' : repl !! r = Some r' -> exists p name v w, p ∈ ps /\ local versions p = Some (name, v, w) /\ v <> w /\
  r = identity name v /\ r' = identity name w.
Proof.
  rewrite Hrepl. intros [?|(p & Hp & (n & v & w & ? & ? & -> & ->)%replacement_inv)]%notes_lookup; [by rewrite lookup_empty in *|].
  exists p, n, v, w. done.
Qed.

Lemma reference_projected_of d : reference_projected versions ps d (renamed repl d).
Proof.
  destruct d as [r| | |]; [|by left..]. cbn. destruct (repl !! r) as [r'|] eqn:E; [|by left]. right.
  apply replaced in E as (p & name & v & w & ? & ? & ? & -> & ->). by exists p, name, v, w.
Qed.

Lemma package_projected_of p : package_projected versions ps p (final p).
Proof.
  unfold final. split_and!.
  - apply map_eq. intros k. destruct (decide (k = "version")) as [->|?]; [by rewrite !lookup_delete_eq|].
    rewrite !(lookup_delete_ne _ "version") by done.
    destruct (decide (k = "dependencies")) as [->|?]; [by rewrite !lookup_delete_eq|].
    rewrite !lookup_delete_ne by done. by rewrite relinked_other, text_moved.
  - by rewrite relinked_other, version_moved.
  - unfold relinked. rewrite text_moved by done. destruct (p !! "dependencies") as [[| |deps|]|] eqn:E; rewrite ?text_moved by done; try done.
    exists (map (renamed repl) deps). split; [by rewrite lookup_insert_eq|].
    apply Forall2_fmap_r, Forall_Forall2_diag, Forall_true. intros d. apply reference_projected_of.
Qed.

Context (Hplain : Forall plain ps) (Hversions : plain_versions versions).

Lemma plain_name p name : p ∈ ps -> text p "name" = Some name -> contains_byte " "%char name = false.
Proof. rewrite Forall_forall in Hplain. intros Hp. apply (Hplain p Hp). by left. Qed.
Lemma plain_version p v : p ∈ ps -> text p "version" = Some v -> contains_byte " "%char v = false.
Proof. rewrite Forall_forall in Hplain. intros Hp. apply (Hplain p Hp). by right. Qed.

Lemma moved_replaced p name v w : p ∈ ps -> local versions p = Some (name, v, w) -> v <> w -> repl !! identity name v = Some (identity name w).
Proof.
  intros Hp Hl Hne. assert (replacement versions p = Some (identity name v, identity name w)) as Hr.
  { unfold replacement. rewrite Hl. cbn. by destruct (String.eqb_spec v w). }
  destruct (notes_defined versions ps ∅ p _ _ Hp Hr) as [r' Hr']. rewrite <- Hrepl in Hr'. rewrite Hr'.
  apply replaced in Hr' as (q & m & u & x & Hq & Hlq & _ & Heq & ->).
  pose proof (local_Some _ _ _ _ _ Hl) as (Hn & _ & _ & -> & _). pose proof (local_Some _ _ _ _ _ Hlq) as (Hm & _ & _ & -> & _).
  apply identity_inj in Heq as [-> _]; [done | by apply (plain_name p) | by apply (plain_name q)].
Qed.

(** Two local packages of one name are one. *)
Lemma local_same i j p q name v v' w w' : ps !! i = Some p -> ps !! j = Some q ->
  local versions p = Some (name, v, w) -> local versions q = Some (name, v', w') -> i = j.
Proof.
  intros Hi Hj Hp Hq. eapply local_name_unique; [exact Hunique | exact Hi | exact Hj | |]; unfold local_name; by rewrite ?Hp, ?Hq.
Qed.

(** A reference with a name and a version is to the packages that have them. *)
Lemma refers_identity q n v : (forall s, text q "name" = Some s -> contains_byte " "%char s = false) ->
  contains_byte " "%char n = false -> contains_byte " "%char v = false ->
  refers q (identity n v) -> text q "name" = Some n /\ text q "version" = Some v.
Proof.
  unfold refers. intros Hq Hn Hv. destruct (text q "name") as [m|]; [|done]. destruct (text q "version") as [u|]; [|done].
  pose proof (Hq m eq_refl) as Hpm. intros [E|[E|E]].
  - by rewrite <- E, identity_spaced in Hpm.
  - apply identity_inj in E as [-> ->]; done.
  - destruct (text q "source") as [src|]; [|done]. apply identity_inj in E as [_ ->]; [|done..]. by rewrite sourced_spaced in Hv.
Qed.

Lemma final_name_plain p s : p ∈ ps -> text (final p) "name" = Some s -> contains_byte " "%char s = false.
Proof. intros Hp. rewrite final_other by done. by apply plain_name. Qed.

(** A package of the lock file with the name and the version of a member is that
    member, when something moves. *)
Lemma member_named p name : repl <> ∅ -> p ∈ ps -> text p "name" = Some name -> text p "version" = Some (entry versions name) ->
  entry versions name <> "" -> local versions p = Some (name, entry versions name, entry versions name).
Proof.
  intros Hne Hp Hn Hv Hw. destruct (external p) eqn:He; [by destruct (apart p name (entry versions name)) | by apply local_of].
Qed.

Lemma moved_reference r r' i p : ps !! i = Some p -> repl !! r = Some r' -> refers p r <-> refers (final p) r'.
Proof.
  intros Hi Hr. assert (repl <> ∅) as Hne by (intros E; by rewrite E, lookup_empty in Hr).
  apply replaced in Hr as Hr0. destruct Hr0 as (p0 & n & v & w & Hp0 & Hl0 & Hvw & -> & ->).
  pose proof (local_Some _ _ _ _ _ Hl0) as (Hn0 & Hv0 & _ & Hw & Hwe). pose proof (list_elem_of_lookup_2 _ _ _ Hi) as Hp.
  pose proof (plain_name _ _ Hp0 Hn0) as Hpn. pose proof (plain_version _ _ Hp0 Hv0) as Hpv.
  assert (contains_byte " "%char w = false) as Hpw.
  { apply (Hversions n). unfold entry in Hw. destruct (versions !! n); [by rewrite Hw | by destruct Hwe]. }
  apply list_elem_of_lookup_1 in Hp0 as [j0 Hj0]. split; intros Href.
  - apply refers_identity in Href as [Hn Hv]; [|intros x; by apply plain_name | done..].
    destruct (external p) eqn:He; [destruct (apart p n v); congruence|]. unfold refers. rewrite (final_other p "name"), (final_other p "source"), final_version by done.
    rewrite (local_of p n v) by (done || congruence). rewrite <- Hw, Hn. right. by left.
  - apply refers_identity in Href as [Hn Hv]; [|intros x; by apply final_name_plain | done..].
    rewrite final_other in Hn by done. rewrite final_version in Hv.
    assert (exists u, local versions p = Some (n, u, w)) as [u Hl].
    { destruct (local versions p) as [[[m u] x]|] eqn:Hl; [apply local_Some in Hl as (Hm & _); exists u; congruence|].
      subst w. rewrite (member_named p n) in Hl by done. discriminate. }
    rewrite (local_same _ _ _ _ _ _ _ _ _ Hi Hj0 Hl Hl0) in Hi. assert (p = p0) as -> by congruence.
    unfold refers. rewrite Hn0, Hv0. right. by left.
Qed.

Lemma kept_reference r i p k q : ps !! i = Some p -> ps !! k = Some q -> refers q r -> repl !! r = None ->
  refers p r <-> refers (final p) r.
Proof.
  intros Hi Hk Hq Hr. pose proof (list_elem_of_lookup_2 _ _ _ Hi) as Hp. unfold refers.
  rewrite (final_other p "name"), (final_other p "source"), final_version by done. destruct (local versions p) as [[[n v] w]|] eqn:Hl; [|done].
  pose proof (local_Some _ _ _ _ _ Hl) as (Hn & Hv & He & Hw & Hwe).
  assert (text p "source" = None) as -> by (unfold external in He; unfold text; by destruct (p !! "source")).
  destruct (decide (v = w)) as [<-|Hvw]; [rewrite Hv; done|]. pose proof (moved_replaced p n v w Hp Hl Hvw) as Hrep.
  rewrite Hn, Hv. split; (intros [->|[->|?]]; [by left | | done]); [congruence|].
  exfalso. pose proof (list_elem_of_lookup_2 _ _ _ Hk) as Hq'.
    assert (contains_byte " "%char w = false) as Hpw.
    { apply (Hversions n). unfold entry in Hw. destruct (versions !! n); [by rewrite Hw | by destruct Hwe]. }
    apply refers_identity in Hq as [Hm Hu]; [|intros x; by apply plain_name | by apply (plain_name p) | done].
    assert (repl <> ∅) as Hne by (intros E; by rewrite E, lookup_empty in Hrep). subst w.
    pose proof (member_named q n Hne Hq' Hm Hu Hwe) as Hlq. rewrite (local_same _ _ _ _ _ _ _ _ _ Hi Hk Hl Hlq) in Hi. congruence.
Qed.

Lemma links_kept d : same_link ps (map final ps) d (renamed repl d).
Proof.
  destruct d as [r| | |]; cbn; [|done..]. intros (k & q & Hk & Hq) j. unfold designates.
  assert (forall p, ps !! j = Some p -> refers p r <-> refers (final p) (default r (repl !! r))) as Hgo.
  { intros p Hp. destruct (repl !! r) as [r'|] eqn:Hr; [by apply (moved_reference r r' j p) | by apply (kept_reference r j p k q)]. }
  split.
  - intros (p & Hp & Href). exists (final p). rewrite list_lookup_fmap, Hp. split; [done | by apply Hgo].
  - intros (p' & Hp' & Href). rewrite list_lookup_fmap in Hp'. destruct (ps !! j) as [p|] eqn:Hp; [|done]. injection Hp' as <-.
    exists p. split; [done | by apply Hgo].
Qed.
End links.

Lemma projected_of versions ps repl : Forall named ps -> NoDup (omap (local_name versions) ps) ->
  repl = fold_left (note versions) ps ∅ -> (forall name, is_Some (versions !! name) -> name ∈ omap (local_name versions) ps) ->
  (forall name version, versions !! name = Some version -> version <> "") ->
  (repl <> ∅ -> forall p, p ∈ ps -> collides versions repl (moved versions p) = false) ->
  projected versions ps (map (relinked repl) (map (moved versions) ps)).
Proof.
  intros Hnamed Hu Hr Hall Hne Hapart. rewrite map_map. split.
  - apply Forall2_fmap_r, Forall_Forall2_diag, Forall_true. intros p. by apply package_projected_of.
  - intros name version Hv. destruct (proj1 (list_elem_of_omap _ _ _) (Hall name (ex_intro _ _ Hv))) as (p & Hp & Hl).
    apply list_elem_of_lookup_1 in Hp as [j Hj]. pose proof Hl as Hl'. unfold local_name in Hl.
    destruct (local versions p) as [[[n v] w]|] eqn:Hlp; [|discriminate]. injection Hl as ->.
    pose proof (local_Some _ _ _ _ _ Hlp) as (_ & _ & _ & -> & _). exists j, p, v. split_and!; [done | unfold entry in Hlp; by rewrite Hv in Hlp |].
    intros i q w u Hi Hlq. by eapply local_same.
  - intros Hplain Hversions. apply Forall2_fmap_r, Forall_Forall2_diag, Forall_true. intros p.
    change (Forall2 (same_link ps (map (final versions repl) ps)) (dependencies p) (dependencies (final versions repl p))).
    unfold final at 2. rewrite dependencies_relinked.
    apply Forall2_fmap_r, Forall_Forall2_diag, Forall_true. intros d. by apply links_kept.
Qed.

(** Noted replacements change a package. *)
Lemma notes_change versions ps repl : repl = fold_left (note versions) ps ∅ -> repl <> ∅ ->
  map (relinked repl) (map (moved versions) ps) <> ps.
Proof.
  intros Hr (r & r' & Hl)%map_choose E. rewrite Hr in Hl.
  apply notes_lookup in Hl as [?|(p & Hp & (n & v & w & Hlp & Hne & _)%replacement_inv)]; [by rewrite lookup_empty in *|].
  apply list_elem_of_lookup_1 in Hp as [i Hi]. apply (f_equal (fun l => l !! i)) in E. rewrite map_map, list_lookup_fmap, Hi in E.
  injection E as E. apply (f_equal (fun t => text t "version")) in E. unfold text at 1 in E.
  rewrite relinked_other, version_moved, Hlp in E by done. by apply local_Some in Hlp as (_ & Hv & _); congruence.
Qed.

Lemma notes_nothing versions ps : fold_left (note versions) ps ∅ = ∅ -> map (moved versions) ps = ps.
Proof.
  intros E. rewrite <- (map_id ps) at 2. apply map_ext_in. intros p Hp%list_elem_of_In. apply moved_nothing.
  destruct (replacement versions p) as [[r r']|] eqn:Hr; [|done]. destruct (notes_defined versions ps ∅ p r r' Hp Hr) as [x Hx].
  by rewrite E, lookup_empty in Hx.
Qed.

(** C26: A prepared lock file only moves the local packages to the versions of
    the workspace: the versions are those of the members of the metadata, each
    below the root and without a source, every member has exactly one local
    package, a package keeps everything but its version and its references, and a
    reference is as it was unless it is the name and version of a local package
    that moved, when it becomes its name and new version. Where names and versions
    have no spaces, a reference that designated packages - by name, by name and
    version, or by these and the source - designates exactly the same packages
    afterwards. When nothing has to move the bytes of the original are kept. *)
Theorem prepareLockfile_projects {C : CargoCodec L} original metadata root out (E : prepareLockfile original metadata root = Ok out) :
  exists m versions lock ps qs, decode_metadata metadata = Ok m /\ workspace_of root m versions /\
    toml_Unmarshal original = Ok lock /\ lock !! "package" = Some (TArray (map TTable ps)) /\ projected versions ps qs /\
    (qs = ps /\ out = original \/ qs <> ps /\ toml_Marshal (<["package" := TArray (map TTable qs)]> lock) = Ok out).
Proof.
  unfold prepareLockfile in E. apply bind_Ok in E as (m & Hm & E). apply bind_Ok in E as (versions & Hv%workspace_spec & E).
  apply bind_Ok in E as (lock & Hlock & E). apply bind_Ok in E as (values & Hvalues & E).
  apply bind_Ok in E as ([[found repl] moved_ps] & Hs & E). apply bind_Ok in E as ([] & Hg%guard_err_Ok & E).
  apply wrapped_Ok in Hm, Hlock. apply negb_false_iff, bool_decide_eq_true in Hg.
  apply select_all_spec in Hs as (ps & -> & Hnamed & -> & Hr & Hu & Hfound & _).
  unfold package_array in Hvalues. destruct (lock !! "package") as [[| |l|]|] eqn:Hpk; try discriminate Hvalues. injection Hvalues as ->.
  exists m, versions, lock, ps, (map (relinked repl) (map (moved versions) ps)). split_and!; [done..| |].
  - apply projected_of; try done.
    + intros name Hn. apply elem_of_dom in Hn. apply Hg, Hfound in Hn as [?|?]; [set_solver | done].
    + intros name version Hl. destruct Hv as (_ & Hv & _). by apply Hv in Hl as (_ & ? & _).
    + intros Hne p Hp. destruct (bool_decide (repl = ∅)) eqn:Hd; [by apply bool_decide_eq_true in Hd|].
      apply bind_Ok in E as (qs & (_ & Hc)%relink_all_spec & _). apply Hc. apply list_elem_of_fmap. by exists p.
  - destruct (bool_decide (repl = ∅)) eqn:Hd.
    + apply bool_decide_eq_true in Hd as ->. injection E as <-. left. split; [|done]. rewrite notes_nothing by done.
      rewrite <- (map_id ps) at 2. apply map_ext. intros p. apply relinked_nothing.
    + apply bool_decide_eq_false in Hd. right. apply bind_Ok in E as (qs & (-> & _)%relink_all_spec & E). apply wrapped_Ok in E.
      split; [by apply notes_change | done].
Qed.
End projection.

(** * One member moves, and the reference to it with it *)

Section example.
Notation table := (gmap string (toml unit)).

Definition crate (name version : string) (source : option string) (deps : list string) : table :=
  list_to_map (("name", TString name) :: ("version", TString version) ::
    match source with Some s => [("source", TString s)] | None => [] end ++ [("dependencies", TArray (map TString deps))]).

Definition demo_lock : table := {["package" := TArray [TTable (crate "core" "0.0.0" None ["log 1.0.0"]);
  TTable (crate "cli" "0.0.0" None ["core 0.0.0"; "log"; "log 1.0.0 (registry)"]); TTable (crate "log" "1.0.0" (Some "registry") [])]]}.

Definition demo_metadata : cargo_metadata := {| Members := ["m1"; "m2"]; cp_Packages :=
  [{| cp_ID := "m1"; cp_Name := "core"; cp_Version := "1.2.0"; cp_Source := None; ManifestPath := "/src/core/Cargo.toml" |};
   {| cp_ID := "m2"; cp_Name := "cli"; cp_Version := "0.0.0"; cp_Source := None; ManifestPath := "/src/cli/Cargo.toml" |}] |}.

(** The text of a lock file is the references of its second package. *)
#[local] Instance demo_cargo : CargoCodec unit := {|
  decode_metadata _ := Ok demo_metadata;
  toml_Unmarshal _ := Ok demo_lock;
  toml_Marshal lock := match lock !! "package" with
    | Some (TArray [_; TTable p; _]) => Ok (foldr (fun d s => match d with TString r => r +:+ ";" +:+ s | _ => s end) "" (dependencies p))
    | _ => Err (Errorf "toml" []) end |}.

Example demo_outside : prepareLockfile (L := unit) "old" "" "/elsewhere" = Err (Errorf "invalid local workspace identity %q" []).
Proof. vm_compute. reflexivity. Qed.

(** Its names and versions have no spaces. *)
Example demo_plain : Forall plain [crate "core" "0.0.0" None ["log 1.0.0"]; crate "cli" "0.0.0" None ["core 0.0.0"; "log"];
  crate "log" "1.0.0" (Some "registry") []].
Proof. repeat constructor; intros k s [-> | ->]; vm_compute; by intros [= <-]. Qed.

Lemma prepareLockfile_projects_witness : exists m versions lock ps qs,
  decode_metadata (L := unit) "" = Ok m /\ workspace_of "/src" m versions /\ toml_Unmarshal "old" = Ok lock /\
  lock !! "package" = Some (TArray (map TTable ps)) /\ projected versions ps qs /\
  (qs = ps /\ "core 1.2.0;log;log 1.0.0 (registry);" = "old" \/ qs <> ps /\ toml_Marshal (<["package" := TArray (map TTable qs)]> lock) = Ok "core 1.2.0;log;log 1.0.0 (registry);").
Proof. apply (prepareLockfile_projects "old" "" "/src"). vm_compute. reflexivity. Defined.
End example.
