(* ===== verification/Sandbox.v ===== *)
(** Running a command of an untrusted candidate: the processes of the host, and
    the sandbox that every such command runs in, with the proof of its boundary
    on the host itself.  [repair_sandbox.go] and [repairEnvironment] of
    [sandbox_support.go] ([src/codexsdk/internal/protocolsync]).

    A process is a tree: it ends, writes to its output, or changes the world and
    goes on with what it then sees.  What bubblewrap makes of its flags is
    [read_mounts] and [access]: mounts in order, the last one at or above a path
    decides; links inside the sandbox are left out. *)

From Stdlib Require Import Ascii.
From S2P Require Import Prelude GoStrings Policy Scope Resolve PublicationText Checks Boundary Inspection Goal GoalSnapshot Rebinding GoalPublication Desk GoalIntents GoalDiagnostics GoalProgress GoalFlow GoalAcceptance.

Local Open Scope string_scope.
Local Open Scope list_scope.

(** * Processes *)

(** A command: its arguments with its name, its directory ("" for the current
    one) and its environment ([None] for that of the program). *)
Record exec_cmd := { cmd_Args : list string; cmd_Dir : string; cmd_Env : option (list string) }.

Inductive process (W : Type) :=
| Exits (err : option error)
| Writes (chunk : string) (next : process W)
| Acts (step : W -> W) (next : W -> process W).
Arguments Exits {W} err.
Arguments Writes {W} chunk next.
Arguments Acts {W} step next.

(** The environment and the tools of the host; [goos] is [runtime.GOOS]. *)
Class Toolchain (W : Type) := {
  environ : list string;
  goos : string;
  GOROOT : string;
  LookPath : string -> W -> res string;
  spawn : exec_cmd -> W -> process W
}.

(** [os.LookupEnv]: the first entry of the name. *)
Fixpoint lookup_env (name : string) (entries : list string) : option string :=
  match entries with
  | [] => None
  | e :: rest => if contains_byte "="%char e && String.eqb (fst (cut_entry e)) name then Some (snd (cut_entry e)) else lookup_env name rest
  end.

Section run.
Context {W : Type} {B : Boundary W} {T : Toolchain W}.

Definition getenv (name : string) : string := default "" (lookup_env name environ).

Section drive.
Context {S : Type} (write : string -> S -> P (B := B) S).

(** A process to its end; [write] takes its output. *)
Fixpoint drive (p : process W) (st : S) : P (B := B) (S * option error) :=
  match p with
  | Exits e => mret (st, e)
  | Writes chunk next => st ← write chunk st; drive next st
  | Acts step next => fun s => let w := step (world s) in drive (next w) st {| world := w; log := log s |}
  end.

(** [cmd.Run] *)
Definition run_command (c : exec_cmd) (st : S) : P (B := B) (S * option error) :=
  p ← peek (spawn c);
  '(st, e) ← drive p st;
  _ ← emit (Performed (Execute (default environ (cmd_Env c)) (cmd_Args c)) (match e with None => Ok "" | Some e => Err e end));
  mret (st, e).
End drive.

(** [cmd.Output] and [cmd.CombinedOutput] *)
Definition output (c : exec_cmd) : P (B := B) string :=
  '(out, e) ← run_command (fun chunk out => mret (out +:+ chunk)) c "";
  match e with None => mret out | Some e => fail e end.
End run.

(** * The sandbox *)

Record nativeSandbox := {
  sb_root : string; sb_candidate : string; sb_work : string; sb_goroot : string; sb_modules : string;
  sb_readonly : list string; writableUpstream : bool; extraPath : string }.

Definition with_readonly (paths : list string) (s : nativeSandbox) : nativeSandbox := {|
  sb_root := sb_root s; sb_candidate := sb_candidate s; sb_work := sb_work s; sb_goroot := sb_goroot s; sb_modules := sb_modules s;
  sb_readonly := sb_readonly s ++ paths; writableUpstream := writableUpstream s; extraPath := extraPath s |}.
Definition with_path (extra : string) (s : nativeSandbox) : nativeSandbox := {|
  sb_root := sb_root s; sb_candidate := sb_candidate s; sb_work := sb_work s; sb_goroot := sb_goroot s; sb_modules := sb_modules s;
  sb_readonly := sb_readonly s; writableUpstream := writableUpstream s; extraPath := extra |}.
Definition with_upstream (s : nativeSandbox) : nativeSandbox := {|
  sb_root := sb_root s; sb_candidate := sb_candidate s; sb_work := sb_work s; sb_goroot := sb_goroot s; sb_modules := sb_modules s;
  sb_readonly := sb_readonly s; writableUpstream := true; extraPath := extraPath s |}.

Definition hidden_paths : list string := ["/tmp"; "/home"; "/root"; "/workspace"; "/run"].
Definition upstream_cache (root : string) : string := path_join root "codexsdk/.cache/openai-codex".
Definition git_dir (root : string) : string := path_join root ".git".

Definition bind (flag p : string) : list string := [flag; p; p].

Definition sandbox_flags (s : nativeSandbox) (hidden : list string) : list string :=
  ["--unshare-all"; "--die-with-parent"; "--new-session"; "--ro-bind"; "/"; "/"; "--proc"; "/proc"; "--dev"; "/dev"] ++
  flat_map (fun p => ["--tmpfs"; p]) hidden ++
  bind "--bind" (sb_root s) ++ bind "--ro-bind" (git_dir (sb_root s)) ++ bind "--bind" (sb_work s) ++
  bind (if writableUpstream s then "--bind" else "--ro-bind") (upstream_cache (sb_root s)) ++
  bind "--ro-bind" (sb_candidate s) ++ bind "--ro-bind" (sb_goroot s) ++ bind "--ro-bind" (sb_modules s) ++
  flat_map (bind "--ro-bind") (sb_readonly s).

Definition sandbox_argv (s : nativeSandbox) (hidden : list string) (program : string) (args : list string) : list string :=
  "bwrap" :: sandbox_flags s hidden ++ ["--chdir"; path_join (sb_root s) "codexsdk"; "--"; program] ++ args.

(** [url.URL.String] of a file: what a path leaves as it is, and the rest escaped. *)
Definition path_escape_byte (c : ascii) : string :=
  if is_name_byte c || mem c ["~"; "$"; "&"; "+"; ","; "/"; ":"; ";"; "="; "@"]%char then String c ""
  else String "%" (String (hex_digit (nat_of_ascii c / 16)) (String (hex_digit (nat_of_ascii c mod 16)) "")).
Fixpoint path_escape (s : string) : string := match s with "" => "" | String c s => path_escape_byte c +:+ path_escape s end.
Definition file_url (p : string) : string := "file://" +:+ path_escape p.

Definition sandbox_env (s : nativeSandbox) : list string :=
  let bin := path_join (sb_goroot s) "bin" in
  ["PATH=" +:+ (if String.eqb (extraPath s) "" then bin +:+ ":/usr/bin:/bin" else bin +:+ ":" +:+ extraPath s +:+ ":/usr/bin:/bin");
   "HOME=" +:+ path_join (sb_work s) "home"; "GOCACHE=" +:+ path_join (sb_work s) "cache"; "GOMODCACHE=" +:+ sb_modules s;
   "GOTOOLCHAIN=local"; "GOPROXY=" +:+ file_url (path_join (path_join (sb_modules s) "cache") "download"); "GOSUMDB=off"; "TMPDIR=/tmp"; "CI=true"].

Definition present (info : finfo) : bool := match info with FileInfo _ _ _ _ => true | _ => false end.

Definition repair_names : list string :=
  ["PATH"; "HOME"; "GOPATH"; "GOCACHE"; "GOMODCACHE"; "GOTOOLCHAIN"; "GOROOT"; "TMPDIR"; "TMP"; "TEMP"; "CI"].
Definition repairEnvironment (entries : list string) : list string :=
  flat_map (fun name => match lookup_env name entries with Some value => [name +:+ "=" +:+ value] | None => [] end) repair_names.

Definition boundary_script : string :=
  let nl := String (byte 10) "" in let q := String (byte 34) "" in
  "set -eu" +:+ nl +:+
  "if printf tamper > " +:+ q +:+ "$1" +:+ q +:+ "; then exit 21; fi" +:+ nl +:+
  "if printf tamper > " +:+ q +:+ "$2" +:+ q +:+ "; then exit 22; fi" +:+ nl +:+
  "if printf tamper > " +:+ q +:+ "$3" +:+ q +:+ "; then exit 23; fi" +:+ nl +:+
  "if test -e " +:+ q +:+ "$4" +:+ q +:+ "; then exit 24; fi" +:+ nl +:+
  "printf safe > " +:+ q +:+ "$5" +:+ q +:+ nl.

Section sandbox.
Context {W : Type} {B : Boundary W} {H : Host W} {T : Toolchain W}.

Definition sandbox_command (s : nativeSandbox) (program : string) (args : list string) : P (B := B) exec_cmd :=
  hidden ← peek (fun w => List.filter (fun p => present (dir_info p w)) hidden_paths);
  mret {| cmd_Args := sandbox_argv s hidden program args; cmd_Dir := ""; cmd_Env := Some (sandbox_env s) |}.

(** A file that must still hold [text]. *)
Definition still_holds (path text message : string) : P (B := B) unit :=
  got ← replace_err (new_error message) (host (ReadText path));
  guard (negb (String.eqb got text)) (new_error message).

(** The probe in the sandbox: three writes and one look that must fail, one write
    that must not. *)
Definition boundary_run (s : nativeSandbox) (name head forbidden secret positive : string) : P (B := B) unit :=
  c ← sandbox_command (with_readonly [name] s) "/bin/sh"
        ["-c"; boundary_script; "boundary"; name; head; forbidden; secret; positive];
  _ ← wrap_err "native sandbox boundary was not proven: %w: %s" (output c);
  mret tt.

Definition boundary_observed (s : nativeSandbox) (name head before forbidden secret positive : string) : P (B := B) unit :=
  _ ← still_holds positive "safe" "native sandbox writable positive control failed";
  _ ← still_holds name "immutable" "native sandbox read-only input changed";
  _ ← still_holds head before "native sandbox Git identity changed";
  _ ← still_holds secret "not-visible" "native sandbox parent input changed";
  info ← peek (file_info forbidden);
  guard (match info with NoFile => false | _ => true end) (new_error "native sandbox wrote retained candidate").

Definition remove_quietly (path : string) : P (B := B) unit := _ ← host (RemoveFile path); mret tt.

Definition prove_with (s : nativeSandbox) (secret name : string) : P (B := B) unit :=
  finally (
    written ← attempt (host (WriteText name "immutable"));
    _ ← (match written with Ok _ => mret tt | Err e => _ ← attempt (host (Close name)); fail e end);
    _ ← host (Close name);
    let head := path_join (sb_root s) ".git/HEAD" in
    before ← host (ReadText head);
    let positive := path_join (path_join (sb_root s) "codexsdk") (path_base name +:+ "-positive") in
    let forbidden := path_join (sb_candidate s) (path_base name +:+ "-forbidden") in
    finally (
      _ ← boundary_run s name head forbidden secret positive;
      boundary_observed s name head before forbidden secret positive) (remove_quietly positive))
  (remove_quietly name).

Definition proveBoundary (s : nativeSandbox) : P (B := B) unit :=
  hidden ← host (MkdirTempIn (path_dir (sb_root s)) "sandbox-hidden-");
  finally (
    let secret := path_join hidden "parent-input" in
    _ ← host (WriteText secret "not-visible");
    name ← host (CreateTemp (sb_work s) "trusted-boundary-");
    prove_with s secret name)
  (remove_all hidden).

Fixpoint make_all (paths : list string) : P (B := B) unit :=
  match paths with [] => mret tt | p :: rest => _ ← host (MkdirAll p); make_all rest end.

Definition newNativeSandbox (root candidate : string) : P (B := B) nativeSandbox :=
  _ ← guard (negb (String.eqb goos "linux")) (new_error "native verification requires the Linux sandbox");
  _ ← replace_err (new_error "native verification requires bubblewrap") (fun s => of_res (LookPath "bwrap" (world s)) s);
  modules ← output {| cmd_Args := ["go"; "env"; "GOMODCACHE"]; cmd_Dir := ""; cmd_Env := Some (repairEnvironment environ) |};
  let s := {| sb_root := root; sb_candidate := candidate; sb_work := path_join (path_dir root) "sandbox"; sb_goroot := GOROOT;
              sb_modules := trim_space modules; sb_readonly := []; writableUpstream := false; extraPath := "" |} in
  _ ← make_all [sb_work s; path_join (sb_work s) "cache"; path_join (sb_work s) "home"];
  _ ← proveBoundary s;
  mret s.
End sandbox.

(** * What bubblewrap makes of its flags *)

(** A part of the host at a path, writable or not, or something fresh there. *)
Inductive mount := Bound (writable : bool) (source at_ : string) | Fresh (at_ : string).
Definition mount_at (m : mount) : string := match m with Bound _ _ p | Fresh p => p end.

Definition switches : list string := ["--unshare-all"; "--die-with-parent"; "--new-session"].
Definition makes_fresh : list string := ["--proc"; "--dev"; "--tmpfs"].

Fixpoint read_mounts (args : list string) : list mount :=
  match args with
  | [] => []
  | flag :: rest =>
    if String.eqb flag "--" then [] else
    if mem flag switches then read_mounts rest else
    match rest with
    | [] => []
    | a :: rest1 =>
      if mem flag makes_fresh then Fresh a :: read_mounts rest1 else
      if String.eqb flag "--chdir" then read_mounts rest1 else
      match rest1 with
      | [] => []
      | b :: rest2 =>
        if String.eqb flag "--bind" then Bound true a b :: read_mounts rest2 else
        if String.eqb flag "--ro-bind" then Bound false a b :: read_mounts rest2 else []
      end
    end
  end.

(** A path at or below a directory. *)
Definition under_dir (d p : string) : bool := String.eqb d "/" || String.eqb d p || has_prefix (d +:+ "/") p.

(** The mount that decides about a path. *)
Definition access (ms : list mount) (p : string) : option mount :=
  fold_left (fun found m => if under_dir (mount_at m) p then Some m else found) ms None.

(** A command in a sandbox. *)
Definition boxed (s : nativeSandbox) (argv : list string) : Prop := exists hidden program args, argv = sandbox_argv s hidden program args.

Definition mounts_of (s : nativeSandbox) (hidden : list string) : list mount :=
  [Bound false "/" "/"; Fresh "/proc"; Fresh "/dev"] ++ map Fresh hidden ++
  [Bound true (sb_root s) (sb_root s); Bound false (git_dir (sb_root s)) (git_dir (sb_root s)); Bound true (sb_work s) (sb_work s);
   Bound (writableUpstream s) (upstream_cache (sb_root s)) (upstream_cache (sb_root s))] ++
  map (fun p => Bound false p p) ([sb_candidate s; sb_goroot s; sb_modules s] ++ sb_readonly s).

Lemma read_mounts_fresh hidden rest : read_mounts (flat_map (fun p => ["--tmpfs"; p]) hidden ++ rest) = map Fresh hidden ++ read_mounts rest.
Proof. induction hidden as [|p hidden IH]; [done|]. cbn -[mem]. f_equal. apply IH. Qed.

Lemma read_mounts_readonly paths rest :
  read_mounts (flat_map (bind "--ro-bind") paths ++ rest) = map (fun p => Bound false p p) paths ++ read_mounts rest.
Proof. induction paths as [|p paths IH]; [done|]. cbn. f_equal. apply IH. Qed.

Lemma read_mounts_head rest :
  read_mounts (["--unshare-all"; "--die-with-parent"; "--new-session"; "--ro-bind"; "/"; "/"; "--proc"; "/proc"; "--dev"; "/dev"] ++ rest) =
  [Bound false "/" "/"; Fresh "/proc"; Fresh "/dev"] ++ read_mounts rest.
Proof. reflexivity. Qed.
Lemma read_mounts_bind (w : bool) p rest :
  read_mounts (bind (if w then "--bind" else "--ro-bind") p ++ rest) = Bound w p p :: read_mounts rest.
Proof. by destruct w. Qed.

Lemma sandbox_mounts s hidden program args : read_mounts (tl (sandbox_argv s hidden program args)) = mounts_of s hidden.
Proof.
  unfold sandbox_argv, sandbox_flags, mounts_of. cbn [tl]. rewrite <- !app_assoc, read_mounts_head, read_mounts_fresh.
  rewrite (read_mounts_bind true), (read_mounts_bind false), (read_mounts_bind true), !read_mounts_bind, (read_mounts_bind false).
  rewrite !(read_mounts_bind false), read_mounts_readonly.
  assert (read_mounts (["--chdir"; path_join (sb_root s) "codexsdk"; "--"; program] ++ args) = []) as -> by done. rewrite app_nil_r. reflexivity.
Qed.

Lemma access_app ms ms' p : access (ms ++ ms') p = match access ms' p with Some m => Some m | None => access ms p end.
Proof.
  unfold access. rewrite fold_left_app. generalize (fold_left (fun found m => if under_dir (mount_at m) p then Some m else found) ms None).
  induction ms' as [|m ms' IH] using rev_ind; intros found; [done|]. rewrite !fold_left_app. cbn.
  destruct (under_dir (mount_at m) p); [done | apply IH].
Qed.

Lemma access_cons m ms p : access (m :: ms) p =
  match access ms p with Some x => Some x | None => if under_dir (mount_at m) p then Some m else None end.
Proof. apply (access_app [m]). Qed.

(** The mount that decides is one of them, at or above the path. *)
Lemma access_in ms p m : access ms p = Some m -> m ∈ ms /\ under_dir (mount_at m) p = true.
Proof.
  induction ms as [|x ms IH]; [done|]. rewrite access_cons. destruct (access ms p); intros E.
  - destruct (IH E). split; [by right | done].
  - destruct (under_dir (mount_at x) p) eqn:Hx; [|done]. injection E as ->. split; [by left | done].
Qed.

Lemma access_none ms p : access ms p = None -> forall m, m ∈ ms -> under_dir (mount_at m) p = false.
Proof.
  induction ms as [|x ms IH]; intros E m Hm; [set_solver|]. rewrite access_cons in E. destruct (access ms p); [done|].
  destruct (under_dir (mount_at x) p) eqn:Hx; [done|]. apply elem_of_cons in Hm as [->|Hm]; [done | by apply IH].
Qed.

(** What is mounted read-only after everything else. *)
Definition admitted_inputs (s : nativeSandbox) : list string := [sb_candidate s; sb_goroot s; sb_modules s] ++ sb_readonly s.

(** C18: Whatever a command of a candidate does, of the host it can only change what is below the clone and outside its git directory, the private work directory, and the upstream cache when it is given: every other path is read-only or replaced by something fresh; the inputs that are admitted stay read-only even where they overlap; and below the hidden paths nothing of the host is seen but the clone, the work directory, the cache and those inputs. *)
Theorem sandbox_confines s hidden program args p :
  match access (read_mounts (tl (sandbox_argv s hidden program args))) p with
  | Some (Bound true source at_) => source = at_ /\ existsb (fun d => under_dir d p) (admitted_inputs s) = false /\
      (under_dir (sb_root s) p = true /\ under_dir (git_dir (sb_root s)) p = false \/ under_dir (sb_work s) p = true \/
       writableUpstream s = true /\ under_dir (upstream_cache (sb_root s)) p = true)
  | Some (Bound false source at_) => source = at_ /\
      (existsb (fun d => under_dir d p) hidden = true ->
       existsb (fun d => under_dir d p) ([sb_root s; git_dir (sb_root s); upstream_cache (sb_root s)] ++ admitted_inputs s) = true)
  | Some (Fresh _) => True
  | None => False
  end.
Proof.
  rewrite sandbox_mounts. unfold mounts_of. fold (admitted_inputs s). rewrite app_assoc, app_assoc, access_app.
  destruct (access (map _ (admitted_inputs s)) p) as [m|] eqn:Ei.
  { apply access_in in Ei as [(d & -> & Hd)%list_elem_of_fmap Hu]. split; [done|]. intros _. apply existsb_exists. exists d.
    split; [|done]. apply list_elem_of_In. by apply elem_of_app; right. }
  assert (existsb (fun d => under_dir d p) (admitted_inputs s) = false) as Hinputs.
  { apply existsb_false_Forall, Forall_forall. intros d Hd. apply (access_none _ _ Ei (Bound false d d)), list_elem_of_fmap. by exists d. }
  rewrite access_app. set (own := access [_; _; _; _] p). assert (own = access [Bound true (sb_root s) (sb_root s);
    Bound false (git_dir (sb_root s)) (git_dir (sb_root s)); Bound true (sb_work s) (sb_work s);
    Bound (writableUpstream s) (upstream_cache (sb_root s)) (upstream_cache (sb_root s))] p) as Eown by done. clearbody own.
  rewrite !access_cons in Eown. cbn [mount_at access fold_left] in Eown.
  destruct (under_dir (upstream_cache (sb_root s)) p) eqn:Hc; [|destruct (under_dir (sb_work s) p) eqn:Hw;
    [|destruct (under_dir (git_dir (sb_root s)) p) eqn:Hg; [|destruct (under_dir (sb_root s) p) eqn:Hr]]]; subst own.
  - destruct (writableUpstream s); (split; [done|]); [split; [done|]; by right; right | intros _; cbn; rewrite Hc, !orb_true_r; done].
  - split_and!; [done..|]. by right; left.
  - split; [done|]. intros _. cbn. rewrite Hg, !orb_true_r. done.
  - split_and!; [done..|]. by left.
  - rewrite access_app. destruct (access (map Fresh hidden) p) as [m|] eqn:Eh.
    { apply access_in in Eh as [(d & -> & _)%list_elem_of_fmap _]. done. }
    assert (existsb (fun d => under_dir d p) hidden = false) as Hhidden.
    { apply existsb_false_Forall, Forall_forall. intros d Hd. apply (access_none _ _ Eh (Fresh d)), list_elem_of_fmap. by exists d. }
    rewrite !access_cons. cbn [access fold_left mount_at]. destruct (under_dir "/dev" p); [done|]. destruct (under_dir "/proc" p); [done|].
    cbn. rewrite Hhidden. split; [done | discriminate].
Qed.
