(* ===== verification/GateInputs.v ===== *)
(** What the gates of a verification read besides the candidate: the prewarmed
    caches and their copies, the inputs of a regeneration, the public files of
    the native runtime, and the facts of the rebuilt upstream.  [goal_verify.go],
    [goal_source.go] ([src/codexsdk/internal/protocolsync]) and
    [NativeGoalRuntimePaths] of [src/codexsdk/internal/codexexec/goal_sandbox.go].

    A walk is the list of what [filepath.WalkDir] would visit, in its order, read
    at once. *)

From Stdlib Require Import Ascii.
From stdpp Require Import gmap.
From S2P Require Import Prelude GoStrings Policy Scope Resolve PublicationText Checks Boundary Inspection Goal GoalSnapshot Rebinding GoalPublication Desk GoalIntents GoalDiagnostics GoalProgress GoalFlow GoalAcceptance GoalHandoff GoalPrepare Sandbox.

Local Open Scope string_scope.
Local Open Scope list_scope.

(** * Walks *)

Inductive entry_kind := EDir | EFile (perm : Z) | ELink | ESpecial.
Record walked := { w_path : string; w_kind : entry_kind; w_err : option error }.

Class Files (W : Type) := { walk : string -> W -> list walked; read_link : string -> W -> res string }.

Definition skips (skipped : option string) (p : string) : bool := match skipped with Some d => under_dir d p | None => false end.

Definition no_relation : error := Errorf "Rel: can't make %s relative to %s" [].

(** The environment of the offline cache: a ref must be listed by name. *)
Definition listed_line (patterns : list string) (line : string) : bool :=
  match str_fields line with [_; ref] => mem ref patterns | _ => false end.
Definition listed_refs (patterns : list string) (out : string) : string :=
  foldr (fun line rest => if listed_line patterns line then line +:+ String (byte 10) "" +:+ rest else rest) "" (split_byte (byte 10) out).

Section inputs.
Context {W : Type} {B : Boundary W} {H : Host W} {T : Toolchain W} {Fs : Files W}.

(** [visit] says whether a directory is skipped. *)
Fixpoint walk_from {S} (visit : walked -> S -> P (B := B) (S * bool)) (skipped : option string) (l : list walked) (st : S) : P (B := B) S :=
  match l with
  | [] => mret st
  | e :: rest =>
    if skips skipped (w_path e) then walk_from visit skipped rest st else
    match w_err e with
    | Some err => fail err
    | None => '(st, skip) ← visit e st; walk_from visit (if (skip : bool) then Some (w_path e) else skipped) rest st
    end
  end.
Definition WalkDir {S} (root : string) (visit : walked -> S -> P (B := B) (S * bool)) (st : S) : P (B := B) S :=
  l ← peek (walk root); walk_from visit None l st.

(** * Caches *)

Definition copy_entry (source destination : string) (e : walked) (_ : unit) : P (B := B) (unit * bool) :=
  _ ← ended CallCtx;
  match path_rel source (w_path e) with
  | None => fail no_relation
  | Some rel =>
    let to := path_join destination rel in
    match w_kind e with
    | EDir => _ ← host (MkdirAll to); mret (tt, false)
    | ELink =>
      link ← (fun s => of_res (read_link (w_path e) (world s)) s);
      let resolved := path_clean (path_join (path_dir rel) link) in
      _ ← guard (has_prefix "/" link || String.eqb resolved ".." || has_prefix "../" resolved) (new_error "prewarmed cache symlink escapes source");
      _ ← host (Symlink link to); mret (tt, false)
    | ESpecial => fail (new_error "prewarmed cache contains special file")
    | EFile perm => _ ← host (Open (w_path e)); _ ← host (CopyFile (w_path e) to perm); mret (tt, false)
    end
  end.

Definition goalCopyCache (source destination : string) : P (B := B) unit :=
  _ ← host (Open source); WalkDir source (copy_entry source destination) tt.

(** [show-ref] changes nothing: it is read, not logged. *)
Definition cached_refs (cache : string) (w : W) (remote : string) (patterns : list string) : res string :=
  if negb (String.eqb remote defaultRemote) then Err (new_error "offline provenance upstream origin mismatch") else
  match fst (exec_git ["-C"; cache; "show-ref"; "--dereference"] "" w) with
  | Ok out => Ok (listed_refs patterns out)
  | Err _ => Err (new_error "offline provenance cached refs unavailable")
  end.
Definition resolve_cached (cache : string) (req : ResolveRequest) : P (B := B) Target := fun s =>
  of_res (ResolveUpstream (cached_refs cache (world s)) req) s.

Definition baseline_file (root : string) : string :=
  path_join (path_join (path_join root "codexsdk") "internal/protocolschema/appserver/v2") "baseline_metadata.json".
Definition load_baseline (root : string) : P (B := B) BaselineIdentity :=
  raw ← host (ReadText (baseline_file root)); of_res (decodeBaselineIdentity raw).

(** The cache is of the official upstream, at the recorded ref, kind and commit. *)
Definition goalCheckUpstreamCache (root cache : string) : P (B := B) unit :=
  let missing := new_error "offline provenance blocked: missing prewarmed official-origin cache" in
  origin ← replace_err missing (gitOutput ["-C"; cache; "remote"; "get-url"; "origin"]);
  _ ← guard (negb (String.eqb (trim_space origin) defaultRemote)) missing;
  baseline ← load_baseline root;
  target ← wrap_err "offline provenance blocked: exact ref missing from cache: %w"
             (resolve_cached cache {| res_Remote := defaultRemote; res_UpstreamRef := SourceRefName baseline; res_LatestStable := false |});
  _ ← guard (negb (String.eqb (PeeledCommitSHA target) (SourceCommit baseline)) || negb (String.eqb (RefKind target) (SourceRefKind baseline)))
        (new_error "offline provenance blocked: cached ref differs from recorded upstream identity");
  _ ← replace_err (new_error "offline provenance blocked: exact commit object missing")
        (run ["-C"; cache; "cat-file"; "-e"; SourceCommit baseline +:+ "^{commit}"] "");
  mret tt.

Fixpoint no_credentials (from : string) (names : list string) : P (B := B) unit :=
  match names with
  | [] => mret tt
  | name :: rest =>
    info ← peek (file_info (path_join (path_join from "cargo-home") name));
    _ ← guard (match info with NoFile => false | _ => true end) (new_error "offline provenance blocked: Cargo cache contains credentials");
    no_credentials from rest
  end.

Fixpoint copy_caches (from to : string) (names : list string) : P (B := B) unit :=
  match names with
  | [] => mret tt
  | name :: rest =>
    _ ← wrap_err "offline provenance blocked: prewarmed %s: %w" (goalCopyCache (path_join from name) (path_join to name));
    copy_caches from to rest
  end.

Fixpoint link_tools (tools : string) (names : list string) : P (B := B) unit :=
  match names with
  | [] => mret tt
  | name :: rest => _ ← host (Symlink "rustup" (path_join tools name)); link_tools tools rest
  end.

Definition look_path (name : string) : P (B := B) string := fun s => of_res (LookPath name (world s)) s.
Definition real_path (p : string) : P (B := B) string := fun s => of_res (EvalSymlinks p (world s)) s.

Definition install_rustup (work : string) : P (B := B) unit :=
  tool ← replace_err (new_error "offline provenance blocked: rustup prerequisite unavailable") (look_path "rustup");
  tool ← real_path tool;
  let tools := path_join work "rust-tools" in
  _ ← host (MkdirAll tools);
  _ ← host (Open tool);
  _ ← host (CopyFile tool (path_join tools "rustup") 0x1c0);
  link_tools tools ["cargo"; "rustc"; "rustdoc"].

Definition goalPrepareOfflineCache (from snapshot work : string) : P (B := B) unit :=
  let original := path_join from "openai-codex" in
  _ ← goalCheckUpstreamCache snapshot original;
  let to := path_join snapshot "codexsdk/.cache" in
  let copy := path_join to "openai-codex" in
  _ ← host (MkdirAll to);
  _ ← replace_err (new_error "offline provenance blocked: cannot copy prewarmed upstream")
        (run ["-c"; "core.hooksPath=/dev/null"; "clone"; "--quiet"; "--no-checkout"; "--no-hardlinks"; original; copy] "");
  _ ← runGit ["-C"; copy; "remote"; "set-url"; "origin"; defaultRemote];
  _ ← goalCheckUpstreamCache snapshot copy;
  _ ← no_credentials from ["credentials"; "credentials.toml"];
  _ ← copy_caches from to ["rustup"; "cargo-home"];
  install_rustup work.

(** * The inputs of a regeneration *)

Definition schema_dir := "codexsdk/internal/protocolschema/appserver/v2/".

Definition generated_input (rel : string) : bool :=
  String.eqb rel "go.mod" || String.eqb rel "go.sum" || has_prefix schema_dir rel || has_prefix "codexsdk/internal/wirejson/" rel ||
  (String.eqb (path_dir rel) "codexsdk/protocolv2" && has_suffix ".go" rel && negb (has_suffix ".gen.go" rel) && negb (has_suffix "_test.go" rel)).

Definition copy_input (root destination : string) (e : walked) (_ : unit) : P (B := B) (unit * bool) :=
  match w_kind e with
  | EDir => mret (tt, String.eqb (path_base (w_path e)) ".git")
  | kind =>
    match path_rel root (w_path e) with
    | None => fail no_relation
    | Some rel =>
      if negb (generated_input rel) then mret (tt, false) else
      _ ← guard (match kind with EFile _ => false | _ => true end) (new_error "generated input is not a regular file");
      data ← host (ReadText (w_path e));
      let to := path_join destination rel in
      _ ← host (MkdirAll (path_dir to));
      _ ← host (WriteText to data);
      mret (tt, false)
    end
  end.
Definition goalGeneratedInputs (root destination : string) : P (B := B) unit := WalkDir root (copy_input root destination) tt.

(** * The native runtime *)

Definition insideGoalPath (p root : string) : bool :=
  match path_rel root p with Some rel => negb (String.eqb rel "..") && negb (has_prefix "../" rel) | None => false end.

Definition node_dirs (executable : string) : P (B := B) (list string) :=
  if negb (has_suffix ".js" executable) then mret [] else
  let unavailable := new_error "goal Node runtime unavailable" in
  node ← replace_err unavailable (look_path "node");
  node ← replace_err unavailable (real_path node);
  let root := path_dir (path_dir node) in
  _ ← guard (negb (insideGoalPath executable root) && negb (insideGoalPath executable "/usr")) (new_error "unsupported goal npm runtime layout");
  mret (if String.eqb root "/usr" then [] else [root]).

Definition NativeGoalRuntimePaths (binary : string) : P (B := B) (list string) :=
  let unavailable := new_error "goal CLI unavailable" in
  executable ← replace_err unavailable (look_path (if String.eqb binary "" then "codex" else binary));
  executable ← replace_err unavailable (real_path executable);
  executable ← replace_err unavailable (of_res (Abs executable));
  node ← node_dirs executable;
  goroot ← replace_err (new_error "goal Go runtime unavailable") (real_path GOROOT);
  mret ([path_dir executable] ++ node ++ [goroot]).

Definition add_dir (extra dir : string) : string :=
  (if String.eqb extra "" then "" else extra +:+ ":") +:+ dir +:+ ":" +:+ path_join dir "bin".

Fixpoint add_runtime_files (paths : list string) (s : nativeSandbox) : P (B := B) nativeSandbox :=
  match paths with
  | [] => mret s
  | p :: rest =>
    target ← replace_err (Errorf "native runtime input unavailable: %s" []) (real_path p);
    add_runtime_files rest (if String.eqb target p then s else with_readonly [target] s)
  end.

Definition goalNativeRuntimeInputs (s : nativeSandbox) (binary : string) : P (B := B) nativeSandbox :=
  dirs ← NativeGoalRuntimePaths binary;
  let s := with_path (fold_left add_dir dirs (extraPath s)) (with_readonly dirs s) in
  add_runtime_files ["/etc/ssl/certs"; "/etc/resolv.conf"; "/etc/hosts"; "/etc/nsswitch.conf"] s.

(** * The facts of the rebuilt upstream *)

Fixpoint copy_facts (source destination : string) (names : list string) : P (B := B) unit :=
  match names with
  | [] => mret tt
  | name :: rest =>
    info ← peek (root_info source name);
    _ ← guard (match info with FileInfo true _ _ _ => false | _ => true end) (Errorf "rebuilt upstream %s must be a regular file" []);
    data ← host (ReadText (path_join source name));
    _ ← host (WriteText (path_join destination name) data);
    copy_facts source destination rest
  end.

Definition goalCopySourceFacts (source destination : string) : P (B := B) unit :=
  _ ← goalCopyCache (path_join source "schema") (path_join destination "schema");
  _ ← host (Open source);
  copy_facts source destination ["common.rs"; "common.rs.source_sha"].

Definition unofficial_schema : list string :=
  ["baseline_metadata.json"; "coverage_matrix.json"; "drift_report.json"; "manifest.json"; "manifest_generation.json"; "matrix_update_skeleton.json"].

Definition official_entry (root : string) (e : walked) (found : gmap string string) : P (B := B) (gmap string string * bool) :=
  match w_kind e with
  | EDir => mret (found, false)
  | EFile _ =>
    match path_rel root (w_path e) with
    | None => fail no_relation
    | Some rel =>
      if negb (has_suffix ".json" rel) || mem rel unofficial_schema then mret (found, false) else
      data ← host (ReadText (w_path e)); mret (<[rel := sha256 data]> found, false)
    end
  | _ => fail (Errorf "nonregular official schema input" [])
  end.
Definition officialSchemaTree (root : string) : P (B := B) (gmap string string) := WalkDir root (official_entry root) ∅.

Definition hex_error : error := Errorf "encoding/hex: invalid byte" [].
Definition official_commit (invalid : error) (commit : string) : P (B := B) unit :=
  _ ← guard (negb (String.length commit =? 40)%nat) invalid; guard (negb (hex_decodes commit)) hex_error.

Definition verifyOfficialSchema (candidate rebuilt : string) : P (B := B) unit :=
  identity ← load_baseline candidate;
  _ ← official_commit (Errorf "invalid candidate source identity" []) (SourceCommit identity);
  marker ← host (ReadText (path_join rebuilt "common.rs.source_sha"));
  _ ← guard (negb (String.eqb (trim_space marker) (SourceCommit identity))) (Errorf "rebuilt official source identity differs from candidate" []);
  expected ← officialSchemaTree (path_join rebuilt "schema");
  actual ← officialSchemaTree (path_join (path_join candidate "codexsdk") "internal/protocolschema/appserver/v2");
  guard (bool_decide (expected = ∅) || negb (bool_decide (expected = actual))) (Errorf "candidate schema differs from rebuilt official source" []).

Definition goalFreshCISourceFacts (root work : string) : P (B := B) string :=
  baseline ← load_baseline root;
  let sha := SourceCommit baseline in
  _ ← official_commit (new_error "invalid rebuilt upstream commit") sha;
  let source := path_join root ("codexsdk/.cache/codexsdk-upstream-" +:+ str_take 12 sha) in
  let uncanonical := new_error "rebuilt upstream facts path is not canonical" in
  real ← replace_err uncanonical (real_path source);
  _ ← guard (negb (String.eqb real source)) uncanonical;
  let mismatch := new_error "rebuilt upstream facts commit mismatch" in
  marker ← replace_err mismatch (host (ReadText (path_join source "common.rs.source_sha")));
  _ ← guard (negb (String.eqb (trim_space marker) sha)) mismatch;
  let destination := path_join work "fresh-ci-upstream" in
  _ ← goalCopySourceFacts source destination;
  mret destination.
End inputs.
