(* ===== verification/GoalVerify.v ===== *)
(** The verification of a candidate: the commands of each gate on a frozen copy,
    in the sandbox, with every record of their output, and the same gates in the
    trust context of CI.  [VerifyGoal] and [VerifyCIGate] of [goal_verify.go]
    ([src/codexsdk/internal/protocolsync]).

    The runners that tests inject are left out, and so are the lines of
    [GoalProgress].  The diagnostics are one file that every record goes to: they
    are threaded through. *)

From Stdlib Require Import Ascii.
From stdpp Require Import pretty.
From S2P Require Import Prelude GoStrings Policy Scope Resolve PublicationText Checks Boundary Inspection Goal GoalSnapshot Rebinding GoalPublication Desk GoalIntents GoalDiagnostics GoalProgress GoalFlow GoalAcceptance GoalHandoff GoalPrepare Sandbox GateInputs.

Local Open Scope string_scope.
Local Open Scope list_scope.
Local Open Scope goal_scope.

(** * Gates and their commands *)

Definition goalVerificationGates : list string := ["source"; "generated"; "provenance"].

Definition selected_gates (gate : string) : res (list string) :=
  if String.eqb gate "" || String.eqb gate "local" then Ok goalVerificationGates
  else if mem gate goalVerificationGates then Ok [gate] else Err (new_error "unknown verification gate").

Definition boundary_test := "TestNativeGoalSandboxBoundary".
Definition consistency_test := "TestLiveRepairSandboxCandidateVersionConsistency".

(** The test that a command must be seen to pass; empty for none. *)
Fixpoint native_test (args : list string) : string :=
  match args with
  | [] => ""
  | arg :: rest =>
    if String.eqb arg ("^" +:+ boundary_test +:+ "$") then boundary_test
    else if String.eqb arg ("^" +:+ consistency_test +:+ "$") then consistency_test else native_test rest
  end.
Definition goalNativeTest (c : exec_cmd) : string := native_test (cmd_Args c).
Definition goalNativeCommand (c : exec_cmd) : bool := negb (String.eqb (goalNativeTest c) "").

(** [json.Unmarshal] of a line into the action and the test of an event. *)
Class EventCodec := { decode_event : string -> option (string * string) }.

Record goalNativeEvidence := { ev_pending : string; ev_run : bool; ev_pass : bool; ev_skip : bool; ev_invalid : bool }.

Definition no_evidence : goalNativeEvidence := {| ev_pending := ""; ev_run := false; ev_pass := false; ev_skip := false; ev_invalid := false |}.
Definition set_pending (text : string) (e : goalNativeEvidence) : goalNativeEvidence := {|
  ev_pending := text; ev_run := ev_run e; ev_pass := ev_pass e; ev_skip := ev_skip e; ev_invalid := ev_invalid e |}.
Definition set_invalid (e : goalNativeEvidence) : goalNativeEvidence := {|
  ev_pending := ""; ev_run := ev_run e; ev_pass := ev_pass e; ev_skip := ev_skip e; ev_invalid := true |}.
Definition observe_action (action : string) (e : goalNativeEvidence) : goalNativeEvidence := {|
  ev_pending := ev_pending e; ev_run := ev_run e || String.eqb action "run"; ev_pass := ev_pass e || String.eqb action "pass";
  ev_skip := ev_skip e || mem action ["skip"; "fail"]; ev_invalid := ev_invalid e |}.

Section evidence.
Context {E : EventCodec}.

Definition observe_line (test line : string) (e : goalNativeEvidence) : goalNativeEvidence :=
  match decode_event line with
  | Some (action, name) => if String.eqb name test then observe_action action e else e
  | None => e
  end.

(** The complete lines of the pending text, and the rest; [fuel] bounds the lines. *)
Fixpoint observe_lines (fuel : nat) (test : string) (e : goalNativeEvidence) : goalNativeEvidence :=
  match fuel with
  | O => e
  | S fuel =>
    match index_byte (byte 10) (ev_pending e) with
    | None => e
    | Some i => observe_lines fuel test (observe_line test (str_take i (ev_pending e)) (set_pending (str_drop (S i) (ev_pending e)) e))
    end
  end.

Definition evidence_Write (test chunk : string) (e : goalNativeEvidence) : goalNativeEvidence :=
  let pending := ev_pending e +:+ chunk in
  if (goalDiagnosticLimit <? Z.of_nat (String.length pending))%Z then set_invalid e
  else observe_lines (S (String.length pending)) test (set_pending pending e).
End evidence.

(** Run, passed, never skipped or failed, and no line cut off. *)
Definition complete_pass (e : goalNativeEvidence) : bool :=
  ev_run e && ev_pass e && negb (ev_skip e) && negb (ev_invalid e) && String.eqb (ev_pending e) "".

Definition diagnostics_incomplete (e : error) : error := Errorf "verification diagnostics incomplete: %w" [e].

(** * Results *)

Section updates.
Implicit Types (r : GoalVerifyResult).
Definition vr_start (scope : string) : GoalVerifyResult := {|
  vr_DiagnosticPath := ""; vr_SnapshotDigest := ""; vr_SnapshotRoot := ""; vr_Scope := scope; vr_Head := ""; cleanupRoot := ""; vr_Gates := [] |}.
Definition vr_log (path : string) r := {| vr_DiagnosticPath := path; vr_SnapshotDigest := vr_SnapshotDigest r; vr_SnapshotRoot := vr_SnapshotRoot r;
  vr_Scope := vr_Scope r; vr_Head := vr_Head r; cleanupRoot := cleanupRoot r; vr_Gates := vr_Gates r |}.
Definition vr_head (head : string) r := {| vr_DiagnosticPath := vr_DiagnosticPath r; vr_SnapshotDigest := vr_SnapshotDigest r;
  vr_SnapshotRoot := vr_SnapshotRoot r; vr_Scope := vr_Scope r; vr_Head := head; cleanupRoot := cleanupRoot r; vr_Gates := vr_Gates r |}.
Definition vr_digest (digest : string) r := {| vr_DiagnosticPath := vr_DiagnosticPath r; vr_SnapshotDigest := digest;
  vr_SnapshotRoot := vr_SnapshotRoot r; vr_Scope := vr_Scope r; vr_Head := vr_Head r; cleanupRoot := cleanupRoot r; vr_Gates := vr_Gates r |}.
Definition vr_snapshot (root : string) r := {| vr_DiagnosticPath := vr_DiagnosticPath r; vr_SnapshotDigest := vr_SnapshotDigest r;
  vr_SnapshotRoot := root; vr_Scope := vr_Scope r; vr_Head := vr_Head r; cleanupRoot := cleanupRoot r; vr_Gates := vr_Gates r |}.
Definition vr_cleanup (root : string) r := {| vr_DiagnosticPath := vr_DiagnosticPath r; vr_SnapshotDigest := vr_SnapshotDigest r;
  vr_SnapshotRoot := vr_SnapshotRoot r; vr_Scope := vr_Scope r; vr_Head := vr_Head r; cleanupRoot := root; vr_Gates := vr_Gates r |}.
Definition vr_gate (gate : string) r := {| vr_DiagnosticPath := vr_DiagnosticPath r; vr_SnapshotDigest := vr_SnapshotDigest r;
  vr_SnapshotRoot := vr_SnapshotRoot r; vr_Scope := vr_Scope r; vr_Head := vr_Head r; cleanupRoot := cleanupRoot r;
  vr_Gates := vr_Gates r ++ [gate] |}.
End updates.

Definition json_bool (b : bool) : dvalue := DOther (if b then "true" else "false").
Definition no_error (e : option error) : bool := match e with None => true | Some _ => false end.

Section verify.
Context {W : Type} {B : Boundary W} {H : Host W} {D : DiagnosticsCodec} {F : FlowCodec} {T : Toolchain W} {Fs : Files W} {E : EventCodec}.

Definition error_string (e : option error) : string := match e with None => "" | Some e => Error e end.

(** * Running one command *)

Record running := { o_log : goalDiagnostics; o_tail : string; o_native : goalNativeEvidence }.

(** A write of the command: to the records, and to the evidence of a native test. *)
Definition write_output (gate test chunk : string) (st : running) : P (B := B) running :=
  let '(piece, tail) := flush (secrets (o_log st)) (keep (o_log st)) false (o_tail st +:+ chunk) in
  log ← (match piece with Some text => record_output gate text (o_log st) | None => mret (o_log st) end);
  mret {| o_log := log; o_tail := tail; o_native := if String.eqb test "" then o_native st else evidence_Write test chunk (o_native st) |}.

Definition final_flush (gate : string) (st : running) : P (B := B) goalDiagnostics :=
  match fst (flush (secrets (o_log st)) (keep (o_log st)) true (o_tail st)) with
  | Some text => record_output gate text (o_log st)
  | None => mret (o_log st)
  end.

Definition unproven : error := new_error "required native test did not produce a complete executed pass".

(** The error of a command: its own, or the missing evidence of its test. *)
Definition command_error (test : string) (native : goalNativeEvidence) (e : option error) : option error :=
  match e with
  | Some e => Some e
  | None => if String.eqb test "" || complete_pass native then None else Some unproven
  end.

(** [isolate] is how the command is executed. *)
Definition goalRunCommand (c : exec_cmd) (gate : string) (log : goalDiagnostics) (isolate : exec_cmd -> P (B := B) exec_cmd)
    : P (B := B) (goalDiagnostics * option error) :=
  log ← record "command" gate [("argv", DStrings (cmd_Args c)); ("trust", DString "controller_command")] log;
  started ← peek now;
  isolated ← isolate c;
  '(st, e) ← run_command (write_output gate (goalNativeTest c)) isolated {| o_log := log; o_tail := ""; o_native := no_evidence |};
  ended_ ← peek now;
  log ← final_flush gate st;
  let e := command_error (goalNativeTest c) (o_native st) e in
  log ← record "exit" gate [("passed", json_bool (no_error e)); ("error", DString (error_string e));
                            ("duration_ms", DOther (pretty ((ended_ - started) * 1000)%Z))] log;
  mret (log, match d_err log with
             | Some x => Some (diagnostics_incomplete x)
             | None => (fun e => Errorf "%s verification failed: %w" [e]) <$> e
             end).

Definition go_command (dir : string) (args extra : list string) : exec_cmd :=
  {| cmd_Args := "go" :: args; cmd_Dir := dir; cmd_Env := Some (environ ++ extra) |}.

Definition source_commands (root : string) : list exec_cmd :=
  [go_command root ["run"; "github.com/rhysd/actionlint/cmd/actionlint@v1.7.12"] [];
   go_command root ["mod"; "tidy"; "-diff"] [];
   go_command root ["test"; "./codexsdk/internal/codexexec"; "-run"; "^" +:+ boundary_test +:+ "$"; "-count=1"; "-json"] ["LLMGO_NATIVE_GOAL_SANDBOX=1"];
   go_command root ["test"; "./codexsdk/internal/protocolsync"; "-run"; "^" +:+ consistency_test +:+ "$"; "-count=1"; "-json"]
     ["LLMGO_REPAIR_SANDBOX_TEST=1"];
   go_command root ["vet"; "./..."] [];
   go_command root ["test"; "-race"; "./..."] []].

Definition generated_commands (root isolated : string) : list exec_cmd :=
  [go_command (path_join root "codexsdk") ["run"; "./internal/cmd/generatedcheck"] [];
   go_command root ["run"; "./codexsdk/internal/cmd/generatedcheck"; "-module-root"; path_join isolated "codexsdk"; "-write-artifacts"] [];
   go_command isolated ["build"; "./codexsdk/protocolv2"] []].

Definition goalGateCommands (gate root work : string) : P (B := B) (list exec_cmd) :=
  if String.eqb gate "source" then mret (source_commands root)
  else if String.eqb gate "generated" then
    let isolated := path_join work "regenerated" in
    _ ← goalGeneratedInputs root isolated; mret (generated_commands root isolated)
  else if String.eqb gate "live" then mret [go_command root ["run"; "./internal/tools/cmd/livecodex"; "run"] []]
  else if String.eqb gate "provenance" then
    mret [go_command root ["run"; "./codexsdk/internal/cmd/protocolupgrade"; "verify-provenance-offline"; "-repo-root"; root] []]
  else fail (new_error "unknown verification gate").

(** * The sandboxed command *)

Definition native_env (test binary version : string) : list string :=
  if String.eqb test boundary_test then ["LLMGO_NATIVE_GOAL_SANDBOX=1"; "CODEX_BINARY=" +:+ binary; "CODEX_CLI_VERSION=" +:+ version]
  else if String.eqb test consistency_test then ["LLMGO_REPAIR_SANDBOX_TEST=1"] else [].

Definition goalSandboxCommand (s : nativeSandbox) (binary version : string) (c : exec_cmd) : P (B := B) exec_cmd :=
  let dir := if goalNativeCommand c then sb_root s else cmd_Dir c in
  isolated ← sandbox_command s (path_join (path_join (sb_goroot s) "bin") "go") (["-C"; dir] ++ tl (cmd_Args c));
  mret {| cmd_Args := cmd_Args isolated; cmd_Dir := cmd_Dir isolated;
          cmd_Env := Some (default [] (cmd_Env isolated) ++ native_env (goalNativeTest c) binary version) |}.

Definition is_offline (c : exec_cmd) : bool := contains "verify-provenance-offline" (str_join " " (cmd_Args c)).

(** How the local verification executes a command of a gate. *)
Definition local_isolation (s : nativeSandbox) (binary version : string) (c : exec_cmd) : P (B := B) exec_cmd :=
  goalSandboxCommand (if is_offline c then with_upstream s else s) binary version c.

(** * The official source *)

Definition external_path (root p : string) : P (B := B) unit :=
  let bad := new_error "provenance input must be an external path without symlink indirection" in
  real ← replace_err bad (real_path p);
  guard (negb (String.eqb real (path_clean p)) || goalWithin root p || goalWithin p root) bad.

Definition resolved_root (p : string) : P (B := B) string := root ← of_res (Abs p); real_path root.

Definition goalVerifyOfficialSource (req : GoalVerifyRequest) (candidate work : string) (log : goalDiagnostics)
    : P (B := B) (goalDiagnostics * option error) :=
  try! root := resolved_root (gv_RepoRoot req) else log;
  let p := gv_CandidateDir req in
  try! _ := guard (String.eqb p "" || negb (has_prefix "/" p)) (new_error "provenance blocked: rebuilt upstream directory is required") else log;
  try! _ := external_path root p else log;
  let facts := path_join work "rebuilt-source-inputs" in
  try! _ := goalCopySourceFacts p facts else log;
  log ← record "source_compare" "provenance" [("trust", DString "controller_command"); ("upstream", DString "rebuilt target facts")] log;
  compared ← attempt (verifyOfficialSchema candidate facts);
  let e := match compared with Ok _ => None | Err e => Some e end in
  log ← record "source_compare_exit" "provenance" [("passed", json_bool (no_error e)); ("error", DString (error_string e))] log;
  mret (log, match d_err log with Some x => Some (diagnostics_incomplete x) | None => e end).
End verify.

(** * The local verification *)

Section local.
Context {W : Type} {B : Boundary W} {H : Host W} {D : DiagnosticsCodec} {F : FlowCodec} {T : Toolchain W} {Fs : Files W} {E : EventCodec}.
Implicit Types (r : GoalVerifyResult) (log : goalDiagnostics).

Definition answer_v : Type := (goalDiagnostics * GoalVerifyResult) * option error.

(** [Close] *)
Definition close_result r : P (B := B) GoalVerifyResult :=
  if String.eqb (cleanupRoot r) "" then mret r else
  removed ← attempt (host (RemoveAll (cleanupRoot r)));
  mret (match removed with Ok _ => vr_snapshot "" (vr_cleanup "" r) | Err _ => r end).

Definition prepare_cache (req : GoalVerifyRequest) (root snapshot work : string) : P (B := B) unit :=
  _ ← guard (String.eqb (gv_TrustedCacheRoot req) "") (new_error "offline provenance blocked: trusted launcher cache is required");
  cache ← of_res (Abs (gv_TrustedCacheRoot req));
  let bad := new_error "trusted cache must be outside candidate without symlink indirection" in
  real ← replace_err bad (real_path cache);
  _ ← guard (negb (String.eqb real cache) || goalWithin root cache || goalWithin cache root) bad;
  goalPrepareOfflineCache cache snapshot work.

(** The installed runtime and its selected version. *)
Definition native_binary : P (B := B) (string * string) :=
  let version := getenv "CODEX_CLI_VERSION" in
  _ ← guard (String.eqb version "") (new_error "local source blocked: run-selected CODEX_CLI_VERSION is required");
  binary ← replace_err (new_error "local source blocked: installed Codex prerequisite unavailable")
             (look_path (if String.eqb (getenv "CODEX_BINARY") "" then "codex" else getenv "CODEX_BINARY"));
  binary ← real_path binary;
  mret (binary, version).

(** What a local gate runs in: the sandbox, the binary and its version. *)
Definition confinement : Type := nativeSandbox * (string * string).

Definition add_tools (work : string) (s : nativeSandbox) : nativeSandbox :=
  let tools := path_join work "rust-tools" in with_path tools (with_readonly [tools] s).

Definition prepare_sandbox (req : GoalVerifyRequest) (gates : list string) (root snapshot work : string) : P (B := B) confinement :=
  let provenance := mem "provenance" gates in
  _ ← (if provenance then prepare_cache req root snapshot work else mret tt);
  let retained := path_join work "readonly-inputs" in
  _ ← host (MkdirAll retained);
  _ ← host (MkdirAll (upstream_cache snapshot));
  s ← newNativeSandbox snapshot retained;
  let s := if provenance then add_tools work s else s in
  if mem "source" gates then
    '(binary, version) ← native_binary;
    s ← goalNativeRuntimeInputs s binary;
    mret (s, (binary, version))
  else mret (s, ("", "")).

(** The copy still has the digest it was frozen with. *)
Definition frozen (snapshot before message : string) : P (B := B) unit :=
  digest ← replace_err (new_error message) (goalSnapshot snapshot "");
  guard (negb (String.eqb digest before)) (new_error message).

Fixpoint run_commands (isolate : exec_cmd -> P (B := B) exec_cmd) (check : P (B := B) unit) (gate : string) (commands : list exec_cmd) log
    : P (B := B) (goalDiagnostics * option error) :=
  match commands with
  | [] => mret (log, None)
  | c :: rest =>
    '(log, e) ← goalRunCommand c gate log isolate;
    match e with
    | Some e => mret (log, Some e)
    | None => try! _ := check else log; run_commands isolate check gate rest log
    end
  end.

(** What the provenance gate adds. *)
Definition official (req : GoalVerifyRequest) (gate snapshot before work : string) log : P (B := B) (goalDiagnostics * option error) :=
  if negb (String.eqb gate "provenance") then mret (log, None) else
  '(log, e) ← goalVerifyOfficialSource req snapshot work log;
  match e with
  | Some e => mret (log, Some e)
  | None => try! _ := frozen snapshot before "contract verification changed frozen candidate" else log; mret (log, None)
  end.

Definition run_gate (req : GoalVerifyRequest) (box : confinement) (snapshot before gate : string) log : P (B := B) (goalDiagnostics * option error) :=
  try! _ := ended CallCtx else log;
  try! commands := goalGateCommands gate snapshot (sb_work (fst box)) else log;
  '(log, e) ← run_commands (local_isolation (fst box) (fst (snd box)) (snd (snd box)))
                (frozen snapshot before "verification changed frozen candidate") gate commands log;
  match e with
  | Some e => mret (log, Some e)
  | None => official req gate snapshot before (sb_work (fst box)) log
  end.

Fixpoint run_gates (req : GoalVerifyRequest) (box : confinement) (snapshot before : string) (gates : list string) log r : P (B := B) answer_v :=
  match gates with
  | [] => mret ((log, r), None)
  | gate :: rest =>
    '(log, e) ← run_gate req box snapshot before gate log;
    match e with
    | Some e => mret ((log, r), Some e)
    | None => run_gates req box snapshot before rest log (vr_gate gate r)
    end
  end.

(** The deferred look at the candidate itself. *)
Definition revalidated (root before : string) (m : P (B := B) answer_v) : P (B := B) answer_v :=
  '(x, e) ← m;
  after_ ← attempt (goalSnapshot root "");
  mret (x, match after_ with
           | Err bad => errors_join [e; Some (Errorf "candidate revalidation unavailable: %w" [bad])]
           | Ok digest => if String.eqb digest before then e
                          else errors_join [e; Some (new_error "candidate changed during verification")]
           end).

Definition measured_in (req : GoalVerifyRequest) (gates : list string) (root work : string) log r : P (B := B) answer_v :=
  let r := vr_cleanup work r in
  let snapshot := path_join work "candidate" in
  try! before := goalSnapshot root snapshot else (log, r);
  let r := vr_snapshot snapshot (vr_digest before r) in
  log ← record "snapshot" "" [("sha256", DString before); ("gates", DStrings gates)] log;
  try! box := prepare_sandbox req gates root snapshot work else (log, r);
  revalidated root before (run_gates req box snapshot before gates log r).

Definition measured (req : GoalVerifyRequest) (gates : list string) (root : string) log r : P (B := B) answer_v :=
  try! work := host (MkdirTemp "llm-go-verify-snapshot-") else (log, r);
  measured_in req gates root work log r.

Definition footer (kind gate : string) (fields : GoalVerifyResult -> list (string * dvalue)) (m : P (B := B) answer_v)
    : P (B := B) (GoalVerifyResult * option error) :=
  '((log, r), e) ← m;
  log ← record kind gate (fields r ++ [("complete", json_bool (no_error (d_err log))); ("passed", json_bool (no_error e)); ("error", DString (error_string e))]) log;
  closed ← attempt (host (Close (d_file log)));
  let broken := match d_err log, closed with None, Err x => Some x | x, _ => x end in
  mret (r, match broken with Some x => Some (diagnostics_incomplete x) | None => e end).

Definition local_fields r : list (string * dvalue) :=
  [("head_sha", DString (vr_Head r)); ("snapshot_sha256", DString (vr_SnapshotDigest r)); ("scope", DString (vr_Scope r)); ("gates", DStrings (vr_Gates r))].

Definition diagnostics_dir (pattern dir : string) : P (B := B) string :=
  dir ← (if String.eqb dir "" then host (MkdirTemp pattern) else (_ ← host (MkdirAll dir); mret dir));
  of_res (Abs dir).

Definition git_head (root : string) : P (B := B) string := out ← gitOutput ["-C"; root; "rev-parse"; "HEAD"]; mret (trim_space out).

Definition verify_in (req : GoalVerifyRequest) : P (B := B) (GoalVerifyResult * option error) :=
  let r := vr_start "local" in
  try! gates := of_res (selected_gates (gv_Gate req)) else r;
  try! root := resolved_root (gv_RepoRoot req) else r;
  try! dir := diagnostics_dir "llm-go-verification-" (gv_DiagnosticDir req) else r;
  let linked := new_error "diagnostic directory must not be a symlink" in
  try! real := replace_err linked (real_path dir) else r;
  try! _ := guard (negb (String.eqb real dir)) linked else r;
  try! _ := guard (goalWithin root dir) (new_error "diagnostic directory must be outside candidate") else r;
  try! log := newGoalDiagnostics environ dir else r;
  let r := vr_log (d_file log) r in
  head ← attempt (git_head root);
  match head with
  | Err e => _ ← attempt (host (Close (d_file log))); mret (r, Some e)
  | Ok head =>
    let r := vr_head head r in
    log ← record "header" "" [("head_sha", DString head); ("scope", DString (vr_Scope r)); ("gates", DStrings gates)] log;
    footer "footer" "" local_fields (measured req gates root log r)
  end.

(** The frozen copy outlives a verification only when it passed. *)
Definition VerifyGoal (req : GoalVerifyRequest) : P (B := B) (GoalVerifyResult * option error) :=
  '(r, e) ← verify_in req;
  match e with
  | None => mret (r, None)
  | Some e => r ← close_result r; mret (r, Some e)
  end.

(** * The same gates in CI *)

Definition ci_gates : list string := ["source"; "generated"; "provenance"; "live"].

Definition ci_unchanged (root head before : string) : P (B := B) unit :=
  after_ ← attempt (goalSnapshot root "");
  now_head ← attempt (git_head root);
  match after_, now_head with
  | Ok digest, Ok h =>
    _ ← guard (negb (String.eqb h head) || negb (String.eqb digest before)) (new_error "CI gate changed exact candidate");
    AssertCleanIn root
  | _, _ => fail (new_error "CI candidate revalidation unavailable")
  end.

(** The sandbox of the native tests of the source gate. *)
Definition ci_boundary (root work : string) : P (B := B) (nativeSandbox * string) :=
  let snapshot := path_join work "native-boundary" in
  _ ← goalSnapshot root snapshot;
  let retained := path_join work "retained" in
  _ ← host (MkdirAll retained);
  _ ← host (MkdirAll (upstream_cache snapshot));
  s ← newNativeSandbox snapshot retained;
  binary ← replace_err (new_error "CI source requires the installed native runtime")
             (look_path (if String.eqb (getenv "CODEX_BINARY") "" then "codex" else getenv "CODEX_BINARY"));
  s ← goalNativeRuntimeInputs s binary;
  mret (s, binary).

Definition ci_isolation (box : option (nativeSandbox * string)) (c : exec_cmd) : P (B := B) exec_cmd :=
  match box with
  | Some (s, binary) => if goalNativeCommand c then goalSandboxCommand s binary (getenv "CODEX_CLI_VERSION") c else mret c
  | None => mret c
  end.

Definition ci_provenance (root : string) : exec_cmd := {|
  cmd_Args := ["go"; "run"; "./codexsdk/internal/cmd/protocolupgrade"; "sync"; "-repo-root"; root; "-module-root"; path_join root "codexsdk";
               "-upstream-repo"; defaultRemote; "-force-compare"; "-validation-only"];
  cmd_Dir := root; cmd_Env := None |}.

Definition with_facts (dir : string) (req : GoalVerifyRequest) : GoalVerifyRequest := {|
  gv_RepoRoot := gv_RepoRoot req; gv_DiagnosticDir := gv_DiagnosticDir req; gv_Gate := gv_Gate req; gv_TrustedCacheRoot := gv_TrustedCacheRoot req;
  gv_BaseRoot := gv_BaseRoot req; gv_CandidateDir := dir; gv_OriginalBaseRoot := gv_OriginalBaseRoot req |}.

Definition ci_official (req : GoalVerifyRequest) (root work : string) log : P (B := B) (goalDiagnostics * option error) :=
  if negb (String.eqb (gv_Gate req) "provenance") then mret (log, None) else
  try! dir := goalFreshCISourceFacts root work else log;
  goalVerifyOfficialSource (with_facts dir req) root work log.

Definition ci_run (req : GoalVerifyRequest) (root work head before : string) (box : option (nativeSandbox * string)) log r : P (B := B) answer_v :=
  try! commands := goalGateCommands (gv_Gate req) root work else (log, r);
  let commands := if String.eqb (gv_Gate req) "provenance" then [ci_provenance root] else commands in
  '(log, e) ← run_commands (ci_isolation box) (ci_unchanged root head before) (gv_Gate req) commands log;
  match e with
  | Some e => mret ((log, r), Some e)
  | None =>
    '(log, e) ← ci_official req root work log;
    match e with Some e => mret ((log, r), Some e) | None => mret ((log, vr_gate (gv_Gate req) r), None) end
  end.

Definition ci_boxed (req : GoalVerifyRequest) (root work head before : string) log r : P (B := B) answer_v :=
  if String.eqb (gv_Gate req) "source" then
    try! box := ci_boundary root work else (log, r);
    log ← record "native_boundary" "source" [("passed", json_bool true); ("trust", DString "controller_native_probe")] log;
    ci_run req root work head before (Some box) log r
  else ci_run req root work head before None log r.

Definition ci_revalidated (root head before : string) (m : P (B := B) answer_v) : P (B := B) answer_v :=
  '(x, e) ← m;
  same ← attempt (ci_unchanged root head before);
  mret (x, errors_join [e; match same with Ok _ => None | Err e => Some e end]).

Definition ci_measured (req : GoalVerifyRequest) (root head before : string) log r : P (B := B) answer_v :=
  try! work := host (MkdirTemp "llm-go-ci-gate-") else (log, r);
  finally (ci_revalidated root head before (ci_boxed req root work head before log r)) (remove_all work).

Definition ci_fields r : list (string * dvalue) :=
  [("head", DString (vr_Head r)); ("snapshot_sha256", DString (vr_SnapshotDigest r)); ("scope", DString "ci")].

Definition VerifyCIGate (req : GoalVerifyRequest) : P (B := B) (GoalVerifyResult * option error) :=
  let r := vr_start "ci" in
  try! _ := guard (negb (mem (gv_Gate req) ci_gates)) (new_error "CI verification requires one explicit gate") else r;
  try! root := resolved_root (gv_RepoRoot req) else r;
  try! _ := AssertCleanIn root else r;
  try! head := git_head root else r;
  let r := vr_head head r in
  try! before := goalSnapshot root "" else r;
  let r := vr_digest before r in
  try! dir := diagnostics_dir "llm-go-ci-diagnostics-" (gv_DiagnosticDir req) else r;
  let bad := new_error "CI diagnostics must be outside checkout without symlinks" in
  try! real := replace_err bad (real_path dir) else r;
  try! _ := guard (negb (String.eqb real dir) || goalWithin root dir) bad else r;
  try! log := newGoalDiagnostics environ dir else r;
  let r := vr_log (d_file log) r in
  log ← record "ci_identity" (gv_Gate req) [("head", DString head); ("snapshot_sha256", DString before); ("scope", DString "ci")] log;
  footer "ci_result" (gv_Gate req) ci_fields (ci_measured req root head before log r).
End local.
