(* ===== verification/Verified.v ===== *)
(** What a passed verification rests on, what it may execute, and why the
    evidence of a native test does not depend on how its output was cut.  The
    definitions are those of [GoalVerify]. *)

From Stdlib Require Import Ascii.
From S2P Require Import Prelude GoStrings Policy Scope Resolve PublicationText Checks Boundary Inspection Goal GoalSnapshot Rebinding GoalPublication Desk GoalIntents GoalDiagnostics GoalProgress GoalFlow GoalAcceptance GoalHandoff GoalPrepare Sandbox GateInputs GoalVerify.

Local Open Scope string_scope.
Local Open Scope list_scope.
Local Open Scope goal_scope.

(** * Executions along a relation *)

(** Steps of a relation that holds of every execution that is allowed, and does
    not look at the world. *)
Class Execs {W} {B : Boundary W} {H : Host W} (R : flow (B := B) -> flow (B := B) -> Prop) (allowed : list string -> list string -> Prop) := {
  exec_quiet :: Quiet (fun _ => True) R;
  exec_world s w : R s {| world := w; log := log s |};
  exec_emit env argv out : allowed env argv -> along R (emit (Performed (Execute env argv) out))
}.

Definition go_env : list string := ["go"; "env"; "GOMODCACHE"].

(** What a sandboxed command is given besides the environment of its sandbox. *)
Definition allowances {W} {T : Toolchain W} (snapshot : string) (allowed : list string -> list string -> Prop) : Prop :=
  allowed (repairEnvironment environ) go_env /\
  forall s hidden program args test binary version, sb_root s = snapshot ->
    allowed (sandbox_env s ++ native_env test binary version) (sandbox_argv s hidden program args).

Section along.
Context {W : Type} {B : Boundary W} {H : Host W} {D : DiagnosticsCodec} {F : FlowCodec} {T : Toolchain W} {Fs : Files W} {E : EventCodec}.
Context (R : flow (B := B) -> flow (B := B) -> Prop) (allowed : list string -> list string -> Prop) {X : Execs R allowed}.
#[local] Instance quiet_x : Quiet (fun _ => True) R := exec_quiet.
#[local] Instance order_x : PreOrder R := quiet_order.
Definition host_along call := quiet_host (Quiet := quiet_x) call.
Definition run_along args input := quiet_run (Quiet := quiet_x) args input.
#[local] Hint Resolve order_x host_along run_along : quieting.

Lemma drive_along {S} (write : string -> S -> P (B := B) S) p st : (forall chunk st, along R (write chunk st)) -> along R (drive write p st).
Proof.
  intros Hw. revert st. induction p as [e|chunk next IH|step next IH]; intros st; cbn [drive]; [quieted..|].
  intros s r s' Hr. cbv zeta in Hr. apply IH in Hr. etransitivity; [apply (exec_world s (step (world s))) | exact Hr].
Qed.

Lemma execute_along {S} (write : string -> S -> P (B := B) S) c st : allowed (default environ (cmd_Env c)) (cmd_Args c) ->
  (forall chunk st, along R (write chunk st)) -> along R (run_command write c st).
Proof.
  intros Ha Hw. unfold run_command. pose proof (fun p st => drive_along write p st Hw) as Hd.
  pose proof (fun out => exec_emit _ _ out Ha) as He. quieted.
Qed.

Lemma output_along c : allowed (default environ (cmd_Env c)) (cmd_Args c) -> along R (output c).
Proof. intros Ha. unfold output. pose proof (fun w st Hw => execute_along (S := string) w c st Ha Hw). quieted. Qed.

Lemma walk_along {S} (visit : walked -> S -> P (B := B) (S * bool)) root st : (forall e st, along R (visit e st)) -> along R (WalkDir root visit st).
Proof.
  intros Hv. unfold WalkDir. apply along_bind; [apply _ | quieted |]. intros l. generalize (None : option string). revert st.
  induction l as [|e l IH]; intros st skipped; cbn [walk_from]; quieted.
Qed.

Lemma goalCopyCache_along source destination : along R (goalCopyCache source destination).
Proof.
  unfold goalCopyCache. assert (forall e st, along R (copy_entry source destination e st)) as Hv by (intros; unfold copy_entry; quieted).
  pose proof (fun root st => walk_along _ root st Hv). quieted.
Qed.
Lemma goalGeneratedInputs_along root destination : along R (goalGeneratedInputs root destination).
Proof. unfold goalGeneratedInputs. apply walk_along. intros. unfold copy_input. quieted. Qed.
Lemma officialSchemaTree_along root : along R (officialSchemaTree root).
Proof. unfold officialSchemaTree. apply walk_along. intros. unfold official_entry. quieted. Qed.
#[local] Hint Resolve goalCopyCache_along goalGeneratedInputs_along officialSchemaTree_along : quieting.

Lemma resolve_cached_along cache req : along R (resolve_cached cache req).
Proof. apply along_still; [apply _|]. by intros s r s' [_ ->]%of_res_inv. Qed.
#[local] Hint Resolve resolve_cached_along : quieting.
Lemma goalCheckUpstreamCache_along root cache : along R (goalCheckUpstreamCache root cache).
Proof. unfold goalCheckUpstreamCache, load_baseline. quieted. Qed.
Lemma copy_caches_along from to names : along R (copy_caches from to names).
Proof. induction names; cbn [copy_caches]; quieted. Qed.
Lemma link_tools_along tools names : along R (link_tools tools names).
Proof. induction names; cbn [link_tools]; quieted. Qed.
Lemma no_credentials_along from names : along R (no_credentials from names).
Proof. induction names; cbn [no_credentials]; quieted. Qed.
Lemma copy_facts_along source destination names : along R (copy_facts source destination names).
Proof. induction names; cbn [copy_facts]; quieted. Qed.
#[local] Hint Resolve goalCheckUpstreamCache_along copy_caches_along link_tools_along no_credentials_along copy_facts_along : quieting.
Lemma goalPrepareOfflineCache_along from snapshot work : along R (goalPrepareOfflineCache from snapshot work).
Proof. unfold goalPrepareOfflineCache, install_rustup, look_path, real_path, runGit. quieted. Qed.
Lemma NativeGoalRuntimePaths_along binary : along R (NativeGoalRuntimePaths binary).
Proof. unfold NativeGoalRuntimePaths, node_dirs, look_path, real_path. quieted. Qed.
Lemma add_runtime_files_along paths s : along R (add_runtime_files paths s).
Proof. revert s. induction paths; intros s; cbn [add_runtime_files]; unfold real_path; quieted. Qed.
#[local] Hint Resolve goalPrepareOfflineCache_along NativeGoalRuntimePaths_along add_runtime_files_along : quieting.
Lemma goalNativeRuntimeInputs_along s binary : along R (goalNativeRuntimeInputs s binary).
Proof. unfold goalNativeRuntimeInputs. quieted. Qed.
Lemma goalCopySourceFacts_along source destination : along R (goalCopySourceFacts source destination).
Proof. unfold goalCopySourceFacts. quieted. Qed.
Lemma verifyOfficialSchema_along candidate rebuilt : along R (verifyOfficialSchema candidate rebuilt).
Proof. unfold verifyOfficialSchema, load_baseline, official_commit. quieted. Qed.
#[local] Hint Resolve goalNativeRuntimeInputs_along goalCopySourceFacts_along verifyOfficialSchema_along : quieting.
Lemma snapshot_along root destination : along R (goalSnapshot root destination).
Proof. exact (goalSnapshot_quiet (fun _ => True) R root destination (or_intror I)). Qed.
Lemma record_along kind gate value log : along R (record kind gate value log).
Proof. unfold record. quieted. Qed.
#[local] Hint Resolve snapshot_along record_along : quieting.
Lemma goalVerifyOfficialSource_along req candidate work log : along R (goalVerifyOfficialSource req candidate work log).
Proof. unfold goalVerifyOfficialSource, resolved_root, external_path, real_path. quieted. Qed.
Lemma newGoalDiagnostics_along entries dir : along R (newGoalDiagnostics entries dir).
Proof. unfold newGoalDiagnostics. quieted. Qed.
Lemma goalGateCommands_along gate root work : along R (goalGateCommands gate root work).
Proof. unfold goalGateCommands. quieted. Qed.
Lemma write_output_along gate test chunk st : along R (write_output gate test chunk st).
Proof. unfold write_output, record_output. quieted. Qed.
Lemma final_flush_along gate st : along R (final_flush gate st).
Proof. unfold final_flush, record_output. quieted. Qed.
#[local] Hint Resolve goalVerifyOfficialSource_along newGoalDiagnostics_along goalGateCommands_along write_output_along final_flush_along : quieting.

(** A way to execute commands of which every result is allowed. *)
Definition sound (isolate : exec_cmd -> P (B := B) exec_cmd) : Prop := forall c s r s', isolate c s = Some (r, s') ->
  R s s' /\ forall c', r = Ok c' -> allowed (default environ (cmd_Env c')) (cmd_Args c').

Lemma goalRunCommand_along c gate log isolate : sound isolate -> along R (goalRunCommand c gate log isolate).
Proof.
  intros Hs. assert (along R (isolate c)) as Hi by (intros s r s' Hr; by apply Hs in Hr as [? _]).
  unfold goalRunCommand. apply along_bind; [apply _ | quieted |]. intros log1. apply along_bind; [apply _ | quieted |]. intros started.
  apply along_bind_run; [apply _ | done |]. intros c' s s' Hc. apply Hs in Hc as [_ Ha]. specialize (Ha c' eq_refl).
  pose proof (fun w st Hw => execute_along (S := running) w c' st Ha Hw) as He.
  apply along_bind; [apply _ | apply He; quieted |]. quieted.
Qed.
Lemma run_commands_along isolate check gate commands log : sound isolate -> along R check -> along R (run_commands isolate check gate commands log).
Proof.
  intros Hs Hc. revert log. induction commands as [|c commands IH]; intros log; cbn [run_commands]; [quieted|].
  pose proof (fun log => goalRunCommand_along c gate log isolate Hs). quieted.
Qed.

(** ** The sandbox of a snapshot *)

Context (snapshot : string) (Ha : allowances snapshot allowed).

Lemma sandbox_command_inv s program args st c st' : sandbox_command s program args st = Some (Ok c, st') -> st' = st /\
  exists hidden, c = {| cmd_Args := sandbox_argv s hidden program args; cmd_Dir := ""; cmd_Env := Some (sandbox_env s) |}.
Proof. unfold sandbox_command. intros Hr. pstep Hr. unfold peek in H0. injection H0 as <- <-. injection Hr as <- <-. eauto. Qed.

Lemma proveBoundary_along s : sb_root s = snapshot -> along R (proveBoundary s).
Proof.
  intros Hs. assert (forall name head forbidden secret positive, along R (boundary_run s name head forbidden secret positive)) as Hb.
  { intros. unfold boundary_run. apply along_bind_run; [apply _ | unfold sandbox_command; quieted |].
    intros c st st' [_ (hidden & ->)]%sandbox_command_inv. apply along_bind; [apply _ | apply along_wrap, output_along | quieted]. cbn.
    pose proof (proj2 Ha (with_readonly [name] s) hidden "/bin/sh" ["-c"; boundary_script; "boundary"; name; head; forbidden; secret; positive] "" "" "" Hs)
      as Hx. by rewrite app_nil_r in Hx. }
  unfold proveBoundary, prove_with, boundary_observed, still_holds, remove_quietly, remove_all. quieted.
Qed.

Lemma newNativeSandbox_along retained : along R (newNativeSandbox snapshot retained).
Proof.
  unfold newNativeSandbox. apply along_bind; [apply _ | quieted |]. intros _. apply along_bind; [apply _ | quieted |]. intros _.
  apply along_bind; [apply _ | apply output_along, (proj1 Ha) |]. intros modules. cbv zeta.
  assert (forall paths, along R (make_all paths)) as Hm by (induction paths; cbn [make_all]; quieted).
  pose proof proveBoundary_along as Hp. apply along_bind; [apply _ | quieted |]. intros _. apply along_bind; [apply _ | by apply Hp | quieted].
Qed.

Lemma goalSandboxCommand_sound (pick : exec_cmd -> nativeSandbox) binary version : (forall c, sb_root (pick c) = snapshot) ->
  sound (fun c => goalSandboxCommand (pick c) binary version c).
Proof.
  intros Hp c s r s' Hr. unfold goalSandboxCommand in Hr. cbv zeta in Hr.
  apply P_bind_inv in Hr as [(c' & s1 & [-> (hidden & ->)]%sandbox_command_inv & [= <- <-])|(e & Hr & ->)].
  - split; [done|]. intros c' [= <-]. cbn. by apply (proj2 Ha).
  - unfold sandbox_command in Hr. apply P_bind_inv in Hr as [(x & s1 & _ & [=])|(x & [=] & _)].
Qed.

Lemma local_isolation_sound s binary version : sb_root s = snapshot -> sound (local_isolation s binary version).
Proof.
  intros Hs. apply (goalSandboxCommand_sound (fun c => if is_offline c then with_upstream s else s)). intros c. by destruct (is_offline c).
Qed.

Lemma newNativeSandbox_root retained st s st' : newNativeSandbox snapshot retained st = Some (Ok s, st') -> sb_root s = snapshot.
Proof. unfold newNativeSandbox. cbv zeta. intros Hr. do 5 pstep Hr. by injection Hr as <- <-. Qed.

Lemma add_runtime_files_root paths s st s2 st' : add_runtime_files paths s st = Some (Ok s2, st') -> sb_root s2 = sb_root s.
Proof.
  revert s st. induction paths as [|p paths IH]; intros s st Hr; cbn [add_runtime_files] in Hr; [by injection Hr as <- <-|].
  pstep Hr. apply IH in Hr as ->. by destruct (String.eqb a p).
Qed.
Lemma goalNativeRuntimeInputs_root s binary st s2 st' : goalNativeRuntimeInputs s binary st = Some (Ok s2, st') -> sb_root s2 = sb_root s.
Proof. unfold goalNativeRuntimeInputs. cbv zeta. intros Hr. pstep Hr. by apply add_runtime_files_root in Hr as ->. Qed.

Lemma prepare_sandbox_root req gates root work st box st' :
  prepare_sandbox req gates root snapshot work st = Some (Ok box, st') -> sb_root (fst box) = snapshot.
Proof.
  unfold prepare_sandbox. cbv zeta. intros Hr. do 4 pstep Hr. apply newNativeSandbox_root in H3.
  assert (sb_root (if mem "provenance" gates then add_tools work a2 else a2) = snapshot) as Hs by (by destruct (mem _ _)).
  destruct (mem "source" gates); [|by injection Hr as <- <-]. pstep Hr. destruct a3 as [binary version]. pstep Hr.
  injection Hr as <- <-. apply goalNativeRuntimeInputs_root in H5. cbn. congruence.
Qed.

Lemma prepare_sandbox_along req gates root work : along R (prepare_sandbox req gates root snapshot work).
Proof.
  pose proof newNativeSandbox_along as Hn. unfold prepare_sandbox, prepare_cache, native_binary, look_path, real_path. quieted.
Qed.
#[local] Hint Resolve prepare_sandbox_along : quieting.

Lemma run_gate_along req box before gate log : sb_root (fst box) = snapshot -> along R (run_gate req box snapshot before gate log).
Proof.
  intros Hs. unfold run_gate, official, frozen.
  pose proof (fun check gate commands log => run_commands_along _ check gate commands log (local_isolation_sound _ (fst (snd box)) (snd (snd box)) Hs)) as Hc.
  apply along_caught; [apply _ | quieted |]. intros _. apply along_caught; [apply _ | quieted |]. intros commands.
  apply along_bind; [apply _ | apply Hc; unfold frozen; quieted | quieted].
Qed.
Lemma run_gates_along req box before gates log r : sb_root (fst box) = snapshot -> along R (run_gates req box snapshot before gates log r).
Proof.
  intros Hs. pose proof (fun before gate log => run_gate_along req box before gate log Hs).
  revert log r. induction gates; intros log r; cbn [run_gates]; quieted.
Qed.
Lemma revalidated_along root before m : along R m -> along R (revalidated root before m).
Proof. intros Hm. unfold revalidated. quieted. Qed.
End along.

Section whole.
Context {W : Type} {B : Boundary W} {H : Host W} {D : DiagnosticsCodec} {F : FlowCodec} {T : Toolchain W} {Fs : Files W} {E : EventCodec}.
Context (R : flow (B := B) -> flow (B := B) -> Prop) (allowed : list string -> list string -> Prop) {X : Execs R allowed}.
#[local] Instance quiet_w : Quiet (fun _ => True) R := exec_quiet.
#[local] Instance order_w : PreOrder R := quiet_order.
#[local] Hint Resolve order_w host_along run_along : quieting.

Lemma measured_in_along req gates root work log r : allowances (path_join work "candidate") allowed ->
  along R (measured_in req gates root work log r).
Proof.
  intros Ha. unfold measured_in. cbv zeta. pose proof (snapshot_along R allowed) as Hsn. pose proof (record_along R allowed) as Hre.
  apply along_caught; [apply _ | apply Hsn |]. intros before. apply along_bind; [apply _ | apply Hre |]. intros log1.
  apply along_caught_run; [apply _ | by apply (prepare_sandbox_along R allowed) |]. intros box s s' Hb%prepare_sandbox_root.
  by apply (revalidated_along R allowed), (run_gates_along R allowed).
Qed.

(** A verification, given the part that runs in its temporary directory. *)
Lemma VerifyGoal_along req : (forall gates root log r, along R (measured req gates root log r)) -> along R (VerifyGoal req).
Proof.
  intros Hm. pose proof (record_along R allowed). pose proof (newGoalDiagnostics_along R allowed).
  unfold VerifyGoal, close_result, verify_in, footer, git_head, resolved_root, diagnostics_dir, real_path. quieted.
Qed.
End whole.

(** * What a verification executes *)

Section confined.
Context {W : Type} {B : Boundary W} {H : Host W} {D : DiagnosticsCodec} {F : FlowCodec} {T : Toolchain W} {Fs : Files W} {E : EventCodec}.

(** [go env], or a command in a sandbox that can change no more than a snapshot
    and its own work directory, with no other environment than that of the sandbox. *)
Definition isolated (snapshot : string) (env argv : list string) : Prop :=
  env = repairEnvironment environ /\ argv = go_env \/
  exists s hidden program args test binary version, sb_root s = snapshot /\ argv = sandbox_argv s hidden program args /\
    env = sandbox_env s ++ native_env test binary version.

Lemma isolated_allowances snapshot : allowances snapshot (isolated snapshot).
Proof. split; [by left|]. intros s hidden program args test binary version Hs. right. by exists s, hidden, program, args, test, binary, version. Qed.

(** What happened between two states, newest first. *)
Definition between (s s' : flow (B := B)) (Q : list (event (B := B)) -> Prop) : Prop := exists l, log s' = l ++ log s /\ Q l.

Definition executed_by (allowed : list string -> list string -> Prop) (e : event (B := B)) : Prop :=
  match e with Performed (Execute env argv) _ => allowed env argv | _ => True end.

(** Every execution is allowed. *)
Definition executes (allowed : list string -> list string -> Prop) (s s' : flow (B := B)) : Prop := between s s' (Forall (executed_by allowed)).

#[export] Instance executes_order allowed : PreOrder (executes allowed).
Proof.
  split; [intros s; by exists []|]. intros s1 s2 s3 (l1 & E1 & H1) (l2 & E2 & H2). exists (l2 ++ l1).
  split; [by rewrite E2, E1, app_assoc | by apply Forall_app].
Qed.

Lemma executes_emits {A} allowed (m : P (B := B) A) : emits (executed_by allowed) m -> along (executes allowed) m.
Proof. intros Hm s r s' (l & El & Hl)%Hm. by exists l. Qed.

#[export] Instance executes_quiet allowed : Quiet (fun _ => True) (executes allowed).
Proof.
  split.
  7-9: done.
  - apply _.
  - intros s s' (l & El & _) e He. rewrite El. set_solver.
  - intros args input _. apply executes_emits. by apply emits_run.
  - intros path. apply executes_emits. by apply emits_request.
  - intros req. apply executes_emits. by apply emits_resolve.
  - intros call Hc. apply executes_emits, emits_host. by destruct call.
Qed.

#[export] Instance executes_execs allowed : Execs (executes allowed) allowed.
Proof.
  split; [apply _ | intros s w; by exists [] |]. intros env argv out Ha s r s' [= _ <-]. eexists [_]. split; [done|]. by repeat constructor.
Qed.

(** Every execution is one of a snapshot below a directory made on the way. *)
Definition confined (s s' : flow (B := B)) : Prop := between s s' (fun l => forall env argv out, Performed (Execute env argv) out ∈ l ->
  exists work, Performed (MkdirTemp "llm-go-verify-snapshot-") (Ok work) ∈ l /\ isolated (path_join work "candidate") env argv).

#[export] Instance confined_order : PreOrder confined.
Proof.
  split; [intros s; exists []; split; [done | set_solver]|]. intros s1 s2 s3 (l1 & E1 & H1) (l2 & E2 & H2). exists (l2 ++ l1).
  split; [by rewrite E2, E1, app_assoc|]. intros env argv out [Hi|Hi]%elem_of_app; [apply H2 in Hi | apply H1 in Hi]; destruct Hi as (work & ? & ?);
    exists work; set_solver.
Qed.

Lemma executes_confined s s' : executes (fun _ _ => False) s s' -> confined s s'.
Proof. intros (l & El & Hl). exists l. split; [done|]. intros env argv out Hin. rewrite Forall_forall in Hl. by apply Hl in Hin. Qed.

#[export] Instance confined_quiet : Quiet (fun _ => True) confined.
Proof.
  split.
  7-9: done.
  - apply _.
  - intros s s' (l & El & _) e He. rewrite El. set_solver.
  - intros args input Hp s r s' Hr. by apply executes_confined, (quiet_run (Quiet := executes_quiet _) _ _ Hp _ _ _ Hr).
  - intros path s r s' Hr. by apply executes_confined, (quiet_get (Quiet := executes_quiet _) _ _ _ _ Hr).
  - intros req s r s' Hr. by apply executes_confined, (quiet_resolve (Quiet := executes_quiet _) _ _ _ _ Hr).
  - intros call Hc s r s' Hr. by apply executes_confined, (quiet_host (Quiet := executes_quiet _) _ Hc _ _ _ Hr).
Qed.

#[export] Instance confined_execs : Execs confined (fun _ _ => False).
Proof. split; [apply _ | intros s w; exists []; split; [done | set_solver] | done]. Qed.

Lemma measured_confined req gates root log r : along confined (measured req gates root log r).
Proof.
  intros s x s' Hr. unfold measured in Hr. apply caught_inv in Hr as [(work & s1 & Hm & Hr)|(e & Hm & _)].
  2: { revert Hm. exact (quiet_host (Quiet := confined_quiet) (MkdirTemp "llm-go-verify-snapshot-") I _ _ _). }
  apply (measured_in_along (executes (isolated (path_join work "candidate"))) _) in Hr as (l & El & Hl); [|apply isolated_allowances].
  unfold host in Hm. destruct (perform _ _) as [out w]. injection Hm as -> <-. exists (l ++ [Performed (MkdirTemp "llm-go-verify-snapshot-") (Ok work)]).
  split; [rewrite El; cbn; by rewrite <- app_assoc|].
  intros env argv out [Hin|Hin]%elem_of_app; [|set_solver]. exists work. split; [set_solver|]. rewrite Forall_forall in Hl. by apply Hl in Hin.
Qed.

(** C17: However a local verification ends, the only programs it executes besides git are [go env] and commands inside the sandbox of a snapshot that this run made in a fresh temporary directory, with the environment of the sandbox and nothing more than the selected native binary and its version: no command of the candidate ever runs outside it or sees a credential of the caller. *)
Theorem VerifyGoal_confined req s x s' (Hr : VerifyGoal req s = Some (x, s')) : confined s s'.
Proof. exact (VerifyGoal_along confined _ req (measured_confined req) _ _ _ Hr). Qed.
End confined.

(** * What a passed verification rests on *)

Section passed.
Context {W : Type} {B : Boundary W} {H : Host W} {D : DiagnosticsCodec} {F : FlowCodec} {T : Toolchain W} {Fs : Files W} {E : EventCodec}.

#[export] Instance after_execs : Execs (B := B) after (fun _ _ => True).
Proof.
  split; [apply _ | intros s w; by exists [] |]. intros env argv out _ s r s' [= _ <-]. by eexists [_].
Qed.

(** A step that was made between two states, and how it went. *)
Definition seen {A} (m : P (B := B) A) (a : A) s s' : Prop := exists s1 s2, after s s1 /\ m s1 = Some (Ok a, s2) /\ after s2 s'.

Lemma seen_within {A} (m : P (B := B) A) a s0 s s1 s' : after s0 s -> after s1 s' -> seen m a s s1 -> seen m a s0 s'.
Proof. intros H0 H1 (x & y & ? & ? & ?). exists x, y. split_and!; [by etransitivity | done | by etransitivity]. Qed.

(** A command that was executed in its sandbox and ended well, with the evidence
    of its test, and left the frozen copy as it was. *)
Definition command_passed (box : confinement) (gate snapshot before : string) s s' (c : exec_cmd) : Prop :=
  exists c' log s1 s2 st s3 s4 s5, after s s1 /\
    local_isolation (fst box) (fst (snd box)) (snd (snd box)) c s1 = Some (Ok c', s2) /\
    run_command (write_output gate (goalNativeTest c)) c' {| o_log := log; o_tail := ""; o_native := no_evidence |} s2 = Some (Ok (st, None), s3) /\
    (goalNativeTest c = "" \/ complete_pass (o_native st) = true) /\
    after s3 s4 /\ goalSnapshot snapshot "" s4 = Some (Ok before, s5) /\ after s5 s'.

Definition gate_passed (req : GoalVerifyRequest) (box : confinement) (snapshot before : string) s s' (gate : string) : Prop :=
  exists commands, seen (goalGateCommands gate snapshot (sb_work (fst box))) commands s s' /\
    Forall (command_passed box gate snapshot before s s') commands /\
    (gate = "provenance" -> exists facts, seen (verifyOfficialSchema snapshot facts) tt s s').

(** What a verification of [root] in [work] established when it passed. *)
Record verification_passed (req : GoalVerifyRequest) (gates : list string) (root work before : string) (box : confinement)
    (s s' : flow (B := B)) : Prop := {
  ver_root : seen (resolved_root (gv_RepoRoot req)) root s s';
  ver_frozen : seen (goalSnapshot root (path_join work "candidate")) before s s';
  ver_sandbox : seen (prepare_sandbox req gates root (path_join work "candidate") work) box s s';
  ver_gates : exists sm, after s sm /\ after sm s' /\ Forall (gate_passed req box (path_join work "candidate") before s sm) gates /\
    seen (goalSnapshot root "") before sm s';
  ver_complete : exists fields log log', seen (record "footer" "" fields log) log' s s' /\ d_err log' = None }.

Lemma command_passed_within box gate snapshot before s0 s s1 s' c : after s0 s -> after s1 s' ->
  command_passed box gate snapshot before s s1 c -> command_passed box gate snapshot before s0 s' c.
Proof.
  intros H0 H1 (c' & log & t1 & t2 & st & t3 & t4 & t5 & ? & ? & ? & ? & ? & ? & ?). exists c', log, t1, t2, st, t3, t4, t5.
  split_and!; try done; by etransitivity.
Qed.

Lemma gate_passed_within req box snapshot before s0 s s1 s' gate : after s0 s -> after s1 s' ->
  gate_passed req box snapshot before s s1 gate -> gate_passed req box snapshot before s0 s' gate.
Proof.
  intros H0 H1 (commands & Hc & Hp & Ho). exists commands. split_and!.
  - by eapply seen_within.
  - eapply Forall_impl; [exact Hp|]. intros c. by apply command_passed_within.
  - intros (facts & Hf)%Ho. exists facts. by eapply seen_within.
Qed.

(** The trivial allowance under which everything only extends the log. *)
Lemma any_allowances snapshot : allowances snapshot (fun _ _ => True).
Proof. by split. Qed.
Definition record_after := record_along after (fun _ _ => True).
Definition commands_after := goalGateCommands_along after (fun _ _ => True).
Definition source_after := goalVerifyOfficialSource_along after (fun _ _ => True).
Definition flush_after := final_flush_along after (fun _ _ => True).
Definition after_run args input := quiet_run (B := B) (Quiet := after_quiet) args input.
#[local] Hint Resolve record_after commands_after source_after flush_after after_run : quieting.

Lemma frozen_inv snapshot before message s s' : frozen snapshot before message s = Some (Ok tt, s') ->
  goalSnapshot snapshot "" s = Some (Ok before, s').
Proof.
  unfold frozen. intros Hr. apply P_bind_Ok in Hr as (digest & s1 & Hd & [Hg%negb_false_iff%String.eqb_eq ->]%guard_inv).
  apply replace_err_Ok in Hd. by subst.
Qed.

Lemma goalRunCommand_inv c gate log isolate s log' s' : sound after (fun _ _ => True) isolate ->
  goalRunCommand c gate log isolate s = Some (Ok (log', None), s') ->
  exists log1 s1 c' s2 st s3, after s s1 /\ isolate c s1 = Some (Ok c', s2) /\
    run_command (write_output gate (goalNativeTest c)) c' {| o_log := log1; o_tail := ""; o_native := no_evidence |} s2 = Some (Ok (st, None), s3) /\
    (goalNativeTest c = "" \/ complete_pass (o_native st) = true) /\ after s3 s'.
Proof.
  intros Hs Hr. unfold goalRunCommand in Hr. apply P_bind_Ok in Hr as (log1 & s1 & Hlog & Hr).
  apply (record_along after (fun _ _ => True)) in Hlog. apply P_bind_Ok in Hr as (started & s1' & Hn & Hr). injection Hn as Hst <-.
  apply P_bind_Ok in Hr as (c' & s2 & Hi & Hr). apply P_bind_Ok in Hr as ([st e] & s3 & He & Hr).
  assert (after s3 s') as Ha.
  { revert Hr. clear. intros Hr. assert (forall st e, along after (ended_ ← peek now;
      log ← final_flush gate st;
      let e := command_error (goalNativeTest c) (o_native st) e in
      log ← record "exit" gate [("passed", json_bool (no_error e)); ("error", DString (error_string e));
        ("duration_ms", DOther (pretty.pretty ((ended_ - started) * 1000)%Z))] log;
      mret (log, match d_err log with
             | Some x => Some (diagnostics_incomplete x)
             | None => (fun e => Errorf "%s verification failed: %w" [e]) <$> e
             end))) as Hl by (intros; quieted). by eapply Hl. }
  apply P_bind_Ok in Hr as (moment & s4 & Hn & Hr). injection Hn as <- <-.
  apply P_bind_Ok in Hr as (log2 & s5 & Hf & Hr). apply P_bind_Ok in Hr as (log3 & s6 & Hx & [= _ Hr _]).
  destruct (d_err log3); [discriminate|]. destruct (command_error _ _ e) as [x|] eqn:Hce; [discriminate|].
  unfold command_error in Hce. destruct e as [e|]; [discriminate|].
  exists log1, s1, c', s2, st, s3. split_and!; try done. destruct (String.eqb_spec (goalNativeTest c) ""); [by left | right].
  by destruct (complete_pass (o_native st)).
Qed.

(** The isolation of the local gates. *)
Definition isolation (box : confinement) : exec_cmd -> P (B := B) exec_cmd := local_isolation (fst box) (fst (snd box)) (snd (snd box)).

Lemma isolation_sound box : sound after (fun _ _ => True) (isolation box).
Proof. exact (local_isolation_sound after _ (sb_root (fst box)) (any_allowances _) (fst box) _ _ eq_refl). Qed.

Lemma run_commands_inv box snapshot before message gate commands log s log' s' :
  run_commands (isolation box) (frozen snapshot before message) gate commands log s = Some (Ok (log', None), s') ->
  after s s' /\ Forall (command_passed box gate snapshot before s s') commands.
Proof.
  revert log s. induction commands as [|c commands IH]; intros log s Hr; cbn [run_commands] in Hr.
  { injection Hr as _ <-. split; [done | constructor]. }
  apply P_bind_Ok in Hr as ([log1 e] & s1 & H1 & Hr). destruct e as [e|]; [discriminate Hr|].
  pose proof (goalRunCommand_along after _ c gate log (isolation box) (isolation_sound box) _ _ _ H1) as Ha1.
  apply goalRunCommand_inv in H1 as (log2 & t1 & c' & t2 & st & t3 & Hb & Hi & Hx & Hn & Ha3); [|apply isolation_sound].
  apply caught_Ok in Hr as ([] & s2 & Hf & Hr). apply frozen_inv in Hf.
  pose proof (snapshot_along after (fun _ _ => True) snapshot "" _ _ _ Hf) as Ha2. apply IH in Hr as [Har Hp].
  split; [etransitivity; [exact Ha1|]; by etransitivity|]. constructor.
  - exists c', log2, t1, t2, st, t3, s1, s2. by split_and!.
  - eapply Forall_impl; [exact Hp|]. intros d. apply command_passed_within; [by etransitivity | done].
Qed.

Lemma goalVerifyOfficialSource_inv req candidate work log log' s s' :
  goalVerifyOfficialSource req candidate work log s = Some (Ok (log', None), s') -> exists facts, seen (verifyOfficialSchema candidate facts) tt s s'.
Proof.
  unfold goalVerifyOfficialSource. cbv zeta. intros Hr. assert (after s s) as Q by done.
  pose proof (goalCopySourceFacts_along after (fun _ _ => True)) as Hfacts. pose proof (verifyOfficialSchema_along after (fun _ _ => True)) as Hschema.
  apply caught_Ok in Hr as (root & s1 & H1 & Hr). apply caught_Ok in Hr as ([] & s2 & [_ ->]%guard_inv & Hr).
  apply caught_Ok in Hr as ([] & s3 & H3 & Hr). apply caught_Ok in Hr as ([] & s4 & H4 & Hr).
  apply P_bind_Ok in Hr as (log1 & s5 & H5 & Hr). apply P_bind_Ok in Hr as (compared & s6 & (y & [= ->] & H6)%attempt_inv & Hr).
  apply P_bind_Ok in Hr as (log2 & s7 & H7 & [= _ Hr <-]). destruct (d_err log2); [discriminate|]. destruct y as [[]|e]; [|discriminate].
  assert (along after (resolved_root (gv_RepoRoot req))) as Ha1 by (unfold resolved_root, real_path; quieted).
  assert (along after (external_path root (gv_CandidateDir req))) as Ha3 by (unfold external_path, real_path; quieted).
  exists (path_join work "rebuilt-source-inputs"), s5, s6. split_and!; [|done | by eapply record_after].
  etransitivity; [by eapply Ha1|]. etransitivity; [by eapply Ha3|]. etransitivity; [by eapply Hfacts|]. by eapply record_after.
Qed.

Lemma run_gate_inv req box snapshot before gate log s log' s' : sb_root (fst box) = snapshot ->
  run_gate req box snapshot before gate log s = Some (Ok (log', None), s') -> after s s' /\ gate_passed req box snapshot before s s' gate.
Proof.
  intros Hs Hr. split; [by eapply (run_gate_along after _ snapshot (any_allowances _))|]. unfold run_gate in Hr.
  apply caught_Ok in Hr as ([] & s1 & Hend & Hr). apply (along_ended after) in Hend. apply caught_Ok in Hr as (commands & s2 & Hc & Hr).
  pose proof (commands_after _ _ _ _ _ _ Hc) as Hac. apply P_bind_Ok in Hr as ([log1 e] & s3 & Hrun & Hr).
  destruct e as [e|]; [discriminate Hr|]. apply run_commands_inv in Hrun as [Har Hp].
  assert (after s3 s' /\ (gate = "provenance" -> exists facts, seen (verifyOfficialSchema snapshot facts) tt s3 s')) as [Ha3 Ho].
  { unfold official in Hr. destruct (String.eqb_spec gate "provenance") as [->|]; cbn [negb] in Hr; [|injection Hr as _ <-; by split].
    apply P_bind_Ok in Hr as ([log2 e] & s4 & Ho & Hr). pose proof (source_after _ _ _ _ _ _ _ Ho) as Hao. destruct e as [e|]; [discriminate Hr|].
    apply goalVerifyOfficialSource_inv in Ho as (facts & Ho). apply caught_Ok in Hr as ([] & s5 & Hf%frozen_inv & [= _ <-]).
    pose proof (snapshot_along after (fun _ _ => True) snapshot "" _ _ _ Hf) as Haf.
    split; [by etransitivity|]. intros _. exists facts. exact (seen_within _ _ _ _ _ _ (reflexivity s3) Haf Ho). }
  exists commands. split_and!.
  - exists s1, s2. split_and!; [done | done | by etransitivity].
  - eapply Forall_impl; [exact Hp|]. intros c. apply command_passed_within; [by etransitivity | done].
  - intros (facts & Hf)%Ho. exists facts. assert (after s s3) as H3 by (etransitivity; [exact Hend|]; by etransitivity).
    exact (seen_within _ _ _ _ _ _ H3 (reflexivity s') Hf).
Qed.

Lemma run_gates_inv req box snapshot before gates log r s log' r' s' : sb_root (fst box) = snapshot ->
  run_gates req box snapshot before gates log r s = Some (Ok (log', r', None), s') ->
  after s s' /\ Forall (gate_passed req box snapshot before s s') gates /\ vr_Gates r' = vr_Gates r ++ gates /\
  vr_SnapshotDigest r' = vr_SnapshotDigest r /\ vr_SnapshotRoot r' = vr_SnapshotRoot r.
Proof.
  intros Hs. revert log r s. induction gates as [|gate gates IH]; intros log r s Hr; cbn [run_gates] in Hr.
  { injection Hr as _ <- <-. rewrite app_nil_r. by split_and!. }
  apply P_bind_Ok in Hr as ([log1 e] & s1 & H1 & Hr). destruct e as [e|]; [discriminate Hr|].
  apply run_gate_inv in H1 as [Ha Hg]; [|done]. apply IH in Hr as (Ha' & Hp & Hgs & Hd & Hroot).
  split_and!; [by etransitivity | | by rewrite Hgs; cbn; rewrite <- app_assoc | done | done].
  constructor; [exact (gate_passed_within _ _ _ _ _ _ _ _ _ (reflexivity s) Ha' Hg)|]. eapply Forall_impl; [exact Hp|]. intros g. by apply gate_passed_within.
Qed.

Lemma measured_inv req gates root log r s log' r' s' : measured req gates root log r s = Some (Ok (log', r', None), s') ->
  vr_Gates r' = vr_Gates r ++ gates /\ exists work box,
    seen (goalSnapshot root (path_join work "candidate")) (vr_SnapshotDigest r') s s' /\ vr_SnapshotRoot r' = path_join work "candidate" /\
    seen (prepare_sandbox req gates root (path_join work "candidate") work) box s s' /\
    exists sm, after s sm /\ after sm s' /\ Forall (gate_passed req box (path_join work "candidate") (vr_SnapshotDigest r') s sm) gates /\
      seen (goalSnapshot root "") (vr_SnapshotDigest r') sm s'.
Proof.
  unfold measured. intros Hr. apply caught_Ok in Hr as (work & s1 & H1%after_host & Hr). unfold measured_in in Hr. cbv zeta in Hr.
  apply caught_Ok in Hr as (before & s2 & Hsn & Hr). pose proof (snapshot_along after (fun _ _ => True) _ _ _ _ _ Hsn) as H2.
  apply P_bind_Ok in Hr as (log1 & s3 & H3%record_after & Hr). apply caught_Ok in Hr as (box & s4 & Hb & Hr).
  pose proof (prepare_sandbox_along after _ _ (any_allowances _) _ _ _ _ _ _ _ Hb) as H4.
  pose proof (prepare_sandbox_root _ _ _ _ _ _ _ _ Hb) as Hroot.
  unfold revalidated in Hr. apply P_bind_Ok in Hr as ([[log2 r2] e] & s5 & Hg & Hr).
  apply P_bind_Ok in Hr as (x & s6 & (y & [= ->] & Hlast)%attempt_inv & [= Elog Er He <-]). subst log2 r2.
  destruct y as [digest|bad]; [|by destruct e]. destruct (String.eqb_spec digest before) as [->|]; [|by destruct e]. subst e.
  pose proof (snapshot_along after (fun _ _ => True) _ _ _ _ _ Hlast) as H6.
  apply run_gates_inv in Hg as (H5 & Hp & Hgs & Hd & Hsr); [|done]. cbn in Hgs, Hd, Hsr. split; [exact Hgs|].
  assert (after s2 s6) as H26 by (etransitivity; [exact H3|]; etransitivity; [exact H4|]; by etransitivity).
  assert (after s s4) as H04 by (etransitivity; [exact H1|]; etransitivity; [exact H2|]; etransitivity; [exact H3 | exact H4]).
  exists work, box. rewrite Hd. split_and!; [by exists s1, s2 | done | |].
  - exists s3, s4. split_and!; [etransitivity; [exact H1|]; etransitivity; [exact H2 | exact H3] | done | etransitivity; [exact H5 | exact H6]].
  - exists s5. split_and!; [etransitivity; [exact H04 | exact H5] | done | | by exists s5, s6].
    eapply Forall_impl; [exact Hp|]. intros g. exact (gate_passed_within _ _ _ _ _ _ _ _ _ H04 (reflexivity s5)).
Qed.

Lemma footer_inv kind gate fields m s r s' : footer kind gate fields m s = Some (Ok (r, None), s') ->
  exists log log' value s1 s2, m s = Some (Ok (log, r, None), s1) /\ record kind gate value log s1 = Some (Ok log', s2) /\ d_err log' = None /\ after s2 s'.
Proof.
  unfold footer. intros Hr. apply P_bind_Ok in Hr as ([[log r'] e] & s1 & Hm & Hr). apply P_bind_Ok in Hr as (log' & s2 & Hf & Hr).
  apply P_bind_Ok in Hr as (closed & s3 & (y & [= ->] & Hc%after_host)%attempt_inv & [= -> He <-]).
  exists log, log'. destruct (d_err log') as [x|] eqn:Hd; [done|]. destruct y; [|done]. subst e. by eexists _, s1, s2.
Qed.

(** C16: When a local verification passes, the candidate was frozen into a copy with the recorded digest; every command of every selected gate was executed in the proven sandbox of that copy and ended well, the two native tests with a complete record of an executed pass, and after each of them the copy still had that digest; the provenance gate found the schemas of the copy to be those of the rebuilt upstream; after all gates the candidate itself still has the digest; and the diagnostics are complete to their footer. *)
Theorem VerifyGoal_passes req s r s' (Hr : VerifyGoal req s = Some (Ok (r, None), s')) : exists gates root work box,
  selected_gates (gv_Gate req) = Ok gates /\ vr_Gates r = gates /\ vr_SnapshotRoot r = path_join work "candidate" /\
  sb_root (fst box) = path_join work "candidate" /\ verification_passed req gates root work (vr_SnapshotDigest r) box s s'.
Proof.
  unfold VerifyGoal in Hr. apply P_bind_Ok in Hr as ([r0 e] & s1 & Hv & Hr). destruct e as [e|]; [by pstep Hr|]. injection Hr as -> ->.
  unfold verify_in in Hv. cbv zeta in Hv. apply caught_Ok in Hv as (gates & t0 & [Hg ->]%of_res_inv & Hv).
  apply caught_Ok in Hv as (root & t1 & Hroot & Hv). apply caught_Ok in Hv as (dir & t2 & Hdir & Hv).
  apply caught_Ok in Hv as (real & t3 & Hreal & Hv). apply caught_Ok in Hv as ([] & t4 & [_ ->]%guard_inv & Hv).
  apply caught_Ok in Hv as ([] & t5 & [_ ->]%guard_inv & Hv). apply caught_Ok in Hv as (log & t6 & Hlog & Hv).
  apply P_bind_Ok in Hv as (head & t7 & (y & [= ->] & Hhead)%attempt_inv & Hv). destruct y as [head|e]; [|by pstep Hv].
  apply P_bind_Ok in Hv as (log1 & t8 & Hrec & Hv).
  assert (along after (resolved_root (gv_RepoRoot req))) as H1 by (unfold resolved_root, real_path; quieted).
  assert (along after (diagnostics_dir "llm-go-verification-" (gv_DiagnosticDir req))) as H2 by (unfold diagnostics_dir; quieted).
  assert (along after (replace_err (new_error "diagnostic directory must not be a symlink") (real_path dir))) as H3 by (unfold real_path; quieted).
  assert (along after (git_head root)) as H5 by (unfold git_head; quieted).
  apply H2 in Hdir. apply H3 in Hreal. apply (newGoalDiagnostics_along after (fun _ _ => True)) in Hlog. apply H5 in Hhead. apply record_after in Hrec.
  assert (after t1 t8) as H18 by (etransitivity; [exact Hdir|]; etransitivity; [exact Hreal|]; etransitivity; [exact Hlog|];
    etransitivity; [exact Hhead | exact Hrec]).
  apply footer_inv in Hv as (log2 & log3 & value & t9 & t10 & Hm & Hf & Hd & Hend).
  assert (along after (measured req gates root log1 (vr_head head (vr_log (d_file log) (vr_start "local"))))) as Ham.
  { unfold measured. apply along_caught; [apply _ | apply after_host|]. intros. by apply (measured_in_along after (fun _ _ => True)). }
  pose proof (Ham _ _ _ Hm) as H89. pose proof (record_after _ _ _ _ _ _ _ Hf) as H910.
  apply measured_inv in Hm as (Hgs & work & box & Hfrozen & Hsnap & Hbox & sm & Hsm & Hms & Hgates & Hlast).
  pose proof (H1 _ _ _ Hroot) as H01.
  assert (after s t8) as H08 by (etransitivity; [exact H01 | exact H18]).
  assert (after t9 s') as H9 by (etransitivity; [exact H910 | exact Hend]).
  exists gates, root, work, box. split_and!; [done | done | done | | split].
  - destruct Hbox as (a & b & _ & Hb & _). by apply prepare_sandbox_root in Hb.
  - exists s, t1. split_and!; [done | done |]. etransitivity; [exact H18|]. etransitivity; [exact H89 | exact H9].
  - exact (seen_within _ _ _ _ _ _ H08 H9 Hfrozen).
  - exact (seen_within _ _ _ _ _ _ H08 H9 Hbox).
  - exists sm. split_and!; [etransitivity; [exact H08 | exact Hsm] | etransitivity; [exact Hms | exact H9] | |].
    + eapply Forall_impl; [exact Hgates|]. intros g. exact (gate_passed_within _ _ _ _ _ _ _ _ _ H08 (reflexivity sm)).
    + exact (seen_within _ _ _ _ _ _ (reflexivity sm) H9 Hlast).
  - exists value, log2, log3. split; [|done]. exists t9, t10. split_and!; [etransitivity; [exact H08 | exact H89] | done | done].
Qed.
End passed.

(** * Evidence and the cuts of its output *)

Section cuts.
Context {E : EventCodec}.
Implicit Types (e : goalNativeEvidence).

Definition newline_byte : ascii := byte 10.

(** The complete lines of a text, and what is left. *)
Definition whole_lines (text : string) : list string := removelast (split_byte newline_byte text).
Definition rest_of (text : string) : string := List.last (split_byte newline_byte text) "".

Lemma observe_line_pending test line text e : observe_line test line (set_pending text e) = set_pending text (observe_line test line e).
Proof. unfold observe_line. destruct (decode_event line) as [[action name]|]; [|done]. by destruct (String.eqb name test). Qed.

Lemma split_byte_ne c s : exists x l, split_byte c s = x :: l.
Proof. destruct s as [|a s]; cbn; [by eauto|]. destruct (Ascii.eqb a c); [by eauto|]. destruct (split_byte c s); eauto. Qed.

Lemma split_byte_index c s : split_byte c s =
  match index_byte c s with None => [s] | Some i => str_take i s :: split_byte c (str_drop (S i) s) end.
Proof.
  induction s as [|a s IH]; [done|]. cbn [split_byte index_byte]. destruct (Ascii.eqb a c); [by destruct s|].
  rewrite IH. by destruct (index_byte c s).
Qed.

Lemma split_byte_join_two c s t : split_byte c (s +:+ t) = removelast (split_byte c s) ++ split_byte c (List.last (split_byte c s) "" +:+ t).
Proof.
  induction s as [|a s IH]; [done|]. rewrite app_String. cbn [split_byte]. rewrite IH. destruct (split_byte_ne c s) as (x & l & ->).
  destruct (Ascii.eqb a c) eqn:Ea; [by destruct l|]. destruct l as [|y l]; [|done]. cbn [removelast List.last app].
  rewrite app_String. cbn [split_byte]. by rewrite Ea.
Qed.

Lemma observe_lines_spec fuel test text e : (String.length text < fuel)%nat ->
  observe_lines fuel test (set_pending text e) =
  set_pending (rest_of text) (fold_left (fun e line => observe_line test line e) (whole_lines text) e).
Proof.
  unfold rest_of, whole_lines. revert text e. induction fuel as [|fuel IH]; intros text e Hf; [lia|]. cbn [observe_lines].
  cbn [ev_pending set_pending]. change (byte 10) with newline_byte. rewrite (split_byte_index newline_byte text).
  destruct (index_byte newline_byte text) as [i|] eqn:Hi; [|done].
  change (set_pending (str_drop (S i) text) (set_pending text e)) with (set_pending (str_drop (S i) text) e).
  rewrite observe_line_pending, IH by (destruct text; [discriminate Hi|]; rewrite str_drop_length; cbn [String.length] in *; lia).
  by destruct (split_byte_ne newline_byte (str_drop (S i) text)) as (x & l & ->).
Qed.

(** What a text is evidence of. *)
Definition observed (test text : string) : goalNativeEvidence :=
  set_pending (rest_of text) (fold_left (fun e line => observe_line test line e) (whole_lines text) no_evidence).

Lemma rest_le text : (String.length (rest_of text) <= String.length text)%nat.
Proof.
  unfold rest_of. induction text as [|a text IH]; [done|]. cbn [split_byte]. destruct (split_byte_ne newline_byte text) as (x & l & Es).
  rewrite Es in *. destruct (Ascii.eqb a newline_byte); [cbn in *; lia|]. destruct l; cbn in *; lia.
Qed.

Lemma last_app_cons (l l' : list string) x : List.last (l ++ x :: l') "" = List.last (x :: l') "".
Proof. induction l as [|y l IH]; [done|]. cbn [app]. rewrite <- IH. by destruct l. Qed.

Lemma chunk_app text chunk : rest_of (text +:+ chunk) = rest_of (rest_of text +:+ chunk) /\
  whole_lines (text +:+ chunk) = whole_lines text ++ whole_lines (rest_of text +:+ chunk).
Proof.
  unfold rest_of, whole_lines. rewrite (split_byte_join_two newline_byte text chunk).
  destruct (split_byte_ne newline_byte (List.last (split_byte newline_byte text) "" +:+ chunk)) as (x & l & ->).
  by rewrite last_app_cons, removelast_app.
Qed.

(** Whether no write, after this text, finds more than the bound pending. *)
Fixpoint fits (text : string) (chunks : list string) : bool :=
  match chunks with
  | [] => true
  | chunk :: chunks => (Z.of_nat (String.length (rest_of text +:+ chunk)) <=? goalDiagnosticLimit)%Z && fits (text +:+ chunk) chunks
  end.

(** Output within the bound fits, however it is cut. *)
Lemma fits_short chunks text : (Z.of_nat (String.length (text +:+ texts chunks)) <= goalDiagnosticLimit)%Z -> fits text chunks = true.
Proof.
  revert text. induction chunks as [|chunk chunks IH]; intros text Hl; [done|]. cbn [fits].
  change (text +:+ texts (chunk :: chunks)) with (text +:+ (chunk +:+ texts chunks)) in Hl. rewrite <- str_app_assoc in Hl.
  rewrite IH, andb_true_r by done. apply Z.leb_le. pose proof (rest_le text). rewrite !str_length_app in *. lia.
Qed.

Lemma evidence_Write_observed test text chunk : (Z.of_nat (String.length (rest_of text +:+ chunk)) <= goalDiagnosticLimit)%Z ->
  evidence_Write test chunk (observed test text) = observed test (text +:+ chunk).
Proof.
  intros Hl. unfold evidence_Write. change (ev_pending (observed test text)) with (rest_of text).
  assert ((goalDiagnosticLimit <? Z.of_nat (String.length (rest_of text +:+ chunk)))%Z = false) as Hlt by (by apply Z.ltb_ge).
  cbv zeta. rewrite Hlt. unfold observed. set (seen_so_far := fold_left _ (whole_lines text) no_evidence).
  change (set_pending (rest_of text +:+ chunk) (set_pending (rest_of text) seen_so_far)) with (set_pending (rest_of text +:+ chunk) seen_so_far).
  rewrite observe_lines_spec by lia. subst seen_so_far. destruct (chunk_app text chunk) as [-> ->]. by rewrite fold_left_app.
Qed.

Lemma observe_line_invalid test line e : ev_invalid (observe_line test line e) = ev_invalid e.
Proof. unfold observe_line. destruct (decode_event line) as [[action name]|]; [|done]. by destruct (String.eqb name test). Qed.
Lemma observe_lines_invalid fuel test e : ev_invalid e = true -> ev_invalid (observe_lines fuel test e) = true.
Proof.
  revert e. induction fuel as [|fuel IH]; intros e He; [done|]. cbn [observe_lines].
  destruct (index_byte (byte 10) (ev_pending e)); [|done]. apply IH. by rewrite observe_line_invalid.
Qed.
(** Once the bound was exceeded the evidence is void. *)
Lemma evidence_invalid test chunks e : ev_invalid e = true ->
  ev_invalid (fold_left (fun e chunk => evidence_Write test chunk e) chunks e) = true.
Proof.
  revert e. induction chunks as [|chunk chunks IH]; intros e He; [done|]. cbn [fold_left]. apply IH. unfold evidence_Write. cbv zeta.
  case_match; [done | by apply observe_lines_invalid].
Qed.

Lemma evidence_Writes test chunks text : let e := fold_left (fun e chunk => evidence_Write test chunk e) chunks (observed test text) in
  if fits text chunks then e = observed test (text +:+ texts chunks) else ev_invalid e = true.
Proof.
  revert text. induction chunks as [|chunk chunks IH]; intros text; cbn [fold_left texts foldr fits]; [by rewrite str_app_nil_r|].
  destruct (_ <=? _)%Z eqn:Hl; cbn [andb].
  - apply Z.leb_le in Hl. rewrite evidence_Write_observed by done. specialize (IH (text +:+ chunk)).
    change (texts (chunk :: chunks)) with (chunk +:+ texts chunks). by rewrite <- str_app_assoc.
  - apply evidence_invalid. unfold evidence_Write. change (ev_pending (observed test text)) with (rest_of text). cbv zeta.
    apply Z.leb_gt in Hl. by apply Z.ltb_lt in Hl as ->.
Qed.

Lemma observe_line_flags test line e : ev_invalid (observe_line test line e) = ev_invalid e /\
  ev_run (observe_line test line e) = ev_run e || bool_decide (decode_event line = Some ("run", test)) /\
  ev_pass (observe_line test line e) = ev_pass e || bool_decide (decode_event line = Some ("pass", test)) /\
  ev_skip (observe_line test line e) = ev_skip e || bool_decide (decode_event line = Some ("skip", test)) || bool_decide (decode_event line = Some ("fail", test)).
Proof.
  unfold observe_line. destruct (decode_event line) as [[action name]|]; [|by rewrite !bool_decide_false, !orb_false_r].
  destruct (String.eqb_spec name test) as [->|Hne]; [|by rewrite !bool_decide_false, !orb_false_r by congruence].
  cbn. split_and!; [done|..]; unfold mem; rewrite <- ?orb_assoc; f_equal.
  - destruct (String.eqb_spec action "run") as [->|]; [by rewrite bool_decide_true | rewrite bool_decide_false; congruence].
  - destruct (String.eqb_spec action "pass") as [->|]; [by rewrite bool_decide_true | rewrite bool_decide_false; congruence].
  - destruct (decide (action = "skip")) as [->|]; [by rewrite !bool_decide_true by set_solver|].
    destruct (decide (action = "fail")) as [->|]; [by rewrite orb_comm, !bool_decide_true by set_solver|].
    rewrite !bool_decide_false by (congruence || set_solver). done.
Qed.

(** Some complete line is an event of the test with this action. *)
Definition acted (action test : string) (lines : list string) : Prop := exists line, line ∈ lines /\ decode_event line = Some (action, test).

Lemma observed_flags test lines e : ev_invalid e = false ->
  let f := fold_left (fun e line => observe_line test line e) lines e in
  ev_invalid f = false /\ (ev_run f = true <-> ev_run e = true \/ acted "run" test lines) /\
  (ev_pass f = true <-> ev_pass e = true \/ acted "pass" test lines) /\
  (ev_skip f = true <-> ev_skip e = true \/ acted "skip" test lines \/ acted "fail" test lines).
Proof.
  revert e. induction lines as [|line lines IH]; intros e Hi f.
  - subst f. cbn. unfold acted. split_and!; [done|..]; split; try set_solver.
  - destruct (observe_line_flags test line e) as (E0 & E1 & E2 & E3). specialize (IH (observe_line test line e)).
    rewrite E0, E1, E2, E3 in IH. destruct (IH Hi) as (H0 & H1 & H2 & H3). change (fold_left _ lines (observe_line test line e)) with f in *.
    assert (forall action, acted action test (line :: lines) <-> decode_event line = Some (action, test) \/ acted action test lines) as Hc
      by (intros; unfold acted; set_solver).
    rewrite H1, H2, H3, !Hc, !orb_true_iff, !bool_decide_eq_true. split_and!; [done|tauto..].
Qed.


(** C27: However the output of a native test is cut into writes, it counts as a
    complete executed pass exactly when no write finds more than the bound of the
    diagnostics pending, the text ends with a whole line, and some line records
    that this test ran, some that it passed, and none that it was skipped or
    failed.  Output whose whole length is within the bound always fits. *)
Theorem evidence_of_lines test chunks :
  (complete_pass (fold_left (fun e chunk => evidence_Write test chunk e) chunks no_evidence) = true <->
   fits "" chunks = true /\ rest_of (texts chunks) = "" /\
   acted "run" test (whole_lines (texts chunks)) /\ acted "pass" test (whole_lines (texts chunks)) /\
   ~ acted "skip" test (whole_lines (texts chunks)) /\ ~ acted "fail" test (whole_lines (texts chunks))) /\
  ((Z.of_nat (String.length (texts chunks)) <= goalDiagnosticLimit)%Z -> fits "" chunks = true).
Proof.
  split; [|intros Hl; apply fits_short; by rewrite app_Empty]. pose proof (evidence_Writes test chunks "") as Hw. cbv zeta in Hw.
  change (observed test "") with no_evidence in Hw. rewrite app_Empty in Hw. destruct (fits "" chunks).
  - rewrite Hw. destruct (observed_flags test (whole_lines (texts chunks)) no_evidence eq_refl) as (H0 & H1 & H2 & H3).
    unfold complete_pass, observed. cbn [set_pending ev_run ev_pass ev_skip ev_invalid ev_pending] in *.
    rewrite !andb_true_iff, !negb_true_iff, String.eqb_eq, H1, H2, H0, <- not_true_iff_false, H3. cbn. intuition congruence.
  - unfold complete_pass. rewrite Hw. cbn [negb]. rewrite !andb_true_iff, ?andb_false_r. cbn. intuition congruence.
Qed.
End cuts.

(** * On the desk *)

(** A bench: the desk with the tools of a verification.  The probe of the sandbox
    finds what it must, and the two native tests run and pass, their records cut
    in the middle of a line. *)
Definition bench_call (call : hostcall) (w : desk) : res string * desk :=
  match call with
  | ReadText path => (if has_suffix "-positive" path then Ok "safe" else if String.eqb path "/state/tmp" then Ok "immutable"
                      else if has_suffix "parent-input" path then Ok "not-visible" else (desk_call call w).1, w)
  | _ => desk_call call w
  end.

#[local] Instance bench_host : Host desk := {|
  perform := bench_call;
  file_info path w := if has_suffix "-forbidden" path then NoFile else file_info (Host := desk_host) path w;
  dir_info := dir_info (Host := desk_host); root_info := root_info (Host := desk_host);
  EvalSymlinks := EvalSymlinks (Host := desk_host); Abs := Abs (Host := desk_host); sha256 := sha256 (Host := desk_host);
  now := now (Host := desk_host); ctx_err := ctx_err (Host := desk_host);
  decode_draft := decode_draft (Host := desk_host); decode_drafts := decode_drafts (Host := desk_host);
  decode_ready := decode_ready (Host := desk_host); decode_open := decode_open (Host := desk_host);
  decode_ref := decode_ref (Host := desk_host); decode_repository := decode_repository (Host := desk_host);
  decode_file := decode_file (Host := desk_host) |}.

Definition bench_newline : string := String newline_byte "".

(** The output of a native test, in two pieces. *)
Definition bench_chunks (test : string) : list string := ["run " +:+ test +:+ bench_newline +:+ "pa"; "ss " +:+ test +:+ bench_newline].

Definition bench_process (c : exec_cmd) : process desk :=
  let test := goalNativeTest c in
  if bool_decide (cmd_Args c = go_env) then Writes "/mod" (Exits None)
  else if String.eqb test "" then Exits None
  else foldr Writes (Exits None) (bench_chunks test).

#[local] Instance bench_tools : Toolchain desk := {|
  environ := ["CODEX_CLI_VERSION=1"]; goos := "linux"; GOROOT := "/go"; LookPath name _ := Ok ("/usr/bin/" +:+ name);
  spawn c _ := bench_process c |}.
#[local] Instance bench_files : Files desk := {| walk _ _ := []; read_link _ _ := Ok "" |}.
#[local] Instance bench_events : EventCodec := {|
  decode_event line := match split_byte " "%char line with [action; test] => Some (action, test) | _ => None end |}.

Definition bench_request : GoalVerifyRequest := {|
  gv_RepoRoot := "/repo"; gv_DiagnosticDir := "/diagnostics"; gv_Gate := "source"; gv_TrustedCacheRoot := "";
  gv_BaseRoot := ""; gv_CandidateDir := ""; gv_OriginalBaseRoot := "" |}.
Definition bench_verified := VerifyGoal (H := bench_host) bench_request (start_desk empty_desk).
Definition bench_after : flow (B := desk_boundary) := match bench_verified with Some (_, s) => s | None => start_desk empty_desk end.
Definition bench_result : GoalVerifyResult := match bench_verified with Some (Ok (r, _), _) => r | _ => vr_start "" end.
Lemma bench_verifies : VerifyGoal (H := bench_host) bench_request (start_desk empty_desk) = Some (Ok (bench_result, None), bench_after).
Proof. vm_compute. reflexivity. Qed.

(** The programs that an execution ran. *)
Definition programs (l : list (event (B := desk_boundary))) : list string :=
  flat_map (fun e => match e with Performed (Execute _ (program :: _)) _ => [program] | _ => [] end) l.

Lemma VerifyGoal_confined_witness : programs (log bench_after) = repeat "bwrap" 7 ++ ["go"] /\ confined (start_desk empty_desk) bench_after.
Proof.
  split; [vm_compute; reflexivity|].
  exact (VerifyGoal_confined (H := bench_host) bench_request (start_desk empty_desk) (Ok (bench_result, None)) bench_after bench_verifies).
Defined.

Lemma VerifyGoal_passes_witness : vr_Gates bench_result = ["source"] /\ exists gates root work box, selected_gates "source" = Ok gates /\
  vr_Gates bench_result = gates /\ vr_SnapshotRoot bench_result = path_join work "candidate" /\ sb_root (fst box) = path_join work "candidate" /\
  verification_passed (H := bench_host) bench_request gates root work (vr_SnapshotDigest bench_result) box (start_desk empty_desk) bench_after.
Proof.
  split; [vm_compute; reflexivity|].
  exact (VerifyGoal_passes (H := bench_host) bench_request (start_desk empty_desk) bench_result bench_after bench_verifies).
Defined.

Lemma evidence_of_lines_witness : complete_pass (fold_left (fun e chunk => evidence_Write boundary_test chunk e) (bench_chunks boundary_test) no_evidence) = true /\
  acted "pass" boundary_test (whole_lines (texts (bench_chunks boundary_test))).
Proof.
  assert (complete_pass (fold_left (fun e chunk => evidence_Write boundary_test chunk e) (bench_chunks boundary_test) no_evidence) = true) as Hp
    by (vm_compute; reflexivity).
  split; [exact Hp|]. destruct (evidence_of_lines boundary_test (bench_chunks boundary_test)) as [[H _] _]. by apply H in Hp as (_ & _ & _ & ? & _).
Defined.
