(* ===== verification/Polls.v ===== *)
(** The two loops that wait for GitHub, the observation of CI ([ObserveGoalCI] of
    [goal_publication.go]) and the cleanup of an integrated branch ([Cleanup] of
    [auto_forward_native.go], [src/codexsdk/internal/protocolsync]), end with
    their deadline: the bound that the models take on their rounds is met by
    neither. *)

From S2P Require Import Prelude GoStrings Policy Scope Resolve PublicationText Checks Forward Boundary Inspection Goal GoalSnapshot Rebinding GoalPublication Desk GoalIntents GoalDiagnostics GoalProgress GoalFlow GoalAcceptance NativeForward Integration.

Local Open Scope string_scope.
Local Open Scope list_scope.
Local Open Scope goal_scope.

(** A context with a deadline: the rounds [left] before it only get less, and a
    wait ends with fewer of them or with the context. *)
Record dated {W} {B : Boundary W} {H : Host W} (left : W -> nat) : Prop := {
  dated_git args input w : left (exec_git args input w).2 <= left w;
  dated_request method path body w : left (Request method path body w).2 <= left w;
  dated_call call w : left (perform call w).2 <= left w;
  dated_wait d w : (0 < d)%Z -> ctx_err CallCtx (perform (Sleep d) w).2 = None -> left (perform (Sleep d) w).2 < left w }.

Section dated.
Context {W : Type} {B : Boundary W} {H : Host W} {D : DiagnosticsCodec} {F : FlowCodec}.
Context (left : W -> nat) (Hleft : dated left).
Implicit Types (s : flow (B := B)).

Definition onward s s' : Prop := log s ⊆ log s' /\ left (world s') <= left (world s).

#[export] Instance later_order : PreOrder onward.
Proof. split; [intros s; split; [done | lia]|]. intros s1 s2 s3 [? ?] [? ?]. split; [by etransitivity | lia]. Qed.

#[export] Instance later_quiet : Quiet (fun _ => True) onward.
Proof.
  split.
  7-9: done.
  - apply _.
  - by intros s s' [].
  - intros args input _ s x s' Hr. unfold run in Hr. pose proof (dated_git _ Hleft args input (world s)) as Hl.
    destruct (exec_git args input (world s)). injection Hr as <- <-. split; [set_solver | exact Hl].
  - intros path s x s' Hr. unfold request, ask in Hr. pose proof (dated_request _ Hleft "GET" path None (world s)) as Hl.
    destruct (Request "GET" path None (world s)). injection Hr as <- <-. split; [set_solver | exact Hl].
  - intros req s x s' [= <- <-]. split; [set_solver | done].
  - intros call _ s x s' Hr. unfold host in Hr. pose proof (dated_call _ Hleft call (world s)) as Hl.
    destruct (perform call (world s)). injection Hr as <- <-. split; [set_solver | exact Hl].
Qed.

#[local] Hint Resolve later_order later_quiet : quieting.

(** A wait of which the context outlives the end. *)
Lemma waited d s x s' s'' : (0 < d)%Z -> attempt (host (Sleep d)) s = Some (Ok x, s') -> ended CallCtx s' = Some (Ok tt, s'') ->
  s'' = s' /\ left (world s') < left (world s).
Proof.
  intros Hd Hs He. unfold attempt, host in Hs. pose proof (dated_wait _ Hleft d (world s) Hd) as Hl.
  destruct (perform (Sleep d) (world s)) as [out w]. injection Hs as _ <-. unfold ended in He. cbn in He, Hl.
  destruct (ctx_err CallCtx w) eqn:Hc; [discriminate|]. injection He as <-. split; [done | by apply Hl].
Qed.

(** * Flows that agree after a common step *)

Lemma bind_agree {A C} (m : P (B := B) A) (f g : A -> P (B := B) C) s :
  (forall a s', m s = Some (Ok a, s') -> f a s' = g a s') -> (m ≫= f) s = (m ≫= g) s.
Proof. intros Hfg. unfold mbind, P_bind. destruct (m s) as [[[a|e] s']|]; [by apply Hfg | done..]. Qed.
Lemma caught_agree {A X} (m : P (B := B) A) (x : X) k k' s :
  (forall a s', m s = Some (Ok a, s') -> k a s' = k' a s') -> caught m x k s = caught m x k' s.
Proof. intros Hk. unfold caught. destruct (m s) as [[[a|e] s']|]; [by apply Hk | done..]. Qed.

(** * Observing CI *)

Lemma goalCurrent_later c r head : along onward (goalCurrent c r head).
Proof. exact (goalCurrent_quiet (fun _ => True) onward c r head). Qed.
Lemma observe_later repository head : along onward (replace_err (new_error "exact-head CI observation unavailable") (observe repository head)).
Proof. apply along_replace. exact (quiet_observe (fun _ => True) onward repository head). Qed.

Lemma poll_enough polls more r head interval last s : (0 < interval)%Z -> left (world s) < polls ->
  poll (polls + more) r head interval last s = poll polls r head interval last s.
Proof.
  intros Hi. revert last s. induction polls as [|polls IH]; intros last s Hp; [lia|]. cbn [poll Nat.add].
  apply caught_agree. intros [] s1 H1%goalCurrent_later. apply caught_agree. intros next s2 H2%observe_later.
  apply caught_agree. intros [] s3 H3%goalCurrent_later. destruct (settled (obs_State next)); [done|].
  apply bind_agree. intros slept s4 H4. apply caught_agree. intros [] s5 H5. destruct (waited _ _ _ _ _ Hi H4 H5) as [-> Hl].
  apply IH. destruct H1, H2, H3. lia.
Qed.

Lemma goalBinding_later r : along onward (goalBinding r).
Proof. exact (goalBinding_quiet (fun _ => True) onward r). Qed.

Lemma ObserveGoalCI_enough polls more bounded r head interval s (Hp : left (world s) < polls) :
  ObserveGoalCI (polls + more) bounded r head interval s = ObserveGoalCI polls bounded r head interval s.
Proof.
  unfold ObserveGoalCI. apply caught_agree. intros [] s1 [_ ->]%guard_inv. apply caught_agree. intros [] s2 H2%goalBinding_later.
  apply caught_agree. intros [] s3 [_ ->]%guard_inv. apply poll_enough; [destruct (Z.leb_spec interval 0); lia|]. destruct H2. lia.
Qed.

(** * The cleanup *)

Section cleanup.
Context (r : ForwardRequest) (Token : bool -> P (B := B) (string * P (B := B) unit)).

Definition onwardM {A} (m : M (W := W) A) : Prop := forall st, onward (snd st) (snd (snd (m st))).

Lemma laterM_lift {A} (m : P (B := B) A) : along onward m -> onwardM (lift m).
Proof. intros Hm st. unfold lift. destruct (m (snd st)) as [[x s]|] eqn:E; cbn; [by eapply Hm | done]. Qed.
Lemma laterM_bind {A C} (m : M (W := W) A) (f : A -> M (W := W) C) : onwardM m -> (forall a, onwardM (f a)) -> onwardM (m ≫= f).
Proof.
  intros Hm Hf st. specialize (Hm st). unfold mbind, M_bind. destruct (m st) as [[a|e] st1]; [|done].
  etransitivity; [exact Hm | apply Hf].
Qed.

Lemma Read_later c expected : onwardM (Read r c expected).
Proof.
  pose proof (fun branch => remote_ref_quiet (fun _ => True) onward (fq_RepoRoot r) branch).
  pose proof (fun a b => Ancestor_quiet (fun _ => True) onward (fq_RepoRoot r) a b).
  unfold Read, monotonic, fixed_branch, head_actor, publicationHeadActor.
  repeat first [progress intros | apply laterM_bind | apply laterM_lift | by intros st]; quieted.
Qed.

Lemma bindM_agree {A C} (m : M (W := W) A) (f g : A -> M (W := W) C) st :
  (forall a st', m st = (Ok a, st') -> f a st' = g a st') -> (m ≫= f) st = (m ≫= g) st.
Proof. intros Hfg. unfold mbind, M_bind. destruct (m st) as [[a|e] st']; [by apply Hfg | done]. Qed.

Lemma later_from {A} (m : M (W := W) A) st x st' : onwardM m -> m st = (x, st') -> onward (snd st) (snd st').
Proof. intros Hm E. specialize (Hm st). by rewrite E in Hm. Qed.
Lemma Ancestor_laterM e root a b : onwardM (lift (replace_err e (Ancestor root a b))).
Proof. apply laterM_lift, along_replace. exact (Ancestor_quiet (fun _ => True) onward root a b). Qed.

(** However the readings of GitHub answer, the cleanup of an integrated branch ends with the deadline. *)
Theorem Cleanup_terminates polls more head (st : state (W := W)) (Hp : left (world (snd st)) < polls) :
  NativeForward.Cleanup r Token (polls + more) head st = NativeForward.Cleanup r Token polls head st.
Proof.
  revert st Hp. induction polls as [|polls IH]; intros st Hp; [lia|]. cbn [NativeForward.Cleanup Nat.add]. cbv zeta.
  apply bindM_agree. intros current st1 H1. pose proof (later_from _ _ _ _ (Read_later Original head) H1) as Q1.
  apply bindM_agree. intros contained st2 H2. pose proof (later_from _ _ _ _ (Ancestor_laterM _ _ _ _) H2) as Q2.
  apply bindM_agree. intros [] st3 H3. apply lift_Ok in H3 as [[_ E3]%guard_inv _]. destruct (Merged current); [done|].
  apply bindM_agree. intros [] st4 H4. apply lift_Ok in H4 as [[_ E4]%guard_inv _].
  apply bindM_agree. intros slept st5 H5. apply lift_Ok in H5 as [H5 _].
  apply bindM_agree. intros [] st6 H6. apply lift_Ok in H6 as [H6%replace_err_Ok _].
  destruct (waited 5 _ _ _ _ eq_refl H5 H6) as [E6 Hl]. apply IH. destruct Q1, Q2. rewrite E6. rewrite E4, E3 in Hl. lia.
Qed.
End cleanup.
End dated.

(** C28: Whatever git and the API answer, the observation of CI ends with its deadline: more rounds than are left before it make no difference. *)
Theorem ObserveGoalCI_terminates {W} {B : Boundary W} {H : Host W} (left : W -> nat) (Hd : dated left) polls more bounded r head interval
    (s : flow (B := B)) (Hp : left (world s) < polls) :
  ObserveGoalCI (polls + more) bounded r head interval s = ObserveGoalCI polls bounded r head interval s.
Proof. by apply (ObserveGoalCI_enough left). Qed.

(** * A desk with a clock *)

(** The rounds left are part of the world; a wait takes one, and the checks never
    complete. *)
Definition timed : Type := desk * nat.
Definition pending_run (head : string) (id : nat) (name : string) : Run :=
  {| ID := Z.of_nat id + 1; run_Name := name; HeadSHA := head; run_Status := "in_progress"; run_Conclusion := ""; App_Slug := "github-actions" |}.

#[local] Instance timed_boundary : Boundary timed := {|
  Raw := desk_raw;
  exec_git args input w := let '(out, d) := desk_git args input w.1 in (out, (d, w.2));
  Request method path body w := let '(out, d) := desk_request method path body w.1 in (out, (d, w.2));
  LSRemote remote patterns w := LSRemote (Boundary := desk_boundary) remote patterns w.1;
  Lstat path w := Lstat (Boundary := desk_boundary) path w.1;
  append_output _ w := (None, w);
  decode_prs := decode_prs (Boundary := desk_boundary); decode_pr := decode_pr (Boundary := desk_boundary);
  decode_activities := decode_activities (Boundary := desk_boundary);
  decode_checks raw := match raw with
    | DeskChecks head => Ok (Z.of_nat (length RequiredNames), imap (pending_run head) RequiredNames)
    | _ => Err not_json end;
  decode_workflows := decode_workflows (Boundary := desk_boundary); decode_metadata := decode_metadata (Boundary := desk_boundary) |}.

Definition timed_call (call : hostcall) (w : timed) : res string * timed :=
  let '(out, d) := desk_call call w.1 in (out, (d, match call with Sleep _ => pred w.2 | _ => w.2 end)).

#[local] Instance timed_host : Host timed := {|
  perform := timed_call;
  file_info path w := file_info (Host := desk_host) path w.1; dir_info path w := dir_info (Host := desk_host) path w.1;
  root_info root name w := root_info (Host := desk_host) root name w.1;
  EvalSymlinks path _ := Ok path; Abs path := Ok path; sha256 := sha256 (Host := desk_host); now _ := 100%Z;
  ctx_err _ w := if (w.2 =? 0)%nat then Some (Sentinel "context deadline exceeded") else None;
  decode_draft := decode_draft (Host := desk_host); decode_drafts := decode_drafts (Host := desk_host);
  decode_ready := decode_ready (Host := desk_host); decode_open := decode_open (Host := desk_host);
  decode_ref := decode_ref (Host := desk_host); decode_repository := decode_repository (Host := desk_host);
  decode_file := decode_file (Host := desk_host) |}.

Lemma timed_dated : dated (B := timed_boundary) (snd : timed -> nat).
Proof.
  split.
  - intros args input w. cbn. by destruct (desk_git args input w.1).
  - intros method path body w. cbn. by destruct (desk_request method path body w.1).
  - intros call w. cbn. unfold timed_call. destruct (desk_call call w.1). destruct call; cbn; lia.
  - intros d w _. cbn. unfold timed_call. destruct (desk_call (Sleep d) w.1). cbn. destruct w.2 as [|[|n]]; cbn; [discriminate..|lia].
Qed.

Definition timed_start : flow (B := timed_boundary) := {| world := (empty_desk, 3); log := [] |}.

Lemma ObserveGoalCI_terminates_witness :
  (exists o s, ObserveGoalCI 4 true (desk_goal desk_old) desk_old 30 timed_start = Some (Ok (o, Some (Sentinel "context deadline exceeded")), s) /\
     obs_State o = Pending) /\
  ObserveGoalCI (4 + 100) true (desk_goal desk_old) desk_old 30 timed_start = ObserveGoalCI 4 true (desk_goal desk_old) desk_old 30 timed_start.
Proof.
  split; [eexists _, _; split; [vm_compute; reflexivity | reflexivity]|].
  apply (ObserveGoalCI_terminates snd timed_dated 4 100). vm_compute. lia.
Defined.
